(* ===== verification/_CoqProject ===== *)
-Q . S2P
Prelude.v
Machine.v
KState.v
Spin.v
Virtio.v
Traces.v
VirtioOps.v
VirtioProps.v
Bio.v
BufProps.v
Log.v
LogProps.v
LogUse.v
Disk.v
Raid.v
RaidProps.v
Kalloc.v
Evict.v
VM.v
VMProps.v
Str.v
Fs.v
PathProps.v
FsProps.v
Blockmap.v
Trunc.v
Contents.v
Frame.v
Proc.v
ProcProps.v
PTable.v
PageTable.v
FreeTable.v
UserMem.v
File.v
Args.v
Exec.v
Sysfile.v
Sysproc.v
Trap.v
Swap.v
Owners.v
FileProps.v
Grep.v
Umalloc.v
Print.v
PrintProps.v
Ulib.v
Sh.v
ShProps.v
ShRun.v
ShRunProps.v
KPrint.v
Uart.v
Init.v
Wc.v
