(* ===== verification/Prelude.v ===== *)
(** * xv6 with MLFQ scheduling, demand paging and RAID-backed swap, verified

    The program is the xv6 kernel for RISC-V under [src/cs3523-xv6-26-m/kernel],
    extended with system call counters, a multi-level feedback queue scheduler,
    page replacement (a frame table with a clock), disk scheduling (FCFS, SSTF)
    and a swap area striped over simulated disks (RAID 0, 1, 5), and the user
    library and programs under [src/cs3523-xv6-26-m/user]. This library
    translates it into functions and proves what they do.

    ** How the code is modelled

    Kernel code is a function in the monad [M S] of this file: it takes a state
    and gives a result with the state after it, or [Panic] (a call of [panic]),
    or [Fault] (an access the C code has no right to make), or [Diverge] (a loop
    that has used up its fuel). Integers are [Z] with the wrap-around of their C
    type written out ([i32], [u32], [u64], ...); memory is bytes; a C structure
    is a record, an array a list, a pointer into an array an index. A kernel
    function that sleeps is split at the call of [sleep]; interleaving is a
    sequence of such pieces. Spinlocks are the set of locks the running CPU
    holds: taking one twice, releasing one that is not held, and switching with
    one held panic as in the code. One CPU runs; what other CPUs could do between
    two pieces is covered where a theorem quantifies over the pieces.

    ** The parts and their files

    - [Prelude] (this file): the monad, loops, lists indexed by [Z], machine
      integers, bytes. [Machine]: [riscv.h], [memlayout.h], [param.h], physical
      memory. [KState]: the structures of [proc.h], [kalloc.c] and
      [virtio_disk.c], the kernel state, locks, and the interface [BlockStore]
      between the swap code and the disk.
    - [Spin]: [spinlock.c], each access of [acquire] and [release] a step, on any
      number of CPUs, with their interrupt flags.
    - [Bio], [BufProps]: [bio.c] and [sleeplock.c]. [Bio] proves [BlockStore] of
      the cache; [BufProps] has what code that holds and pins buffers needs.
    - [Log], [LogProps], [LogUse]: [log.c]. Transactions, recovery, and blocks
      inside a transaction.
    - [Virtio], [VirtioOps], [VirtioProps]: the driver half of [virtio_disk.c], the
      descriptors and rings it shares with the device. What [virtio_disk_rw] and
      [virtio_disk_intr] do under [vdisk_lock] is cut at each access to a ring
      index or a device register (the entry put in the ring, its index, the
      notification, the interrupt's status, its acknowledgement, each used entry),
      and the device steps between any two pieces. [Traces]: events that steps
      show, and inclusion of the traces of one system in those of another.
    - [Disk], [Raid], [RaidProps]: the scheduling and RAID half of
      [virtio_disk.c].
    - [Kalloc], [Evict]: [kalloc.c]. [VM], [VMProps]: [vm.c]. [PageTable],
      [FreeTable]: the tables [vm.c] keeps in memory as maps from addresses to
      entries, mapping as insertion, unmapping as removal. [UserMem]: the memory
      of a process, from an empty table to a free one. [Frame]: what this
      code leaves alone. [Swap]: allocator, clock, swap area and page fault
      handler together. [Owners]: who has which page, eviction included.
    - [Str]: [string.c].
    - [Fs], [PathProps], [FsProps], [Blockmap], [Contents], [Trunc]: [fs.c].
    - [Proc], [ProcProps], [PTable]: [proc.c]; the file layer is the interface
      [FileOps], which [FileProps] discharges.
    - [File], [FileProps]: [file.c], [pipe.c], [console.c]. [Args], [Sysfile],
      [Sysproc]: [syscall.c], [sysfile.c], [sysproc.c]. [Exec]: [exec.c].
      [Trap]: [trap.c], over the interrupt controller and the handlers it calls.
    - [Uart]: [uart.c], with the device and its interrupts interleaved. [KPrint]:
      [printf.c], over the console of [File].
    - [Grep], [Umalloc], [Wc]: [user/grep.c], [user/umalloc.c], [user/wc.c].
      [Print], [PrintProps]: [user/printf.c], and the numerals and directives it
      shares with the kernel's. [Ulib]: [user/ulib.c].
    - [Sh], [ShProps]: the parser of [user/sh.c]. [ShRun], [ShRunProps]: the rest
      of it, a process as the tree of its system calls. [Init]: [user/init.c].

    ** What the theorems show

    - Storage. Crash safety of a commit and atomicity of a call
      ([LogProps.commit_crash_safe], [fs_call_applies]); log space is never
      overrun, and a waiting call always has a call or a commit under way to wake
      it, the commit going write by write without the log's lock
      ([log_space_reserved]); the cache is an array of blocks
      ([Bio.bcache_refines_array]); the block allocator, inodes, file contents,
      truncation and path walks against what they stand for ([FsProps],
      [Blockmap], [Contents], [Trunc], [PathProps]); the disk driver shows its
      callers no calls, returns and data that a disk with indivisible requests
      would not show, loses no wakeup and no interrupt, and panics on a device
      error only ([VirtioProps]); the UART driver sends every byte, in order
      ([Uart]).
    - Memory. No page has two owners and none is lost, eviction handing pages from
      one owner to the next ([Owners]); a process grows by fresh
      zeroed pages, its child gets the same bytes in pages of its own, and when it
      ends every page of it and of its tables is free again ([UserMem]); eviction and page faults
      keep the contents of pages ([Swap]); copies between user and kernel
      ([VMProps]); a page survives the swap area under RAID 0, and what RAID 1
      and RAID 5 lose ([RaidProps]); the disk queue serves every request once.
    - Processes. The table stays consistent over any turn of the scheduler
      ([PTable]); the MLFQ rules ([ProcProps]); sleeping and waking; pipes as
      queues ([FileProps]).
    - User programs. The pattern matcher of [grep] decides the language of its
      patterns ([Grep]); [malloc] and [free] keep the heap a disjoint union of
      blocks ([Umalloc]); [wc] counts ([Wc]); both [printf]s print their formats
      piece by piece and [atoi] reads a number back ([PrintProps], [KPrint],
      [Ulib]). The shell's parser answers every line and reads back every command
      that can be written ([ShProps]); the line is then run as the command means:
      which programs with which descriptors, each end of a pipe in one place,
      after which waits ([ShRunProps]); [init] starts it on the console ([Init]).
    - Errors the model exposes: pages lost under RAID 1 and RAID 5, a swap slot
      freed while a parent still names it, a panic when a pipe copies from a page
      that has to come back from the disk or when three calls fill the log, a
      process created killed.

    ** Fuel

    Loops of the code run under [loop] with a fuel that bounds their turns: one
    turn per page, block or byte of the range for the copies, two full turns of
    the clock and one step for eviction (after one turn every reference bit is
    clear), one turn per pending request for the disk queue, one per character
    for paths and strings, four per character for the shell's parser. The theorems
    show a result, so the fuel was enough.
    [kalloc] and [evict_pages] call each other; [kalloc] has two nested calls.

    ** Not modelled

    Assembly ([entry.S], [swtch.S], [kernelvec.S], [trampoline.S]) and the
    register set-up of [start.c], [main.c] and [uartinit]. The interrupt
    controller ([plic.c]) is a parameter of the trap handlers, which claim an
    interrupt from it and complete it. The console of [File] sends a character in
    one step; [Uart] has the steps of it, and [uartputc_sync] by itself, not among
    the writers: for the two together the code relies on the FIFO of the device.
    Memory ordering: the stores of a CPU are seen in the order of the program,
    which is what the fences before and after each access that another party looks
    for are there to ensure; the fences themselves do nothing. The file system and
    the swap code reach the disk through the buffer cache of [Bio], whose transfer
    is one step, as [VirtioProps] allows; whether it sleeps on the way, which the
    swap code may not do with a spinlock held, is [bs_sleeps] of the interface
    [BlockStore]. The test programs under [user] and its smaller tools, and the
    directories [PA1] to [PA4], which hold earlier copies of kernel files. *)

From stdpp Require Import base numbers list gmap strings sets fin_maps.

Declare Scope kernel_scope.
Delimit Scope kernel_scope with K.
Open Scope Z_scope.

(** ** Outcomes and the kernel monad *)

(** What running a piece of kernel code can come to. [Panic] is a call of
    [panic()]; [Fault] is an access the C code has no right to make (a null or
    unmapped address, an index outside an array); [Diverge] is a loop that has
    used up the fuel the model gave it. *)
Inductive res (A : Type) : Type :=
| Ok (a : A)
| Panic (msg : string)
| Fault
| Diverge.
Arguments Ok {A} _.
Arguments Panic {A} _.
Arguments Fault {A}.
Arguments Diverge {A}.

(** Code that reads and writes a state [S], and may fail to return. *)
Definition M (S A : Type) : Type := S → res (A * S).

#[global] Instance M_ret {S} : MRet (M S) := λ A (a : A) s, Ok (a, s).
#[global] Instance M_bind {S} : MBind (M S) := λ A B (f : A → M S B) (m : M S A) s,
  match m s with
  | Ok (a, s') => f a s'
  | Panic e => Panic e
  | Fault => Fault
  | Diverge => Diverge
  end.

#[global] Arguments M_bind : simpl never.

Definition panic {S A} (e : string) : M S A := λ _, Panic e.
Definition fault {S A} : M S A := λ _, Fault.
Definition gets {S A} (f : S → A) : M S A := λ s, Ok (f s, s).
Definition modify {S} (f : S → S) : M S unit := λ s, Ok (tt, f s).
Definition opt {S A} (o : option A) : M S A :=
  match o with Some a => mret a | None => fault end.

#[global] Arguments opt : simpl never.

(** [if(c) m;] *)
Definition when {S} (c : bool) (m : M S unit) : M S unit := if c then m else mret tt.

(** ** Loops *)

Section loops.
Context {S : Type}.

(** [for(x in l) body(x);] *)
Fixpoint for_each {A} (body : A → M S unit) (l : list A) : M S unit :=
  match l with
  | [] => mret tt
  | x :: l' => body x ;; for_each body l'
  end.

(** A [for] loop whose body can [break] or [return], with a value. *)
Fixpoint for_find {A R} (body : A → M S (option R)) (l : list A) : M S (option R) :=
  match l with
  | [] => mret None
  | x :: l' => r ← body x ; match r with Some v => mret (Some v) | None => for_find body l' end
  end.

(** [while(1)]: [inl] goes round again, [inr] leaves the loop. *)
Fixpoint loop {X R} (fuel : nat) (body : X → M S (X + R)) (x : X) : M S R :=
  match fuel with
  | O => λ _, Diverge
  | Datatypes.S n => r ← body x ; match r with inl x' => loop n body x' | inr v => mret v end
  end.
End loops.

(** [upto n] is [0; 1; ...; n-1], the values of the index of a C [for] loop. *)
Definition upto (n : Z) : list Z := seqZ 0 n.

(** ** Machine integers *)

(** Unsigned [w]-bit wrap-around. *)
Definition wrap (w z : Z) : Z := z mod 2 ^ w.
Abbreviation u64 := (wrap 64).
Abbreviation u32 := (wrap 32).
Abbreviation u16 := (wrap 16).
Abbreviation u8 := (wrap 8).

(** Two's complement [w]-bit wrap-around: [int] and [long]. *)
Definition swrap (w z : Z) : Z := (z + 2 ^ (w - 1)) mod 2 ^ w - 2 ^ (w - 1).
Abbreviation i32 := (swrap 32).
Abbreviation i64 := (swrap 64).

Lemma swrap_id w z : 0 < w → - 2 ^ (w - 1) ≤ z < 2 ^ (w - 1) → swrap w z = z.
Proof.
  intros. unfold swrap.
  assert (2 ^ w = 2 * 2 ^ (w - 1)) by (rewrite <-Z.pow_succ_r by lia; f_equal; lia).
  rewrite Z.mod_small; lia.
Qed.
Lemma i32_id z : - 2147483648 ≤ z < 2147483648 → i32 z = z.
Proof. intros. apply swrap_id; lia. Qed.
Lemma swrap_range w z : 0 < w → - 2 ^ (w - 1) ≤ swrap w z < 2 ^ (w - 1).
Proof.
  intros. unfold swrap.
  assert (2 ^ w = 2 * 2 ^ (w - 1)) by (rewrite <-Z.pow_succ_r by lia; f_equal; lia).
  assert (0 < 2 ^ (w - 1)) by (apply Z.pow_pos_nonneg; lia).
  pose proof (Z.mod_pos_bound (z + 2 ^ (w - 1)) (2 ^ w)). lia.
Qed.
Lemma wrap_id w z : 0 ≤ z < 2 ^ w → wrap w z = z.
Proof. apply Z.mod_small. Qed.

(** [lia] with division and remainder by constants turned into equations. *)
Ltac dlia := Z.to_euclidean_division_equations; lia.

(** ** Record update *)

(** [Eta R] expands a record into its constructor applied to its fields;
    [Upd get] replaces the field read by [get]. *)
Class Eta (R : Type) := eta : R → R.
Class Upd {R E : Type} (get : R → E) := upd : (E → E) → R → R.
Arguments upd {R E} get {_} _ _.

Ltac mk_upd :=
  match goal with
  | |- @Upd ?R ?E ?get =>
      let e := constr:(_ : Eta R) in
      exact (λ (f : E → E) (r : R), ltac:(
        let b := eval red in (e r) in
        match b with
        | context C [get r] => let b' := context C [f (get r)] in exact b'
        end))
  end.

Notation "r <| g := v |>" := (upd g (λ _, v) r)
  (at level 1, g at level 1, left associativity, format "r <| g  :=  v |>") : kernel_scope.
Notation "r <| g ::= f |>" := (upd g f r)
  (at level 1, g at level 1, left associativity, format "r <| g  ::=  f |>") : kernel_scope.
Open Scope kernel_scope.

(** Set or change one field of the state. *)
Abbreviation setf g v := (modify (λ s, s <| g := v |>)).
Abbreviation updf g f := (modify (λ s, s <| g ::= f |>)).

(** ** Reasoning about the monad *)

Section monad_facts.
Context {S : Type}.
Implicit Types s : S.

Lemma bind_Ok_inv {A B} (m : M S A) (f : A → M S B) s b s'' :
  (m ≫= f) s = Ok (b, s'') → ∃ a s', m s = Ok (a, s') ∧ f a s' = Ok (b, s'').
Proof.
  unfold mbind, M_bind. destruct (m s) as [[a s']| | |] eqn:?; naive_solver.
Qed.

Lemma bind_step {A B} (m : M S A) (f : A → M S B) s a s' :
  m s = Ok (a, s') → (m ≫= f) s = f a s'.
Proof. unfold mbind, M_bind. by intros ->. Qed.

Lemma bind_panic {A B} (m : M S A) (f : A → M S B) s e : m s = Panic e → (m ≫= f) s = Panic e.
Proof. unfold mbind, M_bind. by intros ->. Qed.

Lemma Ok_pair {A} (a : A) s s' : s = s' → Ok (a, s) = Ok (a, s').
Proof. by intros ->. Qed.

Lemma bind_assoc {A B C} (m : M S A) (f : A → M S B) (g : B → M S C) s :
  ((m ≫= f) ≫= g) s = (m ≫= (λ a, f a ≫= g)) s.
Proof. unfold mbind, M_bind. by destruct (m s) as [[]| | |]. Qed.

Lemma for_each_app {A} (body : A → M S unit) l1 l2 s :
  for_each body (l1 ++ l2) s = (for_each body l1 ;; for_each body l2) s.
Proof.
  revert s. induction l1 as [|x l1 IH]; intros s; [done|]. simpl.
  rewrite bind_assoc. unfold mbind, M_bind.
  destruct (body x s) as [[[] s1]| | |]; [|done..].
  specialize (IH s1). unfold mbind, M_bind in IH. done.
Qed.

(** A property every iteration keeps is kept by the loop. *)
Lemma for_each_inv {A} (I : S → Prop) (body : A → M S unit) l s :
  I s →
  (∀ x s, x ∈ l → I s → ∃ s', body x s = Ok (tt, s') ∧ I s') →
  ∃ s', for_each body l s = Ok (tt, s') ∧ I s'.
Proof.
  revert s. induction l as [|x l IH]; intros s HI Hstep; simpl; [by eauto|].
  destruct (Hstep x s) as (s1 & E & HI1); [set_solver|done|].
  rewrite (bind_step _ _ _ _ _ E). apply IH; [done|]. intros y s2 Hy. apply Hstep. set_solver.
Qed.

Lemma for_each_Ok_inv {A} (I : S → Prop) (body : A → M S unit) l s s' :
  I s →
  (∀ x s s', x ∈ l → I s → body x s = Ok (tt, s') → I s') →
  for_each body l s = Ok (tt, s') → I s'.
Proof.
  revert s. induction l as [|x l IH]; intros s HI Hstep; simpl.
  - intros [= <-]. done.
  - intros ([] & s1 & E & E')%bind_Ok_inv.
    eapply (IH s1); [eapply Hstep; [|done|exact E]; set_solver| |exact E'].
    intros y ? ? Hy. apply Hstep. set_solver.
Qed.

(** One turn of a loop. *)
Lemma loop_inl {X R} (body : X → M S (X + R)) n x x' s s' :
  body x s = Ok (inl x', s') → loop (Datatypes.S n) body x s = loop n body x' s'.
Proof. intros E. simpl. by rewrite (bind_step _ _ _ _ _ E). Qed.
Lemma loop_inr {X R} (body : X → M S (X + R)) n x v s s' :
  body x s = Ok (inr v, s') → loop (Datatypes.S n) body x s = Ok (v, s').
Proof. intros E. simpl. by rewrite (bind_step _ _ _ _ _ E). Qed.

(** More fuel never changes an answer. *)
Lemma loop_mono {X R} (body : X → M S (X + R)) n k x s r :
  loop n body x s = r → r ≠ Diverge → loop (n + k) body x s = r.
Proof.
  revert x s. induction n as [|n IH]; intros x s; simpl; [by intros <-|].
  unfold mbind, M_bind. destruct (body x s) as [[[x'|v] s']| | |]; auto.
Qed.
End monad_facts.

(** A search whose body only looks: the first result there is. *)
Fixpoint first_some {A B} (g : A → option B) (l : list A) : option B :=
  match l with
  | [] => None
  | x :: l => match g x with Some b => Some b | None => first_some g l end
  end.

Lemma first_some_Some {A B} (g : A → option B) l b : first_some g l = Some b →
  ∃ l1 x l2, l = l1 ++ x :: l2 ∧ g x = Some b ∧ ∀ y, y ∈ l1 → g y = None.
Proof.
  induction l as [|x l IH]; simpl; [done|]. destruct (g x) as [b'|] eqn:E.
  - intros [= ->]. exists [], x, l. split_and!; [done|done|set_solver].
  - intros (l1 & y & l2 & -> & Hy & Hno)%IH. exists (x :: l1), y, l2. split_and!; [done|done|set_solver].
Qed.
Lemma first_some_None {A B} (g : A → option B) l : first_some g l = None → ∀ x, x ∈ l → g x = None.
Proof. induction l as [|x l IH]; simpl; [set_solver|]. destruct (g x) eqn:E; [done|]. set_solver. Qed.

Lemma first_some_skip {A B} (g : A → option B) l1 l2 :
  (∀ x, x ∈ l1 → g x = None) → first_some g (l1 ++ l2) = first_some g l2.
Proof. induction l1 as [|x l1 IH]; intros H; simpl; [done|]. rewrite H by set_solver. apply IH. set_solver. Qed.

Lemma for_find_app {S A B} (body : A → M S (option B)) l1 l2 s :
  for_find body (l1 ++ l2) s =
    (r ← for_find body l1; match r with Some v => mret (Some v) | None => for_find body l2 end) s.
Proof.
  revert s. induction l1 as [|x l1 IH]; intros s; simpl; [done|]. rewrite bind_assoc. unfold mbind, M_bind.
  destruct (body x s) as [[[v|] s']| | |]; [done| |done..]. apply IH.
Qed.

Lemma for_find_look {S A B} (body : A → M S (option B)) (g : A → option B) l s :
  (∀ x, x ∈ l → body x s = Ok (g x, s)) → for_find body l s = Ok (first_some g l, s).
Proof.
  induction l as [|x l IH]; intros H; simpl; [done|].
  erewrite bind_step by (apply H; set_solver). destruct (g x); [done|]. apply IH. set_solver.
Qed.

(** ** What a computation keeps *)

(** Whenever [m] returns, the states before and after are related by [R]. *)
Definition keeps {S A} (R : relation S) (m : M S A) : Prop :=
  ∀ s a s', m s = Ok (a, s') → R s s'.

Create HintDb keeps.

Section keeps_facts.
Context {S : Type} (R : relation S) `{!PreOrder R}.

Lemma keeps_ret {A} (a : A) : keeps R (mret a : M S A).
Proof. by intros s b s' [= _ <-]. Qed.
Lemma keeps_gets {A} (f : S → A) : keeps R (gets f).
Proof. by intros s b s' [= _ <-]. Qed.
Lemma keeps_opt {A} (o : option A) : keeps R (opt o : M S A).
Proof. destruct o; [apply keeps_ret|done]. Qed.
Lemma keeps_panic {A} e : keeps R (panic e : M S A).
Proof. done. Qed.
Lemma keeps_fault {A} : keeps R (fault : M S A).
Proof. done. Qed.
Lemma keeps_diverge {A} : keeps R ((λ _, Diverge) : M S A).
Proof. done. Qed.
Lemma keeps_modify (f : S → S) : (∀ s, R s (f s)) → keeps R (modify f).
Proof. intros H s a s' [= _ <-]. apply H. Qed.
Lemma keeps_bind {A B} (m : M S A) (k : A → M S B) :
  keeps R m → (∀ a, keeps R (k a)) → keeps R (m ≫= k).
Proof. intros Hm Hk s b s'' (a & s' & E & E')%bind_Ok_inv. etrans; [by eapply Hm|by eapply Hk]. Qed.
Lemma keeps_when c (m : M S unit) : keeps R m → keeps R (when c m).
Proof. destruct c; [done|]. intros _. apply keeps_ret. Qed.
Lemma keeps_for_each {A} (body : A → M S unit) l : (∀ x, keeps R (body x)) → keeps R (for_each body l).
Proof. intros H. induction l; simpl; [apply keeps_ret|by apply keeps_bind]. Qed.
Lemma keeps_for_find {A B} (body : A → M S (option B)) l :
  (∀ x, keeps R (body x)) → keeps R (for_find body l).
Proof.
  intros H. induction l; simpl; [apply keeps_ret|]. apply keeps_bind; [done|]. intros []; [apply keeps_ret|done].
Qed.
Lemma keeps_loop {X B} n (body : X → M S (X + B)) x : (∀ x, keeps R (body x)) → keeps R (loop n body x).
Proof.
  intros H. revert x. induction n; intros x; simpl; [apply keeps_diverge|].
  apply keeps_bind; [done|]. intros []; [done|apply keeps_ret].
Qed.
End keeps_facts.

#[export] Hint Resolve keeps_ret keeps_gets keeps_opt keeps_panic keeps_fault keeps_diverge : keeps.

(** Go through the code of a computation; leaves what no hint settles. *)
Ltac keeps_step :=
  match goal with
  | |- keeps _ (let _ := _ in _) => cbv zeta
  | |- keeps _ _ => solve [eauto 4 with keeps typeclass_instances]
  | |- keeps _ (mbind _ _) => apply keeps_bind; [exact _| |intros ?]
  | |- keeps _ (when _ _) => apply keeps_when; [exact _|]
  | |- keeps _ (for_each _ _) => apply keeps_for_each; [exact _|intros ?]
  | |- keeps _ (for_find _ _) => apply keeps_for_find; [exact _|intros ?]
  | |- keeps _ (loop _ _ _) => apply keeps_loop; [exact _|intros ?]
  | |- keeps _ (match ?x with _ => _ end) => destruct x
  end.
Ltac keeps_solve := repeat keeps_step.

Lemma opt_ok {S A} (o : option A) (a : A) (s : S) : o = Some a → opt o s = Ok (a, s).
Proof. by intros ->. Qed.

(** Binds of equal computations. *)
Lemma M_bind_ext {S A B} (m m' : M S A) (f : A → M S B) s : (∀ s, m s = m' s) → (m ≫= f) s = (m' ≫= f) s.
Proof. intros H. unfold mbind, M_bind. by rewrite H. Qed.
Lemma M_bind_ext_r {S A B} (m : M S A) (f f' : A → M S B) s : (∀ a s, f a s = f' a s) → (m ≫= f) s = (m ≫= f') s.
Proof. intros H. unfold mbind, M_bind. destruct (m s) as [[]| | |]; [apply H|done..]. Qed.

Lemma M_bind_ext_keeps {S A B} (R : relation S) (m : M S A) (f f' : A → M S B) s :
  keeps R m → (∀ a s', R s s' → f a s' = f' a s') → (m ≫= f) s = (m ≫= f') s.
Proof. intros Hm H. unfold mbind, M_bind. destruct (m s) as [[a s']| | |] eqn:E; [|done..]. apply H. by eapply Hm. Qed.

(** A bound step that returns [v], by computation. *)
Tactic Notation "mget" uconstr(v) := erewrite (bind_step _ _ _ v _) by reflexivity.

(** Run a monadic computation symbolically: unfold the combinators in the goal. *)
Ltac mred := unfold mbind, M_bind, mret, M_ret, gets, modify, panic, fault, opt, when; simpl.
Tactic Notation "mred" "in" hyp(H) :=
  unfold mbind, M_bind, mret, M_ret, gets, modify, panic, fault, opt, when in H; simpl in H.

(** Take a computation that returned apart into its steps. *)
Ltac minv H :=
  match type of H with
  | (_ ≫= _) _ = Ok _ =>
      let a := fresh "a" in let s := fresh "s" in let E := fresh "E" in
      apply bind_Ok_inv in H as (a & s & E & H)
  end.

(** ** Lists as byte arrays, indexed by [Z] *)

(** [sub off n l]: the [n] elements of [l] from [off] on. *)
Definition sub {A} (off n : Z) (l : list A) : list A := take (Z.to_nat n) (drop (Z.to_nat off) l).
(** [splice off bs l]: [l] with [bs] written over it at [off]. *)
Definition splice {A} (off : Z) (bs l : list A) : list A :=
  take (Z.to_nat off) l ++ bs ++ drop (Z.to_nat off + length bs) l.
(** [zrepl n x]: [n] copies of [x]. *)
Definition zrepl {A} (n : Z) (x : A) : list A := replicate (Z.to_nat n) x.
Definition zlen {A} (l : list A) : Z := Z.of_nat (length l).
#[global] Arguments sub : simpl never.
#[global] Arguments splice : simpl never.
#[global] Arguments zrepl : simpl never.
#[global] Arguments zlen : simpl never.
#[global] Arguments upto : simpl never.

(** [a[i]] and [a[i] = x] of a C array; [None] when [i] is outside it. *)
Definition znth {A} (l : list A) (i : Z) : option A :=
  if 0 <=? i then l !! Z.to_nat i else None.
Definition zset {A} (l : list A) (i : Z) (x : A) : list A := <[Z.to_nat i := x]> l.
#[global] Arguments znth : simpl never.
#[global] Arguments zset : simpl never.

Section zlists.
Context {A : Type}.
Implicit Types l bs : list A.

Lemma zlen_nonneg l : 0 ≤ zlen l.
Proof. unfold zlen. lia. Qed.
Lemma zlen_app l1 l2 : zlen (l1 ++ l2) = zlen l1 + zlen l2.
Proof. unfold zlen. rewrite length_app. lia. Qed.
Lemma zlen_zrepl n (x : A) : 0 ≤ n → zlen (zrepl n x) = n.
Proof. unfold zlen, zrepl. rewrite length_replicate. lia. Qed.
Lemma zlen_splice off bs l :
  0 ≤ off → off + zlen bs ≤ zlen l → zlen (splice off bs l) = zlen l.
Proof.
  unfold zlen, splice. intros. rewrite !length_app, length_take, length_drop. lia.
Qed.
Lemma zlen_sub off n l : 0 ≤ off → 0 ≤ n → off + n ≤ zlen l → zlen (sub off n l) = n.
Proof. unfold zlen, sub. intros. rewrite length_take, length_drop. lia. Qed.
Lemma zlen_zset l i (x : A) : zlen (zset l i x) = zlen l.
Proof. unfold zlen, zset. by rewrite length_insert. Qed.

Lemma sub_splice_eq off bs l :
  0 ≤ off → off + zlen bs ≤ zlen l → sub off (zlen bs) (splice off bs l) = bs.
Proof.
  unfold zlen, sub, splice. intros.
  rewrite drop_app_length' by (rewrite length_take; lia).
  rewrite take_app_length'; [done|lia].
Qed.

Lemma lookup_splice_lt off bs l (i : nat) :
  (Z.of_nat i < off) → splice off bs l !! i = l !! i ∨ zlen l < off.
Proof.
  unfold splice, zlen. intros. destruct (decide (zlen l < off)) as [|Hl]; [by right|left].
  unfold zlen in Hl. rewrite lookup_app_l by (rewrite length_take; lia).
  by rewrite lookup_take_lt by lia.
Qed.

Lemma sub_splice_before off bs l a n :
  0 ≤ a → 0 ≤ n → a + n ≤ off → off + zlen bs ≤ zlen l →
  sub a n (splice off bs l) = sub a n l.
Proof.
  unfold sub, splice, zlen. intros.
  rewrite drop_app_le by (rewrite length_take; lia).
  rewrite take_app_le by (rewrite length_drop, length_take; lia).
  rewrite skipn_firstn_comm, take_take. f_equal. lia.
Qed.

Lemma sub_splice_after off bs l a n :
  0 ≤ off → off + zlen bs ≤ a → off + zlen bs ≤ zlen l →
  sub a n (splice off bs l) = sub a n l.
Proof.
  unfold sub, splice, zlen. intros. f_equal.
  rewrite app_assoc, drop_app_ge by (rewrite length_app, length_take; lia).
  rewrite length_app, length_take, drop_drop. f_equal. lia.
Qed.

Lemma sub_splice_ne off bs l a n :
  0 ≤ off → 0 ≤ a → 0 ≤ n → off + zlen bs ≤ zlen l →
  a + n ≤ off ∨ off + zlen bs ≤ a →
  sub a n (splice off bs l) = sub a n l.
Proof. intros ? ? ? ? []; auto using sub_splice_before, sub_splice_after. Qed.

Lemma splice_all bs l : zlen bs = zlen l → splice 0 bs l = bs.
Proof.
  unfold splice, zlen. intros. rewrite drop_ge by lia. simpl. apply app_nil_r.
Qed.

Lemma sub_all l n : zlen l = n → sub 0 n l = l.
Proof. unfold sub, zlen. intros <-. simpl. rewrite Nat2Z.id. apply firstn_all. Qed.

Lemma sub_sub a n b k l :
  0 ≤ a → 0 ≤ b → b + k ≤ n → sub b k (sub a n l) = sub (a + b) k l.
Proof.
  unfold sub. intros. rewrite skipn_firstn_comm, take_take, drop_drop.
  f_equal; [lia|f_equal; lia].
Qed.

Lemma sub_zrepl a n k (x : A) : 0 ≤ a → 0 ≤ n → a + n ≤ k → sub a n (zrepl k x) = zrepl n x.
Proof.
  unfold sub, zrepl. intros. rewrite drop_replicate, take_replicate. f_equal. lia.
Qed.

Lemma znth_nat l (i : nat) : znth l (Z.of_nat i) = l !! i.
Proof. unfold znth. rewrite Nat2Z.id. by destruct (Z.leb_spec 0 (Z.of_nat i)); [|lia]. Qed.
Lemma znth_Some l i x : znth l i = Some x → 0 ≤ i < zlen l.
Proof.
  unfold znth, zlen. destruct (Z.leb_spec 0 i); [|done]. intros ?%lookup_lt_Some. lia.
Qed.
Lemma znth_lt l i : 0 ≤ i < zlen l → ∃ x, znth l i = Some x.
Proof.
  unfold znth, zlen. intros. destruct (Z.leb_spec 0 i); [|lia].
  apply lookup_lt_is_Some_2. lia.
Qed.
Lemma znth_zset_eq l i x : 0 ≤ i < zlen l → znth (zset l i x) i = Some x.
Proof.
  unfold znth, zset, zlen. intros. destruct (Z.leb_spec 0 i); [|lia].
  apply list_lookup_insert_eq. lia.
Qed.
Lemma znth_zset_ne l i j x : 0 ≤ i → i ≠ j → znth (zset l i x) j = znth l j.
Proof.
  unfold znth, zset. intros. destruct (Z.leb_spec 0 j); [|done].
  apply list_lookup_insert_ne. lia.
Qed.
Lemma znth_zrepl n i (x : A) : 0 ≤ i < n → znth (zrepl n x) i = Some x.
Proof.
  unfold znth, zrepl. intros. destruct (Z.leb_spec 0 i); [|lia].
  apply lookup_replicate_2. lia.
Qed.
Lemma zset_id l i x : znth l i = Some x → zset l i x = l.
Proof. unfold znth, zset. destruct (0 <=? i); [|done]. apply list_insert_id. Qed.

(** Elements of parts and of spliced lists. *)
Lemma znth_neg l i : i < 0 → znth l i = None.
Proof. unfold znth. intros. destruct (Z.leb_spec 0 i); [lia|done]. Qed.
Lemma znth_ge l i : zlen l ≤ i → znth l i = None.
Proof. unfold znth, zlen. intros. destruct (Z.leb_spec 0 i); [|done]. apply lookup_ge_None. lia. Qed.
Lemma znth_app l1 l2 i : znth (l1 ++ l2) i = if i <? zlen l1 then znth l1 i else znth l2 (i - zlen l1).
Proof.
  unfold znth, zlen. destruct (Z.leb_spec 0 i), (Z.ltb_spec i (Z.of_nat (length l1))); try lia.
  - by rewrite lookup_app_l by lia.
  - destruct (Z.leb_spec 0 (i - Z.of_nat (length l1))); [|lia]. rewrite lookup_app_r by lia. f_equal. lia.
  - done.
Qed.
Lemma znth_take n l i : i < n → znth (take (Z.to_nat n) l) i = znth l i.
Proof. unfold znth. intros. destruct (Z.leb_spec 0 i); [|done]. apply lookup_take_lt. lia. Qed.
Lemma znth_drop n l i : 0 ≤ n → 0 ≤ i → znth (drop (Z.to_nat n) l) i = znth l (n + i).
Proof.
  unfold znth. intros. destruct (Z.leb_spec 0 i), (Z.leb_spec 0 (n + i)); try lia. rewrite lookup_drop. f_equal. lia.
Qed.
Lemma znth_sub off n l i : 0 ≤ off → 0 ≤ i < n → znth (sub off n l) i = znth l (off + i).
Proof. intros. unfold sub. rewrite znth_take by lia. apply znth_drop; lia. Qed.
Lemma zlen_take n l : 0 ≤ n ≤ zlen l → zlen (take (Z.to_nat n) l) = n.
Proof. unfold zlen. intros. rewrite length_take. lia. Qed.
Lemma zlen_drop n l : 0 ≤ n ≤ zlen l → zlen (drop (Z.to_nat n) l) = zlen l - n.
Proof. unfold zlen. intros. rewrite length_drop. lia. Qed.
Lemma znth_splice off bs l i : 0 ≤ off → off + zlen bs ≤ zlen l →
  znth (splice off bs l) i = if (off <=? i) && (i <? off + zlen bs) then znth bs (i - off) else znth l i.
Proof.
  intros. pose proof (zlen_nonneg bs). unfold splice. rewrite !znth_app, zlen_take by lia.
  destruct (Z.ltb_spec i off), (Z.leb_spec off i); try lia; simpl; [by apply znth_take|].
  destruct (Z.ltb_spec (i - off) (zlen bs)), (Z.ltb_spec i (off + zlen bs)); try lia; [done|].
  replace (Z.to_nat off + length bs)%nat with (Z.to_nat (off + zlen bs)) by (unfold zlen; lia).
  rewrite znth_drop by lia. f_equal. lia.
Qed.
Lemma znth_ext l l' : zlen l = zlen l' → (∀ i, 0 ≤ i < zlen l → znth l i = znth l' i) → l = l'.
Proof.
  intros Hl H. apply list_eq. intros i. rewrite <-!znth_nat.
  destruct (decide (Z.of_nat i < zlen l)); [apply H; lia|]. by rewrite !znth_ge by lia.
Qed.
End zlists.

Lemma filter_ext_in {A} (P Q : A → Prop) `{!∀ x, Decision (P x), !∀ x, Decision (Q x)} (l : list A) :
  (∀ x, x ∈ l → P x ↔ Q x) → filter P l = filter Q l.
Proof.
  induction l as [|x l IH]; [done|]. intros HP. rewrite !filter_cons. assert (P x ↔ Q x) by (apply HP; by left).
  rewrite IH by (intros; apply HP; by right). destruct (decide (P x)), (decide (Q x)); tauto.
Qed.
Lemma filter_id {A} (P : A → Prop) `{!∀ x, Decision (P x)} (l : list A) : (∀ x, x ∈ l → P x) → filter P l = l.
Proof.
  induction l as [|x l IH]; [done|]. intros HP. rewrite filter_cons_True by (apply HP; by left). f_equal. apply IH. intros; apply HP; by right.
Qed.
Lemma elem_of_upto n i : i ∈ upto n ↔ 0 ≤ i < n.
Proof. unfold upto. rewrite elem_of_seqZ. lia. Qed.

Lemma zlen_upto n : 0 ≤ n → zlen (upto n) = n.
Proof. intros. unfold zlen, upto. rewrite length_seqZ. lia. Qed.
Lemma znth_upto n i : 0 ≤ i < n → znth (upto n) i = Some i.
Proof. intros. unfold znth, upto. destruct (Z.leb_spec 0 i); [|lia]. apply lookup_seqZ. lia. Qed.
Lemma znth_fmap {A B} (f : A → B) l i : znth (f <$> l) i = f <$> znth l i.
Proof. unfold znth. destruct (0 <=? i); [|done]. apply list_lookup_fmap. Qed.

Lemma upto_S n : 0 ≤ n → upto (n + 1) = upto n ++ [n].
Proof. intros. unfold upto. rewrite seqZ_app by lia. f_equal. Qed.

Lemma upto_split n k : 0 ≤ k < n → upto n = upto k ++ k :: seqZ (k + 1) (n - k - 1).
Proof.
  intros. unfold upto. replace n with (k + (1 + (n - k - 1))) at 1 by lia. rewrite seqZ_app by lia. f_equal.
  rewrite seqZ_app by lia. rewrite Z.add_0_l. f_equal.
Qed.

Create HintDb klist.
#[export] Hint Rewrite @zlen_app @length_app @length_replicate : klist.
#[export] Hint Rewrite @zlen_zset : klist.
#[export] Hint Rewrite @zlen_zrepl @zlen_splice @zlen_sub using lia : klist.
#[export] Hint Resolve zlen_nonneg : klist.
