(* ===== verification/Machine.v ===== *)
(** * The machine: sizes, page-table entries, physical memory

    Models [kernel/riscv.h] (page and page-table-entry macros),
    [kernel/memlayout.h] and [kernel/param.h] (sizes and addresses) and the
    byte-addressed physical memory the kernel reads and writes through its
    direct map. Memory is a map from the address of each 4096-byte page to the
    bytes of that page; 64-bit words are little-endian, as on RISC-V. *)

From stdpp Require Import base numbers list gmap strings.
From S2P Require Import Prelude.
Open Scope Z_scope.
Open Scope kernel_scope.

(** ** Sizes and addresses *)

Abbreviation PGSIZE := 4096.
Abbreviation BSIZE := 1024.
Abbreviation NPROC := 64.
Abbreviation NOFILE := 16.
Abbreviation NBUF := 30.
Abbreviation ROOTDEV := 1.
Abbreviation FSSIZE := 120000.
Abbreviation KERNBASE := 2147483648.            (* 0x80000000 *)
Abbreviation PHYSTOP := 2281701376.             (* KERNBASE + 128*1024*1024 *)
Abbreviation NSWAPSPACE := 4096.
Abbreviation NFRAME := 512.
Abbreviation NDISKS := 4.
Abbreviation SWAP_START := 20000.
Abbreviation NSWAPBLOCKS_PER_MODE := 16384.     (* NSWAPSPACE * (PGSIZE / BSIZE) *)
Abbreviation NDISKREQS := 128.
Abbreviation ROTATIONAL_DELAY := 10.
Abbreviation MAXVA := 274877906944.             (* 1L << (9 + 9 + 9 + 12 - 1) *)
Abbreviation TRAMPOLINE := 274877902848.        (* MAXVA - PGSIZE *)
Abbreviation TRAPFRAME := 274877898752.         (* TRAMPOLINE - PGSIZE *)

(** [KSTACK(p)] *)
Definition KSTACK (p : Z) : Z := TRAMPOLINE - (p + 1) * 2 * PGSIZE.

(** ** Pages *)

Definition PGROUNDUP (sz : Z) : Z := Z.land (u64 (sz + PGSIZE - 1)) (Z.lnot (PGSIZE - 1)).
Definition PGROUNDDOWN (a : Z) : Z := Z.land a (Z.lnot (PGSIZE - 1)).

(** ** Page-table entries *)

Abbreviation PTE_V := 1.
Abbreviation PTE_R := 2.
Abbreviation PTE_W := 4.
Abbreviation PTE_X := 8.
Abbreviation PTE_U := 16.
Abbreviation PTE_SWAPPED := 256.

Definition PA2PTE (pa : Z) : Z := Z.shiftl (Z.shiftr pa 12) 10.
Definition PTE2PA (pte : Z) : Z := u64 (Z.shiftl (Z.shiftr pte 10) 12).
Definition PTE_FLAGS (pte : Z) : Z := Z.land pte 1023.
Definition PX (level va : Z) : Z := Z.land (Z.shiftr va (12 + 9 * level)) 511.

(** [x & m], as a C condition; [x &= ~m]; [x |= m]. *)
Definition has (x m : Z) : bool := negb (Z.land x m =? 0).
Definition clear (x m : Z) : Z := Z.land x (Z.lnot m).
Definition setb (x m : Z) : Z := Z.lor x m.

(** ** Little-endian words *)

Fixpoint le_of (n : nat) (z : Z) : list Z :=
  match n with O => [] | S n => z mod 256 :: le_of n (z / 256) end.
Fixpoint le_val (l : list Z) : Z :=
  match l with [] => 0 | b :: l => b + 256 * le_val l end.

(** ** Physical memory *)

Abbreviation phys := (gmap Z (list Z)).

(** The page an address lies in, and its offset there. *)
Definition pg (a : Z) : Z := a - a mod PGSIZE.
Definition pgoff (a : Z) : Z := a mod PGSIZE.

(** [n] bytes at [a]; an access may not leave its page. *)
Definition mread (m : phys) (a n : Z) : option (list Z) :=
  if pgoff a + n <=? PGSIZE then sub (pgoff a) n <$> m !! pg a else None.
Definition mwrite (m : phys) (a : Z) (bs : list Z) : option phys :=
  if pgoff a + zlen bs <=? PGSIZE
  then (λ p, <[pg a := splice (pgoff a) bs p]> m) <$> m !! pg a else None.

(** An aligned 64-bit word at [a]. *)
Definition mload64 (m : phys) (a : Z) : option Z :=
  if a mod 8 =? 0 then le_val <$> mread m a 8 else None.
Definition mstore64 (m : phys) (a v : Z) : option phys :=
  if a mod 8 =? 0 then mwrite m a (le_of 8 v) else None.

(** Every page is page-aligned and holds [PGSIZE] bytes. *)
Definition mem_wf (m : phys) : Prop :=
  map_Forall (λ pa p, pa mod PGSIZE = 0 ∧ zlen p = PGSIZE) m.

#[global] Arguments wrap : simpl never.
#[global] Arguments swrap : simpl never.
#[global] Arguments PA2PTE : simpl never.
#[global] Arguments PTE2PA : simpl never.
#[global] Arguments PTE_FLAGS : simpl never.
#[global] Arguments PX : simpl never.
#[global] Arguments PGROUNDUP : simpl never.
#[global] Arguments PGROUNDDOWN : simpl never.
#[global] Arguments has : simpl never.
#[global] Arguments clear : simpl never.
#[global] Arguments setb : simpl never.
#[global] Arguments Z.shiftl : simpl never.
#[global] Arguments Z.shiftr : simpl never.

(** ** Facts *)

Lemma le_val_of n z : le_val (le_of n z) = z mod 256 ^ Z.of_nat n.
Proof.
  revert z. induction n as [|n IH]; intros z; [by rewrite Z.mod_1_r|].
  cbn [le_of le_val]. rewrite IH, Nat2Z.inj_succ, Z.pow_succ_r by lia.
  assert (0 < 256 ^ Z.of_nat n) by (apply Z.pow_pos_nonneg; lia).
  rewrite Z.rem_mul_r by lia. done.
Qed.

Lemma length_le_of n z : length (le_of n z) = n.
Proof. revert z. induction n; intros; simpl; auto. Qed.

Lemma le_val_of8 z : 0 ≤ z < 2 ^ 64 → le_val (le_of 8 z) = z.
Proof. intros. rewrite le_val_of. apply Z.mod_small. done. Qed.

Lemma zlen_le_of8 z : zlen (le_of 8 z) = 8.
Proof. unfold zlen. by rewrite length_le_of. Qed.

Section memory_facts.
Implicit Types m : phys.

Lemma pg_pgoff a : a = pg a + pgoff a.
Proof. unfold pg, pgoff. lia. Qed.
Lemma pgoff_bound a : 0 ≤ pgoff a < PGSIZE.
Proof. unfold pgoff. apply Z.mod_pos_bound. lia. Qed.
Lemma pg_aligned a : pg a mod PGSIZE = 0.
Proof. unfold pg. rewrite Zminus_mod_idemp_r, Z.sub_diag. done. Qed.
Lemma pg_id a : a mod PGSIZE = 0 → pg a = a.
Proof. unfold pg. lia. Qed.
Lemma pgoff_id a : a mod PGSIZE = 0 → pgoff a = 0.
Proof. done. Qed.
Lemma pg_add a o : a mod PGSIZE = 0 → 0 ≤ o < PGSIZE → pg (a + o) = a.
Proof.
  unfold pg. intros Ha Ho. rewrite Z.add_mod, Ha, Z.add_0_l, Z.mod_mod by lia.
  rewrite Z.mod_small by lia. lia.
Qed.
Lemma pgoff_add a o : a mod PGSIZE = 0 → 0 ≤ o < PGSIZE → pgoff (a + o) = o.
Proof.
  unfold pgoff. intros Ha Ho. rewrite Z.add_mod, Ha, Z.add_0_l, Z.mod_mod by lia.
  by rewrite Z.mod_small by lia.
Qed.

Lemma mem_wf_len m pa p : mem_wf m → m !! pa = Some p → zlen p = PGSIZE.
Proof. intros H Hp. apply (H _ _ Hp). Qed.
Lemma mem_wf_aligned m pa p : mem_wf m → m !! pa = Some p → pa mod PGSIZE = 0.
Proof. intros H Hp. apply (H _ _ Hp). Qed.
Lemma mem_wf_insert m pa p :
  mem_wf m → pa mod PGSIZE = 0 → zlen p = PGSIZE → mem_wf (<[pa := p]> m).
Proof. intros. apply map_Forall_insert_2; auto. Qed.

(** Writing inside a page that is there succeeds and keeps memory well formed. *)
Lemma mwrite_Some m a bs p :
  m !! pg a = Some p → pgoff a + zlen bs ≤ PGSIZE →
  mwrite m a bs = Some (<[pg a := splice (pgoff a) bs p]> m).
Proof.
  unfold mwrite. intros -> ?. destruct (Z.leb_spec (pgoff a + zlen bs) PGSIZE); [done|lia].
Qed.
Lemma mwrite_wf m a bs m' : mem_wf m → mwrite m a bs = Some m' → mem_wf m'.
Proof.
  unfold mwrite. intros Hwf. destruct (Z.leb_spec (pgoff a + zlen bs) PGSIZE); [|done].
  destruct (m !! pg a) as [p|] eqn:E; [|done]. intros [= <-].
  pose proof (pgoff_bound a). pose proof (mem_wf_len _ _ _ Hwf E).
  apply mem_wf_insert; [done|apply pg_aligned|]. rewrite zlen_splice; lia.
Qed.
Lemma mread_Some m a n p :
  m !! pg a = Some p → pgoff a + n ≤ PGSIZE → mread m a n = Some (sub (pgoff a) n p).
Proof.
  unfold mread. intros -> ?. destruct (Z.leb_spec (pgoff a + n) PGSIZE); [done|lia].
Qed.

(** Read over write, at the same place and at another one. *)
Lemma mread_mwrite_eq m a bs m' :
  mem_wf m → mwrite m a bs = Some m' → mread m' a (zlen bs) = Some bs.
Proof.
  unfold mwrite, mread. intros Hwf. destruct (Z.leb_spec (pgoff a + zlen bs) PGSIZE); [|done].
  destruct (m !! pg a) as [p|] eqn:E; [|done]. intros [= <-].
  rewrite lookup_insert_eq. simpl. pose proof (pgoff_bound a).
  rewrite sub_splice_eq; [done|lia|]. rewrite (mem_wf_len _ _ _ Hwf E). lia.
Qed.
Lemma mread_mwrite_ne m a bs m' b n :
  mem_wf m → mwrite m a bs = Some m' → 0 ≤ n →
  pg a ≠ pg b ∨ pgoff b + n ≤ pgoff a ∨ pgoff a + zlen bs ≤ pgoff b →
  mread m' b n = mread m b n.
Proof.
  unfold mwrite, mread. intros Hwf. destruct (Z.leb_spec (pgoff a + zlen bs) PGSIZE); [|done].
  destruct (m !! pg a) as [p|] eqn:E; [|done]. intros [= <-] ? Hd.
  destruct (Z.leb_spec (pgoff b + n) PGSIZE); [|done].
  destruct (decide (pg a = pg b)) as [Heq|]; [|by rewrite lookup_insert_ne].
  rewrite Heq, lookup_insert_eq, <-Heq, E. simpl.
  pose proof (pgoff_bound a). pose proof (pgoff_bound b).
  rewrite sub_splice_ne; [done|try lia..]. rewrite (mem_wf_len _ _ _ Hwf E). lia.
Qed.

Lemma mload64_store_eq m a v m' :
  mem_wf m → 0 ≤ v < 2 ^ 64 → mstore64 m a v = Some m' → mload64 m' a = Some v.
Proof.
  unfold mstore64, mload64. intros Hwf Hv. destruct (a mod 8 =? 0); [|done].
  intros H%mread_mwrite_eq; [|done]. rewrite zlen_le_of8 in H. rewrite H. simpl fmap.
  change (Some (le_val (le_of 8 v)) = Some v). by rewrite le_val_of8.
Qed.
Lemma pgoff_mod8 a : a mod 8 = 0 → pgoff a mod 8 = 0.
Proof.
  unfold pgoff. intros. rewrite <-Znumtheory.Zmod_div_mod; [done|lia|lia|]. by exists 512.
Qed.
Lemma mload64_store_ne m a v m' b :
  mem_wf m → mstore64 m a v = Some m' → a ≠ b → mload64 m' b = mload64 m b.
Proof.
  unfold mstore64, mload64. intros Hwf.
  destruct (Z.eqb_spec (a mod 8) 0); [|done]. destruct (Z.eqb_spec (b mod 8) 0); [|done].
  intros Hw Hne. erewrite mread_mwrite_ne; [done|done|exact Hw|lia|].
  rewrite zlen_le_of8. unfold pg, pgoff. destruct (decide (pg a = pg b)) as [H|H];
    unfold pg in H; [|by left]. right.
  assert (Ha : pgoff a mod 8 = 0) by auto using pgoff_mod8.
  assert (Hb : pgoff b mod 8 = 0) by auto using pgoff_mod8.
  unfold pgoff in Ha, Hb. revert H Ha Hb.
  generalize (a mod PGSIZE) (b mod PGSIZE). intros x y ? ? ?. dlia.
Qed.
Lemma mstore64_dom m a v m' : mstore64 m a v = Some m' → dom m' = dom m.
Proof.
  unfold mstore64, mwrite. destruct (a mod 8 =? 0); [|done].
  destruct (_ <=? _); [|done]. destruct (m !! pg a) eqn:E; [|done]. intros Hm; injection Hm as <-.
  rewrite dom_insert_L. apply elem_of_dom_2 in E. set_solver.
Qed.
Lemma mstore64_other_page m a v m' b : mstore64 m a v = Some m' → b ≠ pg a → m' !! b = m !! b.
Proof.
  unfold mstore64, mwrite. destruct (a mod 8 =? 0); [|done].
  destruct (_ <=? _); [|done]. destruct (m !! pg a) eqn:E; [|done]. intros [= <-] ?.
  by rewrite lookup_insert_ne.
Qed.
End memory_facts.

(** ** Bit-field facts *)

Section bits.
Lemma bits_above k x i : 0 ≤ x < 2 ^ k → 0 ≤ k ≤ i → Z.testbit x i = false.
Proof. intros. rewrite <-(Z.mod_small x (2 ^ k)) by lia. apply Z.mod_pow2_bits_high. lia. Qed.

Lemma land_hi_lo a f k : 0 ≤ k → 0 ≤ f < 2 ^ k → Z.land (a * 2 ^ k) f = 0.
Proof.
  intros. apply Z.bits_inj'. intros i ?. rewrite Z.land_spec, Z.bits_0.
  destruct (Z.lt_ge_cases i k); [by rewrite Z.mul_pow2_bits_low|].
  rewrite (bits_above k f) by lia. apply andb_false_r.
Qed.

Lemma lor_hi_lo a f k : 0 ≤ k → 0 ≤ f < 2 ^ k → Z.lor (a * 2 ^ k) f = a * 2 ^ k + f.
Proof.
  intros. pose proof (Z.add_lor_land (a * 2 ^ k) f). rewrite land_hi_lo in * by lia. lia.
Qed.

Lemma lor_bound a b k : 0 ≤ k → 0 ≤ a < 2 ^ k → 0 ≤ b < 2 ^ k → 0 ≤ Z.lor a b < 2 ^ k.
Proof.
  intros. assert (0 ≤ Z.lor a b) by (apply Z.lor_nonneg; lia). split; [done|].
  assert (Z.shiftr (Z.lor a b) k = 0) as E.
  { rewrite Z.shiftr_lor, !Z.shiftr_div_pow2, !Z.div_small by lia. done. }
  rewrite Z.shiftr_div_pow2 in E by lia. apply Z.div_small_iff in E; lia.
Qed.

Lemma land_bound a b k : 0 ≤ k → 0 ≤ b < 2 ^ k → 0 ≤ Z.land a b < 2 ^ k.
Proof.
  intros. assert (0 ≤ Z.land a b) by (apply Z.land_nonneg; lia). split; [done|].
  assert (Z.shiftr (Z.land a b) k = 0) as E.
  { rewrite Z.shiftr_land, (Z.shiftr_div_pow2 b), (Z.div_small b) by lia. apply Z.land_0_r. }
  rewrite Z.shiftr_div_pow2 in E by lia. apply Z.div_small_iff in E; lia.
Qed.

Lemma PGROUNDDOWN_pg a : PGROUNDDOWN a = pg a.
Proof.
  unfold PGROUNDDOWN, pg. rewrite <-Z.ldiff_land. change (PGSIZE - 1) with (Z.ones 12).
  rewrite Z.ldiff_ones_r, Z.shiftl_mul_pow2, Z.shiftr_div_pow2 by lia.
  change (2 ^ 12) with PGSIZE. dlia.
Qed.

Lemma PGROUNDUP_pg sz : 0 ≤ sz ≤ 2 ^ 64 - PGSIZE → PGROUNDUP sz = pg (sz + PGSIZE - 1).
Proof.
  intros. rewrite <-PGROUNDDOWN_pg. unfold PGROUNDUP, PGROUNDDOWN, wrap.
  by rewrite Z.mod_small by lia.
Qed.

(** An entry is a field above bit 10 and ten flag bits below it. *)
Lemma pte_hi hi f : 0 ≤ f < 1024 → Z.shiftr (Z.lor (Z.shiftl hi 10) f) 10 = hi.
Proof.
  intros. rewrite Z.shiftl_mul_pow2, lor_hi_lo, Z.shiftr_div_pow2 by lia. dlia.
Qed.
Lemma pte_land hi f m : 0 ≤ f < 1024 → 0 ≤ m < 1024 →
  Z.land (Z.lor (Z.shiftl hi 10) f) m = Z.land f m.
Proof.
  intros. rewrite Z.land_lor_distr_l, Z.shiftl_mul_pow2, land_hi_lo by lia. done.
Qed.
Lemma pte_flags hi f : 0 ≤ f < 1024 → PTE_FLAGS (Z.lor (Z.shiftl hi 10) f) = f.
Proof.
  intros. unfold PTE_FLAGS. rewrite pte_land by lia. change 1023 with (Z.ones 10).
  rewrite Z.land_ones, Z.mod_small by lia. done.
Qed.
Lemma pte_has hi f m : 0 ≤ f < 1024 → 0 ≤ m < 1024 →
  has (Z.lor (Z.shiftl hi 10) f) m = has f m.
Proof. intros. unfold has. by rewrite pte_land. Qed.

Lemma PTE_FLAGS_bound pte : 0 ≤ PTE_FLAGS pte < 1024.
Proof. unfold PTE_FLAGS. apply (land_bound _ _ 10); lia. Qed.

Lemma PTE2PA_hi pte : 0 ≤ Z.shiftr pte 10 < 2 ^ 52 → PTE2PA pte = Z.shiftr pte 10 * PGSIZE.
Proof.
  intros. unfold PTE2PA, wrap. rewrite Z.shiftl_mul_pow2, Z.mod_small by lia. done.
Qed.

(** The physical address survives the trip through an entry. *)
Lemma PTE2PA_make pa f : 0 ≤ pa < 2 ^ 56 → pa mod PGSIZE = 0 → 0 ≤ f < 1024 →
  PTE2PA (Z.lor (PA2PTE pa) f) = pa.
Proof.
  intros. unfold PA2PTE. rewrite PTE2PA_hi; rewrite pte_hi by lia;
    rewrite Z.shiftr_div_pow2 by lia; change (2 ^ 12) with PGSIZE; dlia.
Qed.

Lemma pte_bound hi f : 0 ≤ f < 1024 → 0 ≤ hi < 2 ^ 54 → 0 ≤ Z.lor (Z.shiftl hi 10) f < 2 ^ 64.
Proof. intros. rewrite Z.shiftl_mul_pow2, lor_hi_lo by lia. lia. Qed.

Lemma has_setb x m : 0 < m → has (setb x m) m = true.
Proof.
  unfold has, setb. intros. apply negb_true_iff, Z.eqb_neq. intros E.
  apply Z.bits_inj_iff' with (n := Z.log2 m) in E; [|apply Z.log2_nonneg].
  by rewrite Z.land_spec, Z.lor_spec, Z.bit_log2, Z.bits_0, orb_true_r in E by lia.
Qed.
Lemma has_clear x m : has (clear x m) m = false.
Proof.
  unfold has, clear. rewrite <-Z.land_assoc, (Z.land_comm (Z.lnot m)), Z.land_lnot_diag.
  by rewrite Z.land_0_r.
Qed.

(** The three 9-bit indices and the page offset make up the address. *)
Lemma PX_div level va : 0 ≤ level → PX level va = (va / 2 ^ (12 + 9 * level)) mod 512.
Proof.
  intros. unfold PX. change 511 with (Z.ones 9).
  by rewrite Z.land_ones, Z.shiftr_div_pow2 by lia.
Qed.
Lemma PX_bound level va : 0 ≤ PX level va < 512.
Proof. unfold PX. apply (land_bound _ _ 9); lia. Qed.
Lemma PX_compose va : 0 ≤ va < MAXVA →
  pg va = PX 2 va * 2 ^ 30 + PX 1 va * 2 ^ 21 + PX 0 va * 2 ^ 12.
Proof. intros. rewrite !PX_div by lia. unfold pg. simpl Z.add. simpl Z.pow. dlia. Qed.

(** Setting and clearing bits of an entry acts on its flags. *)
Lemma PTE_FLAGS_setb x m : 0 ≤ m < 1024 → PTE_FLAGS (setb x m) = setb (PTE_FLAGS x) m.
Proof.
  intros. unfold PTE_FLAGS, setb. rewrite Z.land_lor_distr_l. f_equal.
  change 1023 with (Z.ones 10). rewrite Z.land_ones by lia. apply Z.mod_small. lia.
Qed.
Lemma PTE_FLAGS_clear x m : PTE_FLAGS (clear x m) = clear (PTE_FLAGS x) m.
Proof. unfold PTE_FLAGS, clear. rewrite <-!Z.land_assoc. f_equal. apply Z.land_comm. Qed.
Lemma setb_bound x m k : 0 ≤ k → 0 ≤ x < 2 ^ k → 0 ≤ m < 2 ^ k → 0 ≤ setb x m < 2 ^ k.
Proof. intros. by apply lor_bound. Qed.
Lemma clear_bound x m k : 0 ≤ k → 0 ≤ x < 2 ^ k → 0 ≤ clear x m < 2 ^ k.
Proof. intros. unfold clear. rewrite Z.land_comm. by apply land_bound. Qed.

(** A property of the ten flag bits, by trying all of them. *)
Lemma flags_all (P : Z → bool) : forallb P (seqZ 0 1024) = true → ∀ f, 0 ≤ f < 1024 → P f = true.
Proof. intros H f Hf. eapply forallb_forall in H; [exact H|]. apply list_elem_of_In, elem_of_seqZ. lia. Qed.
End bits.

(** ** Memory that holds bytes *)

Definition mem_bytes (m : phys) : Prop := map_Forall (λ _ p, Forall (λ b, 0 ≤ b < 256) p) m.

Lemma le_val_range l : Forall (λ b, 0 ≤ b < 256) l → 0 ≤ le_val l < 256 ^ zlen l.
Proof.
  unfold zlen. induction 1 as [|b l Hb _ IH]; [simpl; lia|].
  cbn [length le_val]. rewrite Nat2Z.inj_succ, Z.pow_succ_r by lia. lia.
Qed.

Lemma mload64_range m a v : mem_wf m → mem_bytes m → mload64 m a = Some v → 0 ≤ v < 2 ^ 64.
Proof.
  intros Hwf Hb. unfold mload64, mread. destruct (a mod 8 =? 0); [|done].
  destruct (Z.leb_spec (pgoff a + 8) PGSIZE); [|done]. destruct (m !! pg a) as [p|] eqn:E; [|done].
  simpl. intros [= <-]. pose proof (pgoff_bound a). pose proof (mem_wf_len _ _ _ Hwf E).
  pose proof (le_val_range (sub (pgoff a) 8 p)) as Hr. rewrite zlen_sub in Hr by lia. apply Hr.
  unfold sub. apply Forall_take, Forall_drop. by apply (Hb _ _ E).
Qed.

Lemma splice_splice {A} off (bs bs' l : list A) :
  0 ≤ off → off + zlen bs ≤ zlen l → zlen bs' = zlen bs → splice off bs' (splice off bs l) = splice off bs' l.
Proof.
  unfold splice, zlen. intros.
  rewrite take_app_le, take_take, Nat.min_id by (rewrite length_take; lia). f_equal. f_equal.
  rewrite !app_assoc, drop_app_ge by (rewrite length_app, length_take; lia).
  rewrite length_app, length_take, drop_drop. f_equal. lia.
Qed.

(** Only the last of two stores to a word counts. *)
Lemma mstore64_twice m a v m1 w : mem_wf m → mstore64 m a v = Some m1 → mstore64 m1 a w = mstore64 m a w.
Proof.
  unfold mstore64, mwrite. intros Hwf. destruct (a mod 8 =? 0); [|done]. rewrite !zlen_le_of8.
  destruct (Z.leb_spec (pgoff a + 8) PGSIZE); [|done].
  destruct (m !! pg a) as [p|] eqn:E; [|done]. intros Hm. injection Hm as <-.
  rewrite lookup_insert_eq. cbn [fmap option_fmap option_map]. f_equal. rewrite insert_insert_eq. f_equal.
  pose proof (pgoff_bound a). pose proof (mem_wf_len _ _ _ Hwf E).
  apply (splice_splice (pgoff a) (le_of 8 v) (le_of 8 w)); rewrite ?zlen_le_of8; lia.
Qed.

(** A word that can be read can be written. *)
Lemma mstore64_ok m a v w : mload64 m a = Some v → ∃ m', mstore64 m a w = Some m'.
Proof.
  unfold mload64, mstore64, mread, mwrite. destruct (a mod 8 =? 0); [|done].
  rewrite zlen_le_of8. destruct (_ <=? _); [|done]. destruct (m !! pg a); [|done]. eauto.
Qed.
Lemma mstore64_wf m a v m' : mem_wf m → mstore64 m a v = Some m' → mem_wf m'.
Proof. unfold mstore64. intros ?. destruct (a mod 8 =? 0); [|done]. by apply mwrite_wf. Qed.
