(* ===== verification/KState.v ===== *)
(** * Kernel data and the kernel state

    The C structures ([kernel/proc.h], the globals of [kernel/kalloc.c],
    [kernel/virtio_disk.c], [kernel/proc.c] and [kernel/trap.c]) as records,
    one record [kst] holding the globals the memory, swap and process code
    shares, spinlocks as the set of locks the running CPU holds, and the
    interface [BlockStore] through which the swap code reaches the disk. *)

From stdpp Require Import base numbers list gmap strings countable.
From S2P Require Import Prelude Machine.
Open Scope Z_scope.
Open Scope kernel_scope.

(** ** Locks *)

(** The spinlocks the modelled code takes. *)
Inductive lockid :=
| LKmem | LFrametable | LSwap | LSched | LPid | LWait | LTicks | LCons | LPr
| LProc (i : nat) | LPipe (a : Z).

#[global] Instance lockid_eq_dec : EqDecision lockid.
Proof. solve_decision. Defined.
Definition lockid_enc (l : lockid) : nat + (nat + Z) :=
  match l with
  | LKmem => inl 0%nat | LFrametable => inl 1%nat | LSwap => inl 2%nat | LSched => inl 3%nat
  | LPid => inl 4%nat | LWait => inl 5%nat | LTicks => inl 6%nat | LCons => inl 7%nat | LPr => inl 8%nat
  | LProc i => inr (inl i) | LPipe a => inr (inr a)
  end.
Definition lockid_dec (x : nat + (nat + Z)) : lockid :=
  match x with
  | inl 0%nat => LKmem | inl 1%nat => LFrametable | inl 2%nat => LSwap | inl 3%nat => LSched
  | inl 4%nat => LPid | inl 5%nat => LWait | inl 6%nat => LTicks | inl 7%nat => LCons | inl _ => LPr
  | inr (inl i) => LProc i | inr (inr a) => LPipe a
  end.
Lemma lockid_dec_enc l : lockid_dec (lockid_enc l) = l.
Proof. by destruct l. Qed.
#[global] Instance lockid_countable : Countable lockid :=
  inj_countable' lockid_enc lockid_dec lockid_dec_enc.

(** ** Processes *)

Inductive procstate := UNUSED | USED | SLEEPING | RUNNABLE | RUNNING | ZOMBIE.
#[global] Instance procstate_eq_dec : EqDecision procstate.
Proof. solve_decision. Defined.

(** Sleep channels: the address of a process, of [ticks], of [cons.r], or another
    address. *)
Inductive wchan := ChNone | ChProc (i : nat) | ChTicks | ChCons | ChAddr (a : Z).
#[global] Instance wchan_eq_dec : EqDecision wchan.
Proof. solve_decision. Defined.

(** [struct proc]. A pointer to a process is its index in [proc[NPROC]]. *)
Record proc := MkProc {
  p_state : procstate;
  p_chan : wchan;
  p_killed : Z;
  p_xstate : Z;
  p_pid : Z;
  p_parent : option nat;
  p_kstack : Z;
  p_sz : Z;
  p_pagetable : Z;
  p_trapframe : Z;
  p_context : list Z;
  p_ofile : list (option Z);
  p_cwd : option Z;
  p_name : list Z;
  p_total_syscalls : Z;
  p_cur_q_level : Z;
  p_ticks_at_cur_level : Z;
  p_ticks_per_level : list Z;
  p_num_times_sched : Z;
  p_temp : Z;
  p_page_faults : Z;
  p_pages_evicted : Z;
  p_pages_swapped_in : Z;
  p_pages_swapped_out : Z;
  p_resident_pages : Z;
  p_disk_reads : Z;
  p_disk_writes : Z;
  p_avg_disk_latency : Z;
}.
#[global] Instance proc_eta : Eta proc := λ p, MkProc
  (p_state p) (p_chan p) (p_killed p) (p_xstate p) (p_pid p) (p_parent p) (p_kstack p)
  (p_sz p) (p_pagetable p) (p_trapframe p) (p_context p) (p_ofile p) (p_cwd p) (p_name p)
  (p_total_syscalls p) (p_cur_q_level p) (p_ticks_at_cur_level p) (p_ticks_per_level p)
  (p_num_times_sched p) (p_temp p) (p_page_faults p) (p_pages_evicted p)
  (p_pages_swapped_in p) (p_pages_swapped_out p) (p_resident_pages p) (p_disk_reads p)
  (p_disk_writes p) (p_avg_disk_latency p).
#[global] Instance upd_p_state : Upd p_state := ltac:(mk_upd).
#[global] Instance upd_p_chan : Upd p_chan := ltac:(mk_upd).
#[global] Instance upd_p_killed : Upd p_killed := ltac:(mk_upd).
#[global] Instance upd_p_xstate : Upd p_xstate := ltac:(mk_upd).
#[global] Instance upd_p_pid : Upd p_pid := ltac:(mk_upd).
#[global] Instance upd_p_parent : Upd p_parent := ltac:(mk_upd).
#[global] Instance upd_p_kstack : Upd p_kstack := ltac:(mk_upd).
#[global] Instance upd_p_sz : Upd p_sz := ltac:(mk_upd).
#[global] Instance upd_p_pagetable : Upd p_pagetable := ltac:(mk_upd).
#[global] Instance upd_p_trapframe : Upd p_trapframe := ltac:(mk_upd).
#[global] Instance upd_p_context : Upd p_context := ltac:(mk_upd).
#[global] Instance upd_p_ofile : Upd p_ofile := ltac:(mk_upd).
#[global] Instance upd_p_cwd : Upd p_cwd := ltac:(mk_upd).
#[global] Instance upd_p_name : Upd p_name := ltac:(mk_upd).
#[global] Instance upd_p_total_syscalls : Upd p_total_syscalls := ltac:(mk_upd).
#[global] Instance upd_p_cur_q_level : Upd p_cur_q_level := ltac:(mk_upd).
#[global] Instance upd_p_ticks_at_cur_level : Upd p_ticks_at_cur_level := ltac:(mk_upd).
#[global] Instance upd_p_ticks_per_level : Upd p_ticks_per_level := ltac:(mk_upd).
#[global] Instance upd_p_num_times_sched : Upd p_num_times_sched := ltac:(mk_upd).
#[global] Instance upd_p_temp : Upd p_temp := ltac:(mk_upd).
#[global] Instance upd_p_page_faults : Upd p_page_faults := ltac:(mk_upd).
#[global] Instance upd_p_pages_evicted : Upd p_pages_evicted := ltac:(mk_upd).
#[global] Instance upd_p_pages_swapped_in : Upd p_pages_swapped_in := ltac:(mk_upd).
#[global] Instance upd_p_pages_swapped_out : Upd p_pages_swapped_out := ltac:(mk_upd).
#[global] Instance upd_p_resident_pages : Upd p_resident_pages := ltac:(mk_upd).
#[global] Instance upd_p_disk_reads : Upd p_disk_reads := ltac:(mk_upd).
#[global] Instance upd_p_disk_writes : Upd p_disk_writes := ltac:(mk_upd).
#[global] Instance upd_p_avg_disk_latency : Upd p_avg_disk_latency := ltac:(mk_upd).

(** A process-table slot as the C loader leaves it: all bytes zero. *)
Definition proc0 : proc :=
  MkProc UNUSED ChNone 0 0 0 None 0 0 0 0 (replicate 14 0) (replicate 16 None) None
    (replicate 16 0) 0 0 0 [0; 0; 0; 0] 0 0 0 0 0 0 0 0 0 0.

(** ** Physical frames *)

(** [struct frame] of [kalloc.c]. *)
Record frame := MkFrame {
  f_in_use : bool;
  f_p : option nat;
  f_reference_bit : bool;
  f_va : Z;
}.
#[global] Instance frame_eta : Eta frame := λ f,
  MkFrame (f_in_use f) (f_p f) (f_reference_bit f) (f_va f).
#[global] Instance upd_f_in_use : Upd f_in_use := ltac:(mk_upd).
#[global] Instance upd_f_p : Upd f_p := ltac:(mk_upd).
#[global] Instance upd_f_reference_bit : Upd f_reference_bit := ltac:(mk_upd).
#[global] Instance upd_f_va : Upd f_va := ltac:(mk_upd).

Definition frame0 : frame := MkFrame false None false 0.

(** ** Disk requests *)

(** Where the [BSIZE]-byte buffer of a request is: in a page of memory, or the
    driver's one static [parity_buf]. *)
Inductive dptr := DMem (a : Z) | DParity.
#[global] Instance dptr_eq_dec : EqDecision dptr.
Proof. solve_decision. Defined.

(** [struct disk_req] of [virtio_disk.c]. *)
Record disk_req := MkReq {
  rq_valid : bool;
  rq_blockno : Z;
  rq_write : bool;
  rq_priority : Z;
  rq_data : dptr;
}.
#[global] Instance disk_req_eta : Eta disk_req := λ r,
  MkReq (rq_valid r) (rq_blockno r) (rq_write r) (rq_priority r) (rq_data r).
#[global] Instance upd_rq_valid : Upd rq_valid := ltac:(mk_upd).

Definition disk_req0 : disk_req := MkReq false 0 false 0 (DMem 0).

(** ** The disk, as the swap code sees it *)

(** What [virtio_disk.c] needs of the buffer cache: [bs_read b] is
    [bread(ROOTDEV, b)], the contents of the buffer, [brelse]; [bs_write b v]
    is [bread], overwriting the buffer with [v], [bwrite], [brelse].
    [bs_sleeps write b] says whether the read, or the write, sleeps on its way. *)
Class BlockStore (D : Type) := {
  bs_read : Z → M D (list Z);
  bs_write : Z → list Z → M D unit;
  bs_sleeps : bool → Z → D → bool;
}.

(** The promise: a read gives the contents of the block and changes none; a
    write changes that block and no other. Blocks beyond the disk image are
    not covered. *)
Class BlockStoreLaws (D : Type) `{BlockStore D} := {
  bs_inv : D → Prop;
  bs_view : D → Z → list Z;
  bs_view_len d b : bs_inv d → 0 ≤ b < FSSIZE → zlen (bs_view d b) = BSIZE;
  bs_read_ok d b : bs_inv d → 0 ≤ b < FSSIZE →
    ∃ d', bs_read b d = Ok (bs_view d b, d') ∧ bs_inv d' ∧ ∀ b', bs_view d' b' = bs_view d b';
  bs_write_ok d b v : bs_inv d → 0 ≤ b < FSSIZE → zlen v = BSIZE →
    ∃ d', bs_write b v d = Ok (tt, d') ∧ bs_inv d' ∧
      ∀ b', bs_view d' b' = if decide (b' = b) then v else bs_view d b';
}.

(** ** The kernel state *)

(** The globals, under their C names; [mem] is physical memory, [bdev] the
    block device behind the buffer cache, [cur] the process running on this
    CPU ([myproc()]) and [held] the spinlocks this CPU holds. *)
Record kst {D : Type} := MkK {
  mem : phys;
  freelist : Z;
  frames : list frame;
  swap_space : list bool;
  clock_hand : Z;
  disk_policy : Z;
  disk_head_pos : Z;
  req_queue : list disk_req;
  stat_reads : Z;
  stat_writes : Z;
  stat_latency_sum : Z;
  stat_req_count : Z;
  raid_mode : Z;
  slot_raid_mode : list Z;
  parity_buf : list Z;
  failed_disk_mask : Z;
  bdev : D;
  procs : list proc;
  initproc : option nat;
  nextpid : Z;
  ticks : Z;
  cur : option nat;
  held : gset lockid;
}.
Arguments kst : clear implicits.
Arguments MkK {D}.

#[global] Instance kst_eta {D} : Eta (kst D) := λ s, MkK
  (mem s) (freelist s) (frames s) (swap_space s) (clock_hand s) (disk_policy s)
  (disk_head_pos s) (req_queue s) (stat_reads s) (stat_writes s) (stat_latency_sum s)
  (stat_req_count s) (raid_mode s) (slot_raid_mode s) (parity_buf s) (failed_disk_mask s)
  (bdev s) (procs s) (initproc s) (nextpid s) (ticks s) (cur s) (held s).
#[global] Instance upd_mem {D} : Upd (@mem D) := ltac:(mk_upd).
#[global] Instance upd_freelist {D} : Upd (@freelist D) := ltac:(mk_upd).
#[global] Instance upd_frames {D} : Upd (@frames D) := ltac:(mk_upd).
#[global] Instance upd_swap_space {D} : Upd (@swap_space D) := ltac:(mk_upd).
#[global] Instance upd_clock_hand {D} : Upd (@clock_hand D) := ltac:(mk_upd).
#[global] Instance upd_disk_policy {D} : Upd (@disk_policy D) := ltac:(mk_upd).
#[global] Instance upd_disk_head_pos {D} : Upd (@disk_head_pos D) := ltac:(mk_upd).
#[global] Instance upd_req_queue {D} : Upd (@req_queue D) := ltac:(mk_upd).
#[global] Instance upd_stat_reads {D} : Upd (@stat_reads D) := ltac:(mk_upd).
#[global] Instance upd_stat_writes {D} : Upd (@stat_writes D) := ltac:(mk_upd).
#[global] Instance upd_stat_latency_sum {D} : Upd (@stat_latency_sum D) := ltac:(mk_upd).
#[global] Instance upd_stat_req_count {D} : Upd (@stat_req_count D) := ltac:(mk_upd).
#[global] Instance upd_raid_mode {D} : Upd (@raid_mode D) := ltac:(mk_upd).
#[global] Instance upd_slot_raid_mode {D} : Upd (@slot_raid_mode D) := ltac:(mk_upd).
#[global] Instance upd_parity_buf {D} : Upd (@parity_buf D) := ltac:(mk_upd).
#[global] Instance upd_failed_disk_mask {D} : Upd (@failed_disk_mask D) := ltac:(mk_upd).
#[global] Instance upd_bdev {D} : Upd (@bdev D) := ltac:(mk_upd).
#[global] Instance upd_procs {D} : Upd (@procs D) := ltac:(mk_upd).
#[global] Instance upd_initproc {D} : Upd (@initproc D) := ltac:(mk_upd).
#[global] Instance upd_nextpid {D} : Upd (@nextpid D) := ltac:(mk_upd).
#[global] Instance upd_ticks {D} : Upd (@ticks D) := ltac:(mk_upd).
#[global] Instance upd_cur {D} : Upd (@cur D) := ltac:(mk_upd).
#[global] Instance upd_held {D} : Upd (@held D) := ltac:(mk_upd).

(** ** Primitive operations *)

Section prims.
Context {D : Type}.
Abbreviation K := (M (kst D)).

(** [acquire(lk)]: panics if this CPU already holds [lk]. *)
Definition acquire (lk : lockid) : K unit :=
  h ← gets held;
  if decide (lk ∈ h) then panic "acquire" else setf held ({[lk]} ∪ h).

(** [release(lk)]: panics unless this CPU holds [lk]. *)
Definition release (lk : lockid) : K unit :=
  h ← gets held;
  if decide (lk ∈ h) then setf held (h ∖ {[lk]}) else panic "release".

(** [holding(lk)] *)
Definition holding (lk : lockid) : K bool := gets (λ s, bool_decide (lk ∈ held s)).

(** Disk I/O sleeps, and [sched()] panics when the sleeper holds a spinlock. *)
Definition may_sleep : K unit :=
  h ← gets held; if decide (h = ∅) then mret tt else panic "sched locks".

(** [*(uint64 * )a], [*(uint64 * )a = v]. *)
Definition load64 (a : Z) : K Z := m ← gets mem; opt (mload64 m a).
Definition store64 (a v : Z) : K unit := m ← gets mem; m' ← opt (mstore64 m a v); setf mem m'.
(** [n] bytes at [a]; writing [bs] at [a]. *)
Definition read_bytes (a n : Z) : K (list Z) := m ← gets mem; opt (mread m a n).
Definition write_bytes (a : Z) (bs : list Z) : K unit :=
  m ← gets mem; m' ← opt (mwrite m a bs); setf mem m'.
(** [memset(pa, c, PGSIZE)] and [memmove(dst, src, PGSIZE)]. *)
Definition memset_page (pa c : Z) : K unit := write_bytes pa (zrepl PGSIZE (u8 c)).
Definition memmove_page (dst src : Z) : K unit := bs ← read_bytes src PGSIZE; write_bytes dst bs.

(** [myproc()], and the fields of process [i]. *)
Definition myproc : K (option nat) := gets cur.
Definition getp (i : nat) : K proc := ps ← gets procs; opt (ps !! i).
Definition updp (i : nat) (f : proc → proc) : K unit :=
  ps ← gets procs; p ← opt (ps !! i); setf procs (<[i := f p]> ps).

(** A call into the block device. *)
Definition lift_bdev {A} (m : M D A) : K A := λ s,
  match m (bdev s) with
  | Ok (a, d) => Ok (a, s <| bdev := d |>)
  | Panic e => Panic e
  | Fault => Fault
  | Diverge => Diverge
  end.
End prims.

(** ** Facts about the primitives *)

Section prim_facts.
Context {D : Type}.
Implicit Types s : kst D.

Lemma acquire_ok lk s : lk ∉ held s →
  acquire lk s = Ok (tt, s <| held := {[lk]} ∪ held s |>).
Proof. intros. unfold acquire. mred. by rewrite decide_False. Qed.
Lemma release_ok lk s : lk ∈ held s →
  release lk s = Ok (tt, s <| held := held s ∖ {[lk]} |>).
Proof. intros. unfold release. mred. by rewrite decide_True. Qed.
Lemma held_restore (lk : lockid) (h : gset lockid) : lk ∉ h → ({[lk]} ∪ h) ∖ {[lk]} = h.
Proof. set_solver. Qed.
Lemma kst_held_id s : s <| held := held s |> = s.
Proof. by destruct s. Qed.
Lemma kst_held_twice s h h' : s <| held := h |> <| held := h' |> = s <| held := h' |>.
Proof. done. Qed.

Lemma may_sleep_ok s : held s = ∅ → may_sleep s = Ok (tt, s).
Proof. intros. unfold may_sleep. mred. by rewrite decide_True. Qed.

Lemma store64_ok a v s m' : mstore64 (mem s) a v = Some m' →
  store64 a v s = Ok (tt, s <| mem := m' |>).
Proof. intros H. unfold store64. mred. by rewrite H. Qed.
Lemma load64_ok a s v : mload64 (mem s) a = Some v → load64 a s = Ok (v, s).
Proof. intros H. unfold load64. mred. by rewrite H. Qed.
Lemma read_bytes_ok a n s bs : mread (mem s) a n = Some bs → read_bytes a n s = Ok (bs, s).
Proof. intros H. unfold read_bytes. mred. by rewrite H. Qed.
Lemma write_bytes_ok a bs s m' : mwrite (mem s) a bs = Some m' →
  write_bytes a bs s = Ok (tt, s <| mem := m' |>).
Proof. intros H. unfold write_bytes. mred. by rewrite H. Qed.
Lemma updp_ok i f s p : procs s !! i = Some p →
  updp i f s = Ok (tt, s <| procs := <[i := f p]> (procs s) |>).
Proof. intros H. unfold updp. mred. by rewrite H. Qed.
Lemma getp_ok i s p : procs s !! i = Some p → getp i s = Ok (p, s).
Proof. intros H. unfold getp. mred. by rewrite H. Qed.
End prim_facts.

Create HintDb kernel.
#[export] Hint Resolve acquire_ok release_ok may_sleep_ok store64_ok load64_ok
  read_bytes_ok write_bytes_ok updp_ok getp_ok : kernel.

Lemma kst_ext {D} (s s' : kst D) : eta s = eta s' → s = s'.
Proof. by destruct s, s'. Qed.
(** Two states are equal field by field. *)
Ltac kst_eq := apply kst_ext; unfold eta, kst_eta; simpl; f_equal.

(** Run one bound step of the goal whose result [kernel] knows, or by the
    lemma given. *)
Tactic Notation "mstep" uconstr(l) := erewrite bind_step; [|eapply l].
Tactic Notation "mstep" := erewrite bind_step; [|solve [eauto with kernel]].
