(* ===== verification/Spin.v ===== *)
(** * Spinlocks

    Models [kernel/spinlock.c] on several CPUs at the grain of single memory
    accesses: [acquire] and [release] as the steps they take, in any order the
    CPUs take them, with the interrupt flag of each CPU and the nesting of
    [push_off] and [pop_off]. The rest of the library models a lock as an element
    of the set of locks its CPU holds ([KState.acquire], [KState.release],
    [KState.holding]); the theorem of this file is what makes that set
    meaningful. *)

From stdpp Require Import base numbers list functions relations strings.
From S2P Require Import Prelude.
Open Scope Z_scope.
Open Scope kernel_scope.

(** ** Locks and CPUs *)

(** [struct spinlock], without its name. *)
Record spinlock := MkSpin { sp_locked : Z; sp_cpu : option nat }.
#[global] Instance spinlock_eta : Eta spinlock := λ l, MkSpin (sp_locked l) (sp_cpu l).
#[global] Instance upd_sp_locked : Upd sp_locked := ltac:(mk_upd).
#[global] Instance upd_sp_cpu : Upd sp_cpu := ltac:(mk_upd).
Definition initlock : spinlock := MkSpin 0 None.

(** Where a CPU is in the code of this file. [Out] is anywhere else; the others
    are named after the access that comes next. *)
Inductive spc :=
| Out
| AcqLocked (lk : nat)   (* [acquire]: [holding] reads [lk->locked] *)
| AcqCpu (lk : nat)      (* [acquire]: [holding] reads [lk->cpu] *)
| AcqSwap (lk : nat)     (* [acquire]: the atomic swap of the loop *)
| AcqSet (lk : nat)      (* [acquire]: [lk->cpu = mycpu()] *)
| RelLocked (lk : nat)   (* [release]: [holding] reads [lk->locked] *)
| RelCpu (lk : nat)      (* [release]: [holding] reads [lk->cpu] *)
| RelClear (lk : nat)    (* [release]: [lk->cpu = 0] *)
| RelUnlock (lk : nat)   (* [release]: [lk->locked = 0] *)
| RelPop.                (* [release]: [pop_off] *)
#[global] Instance spc_eq_dec : EqDecision spc.
Proof. solve_decision. Defined.

(** [noff] and [intena] of [struct cpu], the interrupt enable bit of the CPU's
    status register, and where the CPU is. *)
Record scpu := MkScpu { c_noff : Z; c_intena : bool; c_sie : bool; c_pc : spc }.
#[global] Instance scpu_eta : Eta scpu := λ c, MkScpu (c_noff c) (c_intena c) (c_sie c) (c_pc c).
#[global] Instance upd_c_noff : Upd c_noff := ltac:(mk_upd).
#[global] Instance upd_c_intena : Upd c_intena := ltac:(mk_upd).
#[global] Instance upd_c_sie : Upd c_sie := ltac:(mk_upd).
#[global] Instance upd_c_pc : Upd c_pc := ltac:(mk_upd).

Record spin := MkSpinSt { sp_cpus : nat → scpu; sp_locks : nat → spinlock }.
#[global] Instance spin_eta : Eta spin := λ s, MkSpinSt (sp_cpus s) (sp_locks s).
#[global] Instance upd_sp_cpus : Upd sp_cpus := ltac:(mk_upd).
#[global] Instance upd_sp_locks : Upd sp_locks := ltac:(mk_upd).

Abbreviation SP := (M spin).

Section cpu.
Context (c : nat).

Definition my {A} (f : scpu → A) : SP A := gets (λ s, f (sp_cpus s c)).
Definition upd_my (f : scpu → scpu) : SP unit := updf sp_cpus (λ t, <[c := f (t c)]> t).
Definition upd_lock (lk : nat) (f : spinlock → spinlock) : SP unit := updf sp_locks (λ t, <[lk := f (t lk)]> t).
Definition goto (p : spc) : SP unit := upd_my (λ x, x <| c_pc := p |>).

(** [intr_get] *)
Definition intr_get : SP bool := my c_sie.
Definition intr_off : SP unit := upd_my (λ x, x <| c_sie := false |>).
Definition intr_on : SP unit := upd_my (λ x, x <| c_sie := true |>).

Definition push_off : SP unit :=
  old ← intr_get;
  intr_off ;;
  noff ← my c_noff;
  when (noff =? 0) (upd_my (λ x, x <| c_intena := old |>)) ;;
  upd_my (λ x, x <| c_noff ::= λ n, i32 (n + 1) |>).

Definition pop_off : SP unit :=
  on ← intr_get;
  if (on : bool) then panic "pop_off - interruptible" else
  noff ← my c_noff;
  if noff <? 1 then panic "pop_off" else
  upd_my (λ x, x <| c_noff ::= λ n, i32 (n - 1) |>) ;;
  x ← my id;
  when ((c_noff x =? 0) && c_intena x) intr_on.

(** The next access of the CPU, on its way through [acquire] or [release]. *)
Definition spin_access : SP unit :=
  pc ← my c_pc;
  match pc with
  | Out => mret tt
  | AcqLocked lk =>
      l ← gets (λ s, sp_locks s lk);
      goto (if sp_locked l =? 0 then AcqSwap lk else AcqCpu lk)
  | AcqCpu lk =>
      l ← gets (λ s, sp_locks s lk);
      if bool_decide (sp_cpu l = Some c) then panic "acquire" else goto (AcqSwap lk)
  | AcqSwap lk =>
      l ← gets (λ s, sp_locks s lk);
      upd_lock lk (λ l, l <| sp_locked := 1 |>) ;;
      goto (if sp_locked l =? 0 then AcqSet lk else AcqSwap lk)
  | AcqSet lk => upd_lock lk (λ l, l <| sp_cpu := Some c |>) ;; goto Out
  | RelLocked lk =>
      l ← gets (λ s, sp_locks s lk);
      if sp_locked l =? 0 then panic "release" else goto (RelCpu lk)
  | RelCpu lk =>
      l ← gets (λ s, sp_locks s lk);
      if bool_decide (sp_cpu l = Some c) then goto (RelClear lk) else panic "release"
  | RelClear lk => upd_lock lk (λ l, l <| sp_cpu := None |>) ;; goto (RelUnlock lk)
  | RelUnlock lk => upd_lock lk (λ l, l <| sp_locked := 0 |>) ;; goto RelPop
  | RelPop => pop_off ;; goto Out
  end.

(** What the kernel asks for. *)
Definition acquire_call (lk : nat) : SP unit := push_off ;; goto (AcqLocked lk).
Definition release_call (lk : nat) : SP unit := goto (RelLocked lk).
End cpu.

(** ** Any number of CPUs, in any order *)

(** The CPUs with what they have asked for: the locks each holds (it has
    returned from [acquire] and has not cleared the owner in [release]), the
    calls of [push_off] it has not undone, and whether it wants interrupts. *)
Record spinsys := MkSys {
  y_sp : spin;
  y_held : nat → list nat;
  y_push : nat → nat;
  y_intr : nat → bool;
}.
Abbreviation pc_of y c := (c_pc (sp_cpus (y_sp y) c)).
Abbreviation noff_of y c := (c_noff (sp_cpus (y_sp y) c)).

Definition held_after (c : nat) (pc : spc) (h : nat → list nat) : nat → list nat :=
  match pc with
  | AcqSet lk => <[c := lk :: h c]> h
  | RelClear lk => <[c := filter (λ x, x ≠ lk) (h c)]> h
  | _ => h
  end.

Inductive spin_step : spinsys → spinsys → Prop :=
| spin_acquire y c lk sp' : pc_of y c = Out → noff_of y c < 2147483647 →
    acquire_call c lk (y_sp y) = Ok (tt, sp') → spin_step y (MkSys sp' (y_held y) (y_push y) (y_intr y))
| spin_release y c lk sp' : pc_of y c = Out →
    release_call c lk (y_sp y) = Ok (tt, sp') → spin_step y (MkSys sp' (y_held y) (y_push y) (y_intr y))
| spin_push y c sp' : pc_of y c = Out → noff_of y c < 2147483647 →
    push_off c (y_sp y) = Ok (tt, sp') → spin_step y (MkSys sp' (y_held y) (<[c := Datatypes.S (y_push y c)]> (y_push y)) (y_intr y))
| spin_pop y c n sp' : pc_of y c = Out → y_push y c = Datatypes.S n →
    pop_off c (y_sp y) = Ok (tt, sp') → spin_step y (MkSys sp' (y_held y) (<[c := n]> (y_push y)) (y_intr y))
| spin_intr y c (on : bool) sp' : pc_of y c = Out → noff_of y c = 0 →
    (if on then intr_on c else intr_off c) (y_sp y) = Ok (tt, sp') →
    spin_step y (MkSys sp' (y_held y) (y_push y) (<[c := on]> (y_intr y)))
| spin_go y c sp' : pc_of y c ≠ Out → spin_access c (y_sp y) = Ok (tt, sp') →
    spin_step y (MkSys sp' (held_after c (pc_of y c) (y_held y)) (y_push y) (y_intr y)).

(** At boot: no lock is held and interrupts are off. *)
Definition spin_boot : spinsys :=
  MkSys (MkSpinSt (λ _, MkScpu 0 false false Out) (λ _, initlock)) (λ _, []) (λ _, O) (λ _, false).

(** How many of a CPU's calls of [push_off] belong to the code it is in. *)
Definition pc_push (p : spc) : Z :=
  match p with AcqLocked _ | AcqCpu _ | AcqSwap _ | AcqSet _ | RelUnlock _ | RelPop => 1 | _ => 0 end.
(** The swap of [acquire] has taken the lock, or the store of [release] has not
    yet given it back. *)
Definition owns (y : spinsys) (c lk : nat) : Prop :=
  lk ∈ y_held y c ∨ pc_of y c = AcqSet lk ∨ pc_of y c = RelUnlock lk.

Record cpu_ok (y : spinsys) (c : nat) : Prop := {
  co_nodup : NoDup (y_held y c);
  co_noff : noff_of y c = Z.of_nat (length (y_held y c)) + Z.of_nat (y_push y c) + pc_push (pc_of y c);
  co_max : noff_of y c ≤ 2147483647;
  co_sie : c_sie (sp_cpus (y_sp y) c) = (noff_of y c =? 0) && y_intr y c;
  co_intena : 0 < noff_of y c → c_intena (sp_cpus (y_sp y) c) = y_intr y c;
  co_new lk : pc_of y c = AcqSwap lk ∨ pc_of y c = AcqSet lk ∨ pc_of y c = RelUnlock lk → lk ∉ y_held y c;
  co_rel lk : pc_of y c = RelClear lk → lk ∈ y_held y c;
}.
Record spin_ok (y : spinsys) : Prop := {
  so_cpu c : cpu_ok y c;
  so_locked c lk : owns y c lk → sp_locked (sp_locks (y_sp y) lk) = 1;
  so_unlocked lk : sp_locked (sp_locks (y_sp y) lk) ≠ 0 → ∃ c, owns y c lk;
  so_uniq c c' lk : owns y c lk → owns y c' lk → c = c';
  so_owner c lk : sp_cpu (sp_locks (y_sp y) lk) = Some c ↔ lk ∈ y_held y c;
}.

(** ** What a step changes *)

(** CPU [c] is now [x]; nothing else about CPUs has changed. *)
Definition cpu_becomes (c : nat) (x : scpu) (s s' : spin) : Prop :=
  sp_cpus s' c = x ∧ ∀ c', c' ≠ c → sp_cpus s' c' = sp_cpus s c'.

Lemma upd_my_ok c f s : ∃ s', upd_my c f s = Ok (tt, s') ∧ cpu_becomes c (f (sp_cpus s c)) s s' ∧ sp_locks s' = sp_locks s.
Proof.
  eexists. split; [reflexivity|]. split; [|done]. split; simpl; [by rewrite fn_lookup_insert|].
  intros c' Hc. by rewrite fn_lookup_insert_ne.
Qed.
Lemma becomes_trans c x x' s1 s2 s3 : cpu_becomes c x s1 s2 → cpu_becomes c x' s2 s3 → cpu_becomes c x' s1 s3.
Proof. intros [_ H1] [E2 H2]. split; [done|]. intros c' Hc. by rewrite H2, H1. Qed.
Lemma upd_lock_ok lk f s : ∃ s', upd_lock lk f s = Ok (tt, s') ∧ sp_cpus s' = sp_cpus s ∧
  sp_locks s' lk = f (sp_locks s lk) ∧ ∀ lk', lk' ≠ lk → sp_locks s' lk' = sp_locks s lk'.
Proof.
  eexists. split; [reflexivity|]. split; [done|]. split; simpl; [by rewrite fn_lookup_insert|].
  intros lk' Hl. by rewrite fn_lookup_insert_ne.
Qed.

Lemma push_off_ok c s : 0 ≤ c_noff (sp_cpus s c) < 2147483647 →
  ∃ s', push_off c s = Ok (tt, s') ∧ sp_locks s' = sp_locks s ∧
    cpu_becomes c (MkScpu (c_noff (sp_cpus s c) + 1)
      (if c_noff (sp_cpus s c) =? 0 then c_sie (sp_cpus s c) else c_intena (sp_cpus s c)) false (c_pc (sp_cpus s c))) s s'.
Proof.
  intros Hn. unfold push_off, intr_get, my. mget (c_sie (sp_cpus s c)).
  destruct (upd_my_ok c (λ x, x <| c_sie := false |>) s) as (s1 & E1 & [H1 H1'] & L1).
  unfold intr_off. rewrite (bind_step _ _ _ _ _ E1). mget (c_noff (sp_cpus s1 c)). rewrite H1. cbn [upd c_noff upd_c_sie].
  set (b := c_noff (sp_cpus s c) =? 0).
  assert (∃ s2, when b (upd_my c (λ x, x <| c_intena := c_sie (sp_cpus s c) |>)) s1 = Ok (tt, s2) ∧ sp_locks s2 = sp_locks s1 ∧
    cpu_becomes c (MkScpu (c_noff (sp_cpus s c)) (if b then c_sie (sp_cpus s c) else c_intena (sp_cpus s c)) false (c_pc (sp_cpus s c))) s1 s2)
    as (s2 & E2 & L2 & H2).
  { destruct b; [|exists s1; split; [done|]; split; [done|]; by split].
    destruct (upd_my_ok c (λ x, x <| c_intena := c_sie (sp_cpus s c) |>) s1) as (s2 & E2 & H2 & L2).
    exists s2. split; [done|]. split; [done|]. by rewrite H1 in H2. }
  rewrite (bind_step _ _ _ _ _ E2).
  destruct (upd_my_ok c (λ x, x <| c_noff ::= λ n, i32 (n + 1) |>) s2) as (s3 & E3 & H3 & L3).
  exists s3. split; [done|]. split; [by rewrite L3, L2|].
  eapply becomes_trans; [split; [exact H1|exact H1']|]. eapply becomes_trans; [exact H2|]. rewrite (proj1 H2) in H3.
  unfold upd, upd_c_noff in H3. simpl in H3. by rewrite i32_id in H3 by lia.
Qed.

Lemma pop_off_ok c s : 0 < c_noff (sp_cpus s c) ≤ 2147483647 → c_sie (sp_cpus s c) = false →
  ∃ s', pop_off c s = Ok (tt, s') ∧ sp_locks s' = sp_locks s ∧
    cpu_becomes c (MkScpu (c_noff (sp_cpus s c) - 1) (c_intena (sp_cpus s c))
      ((c_noff (sp_cpus s c) - 1 =? 0) && c_intena (sp_cpus s c)) (c_pc (sp_cpus s c))) s s'.
Proof.
  intros Hn Hs. unfold pop_off, intr_get, my. mget (c_sie (sp_cpus s c)). rewrite Hs. mget (c_noff (sp_cpus s c)).
  destruct (Z.ltb_spec (c_noff (sp_cpus s c)) 1); [lia|].
  destruct (upd_my_ok c (λ x, x <| c_noff ::= λ n, i32 (n - 1) |>) s) as (s1 & E1 & H1 & L1).
  unfold upd, upd_c_noff in H1. simpl in H1. rewrite i32_id in H1 by lia.
  rewrite (bind_step _ _ _ _ _ E1). mget (sp_cpus s1 c). unfold id. rewrite (proj1 H1). cbn [c_noff c_intena].
  destruct (_ && _).
  - destruct (upd_my_ok c (λ x, x <| c_sie := true |>) s1) as (s2 & E2 & H2 & L2). exists s2. split; [done|].
    split; [by rewrite L2|]. eapply becomes_trans; [exact H1|]. by rewrite (proj1 H1) in H2.
  - exists s1. split; [done|]. split; [done|]. by rewrite Hs in H1.
Qed.

(** ** The invariant *)

Lemma cpu_ok_ext y y' c : cpu_ok y c → sp_cpus (y_sp y') c = sp_cpus (y_sp y) c → y_held y' c = y_held y c →
  y_push y' c = y_push y c → y_intr y' c = y_intr y c → cpu_ok y' c.
Proof. intros [] E1 E2 E3 E4. by split; rewrite ?E1, ?E2, ?E3, ?E4. Qed.

(** A step of [c] that leaves the locks alone. *)
Lemma spin_ok_local y y' c : spin_ok y → cpu_ok y' c →
  (∀ c', c' ≠ c → sp_cpus (y_sp y') c' = sp_cpus (y_sp y) c' ∧ y_push y' c' = y_push y c' ∧ y_intr y' c' = y_intr y c') →
  sp_locks (y_sp y') = sp_locks (y_sp y) → y_held y' = y_held y →
  (∀ lk, (pc_of y' c = AcqSet lk ∨ pc_of y' c = RelUnlock lk) ↔ (pc_of y c = AcqSet lk ∨ pc_of y c = RelUnlock lk)) → spin_ok y'.
Proof.
  intros [Hc Hl Hu Hq Ho] Hc' Hrest El Eh Hpc.
  assert (∀ d lk, owns y' d lk ↔ owns y d lk) as Hown.
  { intros d lk. unfold owns. rewrite Eh. destruct (decide (d = c)) as [->|Hd]; [by rewrite Hpc|].
    by destruct (Hrest d Hd) as (-> & _). }
  split.
  - intros d. destruct (decide (d = c)) as [->|Hd]; [done|]. destruct (Hrest d Hd) as (? & ? & ?).
    eapply cpu_ok_ext; [apply Hc|done|by rewrite Eh|done..].
  - intros d lk Hd%Hown. rewrite El. by eapply Hl.
  - intros lk. rewrite El. intros (d & Hd)%Hu. exists d. by apply Hown.
  - intros d d' lk Hd%Hown Hd'%Hown. by eapply Hq.
  - intros d lk. rewrite El, Eh. apply Ho.
Qed.

(** A step of [c] that writes lock [k]. *)
Lemma spin_ok_lock y y' c k : spin_ok y → cpu_ok y' c →
  (∀ c', c' ≠ c → sp_cpus (y_sp y') c' = sp_cpus (y_sp y) c' ∧ y_held y' c' = y_held y c') →
  (∀ lk, lk ≠ k → sp_locks (y_sp y') lk = sp_locks (y_sp y) lk ∧ (owns y' c lk ↔ owns y c lk) ∧ (lk ∈ y_held y' c ↔ lk ∈ y_held y c)) →
  y_push y' = y_push y → y_intr y' = y_intr y →
  (owns y c k ∨ (∀ d, d ≠ c → ¬ owns y d k) ∨ ¬ owns y' c k) →
  sp_locked (sp_locks (y_sp y') k) = 1 ∨ sp_locked (sp_locks (y_sp y') k) = 0 ∧ owns y c k →
  (sp_locked (sp_locks (y_sp y') k) = 1 ↔ owns y' c k ∨ ∃ d, d ≠ c ∧ owns y d k) →
  (∀ d, sp_cpu (sp_locks (y_sp y') k) = Some d ↔ k ∈ y_held y' d) → spin_ok y'.
Proof.
  intros [Hc Hl Hu Hq Ho] Hc' Hrest Hlk Ep Ei Hex Hval Hiff How.
  assert (∀ d lk, d ≠ c → owns y' d lk ↔ owns y d lk) as Hd.
  { intros d lk Hne. unfold owns. destruct (Hrest d Hne) as [-> ->]. done. }
  assert (∀ d lk, lk ≠ k → owns y' d lk ↔ owns y d lk) as Hk.
  { intros d lk Hne. destruct (decide (d = c)) as [->|]; [apply (Hlk lk Hne)|by apply Hd]. }
  split.
  - intros d. destruct (decide (d = c)) as [->|Hne]; [done|]. destruct (Hrest d Hne).
    eapply cpu_ok_ext; [apply Hc|done..|by rewrite Ep|by rewrite Ei].
  - intros d lk Hdo. destruct (decide (lk = k)) as [->|Hne].
    + apply Hiff. destruct (decide (d = c)) as [->|Hn]; [by left|]. right. exists d. split; [done|by apply Hd].
    + destruct (Hlk lk Hne) as [-> _]. eapply Hl, Hk, Hdo. done.
  - intros lk Hne0. destruct (decide (lk = k)) as [->|Hne].
    + destruct Hval as [Hv|[Hv _]]; [|done]. destruct (proj1 Hiff Hv) as [|(d & Hdc & Hdo)]; [by exists c|].
      exists d. by apply Hd.
    + destruct (Hlk lk Hne) as [E _]. rewrite E in Hne0. destruct (Hu lk Hne0) as (d & Hdo). exists d. by apply Hk.
  - assert (∀ d lk, d ≠ c → owns y' c lk → owns y' d lk → False) as Hcd.
    { intros d lk Hne Hco Hdo%Hd; [|done]. destruct (decide (lk = k)) as [->|Hlne].
      - destruct Hex as [Hex|[Hex|Hex]]; [|by eapply Hex|done]. apply Hne. by eapply Hq.
      - apply Hne. eapply Hq; [exact Hdo|]. by apply Hk. }
    intros d d' lk Hdo Hdo'. destruct (decide (d = c)) as [->|Hn], (decide (d' = c)) as [->|Hn']; [done|..].
    + exfalso. eapply (Hcd d'); done.
    + exfalso. eapply (Hcd d); done.
    + eapply Hq; by apply Hd.
  - intros d lk. destruct (decide (lk = k)) as [->|Hne]; [apply How|]. destruct (Hlk lk Hne) as (E & _ & Hh). rewrite E, Ho.
    destruct (decide (d = c)) as [->|Hn]; [by rewrite Hh|]. by destruct (Hrest d Hn) as [_ ->].
Qed.

Lemma noff_nonneg y c : cpu_ok y c → 0 ≤ noff_of y c.
Proof. intros []. destruct (pc_of y c); simpl in *; lia. Qed.

(** The calls: they run before any shared memory is touched. *)
Lemma spin_call_ok y c x p n on sp' : spin_ok y → pc_of y c = Out → cpu_becomes c x (y_sp y) sp' →
  sp_locks sp' = sp_locks (y_sp y) → c_pc x = p → p ≠ RelPop → (∀ lk, p ≠ AcqSwap lk ∧ p ≠ AcqSet lk ∧ p ≠ RelUnlock lk ∧ p ≠ RelClear lk) →
  c_noff x = Z.of_nat (length (y_held y c)) + Z.of_nat n + pc_push p → c_noff x ≤ 2147483647 →
  c_sie x = (c_noff x =? 0) && on → (0 < c_noff x → c_intena x = on) →
  spin_ok (MkSys sp' (y_held y) (<[c := n]> (y_push y)) (<[c := on]> (y_intr y))).
Proof.
  intros Hok Hpc [Hx Hrest] El Hp Hnp Hpl Hn Hmax Hs Hi. pose proof (so_cpu _ Hok c) as [].
  apply (spin_ok_local y _ c); [done| |intros c' Hc; simpl; rewrite Hrest, !fn_lookup_insert_ne by done; done|done|done|].
  - split; simpl; rewrite ?Hx, ?fn_lookup_insert, ?Hp; try done.
    + intros lk Hor. exfalso. destruct (Hpl lk) as (? & ? & ? & ?). naive_solver.
    + intros lk Hor. exfalso. destruct (Hpl lk) as (? & ? & ? & ?). naive_solver.
  - intros lk. simpl. rewrite Hx, Hp, Hpc. destruct (Hpl lk) as (? & ? & ? & ?). naive_solver.
Qed.

Lemma insert_same {A} (f : nat → A) c : ∀ d, <[c := f c]> f d = f d.
Proof. intros d. destruct (decide (d = c)) as [->|]; [apply fn_lookup_insert|by apply fn_lookup_insert_ne]. Qed.

(** [spin_ok] looks at the ghost functions pointwise. *)
Lemma spin_ok_ext sp h p i p' i' : spin_ok (MkSys sp h p i) → (∀ c, p' c = p c) → (∀ c, i' c = i c) → spin_ok (MkSys sp h p' i').
Proof.
  intros [] Ep Ei. split; [|done..]. intros c. eapply cpu_ok_ext; [apply so_cpu0|done..|apply Ep|apply Ei].
Qed.

Lemma spin_step_calls y y' c : spin_ok y → pc_of y c = Out →
  (∃ lk sp', noff_of y c < 2147483647 ∧ acquire_call c lk (y_sp y) = Ok (tt, sp') ∧ y' = MkSys sp' (y_held y) (y_push y) (y_intr y)) ∨
  (∃ lk sp', release_call c lk (y_sp y) = Ok (tt, sp') ∧ y' = MkSys sp' (y_held y) (y_push y) (y_intr y)) ∨
  (∃ sp', noff_of y c < 2147483647 ∧ push_off c (y_sp y) = Ok (tt, sp') ∧
    y' = MkSys sp' (y_held y) (<[c := Datatypes.S (y_push y c)]> (y_push y)) (y_intr y)) ∨
  (∃ n sp', y_push y c = Datatypes.S n ∧ pop_off c (y_sp y) = Ok (tt, sp') ∧ y' = MkSys sp' (y_held y) (<[c := n]> (y_push y)) (y_intr y)) ∨
  (∃ (on : bool) sp', noff_of y c = 0 ∧ (if on then intr_on c else intr_off c) (y_sp y) = Ok (tt, sp') ∧
    y' = MkSys sp' (y_held y) (y_push y) (<[c := on]> (y_intr y))) → spin_ok y'.
Proof.
  intros Hok Hpc H. pose proof (so_cpu _ Hok c) as Hcc. pose proof (noff_nonneg _ _ Hcc) as Hn0. destruct Hcc as [_ Hn Hm Hs Hi _ _].
  rewrite Hpc in Hn. simpl in Hn.
  destruct H as [(lk & sp' & Hlt & E & ->)|[(lk & sp' & E & ->)|[(sp' & Hlt & E & ->)|[(n & sp' & Hp & E & ->)|(on & sp' & H0 & E & ->)]]]].
  - destruct (push_off_ok c (y_sp y)) as (s1 & E1 & L1 & H1); [lia|]. unfold acquire_call in E. rewrite (bind_step _ _ _ _ _ E1) in E.
    destruct (upd_my_ok c (λ x, x <| c_pc := AcqLocked lk |>) s1) as (s2 & E2 & H2 & L2). unfold goto in E. rewrite E2 in E. injection E as ->.
    rewrite (proj1 H1) in H2. pose proof (becomes_trans _ _ _ _ _ _ H1 H2) as H3.
    eapply (spin_ok_ext _ _ (<[c := y_push y c]> (y_push y)) (<[c := y_intr y c]> (y_intr y)));
      [|intros d; symmetry; apply insert_same|intros d; symmetry; apply insert_same].
    eapply spin_call_ok; [done|done|exact H3|by rewrite L2|reflexivity|done|done|simpl; lia|simpl; lia| |].
    + simpl. by destruct (Z.eqb_spec (noff_of y c + 1) 0); [lia|].
    + intros _. simpl. destruct (Z.eqb_spec (noff_of y c) 0) as [|]; [by rewrite Hs|apply Hi; lia].
  - unfold release_call, goto in E. destruct (upd_my_ok c (λ x, x <| c_pc := RelLocked lk |>) (y_sp y)) as (s2 & E2 & H2 & L2).
    rewrite E2 in E. injection E as ->.
    eapply (spin_ok_ext _ _ (<[c := y_push y c]> (y_push y)) (<[c := y_intr y c]> (y_intr y)));
      [|intros d; symmetry; apply insert_same|intros d; symmetry; apply insert_same].
    eapply spin_call_ok; [done|done|exact H2|done|reflexivity|done|done|simpl; lia|done|exact Hs|exact Hi].
  - destruct (push_off_ok c (y_sp y)) as (s1 & E1 & L1 & H1); [lia|]. rewrite E1 in E. injection E as ->.
    eapply (spin_ok_ext _ _ _ (<[c := y_intr y c]> (y_intr y))); [|reflexivity|intros d; symmetry; apply insert_same].
    eapply spin_call_ok; [done|done|exact H1|done|exact Hpc|done|done|simpl; lia|simpl; lia| |].
    + simpl. by destruct (Z.eqb_spec (noff_of y c + 1) 0); [lia|].
    + intros _. simpl. destruct (Z.eqb_spec (noff_of y c) 0) as [|]; [by rewrite Hs|apply Hi; lia].
  - destruct (pop_off_ok c (y_sp y)) as (s1 & E1 & L1 & H1); [lia|rewrite Hs; destruct (Z.eqb_spec (noff_of y c) 0); [lia|done]|].
    rewrite E1 in E. injection E as ->.
    eapply (spin_ok_ext _ _ _ (<[c := y_intr y c]> (y_intr y))); [|reflexivity|intros d; symmetry; apply insert_same].
    eapply spin_call_ok; [done|done|exact H1|done|exact Hpc|done|done|simpl; lia|simpl; lia| |].
    + simpl. by rewrite Hi by lia.
    + intros _. simpl. apply Hi. lia.
  - assert (cpu_becomes c ((sp_cpus (y_sp y) c) <| c_sie := on |>) (y_sp y) sp' ∧ sp_locks sp' = sp_locks (y_sp y)) as [H1 L1].
    { destruct on; [destruct (upd_my_ok c (λ x, x <| c_sie := true |>) (y_sp y)) as (s2 & E2 & H2 & L2)|
        destruct (upd_my_ok c (λ x, x <| c_sie := false |>) (y_sp y)) as (s2 & E2 & H2 & L2)];
      unfold intr_on, intr_off in E; rewrite E2 in E; by injection E as ->. }
    eapply (spin_ok_ext _ _ (<[c := y_push y c]> (y_push y))); [|intros d; symmetry; apply insert_same|reflexivity].
    eapply spin_call_ok; [done|done|exact H1|done|exact Hpc|done|done|simpl; lia|simpl; lia|simpl; by rewrite H0|simpl; lia].
Qed.

Lemma length_filter_ne (l : list nat) x : NoDup l → x ∈ l → length l = S (length (filter (λ y, y ≠ x) l)).
Proof.
  induction 1 as [|y l Hy Hl IH]; [by intros H%not_elem_of_nil|]. intros [->|Hx]%elem_of_cons.
  - rewrite filter_cons_False by naive_solver. rewrite filter_id; [done|]. by intros z Hz ->.
  - rewrite filter_cons_True by (intros ->; done). simpl. by rewrite (IH Hx).
Qed.

(** Moving on without touching a lock. *)
Lemma spin_goto_ok y c q sp' : spin_ok y → goto c q (y_sp y) = Ok (tt, sp') → pc_push q = pc_push (pc_of y c) →
  (∀ lk, q = AcqSwap lk → lk ∉ y_held y c) → (∀ lk, q = RelClear lk → lk ∈ y_held y c) →
  (∀ lk, q ≠ AcqSet lk ∧ q ≠ RelUnlock lk ∧ pc_of y c ≠ AcqSet lk ∧ pc_of y c ≠ RelUnlock lk) →
  spin_ok (MkSys sp' (y_held y) (y_push y) (y_intr y)).
Proof.
  intros Hok E Hpp Hsw Hrel Hne. unfold goto in E. destruct (upd_my_ok c (λ x, x <| c_pc := q |>) (y_sp y)) as (s1 & E1 & [H1 H1'] & L1).
  rewrite E1 in E. injection E as ->. pose proof (so_cpu _ Hok c) as [].
  apply (spin_ok_local y _ c); [done| |intros d Hd; simpl; by rewrite H1'|done|done|].
  - split; simpl; rewrite ?H1; simpl; try done; [by rewrite co_noff0, Hpp|].
    intros lk [|[Hq|Hq]]; [by apply Hsw|by destruct (Hne lk)|by destruct (Hne lk) as (_ & ? & _)].
  - intros lk. simpl. rewrite H1. simpl. destruct (Hne lk) as (? & ? & ? & ?). naive_solver.
Qed.

(** Writing a lock and moving on. *)
Lemma lock_goto_ok c lk f q s : ∃ s', (upd_lock lk f ;; goto c q) s = Ok (tt, s') ∧
  cpu_becomes c ((sp_cpus s c) <| c_pc := q |>) s s' ∧ sp_locks s' lk = f (sp_locks s lk) ∧
  ∀ lk', lk' ≠ lk → sp_locks s' lk' = sp_locks s lk'.
Proof.
  destruct (upd_lock_ok lk f s) as (s1 & E1 & C1 & L1 & L1'). rewrite (bind_step _ _ _ _ _ E1). unfold goto.
  destruct (upd_my_ok c (λ x, x <| c_pc := q |>) s1) as (s2 & E2 & H2 & L2). exists s2. split; [done|].
  unfold cpu_becomes in *. rewrite C1 in H2. rewrite L2. done.
Qed.

Lemma spin_access_ok y c sp' : spin_ok y → pc_of y c ≠ Out → spin_access c (y_sp y) = Ok (tt, sp') →
  spin_ok (MkSys sp' (held_after c (pc_of y c) (y_held y)) (y_push y) (y_intr y)).
Proof.
  intros Hok Hout E. unfold spin_access, my in E. revert E. mget (pc_of y c).
  pose proof (so_cpu _ Hok c) as Hc. destruct (pc_of y c) as [|lk|lk|lk|lk|lk|lk|lk|lk|] eqn:Hpc; [done|..]; simpl held_after;
    try (mget (sp_locks (y_sp y) lk)).
  - intros E. destruct (Z.eqb_spec (sp_locked (sp_locks (y_sp y) lk)) 0) as [H0|H0];
      (eapply spin_goto_ok; [done|exact E|by rewrite Hpc| |done|intros; by rewrite Hpc]); [|done].
    intros lk' [= <-] Hin. assert (owns y c lk) as Ho by (by left). apply (so_locked _ Hok) in Ho. lia.
  - case_bool_decide as Hcpu; [done|]. intros E. eapply spin_goto_ok; [done|exact E|by rewrite Hpc| |done|intros; by rewrite Hpc].
    intros lk' [= <-] Hin. by apply Hcpu, (so_owner _ Hok).
  - destruct (lock_goto_ok c lk (λ l, l <| sp_locked := 1 |>) (if sp_locked (sp_locks (y_sp y) lk) =? 0 then AcqSet lk else AcqSwap lk) (y_sp y))
      as (s' & E' & [H1 H1'] & L1 & L1'). rewrite E'. intros [= <-].
    assert (lk ∉ y_held y c) as Hnh by (apply (co_new _ _ Hc); rewrite Hpc; by left).
    destruct (Z.eqb_spec (sp_locked (sp_locks (y_sp y) lk)) 0) as [H0|H0].
    + assert (∀ d, ¬ owns y d lk) as Hno by (intros d Ho%(so_locked _ Hok); lia).
      apply (spin_ok_lock y _ c lk); simpl; try done.
      * destruct Hc. split; simpl; rewrite ?H1; simpl; try done; [by rewrite co_noff0, Hpc|].
        intros lk' [|[[= <-]|]]; done.
      * intros d Hd. by rewrite H1'.
      * intros lk' Hne. split; [by apply L1'|]. split; [|done]. unfold owns. simpl. rewrite H1, Hpc. simpl. naive_solver.
      * right. left. intros d _. apply Hno.
      * rewrite L1. by left.
      * rewrite L1. split; [intros _; left; unfold owns; simpl; rewrite H1; simpl; by auto|done].
      * intros d. rewrite L1. apply (so_owner _ Hok).
    + destruct (so_unlocked _ Hok lk H0) as (d & Hd). assert (¬ owns y c lk) as Hnc by (unfold owns; rewrite Hpc; naive_solver).
      apply (spin_ok_lock y _ c lk); simpl; try done.
      * destruct Hc. split; simpl; rewrite ?H1; simpl; try done; [by rewrite co_noff0, Hpc|].
        intros lk' [[= <-]|[|]]; done.
      * intros d' Hd'. by rewrite H1'.
      * intros lk' Hne. split; [by apply L1'|]. split; [|done]. unfold owns. simpl. rewrite H1, Hpc. simpl. naive_solver.
      * right. right. unfold owns. simpl. rewrite H1. simpl. naive_solver.
      * rewrite L1. by left.
      * rewrite L1. split; [intros _; right; exists d; split; [by intros ->|done]|done].
      * intros d'. rewrite L1. apply (so_owner _ Hok).
  - destruct (lock_goto_ok c lk (λ l, l <| sp_cpu := Some c |>) Out (y_sp y)) as (s' & E' & [H1 H1'] & L1 & L1'). rewrite E'. intros [= <-].
    assert (lk ∉ y_held y c) as Hnh by (apply (co_new _ _ Hc); rewrite Hpc; by auto).
    assert (owns y c lk) as Hown by (unfold owns; rewrite Hpc; by auto).
    apply (spin_ok_lock y _ c lk); simpl; try done.
    + destruct Hc. split; simpl; rewrite ?H1, ?fn_lookup_insert; simpl; try done; [by constructor|rewrite co_noff0, Hpc; simpl; lia|naive_solver].
    + intros d Hd. by rewrite H1', fn_lookup_insert_ne.
    + intros lk' Hne. split; [by apply L1'|]. rewrite fn_lookup_insert. unfold owns. simpl. rewrite H1, Hpc, fn_lookup_insert. simpl.
      set_unfold. naive_solver.
    + by left.
    + rewrite L1. left. by apply (so_locked _ Hok c).
    + rewrite L1. split; [intros _; left; left; simpl; rewrite fn_lookup_insert; by left|intros _; by apply (so_locked _ Hok c)].
    + intros d. rewrite L1. simpl. destruct (decide (d = c)) as [->|Hd]; [rewrite fn_lookup_insert; split; [by left|done]|].
      rewrite fn_lookup_insert_ne by done. split; [intros [= ->]; done|]. intros Hin. exfalso. apply Hd.
      eapply (so_uniq _ Hok); [by left|done].
  - intros E. destruct (sp_locked (sp_locks (y_sp y) lk) =? 0); [done|].
    eapply spin_goto_ok; [done|exact E|by rewrite Hpc|done|done|intros; by rewrite Hpc].
  - case_bool_decide as Hcpu; [|done]. intros E. eapply spin_goto_ok; [done|exact E|by rewrite Hpc|done| |intros; by rewrite Hpc].
    intros lk' [= <-]. by apply (so_owner _ Hok).
  - destruct (lock_goto_ok c lk (λ l, l <| sp_cpu := None |>) (RelUnlock lk) (y_sp y)) as (s' & E' & [H1 H1'] & L1 & L1'). rewrite E'. intros [= <-].
    assert (lk ∈ y_held y c) as Hh by (by apply (co_rel _ _ Hc)). assert (owns y c lk) as Hown by (by left).
    pose proof (so_locked _ Hok _ _ Hown) as Hl1.
    apply (spin_ok_lock y _ c lk); simpl; try done.
    + destruct Hc. split; simpl; rewrite ?H1, ?fn_lookup_insert; simpl; try done; [by apply NoDup_filter| |].
      * rewrite co_noff0, Hpc. simpl. pose proof (length_filter_ne (y_held y c) lk co_nodup0 Hh). lia.
      * intros lk' [|[|[= <-]]]; [done|done|]. intros Hin%list_elem_of_filter. naive_solver.
    + intros d Hd. by rewrite H1', fn_lookup_insert_ne.
    + intros lk' Hne. split; [by apply L1'|]. rewrite fn_lookup_insert. unfold owns. simpl. rewrite H1, Hpc, fn_lookup_insert. simpl.
      rewrite list_elem_of_filter. naive_solver.
    + by left.
    + rewrite L1. by left.
    + rewrite L1. split; [intros _; left; unfold owns; simpl; rewrite H1; simpl; by auto|done].
    + intros d. rewrite L1. simpl. destruct (decide (d = c)) as [->|Hd].
      * rewrite fn_lookup_insert, list_elem_of_filter. naive_solver.
      * rewrite fn_lookup_insert_ne by done. split; [done|]. intros Hin. exfalso. apply Hd. eapply (so_uniq _ Hok); [by left|done].
  - destruct (lock_goto_ok c lk (λ l, l <| sp_locked := 0 |>) RelPop (y_sp y)) as (s' & E' & [H1 H1'] & L1 & L1'). rewrite E'. intros [= <-].
    assert (lk ∉ y_held y c) as Hnh by (apply (co_new _ _ Hc); rewrite Hpc; by auto).
    assert (owns y c lk) as Hown by (unfold owns; rewrite Hpc; by auto).
    apply (spin_ok_lock y _ c lk); simpl; try done.
    + destruct Hc. split; simpl; rewrite ?H1; simpl; try done; [by rewrite co_noff0, Hpc|naive_solver].
    + intros d Hd. by rewrite H1'.
    + intros lk' Hne. split; [by apply L1'|]. unfold owns. simpl. rewrite H1, Hpc. simpl. naive_solver.
    + by left.
    + rewrite L1. by right.
    + rewrite L1. simpl. split; [done|]. intros [[|[Hq|Hq]]|(d & Hd & Ho)]; [done|simpl in Hq; by rewrite H1 in Hq..|].
      exfalso. apply Hd. by eapply (so_uniq _ Hok).
    + intros d. rewrite L1. apply (so_owner _ Hok).
  - intros E. pose proof Hc as [Hnd Hn Hm Hs Hi Hnew Hrel]. rewrite Hpc in Hn. simpl in Hn.
    destruct (pop_off_ok c (y_sp y)) as (s1 & E1 & L1 & H1); [lia|rewrite Hs; destruct (Z.eqb_spec (noff_of y c) 0); [lia|done]|].
    rewrite (bind_step _ _ _ _ _ E1) in E. unfold goto in E.
    destruct (upd_my_ok c (λ x, x <| c_pc := Out |>) s1) as (s2 & E2 & H2 & L2). rewrite E2 in E. injection E as <-.
    rewrite (proj1 H1) in H2. pose proof (becomes_trans _ _ _ _ _ _ H1 H2) as [H3 H3'].
    apply (spin_ok_local y _ c); [done| |intros d Hd; simpl; by rewrite H3'|simpl; by rewrite L2|done|].
    + split; simpl; rewrite ?H3; simpl; try done; [lia|lia|by rewrite Hi by lia|intros _; apply Hi; lia|naive_solver].
    + intros lk. simpl. rewrite H3, Hpc. simpl. naive_solver.
Qed.

Lemma spin_step_ok y y' : spin_ok y → spin_step y y' → spin_ok y'.
Proof.
  intros Hok Hs. destruct Hs as [y c lk sp' Hpc ? ?|y c lk sp' Hpc ?|y c sp' Hpc ? ?|y c n sp' Hpc ? ?|y c on sp' Hpc ? ?|y c sp' Hpc ?];
    [eapply spin_step_calls; [done|exact Hpc|naive_solver]..|by apply spin_access_ok].
Qed.
Lemma spin_boot_ok : spin_ok spin_boot.
Proof.
  split.
  - intros c. split; simpl; try done; [apply NoDup_nil_2|naive_solver].
  - intros c lk [H|[H|H]]; [by apply not_elem_of_nil in H|done|done].
  - done.
  - intros c c' lk [H|[H|H]]; [by apply not_elem_of_nil in H|done|done].
  - intros c lk. simpl. split; [done|]. by intros H%not_elem_of_nil.
Qed.

(** C10. Spinlocks exclude, on any number of CPUs that take the memory accesses of
    [acquire] and [release] in any order. Two CPUs never hold the same lock. A CPU
    that holds a lock, or has called [push_off] without undoing it, has interrupts
    off; otherwise they are as it wants them, also after a nest of locks.
    [holding] is true exactly on the CPU that holds the lock. No access panics but
    the second read of [holding] in an [acquire] of a lock the CPU holds already,
    or a read of [holding] in a [release] of one it does not hold. *)
Theorem spinlocks_exclude y : rtc spin_step spin_boot y →
  (∀ c c' lk, lk ∈ y_held y c → lk ∈ y_held y c' → c = c') ∧
  (∀ c, pc_of y c = Out → c_sie (sp_cpus (y_sp y) c) =
    bool_decide (y_held y c = [] ∧ y_push y c = O) && y_intr y c) ∧
  (∀ c lk, let l := sp_locks (y_sp y) lk in
    negb (sp_locked l =? 0) && bool_decide (sp_cpu l = Some c) = bool_decide (lk ∈ y_held y c)) ∧
  (∀ c e, spin_access c (y_sp y) = Panic e → ∃ lk,
    (pc_of y c = AcqCpu lk ∧ lk ∈ y_held y c ∧ e = "acquire") ∨
    ((pc_of y c = RelLocked lk ∨ pc_of y c = RelCpu lk) ∧ lk ∉ y_held y c ∧ e = "release")) ∧
  (∀ c lk, pc_of y c = AcqLocked lk → lk ∈ y_held y c →
    ∃ s, spin_access c (y_sp y) = Ok (tt, s) ∧ c_pc (sp_cpus s c) = AcqCpu lk) ∧
  (∀ c lk, pc_of y c = AcqCpu lk → lk ∈ y_held y c → spin_access c (y_sp y) = Panic "acquire") ∧
  (∀ c lk, pc_of y c = RelCpu lk → lk ∉ y_held y c → spin_access c (y_sp y) = Panic "release").
Proof.
  intros Hr. assert (spin_ok y) as Hok.
  { revert Hr. generalize spin_boot_ok. generalize spin_boot. intros y0 H0 Hr. revert H0.
    induction Hr as [|y0 y1 y2 Hs _ IH]; [done|]. intros H0. by eapply IH, spin_step_ok. }
  split_and!.
  - intros c c' lk H1 H2. eapply (so_uniq _ Hok); by left.
  - intros c Hpc. destruct (so_cpu _ Hok c) as [_ Hn _ Hs _ _ _]. rewrite Hpc in Hn. simpl in Hn. rewrite Hs. f_equal.
    case_bool_decide as Hb; [destruct Hb as [Eh Ep]; rewrite Eh, Ep in Hn; simpl in Hn; lia|].
    apply Z.eqb_neq. intros Hz. apply Hb. destruct (y_held y c); [|simpl in Hn; lia]. split; [done|]. simpl in Hn. lia.
  - intros c lk l. case_bool_decide as Hc; [|rewrite andb_false_r; symmetry; apply bool_decide_eq_false; by rewrite <-(so_owner _ Hok)].
    apply (so_owner _ Hok) in Hc. rewrite bool_decide_true by done. unfold l. by rewrite (so_locked _ Hok c) by (by left).
  - intros c e E. unfold spin_access, my in E. revert E. mget (pc_of y c).
    pose proof (so_cpu _ Hok c) as Hc. destruct (pc_of y c) as [|lk|lk|lk|lk|lk|lk|lk|lk|] eqn:Hpc; try done;
      try (mget (sp_locks (y_sp y) lk)).
    + case_bool_decide as Hcpu; [|done]. intros [= <-]. exists lk. left. split; [done|]. split; [by apply (so_owner _ Hok)|done].
    + destruct (Z.eqb_spec (sp_locked (sp_locks (y_sp y) lk)) 0) as [H0|]; [|done]. intros [= <-]. exists lk. right.
      split; [by left|]. split; [|done]. intros Hin. by rewrite (so_locked _ Hok c) in H0 by (by left).
    + case_bool_decide as Hcpu; [done|]. intros [= <-]. exists lk. right. split; [by right|]. split; [|done].
      intros Hin. by apply Hcpu, (so_owner _ Hok).
    + destruct Hc as [_ Hn Hm Hs _ _ _]. rewrite Hpc in Hn. simpl in Hn.
      destruct (pop_off_ok c (y_sp y)) as (s1 & E1 & _); [lia|rewrite Hs; destruct (Z.eqb_spec (noff_of y c) 0); [lia|done]|].
      by rewrite (bind_step _ _ _ _ _ E1).
  - intros c lk Hpc Hin. unfold spin_access, my. mget (pc_of y c). rewrite Hpc. mget (sp_locks (y_sp y) lk).
    rewrite (so_locked _ Hok c) by (by left). destruct (upd_my_ok c (λ x, x <| c_pc := AcqCpu lk |>) (y_sp y)) as (s & E & [H _] & _).
    exists s. split; [exact E|]. by rewrite H.
  - intros c lk Hpc Hin. unfold spin_access, my. mget (pc_of y c). rewrite Hpc. mget (sp_locks (y_sp y) lk).
    by rewrite bool_decide_true by (by apply (so_owner _ Hok)).
  - intros c lk Hpc Hin. unfold spin_access, my. mget (pc_of y c). rewrite Hpc. mget (sp_locks (y_sp y) lk).
    by rewrite bool_decide_false by (by rewrite (so_owner _ Hok)).
Qed.

(** ** A run of two CPUs *)

(** [None] for a call of the pair's CPU, else its next access. *)
Definition spin_do (k : nat * option nat) (y : spinsys) : option spinsys :=
  let '(c, o) := k in
  match o, pc_of y c with
  | Some lk, Out =>
      if noff_of y c <? 2147483647 then
        match acquire_call c lk (y_sp y) with Ok (_, sp') => Some (MkSys sp' (y_held y) (y_push y) (y_intr y)) | _ => None end
      else None
  | None, Out => None
  | None, pc =>
      match spin_access c (y_sp y) with Ok (_, sp') => Some (MkSys sp' (held_after c pc (y_held y)) (y_push y) (y_intr y)) | _ => None end
  | _, _ => None
  end.
Fixpoint spin_run (l : list (nat * option nat)) (y : spinsys) : option spinsys :=
  match l with [] => Some y | k :: l => y' ← spin_do k y; spin_run l y' end.

Lemma spin_run_rtc l y y' : spin_run l y = Some y' → rtc spin_step y y'.
Proof.
  revert y. induction l as [|[c o] l IH]; intros y; simpl; [intros [= ->]; apply rtc_refl|].
  intros (y1 & E & H)%bind_Some. eapply rtc_l; [|by apply IH]. clear IH H. revert E.
  destruct o as [lk|].
  - destruct (pc_of y c) eqn:Hpc; [|done..]. destruct (Z.ltb_spec (noff_of y c) 2147483647); [|done].
    destruct (acquire_call c lk (y_sp y)) as [[[] sp']| | |] eqn:E; [|done..]. intros [= <-]. by eapply spin_acquire.
  - destruct (decide (pc_of y c = Out)) as [Hpc|Hpc]; [by rewrite Hpc|].
    destruct (spin_access c (y_sp y)) as [[[] sp']| | |] eqn:E; [|destruct (pc_of y c); done..].
    intros Hy. assert (y1 = MkSys sp' (held_after c (pc_of y c) (y_held y)) (y_push y) (y_intr y)) as ->
      by (by destruct (pc_of y c); simplify_eq). by eapply spin_go.
Qed.

(** CPU 0 takes lock 5 while CPU 1 spins for it. *)
Definition two_cpus : list (nat * option nat) :=
  [(0, Some 5); (0, None); (0, None); (1, Some 5); (0, None); (1, None); (1, None); (1, None)]%nat.

Lemma spinlocks_exclude_witness : ∃ y, spin_run two_cpus spin_boot = Some y ∧ 5%nat ∈ y_held y 0%nat ∧ pc_of y 1%nat = AcqSwap 5 ∧
  5%nat ∉ y_held y 1%nat ∧ c_sie (sp_cpus (y_sp y) 0%nat) = false.
Proof.
  destruct (spin_run two_cpus spin_boot) as [y|] eqn:E; [|vm_compute in E; discriminate].
  destruct (spinlocks_exclude y (spin_run_rtc _ _ _ E)) as (Hx & Hi & _).
  assert (pc_of y 0%nat = Out ∧ y_held y 0%nat = [5%nat] ∧ pc_of y 1%nat = AcqSwap 5) as (H0 & H1 & H2).
  { assert (match spin_run two_cpus spin_boot with Some y => pc_of y 0%nat = Out ∧ y_held y 0%nat = [5%nat] ∧ pc_of y 1%nat = AcqSwap 5 | None => False end)
      as H by (vm_compute; done). by rewrite E in H. }
  exists y. split; [done|]. split; [rewrite H1; by left|]. split; [done|]. split.
  - intros Hin. discriminate (Hx 0%nat 1%nat 5%nat ltac:(rewrite H1; by left) Hin).
  - rewrite Hi by done. rewrite H1. done.
Defined.
