(* ===== verification/Virtio.v ===== *)
(** * The disk driver

    Models the driver half of [kernel/virtio_disk.c]: the descriptors and rings
    that the driver shares with the virtio device, [virtio_disk_rw] for any
    number of processes, and [virtio_disk_intr]. A process that sleeps is
    followed to the sleep and from where it wakes up. What the driver does with
    [vdisk_lock] held is cut where the device can see or change something: the
    store in the ring, the new index, the notification, the interrupt's status,
    its acknowledgement and each turn of the handler's loop are pieces of their
    own, between which the device takes requests from the one ring and reports
    them in the other. Each piece's stores are seen in the order of the program,
    which is what the calls of [__sync_synchronize] are for. The device is not
    part of the source: it is a parameter of the theorems, with what the driver's
    comments and the virtio specification they name say it does. *)

From stdpp Require Import base numbers list functions relations strings.
From S2P Require Import Prelude Machine.
Open Scope Z_scope.
Open Scope kernel_scope.

(** ** What driver and device share *)

Definition NUM : Z := 8.
Definition VRING_DESC_F_NEXT : Z := 1.
Definition VRING_DESC_F_WRITE : Z := 2.
Definition VIRTIO_BLK_T_IN : Z := 0.
Definition VIRTIO_BLK_T_OUT : Z := 1.

(** The addresses that descriptors hold: null, [&disk.ops[i]], [b->data] and
    [&disk.info[i].status]. *)
Inductive vaddr := ANull | AOp (i : Z) | AData (b : nat) | AStatus (i : Z).

(** [struct virtq_desc] *)
Record virtq_desc := MkDesc { d_addr : vaddr; d_len : Z; d_flags : Z; d_next : Z }.
(** [struct virtio_blk_req] *)
Record virtio_blk_req := MkReq { rq_type : Z; rq_reserved : Z; rq_sector : Z }.
(** [disk.info[i]] *)
Record vinfo := MkInfo { in_b : option nat; in_status : Z }.
#[global] Instance vinfo_eta : Eta vinfo := λ i, MkInfo (in_b i) (in_status i).
#[global] Instance upd_in_b : Upd in_b := ltac:(mk_upd).
#[global] Instance upd_in_status : Upd in_status := ltac:(mk_upd).
(** What the driver uses of [struct buf]. *)
Record vbuf := MkVbuf { vb_disk : Z; vb_blockno : Z; vb_data : list Z }.
#[global] Instance vbuf_eta : Eta vbuf := λ b, MkVbuf (vb_disk b) (vb_blockno b) (vb_data b).
#[global] Instance upd_vb_disk : Upd vb_disk := ltac:(mk_upd).
#[global] Instance upd_vb_blockno : Upd vb_blockno := ltac:(mk_upd).
#[global] Instance upd_vb_data : Upd vb_data := ltac:(mk_upd).

(** The channels [&disk.free[0]] and [b]. *)
Inductive vchan := ChFree | ChBuf (b : nat).
#[global] Instance vchan_eq_dec : EqDecision vchan.
Proof. solve_decision. Defined.
(** Where a process is in [virtio_disk_rw], with its local variables: not in it,
    about to allocate descriptors, or about to look at [b->disk]. *)
Inductive vpc := VOut | VTry (b : nat) (write : bool) (sector : Z) | VWait (b : nat) (write : bool) (sector idx0 : Z).
Record vthr := MkThr { th_pc : vpc; th_chan : option vchan }.
#[global] Instance vthr_eta : Eta vthr := λ t, MkThr (th_pc t) (th_chan t).
#[global] Instance upd_th_pc : Upd th_pc := ltac:(mk_upd).
#[global] Instance upd_th_chan : Upd th_chan := ltac:(mk_upd).

(** What the CPU that holds [vdisk_lock] does next: nothing, the lock being free;
    in [virtio_disk_rw], with its variables, put the chain in the ring, count it
    in [avail->idx], or notify the device; in [virtio_disk_intr], read the
    interrupt's status, acknowledge it, or look at the next used entry. *)
Inductive vpiece :=
| PNone
| PRing (t b : nat) (write : bool) (sector idx0 : Z)
| PIdx (t b : nat) (write : bool) (sector idx0 : Z)
| PNotify (t b : nat) (write : bool) (sector idx0 : Z)
| PStat | PAck (status : bool) | PDrain.

(** [struct disk] with the rings in it, the buffers and processes, and the
    device: the bit of its interrupt status for used entries, whether it has been
    notified of requests, whether it has yet to raise its interrupt, the entries
    of [avail] it has looked at, the requests it is working on, and its sectors of
    512 bytes. *)
Record vst := MkVst {
  vd_locked : bool;
  vd_run : vpiece;
  vd_desc : list virtq_desc;
  vd_free : list Z;
  vd_used_idx : Z;
  vd_info : list vinfo;
  vd_ops : list virtio_blk_req;
  av_idx : Z;
  av_ring : list Z;
  us_idx : Z;
  us_ring : list Z;
  vd_buf : nat → vbuf;
  vd_thr : nat → vthr;
  dv_irq : bool;
  dv_kick : bool;
  dv_owe : bool;
  dv_seen : Z;
  dv_work : list Z;
  dv_sector : Z → list Z;
}.
#[global] Instance vst_eta : Eta vst := λ s,
  MkVst (vd_locked s) (vd_run s) (vd_desc s) (vd_free s) (vd_used_idx s) (vd_info s) (vd_ops s) (av_idx s) (av_ring s) (us_idx s) (us_ring s)
    (vd_buf s) (vd_thr s) (dv_irq s) (dv_kick s) (dv_owe s) (dv_seen s) (dv_work s) (dv_sector s).
#[global] Instance upd_vd_locked : Upd vd_locked := ltac:(mk_upd).
#[global] Instance upd_vd_run : Upd vd_run := ltac:(mk_upd).
#[global] Instance upd_vd_desc : Upd vd_desc := ltac:(mk_upd).
#[global] Instance upd_vd_free : Upd vd_free := ltac:(mk_upd).
#[global] Instance upd_vd_used_idx : Upd vd_used_idx := ltac:(mk_upd).
#[global] Instance upd_vd_info : Upd vd_info := ltac:(mk_upd).
#[global] Instance upd_vd_ops : Upd vd_ops := ltac:(mk_upd).
#[global] Instance upd_av_idx : Upd av_idx := ltac:(mk_upd).
#[global] Instance upd_av_ring : Upd av_ring := ltac:(mk_upd).
#[global] Instance upd_us_idx : Upd us_idx := ltac:(mk_upd).
#[global] Instance upd_us_ring : Upd us_ring := ltac:(mk_upd).
#[global] Instance upd_vd_buf : Upd vd_buf := ltac:(mk_upd).
#[global] Instance upd_vd_thr : Upd vd_thr := ltac:(mk_upd).
#[global] Instance upd_dv_irq : Upd dv_irq := ltac:(mk_upd).
#[global] Instance upd_dv_kick : Upd dv_kick := ltac:(mk_upd).
#[global] Instance upd_dv_owe : Upd dv_owe := ltac:(mk_upd).
#[global] Instance upd_dv_seen : Upd dv_seen := ltac:(mk_upd).
#[global] Instance upd_dv_work : Upd dv_work := ltac:(mk_upd).
#[global] Instance upd_dv_sector : Upd dv_sector := ltac:(mk_upd).

Abbreviation V := (M vst).

(** Arrays of [NUM] entries: no access outside them. *)
Definition aget {A} (f : vst → list A) (i : Z) : V A := l ← gets f; opt (znth l i).
Definition aset {A} (f : vst → list A) {U : Upd f} (i : Z) (x : A) : V unit :=
  _ ← aget f i; updf f (λ l, zset l i x).
Definition updbuf (b : nat) (f : vbuf → vbuf) : V unit := updf vd_buf (λ t, <[b := f (t b)]> t).
Definition updthr (t : nat) (f : vthr → vthr) : V unit := updf vd_thr (λ u, <[t := f (u t)]> u).

Definition acquire_vd : V unit :=
  l ← gets vd_locked; if (l : bool) then panic "acquire" else setf vd_locked true.
Definition release_vd : V unit :=
  l ← gets vd_locked; if (l : bool) then setf vd_locked false else panic "release".

Definition wake (ch : vchan) (t : vthr) : vthr :=
  if decide (th_chan t = Some ch) then t <| th_chan := None |> else t.
Definition wakeup_vd (ch : vchan) : V unit := updf vd_thr (λ u t, wake ch (u t)).
(** [sleep(ch, &disk.vdisk_lock)], up to the switch to the scheduler. *)
Definition sleep_vd (t : nat) (pc : vpc) (ch : vchan) : V unit :=
  updthr t (λ _, MkThr pc (Some ch)) ;; release_vd.

(** ** Descriptors *)

Definition alloc_desc : V Z :=
  r ← for_find (λ i, f ← aget vd_free i;
                     if f =? 0 then mret None else aset vd_free i 0 ;; mret (Some i)) (upto NUM);
  mret (default (-1) r).

Definition free_desc (i : Z) : V unit :=
  if NUM <=? i then panic "free_desc 1" else
  f ← aget vd_free i;
  if negb (f =? 0) then panic "free_desc 2" else
  aset vd_desc i (MkDesc ANull 0 0 0) ;;
  aset vd_free i 1 ;;
  wakeup_vd ChFree.

Definition free_chain_step (i : Z) : V (Z + unit) :=
  d ← aget vd_desc i;
  free_desc i ;;
  mret (if negb (Z.land (d_flags d) VRING_DESC_F_NEXT =? 0) then inl (d_next d) else inr tt).
(** A descriptor is freed once only, so [NUM] turns are enough. *)
Definition free_chain (i : Z) : V unit := loop (Datatypes.S (Z.to_nat NUM)) free_chain_step i.

(** The loop of [alloc3_desc], with [n] to go; the result and [idx]. *)
Fixpoint alloc_descs (n : nat) (idx : list Z) : V (Z * list Z) :=
  match n with
  | O => mret (0, idx)
  | Datatypes.S n =>
      i ← alloc_desc;
      if i <? 0 then for_each free_desc idx ;; mret (-1, idx) else alloc_descs n (idx ++ [i])
  end.
Definition alloc3_desc : V (Z * list Z) := alloc_descs 3 [].

(** ** Requests *)

(** Fill in the three descriptors, none of which the device looks at yet. *)
Definition format_request (b : nat) (write : bool) (sector i0 i1 i2 : Z) : V unit :=
  aset vd_ops i0 (MkReq (if write then VIRTIO_BLK_T_OUT else VIRTIO_BLK_T_IN) 0 sector) ;;
  aset vd_desc i0 (MkDesc (AOp i0) 16 VRING_DESC_F_NEXT i1) ;;
  aset vd_desc i1 (MkDesc (AData b) BSIZE
    (Z.lor (if write then 0 else VRING_DESC_F_WRITE) VRING_DESC_F_NEXT) i2) ;;
  i ← aget vd_info i0;
  aset vd_info i0 (i <| in_status := 255 |>) ;;
  aset vd_desc i2 (MkDesc (AStatus i0) 1 VRING_DESC_F_WRITE 0) ;;
  updbuf b (λ x, x <| vb_disk := 1 |>) ;;
  i ← aget vd_info i0;
  aset vd_info i0 (i <| in_b := Some b |>).
(** Hand the chain to the device, in three pieces. *)
Definition put_ring (i0 : Z) : V unit := n ← gets av_idx; aset av_ring (n mod NUM) i0.
Definition bump_idx : V unit := updf av_idx (λ n, u16 (n + 1)).
(** [*R(VIRTIO_MMIO_QUEUE_NOTIFY) = 0] *)
Definition notify : V unit := setf dv_kick true.

(** [while(b->disk == 1) sleep(b, &disk.vdisk_lock);] and what follows. *)
Definition rw_wait (t b : nat) (write : bool) (sector i0 : Z) : V unit :=
  u ← gets vd_buf;
  if vb_disk (u b) =? 1 then sleep_vd t (VWait b write sector i0) (ChBuf b) else
  i ← aget vd_info i0;
  aset vd_info i0 (i <| in_b := None |>) ;;
  free_chain i0 ;;
  release_vd ;;
  updthr t (λ _, MkThr VOut None).

(** The loop around [alloc3_desc], and what follows, up to where the device comes
    in: the process keeps the lock, [PRing] being next. *)
Definition rw_try (t b : nat) (write : bool) (sector : Z) : V unit :=
  r ← alloc3_desc;
  match r with
  | (0, [i0; i1; i2]) =>
      format_request b write sector i0 i1 i2 ;;
      updthr t (λ _, MkThr (VWait b write sector i0) None) ;;
      setf vd_run (PRing t b write sector i0)
  | _ => sleep_vd t (VTry b write sector) ChFree
  end.

Definition virtio_disk_rw (t b : nat) (write : bool) : V unit :=
  u ← gets vd_buf;
  acquire_vd ;;
  rw_try t b write (u32 (vb_blockno (u b) * (BSIZE / 512))).

(** A process that has been woken up takes the lock again. *)
Definition rw_resume (t : nat) : V unit :=
  u ← gets vd_thr;
  match th_pc (u t) with
  | VOut => mret tt
  | VTry b write sector => acquire_vd ;; rw_try t b write sector
  | VWait b write sector i0 => acquire_vd ;; rw_wait t b write sector i0
  end.

Definition intr_step (_ : unit) : V (unit + unit) :=
  n ← gets vd_used_idx; m ← gets us_idx;
  if n =? m then mret (inr tt) else
  id ← aget us_ring (n mod NUM);
  i ← aget vd_info id;
  if negb (in_status i =? 0) then panic "virtio_disk_intr status" else
  b ← opt (in_b i);
  updbuf b (λ x, x <| vb_disk := 0 |>) ;;
  wakeup_vd (ChBuf b) ;;
  setf vd_used_idx (u16 (n + 1)) ;;
  mret (inl tt).
(** [virtio_disk_intr], up to its first access to the device. *)
Definition virtio_disk_intr : V unit := acquire_vd ;; setf vd_run PStat.
(** The acknowledgement clears the bits that were read as set. *)
Definition ack (status : bool) : V unit := when status (setf dv_irq false).

(** The next piece of what goes on with the lock held; the last one releases it. *)
Definition run_piece : V unit :=
  p ← gets vd_run;
  match p with
  | PNone => mret tt
  | PRing t b write sector i0 => put_ring i0 ;; setf vd_run (PIdx t b write sector i0)
  | PIdx t b write sector i0 => bump_idx ;; setf vd_run (PNotify t b write sector i0)
  | PNotify t b write sector i0 => notify ;; setf vd_run PNone ;; rw_wait t b write sector i0
  | PStat => status ← gets dv_irq; setf vd_run (PAck status)
  | PAck status => ack status ;; setf vd_run PDrain
  | PDrain => r ← intr_step tt; if r is inr _ then setf vd_run PNone ;; release_vd else mret tt
  end.

(** ** Setting up the device *)

Definition MMIO_MAGIC_VALUE : Z := 0.
Definition MMIO_VERSION : Z := 4.
Definition MMIO_DEVICE_ID : Z := 8.
Definition MMIO_VENDOR_ID : Z := 12.
Definition MMIO_DEVICE_FEATURES : Z := 16.
Definition MMIO_DRIVER_FEATURES : Z := 32.
Definition MMIO_QUEUE_SEL : Z := 48.
Definition MMIO_QUEUE_NUM_MAX : Z := 52.
Definition MMIO_QUEUE_NUM : Z := 56.
Definition MMIO_QUEUE_READY : Z := 68.
Definition MMIO_STATUS : Z := 112.
Definition MMIO_QUEUE_DESC_LOW : Z := 128.
Definition MMIO_DRIVER_DESC_LOW : Z := 144.
Definition MMIO_DEVICE_DESC_LOW : Z := 160.

(** The feature bits the driver turns down. *)
Definition refused_features : list Z := [5; 7; 11; 12; 27; 29; 28].
Definition negotiate (features : Z) : Z := foldl (λ f n, clear f (Z.shiftl 1 n)) features refused_features.

(** [virtio_disk_init], over the registers of the device, the allocator and
    [req_queue]; it gives the pages of the queue and [disk.free]. *)
Section init.
Context {S : Type} (read_reg : Z → M S Z) (write_reg : Z → Z → M S unit).
Context (kalloc : M S Z) (memset : Z → Z → Z → M S unit) (clear_queue : M S unit).

Definition write_addr (reg a : Z) : M S unit :=
  write_reg reg (u32 a) ;; write_reg (reg + 4) (u32 (Z.shiftr a 32)).

Definition found_disk : M S bool :=
  magic ← read_reg MMIO_MAGIC_VALUE;
  if negb (magic =? 1953655158) then mret false else
  version ← read_reg MMIO_VERSION;
  if negb (version =? 2) then mret false else
  device ← read_reg MMIO_DEVICE_ID;
  if negb (device =? 2) then mret false else
  vendor ← read_reg MMIO_VENDOR_ID;
  mret (vendor =? 1431127377).

Definition virtio_disk_init : M S (Z * Z * Z * list Z) :=
  clear_queue ;;
  found ← found_disk;
  if negb found then panic "could not find virtio disk" else
  write_reg MMIO_STATUS 0 ;;
  write_reg MMIO_STATUS 1 ;;
  write_reg MMIO_STATUS 3 ;;
  features ← read_reg MMIO_DEVICE_FEATURES;
  write_reg MMIO_DRIVER_FEATURES (u32 (negotiate features)) ;;
  write_reg MMIO_STATUS 11 ;;
  status ← read_reg MMIO_STATUS;
  if negb (has status 8) then panic "virtio disk FEATURES_OK unset" else
  write_reg MMIO_QUEUE_SEL 0 ;;
  ready ← read_reg MMIO_QUEUE_READY;
  if negb (ready =? 0) then panic "virtio disk should not be ready" else
  max ← read_reg MMIO_QUEUE_NUM_MAX;
  if max =? 0 then panic "virtio disk has no queue 0" else
  if max <? NUM then panic "virtio disk max queue too short" else
  desc ← kalloc; avail ← kalloc; used ← kalloc;
  if (desc =? 0) || (avail =? 0) || (used =? 0) then panic "virtio disk kalloc" else
  memset desc 0 PGSIZE ;; memset avail 0 PGSIZE ;; memset used 0 PGSIZE ;;
  write_reg MMIO_QUEUE_NUM NUM ;;
  write_addr MMIO_QUEUE_DESC_LOW desc ;;
  write_addr MMIO_DRIVER_DESC_LOW avail ;;
  write_addr MMIO_DEVICE_DESC_LOW used ;;
  write_reg MMIO_QUEUE_READY 1 ;;
  write_reg MMIO_STATUS (Z.lor status 4) ;;
  mret (desc, avail, used, zrepl NUM 1).
End init.
