(* ===== verification/Traces.v ===== *)
(** * Traces

    A transition system whose steps may show an event, what an observer sees of
    an execution, and forward simulation: if each step of one system is answered
    by steps of another that show the same, every trace of the first is one of
    the second. *)

From stdpp Require Import base list relations.

Section steps.
Context {E S : Type} (step : option E → S → S → Prop).

(** An execution, and the events it shows in their order. *)
Inductive steps : list E → S → S → Prop :=
| steps_refl s : steps [] s s
| steps_l e tr s1 s2 s3 : step e s1 s2 → steps tr s2 s3 → steps (option_list e ++ tr) s1 s3.

Lemma steps_one e s s' : step e s s' → steps (option_list e) s s'.
Proof. intros H. rewrite <-(app_nil_r (option_list e)). by eapply steps_l, steps_refl. Qed.
Lemma steps_app tr1 tr2 s1 s2 s3 : steps tr1 s1 s2 → steps tr2 s2 s3 → steps (tr1 ++ tr2) s1 s3.
Proof. induction 1 as [|e tr s1 s s2 Hs _ IH]; [done|]. intros H. rewrite <-app_assoc. eapply steps_l; [done|by apply IH]. Qed.
Lemma steps_silent s1 s2 : step None s1 s2 → steps [] s1 s2.
Proof. apply (steps_one None). Qed.

(** Induction for invariants. *)
Lemma steps_inv (P : S → Prop) tr s s' : (∀ e s s', P s → step e s s' → P s') → steps tr s s' → P s → P s'.
Proof. intros Hp. induction 1 as [|e tr s1 s2 s3 Hs _ IH]; [done|]. intros H. by eapply IH, Hp. Qed.
End steps.

Section simulation.
Context {E C A : Type} (cstep : option E → C → C → Prop) (astep : option E → A → A → Prop).
Context (inv : C → Prop) (sim : C → A → Prop).

(** What [a] can do shows what the step from [c] to [c'] shows. *)
Definition answers (e : option E) (c c' : C) : Prop :=
  ∀ a, sim c a → ∃ a', steps astep (option_list e) a a' ∧ sim c' a'.

Lemma answers_trans e1 e2 e c1 c2 c3 : option_list e1 ++ option_list e2 = option_list e →
  answers e1 c1 c2 → answers e2 c2 c3 → answers e c1 c3.
Proof.
  intros He H1 H2 a Ha. destruct (H1 a Ha) as (a1 & S1 & Ha1). destruct (H2 a1 Ha1) as (a2 & S2 & Ha2).
  exists a2. split; [|done]. rewrite <-He. by eapply steps_app.
Qed.

Lemma trace_inclusion tr c c' a : (∀ e c c', inv c → cstep e c c' → inv c' ∧ answers e c c') →
  steps cstep tr c c' → inv c → sim c a → ∃ a', steps astep tr a a' ∧ sim c' a'.
Proof.
  intros Hs Hr. revert a. induction Hr as [c|e tr c1 c2 c3 Hc _ IH]; intros a Hi Ha; [exists a; split; [constructor|done]|].
  destruct (Hs _ _ _ Hi Hc) as [Hi2 Han]. destruct (Han a Ha) as (a2 & S2 & Ha2).
  destruct (IH a2 Hi2 Ha2) as (a3 & S3 & Ha3). exists a3. split; [by eapply steps_app|done].
Qed.
End simulation.
