(* ===== verification/VirtioOps.v ===== *)
(** * The operations of the disk driver

    What the arrays, rings and descriptors of [Virtio] hold after each operation
    of the driver: the entries of a ring between two indices, allocating and
    freeing descriptors, and the pieces of [virtio_disk_rw]. *)

From stdpp Require Import base numbers list functions relations strings.
From S2P Require Import Prelude Machine Virtio.
Open Scope Z_scope.
Open Scope kernel_scope.

Implicit Types (s : vst) (t : nat) (b : nat).

(** ** Rings *)

(** The entries of a ring from index [from] up to [to], both modulo 2^16. *)
Definition ring_range (ring : list Z) (from to : Z) : list Z :=
  (λ k, default 0 (znth ring ((from + k) mod NUM))) <$> upto ((to - from) mod 65536).

Lemma ring_empty ring i : ring_range ring i i = [].
Proof. unfold ring_range. by rewrite Z.sub_diag. Qed.
Lemma ring_nonempty ring i j : 0 ≤ i < 65536 → 0 ≤ j < 65536 → ring_range ring i j = [] → i = j.
Proof.
  unfold ring_range, upto. intros Hi Hj H%fmap_nil_inv%(f_equal length). rewrite length_seqZ in H. simpl in H. dlia.
Qed.
Lemma ring_pop ring i j : 0 ≤ i < 65536 → 0 ≤ j < 65536 → i ≠ j →
  ring_range ring i j = default 0 (znth ring (i mod NUM)) :: ring_range ring (u16 (i + 1)) j.
Proof.
  intros Hi Hj Hne. unfold ring_range, upto, wrap. change (2 ^ 16) with 65536.
  rewrite (seqZ_cons 0) by dlia. simpl. rewrite Z.add_0_r. f_equal.
  replace (Z.pred ((j - i) mod 65536)) with ((j - (i + 1) mod 65536) mod 65536) by dlia.
  change (Z.succ 0) with (1 + 0). rewrite <-fmap_add_seqZ, <-list_fmap_compose.
  apply list_fmap_ext. intros _ k _. simpl. unfold NUM. do 2 f_equal. dlia.
Qed.
Lemma length_ring ring i j : zlen (ring_range ring i j) = (j - i) mod 65536.
Proof. unfold ring_range, zlen, upto. rewrite length_fmap, length_seqZ. dlia. Qed.
(** A store where the next entry goes is not seen in the range. *)
Lemma ring_store ring i j x : 0 ≤ i < 65536 → 0 ≤ j < 65536 → zlen ring = NUM → zlen (ring_range ring i j) < NUM →
  ring_range (zset ring (j mod NUM) x) i j = ring_range ring i j.
Proof.
  intros Hi Hj Hlen Hn. rewrite length_ring in Hn. unfold NUM in *. unfold ring_range, upto.
  apply list_fmap_ext. intros _ k Hk%list_elem_of_lookup_2%elem_of_seqZ. unfold NUM. rewrite znth_zset_ne; [done|dlia|dlia].
Qed.
Lemma ring_snoc ring i j x : 0 ≤ i < 65536 → 0 ≤ j < 65536 → zlen (ring_range ring i j) < NUM → znth ring (j mod NUM) = Some x →
  ring_range ring i (u16 (j + 1)) = ring_range ring i j ++ [x].
Proof.
  intros Hi Hj Hn Ex. rewrite length_ring in Hn. unfold NUM in *. unfold ring_range, upto, wrap. change (2 ^ 16) with 65536.
  replace (((j + 1) mod 65536 - i) mod 65536) with ((j - i) mod 65536 + 1) by dlia.
  rewrite seqZ_app by dlia. rewrite fmap_app. f_equal.
  simpl. f_equal. unfold NUM. replace ((i + (Z.of_nat 0 + (0 + (j - i) mod 65536))) mod 8) with (j mod 8) by dlia. by rewrite Ex.
Qed.
Lemma ring_push ring i j x : 0 ≤ i < 65536 → 0 ≤ j < 65536 → zlen ring = NUM → zlen (ring_range ring i j) < NUM →
  ring_range (zset ring (j mod NUM) x) i (u16 (j + 1)) = ring_range ring i j ++ [x].
Proof.
  intros Hi Hj Hlen Hn. rewrite (ring_snoc _ i j x), ring_store; try done; [by rewrite length_ring in *|].
  apply znth_zset_eq. unfold NUM in *. dlia.
Qed.

Lemma fn_ins {A} (f : nat → A) t x t' : (<[t := x]> f) t' = if decide (t' = t) then x else f t'.
Proof. destruct (decide _) as [->|]; [apply fn_lookup_insert|by apply fn_lookup_insert_ne]. Qed.

(** ** Arrays and descriptors *)

Lemma aget_ok {A} (f : vst → list A) s i x : znth (f s) i = Some x → aget f i s = Ok (x, s).
Proof. intros E. unfold aget. mget (f s). by rewrite E. Qed.
Lemma aset_ok {A} (f : vst → list A) {U : Upd f} s i x : 0 ≤ i < zlen (f s) → aset f i x s = Ok (tt, s <| f ::= λ l, zset l i x |>).
Proof. intros Hi. destruct (znth_lt (f s) i Hi) as [y E]. unfold aset. by rewrite (bind_step _ _ _ _ _ (aget_ok _ _ _ _ E)). Qed.

(** The free descriptors, lowest first. *)
Definition frees (l : list Z) : list Z := filter (λ i, znth l i ≠ Some 0) (upto NUM).

Lemma elem_of_frees l i : i ∈ frees l ↔ znth l i ≠ Some 0 ∧ 0 ≤ i < NUM.
Proof. unfold frees. by rewrite list_elem_of_filter, elem_of_upto. Qed.
Lemma NoDup_frees l : NoDup (frees l).
Proof. apply NoDup_filter, NoDup_seqZ. Qed.
Lemma frees_take l i rest : zlen l = NUM → frees l = i :: rest → frees (zset l i 0) = rest.
Proof.
  intros Hlen E. assert (0 ≤ i < NUM) as Hi by (apply (elem_of_frees l); rewrite E; by left).
  assert (frees (zset l i 0) = filter (λ j, j ≠ i) (frees l)) as ->.
  { unfold frees. rewrite list_filter_filter. apply filter_ext_in. intros j Hj%elem_of_upto.
    destruct (decide (j = i)) as [->|Hne]; [rewrite znth_zset_eq by lia; naive_solver|rewrite znth_zset_ne by lia; naive_solver]. }
  pose proof (NoDup_frees l) as Hnd. rewrite E in Hnd |- *. apply NoDup_cons in Hnd as [Hn _].
  rewrite filter_cons_False by naive_solver. rewrite filter_id; [done|]. by intros j Hj ->.
Qed.

Lemma alloc_desc_ok s : zlen (vd_free s) = NUM →
  alloc_desc s = match frees (vd_free s) with [] => Ok (-1, s) | i :: _ => Ok (i, s <| vd_free ::= λ l, zset l i 0 |>) end.
Proof.
  intros Hlen. unfold alloc_desc, frees. generalize (λ i, proj1 (elem_of_upto NUM i)). generalize (upto NUM).
  induction l as [|i l IH]; intros Hl; [done|]. assert (0 ≤ i < NUM) as Hi by (apply Hl; by left). simpl for_find.
  destruct (znth_lt (vd_free s) i) as [f Ef]; [lia|]. unfold mbind, M_bind. rewrite (aget_ok _ _ _ _ Ef).
  rewrite filter_cons. destruct (Z.eqb_spec f 0) as [->|Hf].
  - destruct (decide _) as [Hd|]; [by rewrite Ef in Hd|]. rewrite <-IH by (intros; apply Hl; by right). done.
  - destruct (decide _) as [_|Hd]; [|exfalso; apply Hd; rewrite Ef; naive_solver]. rewrite aset_ok by lia. done.
Qed.

Definition null_desc : virtq_desc := MkDesc ANull 0 0 0.
Lemma free_desc_ok s i : znth (vd_free s) i = Some 0 → zlen (vd_free s) = NUM → zlen (vd_desc s) = NUM →
  free_desc i s = Ok (tt, s <| vd_desc ::= λ l, zset l i null_desc |> <| vd_free ::= λ l, zset l i 1 |> <| vd_thr ::= λ u t, wake ChFree (u t) |>).
Proof.
  intros E H1 H2. pose proof (znth_Some _ _ _ E). unfold free_desc. destruct (Z.leb_spec NUM i); [lia|].
  rewrite (bind_step _ _ _ _ _ (aget_ok _ _ _ _ E)). cbn [Z.eqb negb]. erewrite bind_step by (apply aset_ok; lia).
  erewrite bind_step by (apply aset_ok; done). done.
Qed.

Lemma wake_twice ch th : wake ch (wake ch th) = wake ch th.
Proof. unfold wake. destruct (decide (th_chan th = Some ch)) as [E|]; [|by rewrite decide_False]. by rewrite decide_False. Qed.
Lemma zset_back (l : list Z) i x y : znth l i = Some x → zset (zset l i y) i x = l.
Proof.
  intros E. pose proof (znth_Some _ _ _ E). apply znth_ext; [by rewrite !zlen_zset|]. intros j Hj. rewrite !zlen_zset in Hj.
  destruct (decide (j = i)) as [->|]; [by rewrite znth_zset_eq by (rewrite ?zlen_zset; lia)|].
  by rewrite !znth_zset_ne by lia.
Qed.

(** A state but for the descriptors and the processes asleep on them. *)
Definition with_fdt s F D T : vst := s <| vd_free := F |> <| vd_desc := D |> <| vd_thr := T |>.
Lemma with_fdt_id s : s = with_fdt s (vd_free s) (vd_desc s) (vd_thr s).
Proof. by destruct s. Qed.
Lemma alloc_desc_fdt s F D T : zlen F = NUM →
  alloc_desc (with_fdt s F D T) = match frees F with [] => Ok (-1, with_fdt s F D T) | i :: _ => Ok (i, with_fdt s (zset F i 0) D T) end.
Proof. intros Hlen. by rewrite alloc_desc_ok. Qed.
Lemma free_desc_fdt s F D T i : znth F i = Some 0 → zlen F = NUM → zlen D = NUM →
  free_desc i (with_fdt s F D T) = Ok (tt, with_fdt s (zset F i 1) (zset D i null_desc) (λ t, wake ChFree (T t))).
Proof. intros. by rewrite free_desc_ok. Qed.
Lemma with_fdt_eq s F D T : with_fdt s F D T = MkVst (vd_locked s) (vd_run s) D F (vd_used_idx s) (vd_info s) (vd_ops s) (av_idx s) (av_ring s)
  (us_idx s) (us_ring s) (vd_buf s) T (dv_irq s) (dv_kick s) (dv_owe s) (dv_seen s) (dv_work s) (dv_sector s).
Proof. done. Qed.
#[global] Opaque with_fdt.

(** What [alloc3_desc] leaves when it fails: some free descriptors cleared, and
    perhaps a wakeup of those who wait for one. *)
Definition alloc_failed s s' : Prop := ∃ D T, s' = with_fdt s (vd_free s) D T ∧ zlen D = NUM ∧
  (∀ i, i ∉ frees (vd_free s) → znth D i = znth (vd_desc s) i) ∧
  ∀ t, T t = vd_thr s t ∨ T t = wake ChFree (vd_thr s t).

Lemma alloc3_ok s i0 i1 i2 rest : zlen (vd_free s) = NUM → frees (vd_free s) = i0 :: i1 :: i2 :: rest →
  ∃ F, alloc3_desc s = Ok ((0, [i0; i1; i2]), with_fdt s F (vd_desc s) (vd_thr s)) ∧
    F = zset (zset (zset (vd_free s) i0 0) i1 0) i2 0 ∧ frees F = rest.
Proof.
  intros Hlen E0. pose proof (frees_take _ _ _ Hlen E0) as E1.
  pose proof (frees_take (zset (vd_free s) i0 0) _ _ ltac:(by rewrite zlen_zset) E1) as E2.
  pose proof (frees_take (zset (zset (vd_free s) i0 0) i1 0) _ _ ltac:(by rewrite !zlen_zset) E2) as E3.
  assert (∀ i, i ∈ frees (vd_free s) → 0 ≤ i) as Hnn by (intros i Hi%elem_of_frees; lia). rewrite E0 in Hnn.
  eexists. split; [|split; [reflexivity|done]]. etransitivity; [apply (f_equal alloc3_desc (with_fdt_id s))|]. unfold alloc3_desc, alloc_descs.
  erewrite bind_step by (rewrite alloc_desc_fdt, E0 by done; reflexivity).
  destruct (Z.ltb_spec i0 0) as [Hlt|]; [specialize (Hnn i0 ltac:(by left)); lia|].
  erewrite bind_step by (rewrite alloc_desc_fdt, E1 by (by rewrite zlen_zset); reflexivity).
  destruct (Z.ltb_spec i1 0) as [Hlt|]; [specialize (Hnn i1 ltac:(by right; left)); lia|].
  erewrite bind_step by (rewrite alloc_desc_fdt, E2 by (by rewrite !zlen_zset); reflexivity).
  destruct (Z.ltb_spec i2 0) as [Hlt|]; [specialize (Hnn i2 ltac:(by right; right; left)); lia|]. done.
Qed.

Lemma alloc3_fails s : zlen (vd_free s) = NUM → zlen (vd_desc s) = NUM → (∀ i, i ∈ frees (vd_free s) → znth (vd_free s) i = Some 1) →
  (length (frees (vd_free s)) < 3)%nat → ∃ s' idx, alloc3_desc s = Ok ((-1, idx), s') ∧ alloc_failed s s'.
Proof.
  intros Hlen Hld H1 Hlt. assert (∀ i, i ∈ frees (vd_free s) → 0 ≤ i < NUM) as Hr by (intros i; apply elem_of_frees).
  pose proof (NoDup_frees (vd_free s)) as Hnd. rewrite (f_equal alloc3_desc (with_fdt_id s)). unfold alloc3_desc, alloc_descs, alloc_failed.
  destruct (frees (vd_free s)) as [|i0 [|i1 [|]]] eqn:E0; [| | |simpl in Hlt; lia].
  - eexists _, _. split; [erewrite bind_step by (rewrite alloc_desc_fdt, E0 by done; reflexivity); reflexivity|].
    exists (vd_desc s), (vd_thr s). split; [done|]. split; [done|]. split; [done|]. intros t. by left.
  - pose proof (frees_take _ _ _ Hlen E0) as E1. assert (0 ≤ i0 < NUM) as Hi0 by (apply Hr; by left).
    erewrite bind_step by (rewrite alloc_desc_fdt, E0 by done; reflexivity). destruct (Z.ltb_spec i0 0); [lia|].
    erewrite bind_step by (rewrite alloc_desc_fdt, E1 by (by rewrite zlen_zset); reflexivity).
    cbn [Z.ltb Z.compare app for_each]. eexists _, _. split.
    { erewrite bind_step; [reflexivity|].
      erewrite bind_step by (apply free_desc_fdt; [apply znth_zset_eq; lia|by rewrite zlen_zset|done]). reflexivity. }
    eexists _, _. split; [by rewrite (zset_back _ i0 1) by (apply H1; by left)|].
    rewrite zlen_zset. split; [done|]. split; [|intros t; by right]. intros i Hi. apply znth_zset_ne; [lia|]. intros ->. apply Hi. by left.
  - pose proof (frees_take _ _ _ Hlen E0) as E1. pose proof (frees_take (zset (vd_free s) i0 0) _ _ ltac:(by rewrite zlen_zset) E1) as E2.
    assert (0 ≤ i0 < NUM) as Hi0 by (apply Hr; by left). assert (0 ≤ i1 < NUM) as Hi1 by (apply Hr; by right; left).
    assert (i0 ≠ i1) as Hne by (intros ->; apply NoDup_cons in Hnd as [Hn _]; apply Hn; by left).
    erewrite bind_step by (rewrite alloc_desc_fdt, E0 by done; reflexivity). destruct (Z.ltb_spec i0 0); [lia|].
    erewrite bind_step by (rewrite alloc_desc_fdt, E1 by (by rewrite zlen_zset); reflexivity).
    destruct (Z.ltb_spec i1 0); [lia|].
    erewrite bind_step by (rewrite alloc_desc_fdt, E2 by (by rewrite !zlen_zset); reflexivity).
    cbn [Z.ltb Z.compare app for_each]. eexists _, _. split.
    { erewrite bind_step; [reflexivity|].
      erewrite bind_step by (apply free_desc_fdt; [rewrite znth_zset_ne by lia; apply znth_zset_eq; lia|by rewrite !zlen_zset|done]).
      erewrite bind_step; [reflexivity|].
      apply free_desc_fdt; [rewrite znth_zset_ne by lia; apply znth_zset_eq; rewrite zlen_zset; lia|by rewrite !zlen_zset|by rewrite zlen_zset]. }
    assert (zset (zset (zset (zset (vd_free s) i0 0) i1 0) i0 1) i1 1 = vd_free s) as ->.
    { apply znth_ext; [by rewrite !zlen_zset|]. intros j Hj. rewrite !zlen_zset in Hj.
      destruct (decide (j = i1)) as [->|]; [rewrite znth_zset_eq by (rewrite !zlen_zset; lia); symmetry; apply H1; by right; left|].
      rewrite znth_zset_ne by lia.
      destruct (decide (j = i0)) as [->|]; [rewrite znth_zset_eq by (rewrite !zlen_zset; lia); symmetry; apply H1; by left|].
      by rewrite !znth_zset_ne by lia. }
    eexists _, _. split; [reflexivity|]. rewrite !zlen_zset. split; [done|]. split; [|intros t; right; apply wake_twice].
    intros i Hi. rewrite !znth_zset_ne; [done|lia|intros ->; apply Hi; by left|lia|intros ->; apply Hi; by right; left].
Qed.

(** ** The pieces of a request *)

Abbreviation W_flags w := (Z.lor (if w : bool then 0 else VRING_DESC_F_WRITE) VRING_DESC_F_NEXT).
Definition op_of (w : bool) (sec : Z) : virtio_blk_req := MkReq (if w then VIRTIO_BLK_T_OUT else VIRTIO_BLK_T_IN) 0 sec.
Definition chain_desc (b : nat) (w : bool) (i0 i1 i2 : Z) (D : list virtq_desc) : list virtq_desc :=
  zset (zset (zset D i0 (MkDesc (AOp i0) 16 VRING_DESC_F_NEXT i1)) i1 (MkDesc (AData b) BSIZE (W_flags w) i2))
    i2 (MkDesc (AStatus i0) 1 VRING_DESC_F_WRITE 0).

Lemma format_request_ok s b w sec i0 i1 i2 i : 0 ≤ i0 < NUM → 0 ≤ i1 < NUM → 0 ≤ i2 < NUM →
  zlen (vd_desc s) = NUM → zlen (vd_ops s) = NUM → zlen (vd_info s) = NUM → znth (vd_info s) i0 = Some i →
  format_request b w sec i0 i1 i2 s = Ok (tt, MkVst (vd_locked s) (vd_run s) (chain_desc b w i0 i1 i2 (vd_desc s)) (vd_free s) (vd_used_idx s)
    (zset (vd_info s) i0 (MkInfo (Some b) 255)) (zset (vd_ops s) i0 (op_of w sec)) (av_idx s) (av_ring s) (us_idx s) (us_ring s)
    (<[b := (vd_buf s b) <| vb_disk := 1 |>]> (vd_buf s)) (vd_thr s) (dv_irq s) (dv_kick s) (dv_owe s) (dv_seen s) (dv_work s) (dv_sector s)).
Proof.
  intros H0 H1 H2 Ld Lo Li Ei. unfold format_request.
  erewrite bind_step by (apply aset_ok; lia). erewrite bind_step by (apply aset_ok; simpl; lia).
  erewrite bind_step by (apply aset_ok; simpl; rewrite zlen_zset; lia).
  erewrite bind_step by (apply aget_ok; exact Ei). erewrite bind_step by (apply aset_ok; simpl; lia).
  erewrite bind_step by (apply aset_ok; simpl; rewrite !zlen_zset; lia).
  erewrite bind_step by reflexivity.
  erewrite bind_step by (apply aget_ok; simpl; apply znth_zset_eq; lia).
  rewrite aset_ok by (simpl; rewrite zlen_zset; lia). apply Ok_pair. cbv -[zset chain_desc op_of insert]. f_equal.
  apply znth_ext; [by rewrite !zlen_zset|]. intros j Hj. rewrite !zlen_zset in Hj.
  destruct (decide (j = i0)) as [->|]; [by rewrite !znth_zset_eq by (rewrite ?zlen_zset; lia)|].
  by rewrite !znth_zset_ne by lia.
Qed.

(** The state with a request's descriptors filled in, [t] about to hand it over. *)
Definition formatted s t b w sec i0 i1 i2 : vst :=
  MkVst true (PRing t b w sec i0) (chain_desc b w i0 i1 i2 (vd_desc s)) (zset (zset (zset (vd_free s) i0 0) i1 0) i2 0) (vd_used_idx s)
    (zset (vd_info s) i0 (MkInfo (Some b) 255)) (zset (vd_ops s) i0 (op_of w sec)) (av_idx s) (av_ring s)
    (us_idx s) (us_ring s) (<[b := (vd_buf s b) <| vb_disk := 1 |>]> (vd_buf s))
    (<[t := MkThr (VWait b w sec i0) None]> (vd_thr s)) (dv_irq s) (dv_kick s) (dv_owe s) (dv_seen s) (dv_work s) (dv_sector s).

Record arrays_ok s : Prop := {
  ao_desc : zlen (vd_desc s) = NUM; ao_free : zlen (vd_free s) = NUM; ao_info : zlen (vd_info s) = NUM;
  ao_ops : zlen (vd_ops s) = NUM; ao_avail : zlen (av_ring s) = NUM; ao_used : zlen (us_ring s) = NUM;
}.

Lemma rw_try_formats s t b w sec i0 i1 i2 rest : arrays_ok s → vd_locked s = true → frees (vd_free s) = i0 :: i1 :: i2 :: rest →
  rw_try t b w sec s = Ok (tt, formatted s t b w sec i0 i1 i2).
Proof.
  intros [L1 L2 L3 L4 L5 L6] Hlk Ef. assert (∀ i, i ∈ frees (vd_free s) → 0 ≤ i < NUM) as Hr by (intros i; apply elem_of_frees).
  rewrite Ef in Hr. assert (0 ≤ i0 < NUM) as H0 by (apply Hr; by left). destruct (alloc3_ok s i0 i1 i2 rest L2 Ef) as (F & E & -> & _).
  destruct (znth_lt (vd_info s) i0) as [i Ei]; [lia|]. unfold rw_try. rewrite (bind_step _ _ _ _ _ E). rewrite with_fdt_eq.
  erewrite bind_step by (eapply format_request_ok; [done|apply Hr; by right; left|apply Hr; by right; right; left|done..|exact Ei]).
  erewrite bind_step by reflexivity. unfold formatted. rewrite <-Hlk. reflexivity.
Qed.

Lemma rw_try_sleeps s t b w sec : arrays_ok s → vd_locked s = true → (∀ i, i ∈ frees (vd_free s) → znth (vd_free s) i = Some 1) →
  (length (frees (vd_free s)) < 3)%nat →
  ∃ D T, rw_try t b w sec s = Ok (tt, MkVst false (vd_run s) D (vd_free s) (vd_used_idx s) (vd_info s) (vd_ops s) (av_idx s) (av_ring s)
      (us_idx s) (us_ring s) (vd_buf s) (<[t := MkThr (VTry b w sec) (Some ChFree)]> T) (dv_irq s) (dv_kick s) (dv_owe s) (dv_seen s) (dv_work s) (dv_sector s)) ∧
    zlen D = NUM ∧ (∀ i, i ∉ frees (vd_free s) → znth D i = znth (vd_desc s) i) ∧
    ∀ t, T t = vd_thr s t ∨ T t = wake ChFree (vd_thr s t).
Proof.
  intros [L1 L2 L3 L4 L5 L6] Hlk H1 Hlt. destruct (alloc3_fails s L2 L1 H1 Hlt) as (s' & idx & E & D & T & -> & HD & HD' & HT).
  exists D, T. split; [|done]. unfold rw_try. rewrite (bind_step _ _ _ _ _ E), with_fdt_eq.
  cbn [fst snd]. unfold sleep_vd. erewrite bind_step by reflexivity. unfold release_vd.
  erewrite bind_step by reflexivity. match goal with |- context [if ?x then _ else _] => assert (x = true) as -> by exact Hlk end. reflexivity.
Qed.

(** Descriptors [i0], [i1] and [i2] hold the request. *)
Record chain_ok (D : list virtq_desc) (b : nat) (w : bool) (i0 i1 i2 : Z) : Prop := {
  ch_0 : znth D i0 = Some (MkDesc (AOp i0) 16 VRING_DESC_F_NEXT i1);
  ch_1 : znth D i1 = Some (MkDesc (AData b) BSIZE (W_flags w) i2);
  ch_2 : znth D i2 = Some (MkDesc (AStatus i0) 1 VRING_DESC_F_WRITE 0);
  ch_nodup : NoDup [i0; i1; i2];
}.
Lemma chain_desc_ok D b w i0 i1 i2 : NoDup [i0; i1; i2] → 0 ≤ i0 < zlen D → 0 ≤ i1 < zlen D → 0 ≤ i2 < zlen D →
  chain_ok (chain_desc b w i0 i1 i2 D) b w i0 i1 i2 ∧
  (∀ i, i ∉ [i0; i1; i2] → znth (chain_desc b w i0 i1 i2 D) i = znth D i) ∧ zlen (chain_desc b w i0 i1 i2 D) = zlen D.
Proof.
  intros Hnd H0 H1 H2. assert (i0 ≠ i1 ∧ i0 ≠ i2 ∧ i1 ≠ i2) as (N1 & N2 & N3).
  { apply NoDup_cons in Hnd as [Hn Hnd]. apply NoDup_cons in Hnd as [Hn' _]. set_solver. }
  unfold chain_desc. split_and!; [split; [..|done]| |by rewrite !zlen_zset].
  - by rewrite !znth_zset_ne, znth_zset_eq by (rewrite ?zlen_zset; lia).
  - by rewrite znth_zset_ne, znth_zset_eq by (rewrite ?zlen_zset; lia).
  - by rewrite znth_zset_eq by (rewrite ?zlen_zset; lia).
  - intros i Hi. rewrite !znth_zset_ne; [done|lia|set_solver|lia|set_solver|lia|set_solver].
Qed.

Lemma free_chain_turn s F D T i a n fl nx : znth D i = Some (MkDesc a n fl nx) → znth F i = Some 0 → zlen F = NUM → zlen D = NUM →
  free_chain_step i (with_fdt s F D T) =
    Ok (if negb (Z.land fl VRING_DESC_F_NEXT =? 0) then inl nx else inr tt,
        with_fdt s (zset F i 1) (zset D i null_desc) (λ t, wake ChFree (T t))).
Proof.
  intros Ed Ef H1 H2. unfold free_chain_step. erewrite bind_step by (apply aget_ok; rewrite with_fdt_eq; exact Ed).
  by rewrite (bind_step _ _ _ _ _ (free_desc_fdt _ _ _ _ _ Ef H1 H2)).
Qed.

Definition freed i0 i1 i2 (F : list Z) : list Z := zset (zset (zset F i0 1) i1 1) i2 1.
Lemma free_chain_ok s b w i0 i1 i2 : chain_ok (vd_desc s) b w i0 i1 i2 → zlen (vd_free s) = NUM → zlen (vd_desc s) = NUM →
  (∀ i, i ∈ [i0; i1; i2] → znth (vd_free s) i = Some 0) →
  ∃ D T, free_chain i0 s = Ok (tt, with_fdt s (freed i0 i1 i2 (vd_free s)) D T) ∧ zlen D = NUM ∧
    (∀ i, i ∉ [i0; i1; i2] → znth D i = znth (vd_desc s) i) ∧ ∀ t, T t = wake ChFree (vd_thr s t).
Proof.
  intros [E0 E1 E2 Hnd] HF HD H0. assert (i0 ≠ i1 ∧ i0 ≠ i2 ∧ i1 ≠ i2) as (N1 & N2 & N3).
  { apply NoDup_cons in Hnd as [Hn Hnd]. apply NoDup_cons in Hnd as [Hn' _]. set_solver. }
  pose proof (znth_Some _ _ _ E0). pose proof (znth_Some _ _ _ E1). pose proof (znth_Some _ _ _ E2).
  rewrite (f_equal (free_chain i0) (with_fdt_id s)). unfold free_chain. change (Datatypes.S (Z.to_nat NUM)) with 9%nat.
  eexists _, _. split; [|split; [|split]].
  - rewrite (loop_inl _ _ _ _ _ _ (free_chain_turn s _ _ _ i0 _ _ _ _ E0 (H0 i0 ltac:(by left)) HF HD)).
    rewrite (loop_inl _ _ _ i2 _ (with_fdt s (zset (zset (vd_free s) i0 1) i1 1) (zset (zset (vd_desc s) i0 null_desc) i1 null_desc)
      (λ t, wake ChFree (wake ChFree (vd_thr s t))))).
    2: { erewrite free_chain_turn; [|rewrite znth_zset_ne by lia; exact E1|rewrite znth_zset_ne by lia; apply H0; by right; left|by rewrite zlen_zset|by rewrite zlen_zset].
         by destruct w. }
    erewrite loop_inr; [reflexivity|].
    rewrite (free_chain_turn s _ _ _ i2 (AStatus i0) 1 VRING_DESC_F_WRITE 0); [reflexivity|rewrite !znth_zset_ne by lia; exact E2|
      rewrite !znth_zset_ne by lia; apply H0; by right; right; left|by rewrite !zlen_zset|by rewrite !zlen_zset].
  - by rewrite !zlen_zset.
  - intros i Hi. rewrite !znth_zset_ne; [done|lia|set_solver|lia|set_solver|lia|set_solver].
  - intros t. cbn beta. by rewrite !wake_twice.
Qed.

Lemma rw_wait_returns s t b w sec i0 i1 i2 i : chain_ok (vd_desc s) b w i0 i1 i2 → arrays_ok s → vd_locked s = true →
  (∀ i, i ∈ [i0; i1; i2] → znth (vd_free s) i = Some 0) → vb_disk (vd_buf s b) = 0 → znth (vd_info s) i0 = Some i →
  ∃ D T, rw_wait t b w sec i0 s = Ok (tt, MkVst false (vd_run s) D (freed i0 i1 i2 (vd_free s)) (vd_used_idx s)
      (zset (vd_info s) i0 (MkInfo None (in_status i))) (vd_ops s) (av_idx s) (av_ring s)
      (us_idx s) (us_ring s) (vd_buf s) (<[t := MkThr VOut None]> T) (dv_irq s) (dv_kick s) (dv_owe s) (dv_seen s) (dv_work s) (dv_sector s)) ∧
    zlen D = NUM ∧ (∀ i, i ∉ [i0; i1; i2] → znth D i = znth (vd_desc s) i) ∧ ∀ t, T t = wake ChFree (vd_thr s t).
Proof.
  intros Hch [L1 L2 L3 L4 L5 L6] Hlk HF Hd Ei. pose proof (znth_Some _ _ _ Ei).
  set (s1 := s <| vd_info ::= λ l, zset l i0 (i <| in_b := None |>) |>).
  destruct (free_chain_ok s1 b w i0 i1 i2) as (D & T & E & HD & HD' & HT); [done..|].
  exists D, T. split; [|done]. unfold rw_wait. erewrite bind_step by reflexivity. rewrite Hd. cbn [Z.eqb].
  rewrite (bind_step _ _ _ _ _ (aget_ok _ _ _ _ Ei)). erewrite bind_step by (apply aset_ok; done). fold s1.
  rewrite (bind_step _ _ _ _ _ E), with_fdt_eq. unfold release_vd.
  erewrite bind_step by (erewrite bind_step by reflexivity;
    match goal with |- context [if ?x then _ else _] => assert (x = true) as -> by exact Hlk end; reflexivity).
  reflexivity.
Qed.

