(* ===== verification/VirtioProps.v ===== *)
(** * What the disk driver promises

    Any number of processes in [virtio_disk_rw], the interrupt handler and a
    device that does what the specification says, in any order of the pieces of
    [Virtio]: whatever calls, returns and data are seen, a disk that serves each
    request once, between its call and its return, shows the same; nothing panics
    but on an error the device reports; and no process sleeps without someone to
    wake it. The other files rely on this when they model a transfer as one step
    ([Bio.transfer]). *)

From stdpp Require Import base numbers list functions relations strings.
From S2P Require Import Prelude Machine Virtio Traces VirtioOps.
Open Scope Z_scope.
Open Scope kernel_scope.

Implicit Types (s : vst) (t : nat) (b : nat).

(** ** The device *)

(** The chain that starts at descriptor [id], as the device reads it: the
    buffer, whether it is to be written to the disk, the sector, and where the
    status goes. [None] if it is not what Section 5.2 of the specification asks
    for. *)
Definition request_at s (id : Z) : option (nat * bool * Z * Z) :=
  d0 ← znth (vd_desc s) id; d1 ← znth (vd_desc s) (d_next d0); d2 ← znth (vd_desc s) (d_next d1);
  match d_addr d0, d_addr d1, d_addr d2 with
  | AOp k, AData b, AStatus j =>
      r ← znth (vd_ops s) k;
      let w := rq_type r =? VIRTIO_BLK_T_OUT in
      if (w || (rq_type r =? VIRTIO_BLK_T_IN)) &&
         (d_flags d0 =? VRING_DESC_F_NEXT) && (d_flags d1 =? Z.lor (if w then 0 else VRING_DESC_F_WRITE) VRING_DESC_F_NEXT) &&
         (d_flags d2 =? VRING_DESC_F_WRITE) && (d_len d0 =? 16) && (d_len d1 =? BSIZE) && (d_len d2 =? 1)
      then Some (b, w, rq_sector r, j) else None
  | _, _, _ => None
  end.

(** The two sectors of a block, read and written. *)
Definition sector_block (d : Z → list Z) (sector : Z) : list Z := d sector ++ d (sector + 1).
Definition put_block (d : Z → list Z) (sector : Z) (bs : list Z) : Z → list Z :=
  <[sector + 1 := drop 512 bs]> (<[sector := take 512 bs]> d).

(** The device, once it has been notified, takes the next entry of [avail]; when
    there is none it waits to be notified again. *)
Definition dev_fetch s s' : Prop :=
  dv_kick s = true ∧ dv_seen s ≠ av_idx s ∧ ∃ id, znth (av_ring s) (dv_seen s mod NUM) = Some id ∧
    s' = s <| dv_seen := u16 (dv_seen s + 1) |> <| dv_work ::= λ l, id :: l |>.
Definition dev_idle s s' : Prop := dv_seen s = av_idx s ∧ s' = s <| dv_kick := false |>.

(** The device is done with request [id]: it has moved the data unless the status
    is an error, written the status and put the request in [used]. It raises its
    interrupt some time after. *)
Definition dev_complete (id st : Z) s s' : Prop :=
  id ∈ dv_work s ∧ ∃ b w sector j, request_at s id = Some (b, w, sector, j) ∧
  ∃ i, znth (vd_info s) j = Some i ∧
  s' = (if st =? 0 then
          if (w : bool) then s <| dv_sector ::= λ d, put_block d sector (vb_data (vd_buf s b)) |>
          else s <| vd_buf ::= λ u, <[b := (u b) <| vb_data := sector_block (dv_sector s) sector |>]> u |>
        else s)
       <| vd_info ::= λ l, zset l j (i <| in_status := st |>) |>
       <| us_ring ::= λ l, zset l (us_idx s mod NUM) id |> <| us_idx := u16 (us_idx s + 1) |>
       <| dv_owe := true |> <| dv_work ::= filter (λ x, x ≠ id) |>.
Definition dev_raise s s' : Prop := dv_owe s = true ∧ s' = s <| dv_irq := true |> <| dv_owe := false |>.

(** ** The system *)

Definition buf_of (p : vpc) : option nat :=
  match p with VOut => None | VTry b _ _ => Some b | VWait b _ _ _ => Some b end.

(** What the users of the driver see: a buffer filled in, a call with the sector it
    names and the data in its buffer, and a return with the data then in it. *)
Inductive vev :=
| EFill (b : nat) (blockno : Z) (data : list Z)
| ECall (t b : nat) (write : bool) (sector : Z) (data : list Z)
| ERet (t b : nat) (write : bool) (data : list Z).
Definition ret_of t s s' : option vev :=
  match th_pc (vd_thr s t), th_pc (vd_thr s' t) with
  | VWait b w _ _, VOut => Some (ERet t b w (vb_data (vd_buf s' b)))
  | _, _ => None
  end.
(** The process whose piece it is, if it is in [virtio_disk_rw]. *)
Definition piece_ret p s s' : option vev :=
  match p with PRing t _ _ _ _ | PIdx t _ _ _ _ | PNotify t _ _ _ _ => ret_of t s s' | _ => None end.

Section system.
Context (device : vst → vst → Prop).

(** A buffer is in one call at a time (its user holds the sleeplock), and is
    filled in by its user between calls. A process or a handler that finds the
    lock held spins: its step is possible when [acquire] returns. *)
Inductive vstep : option vev → vst → vst → Prop :=
| vs_fill s b n d : (∀ t, buf_of (th_pc (vd_thr s t)) ≠ Some b) → zlen d = BSIZE →
    vstep (Some (EFill b n d)) s (s <| vd_buf ::= λ u, <[b := MkVbuf (vb_disk (u b)) n d]> u |>)
| vs_call s t b w s' : th_pc (vd_thr s t) = VOut → (∀ t', buf_of (th_pc (vd_thr s t')) ≠ Some b) →
    virtio_disk_rw t b w s = Ok (tt, s') →
    vstep (Some (ECall t b w (u32 (vb_blockno (vd_buf s b) * (BSIZE / 512))) (vb_data (vd_buf s b)))) s s'
| vs_resume s t s' : th_pc (vd_thr s t) ≠ VOut → th_chan (vd_thr s t) = None →
    rw_resume t s = Ok (tt, s') → vstep (ret_of t s s') s s'
| vs_piece s s' : vd_locked s = true → run_piece s = Ok (tt, s') → vstep (piece_ret (vd_run s) s s') s s'
| vs_intr s s' : virtio_disk_intr s = Ok (tt, s') → vstep None s s'
| vs_device s s' : device s s' → vstep None s s'.
End system.

(** After [virtio_disk_init], the disk holding [sectors]. *)
Definition driver_boot (sectors : Z → list Z) (data : nat → list Z) : vst :=
  MkVst false PNone (zrepl NUM (MkDesc ANull 0 0 0)) (zrepl NUM 1) 0 (zrepl NUM (MkInfo None 0)) (zrepl NUM (MkReq 0 0 0))
    0 (zrepl NUM 0) 0 (zrepl NUM 0) (λ b, MkVbuf 0 0 (data b)) (λ _, MkThr VOut None) false false false 0 [] sectors.

(** ** What the requests mean *)

Inductive athr := AIdle | APending (b : nat) (w : bool) (sector : Z) | AServed (b : nat) (w : bool) (sector : Z).
Definition abuf_of (p : athr) : option nat :=
  match p with AIdle => None | APending b _ _ => Some b | AServed b _ _ => Some b end.
Record adisk := MkAd {
  ad_sector : Z → list Z; ad_blockno : nat → Z; ad_data : nat → list Z; ad_thr : nat → athr;
}.

(** A request waits; at one moment, which nobody sees, the block is moved; then the
    call returns. *)
Inductive astep : option vev → adisk → adisk → Prop :=
| a_fill D n x u b k d : (∀ t, abuf_of (u t) ≠ Some b) →
    astep (Some (EFill b k d)) (MkAd D n x u) (MkAd D (<[b := k]> n) (<[b := d]> x) u)
| a_call D n x u t b w sec : u t = AIdle → (∀ t', abuf_of (u t') ≠ Some b) → sec = u32 (n b * (BSIZE / 512)) →
    astep (Some (ECall t b w sec (x b))) (MkAd D n x u) (MkAd D n x (<[t := APending b w sec]> u))
| a_read D n x u t b sec : u t = APending b false sec →
    astep None (MkAd D n x u) (MkAd D n (<[b := sector_block D sec]> x) (<[t := AServed b false sec]> u))
| a_write D n x u t b sec : u t = APending b true sec →
    astep None (MkAd D n x u) (MkAd (put_block D sec (x b)) n x (<[t := AServed b true sec]> u))
| a_return D n x u t b w sec : u t = AServed b w sec →
    astep (Some (ERet t b w (x b))) (MkAd D n x u) (MkAd D n x (<[t := AIdle]> u)).

(** A request has been served when the device has written a status of 0. *)
Definition athr_of s (p : vpc) : athr :=
  match p with
  | VOut => AIdle
  | VTry b w sec => APending b w sec
  | VWait b w sec i0 => if decide (in_status <$> znth (vd_info s) i0 = Some 0) then AServed b w sec else APending b w sec
  end.
Record vsim s (a : adisk) : Prop := {
  vm_sector x : ad_sector a x = dv_sector s x;
  vm_blockno b : ad_blockno a b = vb_blockno (vd_buf s b);
  vm_data b : ad_data a b = vb_data (vd_buf s b);
  vm_thr t : ad_thr a t = athr_of s (th_pc (vd_thr s t));
}.

(** ** The invariant *)

Definition avail s : list Z := ring_range (av_ring s) (dv_seen s) (av_idx s).
Definition used s : list Z := ring_range (us_ring s) (vd_used_idx s) (us_idx s).
(** The request that is filled in and not yet in the ring. *)
Definition about (p : vpiece) : list Z := match p with PRing _ _ _ _ i0 | PIdx _ _ _ _ i0 => [i0] | _ => [] end.
(** The requests filled in and not yet seen by the interrupt handler. *)
Definition in_flight s : list Z := about (vd_run s) ++ avail s ++ dv_work s ++ used s.

(** Who holds the lock, and for what. *)
Definition held (p : vpiece) : bool := match p with PNone => false | _ => true end.
Definition publishing (p : vpiece) : option (nat * nat * bool * Z * Z) :=
  match p with PRing t b w sec i0 | PIdx t b w sec i0 | PNotify t b w sec i0 => Some (t, b, w, sec, i0) | _ => None end.
Definition notifying (p : vpiece) : bool := match p with PNotify _ _ _ _ _ => true | _ => false end.
Definition handling (p : vpiece) : bool := match p with PStat | PAck _ | PDrain => true | _ => false end.

(** Process [t], with the descriptors [ch t] of its own: a request in flight is
    as the device wants it; once it has been served its status is 0, and a
    process asleep waits for something that has not happened yet. *)
Definition request_ok s (ch : list Z) (b : nat) (w : bool) (sec i0 : Z) (asleep : option vchan) : Prop :=
  ∃ i1 i2 st, ch = [i0; i1; i2] ∧ chain_ok (vd_desc s) b w i0 i1 i2 ∧ znth (vd_ops s) i0 = Some (op_of w sec) ∧
    znth (vd_info s) i0 = Some (MkInfo (Some b) st) ∧
    (asleep = None ∨ asleep = Some (ChBuf b) ∧ vb_disk (vd_buf s b) = 1) ∧
    ((vb_disk (vd_buf s b) = 1 ∧ i0 ∈ in_flight s ∧ (i0 ∉ used s → st = 255)) ∨
     (vb_disk (vd_buf s b) = 0 ∧ i0 ∉ in_flight s ∧ st = 0)).
Definition thr_ok s (ch : list Z) (th : vthr) : Prop :=
  match th_pc th with
  | VOut => th_chan th = None ∧ ch = []
  | VTry b w sec => (th_chan th = None ∨ th_chan th = Some ChFree) ∧ ch = []
  | VWait b w sec i0 => request_ok s ch b w sec i0 (th_chan th)
  end.

(** [p] is what comes next, in state [s]. *)
Record run_ok s (p : vpiece) : Prop := {
  ru_pub t b w sec i0 : publishing p = Some (t, b, w, sec, i0) → vd_thr s t = MkThr (VWait b w sec i0) None ∧ vb_disk (vd_buf s b) = 1;
  ru_ring t b w sec i0 : p = PIdx t b w sec i0 → znth (av_ring s) (av_idx s mod NUM) = Some i0;
  ru_kick : avail s ≠ [] → dv_kick s = true ∨ notifying p = true;
  ru_irq : used s ≠ [] → dv_irq s = true ∨ dv_owe s = true ∨ handling p = true;
}.

Record vok (ch : nat → list Z) s : Prop := {
  ok_lock : vd_locked s = held (vd_run s);
  ok_run : run_ok s (vd_run s);
  ok_arrays : arrays_ok s;
  ok_idx : 0 ≤ av_idx s < 65536 ∧ 0 ≤ us_idx s < 65536 ∧ 0 ≤ vd_used_idx s < 65536 ∧ 0 ≤ dv_seen s < 65536;
  ok_thr t : thr_ok s (ch t) (vd_thr s t);
  ok_own t i : i ∈ ch t → znth (vd_free s) i = Some 0;
  ok_free i : 0 ≤ i < NUM → znth (vd_free s) i = Some 1 ∨ ∃ t, i ∈ ch t;
  ok_disj t t' i : i ∈ ch t → i ∈ ch t' → t = t';
  ok_buf t t' b : buf_of (th_pc (vd_thr s t)) = Some b → buf_of (th_pc (vd_thr s t')) = Some b → t = t';
  ok_nodup : NoDup (in_flight s);
  ok_flight i : i ∈ in_flight s → ∃ t b w sec, th_pc (vd_thr s t) = VWait b w sec i;
  ok_wait t : th_chan (vd_thr s t) = Some ChFree → (length (frees (vd_free s)) < 3)%nat;
  ok_sector x : zlen (dv_sector s x) = 512;
  ok_data b : zlen (vb_data (vd_buf s b)) = BSIZE;
}.

Lemma frees_ones ch s i : vok ch s → i ∈ frees (vd_free s) → znth (vd_free s) i = Some 1.
Proof.
  intros Hok [Hi Hr]%elem_of_frees. destruct (ok_free _ _ Hok i Hr) as [|(t & Ht)]; [done|].
  by apply (ok_own _ _ Hok) in Ht.
Qed.
(** Two requests in flight leave room in the rings. *)
Lemma flight_bound ch s : vok ch s → zlen (in_flight s) ≤ NUM ∧ ∀ i, 0 ≤ i < NUM → i ∉ in_flight s → zlen (in_flight s) < NUM.
Proof.
  intros Hok. assert (∀ i, i ∈ in_flight s → 0 ≤ i < NUM) as Hr.
  { intros i Hi. destruct (ok_flight _ _ Hok i Hi) as (t & b & w & sec & Hpc). pose proof (ok_thr _ _ Hok t) as Ht.
    unfold thr_ok in Ht. rewrite Hpc in Ht. destruct Ht as (i1 & i2 & st & _ & _ & _ & Ei & _). apply znth_Some in Ei.
    by rewrite (ao_info _ (ok_arrays _ _ Hok)) in Ei. }
  assert (∀ l, NoDup l → (∀ i, i ∈ l → 0 ≤ i < NUM) → zlen l ≤ NUM) as Hb.
  { intros l Hnd Hl. unfold zlen. assert (length l ≤ length (upto NUM))%nat; [|unfold upto, NUM in *; rewrite length_seqZ in *; lia].
    apply submseteq_length, NoDup_submseteq; [done|]. intros i Hi. by apply elem_of_upto, Hl. }
  split; [apply Hb; [apply (ok_nodup _ _ Hok)|done]|]. intros i Hi Hn.
  assert (zlen (i :: in_flight s) ≤ NUM) as Hc; [|unfold zlen in *; simpl in Hc; lia].
  apply Hb; [constructor; [done|apply (ok_nodup _ _ Hok)]|]. intros j [->|Hj]%elem_of_cons; [done|by apply Hr].
Qed.

(** What a request in flight looks like to the device. *)
Lemma request_at_ok s ch b w sec i0 a : request_ok s ch b w sec i0 a → request_at s i0 = Some (b, w, sec, i0).
Proof.
  intros (i1 & i2 & st & -> & [E0 E1 E2 _] & Eo & _). unfold request_at. rewrite E0. simpl. rewrite E1. simpl. rewrite E2. simpl. rewrite Eo. simpl.
  by destruct w.
Qed.

(** ** Steps that leave a process's request alone *)

Lemma request_ok_ext s s' ch b w sec i0 a : request_ok s ch b w sec i0 a →
  (∀ i, i ∈ ch → znth (vd_desc s') i = znth (vd_desc s) i) → (i0 ∈ ch → znth (vd_ops s') i0 = znth (vd_ops s) i0) →
  (i0 ∈ ch → znth (vd_info s') i0 = znth (vd_info s) i0) → vb_disk (vd_buf s' b) = vb_disk (vd_buf s b) →
  (i0 ∈ ch → i0 ∈ in_flight s' ↔ i0 ∈ in_flight s) → (i0 ∈ ch → i0 ∉ used s' → i0 ∉ used s) → request_ok s' ch b w sec i0 a.
Proof.
  intros (i1 & i2 & st & -> & [E0 E1 E2 Hnd] & Eo & Ei & Ha & Hst) Hd Ho Hi Hb Hf Hu.
  assert (i0 ∈ [i0; i1; i2]) as Hin by (by left).
  exists i1, i2, st. split; [done|]. split; [split; [rewrite Hd by set_solver; done..|done]|].
  rewrite (Ho Hin), (Hi Hin), Hb, (Hf Hin). split; [done|]. split; [done|]. split; [done|].
  destruct Hst as [(? & ? & Hs)|?]; [left|by right]. split; [done|]. split; [done|]. intros Hnu. apply Hs. by apply Hu.
Qed.
Lemma thr_ok_ext s s' ch th : thr_ok s ch th →
  (∀ i, i ∈ ch → znth (vd_desc s') i = znth (vd_desc s) i ∧ znth (vd_ops s') i = znth (vd_ops s) i ∧
    znth (vd_info s') i = znth (vd_info s) i ∧ (i ∈ in_flight s' ↔ i ∈ in_flight s) ∧ (i ∈ used s → i ∈ used s')) →
  (∀ b, buf_of (th_pc th) = Some b → vb_disk (vd_buf s' b) = vb_disk (vd_buf s b)) → thr_ok s' ch th.
Proof.
  unfold thr_ok. intros Ht Hi Hb. destruct (th_pc th) as [|b w sec|b w sec i0]; [done..|].
  eapply request_ok_ext; [exact Ht|intros; by apply Hi|intros; by apply Hi|intros; by apply Hi|by apply Hb|intros; by apply Hi|].
  intros H1 H2 H3. apply H2. by apply Hi.
Qed.
Lemma thr_ok_wake s ch th c : thr_ok s ch th → thr_ok s ch (wake c th).
Proof.
  unfold wake. destruct (decide _) as [E|]; [|done]. unfold thr_ok. simpl. destruct (th_pc th) as [|b w sec|b w sec i0].
  - intros [_ ->]. done.
  - intros [_ ->]. split; [by left|done].
  - intros (i1 & i2 & st & Hc & Hch & Ho & Hi & _ & Hst). exists i1, i2, st. split_and!; try done. by left.
Qed.
Lemma wake_pc c th : th_pc (wake c th) = th_pc th.
Proof. unfold wake. by destruct (decide _). Qed.
Lemma wake_chan c th c' : th_chan (wake c th) = Some c' → th_chan th = Some c' ∧ c' ≠ c.
Proof. unfold wake. destruct (decide _) as [E|E]; [done|]. intros H. split; [done|]. by intros ->. Qed.

(** The chains lie within the arrays. *)
Lemma chain_range ch s t i : vok ch s → i ∈ ch t → 0 ≤ i < NUM ∧ znth (vd_free s) i = Some 0.
Proof.
  intros Hok Hi%(ok_own _ _ Hok). split; [|done]. apply znth_Some in Hi. by rewrite (ao_free _ (ok_arrays _ _ Hok)) in Hi.
Qed.
Lemma chain_not_free ch s t i : vok ch s → i ∈ ch t → i ∉ frees (vd_free s).
Proof. intros Hok Hi%(ok_own _ _ Hok) [Hf _]%elem_of_frees. done. Qed.
Lemma flight_chain ch s t b w sec i0 : vok ch s → th_pc (vd_thr s t) = VWait b w sec i0 →
  request_ok s (ch t) b w sec i0 (th_chan (vd_thr s t)) ∧ i0 ∈ ch t ∧ 0 ≤ i0 < NUM.
Proof.
  intros Hok Hpc. pose proof (ok_thr _ _ Hok t) as Ht. unfold thr_ok in Ht. rewrite Hpc in Ht. split; [done|].
  destruct Ht as (i1 & i2 & st & E & _). assert (i0 ∈ ch t) as Hi by (rewrite E; by left). split; [done|].
  by apply (chain_range _ _ _ _ Hok Hi).
Qed.

(** What a step has to do: keep the invariant, and show what a disk would. *)
Abbreviation answers_as := (answers astep vsim).
Definition served_step (e : option vev) s s' : Prop := (∃ ch', vok ch' s') ∧ answers_as e s s'.

(** No request changes. *)
Lemma sim_stutter s s' : (∀ x, dv_sector s' x = dv_sector s x) →
  (∀ b, vb_blockno (vd_buf s' b) = vb_blockno (vd_buf s b) ∧ vb_data (vd_buf s' b) = vb_data (vd_buf s b)) →
  (∀ t, athr_of s' (th_pc (vd_thr s' t)) = athr_of s (th_pc (vd_thr s t))) → answers_as None s s'.
Proof.
  intros Hs Hb Ht a [H1 H2 H3 H4]. exists a. split; [apply steps_refl|]. split; intros; [by rewrite Hs|by rewrite H2, (proj1 (Hb _))|
    by rewrite H3, (proj2 (Hb _))|by rewrite H4, Ht].
Qed.

(** Only the lock, what its holder does and what device and driver signal to each
    other change. *)
Definition signals s lk p irq kick owe : vst :=
  s <| vd_locked := lk |> <| vd_run := p |> <| dv_irq := irq |> <| dv_kick := kick |> <| dv_owe := owe |>.
Lemma in_flight_signals s lk p irq kick owe : about p = about (vd_run s) → in_flight (signals s lk p irq kick owe) = in_flight s.
Proof. intros Hp. unfold in_flight. by rewrite <-Hp. Qed.
Lemma vok_signals ch s lk p irq kick owe : vok ch s → lk = held p → about p = about (vd_run s) →
  run_ok (signals s lk p irq kick owe) p → vok ch (signals s lk p irq kick owe).
Proof.
  intros Hok -> Hp Hr. pose proof Hok as [Hlk Hrun Har Hidx Hthr Hown Hfr Hdisj Hbuf Hndf Hfl Hwait Hsec Hdat].
  pose proof (in_flight_signals s (held p) p irq kick owe Hp) as Hf.
  split; try done; [by destruct Har| | |].
  - intros t. eapply thr_ok_ext; [apply Hthr| |done]. intros i Hi. by rewrite Hf.
  - by rewrite Hf.
  - intros i. rewrite Hf. apply Hfl.
Qed.
Lemma sim_signals s lk p irq kick owe : answers_as None s (signals s lk p irq kick owe).
Proof. by apply sim_stutter. Qed.

(** ** Handing a request over *)

Lemma in_flight_formatted ch s t b w sec i0 i1 i2 rest : vok ch s → vd_run s = PNone → frees (vd_free s) = i0 :: i1 :: i2 :: rest →
  in_flight (formatted s t b w sec i0 i1 i2) = i0 :: in_flight s ∧ i0 ∉ in_flight s.
Proof.
  intros Hok Hrun Ef. split; [unfold in_flight; by rewrite Hrun|]. intros (t' & b' & w' & sec' & Hpc)%(ok_flight _ _ Hok).
  destruct (flight_chain _ _ _ _ _ _ _ Hok Hpc) as (_ & Hin & _). apply (chain_not_free _ _ _ _ Hok Hin). rewrite Ef. by left.
Qed.

Lemma formatted_ok ch s t b w sec i0 i1 i2 rest : vok ch s → vd_run s = PNone → frees (vd_free s) = i0 :: i1 :: i2 :: rest → ch t = [] →
  (∀ t', buf_of (th_pc (vd_thr s t')) = Some b → t' = t) → vok (<[t := [i0; i1; i2]]> ch) (formatted s t b w sec i0 i1 i2).
Proof.
  intros Hok Hrun Ef Hch Hb. destruct (in_flight_formatted ch s t b w sec i0 i1 i2 rest Hok Hrun Ef) as [Efl Hn0].
  assert (∀ i, i ∈ [i0; i1; i2] → i ∈ frees (vd_free s)) as Hfree by (intros i Hi; rewrite Ef; set_solver).
  assert (∀ i, i ∈ [i0; i1; i2] → 0 ≤ i < NUM) as Hr by (intros i Hi%Hfree; by apply elem_of_frees in Hi as [_ ?]).
  assert (NoDup [i0; i1; i2]) as Hnd.
  { pose proof (NoDup_frees (vd_free s)) as Hnd. rewrite Ef in Hnd. change (NoDup ([i0; i1; i2] ++ rest)) in Hnd. by apply NoDup_app in Hnd as [? _]. }
  assert (∀ t' i, i ∈ ch t' → i ∉ [i0; i1; i2]) as Hsep by (intros t' i Hi Hi'%Hfree; by apply (chain_not_free _ _ _ _ Hok Hi)).
  pose proof Hok as [Hlk Hru Har Hidx Hthr Hown Hfr Hdisj Hbuf Hndf Hfl Hwait Hsec Hdat]. pose proof Har as [L1 L2 L3 L4 L5 L6].
  destruct (chain_desc_ok (vd_desc s) b w i0 i1 i2) as (Hco & Hcd & Hcl); [done|rewrite L1; apply Hr; set_solver..|].
  assert (∀ i, i ∈ in_flight (formatted s t b w sec i0 i1 i2) ↔ i = i0 ∨ i ∈ in_flight s) as Hfi.
  { intros i. rewrite Efl. apply elem_of_cons. }
  assert (i0 ∈ [i0; i1; i2] ∧ i1 ∈ [i0; i1; i2] ∧ i2 ∈ [i0; i1; i2]) as (J0 & J1 & J2) by set_solver.
  pose proof (Hr _ J0). pose proof (Hr _ J1). pose proof (Hr _ J2).
  assert (∀ i, 0 ≤ i < NUM → znth (zset (zset (zset (vd_free s) i0 0) i1 0) i2 0) i = if decide (i ∈ [i0; i1; i2]) then Some 0 else znth (vd_free s) i) as Hzf.
  { intros i Hi. destruct (decide (i = i2)) as [->|]; [rewrite decide_True by done; apply znth_zset_eq; rewrite !zlen_zset; lia|].
    rewrite znth_zset_ne by lia. destruct (decide (i = i1)) as [->|]; [rewrite decide_True by done; apply znth_zset_eq; rewrite !zlen_zset; lia|].
    rewrite znth_zset_ne by lia. destruct (decide (i = i0)) as [->|]; [rewrite decide_True by done; apply znth_zset_eq; lia|].
    rewrite znth_zset_ne by lia. by rewrite decide_False by set_solver. }
  split; simpl; try done.
  - destruct Hru as [_ _ Hk Hi]. rewrite Hrun in Hk, Hi. split; simpl; [|done|exact Hk|exact Hi].
    intros t' b' w' sec' i' [= <- <- <- <- <-]. by rewrite !fn_lookup_insert.
  - split; simpl; rewrite ?Hcl, ?zlen_zset; done.
  - intros t'. destruct (decide (t' = t)) as [->|Hne].
    + rewrite !fn_lookup_insert. exists i1, i2, 255. split; [done|]. split; [done|]. simpl.
      rewrite !znth_zset_eq by lia. split; [done|]. split; [done|]. rewrite fn_lookup_insert. split; [by left|]. left.
      split; [done|]. split; [apply Hfi; by left|done].
    + rewrite !fn_lookup_insert_ne by done. eapply thr_ok_ext; [apply Hthr| |].
      * intros i Hi. pose proof (Hsep _ _ Hi) as Hns. assert (i ≠ i0) by set_solver. simpl. rewrite Hcd by done.
        destruct (chain_range _ _ _ _ Hok Hi). rewrite !znth_zset_ne by lia. rewrite Hfi. split_and!; [done|done|done|naive_solver|done].
      * intros b' Hb'. simpl. destruct (decide (b' = b)) as [->|]; [by apply Hb in Hb'|]. by rewrite fn_lookup_insert_ne.
  - intros t' i Hi. destruct (decide (t' = t)) as [->|Hne].
    + rewrite fn_lookup_insert in Hi. rewrite Hzf by (by apply Hr). by rewrite decide_True.
    + rewrite fn_lookup_insert_ne in Hi by done. destruct (chain_range _ _ _ _ Hok Hi) as [Hr' E]. rewrite Hzf by done. by destruct (decide _).
  - intros i Hi. rewrite Hzf by done. destruct (decide (i ∈ [i0; i1; i2])) as [Hin|Hin]; [right; exists t; by rewrite fn_lookup_insert|].
    destruct (Hfr i Hi) as [|(t' & Ht')]; [by left|right]. exists t'. rewrite fn_lookup_insert_ne; [done|]. intros ->. by rewrite Hch in Ht'; apply not_elem_of_nil in Ht'.
  - intros t1 t2 i. rewrite !fn_ins. destruct (decide (t1 = t)) as [->|], (decide (t2 = t)) as [->|]; intros G1 G2; try done;
      [by apply Hsep in G2|by apply Hsep in G1|by eapply Hdisj].
  - intros t1 t2 b'. rewrite !fn_ins. destruct (decide (t1 = t)) as [->|], (decide (t2 = t)) as [->|]; intros G1 G2; try done;
      simpl in G1, G2; [..|by eapply Hbuf].
    + simplify_eq. symmetry. by apply Hb.
    + simplify_eq. by apply Hb.
  - rewrite Efl. by constructor.
  - intros i [->|Hi]%Hfi.
    + exists t, b, w, sec. by rewrite fn_lookup_insert.
    + destruct (Hfl i Hi) as (t' & b' & w' & sec' & Hpc). exists t', b', w', sec'. rewrite fn_lookup_insert_ne; [done|].
      intros ->. destruct (flight_chain _ _ _ _ _ _ _ Hok Hpc) as (_ & Hin & _). by rewrite Hch in Hin; apply not_elem_of_nil in Hin.
  - intros t' Hc. destruct (decide (t' = t)) as [->|]; [by rewrite fn_lookup_insert in Hc|]. rewrite fn_lookup_insert_ne in Hc by done.
    pose proof (Hwait _ Hc) as Hw. rewrite Ef in Hw. simpl in Hw. lia.
  - intros b'. rewrite fn_ins. destruct (decide _); [apply (Hdat b)|apply Hdat].
Qed.

(** [s] is as [a] says but for process [t], which stands for [p]. *)
Definition vsim_but t (p : athr) s (a : adisk) : Prop :=
  (∀ x, ad_sector a x = dv_sector s x) ∧ (∀ b, ad_blockno a b = vb_blockno (vd_buf s b)) ∧
  (∀ b, ad_data a b = vb_data (vd_buf s b)) ∧ ad_thr a t = p ∧
  ∀ t', t' ≠ t → ad_thr a t' = athr_of s (th_pc (vd_thr s t')).
Lemma vsim_is_but t s a : vsim s a → vsim_but t (athr_of s (th_pc (vd_thr s t))) s a.
Proof. intros []. by split_and!. Qed.

Lemma formatted_sim ch s t b w sec i0 i1 i2 rest a : vok ch s → frees (vd_free s) = i0 :: i1 :: i2 :: rest →
  vsim_but t (APending b w sec) s a → vsim (formatted s t b w sec i0 i1 i2) a.
Proof.
  intros Hok Ef (H1 & H2 & H3 & H4 & H5). pose proof (ok_arrays _ _ Hok) as [_ _ L3 _ _ _].
  assert (i0 ∈ frees (vd_free s)) as Hi0 by (rewrite Ef; by left).
  assert (0 ≤ i0 < NUM) as Hr by (by apply elem_of_frees in Hi0 as [_ ?]). split; simpl.
  - done.
  - intros b'. rewrite fn_ins. destruct (decide _) as [->|]; [apply (H2 b)|apply H2].
  - intros b'. rewrite fn_ins. destruct (decide _) as [->|]; [apply (H3 b)|apply H3].
  - intros t'. rewrite fn_ins. destruct (decide _) as [->|Hne]; simpl.
    + rewrite znth_zset_eq by lia. simpl. done.
    + rewrite H5 by done. destruct (th_pc (vd_thr s t')) as [| |b' w' sec' j] eqn:Hpc; [done..|]. simpl.
      destruct (flight_chain _ _ _ _ _ _ _ Hok Hpc) as (_ & Hj & _).
      rewrite znth_zset_ne; [done|lia|]. intros ->. by apply (chain_not_free _ _ _ _ Hok Hj).
Qed.

Definition slept s D T t b w sec : vst :=
  MkVst false (vd_run s) D (vd_free s) (vd_used_idx s) (vd_info s) (vd_ops s) (av_idx s) (av_ring s) (us_idx s) (us_ring s) (vd_buf s)
    (<[t := MkThr (VTry b w sec) (Some ChFree)]> T) (dv_irq s) (dv_kick s) (dv_owe s) (dv_seen s) (dv_work s) (dv_sector s).

Lemma slept_ok ch s t b w sec D T : vok ch s → vd_run s = PNone → ch t = [] → (∀ t', buf_of (th_pc (vd_thr s t')) = Some b → t' = t) →
  (length (frees (vd_free s)) < 3)%nat → zlen D = NUM → (∀ i, i ∉ frees (vd_free s) → znth D i = znth (vd_desc s) i) →
  (∀ t, T t = vd_thr s t ∨ T t = wake ChFree (vd_thr s t)) → vok ch (slept s D T t b w sec).
Proof.
  intros Hok Hrun Hch Hb Hlt HD HD' HT. pose proof Hok as [Hlk Hru Har Hidx Hthr Hown Hfr Hdisj Hbuf Hndf Hfl Hwait Hsec Hdat].
  pose proof Har as [L1 L2 L3 L4 L5 L6]. assert (∀ u, th_pc (T u) = th_pc (vd_thr s u)) as Hpc.
  { intros u. destruct (HT u) as [-> | ->]; [done|apply wake_pc]. }
  split; simpl; try done.
  - by rewrite Hrun.
  - destruct Hru as [_ _ Hk Hi]. rewrite Hrun in Hk, Hi |- *. split; simpl; [done|done|exact Hk|exact Hi].
  - intros u. rewrite fn_ins. destruct (decide (u = t)) as [->|Hne]; [split; [by right|done]|].
    assert (thr_ok s (ch u) (T u)) as Hu by (destruct (HT u) as [-> | ->]; [apply Hthr|apply thr_ok_wake, Hthr]).
    eapply thr_ok_ext; [exact Hu| |done]. intros i Hi. simpl. rewrite HD' by (by eapply chain_not_free). done.
  - intros t1 t2 b'. rewrite !fn_ins. destruct (decide (t1 = t)) as [->|], (decide (t2 = t)) as [->|]; simpl; rewrite ?Hpc; intros G1 G2; try done.
    + simplify_eq. symmetry. by apply Hb.
    + simplify_eq. by apply Hb.
    + by eapply Hbuf.
  - intros i (t' & b' & w' & sec' & Hp)%Hfl. exists t', b', w', sec'. rewrite fn_ins, decide_False; [by rewrite Hpc|].
    intros ->. destruct (flight_chain _ _ _ _ _ _ _ Hok Hp) as (_ & Hin & _). by rewrite Hch in Hin; apply not_elem_of_nil in Hin.
Qed.

Lemma slept_sim s t b w sec D T a : (∀ t, T t = vd_thr s t ∨ T t = wake ChFree (vd_thr s t)) →
  vsim_but t (APending b w sec) s a → vsim (slept s D T t b w sec) a.
Proof.
  intros HT (H1 & H2 & H3 & H4 & H5). split; simpl; [done..|]. intros u. rewrite fn_ins. destruct (decide (u = t)) as [->|]; [done|].
  rewrite H5 by done. by destruct (HT u) as [-> | ->]; rewrite ?wake_pc.
Qed.

Lemma rw_try_served ch s t b w sec : vok ch s → vd_run s = PNone → ch t = [] → (∀ t', buf_of (th_pc (vd_thr s t')) = Some b → t' = t) →
  ∃ s', rw_try t b w sec (s <| vd_locked := true |>) = Ok (tt, s') ∧ (∃ ch', vok ch' s') ∧
    (∀ t', t' ≠ t → th_pc (vd_thr s' t') = th_pc (vd_thr s t')) ∧ ∀ a, vsim_but t (APending b w sec) s a → vsim s' a.
Proof.
  intros Hok Hrun Hch Hb. pose proof (ok_arrays _ _ Hok) as [L1 L2 L3 L4 L5 L6].
  destruct (decide (length (frees (vd_free s)) < 3)%nat) as [Hlt|Hge].
  - destruct (rw_try_sleeps (s <| vd_locked := true |>) t b w sec) as (D & T & E & HD & HD' & HT);
      [done|done|intros i; exact (frees_ones ch s i Hok)|done|].
    exists (slept s D T t b w sec). split; [exact E|]. split; [exists ch; by apply slept_ok|]. split; [|intros a; by apply slept_sim].
    intros t' Hne. simpl. rewrite fn_lookup_insert_ne by done. by destruct (HT t') as [-> | ->]; rewrite ?wake_pc.
  - destruct (frees (vd_free s)) as [|i0 [|i1 [|i2 rest]]] eqn:Ef; [simpl in Hge; lia..|].
    exists (formatted s t b w sec i0 i1 i2). split; [|split; [eexists; by eapply formatted_ok|split; [|intros a; by eapply formatted_sim]]].
    2: { intros t' Hne. simpl. by rewrite fn_lookup_insert_ne. }
    by rewrite (rw_try_formats (s <| vd_locked := true |>) t b w sec i0 i1 i2 rest).
Qed.

(** ** Waiting and returning *)

Definition returned s D T t i0 i1 i2 st : vst :=
  MkVst false (vd_run s) D (freed i0 i1 i2 (vd_free s)) (vd_used_idx s) (zset (vd_info s) i0 (MkInfo None st)) (vd_ops s) (av_idx s) (av_ring s)
    (us_idx s) (us_ring s) (vd_buf s) (<[t := MkThr VOut None]> T) (dv_irq s) (dv_kick s) (dv_owe s) (dv_seen s) (dv_work s) (dv_sector s).

Lemma freed_val (F : list Z) i0 i1 i2 i : zlen F = NUM → (∀ i, i ∈ [i0; i1; i2] → 0 ≤ i < NUM) → 0 ≤ i →
  znth (freed i0 i1 i2 F) i = if decide (i ∈ [i0; i1; i2]) then Some 1 else znth F i.
Proof.
  intros HF Hr Hi. unfold freed. pose proof (Hr i0 ltac:(set_solver)). pose proof (Hr i1 ltac:(set_solver)). pose proof (Hr i2 ltac:(set_solver)).
  destruct (decide (i = i2)) as [->|]; [rewrite decide_True by set_solver; apply znth_zset_eq; rewrite !zlen_zset; lia|].
  rewrite znth_zset_ne by lia. destruct (decide (i = i1)) as [->|]; [rewrite decide_True by set_solver; apply znth_zset_eq; rewrite !zlen_zset; lia|].
  rewrite znth_zset_ne by lia. destruct (decide (i = i0)) as [->|]; [rewrite decide_True by set_solver; apply znth_zset_eq; lia|].
  rewrite znth_zset_ne by lia. by rewrite decide_False by set_solver.
Qed.

Lemma returned_ok ch s t b w sec i0 i1 i2 st D T : vok ch s → vd_run s = PNone → th_pc (vd_thr s t) = VWait b w sec i0 → ch t = [i0; i1; i2] →
  i0 ∉ in_flight s → zlen D = NUM → (∀ i, i ∉ [i0; i1; i2] → znth D i = znth (vd_desc s) i) →
  (∀ u, T u = wake ChFree (vd_thr s u)) → vok (<[t := []]> ch) (returned s D T t i0 i1 i2 st).
Proof.
  intros Hok Hrun Hpc Hch Hnf HD HD' HT. pose proof Hok as [Hlk Hru Har Hidx Hthr Hown Hfr Hdisj Hbuf Hndf Hfl Hwait Hsec Hdat].
  pose proof Har as [L1 L2 L3 L4 L5 L6].
  assert (∀ i, i ∈ [i0; i1; i2] → 0 ≤ i < NUM) as Hr by (intros i; rewrite <-Hch; intros Hi; by destruct (chain_range _ _ _ _ Hok Hi)).
  assert (∀ u i, u ≠ t → i ∈ ch u → i ∉ [i0; i1; i2]) as Hsep by (intros u i Hu Hi; rewrite <-Hch; intros Hi'; by apply Hu; eapply Hdisj).
  assert (∀ u, th_pc (T u) = th_pc (vd_thr s u)) as HTp by (intros u; by rewrite HT, wake_pc).
  pose proof (Hr i0 ltac:(by left)) as Hr0.
  split; simpl; try done.
  - by rewrite Hrun.
  - destruct Hru as [_ _ Hk Hi]. rewrite Hrun in Hk, Hi |- *. split; simpl; [done|done|exact Hk|exact Hi].
  - split; simpl; rewrite ?zlen_zset; try done. unfold freed. by rewrite !zlen_zset.
  - intros u. rewrite !fn_ins. destruct (decide (u = t)) as [->|Hne]; [done|].
    eapply thr_ok_ext; [rewrite HT; apply thr_ok_wake, Hthr| |done]. intros i Hi. simpl. pose proof (Hsep _ _ Hne Hi) as Hns.
    rewrite HD' by done. rewrite znth_zset_ne; [done|lia|set_solver].
  - intros u i. rewrite fn_ins. destruct (decide (u = t)) as [->|Hne]; [by intros Hi%not_elem_of_nil|]. intros Hi.
    destruct (chain_range _ _ _ _ Hok Hi) as [Hri Ei]. rewrite freed_val by (done || lia). by rewrite decide_False by (by eapply Hsep).
  - intros i Hi. rewrite freed_val by (done || lia). destruct (decide (i ∈ [i0; i1; i2])) as [|Hn]; [by left|].
    destruct (Hfr i Hi) as [|(u & Hu)]; [by left|]. right. exists u. rewrite fn_ins, decide_False; [done|]. intros ->. by rewrite Hch in Hu.
  - intros t1 t2 i. rewrite !fn_ins. destruct (decide (t1 = t)), (decide (t2 = t)); intros G1 G2; try (by apply not_elem_of_nil in G1 || by apply not_elem_of_nil in G2).
    by eapply Hdisj.
  - intros t1 t2 b'. rewrite !fn_ins. destruct (decide (t1 = t)) as [->|], (decide (t2 = t)) as [->|]; simpl; rewrite ?HTp; intros G1 G2; try done.
    by eapply Hbuf.
  - intros i Hi. destruct (Hfl i Hi) as (u & b' & w' & sec' & Hp). exists u, b', w', sec'. rewrite fn_ins, decide_False; [by rewrite HTp|].
    intros ->. rewrite Hpc in Hp. by injection Hp as <- <- <- <-.
  - intros u. rewrite fn_ins. destruct (decide (u = t)) as [->|]; [done|]. rewrite HT. intros [? ?]%wake_chan. done.
Qed.

Lemma returned_sim ch s t b w sec i0 i1 i2 i st D T : vok ch s → th_pc (vd_thr s t) = VWait b w sec i0 →
  znth (vd_info s) i0 = Some i → in_status i = 0 → (∀ u, T u = wake ChFree (vd_thr s u)) →
  answers_as (Some (ERet t b w (vb_data (vd_buf s b)))) s (returned s D T t i0 i1 i2 st).
Proof.
  intros Hok Hpc Ei Est HT [ad an ax au] [H1 H2 H3 H4]. simpl in *. exists (MkAd ad an ax (<[t := AIdle]> au)). split.
  - rewrite <-H3. apply (steps_one astep (Some _)). eapply (a_return _ _ _ _ _ b w sec). rewrite H4, Hpc. simpl. rewrite Ei. simpl.
    rewrite decide_True by (by rewrite Est). done.
  - split; simpl; [done..|]. intros u. rewrite !fn_ins. destruct (decide (u = t)) as [->|Hne]; [done|]. rewrite H4, HT, wake_pc.
    destruct (th_pc (vd_thr s u)) as [| |b' w' sec' j] eqn:Hp; [done..|]. simpl.
    destruct (flight_chain _ _ _ _ _ _ _ Hok Hp) as (_ & Hj & Hjr). destruct (flight_chain _ _ _ _ _ _ _ Hok Hpc) as (_ & Hj0 & Hr0).
    rewrite znth_zset_ne; [done|lia|]. intros ->. apply Hne. by eapply (ok_disj _ _ Hok).
Qed.

(** [t] has found [b->disk] still 1. *)
Definition waits s t b w sec i0 : vst :=
  s <| vd_locked := false |> <| vd_thr := <[t := MkThr (VWait b w sec i0) (Some (ChBuf b))]> (vd_thr s) |>.
Lemma waits_ok ch s t b w sec i0 : vok ch s → vd_run s = PNone → th_pc (vd_thr s t) = VWait b w sec i0 → vb_disk (vd_buf s b) = 1 →
  vok ch (waits s t b w sec i0) ∧ answers_as None s (waits s t b w sec i0).
Proof.
  intros Hok Hrun Hpc Hd. set (s' := waits s t b w sec i0). assert (∀ u, th_pc (vd_thr s' u) = th_pc (vd_thr s u)) as Hpcs.
  { intros u. simpl. rewrite fn_ins. destruct (decide _) as [->|]; [by rewrite Hpc|done]. }
  split; [|by apply sim_stutter; [..|intros u; rewrite Hpcs]].
  destruct (flight_chain _ _ _ _ _ _ _ Hok Hpc) as ((i1 & i2 & st & Hch & Hco & Eo & Ei & _ & Hst) & _ & _).
  pose proof Hok as [Hlk Hru Har Hidx Hthr Hown Hfr Hdisj Hbuf Hndf Hflt Hwait Hsec Hdat]. split; try done; simpl.
  - by rewrite Hrun.
  - destruct Hru as [_ _ Hk Hi]. rewrite Hrun in Hk, Hi |- *. split; simpl; [done|done|exact Hk|exact Hi].
  - by destruct Har.
  - intros u. rewrite fn_ins. destruct (decide (u = t)) as [->|]; [|apply Hthr].
    exists i1, i2, st. split_and!; try done. by right.
  - intros t1 t2 b'. pose proof (Hpcs t1) as E1. pose proof (Hpcs t2) as E2. simpl in E1, E2. rewrite E1, E2. apply Hbuf.
  - intros i Hi. destruct (Hflt i Hi) as (u & ?). exists u. pose proof (Hpcs u) as E1. simpl in E1. by rewrite E1.
  - intros u. rewrite fn_ins. destruct (decide _); [done|]. apply Hwait.
Qed.

(** With the lock held, [rw_wait] puts its process to sleep, or returns when the
    request has been served; nobody else moves, but who waits for descriptors is
    woken by a return. *)
Lemma rw_wait_served ch s t b w sec i0 : vok ch s → vd_run s = PNone → th_pc (vd_thr s t) = VWait b w sec i0 →
  ∃ s', rw_wait t b w sec i0 (s <| vd_locked := true |>) = Ok (tt, s') ∧ served_step (ret_of t s s') s s' ∧
    (∀ t', t' ≠ t → th_pc (vd_thr s' t') = th_pc (vd_thr s t')) ∧
    (th_pc (vd_thr s' t) = VOut → ∀ t', th_chan (vd_thr s' t') ≠ Some ChFree).
Proof.
  intros Hok Hrun Hpc. destruct (flight_chain _ _ _ _ _ _ _ Hok Hpc) as ((i1 & i2 & st & Hch & Hco & Eo & Ei & _ & Hst) & _ & _).
  destruct Hst as [(Hd & _)|(Hd & Hnf & Hs)].
  - exists (waits s t b w sec i0). destruct (waits_ok ch s t b w sec i0) as [Hw Ha]; [done..|]. split; [|split; [split|split]].
    + unfold rw_wait. erewrite bind_step by reflexivity. assert (vb_disk (vd_buf (s <| vd_locked := true |>) b) = 1) as -> by exact Hd.
      reflexivity.
    + by exists ch.
    + unfold ret_of. rewrite Hpc. simpl. by rewrite fn_lookup_insert.
    + intros t' Hne. simpl. by rewrite fn_lookup_insert_ne.
    + simpl. by rewrite fn_lookup_insert.
  - destruct (rw_wait_returns (s <| vd_locked := true |>) t b w sec i0 i1 i2 (MkInfo (Some b) st)) as (D & T & E & HD & HD' & HT);
      [done|by destruct (ok_arrays _ _ Hok)|done| |done|done|].
    { intros i Hi. apply (ok_own _ _ Hok t). by rewrite Hch. }
    exists (returned s D T t i0 i1 i2 st). split; [exact E|]. split; [split; [eexists; by eapply returned_ok|]|split].
    + unfold ret_of. rewrite Hpc. simpl. rewrite fn_lookup_insert. by eapply returned_sim.
    + intros t' Hne. simpl. by rewrite fn_lookup_insert_ne, HT, wake_pc by done.
    + intros _ t'. simpl. rewrite fn_ins. destruct (decide _); [done|]. rewrite HT. by intros [_ ?]%wake_chan.
Qed.

(** ** Pieces of [virtio_disk_rw] *)

Lemma flight_about ch s t b w sec i0 : vok ch s → publishing (vd_run s) = Some (t, b, w, sec, i0) →
  th_pc (vd_thr s t) = VWait b w sec i0 ∧ vb_disk (vd_buf s b) = 1.
Proof. intros Hok Hp. destruct (ru_pub _ _ (ok_run _ _ Hok) _ _ _ _ _ Hp) as [-> ?]. done. Qed.
Lemma avail_room ch s i0 : vok ch s → about (vd_run s) = [i0] → zlen (avail s) < NUM.
Proof.
  intros Hok Hp. pose proof (proj1 (flight_bound _ _ Hok)) as Hb. unfold in_flight, zlen in *. rewrite Hp in Hb.
  rewrite !length_app in Hb. simpl in Hb. lia.
Qed.

(** The chain is in the ring, and not yet counted. *)
Definition ringed s t b w sec i0 : vst :=
  s <| av_ring ::= λ l, zset l (av_idx s mod NUM) i0 |> <| vd_run := PIdx t b w sec i0 |>.
Lemma ring_piece ch s t b w sec i0 : vok ch s → vd_run s = PRing t b w sec i0 →
  run_piece s = Ok (tt, ringed s t b w sec i0) ∧ vok ch (ringed s t b w sec i0).
Proof.
  intros Hok Hrun. pose proof Hok as [Hlk Hru Har Hidx Hthr Hown Hfr Hdisj Hbuf Hndf Hfl Hwait Hsec Hdat].
  pose proof Har as [L1 L2 L3 L4 L5 L6]. rewrite Hrun in Hru. destruct Hidx as (I1 & I2 & I3 & I4).
  assert (0 ≤ av_idx s mod NUM < NUM) as Hr by (by apply Z.mod_pos_bound). set (s' := ringed s t b w sec i0).
  assert (zlen (avail s) < NUM) as Hl by (eapply avail_room; [done|by rewrite Hrun]).
  assert (avail s' = avail s) as Ea by (by apply ring_store).
  assert (in_flight s' = in_flight s) as Hf by (unfold in_flight; rewrite Ea, Hrun; done).
  split.
  - unfold run_piece. erewrite bind_step by reflexivity. rewrite Hrun. unfold put_ring.
    erewrite bind_step by (erewrite bind_step by reflexivity; apply aset_ok; lia). reflexivity.
  - destruct Hru as [R1 R2 R3 R4]. split; try done.
    + transitivity (vd_locked s); [done|]. by rewrite Hlk, Hrun.
    + split; [exact R1| |rewrite Ea; exact R3|exact R4]. intros ? ? ? ? ? [= <- <- <- <- <-]. simpl. apply znth_zset_eq. lia.
    + split; simpl; rewrite ?zlen_zset; done.
    + intros u. eapply thr_ok_ext; [apply Hthr| |done]. intros i Hi. by rewrite Hf.
    + by rewrite Hf.
    + intros i. rewrite Hf. apply Hfl.
Qed.

(** The device can see the chain. *)
Definition counted s t b w sec i0 : vst := s <| av_idx := u16 (av_idx s + 1) |> <| vd_run := PNotify t b w sec i0 |>.
Lemma idx_piece ch s t b w sec i0 : vok ch s → vd_run s = PIdx t b w sec i0 →
  run_piece s = Ok (tt, counted s t b w sec i0) ∧ vok ch (counted s t b w sec i0).
Proof.
  intros Hok Hrun. pose proof Hok as [Hlk Hru Har Hidx Hthr Hown Hfr Hdisj Hbuf Hndf Hfl Hwait Hsec Hdat].
  rewrite Hrun in Hru. destruct Hru as [R1 R2 R3 R4]. pose proof Hidx as (I1 & I2 & I3 & I4).
  set (s' := counted s t b w sec i0).
  assert (avail s' = avail s ++ [i0]) as Ea.
  { assert (zlen (avail s) < NUM) as Hl by (eapply avail_room; [done|by rewrite Hrun]). apply ring_snoc; [done|done|done|by eapply R2]. }
  assert (in_flight s' ≡ₚ in_flight s) as Hf.
  { unfold in_flight. rewrite Ea, Hrun. simpl. rewrite <-app_assoc. symmetry. apply Permutation_middle. }
  assert (∀ i, i ∈ in_flight s' ↔ i ∈ in_flight s) as Hfi by (intros i; by rewrite Hf).
  split; [unfold run_piece; erewrite bind_step by reflexivity; by rewrite Hrun|]. split; try done.
  - transitivity (vd_locked s); [done|]. by rewrite Hlk, Hrun.
  - split; [exact R1|done|by right|exact R4].
  - by destruct Har.
  - split_and!; try lia; simpl; unfold wrap; change (2 ^ 16) with 65536; dlia.
  - intros u. eapply thr_ok_ext; [apply Hthr| |done]. intros i Hi. by rewrite Hfi.
  - by rewrite Hf.
  - intros i. rewrite Hfi. apply Hfl.
Qed.

Lemma notify_piece ch s t b w sec i0 : vok ch s → vd_run s = PNotify t b w sec i0 →
  ∃ s', run_piece s = Ok (tt, s') ∧ served_step None s s' ∧ vd_run s' = PNone ∧
    (∀ u, th_pc (vd_thr s' u) = th_pc (vd_thr s u)) ∧ vd_info s' = vd_info s ∧ used s' = used s.
Proof.
  intros Hok Hrun. destruct (flight_about ch s t b w sec i0 Hok) as [Hpc Hd]; [by rewrite Hrun|].
  pose proof (ok_run _ _ Hok) as [R1 R2 R3 R4]. rewrite Hrun in R4.
  set (s1 := signals s false PNone (dv_irq s) true (dv_owe s)).
  assert (vok ch s1) as Hok1 by (apply vok_signals; [done|done|by rewrite Hrun|split; [done|done|by left|exact R4]]).
  destruct (waits_ok ch s1 t b w sec i0) as [Hok2 Ha]; [done..|]. exists (waits s1 t b w sec i0). split; [|split; [split|split; [|split]]].
  - unfold run_piece. erewrite bind_step by reflexivity. rewrite Hrun. do 2 (erewrite bind_step by reflexivity).
    unfold rw_wait. erewrite bind_step by reflexivity.
    match goal with |- context [vb_disk ?x =? 1] => assert (vb_disk x = 1) as -> by exact Hd end. cbn [Z.eqb Pos.eqb].
    unfold sleep_vd. erewrite bind_step by reflexivity. unfold release_vd. erewrite bind_step by reflexivity.
    match goal with |- context [if ?x then _ else _] => assert (x = true) as -> by (transitivity (held (vd_run s)); [apply (ok_lock _ _ Hok)|by rewrite Hrun]) end.
    reflexivity.
  - by exists ch.
  - apply (answers_trans _ _ None None None _ s1 _ eq_refl); [apply sim_signals|done].
  - done.
  - intros u. simpl. rewrite fn_ins. destruct (decide _) as [->|]; [by rewrite Hpc|done].
  - done.
Qed.

(** ** The interrupt handler *)

(** The request at the head of [used], for buffer [b], has been handled. *)
Definition handled s b : vst :=
  s <| vd_used_idx := u16 (vd_used_idx s + 1) |> <| vd_buf ::= λ u, <[b := (u b) <| vb_disk := 0 |>]> u |>
    <| vd_thr ::= λ u t, wake (ChBuf b) (u t) |>.

Lemma used_pop ch s id l b : vok ch s → used s = id :: l →
  znth (us_ring s) (vd_used_idx s mod NUM) = Some id ∧ used (handled s b) = l ∧ vd_used_idx s ≠ us_idx s.
Proof.
  intros Hok Hu. destruct (ok_idx _ _ Hok) as (_ & Hu1 & Hu2 & _). unfold used in *. simpl.
  assert (vd_used_idx s ≠ us_idx s) as Hne by (intros E; rewrite E, ring_empty in Hu; done).
  rewrite ring_pop in Hu by done. injection Hu as E <-. split_and!; try done.
  destruct (znth_lt (us_ring s) (vd_used_idx s mod NUM)) as [x Ex]; [rewrite (ao_used _ (ok_arrays _ _ Hok)); by apply Z.mod_pos_bound|].
  rewrite Ex in E. simpl in E. by rewrite Ex, E.
Qed.

Lemma handled_ok ch s t id l b w sec : vok ch s → vd_run s = PDrain → used s = id :: l → th_pc (vd_thr s t) = VWait b w sec id →
  (in_status <$> znth (vd_info s) id) = Some 0 →
  vok ch (handled s b) ∧ in_flight s ≡ₚ id :: in_flight (handled s b).
Proof.
  intros Hok Hrun Hu Hpc Hst0. destruct (used_pop ch s id l b Hok Hu) as (Eu & El & _).
  pose proof Hok as [Hlk Hru Har Hidx Hthr Hown Hfr Hdisj Hbuf Hndf Hflt Hwait Hsec Hdat].
  destruct (flight_chain _ _ _ _ _ _ _ Hok Hpc) as ((i1 & i2 & st & Hch & Hco & Eo & Ei & Hsl & Hst) & Hid & Hidr).
  rewrite Ei in Hst0. simpl in Hst0. injection Hst0 as ->.
  assert (in_flight (handled s b) ≡ₚ avail s ++ dv_work s ++ l) as Hf' by (unfold in_flight; rewrite El; simpl; rewrite Hrun; done).
  assert (in_flight s ≡ₚ id :: in_flight (handled s b)) as Hf.
  { rewrite Hf'. unfold in_flight. rewrite Hu, Hrun, !app_assoc. symmetry. apply Permutation_middle. }
  pose proof Hndf as Hnd2. rewrite Hf in Hnd2. apply NoDup_cons in Hnd2 as [Hnid Hnd2].
  assert (∀ i, i ∈ in_flight s ↔ i = id ∨ i ∈ in_flight (handled s b)) as Hfi by (intros i; rewrite Hf; apply elem_of_cons).
  split; [|exact Hf]. split; simpl; try done.
  - destruct Hru as [_ _ Hk Hi]. rewrite Hrun in Hk, Hi |- *. split; simpl; [done|done|exact Hk|by right; right].
  - by destruct Har.
  - destruct Hidx as (? & ? & ? & ?). split_and!; try lia; unfold wrap; change (2 ^ 16) with 65536; dlia.
  - intros u. destruct (decide (u = t)) as [->|Hne].
    + unfold thr_ok. rewrite wake_pc, Hpc. exists i1, i2, 0. simpl. rewrite fn_lookup_insert. split_and!; try done.
      * left. destruct Hsl as [Hs|[Hs _]]; unfold wake; rewrite Hs; [by rewrite decide_False|by rewrite decide_True].
      * right. done.
    + apply thr_ok_wake. eapply thr_ok_ext; [apply Hthr| |].
      * intros i Hi. assert (i ≠ id) as Hni by (intros ->; by apply Hne; eapply Hdisj).
        split_and!; [done|done|done|rewrite Hfi; naive_solver|]. rewrite El, Hu. set_solver.
      * intros b' Hb'. simpl. rewrite fn_ins, decide_False; [done|]. intros ->. apply Hne. eapply Hbuf; [exact Hb'|by rewrite Hpc].
  - intros t1 t2 b'. rewrite !wake_pc. apply Hbuf.
  - intros i Hi. destruct (Hflt i) as (u & b' & w' & sec' & Hp); [apply Hfi; by right|]. exists u, b', w', sec'. by rewrite wake_pc.
  - intros u [? _]%wake_chan. by apply (Hwait u).
  - intros b'. rewrite fn_ins. destruct (decide _); [apply (Hdat b)|apply Hdat].
Qed.

Lemma handled_sim s b : answers_as None s (handled s b).
Proof.
  apply sim_stutter; [done| |].
  - intros b'. simpl. rewrite fn_ins. by destruct (decide _) as [->|].
  - intros t. simpl. by rewrite wake_pc.
Qed.

(** The next used entry has a status that is an error. *)
Definition device_error s : Prop :=
  vd_run s = PDrain ∧ ∃ id, head (used s) = Some id ∧ (in_status <$> znth (vd_info s) id) ≠ Some 0.

Lemma drain_piece ch s : vok ch s → vd_run s = PDrain →
  match used s with
  | [] => run_piece s = Ok (tt, signals s false PNone (dv_irq s) (dv_kick s) (dv_owe s))
  | id :: _ => ∃ t b w sec st, th_pc (vd_thr s t) = VWait b w sec id ∧ znth (vd_info s) id = Some (MkInfo (Some b) st) ∧
      run_piece s = if st =? 0 then Ok (tt, handled s b) else Panic "virtio_disk_intr status"
  end.
Proof.
  intros Hok Hrun. pose proof (ok_lock _ _ Hok) as Hlk. rewrite Hrun in Hlk. destruct (used s) as [|id l] eqn:Hu.
  - unfold run_piece. erewrite bind_step by reflexivity. rewrite Hrun. erewrite bind_step.
    2: { unfold intr_step. do 2 (erewrite bind_step by reflexivity). apply ring_nonempty in Hu; [|apply (ok_idx _ _ Hok)..].
         rewrite (proj2 (Z.eqb_eq _ _) Hu). reflexivity. }
    cbv beta iota. erewrite bind_step by reflexivity. unfold release_vd. erewrite bind_step by reflexivity.
    match goal with |- context [if ?x then _ else _] => assert (x = true) as -> by exact Hlk end. reflexivity.
  - assert (id ∈ in_flight s) as Hin by (unfold in_flight; rewrite Hu, !elem_of_app; right; right; right; by left).
    destruct (ok_flight _ _ Hok _ Hin) as (t & b & w & sec & Hpc).
    destruct (flight_chain _ _ _ _ _ _ _ Hok Hpc) as ((i1 & i2 & st & _ & _ & _ & Ei & _) & _).
    destruct (used_pop ch s id l b Hok Hu) as (Eu & _ & Hne). exists t, b, w, sec, st. split; [done|]. split; [done|].
    unfold run_piece. erewrite bind_step by reflexivity. rewrite Hrun. unfold intr_step.
    assert ((vd_used_idx s =? us_idx s) = false) as En by (by apply Z.eqb_neq).
    destruct (Z.eqb_spec st 0) as [->|Hst].
    + erewrite bind_step.
      2: { do 2 (erewrite bind_step by reflexivity). rewrite En.
           erewrite bind_step by (apply aget_ok; exact Eu). erewrite bind_step by (apply aget_ok; exact Ei). reflexivity. }
      reflexivity.
    + apply bind_panic. do 2 (erewrite bind_step by reflexivity). rewrite En.
      erewrite bind_step by (apply aget_ok; exact Eu). erewrite bind_step by (apply aget_ok; exact Ei).
      change (in_status (MkInfo (Some b) st)) with st. by rewrite (proj2 (Z.eqb_neq _ _) Hst).
Qed.

(** How many pieces are left of what goes on with the lock held. *)
Definition pieces_left s : nat :=
  match vd_run s with
  | PNone => 0 | PRing _ _ _ _ _ => 3 | PIdx _ _ _ _ _ => 2 | PNotify _ _ _ _ _ => 1
  | PStat => 3 + length (in_flight s) | PAck _ => 2 + length (in_flight s) | PDrain => 1 + length (in_flight s)
  end.

(** A piece fails on an error of the device and for no other reason; it is one
    less of those that are left, and nobody returns in it. *)
Lemma piece_served ch s : vok ch s → vd_locked s = true →
  (¬ device_error s ∧ ∃ s', run_piece s = Ok (tt, s') ∧ served_step (piece_ret (vd_run s) s s') s s' ∧
     (pieces_left s' < pieces_left s)%nat ∧ (∀ t, th_pc (vd_thr s' t) = th_pc (vd_thr s t)) ∧
     vd_info s' = vd_info s ∧ vd_run s' ≠ PStat ∧ ∀ id, id ∈ used s' → id ∈ used s) ∨
  (device_error s ∧ run_piece s = Panic "virtio_disk_intr status").
Proof.
  intros Hok Hlk. pose proof (ok_run _ _ Hok) as [R1 R2 R3 R4].
  assert (∀ s' t, (∀ u, th_pc (vd_thr s' u) = th_pc (vd_thr s u)) → ret_of t s s' = None) as Hret.
  { intros s' t Hp. unfold ret_of. rewrite Hp. by destruct (th_pc (vd_thr s t)). }
  assert (vd_run s ≠ PDrain → ¬ device_error s) as Hnd by (by intros ? [? _]).
  destruct (vd_run s) as [|t b w sec i0|t b w sec i0|t b w sec i0| |v|] eqn:Hrun.
  - by rewrite (ok_lock _ _ Hok), Hrun in Hlk.
  - left. split; [by apply Hnd|]. destruct (ring_piece ch s t b w sec i0 Hok Hrun) as [E Hok']. exists (ringed s t b w sec i0).
    split; [done|]. split; [split; [by exists ch|]|split; [|done]]; [simpl; rewrite Hret by done; by apply sim_stutter|].
    unfold pieces_left. rewrite Hrun. simpl. lia.
  - left. split; [by apply Hnd|]. destruct (idx_piece ch s t b w sec i0 Hok Hrun) as [E Hok']. exists (counted s t b w sec i0).
    split; [done|]. split; [split; [by exists ch|]|split; [|done]]; [simpl; rewrite Hret by done; by apply sim_stutter|].
    unfold pieces_left. rewrite Hrun. simpl. lia.
  - left. split; [by apply Hnd|]. destruct (notify_piece ch s t b w sec i0 Hok Hrun) as (s' & E & Hs & Hr' & Hp & Hi & Hu). exists s'.
    split; [done|]. simpl. rewrite Hret by done. split; [done|].
    split; [unfold pieces_left; rewrite Hrun, Hr'; lia|]. by rewrite Hu, Hr'.
  - left. split; [by apply Hnd|]. exists (signals s (vd_locked s) (PAck (dv_irq s)) (dv_irq s) (dv_kick s) (dv_owe s)).
    split; [unfold run_piece; erewrite bind_step by reflexivity; rewrite Hrun; by erewrite bind_step by reflexivity|].
    split; [split; [|apply sim_signals]|split; [unfold pieces_left; rewrite in_flight_signals by (by rewrite Hrun); rewrite Hrun; simpl; lia|done]].
    exists ch. apply vok_signals; [done|by rewrite Hlk|by rewrite Hrun|]. split; [done|done|exact R3|by right; right].
  - left. split; [by apply Hnd|].
    exists (signals s (vd_locked s) PDrain (if v then false else dv_irq s) (dv_kick s) (dv_owe s)).
    split; [unfold run_piece; erewrite bind_step by reflexivity; rewrite Hrun; by destruct v|].
    split; [split; [|apply sim_signals]|split; [unfold pieces_left; rewrite in_flight_signals by (by rewrite Hrun); rewrite Hrun; simpl; lia|done]].
    exists ch. apply vok_signals; [done|by rewrite Hlk|by rewrite Hrun|]. split; [done|done|exact R3|by right; right].
  - pose proof (drain_piece ch s Hok Hrun) as Hd. destruct (used s) as [|id l] eqn:Hu.
    + left. split; [intros (_ & id & Hid & _); by rewrite Hu in Hid|]. eexists. split; [exact Hd|].
      split; [split; [|apply sim_signals]|split; [unfold pieces_left; rewrite Hrun; simpl; lia|]]; [|split; [done|split; [done|split; [done|by rewrite <-Hu]]]].
      exists ch. apply vok_signals; [done|done|by rewrite Hrun|]. split; [done|done|exact R3|]. intros Hne. by destruct (Hne Hu).
    + destruct Hd as (t & b & w & sec & st & Hpc & Ei & E). destruct (Z.eqb_spec st 0) as [->|Hst].
      * left. split; [intros (_ & id' & Hid & Hx); rewrite Hu in Hid; injection Hid as <-; by rewrite Ei in Hx|].
        destruct (handled_ok ch s t id l b w sec Hok Hrun Hu Hpc) as [Hok' Hf]; [by rewrite Ei|]. exists (handled s b).
        split; [done|]. split; [split; [by exists ch|apply handled_sim]|].
        split; [unfold pieces_left; change (vd_run (handled s b)) with (vd_run s); rewrite Hrun, Hf; simpl; lia|].
        split; [intros u; simpl; apply wake_pc|split; [done|split; [simpl; by rewrite Hrun|]]].
        rewrite (proj1 (proj2 (used_pop ch s id l b Hok Hu))). intros id'. apply list_elem_of_further.
      * right. split; [|done]. split; [done|]. exists id. split; [by rewrite Hu|]. rewrite Ei. by intros [= ->].
Qed.

(** ** The device and the owners of buffers *)

Lemma fetch_served ch s s' : vok ch s → dev_fetch s s' → vok ch s' ∧ in_flight s' ≡ₚ in_flight s ∧ answers_as None s s'.
Proof.
  intros Hok (Hkick & Hne & id & Eid & ->). pose proof Hok as [Hlk Hru Har Hidx Hthr Hown Hfr Hdisj Hbuf Hndf Hflt Hwait Hsec Hdat].
  destruct Hidx as (I1 & I2 & I3 & I4). set (s' := s <| dv_seen := _ |> <| dv_work ::= _ |>).
  assert (avail s = id :: avail s') as Ea.
  { unfold avail. rewrite ring_pop by done. by rewrite Eid. }
  assert (in_flight s' ≡ₚ in_flight s) as Hf.
  { unfold in_flight. rewrite Ea. change (dv_work s') with (id :: dv_work s). change (used s') with (used s).
    apply Permutation_app_head. simpl. symmetry. apply (Permutation_middle (avail s') (dv_work s ++ used s) id). }
  assert (∀ i, i ∈ in_flight s' ↔ i ∈ in_flight s) as Hfi by (intros i; by rewrite Hf).
  split; [|split; [exact Hf|by apply sim_stutter]]. split; try done.
  - destruct Hru as [R1 R2 _ R4]. split; [exact R1|exact R2|by left|exact R4].
  - by destruct Har.
  - split_and!; try done; simpl; unfold wrap; change (2 ^ 16) with 65536; dlia.
  - intros t. eapply thr_ok_ext; [apply Hthr| |done]. intros i Hi. split_and!; [done..|apply Hfi|done].
  - by rewrite Hf.
  - intros i Hi. apply Hflt. by apply Hfi.
Qed.

(** [idle] and [raise] only signal. *)
Lemma idle_served ch s s' : vok ch s → dev_idle s s' → vok ch s' ∧ in_flight s' ≡ₚ in_flight s ∧ answers_as None s s'.
Proof.
  intros Hok (E & ->). assert (s <| dv_kick := false |> = signals s (vd_locked s) (vd_run s) (dv_irq s) false (dv_owe s)) as -> by done.
  split; [|split; [done|apply sim_signals]]. pose proof (ok_run _ _ Hok) as [R1 R2 R3 R4].
  apply vok_signals; [done|apply (ok_lock _ _ Hok)|done|]. split; [exact R1|exact R2| |exact R4]. intros Ha. exfalso. apply Ha.
  unfold avail. simpl. rewrite E. apply ring_empty.
Qed.
Lemma raise_served ch s s' : vok ch s → dev_raise s s' → vok ch s' ∧ in_flight s' ≡ₚ in_flight s ∧ answers_as None s s'.
Proof.
  intros Hok (E & ->).
  assert (s <| dv_irq := true |> <| dv_owe := false |> = signals s (vd_locked s) (vd_run s) true (dv_kick s) false) as -> by done.
  split; [|split; [done|apply sim_signals]]. pose proof (ok_run _ _ Hok) as [R1 R2 R3 R4].
  apply vok_signals; [done|apply (ok_lock _ _ Hok)|done|]. split; [exact R1|exact R2|exact R3|by left].
Qed.

(** The data moves when the status is 0. *)
Definition moved s b (w : bool) (sec st : Z) : (nat → vbuf) * (Z → list Z) :=
  if st =? 0 then
    if w then (vd_buf s, put_block (dv_sector s) sec (vb_data (vd_buf s b)))
    else (<[b := (vd_buf s b) <| vb_data := sector_block (dv_sector s) sec |>]> (vd_buf s), dv_sector s)
  else (vd_buf s, dv_sector s).
Definition completed s (id st : Z) (b : nat) (w : bool) (sec : Z) : vst :=
  MkVst (vd_locked s) (vd_run s) (vd_desc s) (vd_free s) (vd_used_idx s) (zset (vd_info s) id (MkInfo (Some b) st)) (vd_ops s)
    (av_idx s) (av_ring s) (u16 (us_idx s + 1)) (zset (us_ring s) (us_idx s mod NUM) id) (moved s b w sec st).1 (vd_thr s)
    (dv_irq s) (dv_kick s) true (dv_seen s) (filter (λ x, x ≠ id) (dv_work s)) (moved s b w sec st).2.

Lemma complete_inv ch s s' id st : vok ch s → dev_complete id st s s' →
  ∃ t b w sec, th_pc (vd_thr s t) = VWait b w sec id ∧ id ∈ dv_work s ∧ s' = completed s id st b w sec.
Proof.
  intros Hok (Hin & b & w & sec & j & Er & i & Ei & ->).
  destruct (ok_flight _ _ Hok id) as (t & b' & w' & sec' & Hpc); [unfold in_flight; set_solver|].
  destruct (flight_chain _ _ _ _ _ _ _ Hok Hpc) as (Hrq & _). rewrite (request_at_ok _ _ _ _ _ _ _ Hrq) in Er. injection Er as <- <- <- <-.
  destruct Hrq as (i1 & i2 & st0 & _ & _ & _ & Ei' & _). rewrite Ei in Ei'. injection Ei' as ->.
  exists t, b', w', sec'. split_and!; try done. unfold completed, moved. destruct (st =? 0), w'; reflexivity.
Qed.

Lemma moved_buf s b w sec st b' : vb_disk ((moved s b w sec st).1 b') = vb_disk (vd_buf s b') ∧
  vb_blockno ((moved s b w sec st).1 b') = vb_blockno (vd_buf s b').
Proof. unfold moved. destruct (st =? 0), w; simpl; try done. rewrite fn_ins. by destruct (decide _) as [->|]. Qed.
Lemma moved_len ch s b w sec st : vok ch s →
  (∀ x, zlen ((moved s b w sec st).2 x) = 512) ∧ (∀ b', zlen (vb_data ((moved s b w sec st).1 b')) = BSIZE).
Proof.
  intros Hok. pose proof (ok_sector _ _ Hok) as Hs. pose proof (ok_data _ _ Hok) as Hd.
  unfold moved. destruct (st =? 0), w; simpl; try done.
  - split; [|done]. intros x. unfold put_block. specialize (Hd b). unfold zlen in Hd |- *.
    destruct (decide (x = sec + 1)) as [->|]; [rewrite fn_lookup_insert, length_drop; lia|]. rewrite fn_lookup_insert_ne by done.
    destruct (decide (x = sec)) as [->|]; [rewrite fn_lookup_insert, length_take; lia|]. rewrite fn_lookup_insert_ne by done. apply Hs.
  - split; [done|]. intros b'. rewrite fn_ins. destruct (decide _); [|apply Hd]. simpl. unfold sector_block. rewrite zlen_app, !Hs. done.
Qed.

Lemma filter_perm (l : list Z) x : NoDup l → x ∈ l → l ≡ₚ x :: filter (λ y, y ≠ x) l.
Proof.
  intros Hn Hx. apply NoDup_Permutation; [done|constructor; [rewrite list_elem_of_filter; naive_solver|by apply NoDup_filter]|].
  intros y. rewrite elem_of_cons, list_elem_of_filter. destruct (decide (y = x)) as [->|]; naive_solver.
Qed.

Lemma completed_ok ch s t id st b w sec : vok ch s → th_pc (vd_thr s t) = VWait b w sec id → id ∈ dv_work s →
  vok ch (completed s id st b w sec) ∧ in_flight (completed s id st b w sec) ≡ₚ in_flight s ∧
  used (completed s id st b w sec) = used s ++ [id].
Proof.
  intros Hok Hpc Hin. pose proof Hok as [Hlk Hru Har Hidx Hthr Hown Hfr Hdisj Hbuf Hndf Hflt Hwait Hsec Hdat].
  pose proof Har as [L1 L2 L3 L4 L5 L6]. destruct Hidx as (I1 & I2 & I3 & I4). set (s' := completed s id st b w sec).
  destruct (flight_chain _ _ _ _ _ _ _ Hok Hpc) as ((i1 & i2 & st0 & Hch & Hco & Eo & Ei & Hsl & Hst) & Hid & Hidr).
  assert (zlen (used s) < NUM) as Hul.
  { pose proof (proj1 (flight_bound _ _ Hok)) as Hb. unfold in_flight, zlen in *. rewrite !length_app in Hb.
    apply list_elem_of_split in Hin as (l1 & l2 & E). rewrite E, length_app in Hb. simpl in Hb. lia. }
  assert (used s' = used s ++ [id]) as Eu by (unfold used; by apply ring_push).
  assert (avail s' = avail s) as Ea by done.
  assert (NoDup (dv_work s)) as Hndw by (by unfold in_flight in Hndf; apply NoDup_app in Hndf as (_ & _ & (_ & _ & (Hn & _)%NoDup_app)%NoDup_app)).
  assert (in_flight s' ≡ₚ in_flight s) as Hf.
  { unfold in_flight. rewrite Eu, Ea. change (dv_work s') with (filter (λ x, x ≠ id) (dv_work s)).
    rewrite (filter_perm (dv_work s) id) at 2 by done. do 2 apply Permutation_app_head. simpl.
    rewrite app_assoc. symmetry. rewrite Permutation_app_comm. rewrite (Permutation_app_comm _ [id]). done. }
  assert (∀ i, i ∈ in_flight s' ↔ i ∈ in_flight s) as Hfi by (intros i; by rewrite Hf).
  assert (id ∉ used s) as Hnu.
  { intros Hu. unfold in_flight in Hndf. apply NoDup_app in Hndf as (_ & _ & (_ & _ & (_ & Hx & _)%NoDup_app)%NoDup_app). by apply (Hx id). }
  destruct (moved_len ch s b w sec st Hok) as [Hm1 Hm2].
  split; [|split; [exact Hf|exact Eu]]. split; try done; simpl.
  - destruct Hru as [R1 R2 R3 _]. split; [|exact R2|exact R3|by right; left]. intros t' b' w' sec' i' Hp.
    destruct (R1 _ _ _ _ _ Hp) as [H1 H2]. split; [exact H1|]. simpl. by rewrite (proj1 (moved_buf _ _ _ _ _ _)).
  - split; simpl; rewrite ?zlen_zset; done.
  - split_and!; try lia; unfold wrap; change (2 ^ 16) with 65536; dlia.
  - intros u. destruct (decide (u = t)) as [->|Hne].
    + unfold thr_ok. rewrite Hpc. exists i1, i2, st. simpl. rewrite znth_zset_eq by lia. split_and!; try done.
      * destruct Hsl as [|[? Hd]]; [by left|right]. by rewrite (proj1 (moved_buf _ _ _ _ _ _)).
      * rewrite (proj1 (moved_buf _ _ _ _ _ _)), Hfi, Eu. destruct Hst as [(? & ? & _)|(? & Hnf & _)].
        -- left. split_and!; try done. intros Hn. exfalso. apply Hn. apply elem_of_app. right. by left.
        -- exfalso. apply Hnf. unfold in_flight. set_solver.
    + eapply thr_ok_ext; [apply Hthr| |intros b' _; apply (proj1 (moved_buf _ _ _ _ _ _))].
      intros i Hi. assert (i ≠ id) by (intros ->; by apply Hne; eapply Hdisj).
      split_and!; [done|done|apply znth_zset_ne; lia|apply Hfi|rewrite Eu; set_solver].
  - by rewrite Hf.
  - intros i Hi. apply Hflt. by apply Hfi.
Qed.

Lemma completed_sim ch s t id st b w sec : vok ch s → th_pc (vd_thr s t) = VWait b w sec id → id ∈ dv_work s →
  answers_as None s (completed s id st b w sec).
Proof.
  intros Hok Hpc Hin [ad an ax au] [H1 H2 H3 H4]. simpl in *.
  destruct (flight_chain _ _ _ _ _ _ _ Hok Hpc) as ((i1 & i2 & st0 & Hch & _ & _ & Ei & _ & Hst) & Hid & Hidr).
  assert (id ∈ in_flight s ∧ id ∉ used s) as [Hfl Hnu].
  { split; [unfold in_flight; set_solver|]. intros Hu. pose proof (ok_nodup _ _ Hok) as Hn. unfold in_flight in Hn.
    apply NoDup_app in Hn as (_ & _ & (_ & _ & (_ & Hx & _)%NoDup_app)%NoDup_app). by apply (Hx id). }
  assert (st0 = 255) as -> by (destruct Hst as [(_ & _ & Hs)|(_ & Hnf & _)]; [by apply Hs|done]).
  pose proof (ao_info _ (ok_arrays _ _ Hok)) as L3.
  assert (au t = APending b w sec) as Eat by (rewrite H4, Hpc; simpl; rewrite Ei; done).
  assert (∀ u, u ≠ t → athr_of (completed s id st b w sec) (th_pc (vd_thr s u)) = au u) as Hot.
  { intros u Hne. rewrite H4. destruct (th_pc (vd_thr s u)) as [| |b' w' sec' j] eqn:Hp; [done..|]. simpl.
    destruct (flight_chain _ _ _ _ _ _ _ Hok Hp) as (_ & Hj & Hjr). rewrite znth_zset_ne; [done|lia|]. intros ->. apply Hne. by eapply (ok_disj _ _ Hok). }
  assert (athr_of (completed s id st b w sec) (VWait b w sec id) = if st =? 0 then AServed b w sec else APending b w sec) as Hme.
  { simpl. rewrite znth_zset_eq by lia. simpl. destruct (Z.eqb_spec st 0) as [->|]; [by rewrite decide_True|]. rewrite decide_False; [done|]. by intros [= ->]. }
  destruct (Z.eqb_spec st 0) as [->|Hst0].
  - destruct w.
    + exists (MkAd (put_block ad sec (ax b)) an ax (<[t := AServed b true sec]> au)). split; [by apply steps_silent, a_write|].
      split; simpl; [|intros; by rewrite H2|intros; by rewrite H3|].
      * intros x. unfold put_block. destruct (decide (x = sec + 1)) as [->|]; [by rewrite !fn_lookup_insert, H3|]. rewrite !(fn_lookup_insert_ne _ (sec + 1)) by done.
        destruct (decide (x = sec)) as [->|]; [by rewrite !fn_lookup_insert, H3|]. by rewrite !fn_lookup_insert_ne by done.
      * intros u. rewrite fn_ins. destruct (decide (u = t)) as [->|Hne]; [by rewrite Hpc, Hme|by rewrite Hot].
    + exists (MkAd ad an (<[b := sector_block ad sec]> ax) (<[t := AServed b false sec]> au)). split; [by apply steps_silent, a_read|].
      split; simpl; [done| | |].
      * intros b'. rewrite fn_ins. destruct (decide _) as [->|]; [apply (H2 b)|apply H2].
      * intros b'. rewrite !fn_ins. destruct (decide _) as [->|]; [|apply H3]. simpl. unfold sector_block. by rewrite !H1.
      * intros u. rewrite fn_ins. destruct (decide (u = t)) as [->|Hne]; [by rewrite Hpc, Hme|by rewrite Hot].
  - exists (MkAd ad an ax au). split; [apply steps_refl|].
    assert (moved s b w sec st = (vd_buf s, dv_sector s)) as Em by (unfold moved; by destruct (Z.eqb_spec st 0)).
    split; simpl; rewrite ?Em; [done..|]. intros u. destruct (decide (u = t)) as [->|Hne]; [by rewrite Hpc, Eat, Hme|by rewrite Hot].
Qed.

Lemma buf_of_athr s p : abuf_of (athr_of s p) = buf_of p.
Proof. destruct p as [| |b w sec i]; [done..|]. simpl. by destruct (decide _). Qed.

Lemma fill_served ch s b n d : vok ch s → (∀ t, buf_of (th_pc (vd_thr s t)) ≠ Some b) → zlen d = BSIZE →
  served_step (Some (EFill b n d)) s (s <| vd_buf ::= λ u, <[b := MkVbuf (vb_disk (u b)) n d]> u |>).
Proof.
  intros Hok Hb Hd. pose proof Hok as [Hlk Hru Har Hidx Hthr Hown Hfr Hdisj Hbuf Hndf Hflt Hwait Hsec Hdat]. split.
  - exists ch. split; try done; simpl; [|by destruct Har| |].
    + destruct Hru as [R1 R2 R3 R4]. split; [|exact R2|exact R3|exact R4]. intros t' b' w' sec' i' Hp.
      destruct (R1 _ _ _ _ _ Hp) as [H1 H2]. split; [exact H1|]. simpl. rewrite fn_ins, decide_False; [done|]. intros ->.
      apply (Hb t'). by rewrite H1.
    + intros t. eapply thr_ok_ext; [apply Hthr|done|]. intros b' Hb'. simpl. rewrite fn_ins, decide_False; [done|]. intros ->. by eapply Hb.
    + intros b'. rewrite fn_ins. by destruct (decide _).
  - intros [ad an ax au] [H1 H2 H3 H4]. simpl in *. exists (MkAd ad (<[b := n]> an) (<[b := d]> ax) au). split.
    + apply (steps_one astep (Some _)), a_fill. intros t. rewrite H4, buf_of_athr. apply Hb.
    + split; simpl; [done|..]; intros u; rewrite ?fn_ins; [by destruct (decide _)..|apply H4].
Qed.

(** With the lock free, a process that has been woken up goes on, and a call is
    taken. *)
Lemma acquires ch s {A} (m : V A) : vok ch s → vd_run s = PNone → (acquire_vd ;; m) s = m (s <| vd_locked := true |>).
Proof.
  intros Hok Hrun. unfold acquire_vd. erewrite bind_step; [reflexivity|]. erewrite bind_step by reflexivity.
  rewrite (ok_lock _ _ Hok), Hrun. reflexivity.
Qed.
Lemma free_run ch s : vok ch s → vd_locked s = false → vd_run s = PNone.
Proof. intros Hok E. rewrite (ok_lock _ _ Hok) in E. by destruct (vd_run s). Qed.

Lemma resume_served ch s t : vok ch s → vd_run s = PNone → th_pc (vd_thr s t) ≠ VOut →
  ∃ s', rw_resume t s = Ok (tt, s') ∧ served_step (ret_of t s s') s s' ∧
    (∀ t', t' ≠ t → th_pc (vd_thr s' t') = th_pc (vd_thr s t')) ∧
    ((∃ b w sec i0, th_pc (vd_thr s t) = VWait b w sec i0) → th_pc (vd_thr s' t) = VOut → ∀ t', th_chan (vd_thr s' t') ≠ Some ChFree).
Proof.
  intros Hok Hrun Hpc. unfold rw_resume. pose proof (ok_thr _ _ Hok t) as Ht. unfold thr_ok in Ht.
  destruct (th_pc (vd_thr s t)) as [|b w sec|b w sec i0] eqn:Ep; [done|..].
  - destruct (rw_try_served ch s t b w sec) as (s' & E & Hv & Hot & Hs); [done|done|apply Ht| |].
    { intros t' Ht'. eapply (ok_buf _ _ Hok); [exact Ht'|by rewrite Ep]. }
    exists s'. split; [erewrite bind_step by reflexivity; rewrite Ep, (acquires ch) by done; exact E|].
    split; [split; [done|]|split; [done|by intros (?&?&?&?&?)]]. unfold ret_of. rewrite Ep.
    intros a Ha. exists a. split; [apply steps_refl|]. apply Hs. pose proof (vsim_is_but t s a Ha) as Hb. by rewrite Ep in Hb.
  - destruct (rw_wait_served ch s t b w sec i0 Hok Hrun Ep) as (s' & E & Hs & Hot & Hw). exists s'.
    split; [|split; [done|split; [done|by intros _]]]. erewrite bind_step by reflexivity. by rewrite Ep, (acquires ch).
Qed.

(** No entry of [used] reports an error. *)
Definition clean s : Prop := ∀ id, id ∈ used s → in_status <$> znth (vd_info s) id = Some 0.

(** With nothing in flight, whoever waits for its buffer can return, and gives its
    descriptors back. *)
Lemma returns ch s t b w sec i0 : vok ch s → vd_run s = PNone → in_flight s = [] → th_pc (vd_thr s t) = VWait b w sec i0 →
  th_chan (vd_thr s t) = None ∧ ∃ ch' s', rw_resume t s = Ok (tt, s') ∧ vok ch' s' ∧ vd_run s' = PNone ∧ in_flight s' = [] ∧
    th_pc (vd_thr s' t) = VOut ∧ (∀ u, u ≠ t → th_pc (vd_thr s' u) = th_pc (vd_thr s u)) ∧
    ∀ i, znth (vd_free s) i = Some 1 ∨ i ∈ ch t → znth (vd_free s') i = Some 1.
Proof.
  intros Hok Hrun Hnf Hpc. destruct (flight_chain _ _ _ _ _ _ _ Hok Hpc) as ((i1 & i2 & st & Hch & Hco & Eo & Ei & Hsl & Hst) & _ & _).
  destruct Hst as [(_ & Hfl & _)|(Hd & _ & _)]; [by rewrite Hnf in Hfl; apply not_elem_of_nil in Hfl|].
  split; [destruct Hsl as [|[_ Hd']]; [done|by rewrite Hd in Hd']|].
  destruct (rw_wait_returns (s <| vd_locked := true |>) t b w sec i0 i1 i2 (MkInfo (Some b) st)) as (D & T & E & HD & HD' & HT);
    [done|by destruct (ok_arrays _ _ Hok)|done| |done|done|].
  { intros i Hi. apply (ok_own _ _ Hok t). by rewrite Hch. }
  exists (<[t := []]> ch), (returned s D T t i0 i1 i2 st). split; [|split; [|split; [|split; [|split; [|split]]]]].
  - unfold rw_resume. erewrite bind_step by reflexivity. by rewrite Hpc, (acquires ch).
  - eapply returned_ok; try done. rewrite Hnf. apply not_elem_of_nil.
  - done.
  - exact Hnf.
  - simpl. by rewrite fn_lookup_insert.
  - intros u Hu. simpl. by rewrite fn_lookup_insert_ne, HT, wake_pc.
  - intros i Hi. simpl. assert (∀ j, j ∈ [i0; i1; i2] → 0 ≤ j < NUM) as Hr by (intros j; rewrite <-Hch; intros Hj; by destruct (chain_range _ _ _ _ Hok Hj)).
    pose proof (ao_free _ (ok_arrays _ _ Hok)) as L2.
    assert (0 ≤ i) as Hi0 by (destruct Hi as [Hi%znth_Some|Hi]; [lia|rewrite Hch in Hi; by apply Hr in Hi as [? _]]).
    rewrite freed_val by done. destruct (decide _) as [|Hn]; [done|]. destruct Hi as [|Hi]; [done|]. by rewrite Hch in Hi.
Qed.

Lemma call_served ch s t b w : vok ch s → vd_run s = PNone → th_pc (vd_thr s t) = VOut → (∀ t', buf_of (th_pc (vd_thr s t')) ≠ Some b) →
  ∃ s', virtio_disk_rw t b w s = Ok (tt, s') ∧
    served_step (Some (ECall t b w (u32 (vb_blockno (vd_buf s b) * (BSIZE / 512))) (vb_data (vd_buf s b)))) s s' ∧
    ∀ t', t' ≠ t → th_pc (vd_thr s' t') = th_pc (vd_thr s t').
Proof.
  intros Hok Hrun Hpc Hb. pose proof (ok_thr _ _ Hok t) as Ht. unfold thr_ok in Ht. rewrite Hpc in Ht.
  set (sec := u32 (vb_blockno (vd_buf s b) * (BSIZE / 512))).
  destruct (rw_try_served ch s t b w sec) as (s' & E & Hv & Hot & Hs); [done|done|apply Ht|intros t' Ht'; by apply Hb in Ht'|].
  exists s'. split; [|split; [split; [done|]|done]].
  - unfold virtio_disk_rw. erewrite bind_step by reflexivity. by rewrite (acquires ch).
  - intros [ad an ax au] [H1 H2 H3 H4]. simpl in *. exists (MkAd ad an ax (<[t := APending b w sec]> au)). split.
    + rewrite <-H3. apply (steps_one astep (Some _)). apply a_call; [by rewrite H4, Hpc| |unfold sec; by rewrite H2].
      intros t'. rewrite H4, buf_of_athr. apply Hb.
    + apply Hs. split_and!; simpl; [done..|by rewrite fn_lookup_insert|]. intros t' Hne. by rewrite fn_lookup_insert_ne.
Qed.

Lemma intr_served ch s : vok ch s → vd_run s = PNone →
  ∃ s', virtio_disk_intr s = Ok (tt, s') ∧ served_step None s s' ∧ ∀ t, th_pc (vd_thr s' t) = th_pc (vd_thr s t).
Proof.
  intros Hok Hrun. exists (signals s true PStat (dv_irq s) (dv_kick s) (dv_owe s)). pose proof (ok_run _ _ Hok) as [R1 R2 R3 R4].
  rewrite Hrun in R3. split; [unfold virtio_disk_intr; by rewrite (acquires ch)|]. split; [split; [|apply sim_signals]|done].
  exists ch. apply vok_signals; [done|done|by rewrite Hrun|]. split; [done|done|exact R3|by right; right].
Qed.

Lemma boot_ok sectors data : (∀ x, zlen (sectors x) = 512) → (∀ b, zlen (data b) = BSIZE) → vok (λ _, []) (driver_boot sectors data).
Proof.
  intros Hs Hd. split; simpl; try done.
  - intros t i Hi. by apply not_elem_of_nil in Hi.
  - intros i Hi. left. by apply znth_zrepl.
  - intros t t' i Hi. by apply not_elem_of_nil in Hi.
  - apply NoDup_nil_2.
  - intros i Hi. by apply not_elem_of_nil in Hi.
Qed.
Definition boot_disk sectors data : adisk := MkAd sectors (λ _, 0) data (λ _, AIdle).

(** A step that takes the lock finds it free. *)
Lemma acquired_free {A} (m : V A) s r : (acquire_vd ;; m) s = Ok r → vd_locked s = false.
Proof. unfold mbind, M_bind, acquire_vd. mred. by destruct (vd_locked s). Qed.
Lemma call_free t b w s r : virtio_disk_rw t b w s = Ok r → vd_locked s = false.
Proof. apply acquired_free. Qed.
Lemma resume_free t s r : th_pc (vd_thr s t) ≠ VOut → rw_resume t s = Ok r → vd_locked s = false.
Proof.
  unfold rw_resume. intros Hpc E. erewrite bind_step in E by reflexivity.
  destruct (th_pc (vd_thr s t)); [done|by apply acquired_free in E..].
Qed.

(** ** The theorems *)

Section theorems.
Context (device : vst → vst → Prop).
(** What the virtio specification says a block device does. *)
Context (device_spec : ∀ s s', device s s' → dev_fetch s s' ∨ dev_idle s s' ∨ (∃ id st, dev_complete id st s s') ∨ dev_raise s s').

Lemma device_served ch s s' : vok ch s → device s s' →
  vok ch s' ∧ answers_as None s s' ∧ (∀ t, th_pc (vd_thr s' t) = th_pc (vd_thr s t)) ∧ pieces_left s' = pieces_left s.
Proof using device_spec.
  intros Hok Hd. assert (∀ s', vd_run s' = vd_run s → in_flight s' ≡ₚ in_flight s → pieces_left s' = pieces_left s) as Hp.
  { intros s1 Hr Hf%Permutation_length. unfold pieces_left. by rewrite Hr, Hf. }
  destruct (device_spec s s' Hd) as [Hf|[Hi|[(id & st & Hc)|Hr]]].
  - destruct (fetch_served ch s s' Hok Hf) as (H1 & H2 & H3). destruct Hf as (_ & _ & ? & _ & ->). split; [done|]. split; [done|]. split; [done|]. by apply Hp.
  - destruct (idle_served ch s s' Hok Hi) as (H1 & H2 & H3). destruct Hi as (_ & ->). split; [done|]. split; [done|]. split; [done|]. by apply Hp.
  - destruct (complete_inv _ _ _ _ _ Hok Hc) as (t & b & w & sec & Hpc & Hin & ->).
    destruct (completed_ok ch s t id st b w sec Hok Hpc Hin) as (H1 & H2 & _).
    split; [done|]. split; [by eapply completed_sim|]. split; [done|]. by apply Hp.
  - destruct (raise_served ch s s' Hok Hr) as (H1 & H2 & H3). destruct Hr as (_ & ->). split; [done|]. split; [done|]. split; [done|]. by apply Hp.
Qed.

Lemma vstep_served e s s' : (∃ ch, vok ch s) → vstep device e s s' → (∃ ch, vok ch s') ∧ answers_as e s s'.
Proof using device_spec.
  intros (ch & Hok) Hs. destruct Hs as [s b n d Hb Hd|s t b w s' Hpc Hb E|s t s' Hpc Hc E|s s' Hlk E|s s' E|s s' Hd].
  - by eapply fill_served.
  - pose proof (free_run ch s Hok (call_free _ _ _ _ _ E)) as Hrun. destruct (call_served ch s t b w Hok Hrun Hpc Hb) as (s1 & E1 & H1 & _).
    rewrite E1 in E. by injection E as <-.
  - pose proof (free_run ch s Hok (resume_free _ _ _ Hpc E)) as Hrun. destruct (resume_served ch s t Hok Hrun Hpc) as (s1 & E1 & H1 & _).
    rewrite E1 in E. by injection E as <-.
  - destruct (piece_served ch s Hok Hlk) as [(_ & s1 & E1 & H1 & _)|(_ & E1)]; rewrite E1 in E; [by injection E as <-|done].
  - pose proof (free_run ch s Hok (acquired_free _ _ _ E)) as Hrun. destruct (intr_served ch s Hok Hrun) as (s1 & E1 & H1 & _).
    rewrite E1 in E. by injection E as <-.
  - destruct (device_served ch s s' Hok Hd) as (H1 & H2 & _). split; [by exists ch|done].
Qed.

Lemma reach_served sectors data tr s : (∀ x, zlen (sectors x) = 512) → (∀ b, zlen (data b) = BSIZE) →
  steps (vstep device) tr (driver_boot sectors data) s →
  (∃ ch, vok ch s) ∧ ∃ a, steps astep tr (boot_disk sectors data) a ∧ vsim s a.
Proof using device_spec.
  intros Hsec Hdat Hr. assert (∃ ch, vok ch (driver_boot sectors data)) as H0 by (eexists; by apply boot_ok). split.
  - apply (steps_inv (vstep device) (λ s, ∃ ch, vok ch s) tr (driver_boot sectors data)); [|done..].
    intros e s1 s2 H1 H2. by eapply vstep_served.
  - apply (trace_inclusion (vstep device) astep (λ s, ∃ ch, vok ch s) vsim tr (driver_boot sectors data)); [|done..].
    apply vstep_served.
Qed.

(** A process returns in a step of its own, which wakes all that wait for
    descriptors. *)
Lemma return_wakes ch e s s' t : vok ch s → vstep device e s s' → (∃ b w sec id, th_pc (vd_thr s t) = VWait b w sec id) →
  th_pc (vd_thr s' t) = VOut → ∀ t', th_chan (vd_thr s' t') ≠ Some ChFree.
Proof using device_spec.
  intros Hok Hs (b & w & sec & id & Hw) Hout. assert (th_pc (vd_thr s' t) ≠ th_pc (vd_thr s t)) as Hne by (by rewrite Hout, Hw).
  destruct Hs as [s b' n d Hb Hd|s t2 b' w' s' Hpc Hb E|s t2 s' Hpc Hc E|s s' Hlk E|s s' E|s s' Hd]; try done.
  - pose proof (free_run ch s Hok (call_free _ _ _ _ _ E)) as Hrun. destruct (call_served ch s t2 b' w' Hok Hrun Hpc Hb) as (s1 & E1 & _ & Hot).
    rewrite E1 in E. injection E as <-. rewrite Hot in Hout; [by rewrite Hw in Hout|]. intros ->. by rewrite Hw in Hpc.
  - pose proof (free_run ch s Hok (resume_free _ _ _ Hpc E)) as Hrun. destruct (resume_served ch s t2 Hok Hrun Hpc) as (s1 & E1 & _ & Hot & Hwk).
    rewrite E1 in E. injection E as <-. destruct (decide (t = t2)) as [->|Hn]; [apply Hwk; [by exists b, w, sec, id|done]|by rewrite Hot in Hne].
  - destruct (piece_served ch s Hok Hlk) as [(_ & s1 & E1 & _ & _ & Hp & _)|(_ & E1)]; rewrite E1 in E; [|done]. injection E as <-. by rewrite Hp in Hne.
  - pose proof (free_run ch s Hok (acquired_free _ _ _ E)) as Hrun. destruct (intr_served ch s Hok Hrun) as (s1 & E1 & _ & Hp).
    rewrite E1 in E. injection E as <-. by rewrite Hp in Hne.
  - destruct (device_served ch s s' Hok Hd) as (_ & _ & Hp & _). by rewrite Hp in Hne.
Qed.

(** C2. The driver serves requests, for any number of processes, in any order of
    their steps, of interrupts and of what the device does between any two
    accesses to what it shares with the driver. Whatever calls, returns and data
    its users see, in their order, they would also see from a disk on which each
    request is one indivisible read or write of the two sectors the call names,
    at one moment between the call of [virtio_disk_rw] and its return: no call
    returns unserved, none is served twice. Every request the device holds is
    well formed. With the lock free no call, no process that goes on and no
    interrupt meets a panic or a bad access; with the lock held the holder's next
    piece panics if it finds an error reported by the device, and then only; else
    one piece less is left to run, whatever the device does meanwhile, until the
    lock is released. *)
Theorem virtio_serves_requests sectors data tr s : (∀ x, zlen (sectors x) = 512) → (∀ b, zlen (data b) = BSIZE) →
  steps (vstep device) tr (driver_boot sectors data) s →
  (∃ a, steps astep tr (boot_disk sectors data) a ∧ vsim s a) ∧
  (∀ id, id ∈ dv_work s → ∃ t b w sec, th_pc (vd_thr s t) = VWait b w sec id ∧ request_at s id = Some (b, w, sec, id)) ∧
  (vd_locked s = false →
    (∀ t, th_pc (vd_thr s t) ≠ VOut → ∃ s', rw_resume t s = Ok (tt, s')) ∧
    (∀ t b w, th_pc (vd_thr s t) = VOut → (∀ t', buf_of (th_pc (vd_thr s t')) ≠ Some b) → ∃ s', virtio_disk_rw t b w s = Ok (tt, s')) ∧
    ∃ s', virtio_disk_intr s = Ok (tt, s')) ∧
  (vd_locked s = true →
    (device_error s → run_piece s = Panic "virtio_disk_intr status") ∧
    (¬ device_error s → ∃ s', run_piece s = Ok (tt, s') ∧ (pieces_left s' < pieces_left s)%nat) ∧
    ∀ s', device s s' → pieces_left s' = pieces_left s).
Proof using device_spec.
  intros Hsec Hdat Hr. destruct (reach_served sectors data tr s Hsec Hdat Hr) as ((ch & Hok) & Ha). split; [done|]. split; [|split].
  - intros id Hid. destruct (ok_flight _ _ Hok id) as (t & b & w & sec & Hpc).
    { unfold in_flight. rewrite !elem_of_app. by right; right; left. }
    exists t, b, w, sec. split; [done|]. eapply request_at_ok. by eapply flight_chain.
  - intros Hlk%(free_run ch s Hok). split; [|split].
    + intros t Hpc. destruct (resume_served ch s t Hok Hlk Hpc) as (s' & E & _). by exists s'.
    + intros t b w Hpc Hb. destruct (call_served ch s t b w Hok Hlk Hpc Hb) as (s' & E & _). by exists s'.
    + destruct (intr_served ch s Hok Hlk) as (s' & E & _). by exists s'.
  - intros Hlk. pose proof (piece_served ch s Hok Hlk) as Hp. split; [|split].
    + intros He. by destruct Hp as [[Hn _]|[_ E]].
    + intros He. destruct Hp as [(_ & s' & E & _ & Hl & _)|[Hn _]]; [by exists s'|done].
    + intros s' Hd. by destruct (device_served ch s s' Hok Hd) as (_ & _ & _ & ?).
Qed.

(** ** Getting done *)

(** The device has something to do. *)
Definition dev_busy s : Prop := dv_kick s = true ∧ dv_seen s ≠ av_idx s ∨ dv_work s ≠ [] ∨ dv_owe s = true.
(** What the device has taken is well formed, and its ring is where it should be. *)
Definition dev_readable s : Prop := zlen (av_ring s) = NUM ∧
  ∀ id, id ∈ dv_work s → ∃ b w sec j, request_at s id = Some (b, w, sec, j) ∧ is_Some (znth (vd_info s) j).
(** A device that is busy can go on, without an error. *)
Context (device_live : ∀ s, dev_busy s → dev_readable s →
  ∃ s', device s s' ∧ (dev_fetch s s' ∨ (∃ id, dev_complete id 0 s s') ∨ dev_raise s s')).

(** The handler is entered only when the device has raised its interrupt. *)
Definition prompt_step (e : option vev) s s' : Prop :=
  vstep device e s s' ∧ (vd_run s' = PStat → vd_run s = PStat ∨ dv_irq s = true).
Definition goes s s' : Prop := ∃ tr, steps prompt_step tr s s'.
Lemma goes_refl s : goes s s.
Proof using Type. exists []. constructor. Qed.
Lemma goes_trans s1 s2 s3 : goes s1 s2 → goes s2 s3 → goes s1 s3.
Proof using Type. intros (tr1 & H1) (tr2 & H2). exists (tr1 ++ tr2). by eapply steps_app. Qed.
Lemma goes_one e s s' : vstep device e s s' → vd_run s' ≠ PStat ∨ dv_irq s = true → goes s s'.
Proof using Type. intros H1 H2. eexists. apply (steps_one _ e). split; [done|]. intros H3. right. by destruct H2. Qed.

(** Whoever holds the lock releases it. *)
Lemma unlocks s : (∃ ch, vok ch s) → clean s → ∃ s', goes s s' ∧ (∃ ch, vok ch s') ∧ clean s' ∧ vd_run s' = PNone ∧
  ∀ t, th_pc (vd_thr s' t) = th_pc (vd_thr s t).
Proof using Type.
  remember (pieces_left s) as n eqn:Hn. revert s Hn. induction (lt_wf n) as [n _ IH]. intros s -> (ch & Hok) Hcl.
  destruct (vd_locked s) eqn:Hlk; [|exists s; split; [apply goes_refl|]; split; [by exists ch|]; split; [done|]; split; [by eapply free_run|done]].
  destruct (piece_served ch s Hok Hlk) as [(_ & s1 & E & [Hok1 _] & Hl & Hp & Hi & Hns & Hu)|((_ & id & Hid & Hx) & _)].
  - destruct (IH _ Hl s1 eq_refl Hok1) as (s2 & G2 & Hok2 & Hcl2 & Hr2 & Hp2).
    { intros id Hid. rewrite Hi. by apply Hcl, Hu. }
    exists s2. split; [|split; [done|split; [done|split; [done|]]]; intros t; by rewrite Hp2, Hp].
    eapply goes_trans; [|exact G2]. eapply goes_one; [by apply vs_piece|by left].
  - exfalso. apply Hx, Hcl. destruct (used s); [done|]. injection Hid as ->. by left.
Qed.

(** The handler leaves nothing in [used]. *)
Lemma drains ch l s : vok ch s → vd_run s = PDrain → clean s → used s = l →
  ∃ s', goes s s' ∧ vok ch s' ∧ vd_run s' = PNone ∧ used s' = [] ∧ avail s' = avail s ∧ dv_work s' = dv_work s ∧
    ∀ t, th_pc (vd_thr s' t) = th_pc (vd_thr s t).
Proof using Type.
  revert s. induction l as [|id l IH]; intros s Hok Hrun Hcl Hu; pose proof (drain_piece ch s Hok Hrun) as Hd; rewrite Hu in Hd.
  - pose proof (ok_run _ _ Hok) as [R1 R2 R3 R4]. rewrite Hrun in R3.
    exists (signals s false PNone (dv_irq s) (dv_kick s) (dv_owe s)). split; [|split; [|done]].
    + eapply goes_one; [apply vs_piece; [by rewrite (ok_lock _ _ Hok), Hrun|exact Hd]|by left].
    + apply vok_signals; [done|done|by rewrite Hrun|]. split; [done|done|exact R3|]. intros Hne. by destruct (Hne Hu).
  - destruct Hd as (t & b & w & sec & st & Hpc & Ei & E). pose proof (Hcl id) as H0. rewrite Hu, Ei in H0. specialize (H0 ltac:(by left)).
    injection H0 as ->. destruct (handled_ok ch s t id l b w sec Hok Hrun Hu Hpc) as [Hok' _]; [by rewrite Ei|].
    destruct (used_pop ch s id l b Hok Hu) as (_ & El & _).
    destruct (IH (handled s b) Hok' Hrun) as (s' & G & Hv & Hr' & Hu' & Ha' & Hw' & Hp'); [|done|].
    { intros id' Hid. apply Hcl. rewrite Hu. right. by rewrite <-El. }
    exists s'. split; [|split; [done|split; [done|split; [done|split; [done|split; [done|]]]]]].
    + eapply goes_trans; [|exact G]. eapply goes_one; [apply vs_piece; [by rewrite (ok_lock _ _ Hok), Hrun|exact E]|].
      left. simpl. by rewrite Hrun.
    + intros u. rewrite Hp'. simpl. apply wake_pc.
Qed.

(** With the lock free and its interrupt raised, the handler leaves nothing in
    [used]. *)
Lemma interrupts ch s : vok ch s → vd_run s = PNone → clean s → dv_irq s = true →
  ∃ s', goes s s' ∧ vok ch s' ∧ vd_run s' = PNone ∧ used s' = [] ∧ avail s' = avail s ∧ dv_work s' = dv_work s ∧
    ∀ t, th_pc (vd_thr s' t) = th_pc (vd_thr s t).
Proof using Type.
  intros Hok Hrun Hcl Hirq. pose proof (ok_run _ _ Hok) as [R1 R2 R3 R4]. rewrite Hrun in R3.
  set (s1 := signals s true PStat true (dv_kick s) (dv_owe s)).
  set (s2 := signals s true (PAck true) true (dv_kick s) (dv_owe s)).
  set (s3 := signals s true PDrain false (dv_kick s) (dv_owe s)).
  assert (vok ch s3) as Hok3.
  { apply vok_signals; [done|done|by rewrite Hrun|]. split; [done|done|exact R3|by right; right]. }
  destruct (drains ch (used s) s3 Hok3) as (s' & G & H); [done..|]. exists s'. split; [|exact H].
  eapply goes_trans; [|eapply goes_trans; [|eapply goes_trans; [|exact G]]].
  - eapply goes_one; [apply (vs_intr device s s1)|by right]. unfold virtio_disk_intr. rewrite (acquires ch) by done.
    unfold s1. by rewrite <-Hirq.
  - eapply (goes_one _ s1 s2); [by apply vs_piece|by left].
  - eapply (goes_one _ s2 s3); [by apply vs_piece|by left].
Qed.

Definition to_do s : nat := 4 * length (avail s) + 3 * length (dv_work s) + length (used s) + (if dv_owe s then 1 else 0).
(** A step of a device that is busy leaves less to do. *)
Lemma device_turn ch s : vok ch s → clean s → dev_busy s →
  ∃ s', device s s' ∧ vok ch s' ∧ clean s' ∧ vd_run s' = vd_run s ∧ (∀ t, th_pc (vd_thr s' t) = th_pc (vd_thr s t)) ∧ (to_do s' < to_do s)%nat.
Proof using device_live.
  intros Hok Hcl Hbusy. assert (∀ id, id ∈ dv_work s → id ∈ in_flight s) as Hwf.
  { intros id Hid. unfold in_flight. rewrite !elem_of_app. by right; right; left. }
  destruct (device_live s Hbusy) as (s' & Hd & Hc).
  { split; [apply (ao_avail _ (ok_arrays _ _ Hok))|]. intros id Hid%Hwf. destruct (ok_flight _ _ Hok id Hid) as (t & b & w & sec & Hpc).
    destruct (flight_chain _ _ _ _ _ _ _ Hok Hpc) as (Hrq & _). exists b, w, sec, id. split; [by eapply request_at_ok|].
    destruct Hrq as (i1 & i2 & st & _ & _ & _ & Ei & _). by rewrite Ei. }
  exists s'. split; [done|]. destruct Hc as [Hf|[(id & Hc)|Hr]].
  - destruct (fetch_served ch s s' Hok Hf) as (H1 & H2%Permutation_length & _). destruct Hf as (_ & _ & id & _ & ->).
    split; [done|]. split; [exact Hcl|]. split; [done|]. split; [done|]. unfold in_flight in H2. rewrite !length_app in H2.
    unfold to_do. simpl in H2 |- *. change (used (_ <| dv_work ::= _ |>)) with (used s) in H2 |- *. lia.
  - destruct (complete_inv _ _ _ _ _ Hok Hc) as (t & b & w & sec & Hpc & Hin & ->).
    destruct (completed_ok ch s t id 0 b w sec Hok Hpc Hin) as (H1 & H2%Permutation_length & H3).
    destruct (flight_chain _ _ _ _ _ _ _ Hok Hpc) as (_ & _ & Hr).
    split; [done|]. split; [|split; [done|split; [done|]]].
    + intros id' Hid. rewrite H3 in Hid. simpl. pose proof (ao_info _ (ok_arrays _ _ Hok)) as L3.
      destruct (decide (id' = id)) as [->|Hne]; [by rewrite znth_zset_eq by lia|].
      rewrite znth_zset_ne by lia. apply Hcl. apply elem_of_app in Hid as [|Hid%list_elem_of_singleton]; done.
    + unfold in_flight in H2. rewrite !length_app, H3, length_app in H2. unfold to_do. rewrite H3, length_app. simpl in H2 |- *.
      change (avail (completed s id 0 b w sec)) with (avail s) in H2 |- *.
      destruct (dv_owe s); lia.
  - destruct (raise_served ch s s' Hok Hr) as (H1 & _). destruct Hr as (Ho & ->). split; [done|]. split; [exact Hcl|].
    split; [done|]. split; [done|]. unfold to_do. rewrite Ho. simpl.
    change (avail (_ <| dv_owe := _ |>)) with (avail s). change (used (_ <| dv_owe := _ |>)) with (used s). lia.
Qed.

(** Device and handler get done with all that is in flight. *)
Lemma quiet ch s : vok ch s → vd_run s = PNone → clean s →
  ∃ s', goes s s' ∧ vok ch s' ∧ vd_run s' = PNone ∧ in_flight s' = [] ∧ ∀ t, th_pc (vd_thr s' t) = th_pc (vd_thr s t).
Proof using device_live.
  remember (to_do s) as n eqn:Hn. revert s Hn. induction (lt_wf n) as [n _ IH]. intros s -> Hok Hrun Hcl.
  assert (Decision (dev_busy s)) as Hdec by (unfold dev_busy; apply _). destruct (decide (dev_busy s)) as [Hb|Hb].
  - destruct (device_turn ch s Hok Hcl Hb) as (s1 & Hd & Hok1 & Hcl1 & Hr1 & Hp1 & Hl).
    destruct (IH _ Hl s1 eq_refl Hok1) as (s2 & G & Hok2 & Hr2 & Hf2 & Hp2); [by rewrite Hr1|done|].
    exists s2. split; [|split; [done|split; [done|split; [done|]]]; intros t; by rewrite Hp2, Hp1].
    eapply goes_trans; [|exact G]. eapply goes_one; [by apply vs_device|left]. by rewrite Hr1, Hrun.
  - pose proof (ok_run _ _ Hok) as [R1 R2 R3 R4]. rewrite Hrun in R3, R4.
    assert (dv_work s = []) as Hw by (destruct (dv_work s) eqn:E; [done|]; destruct Hb; right; left; by rewrite E).
    assert (dv_owe s = false) as Ho by (destruct (dv_owe s) eqn:E; [|done]; destruct Hb; by right; right).
    assert (avail s = []) as Ha.
    { destruct (avail s) eqn:E; [done|]. destruct R3 as [Hk|]; [done| |done]. destruct Hb. left. split; [done|].
      intros Es. unfold avail in E. by rewrite Es, ring_empty in E. }
    destruct (used s) as [|id l] eqn:Hu.
    + exists s. split; [apply goes_refl|]. split; [done|]. split; [done|]. split; [|done].
      unfold in_flight. by rewrite Hrun, Ha, Hw, Hu.
    + destruct R4 as [Hi|[|]]; [done| |by rewrite Ho in *|done].
      destruct (interrupts ch s Hok Hrun Hcl Hi) as (s' & G & Hok' & Hr' & Hu' & Ha' & Hw' & Hp').
      exists s'. split; [done|]. split; [done|]. split; [done|]. split; [|done].
      unfold in_flight. by rewrite Hr', Ha', Ha, Hw', Hw, Hu'.
Qed.

(** Where a process is after others have returned, and perhaps it too. *)
Definition may_return s s' : Prop := ∀ t, th_pc (vd_thr s' t) = th_pc (vd_thr s t) ∨
  (∃ b w sec id, th_pc (vd_thr s t) = VWait b w sec id) ∧ th_pc (vd_thr s' t) = VOut.
Lemma chain_waits ch s t i : vok ch s → i ∈ ch t → ∃ b w sec id, th_pc (vd_thr s t) = VWait b w sec id.
Proof using Type.
  intros Hok Hi. pose proof (ok_thr _ _ Hok t) as Ht. unfold thr_ok in Ht.
  destruct (th_pc (vd_thr s t)) as [| |b w sec id]; [..|by exists b, w, sec, id]; destruct Ht as [_ E]; rewrite E in Hi; by apply not_elem_of_nil in Hi.
Qed.
Lemma give_back ch s (l : list Z) : vok ch s → vd_run s = PNone → in_flight s = [] → (∀ i, i ∈ l → 0 ≤ i < NUM) →
  ∃ ch' s', goes s s' ∧ vok ch' s' ∧ vd_run s' = PNone ∧ in_flight s' = [] ∧ may_return s s' ∧
    ∀ i, i ∈ l → znth (vd_free s') i = Some 1.
Proof using Type.
  intros Hok Hrun Hf. induction l as [|i l IH]; intros Hl.
  { exists ch, s. split; [apply goes_refl|]. split; [done|]. split; [done|]. split; [done|]. split; [by left|]. by intros i Hi%not_elem_of_nil. }
  destruct IH as (ch1 & s1 & G1 & Hok1 & Hr1 & Hf1 & Hm1 & Hl1); [intros j Hj; apply Hl; by right|].
  destruct (ok_free _ _ Hok1 i) as [Ei|(t & Hi)]; [apply Hl; by left| |].
  { exists ch1, s1. do 5 (split; [done|]). intros j [->|Hj]%elem_of_cons; [done|by apply Hl1]. }
  destruct (chain_waits _ _ _ _ Hok1 Hi) as (b & w & sec & id & Hpc).
  destruct (returns ch1 s1 t b w sec id Hok1 Hr1 Hf1 Hpc) as (Hc & ch2 & s2 & E & Hok2 & Hr2 & Hf2 & Hout & Hot & Hfr).
  exists ch2, s2. split; [|split; [done|split; [done|split; [done|split]]]].
  - eapply goes_trans; [exact G1|]. eapply goes_one; [apply (vs_resume device s1 t s2); [by rewrite Hpc|done|done]|left; by rewrite Hr2].
  - intros u. destruct (decide (u = t)) as [->|Hne]; [|by rewrite Hot].
    destruct (Hm1 t) as [Hp|[_ Hp]]; [|by rewrite Hp in Hpc]. right. split; [|done]. exists b, w, sec, id. by rewrite <-Hp.
  - intros j [->|Hj]%elem_of_cons; apply Hfr; [by right|left; by apply Hl1].
Qed.

Lemma settles s : (∃ ch, vok ch s) → clean s →
  ∃ ch' s', goes s s' ∧ vok ch' s' ∧ vd_run s' = PNone ∧ in_flight s' = [] ∧ may_return s s' ∧ frees (vd_free s') = upto NUM.
Proof using device_live.
  intros Hok Hcl. destruct (unlocks s Hok Hcl) as (s1 & G1 & (ch1 & Hok1) & Hcl1 & Hr1 & Hp1).
  destruct (quiet ch1 s1 Hok1 Hr1 Hcl1) as (s2 & G2 & Hok2 & Hr2 & Hf2 & Hp2).
  destruct (give_back ch1 s2 (upto NUM) Hok2 Hr2 Hf2) as (ch3 & s3 & G3 & Hok3 & Hr3 & Hf3 & Hm3 & Hall); [by intros i ?%elem_of_upto|].
  exists ch3, s3. split; [by eapply goes_trans, goes_trans|]. do 3 (split; [done|]). split.
  - intros t. destruct (Hm3 t) as [E|[Hw E]]; [left|right]; rewrite ?E, ?Hp2, ?Hp1; [done|]. by rewrite Hp2, Hp1 in Hw.
  - unfold frees. apply filter_id. intros i Hi. by rewrite Hall.
Qed.

Lemma completes s t : (∃ ch, vok ch s) → clean s → th_pc (vd_thr s t) ≠ VOut → ∃ s', goes s s' ∧ th_pc (vd_thr s' t) = VOut.
Proof using device_live.
  assert (∀ s, (∃ ch, vok ch s) → clean s → (∃ b w sec id, th_pc (vd_thr s t) = VWait b w sec id) →
    ∃ s', goes s s' ∧ th_pc (vd_thr s' t) = VOut) as Hwaits.
  { clear s. intros s Hok Hcl Hw. destruct (settles s Hok Hcl) as (ch1 & s1 & G1 & Hok1 & _ & _ & Hm1 & Hfr1).
    exists s1. split; [done|]. destruct (Hm1 t) as [Hp|[_ ?]]; [exfalso|done]. destruct Hw as (b & w & sec & id & Hw). rewrite Hw in Hp.
    destruct (flight_chain _ _ _ _ _ _ _ Hok1 Hp) as (_ & Hi & Hr). apply (chain_not_free _ _ _ _ Hok1 Hi).
    rewrite Hfr1. by apply elem_of_upto. }
  intros Hok Hcl Hpc. destruct (th_pc (vd_thr s t)) as [|b w sec|b w sec i0] eqn:Ep; [done| |apply Hwaits; [done..|by exists b, w, sec, i0]].
  destruct (settles s Hok Hcl) as (ch1 & s1 & G1 & Hok1 & Hr1 & Hf1 & Hm1 & Hfr1).
  destruct (Hm1 t) as [Hp|[_ ?]]; [rewrite Ep in Hp|by exists s1].
  pose proof (ok_thr _ _ Hok1 t) as Ht. unfold thr_ok in Ht. rewrite Hp in Ht. destruct Ht as [Hc Hch].
  assert (th_chan (vd_thr s1 t) = None) as Hc0.
  { destruct Hc as [|Hc]; [done|]. pose proof (ok_wait _ _ Hok1 t Hc) as Hw. rewrite Hfr1 in Hw. unfold upto, NUM in Hw. rewrite length_seqZ in Hw. lia. }
  assert (frees (vd_free s1) = 0 :: 1 :: 2 :: [3; 4; 5; 6; 7]) as Ef by (by rewrite Hfr1).
  set (s2 := formatted s1 t b w sec 0 1 2).
  assert (vok (<[t := [0; 1; 2]]> ch1) s2) as Hok2.
  { eapply formatted_ok; try done. intros t' Ht'. eapply (ok_buf _ _ Hok1); [exact Ht'|by rewrite Hp]. }
  destruct (Hwaits s2) as (s3 & G3 & Hout); [by eexists| |by exists b, w, sec, 0; simpl; rewrite fn_lookup_insert|].
  { intros id Hid. change (used s2) with (used s1) in Hid. unfold in_flight in Hf1. apply app_eq_nil in Hf1 as [_ Hf1].
    apply app_eq_nil in Hf1 as [_ Hf1]. apply app_eq_nil in Hf1 as [_ Hf1]. rewrite Hf1 in Hid. by apply not_elem_of_nil in Hid. }
  exists s3. split; [|done]. eapply goes_trans; [exact G1|]. eapply goes_trans; [|exact G3].
  eapply goes_one; [apply (vs_resume device s1 t s2); [by rewrite Hp|done|]|by left].
  unfold rw_resume. erewrite bind_step by reflexivity. rewrite Hp, (acquires ch1) by done.
  rewrite (rw_try_formats (s1 <| vd_locked := true |>) t b w sec 0 1 2 [3; 4; 5; 6; 7]); [done| |done|exact Ef].
  by destruct (ok_arrays _ _ Hok1).
Qed.

(** C20. Nobody sleeps for ever in the driver. A process asleep on its buffer has a
    request that the device has been, or is about to be, notified of, that the
    device works on, or that the device is done with, the interrupt raised or
    about to be, or the handler about to look. A process asleep for descriptors
    has to wait, fewer than three being free, and another process holds some,
    whose return, in whatever step, wakes it. Descriptors are neither lost nor
    shared: with no request under way all of them are free. And however the
    processes, the handler and the device have got where they are, every process
    in the driver can still return, the handler being entered only when the
    device has raised its interrupt, unless the device has reported an error. *)
Theorem virtio_no_lost_wakeup sectors data tr s : (∀ x, zlen (sectors x) = 512) → (∀ b, zlen (data b) = BSIZE) →
  steps (vstep device) tr (driver_boot sectors data) s →
  (∀ t b, th_chan (vd_thr s t) = Some (ChBuf b) → ∃ w sec id, th_pc (vd_thr s t) = VWait b w sec id ∧ vb_disk (vd_buf s b) = 1 ∧
    (id ∈ avail s ∧ (dv_kick s = true ∨ notifying (vd_run s) = true) ∨ id ∈ dv_work s ∨
     id ∈ used s ∧ (dv_irq s = true ∨ dv_owe s = true ∨ handling (vd_run s) = true))) ∧
  (∀ t, th_chan (vd_thr s t) = Some ChFree → (length (frees (vd_free s)) < 3)%nat ∧
    ∃ t' b w sec id, t' ≠ t ∧ th_pc (vd_thr s t') = VWait b w sec id ∧
      ∀ e s', vstep device e s s' → th_pc (vd_thr s' t') = VOut → th_chan (vd_thr s' t) ≠ Some ChFree) ∧
  ((∀ t b w sec id, th_pc (vd_thr s t) ≠ VWait b w sec id) → frees (vd_free s) = upto NUM) ∧
  (clean s → ∀ t, th_pc (vd_thr s t) ≠ VOut → ∃ tr' s', steps prompt_step tr' s s' ∧ th_pc (vd_thr s' t) = VOut).
Proof using device_spec device_live.
  intros Hsec Hdat Hr. destruct (reach_served sectors data tr s Hsec Hdat Hr) as ((ch & Hok) & _).
  pose proof (ok_run _ _ Hok) as [R1 R2 R3 R4].
  assert (∀ i, 0 ≤ i < NUM → i ∉ frees (vd_free s) → ∃ t, i ∈ ch t) as Hbusy.
  { intros i Hi Hn. destruct (ok_free _ _ Hok i Hi) as [E|]; [|done]. exfalso. apply Hn, elem_of_frees. by rewrite E. }
  split; [|split; [|split]].
  - intros t b Hc. pose proof (ok_thr _ _ Hok t) as Ht. unfold thr_ok in Ht. destruct (th_pc (vd_thr s t)) as [|b' w sec|b' w sec id] eqn:Hpc.
    + destruct Ht as [E _]. by rewrite E in Hc.
    + destruct Ht as [[E|E] _]; by rewrite E in Hc.
    + destruct (flight_chain _ _ _ _ _ _ _ Hok Hpc) as (_ & Hid & _).
      rewrite Hc in Ht. destruct Ht as (i1 & i2 & st & _ & _ & _ & _ & [|[[= ->] Hd]] & Hst); [done|].
      exists w, sec, id. split; [done|]. split; [done|]. destruct Hst as [(_ & Hfl & _)|(Hd' & _)]; [|by rewrite Hd' in Hd].
      unfold in_flight in Hfl. rewrite !elem_of_app in Hfl. destruct Hfl as [Ha|[Ha|[Ha|Hu]]].
      * exfalso. assert (∃ t' b2 w' sec', publishing (vd_run s) = Some (t', b2, w', sec', id)) as (t' & b2 & w' & sec' & Hp).
        { destruct (vd_run s); simpl in Ha; try (by apply not_elem_of_nil in Ha); apply list_elem_of_singleton in Ha as ->; by repeat eexists. }
        destruct (R1 _ _ _ _ _ Hp) as [Et' _]. destruct (flight_chain ch s t' b2 w' sec' id Hok) as (_ & Hid' & _); [by rewrite Et'|].
        rewrite (ok_disj _ _ Hok t t' id Hid Hid'), Et' in Hc. done.
      * left. split; [done|]. apply R3. intros E. rewrite E in Ha. by apply not_elem_of_nil in Ha.
      * by right; left.
      * right; right. split; [done|]. apply R4. intros E. rewrite E in Hu. by apply not_elem_of_nil in Hu.
  - intros t Hc. pose proof (ok_wait _ _ Hok t Hc) as Hw. split; [done|].
    assert (∃ i, 0 ≤ i < NUM ∧ i ∉ frees (vd_free s)) as (i & Hi & Hn).
    { destruct (decide (0 ∈ frees (vd_free s))), (decide (1 ∈ frees (vd_free s))), (decide (2 ∈ frees (vd_free s)));
        try (by eexists; split; [|eassumption]; unfold NUM; lia).
      exfalso. assert (length [0; 1; 2]%Z ≤ length (frees (vd_free s)))%nat; [|simpl in *; lia].
      apply submseteq_length, NoDup_submseteq; [by apply (NoDup_seqZ 0 3)|]. intros x. set_unfold. naive_solver. }
    destruct (Hbusy i Hi Hn) as (t' & Hi'). destruct (chain_waits _ _ _ _ Hok Hi') as (b & w & sec & id & Hpc). exists t', b, w, sec, id.
    split; [|split; [done|]].
    + intros ->. pose proof (ok_thr _ _ Hok t) as Ht. unfold thr_ok in Ht. rewrite Hpc, Hc in Ht.
      by destruct Ht as (? & ? & ? & _ & _ & _ & _ & [Hx|[Hx _]] & _).
    + intros e s' Hs Hout. by eapply return_wakes; [..|exists b, w, sec, id|].
  - intros Hno. unfold frees. apply filter_id. intros i Hi%elem_of_upto. destruct (ok_free _ _ Hok i Hi) as [E|(t & Ht)]; [by rewrite E|].
    destruct (chain_waits _ _ _ _ Hok Ht) as (b & w & sec & id & Hpc). by apply Hno in Hpc.
  - intros Hcl t Hpc. destruct (completes s t) as (s' & (tr' & G) & Hout); [by exists ch|done..|]. by exists tr', s'.
Qed.
End theorems.

(** ** A device that does one thing at a time *)

Definition one_at_a_time s : option vst :=
  match dv_work s with
  | [] =>
      if dv_owe s then Some (s <| dv_irq := true |> <| dv_owe := false |>) else
      if negb (dv_kick s) then None else
      if dv_seen s =? av_idx s then Some (s <| dv_kick := false |>) else
      id ← znth (av_ring s) (dv_seen s mod NUM);
      Some (s <| dv_seen := u16 (dv_seen s + 1) |> <| dv_work ::= λ l, id :: l |>)
  | id :: _ =>
      '(b, w, sec, j) ← request_at s id;
      i ← znth (vd_info s) j;
      Some ((if (w : bool) then s <| dv_sector ::= λ d, put_block d sec (vb_data (vd_buf s b)) |>
             else s <| vd_buf ::= λ u, <[b := (u b) <| vb_data := sector_block (dv_sector s) sec |>]> u |>)
       <| vd_info ::= λ l, zset l j (i <| in_status := 0 |>) |>
       <| us_ring ::= λ l, zset l (us_idx s mod NUM) id |> <| us_idx := u16 (us_idx s + 1) |>
       <| dv_owe := true |> <| dv_work ::= filter (λ x, x ≠ id) |>)
  end.
Definition simple_device s s' : Prop := one_at_a_time s = Some s'.

Lemma simple_device_spec s s' : simple_device s s' → dev_fetch s s' ∨ dev_idle s s' ∨ (∃ id st, dev_complete id st s s') ∨ dev_raise s s'.
Proof.
  unfold simple_device, one_at_a_time. destruct (dv_work s) as [|id l] eqn:Ew.
  - destruct (dv_owe s) eqn:Ho; [intros [= <-]; by right; right; right|]. destruct (dv_kick s) eqn:Hk; simpl; [|done].
    destruct (Z.eqb_spec (dv_seen s) (av_idx s)); [intros [= <-]; by right; left|].
    intros (id & E & [= <-])%bind_Some. left. split; [done|]. split; [done|]. by exists id.
  - intros ([[[b w] sec] j] & Er & (i & Ei & [= <-])%bind_Some)%bind_Some. right; right; left. exists id, 0. split; [rewrite Ew; by left|].
    exists b, w, sec, j. split; [done|]. exists i. split; [done|]. by destruct w.
Qed.
Lemma simple_device_live s : dev_busy s → dev_readable s →
  ∃ s', simple_device s s' ∧ (dev_fetch s s' ∨ (∃ id, dev_complete id 0 s s') ∨ dev_raise s s').
Proof.
  intros Hb [Hr Hw]. unfold simple_device, one_at_a_time. destruct (dv_work s) as [|id l] eqn:Ew.
  - destruct (dv_owe s) eqn:Ho; [eexists; split; [done|by right; right]|].
    destruct Hb as [[Hk Hne]|[|Ho']]; [|done|by rewrite Ho in Ho']. rewrite Hk. simpl. rewrite (proj2 (Z.eqb_neq _ _) Hne).
    destruct (znth_lt (av_ring s) (dv_seen s mod NUM)) as [id Ei]; [rewrite Hr; by apply Z.mod_pos_bound|]. rewrite Ei. simpl.
    eexists. split; [done|]. left. split; [done|]. split; [done|]. by exists id.
  - destruct (Hw id ltac:(by left)) as (b & w & sec & j & Er & i & Ei). rewrite Er. simpl. rewrite Ei. simpl. eexists. split; [done|].
    right; left. exists id. split; [rewrite Ew; by left|]. exists b, w, sec, j. split; [done|]. exists i. split; [done|]. by destruct w.
Qed.

Inductive vcmd := CCall (t b : nat) (w : bool) | CResume (t : nat) | CPiece | CIntr | CDevice.
Definition vdo (c : vcmd) s : option (option vev * vst) :=
  match c with
  | CCall t b w =>
      match th_pc (vd_thr s t), virtio_disk_rw t b w s with
      | VOut, Ok (_, s') => Some (Some (ECall t b w (u32 (vb_blockno (vd_buf s b) * (BSIZE / 512))) (vb_data (vd_buf s b))), s')
      | _, _ => None
      end
  | CResume t =>
      match th_pc (vd_thr s t), th_chan (vd_thr s t) with
      | VOut, _ => None
      | _, Some _ => None
      | _, None => match rw_resume t s with Ok (_, s') => Some (ret_of t s s', s') | _ => None end
      end
  | CPiece => if vd_locked s then match run_piece s with Ok (_, s') => Some (piece_ret (vd_run s) s s', s') | _ => None end else None
  | CIntr => match virtio_disk_intr s with Ok (_, s') => Some (None, s') | _ => None end
  | CDevice => s' ← one_at_a_time s; Some (None, s')
  end.
Fixpoint vrun (l : list vcmd) s : option (list vev * vst) :=
  match l with
  | [] => Some ([], s)
  | c :: l => '(e, s1) ← vdo c s; '(tr, s2) ← vrun l s1; Some (option_list e ++ tr, s2)
  end.

Definition fresh_call (c : vcmd) s : Prop :=
  match c with CCall _ b _ => ∀ t, buf_of (th_pc (vd_thr s t)) ≠ Some b | _ => True end.
Lemma vdo_step c s e s' : fresh_call c s → vdo c s = Some (e, s') → vstep simple_device e s s'.
Proof.
  destruct c as [t b w|t| | |]; simpl; intros Hf.
  - destruct (th_pc (vd_thr s t)) eqn:Hpc; [|done..]. destruct (virtio_disk_rw t b w s) as [[[] s1]| | |] eqn:E; [|done..].
    intros [= <- <-]. by apply vs_call.
  - destruct (th_pc (vd_thr s t)) eqn:Hpc; [done|..]; (destruct (th_chan (vd_thr s t)) eqn:Hc; [done|]);
      (destruct (rw_resume t s) as [[[] s2]| | |] eqn:E; [|done..]); intros [= <- <-]; (eapply vs_resume; [by rewrite Hpc|done|exact E]).
  - destruct (vd_locked s) eqn:Hlk; [|done]. destruct (run_piece s) as [[[] s1]| | |] eqn:E; [|done..]. intros [= <- <-]. by apply vs_piece.
  - destruct (virtio_disk_intr s) as [[[] s2]| | |] eqn:E; [|done..]. intros [= <- <-]. by apply vs_intr.
  - intros (s1 & E & [= <- <-])%bind_Some. by apply (vs_device simple_device).
Qed.
Lemma vrun_steps l s tr s' : Forall (λ c, if c is CCall _ _ _ then False else True) l → vrun l s = Some (tr, s') →
  steps (vstep simple_device) tr s s'.
Proof.
  revert s tr. induction l as [|c l IH]; intros s tr Hl; simpl; [intros [= <- ->]; constructor|]. apply Forall_cons in Hl as [Hc Hl].
  intros ([e s1] & E & ([tr1 s2] & E2 & [= <- <-])%bind_Some)%bind_Some.
  eapply steps_l; [apply (vdo_step c s e s1); [by destruct c|done]|by apply IH].
Qed.

(** Process 0 reads block 0 into buffer 3, processes 1 and 2 want buffers 4 and
    5; there are descriptors for two of them. *)
Definition count_sectors (x : Z) : list Z := zrepl 512 (x mod 256 + 1).
Definition blank (b : nat) : list Z := zrepl BSIZE 0.
Definition vboot : vst := driver_boot count_sectors blank.
Definition issue (t b : nat) : list vcmd := [CCall t b false; CPiece; CPiece; CPiece].
Definition three_readers : list vcmd := issue 0 3 ++ issue 1 4 ++ [CCall 2 5 false].
Definition first_served : list vcmd := [CDevice; CDevice; CDevice; CIntr; CPiece; CPiece; CPiece; CPiece; CResume 0].

Lemma vrun_app l1 l2 s tr s' : vrun (l1 ++ l2) s = Some (tr, s') →
  ∃ tr1 s1 tr2, vrun l1 s = Some (tr1, s1) ∧ vrun l2 s1 = Some (tr2, s') ∧ tr = tr1 ++ tr2.
Proof.
  revert s tr. induction l1 as [|c l1 IH]; intros s tr; simpl; [intros E; by exists [], s, tr|].
  intros ([e s1] & -> & ([tr1 s2] & E2 & [= <- <-])%bind_Some)%bind_Some.
  destruct (IH _ _ E2) as (tr2 & s3 & tr3 & E3 & E4 & ->). exists (option_list e ++ tr2), s3, tr3. simpl. rewrite E3. simpl. by rewrite app_assoc.
Qed.

(** Pieces leave every process where it is. *)
Lemma pieces_steps n s tr s' : (∃ ch, vok ch s) → vrun (repeat CPiece n) s = Some (tr, s') →
  steps (vstep simple_device) tr s s' ∧ (∃ ch, vok ch s') ∧ ∀ t, th_pc (vd_thr s' t) = th_pc (vd_thr s t).
Proof.
  revert s tr. induction n as [|n IH]; intros s tr Hok; simpl; [intros [= <- <-]; split; [constructor|done]|].
  intros ([e s1] & E & ([tr1 s2] & E2 & [= <- <-])%bind_Some)%bind_Some.
  pose proof (vdo_step CPiece s e s1 I E) as Hs. destruct (vstep_served _ simple_device_spec _ _ _ Hok Hs) as [Hok1 _].
  destruct (IH s1 tr1 Hok1 E2) as (H1 & H2 & H3). split; [by eapply steps_l|]. split; [done|]. intros t. rewrite H3.
  destruct Hok as (ch & Hok). simpl in E. destruct (vd_locked s) eqn:Hlk; [|done].
  destruct (piece_served ch s Hok Hlk) as [(_ & s3 & E3 & _ & _ & Hp & _)|(_ & E3)]; rewrite E3 in E; [|done]. by injection E as _ <-.
Qed.
Lemma issue_steps n s t b tr s' : (∃ ch, vok ch s) → (∀ t', buf_of (th_pc (vd_thr s t')) ≠ Some b) →
  vrun (CCall t b false :: repeat CPiece n) s = Some (tr, s') →
  steps (vstep simple_device) tr s s' ∧ (∃ ch, vok ch s') ∧ ∀ t', t' ≠ t → th_pc (vd_thr s' t') = th_pc (vd_thr s t').
Proof.
  intros Hok Hb ([e s1] & E & ([tr1 s2] & E2 & [= <- <-])%bind_Some)%bind_Some.
  pose proof (vdo_step (CCall t b false) s e s1 Hb E) as Hs. destruct (vstep_served _ simple_device_spec _ _ _ Hok Hs) as [Hok1 _].
  destruct (pieces_steps n s1 tr1 s2 Hok1 E2) as (H1 & H2 & H3). split; [by eapply steps_l|]. split; [done|]. intros t' Hne. rewrite H3.
  destruct Hok as (ch & Hok). simpl in E. destruct (th_pc (vd_thr s t)) eqn:Hpc; [|done..].
  destruct (virtio_disk_rw t b false s) as [[[] s3]| | |] eqn:Ec; [|done..]. injection E as _ <-.
  destruct (call_served ch s t b false Hok (free_run _ _ Hok (call_free _ _ _ _ _ Ec)) Hpc Hb) as (s4 & E4 & _ & Hot).
  rewrite Ec in E4. injection E4 as ->. by apply Hot.
Qed.

Lemma three_readers_steps tr s : vrun three_readers vboot = Some (tr, s) → steps (vstep simple_device) tr vboot s.
Proof.
  intros (tr1 & s1 & tr2 & E1 & (tr3 & s2 & tr4 & E2 & E3 & ->)%vrun_app & ->)%vrun_app.
  assert (∃ ch, vok ch vboot) as H0 by (eexists; apply boot_ok; intros; unfold count_sectors, blank; by rewrite zlen_zrepl).
  destruct (issue_steps 3 vboot 0 3 tr1 s1 H0) as (S1 & H1 & P1); [done|exact E1|].
  assert (th_pc (vd_thr s1 0%nat) = VWait 3 false 0 0 ∧ ∀ t, t ≠ 0%nat → th_pc (vd_thr s1 t) = VOut) as [Q0 Q1].
  { split; [|intros t Ht; by rewrite P1]. assert (match vrun (issue 0 3) vboot with Some (_, s) => th_pc (vd_thr s 0%nat) = VWait 3 false 0 0 | None => False end)
      as H by (vm_compute; reflexivity). by rewrite E1 in H. }
  destruct (issue_steps 3 s1 1 4 tr3 s2 H1) as (S2 & H2 & P2); [|exact E2|].
  { intros t. destruct (decide (t = 0%nat)) as [->|]; [by rewrite Q0|by rewrite Q1]. }
  assert (th_pc (vd_thr s2 1%nat) = VWait 4 false 0 3) as R1.
  { assert (match vrun (issue 0 3) vboot with
            | Some (_, s) => match vrun (issue 1 4) s with Some (_, s) => th_pc (vd_thr s 1%nat) = VWait 4 false 0 3 | None => False end
            | None => False end) as H by (vm_compute; reflexivity). rewrite E1 in H. by rewrite E2 in H. }
  destruct (issue_steps 0 s2 2 5 tr4 s H2) as (S3 & _ & _); [|exact E3|].
  { intros t. destruct (decide (t = 1%nat)) as [->|]; [by rewrite R1|]. rewrite P2 by done.
    destruct (decide (t = 0%nat)) as [->|]; [by rewrite Q0|by rewrite Q1]. }
  eapply steps_app; [exact S1|]. by eapply steps_app.
Qed.

Lemma first_served_runs : ∃ tr s tr' s', vrun three_readers vboot = Some (tr, s) ∧ vrun first_served s = Some (tr', s') ∧
  th_chan (vd_thr s 2%nat) = Some ChFree ∧ clean s ∧ th_pc (vd_thr s 2%nat) ≠ VOut ∧
  tr' = [ERet 0 3 false (zrepl 512 1 ++ zrepl 512 2)] ∧ th_chan (vd_thr s' 2%nat) = None.
Proof.
  assert (match vrun three_readers vboot with
          | Some (tr, s) => match vrun first_served s with
            | Some (tr', s') => th_chan (vd_thr s 2%nat) = Some ChFree ∧ used s = [] ∧ th_pc (vd_thr s 2%nat) = VTry 5 false 0 ∧
                tr' = [ERet 0 3 false (zrepl 512 1 ++ zrepl 512 2)] ∧ th_chan (vd_thr s' 2%nat) = None
            | None => False end
          | None => False end) as H by (vm_compute; repeat split).
  destruct (vrun three_readers vboot) as [[tr s]|]; [|done]. destruct (vrun first_served s) as [[tr' s']|] eqn:E; [|done].
  destruct H as (H1 & H2 & H3 & H4 & H5). exists tr, s, tr', s'. split; [done|]. split; [done|]. split; [done|].
  split; [intros id Hid; rewrite H2 in Hid; by apply not_elem_of_nil in Hid|]. split; [by rewrite H3|done].
Qed.
Lemma count_sectors_len x : zlen (count_sectors x) = 512.
Proof. by apply zlen_zrepl. Qed.
Lemma blank_len b : zlen (blank b) = BSIZE.
Proof. by apply zlen_zrepl. Qed.

Lemma virtio_serves_requests_witness :
  ∃ tr a, steps astep (tr ++ [ERet 0 3 false (zrepl 512 1 ++ zrepl 512 2)]) (boot_disk count_sectors blank) a.
Proof.
  destruct first_served_runs as (tr & s & tr' & s' & E & E' & _ & _ & _ & -> & _).
  destruct (virtio_serves_requests simple_device simple_device_spec count_sectors blank (tr ++ [ERet 0 3 false (zrepl 512 1 ++ zrepl 512 2)]) s') as ((a & Ha & _) & _).
  - apply count_sectors_len.
  - apply blank_len.
  - eapply steps_app; [by apply three_readers_steps|]. apply (vrun_steps first_served); [by repeat constructor|done].
  - by exists tr, a.
Defined.

Lemma virtio_no_lost_wakeup_witness :
  ∃ tr s t' tr' s', vrun three_readers vboot = Some (tr, s) ∧ th_chan (vd_thr s 2%nat) = Some ChFree ∧
    (length (frees (vd_free s)) < 3)%nat ∧ t' ≠ 2%nat ∧
    steps (prompt_step simple_device) tr' s s' ∧ th_pc (vd_thr s' 2%nat) = VOut.
Proof.
  destruct first_served_runs as (tr & s & _ & _ & E & _ & Hc & Hcl & Hpc & _ & _).
  destruct (virtio_no_lost_wakeup simple_device simple_device_spec simple_device_live count_sectors blank tr s) as (_ & Hw & _ & Hg).
  - apply count_sectors_len.
  - apply blank_len.
  - by apply three_readers_steps.
  - destruct (Hw 2%nat Hc) as (Hl & t' & _ & _ & _ & _ & Hne & _). destruct (Hg Hcl 2%nat Hpc) as (tr' & s' & Hs & Hout).
    by exists tr, s, t', tr', s'.
Defined.
