(* ===== verification/Bio.v ===== *)
(** * The buffer cache

    Models [kernel/bio.c] and the sleeplocks of [kernel/sleeplock.c] its
    buffers carry: [binit], [bget], [bread], [bwrite], [brelse], [bpin] and
    [bunpin], with the buffers as an array and the LRU list as the list of
    their indices, most recent first. The transfer itself is the effect of a
    completed [virtio_disk_rw]. The section [store] proves the promise of the
    [BlockStore] interface for it, so that every theorem about swapping holds
    of swapping through this cache. *)

From stdpp Require Import base numbers list gmap strings.
From S2P Require Import Prelude Machine KState.
Open Scope Z_scope.
Open Scope kernel_scope.


(** [struct sleeplock], less the spinlock inside it and the debugging name. *)
Record sleeplock := MkSleep { sl_locked : Z; sl_pid : Z }.
#[global] Instance sleeplock_eta : Eta sleeplock := λ l, MkSleep (sl_locked l) (sl_pid l).
#[global] Instance upd_sl_locked : Upd sl_locked := ltac:(mk_upd).
#[global] Instance upd_sl_pid : Upd sl_pid := ltac:(mk_upd).

(** [struct buf]; the links are the list [lru] below. *)
Record buf := MkBuf {
  b_valid : Z;
  b_dev : Z;
  b_blockno : Z;
  b_lock : sleeplock;
  b_refcnt : Z;
  b_data : list Z;
}.
#[global] Instance buf_eta : Eta buf := λ b,
  MkBuf (b_valid b) (b_dev b) (b_blockno b) (b_lock b) (b_refcnt b) (b_data b).
#[global] Instance upd_b_valid : Upd b_valid := ltac:(mk_upd).
#[global] Instance upd_b_dev : Upd b_dev := ltac:(mk_upd).
#[global] Instance upd_b_blockno : Upd b_blockno := ltac:(mk_upd).
#[global] Instance upd_b_lock : Upd b_lock := ltac:(mk_upd).
#[global] Instance upd_b_refcnt : Upd b_refcnt := ltac:(mk_upd).
#[global] Instance upd_b_data : Upd b_data := ltac:(mk_upd).

(** A buffer as the loader leaves it. *)
Definition buf0 : buf := MkBuf 0 0 0 (MkSleep 0 0) 0 (zrepl BSIZE 0).

(** [bcache], the disk behind it (blocks never written read as zeros) and the
    pid of the process that calls. [bc_locked] is [bcache.lock]. *)
Record bcache := MkBcache {
  bc_locked : bool;
  bc_buf : list buf;
  lru : list nat;
  bc_disk : gmap Z (list Z);
  bc_mypid : Z;
}.
#[global] Instance bcache_eta : Eta bcache := λ c,
  MkBcache (bc_locked c) (bc_buf c) (lru c) (bc_disk c) (bc_mypid c).
#[global] Instance upd_bc_locked : Upd bc_locked := ltac:(mk_upd).
#[global] Instance upd_bc_buf : Upd bc_buf := ltac:(mk_upd).
#[global] Instance upd_lru : Upd lru := ltac:(mk_upd).
#[global] Instance upd_bc_disk : Upd bc_disk := ltac:(mk_upd).
#[global] Instance upd_bc_mypid : Upd bc_mypid := ltac:(mk_upd).

Abbreviation C := (M bcache).

Definition disk_get (d : gmap Z (list Z)) (b : Z) : list Z := default (zrepl BSIZE 0) (d !! b).

Definition getb (i : nat) : C buf := l ← gets bc_buf; opt (l !! i).
Definition updb (i : nat) (f : buf → buf) : C unit := b ← getb i; updf bc_buf (λ l, <[i := f b]> l).

Definition acquire_bc : C unit :=
  l ← gets bc_locked; if (l : bool) then panic "acquire" else setf bc_locked true.
Definition release_bc : C unit :=
  l ← gets bc_locked; if (l : bool) then setf bc_locked false else panic "release".

(** ** Sleeplocks *)

(** A process that finds the lock taken sleeps until another one releases it;
    run on its own, it does not come back. *)
Definition acquiresleep (i : nat) : C unit :=
  b ← getb i; pid ← gets bc_mypid;
  if sl_locked (b_lock b) =? 0 then updb i (λ b, b <| b_lock := MkSleep 1 pid |>)
  else λ _, Diverge.
Definition releasesleep (i : nat) : C unit := updb i (λ b, b <| b_lock := MkSleep 0 0 |>).
Definition holdingsleep (i : nat) : C bool :=
  b ← getb i; pid ← gets bc_mypid;
  mret (negb (sl_locked (b_lock b) =? 0) && (sl_pid (b_lock b) =? pid)).

(** ** The transfer *)

(** What a completed [virtio_disk_rw(b, write)] has done: the block copied to
    or from the buffer. A block past the end of the disk makes the device
    report an error, on which [virtio_disk_intr] panics. That the driver serves
    a call this way is [VirtioProps.virtio_serves_requests]. *)
Definition transfer (i : nat) (write : bool) : C unit :=
  b ← getb i;
  if (0 <=? b_blockno b) && (b_blockno b <? FSSIZE) then
    if write then updf bc_disk (λ d, <[b_blockno b := b_data b]> d)
    else d ← gets bc_disk; updb i (λ b, b <| b_data := disk_get d (b_blockno b) |>)
  else panic "virtio_disk_intr status".

(** ** bio.c *)

(** Each buffer is put in front of the list. *)
Definition binit : C unit :=
  setf lru [] ;;
  for_each (λ i : nat, updb i (λ b, b <| b_lock := MkSleep 0 0 |>) ;; updf lru (λ l, i :: l))
    (seq 0 (Z.to_nat NBUF)).

(** [b->dev == dev && b->blockno == blockno] and [b->refcnt == 0], of buffer [i]. *)
Definition caches (bufs : list buf) (dev blockno : Z) (i : nat) : bool :=
  match bufs !! i with Some b => (b_dev b =? dev) && (b_blockno b =? blockno) | None => false end.
Definition unused (bufs : list buf) (i : nat) : bool :=
  match bufs !! i with Some b => b_refcnt b =? 0 | None => false end.

Definition bget (dev blockno : Z) : C nat :=
  acquire_bc ;;
  bufs ← gets bc_buf; l ← gets lru;
  match List.find (caches bufs dev blockno) l with
  | Some i =>
      updb i (λ b, b <| b_refcnt ::= λ n, u32 (n + 1) |>) ;;
      release_bc ;; acquiresleep i ;; mret i
  | None =>
      match List.find (unused bufs) (reverse l) with
      | Some i =>
          updb i (λ b, b <| b_dev := dev |> <| b_blockno := blockno |> <| b_valid := 0 |>
                         <| b_refcnt := 1 |>) ;;
          release_bc ;; acquiresleep i ;; mret i
      | None => panic "bget: no buffers"
      end
  end.

Definition bread (dev blockno : Z) : C nat :=
  i ← bget dev blockno;
  b ← getb i;
  when (b_valid b =? 0) (transfer i false ;; updb i (λ b, b <| b_valid := 1 |>)) ;;
  mret i.

Definition bwrite (i : nat) : C unit :=
  h ← holdingsleep i;
  if negb h then panic "bwrite" else transfer i true.

Definition brelse (i : nat) : C unit :=
  h ← holdingsleep i;
  if negb h then panic "brelse" else
  releasesleep i ;;
  acquire_bc ;;
  updb i (λ b, b <| b_refcnt ::= λ n, u32 (n - 1) |>) ;;
  b ← getb i;
  when (b_refcnt b =? 0) (updf lru (λ l, i :: filter (λ j, j ≠ i) l)) ;;
  release_bc.

Definition bpin (i : nat) : C unit :=
  acquire_bc ;; updb i (λ b, b <| b_refcnt ::= λ n, u32 (n + 1) |>) ;; release_bc.
Definition bunpin (i : nat) : C unit :=
  acquire_bc ;; updb i (λ b, b <| b_refcnt ::= λ n, u32 (n - 1) |>) ;; release_bc.

(** ** The uses the swap code makes of it *)

(** [bp = bread(ROOTDEV, b); memmove(dst, bp->data, BSIZE); brelse(bp);] *)
Definition bio_read (blockno : Z) : C (list Z) :=
  i ← bread ROOTDEV blockno; b ← getb i; brelse i ;; mret (b_data b).
(** [bp = bread(ROOTDEV, b); memmove(bp->data, src, BSIZE); bwrite(bp); brelse(bp);] *)
Definition bio_write (blockno : Z) (v : list Z) : C unit :=
  i ← bread ROOTDEV blockno;
  updb i (λ b, b <| b_data ::= splice 0 v |>) ;;
  bwrite i ;; brelse i.

(** Whether they sleep: a write does in [bwrite]; a read does unless the cache has
    the block, valid and unlocked. Without a buffer to use, [bget] panics first. *)
Definition bio_sleeps (write : bool) (blockno : Z) (c : bcache) : bool :=
  match List.find (caches (bc_buf c) ROOTDEV blockno) (lru c) with
  | Some i =>
      match bc_buf c !! i with
      | Some b => write || (b_valid b =? 0) || negb (sl_locked (b_lock b) =? 0)
      | None => false
      end
  | None => if List.find (unused (bc_buf c)) (reverse (lru c)) is Some _ then true else false
  end.

#[global] Instance bio_store : BlockStore bcache :=
  {| bs_read := bio_read; bs_write := bio_write; bs_sleeps := bio_sleeps |}.

(** ** The invariant *)

Definition buf_ids : list nat := seq 0 (Z.to_nat NBUF).

(** The buffer that caches block [b], wherever it is in the list. *)
Definition cached (c : bcache) (b : Z) : option nat := List.find (caches (bc_buf c) ROOTDEV b) buf_ids.

(** The contents of block [b] as the kernel sees them: those of its buffer once
    that is valid, else those on the disk. *)
Definition bc_view (c : bcache) (b : Z) : list Z :=
  match cached c b ≫= λ i, bc_buf c !! i with
  | Some bf => if b_valid bf =? 0 then disk_get (bc_disk c) b else b_data bf
  | None => disk_get (bc_disk c) b
  end.

Record buf_ok (bf : buf) : Prop := {
  bo_data : zlen (b_data bf) = BSIZE;
  bo_lock : b_lock bf = MkSleep 0 0;
  bo_refcnt : 0 ≤ b_refcnt bf < 2147483648;
  bo_dev : b_valid bf ≠ 0 → b_dev bf = ROOTDEV;
}.

(** Between operations: every buffer is unlocked, no block has two buffers, an
    unreferenced valid buffer agrees with the disk (so it can be recycled), and
    some buffer is unreferenced. *)
Record bc_ok (c : bcache) : Prop := {
  bc_unlocked : bc_locked c = false;
  bc_len : length (bc_buf c) = Z.to_nat NBUF;
  bc_lru : lru c ≡ₚ buf_ids;
  bc_bufs i bf : bc_buf c !! i = Some bf → buf_ok bf;
  bc_unique i j bf bf' : bc_buf c !! i = Some bf → bc_buf c !! j = Some bf' →
    b_dev bf = ROOTDEV → b_dev bf' = ROOTDEV → b_blockno bf = b_blockno bf' → i = j;
  bc_clean i bf : bc_buf c !! i = Some bf → b_valid bf ≠ 0 → b_refcnt bf = 0 →
    b_data bf = disk_get (bc_disk c) (b_blockno bf);
  bc_free : ∃ i bf, bc_buf c !! i = Some bf ∧ b_refcnt bf = 0;
  bc_blocks b d : bc_disk c !! b = Some d → zlen d = BSIZE;
}.

Lemma caches_true bufs dev b i :
  caches bufs dev b i = true ↔ ∃ bf, bufs !! i = Some bf ∧ b_dev bf = dev ∧ b_blockno bf = b.
Proof. unfold caches. destruct (bufs !! i); [rewrite andb_true_iff, !Z.eqb_eq|]; naive_solver. Qed.
Lemma unused_true bufs i : unused bufs i = true ↔ ∃ bf, bufs !! i = Some bf ∧ b_refcnt bf = 0.
Proof. unfold unused. destruct (bufs !! i); [rewrite Z.eqb_eq|]; naive_solver. Qed.

(** At most one element satisfies the test: the order of the scan is irrelevant. *)
Lemma find_perm (f : nat → bool) l l' : l ≡ₚ l' →
  (∀ i j, i ∈ l → j ∈ l → f i = true → f j = true → i = j) → List.find f l = List.find f l'.
Proof.
  intros Hp Hu. destruct (List.find f l) as [i|] eqn:E.
  - apply List.find_some in E as [Hi%list_elem_of_In Hfi].
    destruct (List.find f l') as [j|] eqn:E'.
    + apply List.find_some in E' as [Hj%list_elem_of_In Hfj]. f_equal. apply Hu; try done.
      by rewrite Hp.
    + rewrite Hp in Hi. apply list_elem_of_In in Hi. by rewrite (List.find_none _ _ E' i Hi) in Hfi.
  - destruct (List.find f l') as [j|] eqn:E'; [|done].
    apply List.find_some in E' as [Hj%list_elem_of_In Hfj]. rewrite <-Hp in Hj.
    apply list_elem_of_In in Hj. by rewrite (List.find_none _ _ E j Hj) in Hfj.
Qed.

Lemma buf_ids_lt c i : bc_ok c → i ∈ buf_ids ↔ is_Some (bc_buf c !! i).
Proof. intros H. unfold buf_ids. rewrite elem_of_seq, lookup_lt_is_Some, (bc_len _ H). lia. Qed.

Lemma cached_lru c b : bc_ok c → List.find (caches (bc_buf c) ROOTDEV b) (lru c) = cached c b.
Proof.
  intros H. apply find_perm; [apply H|]. intros i j _ _ (bf & Hi & ? & ?)%caches_true (bf' & Hj & ? & ?)%caches_true.
  eapply (bc_unique _ H); [exact Hi|exact Hj|congruence..].
Qed.

Lemma cached_Some c b i : bc_ok c →
  cached c b = Some i ↔ ∃ bf, bc_buf c !! i = Some bf ∧ b_dev bf = ROOTDEV ∧ b_blockno bf = b.
Proof.
  intros H. split.
  - intros [_ Hc]%List.find_some. by apply caches_true.
  - intros (bf & Hi & Hd & Hb). unfold cached.
    destruct (List.find _ buf_ids) as [j|] eqn:E.
    + apply List.find_some in E as [_ (bf' & Hj & ? & ?)%caches_true]. f_equal.
      eapply (bc_unique _ H); [exact Hj|exact Hi|congruence..].
    + exfalso. assert (caches (bc_buf c) ROOTDEV b i = true) as Hc by (apply caches_true; eauto).
      rewrite (List.find_none _ _ E i) in Hc; [done|]. apply list_elem_of_In.
      rewrite (buf_ids_lt c) by done. by eexists.
Qed.

Lemma bc_view_cached c b i bf : bc_ok c → bc_buf c !! i = Some bf → b_dev bf = ROOTDEV →
  b_blockno bf = b → b_valid bf ≠ 0 → bc_view c b = b_data bf.
Proof.
  intros H Hi Hd Hb Hv. unfold bc_view. assert (cached c b = Some i) as -> by (apply cached_Some; eauto).
  simpl. rewrite Hi. by destruct (Z.eqb_spec (b_valid bf) 0).
Qed.

Lemma disk_get_len c b : bc_ok c → zlen (disk_get (bc_disk c) b) = BSIZE.
Proof.
  intros H. unfold disk_get. destruct (bc_disk c !! b) eqn:E; simpl; [by eapply bc_blocks|].
  by apply zlen_zrepl.
Qed.

Lemma bc_view_len c b : bc_ok c → zlen (bc_view c b) = BSIZE.
Proof.
  intros H. unfold bc_view. destruct (cached c b) as [i|]; simpl; [|by apply disk_get_len].
  destruct (bc_buf c !! i) as [bf|] eqn:E; [|by apply disk_get_len].
  destruct (_ =? _); [by apply disk_get_len|]. by apply (bc_bufs _ H) in E as [].
Qed.

(** ** One use of a block *)

Section use.
Implicit Types c : bcache.

(** [bget] gives buffer [i], which was [o]: the one of the block, or, when
    there is none, an unreferenced one. *)
Definition takes c (b : Z) (i : nat) (o : buf) : Prop :=
  bc_buf c !! i = Some o ∧
  ((b_dev o = ROOTDEV ∧ b_blockno o = b) ∨ (b_refcnt o = 0 ∧ cached c b = None)).

(** Buffer [i] taken for block [b], with the data and the reference count given. *)
Definition buf_for (v b : Z) (lk : sleeplock) (n : Z) (data : list Z) : buf :=
  MkBuf v ROOTDEV b lk n data.

Lemma updb_ok c i f bf : bc_buf c !! i = Some bf →
  updb i f c = Ok (tt, c <| bc_buf := <[i := f bf]> (bc_buf c) |>).
Proof. intros H. unfold updb, getb. mred. by rewrite H. Qed.
Lemma getb_ok c i bf : bc_buf c !! i = Some bf → getb i c = Ok (bf, c).
Proof. intros H. unfold getb. mred. by rewrite H. Qed.

Lemma lookup_set c i bf bf' : bc_buf c !! i = Some bf' → <[i := bf]> (bc_buf c) !! i = Some bf.
Proof. intros H. apply list_lookup_insert_eq. by eapply lookup_lt_Some. Qed.

Lemma unused_found c : bc_ok c → ∃ i, List.find (unused (bc_buf c)) (reverse (lru c)) = Some i.
Proof.
  intros H. destruct (List.find _ _) eqn:E; [by eauto|]. exfalso.
  destruct (bc_free _ H) as (i & bf & Hi & Hr).
  assert (unused (bc_buf c) i = true) as Hu by (apply unused_true; eauto).
  rewrite (List.find_none _ _ E i) in Hu; [done|]. apply list_elem_of_In.
  rewrite reverse_Permutation, (bc_lru _ H), (buf_ids_lt c) by done. by eexists.
Qed.

Lemma bget_ok c b : bc_ok c →
  ∃ i o v data, takes c b i o ∧
    bget ROOTDEV b c = Ok (i, c <| bc_buf := <[i := buf_for v b (MkSleep 1 (bc_mypid c)) (b_refcnt o + 1) data]> (bc_buf c) |>) ∧
    (if v =? 0 then bc_view c b = disk_get (bc_disk c) b else data = bc_view c b).
Proof.
  intros H. pose proof (bc_unlocked _ H) as Hul. unfold bget, acquire_bc.
  erewrite bind_step by (mred; rewrite Hul; done).
  erewrite bind_step by done. erewrite bind_step by done. simpl. rewrite cached_lru by done.
  destruct (cached c b) as [i|] eqn:Ec.
  - pose proof Ec as (bf & Hi & Hd & Hb)%cached_Some; [|done].
    exists i, bf, (b_valid bf), (b_data bf). pose proof (bc_bufs _ H _ _ Hi) as [Hlen Hlk Hrc _].
    split_and!; [split; [done|by left]| |].
    + erewrite bind_step by (by apply updb_ok). erewrite bind_step by done.
      erewrite bind_step; [done|]. unfold acquiresleep.
      erewrite bind_step by (eapply getb_ok; by eapply lookup_set).
      erewrite bind_step by done. simpl. rewrite Hlk. simpl.
      erewrite updb_ok by (by eapply lookup_set). simpl. rewrite list_insert_insert_eq.
      destruct bf, c; simpl in *; subst. unfold upd, upd_b_refcnt, upd_b_lock. simpl.
      by rewrite wrap_id by lia.
    + unfold bc_view. rewrite Ec. simpl. rewrite Hi. by destruct (_ =? _).
  - destruct (unused_found c H) as [i Ei]. rewrite Ei.
    apply List.find_some in Ei as [_ (bf & Hi & Hr)%unused_true].
    pose proof (bc_bufs _ H _ _ Hi) as [Hlen Hlk Hrc _].
    exists i, bf, 0, (b_data bf). split_and!; [split; [done|by right]| |].
    + erewrite bind_step by (by apply updb_ok). erewrite bind_step by done.
      erewrite bind_step; [done|]. unfold acquiresleep.
      erewrite bind_step by (eapply getb_ok; by eapply lookup_set).
      erewrite bind_step by done. simpl. rewrite Hlk. simpl.
      erewrite updb_ok by (by eapply lookup_set). simpl. rewrite list_insert_insert_eq, Hr.
      destruct bf, c; simpl in *; subst; done.
    + simpl. unfold bc_view. by rewrite Ec.
Qed.

(** [bread] returns a locked, valid buffer with the block's contents. *)
Lemma bread_ok c b : bc_ok c → 0 ≤ b < FSSIZE →
  ∃ i o v, takes c b i o ∧ v ≠ 0 ∧
    bread ROOTDEV b c = Ok (i, c <| bc_buf := <[i := buf_for v b (MkSleep 1 (bc_mypid c)) (b_refcnt o + 1) (bc_view c b)]> (bc_buf c) |>).
Proof.
  intros H Hb. destruct (bget_ok c b H) as (i & o & v & data & Ht & E & Hd). pose proof Ht as [Hi _].
  unfold bread. erewrite bind_step by exact E.
  erewrite bind_step by (eapply getb_ok; by eapply lookup_set). simpl.
  destruct (Z.eqb_spec v 0) as [->|Hv].
  - exists i, o, 1. split_and!; [done|lia|]. simpl.
    erewrite bind_step; [done|]. unfold transfer.
    erewrite bind_step.
    2: { erewrite bind_step by (eapply getb_ok; by eapply lookup_set). simpl.
      assert ((0 <=? b) && (b <? FSSIZE) = true) as -> by lia.
      erewrite bind_step by done. erewrite updb_ok by (by eapply lookup_set). simpl.
      rewrite list_insert_insert_eq. done. }
    erewrite updb_ok by (by eapply lookup_set). simpl. rewrite list_insert_insert_eq, Hd. done.
  - subst data. exists i, o, v. split_and!; try done.
Qed.

(** [brelse] of it: unlocked, the reference dropped, the list possibly reordered. *)
Lemma brelse_ok c i o v b data :
  bc_locked c = false → bc_buf c !! i = Some (buf_for v b (MkSleep 1 (bc_mypid c)) (o + 1) data) →
  0 ≤ o < 2147483648 →
  brelse i c = Ok (tt, c <| bc_buf := <[i := buf_for v b (MkSleep 0 0) o data]> (bc_buf c) |>
                         <| lru := if o =? 0 then i :: filter (λ j, j ≠ i) (lru c) else lru c |>).
Proof.
  intros Hul Hi Ho. unfold brelse, holdingsleep.
  erewrite bind_step.
  2: { erewrite bind_step by (eapply getb_ok; exact Hi). erewrite bind_step by done. done. }
  simpl. rewrite Z.eqb_refl. simpl. unfold releasesleep, acquire_bc, release_bc.
  erewrite bind_step by (eapply updb_ok; exact Hi).
  erewrite bind_step by (mred; rewrite Hul; done).
  erewrite bind_step by (eapply updb_ok; by eapply lookup_set). simpl.
  rewrite list_insert_insert_eq.
  erewrite bind_step by (eapply getb_ok; by eapply lookup_set). simpl.
  replace (o + 1 - 1) with o by lia. rewrite wrap_id by lia.
  assert (∀ lk, buf_for v b lk (u32 (o + 1 - 1)) data = buf_for v b lk o data) as Hn
    by (intros; rewrite wrap_id by lia; f_equal; lia).
  unfold buf_for in *. destruct (o =? 0); mred; destruct c; simpl in *; subst;
    apply Ok_pair; 
    unfold upd, upd_b_refcnt, upd_b_lock, upd_bc_buf, upd_lru, upd_bc_locked; simpl; by rewrite Hn.
Qed.

Lemma lru_front l (i : nat) : i ∈ buf_ids → l ≡ₚ buf_ids → i :: filter (λ j, j ≠ i) l ≡ₚ buf_ids.
Proof.
  intros Hi Hp. assert (NoDup l) as Hn by (rewrite Hp; apply NoDup_seq).
  rewrite <-Hp in Hi. rewrite <-Hp. clear Hp. apply NoDup_Permutation; [|done|].
  - apply NoDup_cons. split; [rewrite list_elem_of_filter; naive_solver|]. by apply NoDup_filter.
  - intros j. rewrite elem_of_cons, list_elem_of_filter. destruct (decide (j = i)); naive_solver.
Qed.

(** Putting a valid buffer for block [b] where [takes] said. *)
Definition puts c c' (b : Z) (i : nat) (o : buf) (data : list Z) : Prop :=
  ∃ v, v ≠ 0 ∧ bc_locked c' = false ∧
    bc_buf c' = <[i := buf_for v b (MkSleep 0 0) (b_refcnt o) data]> (bc_buf c) ∧
    lru c' ≡ₚ buf_ids ∧
    ((bc_disk c' = bc_disk c ∧ data = bc_view c b) ∨ bc_disk c' = <[b := data]> (bc_disk c)).

Lemma takes_other c b i o j bf : bc_ok c → takes c b i o → j ≠ i → bc_buf c !! j = Some bf →
  b_dev bf = ROOTDEV → b_blockno bf ≠ b.
Proof.
  intros H [Hi Ht] Hne Hj Hd Hb. destruct Ht as [[Hd' Hb']|[_ Hc]].
  - apply Hne. eapply (bc_unique _ H); [exact Hj|exact Hi|congruence..].
  - assert (cached c b = Some j) by (apply cached_Some; eauto). congruence.
Qed.

Lemma takes_view c b i o : bc_ok c → takes c b i o → b_refcnt o = 0 →
  bc_view c b = disk_get (bc_disk c) b.
Proof.
  intros H [Hi Ht] Hr. unfold bc_view. destruct Ht as [[Hd Hb]|[_ ->]]; [|done].
  assert (cached c b = Some i) as -> by (apply cached_Some; eauto). simpl. rewrite Hi.
  destruct (Z.eqb_spec (b_valid o) 0); [done|]. subst b. by eapply (bc_clean _ H).
Qed.

Lemma disk_get_insert d b b' v : disk_get (<[b := v]> d) b' = if decide (b' = b) then v else disk_get d b'.
Proof.
  unfold disk_get. rewrite lookup_insert. destruct (decide (b = b')), (decide (b' = b)); simpl; congruence.
Qed.

Lemma puts_ok c c' b i o data :
  bc_ok c → takes c b i o → zlen data = BSIZE → puts c c' b i o data → bc_ok c'.
Proof.
  intros H Ht Hlen (v & Hv & Hul & Hbuf & Hlru & Hdisk). pose proof Ht as [Hi _].
  pose proof (bc_bufs _ H _ _ Hi) as [_ _ Hrc _].
  assert (∀ j bf, bc_buf c' !! j = Some bf →
    (j = i ∧ bf = buf_for v b (MkSleep 0 0) (b_refcnt o) data) ∨ (j ≠ i ∧ bc_buf c !! j = Some bf)) as Hcase.
  { intros j bf. rewrite Hbuf. intros [(-> & -> & ?)|[? ?]]%list_lookup_insert_Some; auto. }
  split; [done|by rewrite Hbuf, length_insert; apply H|done|..].
  - intros j bf [[-> ->]|[? Hj]]%Hcase; [by split|]. by eapply bc_bufs.
  - intros j k bf bf' [[-> ->]|[? Hj]]%Hcase [[-> ->]|[? Hk]]%Hcase; simpl; try done.
    + intros _ Hd E. by destruct (takes_other c b i o k bf').
    + intros Hd _ E. by destruct (takes_other c b i o j bf).
    + by apply (bc_unique _ H).
  - intros j bf [[-> ->]|[Hne Hj]]%Hcase; simpl.
    + intros _ Hr. destruct Hdisk as [[-> ->]| ->]; [by eapply takes_view|].
      by rewrite disk_get_insert, decide_True.
    + intros Hv' Hr. rewrite (bc_clean _ H j bf) by done.
      destruct Hdisk as [[-> _]| ->]; [done|]. rewrite disk_get_insert, decide_False; [done|].
      eapply takes_other; try done. by apply (bc_bufs _ H _ _ Hj).
  - destruct (bc_free _ H) as (j & bf & Hj & Hr). rewrite Hbuf. destruct (decide (j = i)) as [->|].
    + eexists i, _. split; [by eapply lookup_set|]. simpl. congruence.
    + exists j, bf. by rewrite list_lookup_insert_ne.
  - intros b' d Hd. destruct Hdisk as [[E _]|E]; rewrite E in Hd; [by eapply (bc_blocks _ H)|].
    apply lookup_insert_Some in Hd as [[_ <-]|[_ Hd]]; [done|by eapply (bc_blocks _ H)].
Qed.

Lemma puts_view c c' b i o data b' :
  bc_ok c → bc_ok c' → takes c b i o → puts c c' b i o data →
  bc_view c' b' = if decide (b' = b) then data else bc_view c b'.
Proof.
  intros H H' Ht (v & Hv & _ & Hbuf & _ & Hdisk). pose proof Ht as [Hi Ho].
  case_decide as Hb.
  { subst b'. eapply (bc_view_cached c' b i (buf_for v b (MkSleep 0 0) (b_refcnt o) data)); try done.
    rewrite Hbuf. by eapply lookup_set. }
  assert (disk_get (bc_disk c') b' = disk_get (bc_disk c) b') as Hd.
  { destruct Hdisk as [[-> _]| ->]; [done|]. by rewrite disk_get_insert, decide_False. }
  destruct (cached c b') as [j|] eqn:Ej.
  - pose proof Ej as (bf & Hj & Hdev & Hbn)%cached_Some; [|done].
    destruct (decide (j = i)) as [->|Hne].
    + rewrite Hi in Hj. injection Hj as ->. destruct Ho as [[_ ?]|[Hr _]]; [congruence|].
      assert (bc_view c b' = disk_get (bc_disk c) b') as ->.
      { eapply takes_view; [done| |exact Hr]. split; [done|by left]. }
      unfold bc_view. destruct (cached c' b') as [k|] eqn:Ek; [|done]. exfalso.
      apply cached_Some in Ek as (bf' & Hk & ? & ?); [|done]. rewrite Hbuf in Hk.
      apply list_lookup_insert_Some in Hk as [(_ & <- & _)|[Hki Hk]]; [by simpl in *|].
      apply Hki. symmetry. eapply (bc_unique _ H); [exact Hk|exact Hi|congruence..].
    + assert (cached c' b' = Some j) as Ej'.
      { apply cached_Some; [done|]. exists bf. by rewrite Hbuf, list_lookup_insert_ne. }
      unfold bc_view. rewrite Ej, Ej'. simpl. rewrite Hbuf, list_lookup_insert_ne, Hj by done.
      by rewrite Hd.
  - unfold bc_view. rewrite Ej. destruct (cached c' b') as [k|] eqn:Ek; [|done]. exfalso.
    apply cached_Some in Ek as (bf' & Hk & ? & ?); [|done]. rewrite Hbuf in Hk.
    apply list_lookup_insert_Some in Hk as [(_ & <- & _)|[Hki Hk]]; [by simpl in *|].
    assert (cached c b' = Some k) by (apply cached_Some; eauto). congruence.
Qed.

Lemma released_lru c (o : Z) i x : bc_ok c → bc_buf c !! i = Some x →
  (if o =? 0 then i :: filter (λ j, j ≠ i) (lru c) else lru c) ≡ₚ buf_ids.
Proof.
  intros H Hi. destruct (o =? 0); [|apply H]. apply lru_front; [|apply H].
  rewrite (buf_ids_lt c) by done. by eexists.
Qed.

Lemma bio_read_ok c b : bc_ok c → 0 ≤ b < FSSIZE →
  ∃ c', bio_read b c = Ok (bc_view c b, c') ∧ bc_ok c' ∧ ∀ b', bc_view c' b' = bc_view c b'.
Proof.
  intros H Hb. destruct (bread_ok c b H Hb) as (i & o & v & Ht & Hv & E). pose proof Ht as [Hi _].
  pose proof (bc_bufs _ H _ _ Hi) as [_ _ Hrc _].
  unfold bio_read. erewrite bind_step by exact E.
  erewrite bind_step by (eapply getb_ok; by eapply lookup_set).
  erewrite bind_step by (eapply (brelse_ok _ i (b_refcnt o) v b); [apply H|by eapply lookup_set|done]).
  eexists. split; [done|]. simpl. rewrite list_insert_insert_eq.
  match goal with |- bc_ok ?X ∧ _ => set (c' := X) end.
  assert (puts c c' b i o (bc_view c b)) as Hp
    by (exists v; split_and!; simpl; [done|apply H|done|by eapply released_lru|by left]).
  assert (bc_ok c') as H' by (eapply puts_ok; try done; by apply bc_view_len).
  split; [done|]. intros b'. rewrite (puts_view c c' b i o (bc_view c b)) by done.
  by case_decide; subst.
Qed.

Lemma bio_write_ok c b data : bc_ok c → 0 ≤ b < FSSIZE → zlen data = BSIZE →
  ∃ c', bio_write b data c = Ok (tt, c') ∧ bc_ok c' ∧
    ∀ b', bc_view c' b' = if decide (b' = b) then data else bc_view c b'.
Proof.
  intros H Hb Hlen. destruct (bread_ok c b H Hb) as (i & o & v & Ht & Hv & E). pose proof Ht as [Hi _].
  pose proof (bc_bufs _ H _ _ Hi) as [_ _ Hrc _].
  unfold bio_write. erewrite bind_step by exact E.
  erewrite bind_step by (eapply updb_ok; by eapply lookup_set). simpl.
  rewrite list_insert_insert_eq.
  replace (_ <| b_data ::= _ |>) with (buf_for v b (MkSleep 1 (bc_mypid c)) (b_refcnt o + 1) data)
    by (unfold upd, upd_b_data, buf_for; simpl; by rewrite splice_all by (by rewrite bc_view_len)).
  unfold bwrite, holdingsleep, transfer.
  erewrite bind_step.
  2: { erewrite bind_step; [|erewrite bind_step by (eapply getb_ok; by eapply lookup_set); done].
    simpl. rewrite Z.eqb_refl. simpl. erewrite bind_step by (eapply getb_ok; by eapply lookup_set). simpl.
    assert ((0 <=? b) && (b <? FSSIZE) = true) as -> by lia. done. }
  erewrite (brelse_ok _ i (b_refcnt o) v b); [|apply H|by eapply lookup_set|done].
  eexists. split; [done|]. simpl. rewrite list_insert_insert_eq.
  match goal with |- bc_ok ?X ∧ _ => set (c' := X) end.
  assert (puts c c' b i o data) as Hp
    by (exists v; split_and!; simpl; [done|apply H|done|by eapply released_lru|by right]).
  assert (bc_ok c') as H' by (by eapply puts_ok).
  split; [done|]. intros b'. by rewrite (puts_view c c' b i o data).
Qed.
End use.

(** The buffer cache keeps the promise the swap code relies on. *)
#[global] Instance bio_laws : BlockStoreLaws bcache := {|
  bs_inv := bc_ok;
  bs_view := bc_view;
  bs_view_len c b H _ := bc_view_len c b H;
  bs_read_ok := bio_read_ok;
  bs_write_ok := bio_write_ok;
|}.

(** The cache after [binit] on a fresh boot, in front of disk [d]. *)
Definition boot_bcache (d : gmap Z (list Z)) (pid : Z) : bcache :=
  MkBcache false (replicate (Z.to_nat NBUF) buf0) (reverse buf_ids) d pid.

Lemma binit_boot d pid l :
  binit (MkBcache false (replicate (Z.to_nat NBUF) buf0) l d pid) = Ok (tt, boot_bcache d pid).
Proof. reflexivity. Qed.

Lemma boot_bcache_ok d pid : (∀ b v, d !! b = Some v → zlen v = BSIZE) → bc_ok (boot_bcache d pid).
Proof.
  intros Hd.
  assert (∀ i bf, bc_buf (boot_bcache d pid) !! i = Some bf → bf = buf0) as Hb
    by (by intros i bf [-> _]%lookup_replicate).
  split; try done.
  - simpl. apply reverse_Permutation.
  - intros i bf ->%Hb. split; simpl; try done; lia.
  - by intros i j bf bf' ->%Hb ->%Hb.
  - by intros i bf ->%Hb.
  - by exists 0%nat, buf0.
Qed.

(** ** Refinement: the cache is invisible *)

(** A client of the block device, and what it sees of a plain array of blocks. *)
Inductive blk_op := BRead (b : Z) | BWrite (b : Z) (v : list Z).

Definition op_ok (o : blk_op) : Prop :=
  match o with
  | BRead b => 0 ≤ b < FSSIZE
  | BWrite b v => 0 ≤ b < FSSIZE ∧ zlen v = BSIZE
  end.

(** The results of the reads, through the cache and on the array. *)
Fixpoint run_cached (ops : list blk_op) : C (list (list Z)) :=
  match ops with
  | [] => mret []
  | BRead b :: ops => v ← bio_read b; vs ← run_cached ops; mret (v :: vs)
  | BWrite b v :: ops => bio_write b v ;; run_cached ops
  end.
Fixpoint run_array (ops : list blk_op) (d : Z → list Z) : list (list Z) * (Z → list Z) :=
  match ops with
  | [] => ([], d)
  | BRead b :: ops => let '(vs, d') := run_array ops d in (d b :: vs, d')
  | BWrite b v :: ops => run_array ops (λ b', if decide (b' = b) then v else d b')
  end.

Lemma run_array_ext ops d d' : (∀ b, d b = d' b) →
  (run_array ops d).1 = (run_array ops d').1 ∧ ∀ b, (run_array ops d).2 b = (run_array ops d').2 b.
Proof.
  revert d d'. induction ops as [|[b|b v] ops IH]; intros d d' Hd; simpl; [done| |].
  - destruct (IH d d' Hd) as [E1 E2]. destruct (run_array ops d), (run_array ops d'). simpl in *.
    by rewrite Hd, E1.
  - apply IH. intros b'. by rewrite Hd.
Qed.

(** C9. The buffer cache refines a plain array of blocks: any sequence of reads
    and writes of whole blocks through it (cached, recycled or pinned buffers,
    30 of them in front of the whole disk) returns without panic exactly what
    the same sequence returns on the array, and ends in a cache that stands for
    the array's final contents. *)
Theorem bcache_refines_array ops c :
  bc_ok c → Forall op_ok ops →
  ∃ c', run_cached ops c = Ok ((run_array ops (bc_view c)).1, c') ∧ bc_ok c' ∧
    ∀ b, bc_view c' b = (run_array ops (bc_view c)).2 b.
Proof.
  intros H Hops. revert c H. induction Hops as [|o ops Ho _ IH]; intros c H; [by exists c|].
  destruct o as [b|b v]; simpl in Ho |- *.
  - destruct (bio_read_ok c b H Ho) as (c1 & E1 & H1 & Hv1). destruct (IH c1 H1) as (c2 & E2 & H2 & Hv2).
    destruct (run_array_ext ops (bc_view c1) (bc_view c) Hv1) as [Er Ed].
    exists c2. erewrite bind_step by exact E1. erewrite bind_step by exact E2.
    rewrite Er. destruct (run_array ops (bc_view c)) as [vs d']. simpl in *. split_and!; [done..|].
    intros b'. by rewrite Hv2, Ed.
  - destruct Ho as [Hb Hlen]. destruct (bio_write_ok c b v H Hb Hlen) as (c1 & E1 & H1 & Hv1).
    destruct (IH c1 H1) as (c2 & E2 & H2 & Hv2).
    destruct (run_array_ext ops (bc_view c1) _ Hv1) as [Er Ed].
    exists c2. erewrite bind_step by exact E1. rewrite E2, Er. split_and!; [done..|].
    intros b'. by rewrite Hv2, Ed.
Qed.

(** A block is written, more blocks than there are buffers are read, and the
    block is read back. *)
Lemma bcache_refines_array_witness :
  ∃ c', run_cached (BWrite 3 (zrepl BSIZE 7) :: (BRead <$> seqZ 100 40) ++ [BRead 3]) (boot_bcache ∅ 1)
        = Ok (replicate 40 (zrepl BSIZE 0) ++ [zrepl BSIZE 7], c').
Proof.
  destruct (bcache_refines_array (BWrite 3 (zrepl BSIZE 7) :: (BRead <$> seqZ 100 40) ++ [BRead 3])
    (boot_bcache ∅ 1)) as (c' & E & _).
  - apply boot_bcache_ok. intros b v. by rewrite lookup_empty.
  - repeat constructor; simpl; lia.
  - exists c'. exact E.
Defined.
