(* ===== verification/BufProps.v ===== *)
(** * Buffers that are held and pinned

    [Bio] proves the buffer cache against its users that take one buffer at a
    time. The log holds two buffers at once and keeps modified ones pinned in
    the cache; here the operations of [kernel/bio.c] are specified for that use:
    over an invariant that says which buffers are locked, by what they do to the
    contents of blocks as the kernel sees them, to the disk, and to the reference
    count of each block. *)

From stdpp Require Import base numbers list gmap strings.
From S2P Require Import Prelude Machine KState Bio.
Open Scope Z_scope.
Open Scope kernel_scope.

(** The buffer of block [b], and how many references it has. *)
Definition buf_of (c : bcache) (b : Z) : option buf := cached c b ≫= λ i, bc_buf c !! i.
Definition refs (c : bcache) (b : Z) : Z := match buf_of c b with Some bf => b_refcnt bf | None => 0 end.

Record bufx (X : list nat) (pid : Z) (i : nat) (bf : buf) : Prop := {
  bx_data : zlen (b_data bf) = BSIZE;
  bx_refcnt : 0 ≤ b_refcnt bf < 2147483648;
  bx_dev : b_valid bf ≠ 0 ∨ b_refcnt bf ≠ 0 → b_dev bf = ROOTDEV;
  bx_free : i ∉ X → b_lock bf = MkSleep 0 0;
  bx_held : i ∈ X → b_lock bf = MkSleep 1 pid ∧ b_valid bf ≠ 0 ∧ 1 ≤ b_refcnt bf;
}.

(** The invariant while this process holds the buffers [X]. *)
Record okx (X : list nat) (c : bcache) : Prop := {
  x_unlocked : bc_locked c = false;
  x_len : length (bc_buf c) = Z.to_nat NBUF;
  x_lru : lru c ≡ₚ buf_ids;
  x_bufs i bf : bc_buf c !! i = Some bf → bufx X (bc_mypid c) i bf;
  x_unique i j bf bf' : bc_buf c !! i = Some bf → bc_buf c !! j = Some bf' →
    b_dev bf = ROOTDEV → b_dev bf' = ROOTDEV → b_blockno bf = b_blockno bf' → i = j;
  x_clean i bf : bc_buf c !! i = Some bf → b_valid bf ≠ 0 → b_refcnt bf = 0 →
    b_data bf = disk_get (bc_disk c) (b_blockno bf);
  x_blocks b d : bc_disk c !! b = Some d → zlen d = BSIZE;
}.

(** Some buffer is unreferenced. *)
Definition has_free (c : bcache) : Prop := ∃ i bf, bc_buf c !! i = Some bf ∧ b_refcnt bf = 0.

(** Buffer [i] is the valid one of block [b]. *)
Definition holds (c : bcache) (i : nat) (b : Z) : Prop :=
  ∃ bf, bc_buf c !! i = Some bf ∧ b_dev bf = ROOTDEV ∧ b_blockno bf = b ∧ b_valid bf ≠ 0.

(** What may change, for the user of block [b] only: the contents, the disk, the
    number of references. *)
Record same_but (b : Z) (c c' : bcache) : Prop := {
  sb_pid : bc_mypid c' = bc_mypid c;
  sb_view b' : b' ≠ b → bc_view c' b' = bc_view c b';
  sb_disk b' : b' ≠ b → disk_get (bc_disk c') b' = disk_get (bc_disk c) b';
  sb_refs b' : b' ≠ b → refs c' b' = refs c b';
  sb_holds j b' : b' ≠ b → 1 ≤ refs c b' → holds c j b' → holds c' j b';
}.

Section held.
Implicit Types (c : bcache) (X : list nat).

Lemma cachedx_Some X c b i : okx X c →
  cached c b = Some i ↔ ∃ bf, bc_buf c !! i = Some bf ∧ b_dev bf = ROOTDEV ∧ b_blockno bf = b.
Proof.
  intros H. split.
  - intros [_ Hc]%List.find_some. by apply caches_true.
  - intros (bf & Hi & Hd & Hb). unfold cached. destruct (List.find _ buf_ids) as [j|] eqn:E.
    + apply List.find_some in E as [_ (bf' & Hj & ? & ?)%caches_true]. f_equal.
      eapply (x_unique _ _ H); [exact Hj|exact Hi|congruence..].
    + exfalso. assert (caches (bc_buf c) ROOTDEV b i = true) as Hc by (apply caches_true; eauto).
      rewrite (List.find_none _ _ E i) in Hc; [done|]. apply list_elem_of_In. unfold buf_ids.
      apply elem_of_seq. pose proof (lookup_lt_Some _ _ _ Hi). pose proof (x_len _ _ H). lia.
Qed.
Lemma cachedx_lru X c b : okx X c → List.find (caches (bc_buf c) ROOTDEV b) (lru c) = cached c b.
Proof.
  intros H. apply find_perm; [apply H|]. intros i j _ _ (bf & Hi & ? & ?)%caches_true (bf' & Hj & ? & ?)%caches_true.
  eapply (x_unique _ _ H); [exact Hi|exact Hj|congruence..].
Qed.
Lemma buf_of_Some X c b i bf : okx X c → bc_buf c !! i = Some bf → b_dev bf = ROOTDEV → b_blockno bf = b →
  buf_of c b = Some bf.
Proof. intros H Hi Hd Hb. unfold buf_of. by rewrite (proj2 (cachedx_Some X c b i H)) by eauto. Qed.
Lemma buf_of_None c b : cached c b = None → buf_of c b = None.
Proof. unfold buf_of. by intros ->. Qed.
Lemma bc_view_buf c b : bc_view c b =
  match buf_of c b with
  | Some bf => if b_valid bf =? 0 then disk_get (bc_disk c) b else b_data bf
  | None => disk_get (bc_disk c) b
  end.
Proof. done. Qed.
Lemma diskx_len X c b : okx X c → zlen (disk_get (bc_disk c) b) = BSIZE.
Proof.
  intros H. unfold disk_get. destruct (bc_disk c !! b) eqn:E; simpl; [by eapply x_blocks|]. by apply zlen_zrepl.
Qed.
Lemma viewx_len X c b : okx X c → zlen (bc_view c b) = BSIZE.
Proof.
  intros H. rewrite bc_view_buf. unfold buf_of. destruct (cached c b) as [i|]; simpl; [|by eapply diskx_len].
  destruct (bc_buf c !! i) as [bf|] eqn:E; [|by eapply diskx_len].
  destruct (_ =? _); [by eapply diskx_len|]. by apply (x_bufs _ _ H) in E as [].
Qed.
Lemma holds_view X c i b : okx X c → holds c i b → ∃ bf, bc_buf c !! i = Some bf ∧ buf_of c b = Some bf ∧ b_data bf = bc_view c b.
Proof.
  intros H (bf & Hi & Hd & Hb & Hv). exists bf. pose proof (buf_of_Some X c b i bf H Hi Hd Hb) as E.
  split_and!; [done..|]. rewrite bc_view_buf, E. by destruct (Z.eqb_spec (b_valid bf) 0).
Qed.

(** Block [b] takes buffer [i], which was [o]. *)
Lemma takesx_other X c b i o j bf : okx X c → takes c b i o → j ≠ i → bc_buf c !! j = Some bf →
  b_dev bf = ROOTDEV → b_blockno bf ≠ b.
Proof.
  intros H [Hi Ht] Hne Hj Hd Hb. destruct Ht as [[Hd' Hb']|[_ Hc]].
  - apply Hne. eapply (x_unique _ _ H); [exact Hj|exact Hi|congruence..].
  - assert (cached c b = Some j) by (apply (cachedx_Some X); eauto). congruence.
Qed.

(** One buffer replaced: by the buffer of [b], in the place [takes] allows. *)
Definition replaced c c' (b : Z) (i : nat) (o bf : buf) : Prop :=
  takes c b i o ∧ b_dev bf = ROOTDEV ∧ b_blockno bf = b ∧
  bc_locked c' = false ∧ bc_buf c' = <[i := bf]> (bc_buf c) ∧ lru c' ≡ₚ buf_ids ∧ bc_mypid c' = bc_mypid c ∧
  (bc_disk c' = bc_disk c ∨ bc_disk c' = <[b := b_data bf]> (bc_disk c)).

Lemma replaced_okx X X' c c' b i o bf : okx X c → replaced c c' b i o bf →
  (∀ j, j ≠ i → j ∈ X' ↔ j ∈ X) → bufx X' (bc_mypid c) i bf →
  (b_valid bf ≠ 0 → b_refcnt bf = 0 → b_data bf = disk_get (bc_disk c') b) → okx X' c'.
Proof.
  intros H (Ht & Hdev & Hb & Hul & Hbuf & Hlru & Hpid & Hdisk) HX Hbf Hcl. pose proof Ht as [Hi _].
  assert (∀ j bf', bc_buf c' !! j = Some bf' → (j = i ∧ bf' = bf) ∨ (j ≠ i ∧ bc_buf c !! j = Some bf')) as Hcase.
  { intros j bf'. rewrite Hbuf. intros [(-> & -> & ?)|[? ?]]%list_lookup_insert_Some; auto. }
  split; [done|rewrite Hbuf, length_insert; apply H|done|..].
  - intros j bf' [[-> ->]|[Hne Hj]]%Hcase; rewrite Hpid; [done|].
    destruct (x_bufs _ _ H _ _ Hj) as [? ? ? H4 H5]. split; try done; rewrite HX by done; done.
  - intros j k bf1 bf2 [[-> ->]|[? Hj]]%Hcase [[-> ->]|[? Hk]]%Hcase; try done.
    + intros _ Hd E. destruct (takesx_other X c b i o k bf2); try done. congruence.
    + intros Hd _ E. destruct (takesx_other X c b i o j bf1); try done. congruence.
    + by apply (x_unique _ _ H).
  - intros j bf' [[-> ->]|[Hne Hj]]%Hcase; [intros; rewrite Hb; by apply Hcl|].
    intros Hv Hr. rewrite (x_clean _ _ H j bf') by done. destruct Hdisk as [-> | ->]; [done|].
    rewrite disk_get_insert, decide_False; [done|]. eapply takesx_other; try done.
    apply (bx_dev _ _ _ _ (x_bufs _ _ H _ _ Hj)). by left.
  - intros b' d Hd. destruct Hdisk as [E|E]; rewrite E in Hd; [by eapply (x_blocks _ _ H)|].
    apply lookup_insert_Some in Hd as [[_ <-]|[_ Hd]]; [apply Hbf|by eapply (x_blocks _ _ H)].
Qed.

(** A buffer given up was clean. *)
Lemma recycled_view X c b i o : okx X c → bc_buf c !! i = Some o → b_refcnt o = 0 → b_dev o = ROOTDEV → b_blockno o = b →
  bc_view c b = disk_get (bc_disk c) b.
Proof.
  intros H Hi Hr Hd Hb. rewrite bc_view_buf, (buf_of_Some X c b i o) by done.
  destruct (Z.eqb_spec (b_valid o) 0); [done|]. subst b. by eapply (x_clean _ _ H).
Qed.

Lemma replaced_other X X' c c' b i o bf b' : okx X c → okx X' c' → replaced c c' b i o bf → b' ≠ b →
  (buf_of c' b' = buf_of c b' ∨ (buf_of c' b' = None ∧ refs c b' = 0 ∧ bc_view c b' = disk_get (bc_disk c) b')) ∧
  disk_get (bc_disk c') b' = disk_get (bc_disk c) b'.
Proof.
  intros H H' (Ht & Hdev & Hb & _ & Hbuf & _ & _ & Hdisk) Hne. pose proof Ht as [Hi Ho]. split.
  2: { destruct Hdisk as [-> | ->]; [done|]. by rewrite disk_get_insert, decide_False. }
  destruct (cached c' b') as [k|] eqn:Ek.
  - left. pose proof Ek as (bf' & Hk & Hd' & Hb')%(cachedx_Some X'); [|done].
    rewrite (buf_of_Some X' c' b' k bf') by done. rewrite Hbuf in Hk.
    apply list_lookup_insert_Some in Hk as [(_ & <- & _)|[Hki Hk]]; [congruence|].
    by rewrite (buf_of_Some X c b' k bf').
  - rewrite (buf_of_None c' b' Ek). unfold refs. destruct (cached c b') as [j|] eqn:Ej; [|left; by rewrite buf_of_None].
    right. pose proof Ej as (bf' & Hj & Hd' & Hb')%(cachedx_Some X); [|done].
    rewrite (buf_of_Some X c b' j bf') by done.
    destruct (decide (j = i)) as [->|Hji].
    + rewrite Hi in Hj. injection Hj as ->. destruct Ho as [[_ ?]|[Hr _]]; [congruence|].
      split_and!; [done..|]. by eapply recycled_view.
    + assert (cached c' b' = Some j); [|congruence]. apply (cachedx_Some X'); [done|]. exists bf'.
      by rewrite Hbuf, list_lookup_insert_ne.
Qed.

Lemma replaced_same X X' c c' b i o bf : okx X c → okx X' c' → replaced c c' b i o bf →
  same_but b c c' ∧ buf_of c' b = Some bf.
Proof.
  intros H H' Hr. pose proof Hr as (Ht & Hdev & Hb & _ & Hbuf & _ & Hpid & _). pose proof Ht as [Hi _]. split.
  - split; [done|..].
    + intros b' Hne. destruct (replaced_other X X' c c' b i o bf b') as [[E|(E & _ & E')] Ed]; try done.
      * by rewrite !bc_view_buf, E, Ed.
      * by rewrite bc_view_buf, E, Ed, E'.
    + intros b' Hne. by destruct (replaced_other X X' c c' b i o bf b') as [_ Ed].
    + intros b' Hne. destruct (replaced_other X X' c c' b i o bf b') as [[E|(E & E' & _)] _]; try done;
        unfold refs; rewrite E; [done|]. done.
    + intros j b' Hne Hrf (bf' & Hj & Hd' & Hb' & Hv').
      exists bf'. split; [|done]. rewrite Hbuf. rewrite list_lookup_insert_ne; [done|]. intros ->.
      rewrite Hi in Hj. injection Hj as ->. unfold refs in Hrf. rewrite (buf_of_Some X c b' j bf') in Hrf by done.
      destruct Ht as [_ [[_ ?]|[? _]]]; [congruence|lia].
  - apply (buf_of_Some X' c' b i bf); try done. rewrite Hbuf. by eapply lookup_set.
Qed.

(** The operations: the effect on block [b] is to leave it with the contents [v],
    the disk contents [d] and [r] references, and nothing else changes. *)
Record does (b : Z) (v d : list Z) (r : Z) (c c' : bcache) : Prop := {
  do_same : same_but b c c';
  do_view : bc_view c' b = v;
  do_disk : disk_get (bc_disk c') b = d;
  do_refs : refs c' b = r;
}.

Lemma replaced_does X X' c c' b i o bf : okx X c → okx X' c' → replaced c c' b i o bf → b_valid bf ≠ 0 →
  does b (b_data bf) (disk_get (bc_disk c') b) (b_refcnt bf) c c' ∧ holds c' i b.
Proof.
  intros H H' Hr Hv. destruct (replaced_same X X' c c' b i o bf) as [Hs E]; [done..|].
  destruct Hr as ([Hi _] & Hd & Hb & _ & Hbuf & _). split.
  - split; [done| |done|by unfold refs; rewrite E]. rewrite bc_view_buf, E. by destruct (Z.eqb_spec (b_valid bf) 0).
  - exists bf. split; [|done]. rewrite Hbuf. by eapply lookup_set.
Qed.

Lemma bgetx X c b : okx X c → (∀ j, j ∈ X → ¬ holds c j b) → (cached c b = None → has_free c) →
  ∃ i o v data, takes c b i o ∧ i ∉ X ∧
    bget ROOTDEV b c = Ok (i, c <| bc_buf := <[i := buf_for v b (MkSleep 1 (bc_mypid c)) (u32 (b_refcnt o + 1)) data]> (bc_buf c) |>) ∧
    zlen data = BSIZE ∧ refs c b = b_refcnt o ∧
    (if v =? 0 then bc_view c b = disk_get (bc_disk c) b else data = bc_view c b).
Proof.
  intros H HX Hf. pose proof (x_unlocked _ _ H) as Hul. unfold bget, acquire_bc.
  erewrite bind_step by (mred; rewrite Hul; done).
  erewrite bind_step by done. erewrite bind_step by done. simpl. rewrite (cachedx_lru X) by done.
  destruct (cached c b) as [i|] eqn:Ec.
  - pose proof Ec as (bf & Hi & Hd & Hb)%(cachedx_Some X); [|done].
    pose proof (x_bufs _ _ H _ _ Hi) as [Hlen Hrc _ Hfree Hheld].
    assert (i ∉ X) as Hn by (intros Hin; destruct (Hheld Hin) as (_ & Hv & _); apply (HX i Hin); exists bf; done).
    exists i, bf, (b_valid bf), (b_data bf). split_and!; try done; [split; [done|by left]| | |].
    + erewrite bind_step by (by apply updb_ok). erewrite bind_step by done.
      erewrite bind_step; [done|]. unfold acquiresleep.
      erewrite bind_step by (eapply getb_ok; by eapply lookup_set).
      erewrite bind_step by done. simpl. rewrite Hfree by done. simpl.
      erewrite updb_ok by (by eapply lookup_set). simpl. rewrite list_insert_insert_eq.
      destruct bf, c; simpl in *; subst. unfold upd, upd_b_refcnt, upd_b_lock. simpl. done.
    + unfold refs. by rewrite (buf_of_Some X c b i bf).
    + rewrite bc_view_buf, (buf_of_Some X c b i bf) by done. by destruct (_ =? _).
  - destruct (Hf eq_refl) as (i0 & bf0 & Hi0 & Hr0).
    destruct (List.find (unused (bc_buf c)) (reverse (lru c))) as [i|] eqn:Ei; cycle 1.
    { exfalso. assert (unused (bc_buf c) i0 = true) as Hu by (apply unused_true; eauto).
      rewrite (List.find_none _ _ Ei i0) in Hu; [done|]. apply list_elem_of_In.
      rewrite reverse_Permutation, (x_lru _ _ H). unfold buf_ids. apply elem_of_seq.
      pose proof (lookup_lt_Some _ _ _ Hi0). pose proof (x_len _ _ H). lia. }
    apply List.find_some in Ei as [_ (bf & Hi & Hr)%unused_true].
    pose proof (x_bufs _ _ H _ _ Hi) as [Hlen Hrc _ Hfree Hheld].
    assert (i ∉ X) as Hn by (intros Hin; destruct (Hheld Hin) as (_ & _ & ?); lia).
    exists i, bf, 0, (b_data bf). split_and!; try done; [split; [done|by right]| | |].
    + erewrite bind_step by (by apply updb_ok). erewrite bind_step by done.
      erewrite bind_step; [done|]. unfold acquiresleep.
      erewrite bind_step by (eapply getb_ok; by eapply lookup_set).
      erewrite bind_step by done. simpl. rewrite Hfree by done. simpl.
      erewrite updb_ok by (by eapply lookup_set). simpl. rewrite list_insert_insert_eq, Hr.
      destruct bf, c; simpl in *; subst; done.
    + unfold refs. by rewrite buf_of_None.
    + simpl. by rewrite bc_view_buf, buf_of_None.
Qed.

(** [bread]: block [b] locked in buffer [i]. *)
Lemma breadx X c b : okx X c → 0 ≤ b < FSSIZE → (∀ j, j ∈ X → ¬ holds c j b) →
  (cached c b = None → has_free c) → refs c b < 2147483647 →
  ∃ i c', bread ROOTDEV b c = Ok (i, c') ∧ i ∉ X ∧ okx (i :: X) c' ∧ holds c' i b ∧
    does b (bc_view c b) (disk_get (bc_disk c) b) (refs c b + 1) c c' ∧ bc_disk c' = bc_disk c.
Proof.
  intros H Hb HX Hf Hrf.
  destruct (bgetx X c b H HX Hf) as (i & o & v & data & Ht & Hn & E & Hlen & Er & Hd). pose proof Ht as [Hi _].
  pose proof (bx_refcnt _ _ _ _ (x_bufs _ _ H _ _ Hi)) as Hro.
  assert (∃ v', v' ≠ 0 ∧ bread ROOTDEV b c = Ok (i, c <| bc_buf :=
    <[i := buf_for v' b (MkSleep 1 (bc_mypid c)) (b_refcnt o + 1) (bc_view c b)]> (bc_buf c) |>)) as (v' & Hv' & E').
  { rewrite wrap_id in E by lia. unfold bread. erewrite bind_step by exact E.
    erewrite bind_step by (eapply getb_ok; by eapply lookup_set). simpl.
    destruct (Z.eqb_spec v 0) as [->|Hv].
    - exists 1. split; [lia|]. simpl. erewrite bind_step; [done|]. unfold transfer. erewrite bind_step.
      2: { erewrite bind_step by (eapply getb_ok; by eapply lookup_set). simpl.
        assert ((0 <=? b) && (b <? FSSIZE) = true) as -> by lia.
        erewrite bind_step by done. erewrite updb_ok by (by eapply lookup_set). simpl.
        rewrite list_insert_insert_eq. done. }
      erewrite updb_ok by (by eapply lookup_set). simpl. rewrite list_insert_insert_eq, Hd. done.
    - subst data. by exists v. }
  clear E. set (bf := buf_for v' b (MkSleep 1 (bc_mypid c)) (b_refcnt o + 1) (bc_view c b)) in *.
  set (c' := c <| bc_buf := _ |>) in *. exists i, c'.
  assert (replaced c c' b i o bf) as Hrep by (split_and!; simpl; try done; [apply H|apply H|by left]).
  assert (okx (i :: X) c') as H'.
  { eapply replaced_okx; [done|done|set_solver| |simpl; lia].
    split; simpl; [by eapply viewx_len|lia|done|intros []; set_solver|]. intros _. split_and!; [done..|lia]. }
  destruct (replaced_does X (i :: X) c c' b i o bf) as [Hdo Hh]; [done..|].
  split_and!; try done. rewrite Er. apply Hdo.
Qed.

(** ** Operations on a held buffer *)

(** The buffer of [b], held in [i], replaced by [bf]. *)
Lemma held_replaced X c c' i b o bf : okx X c → bc_buf c !! i = Some o → b_dev o = ROOTDEV → b_blockno o = b →
  b_dev bf = ROOTDEV → b_blockno bf = b → bc_locked c' = false → bc_buf c' = <[i := bf]> (bc_buf c) → lru c' ≡ₚ buf_ids →
  bc_mypid c' = bc_mypid c → (bc_disk c' = bc_disk c ∨ bc_disk c' = <[b := b_data bf]> (bc_disk c)) →
  replaced c c' b i o bf.
Proof. intros. unfold replaced, takes. split_and!; auto. Qed.

Lemma holds_buf X c i b : okx X c → holds c i b → ∃ o, bc_buf c !! i = Some o ∧ b_dev o = ROOTDEV ∧ b_blockno o = b ∧
  b_valid o ≠ 0 ∧ b_refcnt o = refs c b ∧ b_data o = bc_view c b ∧ bufx X (bc_mypid c) i o.
Proof.
  intros H Hh. pose proof Hh as (o & Hi & Hd & Hb & Hv). exists o. destruct (holds_view X c i b H Hh) as (o' & Hi' & E & Ev).
  assert (o' = o) as -> by congruence. split_and!; try done; [unfold refs; by rewrite E|by apply (x_bufs _ _ H)].
Qed.

(** [memmove] into the buffer, and stores to it. *)
Lemma set_datax X c i b f : okx X c → i ∈ X → holds c i b → zlen (f (bc_view c b)) = BSIZE →
  ∃ c', updb i (λ bf, bf <| b_data ::= f |>) c = Ok (tt, c') ∧ okx X c' ∧ holds c' i b ∧
    does b (f (bc_view c b)) (disk_get (bc_disk c) b) (refs c b) c c' ∧ bc_disk c' = bc_disk c.
Proof.
  intros H HX Hh Hlen. destruct (holds_buf X c i b H Hh) as (o & Hi & Hd & Hb & Hv & Er & Ev & [? ? ? ? Hx]).
  eexists. split; [by apply updb_ok|]. set (bf := o <| b_data ::= f |>). set (c' := c <| bc_buf := _ |>).
  assert (replaced c c' b i o bf) as Hrep by (eapply held_replaced; try done; [apply H|apply H|by left]).
  assert (okx X c') as H'.
  { eapply replaced_okx; [done|done|done| |simpl; intros; destruct (Hx HX); lia].
    split; simpl; try done. by rewrite Ev. }
  destruct (replaced_does X X c c' b i o bf) as [Hdo Hho]; [done..|].
  split; [exact H'|]. split; [exact Hho|]. split; [|reflexivity]. rewrite <-Er, <-Ev. exact Hdo.
Qed.

Lemma bwritex X c i b : okx X c → i ∈ X → holds c i b → 0 ≤ b < FSSIZE →
  ∃ c', bwrite i c = Ok (tt, c') ∧ okx X c' ∧ holds c' i b ∧ does b (bc_view c b) (bc_view c b) (refs c b) c c' ∧
    bc_disk c' = <[b := bc_view c b]> (bc_disk c).
Proof.
  intros H HX Hh Hbb. destruct (holds_buf X c i b H Hh) as (o & Hi & Hd & Hb & Hv & Er & Ev & [? ? ? ? Hx]).
  destruct (Hx HX) as (Hlk & _ & Hr1).
  exists (c <| bc_disk := <[b := bc_view c b]> (bc_disk c) |>). split.
  { unfold bwrite, holdingsleep, transfer. erewrite bind_step.
    2: { erewrite bind_step by (by apply getb_ok). erewrite bind_step by done. done. }
    rewrite Hlk. simpl. rewrite Z.eqb_refl. simpl. erewrite bind_step by (by apply getb_ok).
    rewrite Hb, Ev. assert ((0 <=? b) && (b <? FSSIZE) = true) as -> by lia. done. }
  set (c' := c <| bc_disk := _ |>).
  assert (replaced c c' b i o o) as Hrep.
  { eapply held_replaced; try done; [apply H|simpl; by rewrite list_insert_id|apply H|right; simpl; by rewrite Ev]. }
  assert (okx X c') as H' by (eapply replaced_okx; [done|done|done|by split|lia]).
  destruct (replaced_does X X c c' b i o o) as [Hdo Hho]; [done..|].
  split; [exact H'|]. split; [exact Hho|]. split; [|reflexivity].
  rewrite <-Er, <-Ev. simpl in Hdo. rewrite disk_get_insert, decide_True, <-Ev in Hdo by done. exact Hdo.
Qed.

(** [brelse]: if that was the last reference, the buffer must be clean. *)
Lemma brelsex X c i b : okx (i :: X) c → i ∉ X → holds c i b →
  (refs c b = 1 → bc_view c b = disk_get (bc_disk c) b) →
  ∃ c', brelse i c = Ok (tt, c') ∧ okx X c' ∧
    does b (bc_view c b) (disk_get (bc_disk c) b) (refs c b - 1) c c' ∧ bc_disk c' = bc_disk c.
Proof.
  intros H HX Hh Hcl.
  destruct (holds_buf _ c i b H Hh) as (o & Hi & Hd & Hb & Hv & Er & Ev & [? ? ? ? Hx]).
  destruct Hx as (Hlk & _ & Hr1); [set_solver|].
  set (bf := buf_for (b_valid o) b (MkSleep 0 0) (b_refcnt o - 1) (b_data o)).
  eexists. split.
  { apply (brelse_ok c i (b_refcnt o - 1) (b_valid o) b (b_data o)); [apply H| |lia].
    rewrite Hi. f_equal. unfold buf_for. destruct o; simpl in *; subst. f_equal. lia. }
  fold bf. set (c' := _ <| lru := _ |>).
  assert (replaced c c' b i o bf) as Hrep.
  { eapply held_replaced; try done; [apply H| |by left]. simpl.
    destruct (_ =? 0); [|apply H]. apply lru_front; [|apply H]. unfold buf_ids. apply elem_of_seq.
    pose proof (lookup_lt_Some _ _ _ Hi). pose proof (x_len _ _ H). lia. }
  assert (okx X c') as H'.
  { eapply replaced_okx; [done|done|set_solver| |].
    - split; simpl; try done; lia.
    - simpl. intros _ Hr. rewrite Ev. apply Hcl. lia. }
  destruct (replaced_does (i :: X) X c c' b i o bf) as [Hdo Hho]; [done..|].
  split; [exact H'|]. split; [|reflexivity]. rewrite <-Er, <-Ev. exact Hdo.
Qed.

Lemma bpinx X c i b : okx X c → i ∈ X → holds c i b → refs c b < 2147483647 →
  ∃ c', bpin i c = Ok (tt, c') ∧ okx X c' ∧ holds c' i b ∧
    does b (bc_view c b) (disk_get (bc_disk c) b) (refs c b + 1) c c' ∧ bc_disk c' = bc_disk c.
Proof.
  intros H HX Hh Hrf. destruct (holds_buf X c i b H Hh) as (o & Hi & Hd & Hb & Hv & Er & Ev & [? ? ? ? Hx]).
  destruct (Hx HX) as (Hlk & _ & Hr1). set (bf := o <| b_refcnt := b_refcnt o + 1 |>).
  exists (c <| bc_buf := <[i := bf]> (bc_buf c) |>). set (c' := c <| bc_buf := _ |>). split.
  { unfold bpin, acquire_bc. erewrite bind_step by (mred; rewrite (x_unlocked _ _ H); done).
    erewrite bind_step by (by apply updb_ok). unfold release_bc. mred.
    apply Ok_pair. unfold c', bf, upd, upd_b_refcnt, upd_bc_buf, upd_bc_locked. simpl.
    rewrite wrap_id by lia. by rewrite (x_unlocked _ _ H). }
  assert (replaced c c' b i o bf) as Hrep by (eapply held_replaced; try done; [apply H|apply H|by left]).
  assert (okx X c') as H'.
  { eapply replaced_okx; [done|done|done| |simpl; lia]. split; simpl; try done; [lia|]. intros _. split_and!; try done. lia. }
  destruct (replaced_does X X c c' b i o bf) as [Hdo Hho]; [done..|].
  split; [exact H'|]. split; [exact Hho|]. split; [|reflexivity]. rewrite <-Er, <-Ev. exact Hdo.
Qed.

Lemma bunpinx X c i b : okx X c → i ∈ X → holds c i b → 2 ≤ refs c b →
  ∃ c', bunpin i c = Ok (tt, c') ∧ okx X c' ∧ holds c' i b ∧
    does b (bc_view c b) (disk_get (bc_disk c) b) (refs c b - 1) c c' ∧ bc_disk c' = bc_disk c.
Proof.
  intros H HX Hh Hrf. destruct (holds_buf X c i b H Hh) as (o & Hi & Hd & Hb & Hv & Er & Ev & [? ? ? ? Hx]).
  destruct (Hx HX) as (Hlk & _ & Hr1). set (bf := o <| b_refcnt := b_refcnt o - 1 |>).
  exists (c <| bc_buf := <[i := bf]> (bc_buf c) |>). set (c' := c <| bc_buf := _ |>). split.
  { unfold bunpin, acquire_bc. erewrite bind_step by (mred; rewrite (x_unlocked _ _ H); done).
    erewrite bind_step by (by apply updb_ok). unfold release_bc. mred.
    apply Ok_pair. unfold c', bf, upd, upd_b_refcnt, upd_bc_buf, upd_bc_locked. simpl.
    rewrite wrap_id by lia. by rewrite (x_unlocked _ _ H). }
  assert (replaced c c' b i o bf) as Hrep by (eapply held_replaced; try done; [apply H|apply H|by left]).
  assert (okx X c') as H'.
  { eapply replaced_okx; [done|done|done| |simpl; lia]. split; simpl; try done; [lia|]. intros _. split_and!; try done. lia. }
  destruct (replaced_does X X c c' b i o bf) as [Hdo Hho]; [done..|].
  split; [exact H'|]. split; [exact Hho|]. split; [|reflexivity]. rewrite <-Er, <-Ev. exact Hdo.
Qed.
End held.
