(* ===== verification/Log.v ===== *)
(** * The write-ahead log

    Models [kernel/log.c]: transactions over the buffer cache of [Bio], with the
    on-disk log header as bytes. Sleeping on [&log] is modelled as far as the log
    is concerned: the processes asleep on it are a field of the state, and a
    pass of the loop of [begin_op] says whether the process got its space.
    [end_op] is in three parts, as the lock cuts it: [end_enter], the commit, which
    runs without the lock, and [end_finish]. *)

From stdpp Require Import base numbers list gmap strings.
From S2P Require Import Prelude Machine KState Bio.
Open Scope Z_scope.
Open Scope kernel_scope.

Abbreviation MAXOPBLOCKS := 10.
Abbreviation LOGBLOCKS := 30.

(** [log], and the buffer cache it works on; [l_sleepers] are the processes
    asleep on [&log]. *)
Record logst := MkLog {
  l_locked : bool;
  l_start : Z;
  l_outstanding : Z;
  l_committing : Z;
  l_dev : Z;
  lh_n : Z;
  lh_block : list Z;
  l_sleepers : list Z;
  l_bc : bcache;
}.
#[global] Instance logst_eta : Eta logst := λ s,
  MkLog (l_locked s) (l_start s) (l_outstanding s) (l_committing s) (l_dev s) (lh_n s) (lh_block s)
    (l_sleepers s) (l_bc s).
#[global] Instance upd_l_locked : Upd l_locked := ltac:(mk_upd).
#[global] Instance upd_l_start : Upd l_start := ltac:(mk_upd).
#[global] Instance upd_l_outstanding : Upd l_outstanding := ltac:(mk_upd).
#[global] Instance upd_l_committing : Upd l_committing := ltac:(mk_upd).
#[global] Instance upd_l_dev : Upd l_dev := ltac:(mk_upd).
#[global] Instance upd_lh_n : Upd lh_n := ltac:(mk_upd).
#[global] Instance upd_lh_block : Upd lh_block := ltac:(mk_upd).
#[global] Instance upd_l_sleepers : Upd l_sleepers := ltac:(mk_upd).
#[global] Instance upd_l_bc : Upd l_bc := ltac:(mk_upd).

Abbreviation LG := (M logst).

(** A call into the buffer cache. *)
Definition lift_bc {A} (m : C A) : LG A := λ s,
  match m (l_bc s) with
  | Ok (a, c) => Ok (a, s <| l_bc := c |>)
  | Panic e => Panic e
  | Fault => Fault
  | Diverge => Diverge
  end.

Definition acquire_log : LG unit :=
  l ← gets l_locked; if (l : bool) then panic "acquire" else setf l_locked true.
Definition release_log : LG unit :=
  l ← gets l_locked; if (l : bool) then setf l_locked false else panic "release".
(** [wakeup(&log)] *)
Definition wakeup_log : LG unit := setf l_sleepers [].

(** [log.lh.block[i]], an [int]. *)
Definition get_block (i : Z) : LG Z := l ← gets lh_block; opt (znth l i).
Definition set_block (i b : Z) : LG unit :=
  l ← gets lh_block;
  match znth l i with Some _ => setf lh_block (zset l i b) | None => fault end.

(** The [int] at offset [off] of a block. *)
Definition get_int (data : list Z) (off : Z) : option Z :=
  if (0 <=? off) && (off + 4 <=? BSIZE) then Some (i32 (le_val (sub off 4 data))) else None.
Definition put_int (off v : Z) (data : list Z) : option (list Z) :=
  if (0 <=? off) && (off + 4 <=? BSIZE) then Some (splice off (le_of 4 v) data) else None.

(** [memmove(to->data, from->data, BSIZE)] *)
Definition copy_buf (to from : nat) : C unit :=
  f ← getb from; updb to (λ b, b <| b_data ::= splice 0 (b_data f) |>).

(** ** Installing and recovering *)

Definition install1 (recovering : bool) (tail : Z) : LG unit :=
  dev ← gets l_dev; start ← gets l_start;
  lbuf ← lift_bc (bread dev (u32 (start + tail + 1)));
  dst ← get_block tail;
  dbuf ← lift_bc (bread dev (u32 dst));
  lift_bc (copy_buf dbuf lbuf ;; bwrite dbuf ;; when (negb recovering) (bunpin dbuf) ;;
           brelse lbuf ;; brelse dbuf).
Definition install_trans (recovering : bool) : LG unit :=
  n ← gets lh_n; for_each (install1 recovering) (upto n).

Definition read_head : LG unit :=
  dev ← gets l_dev; start ← gets l_start;
  buf ← lift_bc (bread dev (u32 start));
  lh ← lift_bc (getb buf);
  n ← opt (get_int (b_data lh) 0);
  setf lh_n n ;;
  for_each (λ i, b ← opt (get_int (b_data lh) (4 + 4 * i)); set_block i b) (upto n) ;;
  lift_bc (brelse buf).

(** [hb->n = log.lh.n; hb->block[i] = log.lh.block[i] ...] in the buffer's bytes. *)
Definition store_int (buf : nat) (off v : Z) : C unit :=
  b ← getb buf; d ← opt (put_int off v (b_data b)); updb buf (λ b, b <| b_data := d |>).
Definition write_head : LG unit :=
  dev ← gets l_dev; start ← gets l_start;
  buf ← lift_bc (bread dev (u32 start));
  n ← gets lh_n;
  lift_bc (store_int buf 0 n) ;;
  for_each (λ i, b ← get_block i; lift_bc (store_int buf (4 + 4 * i) b)) (upto n) ;;
  lift_bc (bwrite buf) ;;
  lift_bc (brelse buf).

Definition recover_from_log : LG unit :=
  read_head ;; install_trans true ;; setf lh_n 0 ;; write_head.

(** [sizeof(struct logheader)] is 124, less than [BSIZE]. *)
Definition initlog (dev logstart : Z) : LG unit :=
  if BSIZE <=? 4 + 4 * LOGBLOCKS then panic "initlog: too big logheader" else
  setf l_locked false ;;
  setf l_start (i32 logstart) ;; setf l_dev dev ;; recover_from_log.

(** ** Transactions *)

(** One pass of the loop of [begin_op]: [true] when the operation may start;
    [false] when the process has gone to sleep on [&log] (which releases the
    lock), to try again when it is woken. *)
Definition begin_op : LG bool :=
  acquire_log ;;
  committing ← gets l_committing; n ← gets lh_n; outstanding ← gets l_outstanding;
  if negb (committing =? 0) || (LOGBLOCKS <? i32 (n + (outstanding + 1) * MAXOPBLOCKS)) then
    c ← gets l_bc; updf l_sleepers (λ l, bc_mypid c :: l) ;; release_log ;; mret false
  else
    setf l_outstanding (i32 (outstanding + 1)) ;; release_log ;; mret true.

Definition write_log1 (tail : Z) : LG unit :=
  dev ← gets l_dev; start ← gets l_start;
  to ← lift_bc (bread dev (u32 (start + tail + 1)));
  src ← get_block tail;
  from ← lift_bc (bread dev (u32 src));
  lift_bc (copy_buf to from ;; bwrite to ;; brelse from ;; brelse to).
Definition write_log : LG unit := n ← gets lh_n; for_each write_log1 (upto n).

Definition commit : LG unit :=
  n ← gets lh_n;
  when (0 <? n) (write_log ;; write_head ;; install_trans false ;; setf lh_n 0 ;; write_head).

(** The same as the steps it takes, each of which writes the disk once: the
    points between them are those at which a crash can leave the disk. *)
Definition commit_steps (n : Z) : list (LG unit) :=
  (write_log1 <$> upto n) ++ [write_head] ++ (install1 false <$> upto n) ++ [setf lh_n 0 ;; write_head].

(** The log of a machine that has just booted, its disk [d]. *)
Definition boot_log (d : gmap Z (list Z)) (pid : Z) : logst :=
  MkLog false 0 0 0 0 0 (zrepl LOGBLOCKS 0) [] (boot_bcache d pid).

(** [end_op] up to where it gives the lock up, with [do_commit]: *)
Definition end_enter : LG bool :=
  acquire_log ;;
  updf l_outstanding (λ n, i32 (n - 1)) ;;
  committing ← gets l_committing;
  if negb (committing =? 0) then panic "log.committing" else
  outstanding ← gets l_outstanding;
  let do_commit := outstanding =? 0 in
  (if do_commit then setf l_committing 1 else wakeup_log) ;;
  release_log ;;
  mret do_commit.
(** and its last part, after the commit, which runs without the lock. *)
Definition end_finish : LG unit := acquire_log ;; setf l_committing 0 ;; wakeup_log ;; release_log.
Definition end_op : LG unit :=
  do_commit ← end_enter;
  when do_commit (commit ;; end_finish).

(** Where in the header the block is, or would go. *)
Definition log_index (blocks : list Z) (n blockno : Z) : Z :=
  default n (list_find (λ b, u32 b = blockno) (take (Z.to_nat n) blocks) ≫= λ r, Some (Z.of_nat r.1)).

Definition log_write (b : nat) : LG unit :=
  acquire_log ;;
  n ← gets lh_n;
  if LOGBLOCKS <=? n then panic "too big a transaction" else
  outstanding ← gets l_outstanding;
  if outstanding <? 1 then panic "log_write outside of trans" else
  bf ← lift_bc (getb b);
  blocks ← gets lh_block;
  let i := log_index blocks n (b_blockno bf) in
  set_block i (i32 (b_blockno bf)) ;;
  when (i =? n) (lift_bc (bpin b) ;; setf lh_n (i32 (n + 1))) ;;
  release_log.

(** The typical use: read a block, change it, log it, release it. *)
Definition log_update (blockno : Z) (f : list Z → list Z) : LG unit :=
  dev ← gets l_dev;
  bp ← lift_bc (bread dev blockno);
  lift_bc (updb bp (λ b, b <| b_data ::= f |>)) ;;
  log_write bp ;;
  lift_bc (brelse bp).
