(* ===== verification/LogProps.v ===== *)
(** * Transactions are atomic

    The properties of [kernel/log.c]: what [commit] and the recovery at boot do
    to the disk, that a crash at any point leaves all of a transaction's blocks
    or none of them after recovery, and that the log neither overflows nor
    leaves a process asleep for ever, whatever runs between the writes of a
    commit. *)

From stdpp Require Import base numbers list gmap strings.
From S2P Require Import Prelude Machine KState Bio BufProps Log.
Open Scope Z_scope.
Open Scope kernel_scope.

(** ** Blocks, by what the kernel sees, the disk has and the cache holds *)

Section blocks.
Implicit Types (c : bcache) (X : list nat) (P : list Z).

Lemma clean0 X c b : okx X c → refs c b = 0 → bc_view c b = disk_get (bc_disk c) b.
Proof.
  intros H Hr. destruct (cached c b) as [i|] eqn:Ec; [|by rewrite bc_view_buf, buf_of_None].
  pose proof Ec as (bf & Hi & Hd & Hb)%(cachedx_Some X); [|done].
  eapply recycled_view; try done. unfold refs in Hr. by rewrite (buf_of_Some X c b i bf) in Hr.
Qed.

(** Buffers are in use for blocks of [P] only. *)
Definition uses_only P c : Prop := ∀ b, refs c b ≠ 0 → b ∈ P.

Lemma uses_free X c P : okx X c → uses_only P c → zlen P < NBUF → has_free c.
Proof.
  intros H HP Hlen.
  destruct (decide (Forall (λ bf, b_refcnt bf ≠ 0) (bc_buf c))) as [Hall|Hex].
  2: { apply not_Forall_Exists in Hex; [|apply _]. apply Exists_exists in Hex as (bf & (i & Hi)%list_elem_of_lookup & Hr).
       exists i, bf. split; [done|]. by destruct (decide (b_refcnt bf = 0)). }
  exfalso. assert (length (b_blockno <$> bc_buf c) ≤ length P)%nat as Hle.
  { assert (NoDup (b_blockno <$> bc_buf c)) as Hnd.
    { apply NoDup_alt. intros i j b. rewrite !list_lookup_fmap.
      destruct (bc_buf c !! i) as [bf|] eqn:Hi, (bc_buf c !! j) as [bf'|] eqn:Hj; simpl; try done.
      intros [= E] [= E']. rewrite Forall_lookup in Hall. eapply (x_unique _ _ H); try done.
      - apply (bx_dev _ _ _ _ (x_bufs _ _ H _ _ Hi)). right. by eapply Hall.
      - apply (bx_dev _ _ _ _ (x_bufs _ _ H _ _ Hj)). right. by eapply Hall.
      - congruence. }
    apply NoDup_ListNoDup in Hnd. apply (List.NoDup_incl_length Hnd).
    intros b Hb%list_elem_of_In. apply list_elem_of_In.
    apply list_elem_of_fmap in Hb as (bf & -> & (i & Hi)%list_elem_of_lookup). apply HP.
    rewrite Forall_lookup in Hall. pose proof (Hall i bf Hi) as Hr. unfold refs.
    erewrite (buf_of_Some X c _ i bf); try done. apply (bx_dev _ _ _ _ (x_bufs _ _ H _ _ Hi)). by right. }
  rewrite length_fmap, (x_len _ _ H) in Hle. unfold zlen in Hlen. lia.
Qed.

Lemma refs_cached c b : refs c b ≠ 0 → cached c b ≠ None.
Proof. unfold refs, buf_of. by destruct (cached c b). Qed.
Lemma refs_nonneg X c b : okx X c → 0 ≤ refs c b < 2147483648.
Proof.
  intros H. unfold refs, buf_of. destruct (cached c b) as [i|]; simpl; [|lia].
  destruct (bc_buf c !! i) as [bf|] eqn:Hi; [|lia]. by apply (x_bufs _ _ H) in Hi as [].
Qed.

(** Read of a block by a process that may hold others. *)
Lemma bread_held X c P b : okx X c → uses_only P c → 0 ≤ b < FSSIZE → (∀ j, j ∈ X → ¬ holds c j b) →
  refs c b ≠ 0 ∨ zlen P < NBUF → refs c b < 2147483647 →
  ∃ i c', bread ROOTDEV b c = Ok (i, c') ∧ i ∉ X ∧ okx (i :: X) c' ∧ holds c' i b ∧ uses_only (b :: P) c' ∧
    does b (bc_view c b) (disk_get (bc_disk c) b) (refs c b + 1) c c' ∧ bc_disk c' = bc_disk c.
Proof.
  intros H HP Hb HX Hf Hr. destruct (breadx X c b H Hb HX) as (i & c' & E & Hi & H' & Hh & Hd & Ed); [|done|].
  { intros Ec. destruct Hf as [Hf|Hf]; [by apply refs_cached in Hf|by eapply uses_free]. }
  exists i, c'. split_and!; try done. intros b' Hb'. destruct (decide (b' = b)) as [->|Hne]; [set_solver|].
  rewrite (sb_refs _ _ _ (do_same _ _ _ _ _ _ Hd)) in Hb' by done. set_solver.
Qed.

(** From here on these are known by their properties. *)
#[local] Opaque refs bc_view disk_get bread bwrite brelse bpin bunpin.

Lemma does_view b v d r c c' b' : does b v d r c c' → bc_view c' b' = if decide (b' = b) then v else bc_view c b'.
Proof. intros [[] ? ? ?]. case_decide; subst; auto. Qed.
Lemma does_disk b v d r c c' b' : does b v d r c c' →
  disk_get (bc_disk c') b' = if decide (b' = b) then d else disk_get (bc_disk c) b'.
Proof. intros [[] ? ? ?]. case_decide; subst; auto. Qed.
Lemma does_refs b v d r c c' b' : does b v d r c c' → refs c' b' = if decide (b' = b) then r else refs c b'.
Proof. intros [[] ? ? ?]. case_decide; subst; auto. Qed.
Lemma does_holds b v d r c c' j b' : does b v d r c c' → b' ≠ b → 1 ≤ refs c b' → holds c j b' → holds c' j b'.
Proof. intros [[] ? ? ?]. auto. Qed.
Lemma does_other b v d r c c' b' : does b v d r c c' → b' ≠ b →
  refs c' b' = refs c b' ∧ bc_view c' b' = bc_view c b' ∧ disk_get (bc_disk c') b' = disk_get (bc_disk c) b'.
Proof. intros [[] ? ? ?]. auto. Qed.
Lemma does_pid b v d r c c' : does b v d r c c' → bc_mypid c' = bc_mypid c.
Proof. by intros [[] ? ? ?]. Qed.

Lemma okx_ext X X' c : (∀ i, i ∈ X ↔ i ∈ X') → okx X c → okx X' c.
Proof.
  intros HX [H1 H2 H3 H4 H5 H6 H7]. split; try done. intros i bf Hi. destruct (H4 i bf Hi) as [? ? ? H8 H9].
  split; try done; rewrite <-HX; done.
Qed.
Lemma held_refs X c i b : okx X c → i ∈ X → holds c i b → 1 ≤ refs c b.
Proof. intros H HX Hh. destruct (holds_buf X c i b H Hh) as (o & _ & _ & _ & _ & <- & _ & [? ? ? ? Hx]). by destruct (Hx HX) as (_ & _ & ?). Qed.

(** Block [b] has got the contents [v], on the disk too, and [k] fewer references. *)
Record writes (b : Z) (v : list Z) (k : Z) (c c' : bcache) : Prop := {
  w_pid : bc_mypid c' = bc_mypid c;
  w_view b' : bc_view c' b' = if decide (b' = b) then v else bc_view c b';
  w_disk : bc_disk c' = <[b := v]> (bc_disk c);
  w_refs b' : refs c' b' = if decide (b' = b) then refs c b - k else refs c b';
}.

(** Copy the held buffer of [src] over that of [dst], write it, release both. *)
Lemma copy_tail (unpin : bool) i j src dst c :
  okx [i; j] c → i ≠ j → holds c i src → holds c j dst → src ≠ dst → 0 ≤ dst < FSSIZE →
  (refs c src = 1 → bc_view c src = disk_get (bc_disk c) src) → (if unpin then 2 ≤ refs c dst else True) →
  ∃ c', (copy_buf j i ;; bwrite j ;; when unpin (bunpin j) ;; brelse i ;; brelse j) c = Ok (tt, c') ∧ okx [] c' ∧
    bc_mypid c' = bc_mypid c ∧ bc_disk c' = <[dst := bc_view c src]> (bc_disk c) ∧
    (∀ b, bc_view c' b = if decide (b = dst) then bc_view c src else bc_view c b) ∧
    (∀ b, refs c' b = if decide (b = dst) then refs c dst - 1 - (if unpin then 1 else 0)
                      else if decide (b = src) then refs c src - 1 else refs c b).
Proof.
  intros H Hij Hs Hd Hne Hb Hcl Hun.
  pose proof (held_refs _ c i src H ltac:(set_solver) Hs) as Hrs.
  pose proof (held_refs _ c j dst H ltac:(set_solver) Hd) as Hrd.
  destruct (holds_buf _ c i src H Hs) as (o & Hi & _ & _ & _ & _ & Ev & _).
  destruct (set_datax [i; j] c j dst (splice 0 (bc_view c src))) as (c1 & E1 & H1 & Hd1 & D1 & B1);
    [done|set_solver|done|by rewrite splice_all; erewrite !viewx_len|].
  rewrite splice_all in D1 by (by erewrite !viewx_len).
  assert (copy_buf j i c = Ok (tt, c1)) as E1' by (unfold copy_buf; erewrite bind_step by (by apply getb_ok); by rewrite Ev).
  destruct (bwritex [i; j] c1 j dst) as (c2 & E2 & H2 & Hd2 & D2 & B2); [done|set_solver|done|done|].
  assert (∃ c3, when unpin (bunpin j) c2 = Ok (tt, c3) ∧ okx [i; j] c3 ∧ holds c3 j dst ∧
    does dst (bc_view c src) (bc_view c src) (refs c dst - if unpin then 1 else 0) c2 c3 ∧ bc_disk c3 = bc_disk c2)
    as (c3 & E3 & H3 & Hd3 & D3 & B3).
  { pose proof (do_view _ _ _ _ _ _ D2) as V2. pose proof (do_disk _ _ _ _ _ _ D2) as K2.
    pose proof (do_refs _ _ _ _ _ _ D2) as R2. rewrite (do_view _ _ _ _ _ _ D1) in V2, K2.
    rewrite (do_refs _ _ _ _ _ _ D1) in R2. destruct unpin.
    - destruct (bunpinx [i; j] c2 j dst) as (c3 & E3 & H3 & Hd3 & D3 & B3); [done|set_solver|done|lia|].
      exists c3. split_and!; try done. by rewrite V2, K2, R2 in D3.
    - exists c2. split_and!; try done. split; [|done|done|lia]. by split. }
  assert (refs c1 src = refs c src) as Rs1 by (by rewrite (does_refs _ _ _ _ _ _ src D1), decide_False).
  assert (refs c2 src = refs c1 src) as Rs2 by (by rewrite (does_refs _ _ _ _ _ _ src D2), decide_False).
  pose proof (does_holds _ _ _ _ _ _ _ _ D1 Hne Hrs Hs) as Hs1. rewrite <-Rs1 in Hrs.
  pose proof (does_holds _ _ _ _ _ _ _ _ D2 Hne Hrs Hs1) as Hs2. rewrite <-Rs2 in Hrs.
  pose proof (does_holds _ _ _ _ _ _ _ _ D3 Hne Hrs Hs2) as Hs3.
  assert (∀ b', b' ≠ dst → refs c3 b' = refs c b' ∧ bc_view c3 b' = bc_view c b' ∧
    disk_get (bc_disk c3) b' = disk_get (bc_disk c) b') as Hoth.
  { intros b' Hb'. destruct (does_other _ _ _ _ _ _ b' D3 Hb') as (-> & -> & ->).
    destruct (does_other _ _ _ _ _ _ b' D2 Hb') as (-> & -> & ->). by apply (does_other _ _ _ _ _ _ b' D1). }
  destruct (Hoth src Hne) as (Rs & Vs & Ks).
  destruct (brelsex [j] c3 i src) as (c4 & E4 & H4 & D4 & B4); [done|set_solver|done|rewrite Rs, Vs, Ks; done|].
  assert (holds c4 j dst) as Hd4.
  { eapply does_holds; [exact D4|done| |done]. rewrite (do_refs _ _ _ _ _ _ D3). destruct unpin; lia. }
  assert (refs c4 dst = refs c dst - if unpin then 1 else 0) as R4
    by (rewrite (does_refs _ _ _ _ _ _ dst D4), decide_False by done; apply (do_refs _ _ _ _ _ _ D3)).
  assert (bc_view c4 dst = bc_view c src) as V4
    by (rewrite (does_view _ _ _ _ _ _ dst D4), decide_False by done; apply (do_view _ _ _ _ _ _ D3)).
  assert (disk_get (bc_disk c4) dst = bc_view c src) as K4
    by (rewrite (does_disk _ _ _ _ _ _ dst D4), decide_False by done; apply (do_disk _ _ _ _ _ _ D3)).
  destruct (brelsex [] c4 j dst) as (c5 & E5 & H5 & D5 & B5); [done|set_solver|done|congruence|].
  exists c5. split.
  { erewrite bind_step by exact E1'. erewrite bind_step by exact E2. erewrite bind_step by exact E3.
    by erewrite bind_step by exact E4. }
  split; [done|]. split; [|split; [|split]].
  - by rewrite (does_pid _ _ _ _ _ _ D5), (does_pid _ _ _ _ _ _ D4), (does_pid _ _ _ _ _ _ D3), (does_pid _ _ _ _ _ _ D2), (does_pid _ _ _ _ _ _ D1).
  - rewrite B5, B4, B3, B2, B1. by rewrite (do_view _ _ _ _ _ _ D1).
  - intros b. rewrite (does_view _ _ _ _ _ _ b D5), V4. destruct (decide (b = dst)) as [|Hbd]; [reflexivity|].
    rewrite (does_view _ _ _ _ _ _ b D4). destruct (decide (b = src)) as [->|]; [exact Vs|].
    apply (Hoth b Hbd).
  - intros b. rewrite (does_refs _ _ _ _ _ _ b D5), R4. destruct (decide (b = dst)) as [|Hbd]; [destruct unpin; lia|].
    rewrite (does_refs _ _ _ _ _ _ b D4). destruct (decide (b = src)) as [|]; [rewrite Rs; reflexivity|]. apply (Hoth b Hbd).
Qed.

Lemma in_hd {A} (x : A) l : x ∈ x :: l.
Proof. apply elem_of_cons. by left. Qed.
Lemma okx_bread i j c b b' : okx [] c → holds c i b → holds c j b' → b ≠ b' → i ≠ j.
Proof. intros H (o & Hi & _ & <- & _) (o' & Hj & _ & <- & _) Hne ->. congruence. Qed.

(** Two blocks read and held. *)
Lemma bread_two P c a b : okx [] c → uses_only P c → a ≠ b → 0 ≤ a < FSSIZE → 0 ≤ b < FSSIZE →
  refs c a ≠ 0 ∨ zlen P < NBUF → refs c b ≠ 0 ∨ zlen P + 1 < NBUF → refs c a < 2147483646 → refs c b < 2147483646 →
  ∃ i j c1 c2, bread ROOTDEV a c = Ok (i, c1) ∧ bread ROOTDEV b c1 = Ok (j, c2) ∧ i ≠ j ∧ okx [j; i] c2 ∧
    holds c2 i a ∧ holds c2 j b ∧ bc_mypid c2 = bc_mypid c ∧ bc_disk c2 = bc_disk c ∧
    (∀ x, bc_view c2 x = bc_view c x) ∧
    (∀ x, refs c2 x = if decide (x = b) then refs c b + 1 else if decide (x = a) then refs c a + 1 else refs c x).
Proof.
  intros H HP Hne Ha Hb Fa Fb Ra Rb.
  destruct (bread_held [] c P a) as (i & c1 & E1 & _ & H1 & Hh1 & U1 & D1 & B1); [done|done|done|set_solver|done|lia|].
  pose proof (does_other _ _ _ _ _ _ b D1 ltac:(congruence)) as (Rb1 & Vb1 & _).
  destruct (bread_held [i] c1 (a :: P) b) as (j & c2 & E2 & Hj & H2 & Hh2 & U2 & D2 & B2); [done|done|done| | |lia|].
  { intros k Hk (o & Ho & _ & Hob & _). assert (k = i) as -> by set_solver.
    destruct Hh1 as (o' & Ho' & _ & Hoa & _). congruence. }
  { rewrite Rb1. destruct Fb as [|Fb]; [by left|right]. unfold zlen in *. simpl. lia. }
  exists i, j, c1, c2. pose proof (held_refs [i] c1 i a H1 (in_hd i []) Hh1) as Hr1.
  split; [exact E1|]. split; [exact E2|]. split; [intros ->; by apply Hj, in_hd|]. split; [exact H2|].
  split; [by eapply (does_holds _ _ _ _ _ _ _ _ D2)|]. split; [exact Hh2|].
  split; [by rewrite (does_pid _ _ _ _ _ _ D2), (does_pid _ _ _ _ _ _ D1)|]. split; [congruence|]. split.
  - intros x. rewrite (does_view _ _ _ _ _ _ x D2), (does_view _ _ _ _ _ _ x D1).
    destruct (decide (x = b)) as [->|]; [done|]. by destruct (decide (x = a)) as [->|].
  - intros x. rewrite (does_refs _ _ _ _ _ _ x D2), (does_refs _ _ _ _ _ _ x D1), Rb1.
    destruct (decide (x = b)); [reflexivity|]. destruct (decide (x = a)); reflexivity.
Qed.

Lemma install_copy (unpin : bool) P c src dst : okx [] c → uses_only P c → src ≠ dst →
  0 ≤ src < FSSIZE → 0 ≤ dst < FSSIZE → refs c src = 0 → zlen P < NBUF →
  (if unpin then 1 ≤ refs c dst < 2147483646 else refs c dst = 0 ∧ zlen P + 1 < NBUF) →
  ∃ i j c1 c2 c', bread ROOTDEV src c = Ok (i, c1) ∧ bread ROOTDEV dst c1 = Ok (j, c2) ∧
    (copy_buf j i ;; bwrite j ;; when unpin (bunpin j) ;; brelse i ;; brelse j) c2 = Ok (tt, c') ∧
    okx [] c' ∧ writes dst (bc_view c src) (if unpin then 1 else 0) c c'.
Proof.
  intros H HP Hne Hs Hd Rs HPl Hun.
  destruct (bread_two P c src dst) as (i & j & c1 & c2 & E1 & E2 & Hij & H2 & Hi & Hj & Epid & Ed & Ev & Er);
    [done|done|done|done|done|by right|destruct unpin; [left; lia|right; lia]|lia|destruct unpin; lia|].
  destruct (copy_tail unpin i j src dst c2) as (c' & E & H' & Ep' & Ed' & Ev' & Er'); try done.
  - eapply okx_ext; [|exact H2]. set_solver.
  - intros _. rewrite Ev, Ed. by eapply clean0.
  - destruct unpin; [|done]. rewrite (Er dst), decide_True by done. lia.
  - exists i, j, c1, c2, c'. split_and!; [exact E1|exact E2|exact E|exact H'|]. split.
    + congruence.
    + intros b. rewrite Ev'. rewrite Ev. by destruct (decide (b = dst)).
    + by rewrite Ed', Ev, Ed.
    + intros b. rewrite Er', (Er b), (Er dst), (Er src), (decide_True (P := dst = dst)) by done.
      destruct (decide (b = dst)); [destruct unpin; lia|].
      rewrite (decide_False (P := src = dst)) by done. rewrite (decide_True (P := src = src)) by done.
      destruct (decide (b = src)) as [->|]; [lia|done].
Qed.

Lemma log_copy P c src dst : okx [] c → uses_only P c → src ≠ dst →
  0 ≤ src < FSSIZE → 0 ≤ dst < FSSIZE → refs c dst = 0 → zlen P < NBUF → 1 ≤ refs c src < 2147483646 →
  ∃ i j c1 c2 c', bread ROOTDEV dst c = Ok (j, c1) ∧ bread ROOTDEV src c1 = Ok (i, c2) ∧
    (copy_buf j i ;; bwrite j ;; brelse i ;; brelse j) c2 = Ok (tt, c') ∧
    okx [] c' ∧ writes dst (bc_view c src) 0 c c'.
Proof.
  intros H HP Hne Hs Hd Rd HPl Hrs.
  destruct (bread_two P c dst src) as (j & i & c1 & c2 & E1 & E2 & Hij & H2 & Hj & Hi & Epid & Ed & Ev & Er);
    [done|done|done|done|done|by right|left; lia|lia|lia|].
  destruct (copy_tail false i j src dst c2) as (c' & E & H' & Ep' & Ed' & Ev' & Er'); try done.
  - rewrite (Er src), decide_True by done. lia.
  - exists i, j, c1, c2, c'. split_and!; [exact E1|exact E2|exact E|exact H'|]. split.
    + congruence.
    + intros b. rewrite Ev'. rewrite Ev. by destruct (decide (b = dst)).
    + by rewrite Ed', Ev, Ed.
    + intros b. rewrite Er', (Er b), (Er dst), (Er src), (decide_True (P := src = src)), (decide_False (P := dst = src)) by done.
      rewrite (decide_True (P := dst = dst)) by done.
      destruct (decide (b = dst)); [lia|]. destruct (decide (b = src)) as [->|]; [lia|done].
Qed.

Lemma does_trans b v d r v' d' r' c c1 c2 : does b v d r c c1 → does b v' d' r' c1 c2 → does b v' d' r' c c2.
Proof.
  intros [[] ? ? ?] [[S1 S2 S3 S4 S5] ? ? ?]. split; [|done..]. split; [congruence|..].
  - intros b' Hb. rewrite S2 by done. auto.
  - intros b' Hb. rewrite S3 by done. auto.
  - intros b' Hb. rewrite S4 by done. auto.
  - intros j b' Hb Hr Hh. apply S5; [done| |by auto]. rewrite sb_refs by done. exact Hr.
Qed.
Lemma does_writes b v r c c' : does b v v r c c' → bc_disk c' = <[b := v]> (bc_disk c) → writes b v (refs c b - r) c c'.
Proof.
  intros D E. split; [by eapply does_pid|intros; by eapply does_view|done|].
  intros b'. rewrite (does_refs _ _ _ _ _ _ b' D). destruct (decide (b' = b)); [lia|reflexivity].
Qed.
End blocks.

(** ** The header block *)


Lemma i32_le4 v : i32 (le_val (le_of 4 v)) = i32 v.
Proof.
  rewrite le_val_of. change (256 ^ Z.of_nat 4) with (2 ^ 32). unfold swrap. f_equal.
  by rewrite Zplus_mod_idemp_l.
Qed.
Lemma zlen_le_of4 v : zlen (le_of 4 v) = 4.
Proof. unfold zlen. by rewrite length_le_of. Qed.
Lemma get_put_eq off v d : 0 ≤ off → off + 4 ≤ BSIZE → zlen d = BSIZE →
  get_int (splice off (le_of 4 v) d) off = Some (i32 v).
Proof.
  intros H1 H2 H3. unfold get_int. assert ((0 <=? off) && (off + 4 <=? BSIZE) = true) as -> by lia.
  rewrite <-(zlen_le_of4 v) at 1. rewrite sub_splice_eq by (rewrite ?zlen_le_of4; lia). by rewrite i32_le4.
Qed.
Lemma get_put_ne off off' v d : 0 ≤ off → off + 4 ≤ BSIZE → zlen d = BSIZE → 0 ≤ off' →
  off' + 4 ≤ off ∨ off + 4 ≤ off' → get_int (splice off (le_of 4 v) d) off' = get_int d off'.
Proof.
  intros H1 H2 H3 H4 H5. unfold get_int. destruct ((0 <=? off') && (off' + 4 <=? BSIZE)) eqn:E; [|done].
  do 2 f_equal. f_equal. apply sub_splice_ne; rewrite ?zlen_le_of4; lia.
Qed.

(** Block [d] is a log header for the blocks [P]. *)
Definition is_header (d : list Z) (P : list Z) : Prop :=
  zlen d = BSIZE ∧ get_int d 0 = Some (zlen P) ∧
  ∀ i b, znth P i = Some b → get_int d (4 + 4 * i) = Some b.

Section header.
Implicit Types (c : bcache) (s : logst).

Lemma store_intx X c i b off v : okx X c → i ∈ X → holds c i b → 0 ≤ off → off + 4 ≤ BSIZE →
  ∃ c', store_int i off v c = Ok (tt, c') ∧ okx X c' ∧ holds c' i b ∧
    does b (splice off (le_of 4 v) (bc_view c b)) (disk_get (bc_disk c) b) (refs c b) c c' ∧ bc_disk c' = bc_disk c.
Proof.
  intros H HX Hh H1 H2. pose proof (viewx_len X c b H) as Hlen.
  destruct (set_datax X c i b (λ _, splice off (le_of 4 v) (bc_view c b))) as (c' & E & H' & Hh' & D & B);
    [done|done|done|rewrite zlen_splice; rewrite ?zlen_le_of4; lia|].
  exists c'. split; [|done]. destruct (holds_buf X c i b H Hh) as (o & Hi & _ & _ & _ & _ & Ev & _).
  unfold store_int. erewrite bind_step by (by apply getb_ok). unfold put_int.
  assert ((0 <=? off) && (off + 4 <=? BSIZE) = true) as -> by lia. rewrite Ev. exact E.
Qed.

Lemma lift_bc_ok {A} (m : C A) s a c' : m (l_bc s) = Ok (a, c') → lift_bc m s = Ok (a, s <| l_bc := c' |>).
Proof. unfold lift_bc. by intros ->. Qed.

(** The loop that stores the block numbers. *)
Lemma store_loop buf st n s c0 : okx [buf] (l_bc s) → holds (l_bc s) buf st →
  0 ≤ n ≤ LOGBLOCKS → zlen (lh_block s) = LOGBLOCKS → bc_disk (l_bc s) = bc_disk c0 →
  does st (bc_view (l_bc s) st) (disk_get (bc_disk c0) st) (refs c0 st + 1) c0 (l_bc s) →
  ∃ c', for_each (λ i, b ← get_block i; lift_bc (store_int buf (4 + 4 * i) b)) (upto n) s = Ok (tt, s <| l_bc := c' |>) ∧
    okx [buf] c' ∧ holds c' buf st ∧ bc_disk c' = bc_disk c0 ∧
    does st (bc_view c' st) (disk_get (bc_disk c0) st) (refs c0 st + 1) c0 c' ∧
    get_int (bc_view c' st) 0 = get_int (bc_view (l_bc s) st) 0 ∧
    ∀ i, 0 ≤ i < n → get_int (bc_view c' st) (4 + 4 * i) = i32 <$> znth (lh_block s) i.
Proof.
  intros H Hh Hn Hlen HB HD. destruct Hn as [Hn Hle]. revert Hle.
  pattern n. apply natlike_ind; [..|exact Hn]; clear n Hn.
  - intros _. exists (l_bc s). split_and!; try done; [by destruct s|]. intros i Hi. lia.
  - intros n Hn IH Hle. destruct IH as (c1 & E1 & H1 & Hh1 & B1 & D1 & G0 & G1); [lia|].
    change (Z.succ n) with (n + 1). rewrite upto_S by done.
    destruct (znth_lt (lh_block s) n) as [b Hb]; [lia|]. pose proof (viewx_len _ c1 st H1) as Hv1.
    destruct (store_intx [buf] c1 buf st (4 + 4 * n) b) as (c2 & E2 & H2 & Hh2 & D2 & B2); [done|apply in_hd|done|lia|lia|].
    exists c2. rewrite for_each_app. erewrite bind_step by exact E1. split.
    { cbn [for_each]. erewrite bind_step; [reflexivity|]. unfold get_block. rewrite bind_assoc.
      erewrite bind_step by reflexivity. simpl. erewrite bind_step by (by apply opt_ok). by erewrite lift_bc_ok by exact E2. }
    split; [exact H2|]. split; [exact Hh2|]. split; [congruence|].
    pose proof (do_view _ _ _ _ _ _ D2) as V2.
    split; [|split].
    + rewrite (do_refs _ _ _ _ _ _ D1), B1 in D2. rewrite <-V2 in D2. eapply does_trans; [exact D1|exact D2].
    + rewrite V2, get_put_ne by lia. exact G0.
    + intros i Hi. rewrite V2. destruct (decide (i = n)) as [->|].
      * rewrite get_put_eq by lia. by rewrite Hb.
      * rewrite get_put_ne by lia. apply G1. lia.
Qed.

(** Where the log is, and that a block is in it. *)
Record log_wf s : Prop := {
  lw_dev : l_dev s = ROOTDEV;
  lw_start : 0 ≤ l_start s ∧ l_start s + LOGBLOCKS < FSSIZE;
  lw_len : zlen (lh_block s) = LOGBLOCKS;
}.
Definition in_log s (b : Z) : Prop := l_start s ≤ b ≤ l_start s + LOGBLOCKS.

(** The header in memory lists the blocks [P], all outside the log. *)
Record lists s (P : list Z) : Prop := {
  li_n : lh_n s = zlen P;
  li_blocks i b : znth P i = Some b → znth (lh_block s) i = Some b;
  li_nodup : NoDup P;
  li_home b : b ∈ P → 0 ≤ b < FSSIZE ∧ ¬ in_log s b;
  li_len : zlen P < NBUF;
}.

Lemma znth_elem (P : list Z) i b : znth P i = Some b → b ∈ P.
Proof. unfold znth. destruct (0 <=? i); [|done]. apply list_elem_of_lookup_2. Qed.
Lemma elem_znth (P : list Z) b : b ∈ P → ∃ i, znth P i = Some b.
Proof. intros [i Hi]%list_elem_of_lookup. exists (Z.of_nat i). by rewrite znth_nat. Qed.

Lemma write_head_ok s P Q : log_wf s → lists s P → okx [] (l_bc s) → uses_only Q (l_bc s) → zlen Q < NBUF →
  refs (l_bc s) (l_start s) = 0 →
  ∃ c' d, write_head s = Ok (tt, s <| l_bc := c' |>) ∧ okx [] c' ∧ writes (l_start s) d 0 (l_bc s) c' ∧ is_header d P.
Proof.
  intros [Hdev [Hs0 Hs1] Hlen] [Hn Hbl _ Hhome HPl] H HQ HQl Hr. set (st := l_start s) in *.
  destruct (bread_held [] (l_bc s) Q st) as (buf & c1 & E1 & _ & H1 & Hh1 & _ & D1 & B1); [done|done|lia|set_solver|by right|lia|].
  destruct (store_intx [buf] c1 buf st 0 (lh_n s)) as (c2 & E2 & H2 & Hh2 & D2 & B2); [done|apply in_hd|done|lia|lia|].
  pose proof (zlen_nonneg P) as HP0. pose proof (do_view _ _ _ _ _ _ D2) as V2.
  pose proof (viewx_len _ c1 st H1) as Hv1.
  destruct (store_loop buf st (lh_n s) (s <| l_bc := c2 |>) (l_bc s)) as (c3 & E3 & H3 & Hh3 & B3 & D3 & G0 & G1);
    [done|done|lia|done|simpl; congruence| |].
  { simpl. rewrite V2. eapply does_trans; [exact D1|]. rewrite (do_refs _ _ _ _ _ _ D1), B1 in D2. exact D2. }
  destruct (bwritex [buf] c3 buf st) as (c4 & E4 & H4 & Hh4 & D4 & B4); [done|apply in_hd|done|lia|].
  destruct (brelsex [] c4 buf st) as (c5 & E5 & H5 & D5 & B5); [done|set_solver|done| |].
  { intros _. by rewrite (do_view _ _ _ _ _ _ D4), (do_disk _ _ _ _ _ _ D4). }
  exists c5, (bc_view c3 st). split; [|split; [exact H5|split]].
  - unfold write_head. mget (l_dev s). mget (l_start s). rewrite Hdev. fold st. rewrite wrap_id by lia.
    erewrite bind_step by (apply lift_bc_ok; exact E1). mget (lh_n s).
    erewrite bind_step by (apply lift_bc_ok; exact E2). erewrite bind_step by exact E3.
    erewrite bind_step by (apply lift_bc_ok; exact E4). by erewrite lift_bc_ok by exact E5.
  - pose proof (do_view _ _ _ _ _ _ D4) as V4. pose proof (do_disk _ _ _ _ _ _ D4) as K4.
    rewrite V4, K4, (do_refs _ _ _ _ _ _ D4), (do_refs _ _ _ _ _ _ D3) in D5.
    assert (does st (bc_view c3 st) (bc_view c3 st) (refs (l_bc s) st + 1 - 1) (l_bc s) c5) as D
      by (eapply does_trans; [exact D3|]; eapply does_trans; [exact D4|exact D5]).
    apply does_writes in D; [|congruence]. by replace (refs (l_bc s) st - _) with 0 in D by lia.
  - split; [by eapply viewx_len|]. split.
    + rewrite G0. simpl. rewrite V2, get_put_eq by lia. by rewrite Hn, i32_id by lia.
    + intros i b Hb. pose proof (znth_Some _ _ _ Hb) as Hi. rewrite G1 by lia. simpl. rewrite (Hbl _ _ Hb). simpl.
      destruct (Hhome b) as [? _]; [by eapply znth_elem|]. by rewrite i32_id by lia.
Qed.

Lemma read_loop st d P n s : is_header d P → 0 ≤ n ≤ zlen P → zlen P ≤ LOGBLOCKS → zlen (lh_block s) = LOGBLOCKS →
  st = s →
  ∃ bl, for_each (λ i, b ← opt (get_int d (4 + 4 * i)); set_block i b) (upto n) st = Ok (tt, s <| lh_block := bl |>) ∧
    zlen bl = LOGBLOCKS ∧ ∀ i b, i < n → znth P i = Some b → znth bl i = Some b.
Proof.
  intros (Hd & _ & Hbl) [Hn Hle] HPl Hlen ->. revert Hle. pattern n. apply natlike_ind; [..|exact Hn]; clear n Hn.
  - intros _. exists (lh_block s). split_and!; [by destruct s|done|]. intros i b Hi Hb%znth_Some. lia.
  - intros n Hn IH Hle. destruct IH as (bl & E & Hl & Hb); [lia|].
    change (Z.succ n) with (n + 1). rewrite upto_S by done. destruct (znth_lt P n) as [b Hbn]; [lia|].
    destruct (znth_lt bl n) as [x Hx]; [lia|].
    exists (zset bl n b). rewrite for_each_app. erewrite bind_step by exact E. split_and!.
    + cbn [for_each]. erewrite bind_step; [reflexivity|]. erewrite bind_step by (by apply opt_ok, Hbl).
      unfold set_block. erewrite bind_step by reflexivity. simpl. by rewrite Hx.
    + by rewrite zlen_zset.
    + intros i b' Hi Hb'. destruct (decide (i = n)) as [->|].
      * rewrite Hbn in Hb'. injection Hb' as ->. apply znth_zset_eq. lia.
      * rewrite znth_zset_ne by lia. apply Hb; [lia|done].
Qed.

Lemma read_head_ok s P : log_wf s → okx [] (l_bc s) → uses_only [] (l_bc s) →
  is_header (bc_view (l_bc s) (l_start s)) P → zlen P ≤ LOGBLOCKS →
  ∃ c' bl, read_head s = Ok (tt, s <| l_bc := c' |> <| lh_n := zlen P |> <| lh_block := bl |>) ∧ okx [] c' ∧
    zlen bl = LOGBLOCKS ∧ (∀ i b, znth P i = Some b → znth bl i = Some b) ∧
    bc_disk c' = bc_disk (l_bc s) ∧ bc_mypid c' = bc_mypid (l_bc s) ∧
    (∀ b, bc_view c' b = bc_view (l_bc s) b) ∧ (∀ b, refs c' b = refs (l_bc s) b).
Proof.
  intros [Hdev [Hs0 Hs1] Hlen] H HQ Hhd HPl. set (st := l_start s) in *.
  assert (refs (l_bc s) st = 0) as Hr by (destruct (decide (refs (l_bc s) st = 0)) as [|Hr]; [done|]; apply HQ in Hr; set_solver).
  destruct (bread_held [] (l_bc s) [] st) as (buf & c1 & E1 & _ & H1 & Hh1 & _ & D1 & B1);
    [done|done|lia|set_solver|right; unfold zlen; simpl; lia|lia|].
  destruct (holds_buf _ c1 buf st H1 Hh1) as (o & Hi & _ & _ & _ & _ & Ev & _).
  rewrite (do_view _ _ _ _ _ _ D1) in Ev.
  destruct (brelsex [] c1 buf st) as (c2 & E2 & H2 & D2 & B2); [done|set_solver|done| |].
  { intros _. rewrite (do_view _ _ _ _ _ _ D1), (do_disk _ _ _ _ _ _ D1). by eapply clean0. }
  pose proof (zlen_nonneg P).
  destruct (read_loop (s <| l_bc := c1 |> <| lh_n := zlen P |>) (bc_view (l_bc s) st) P (zlen P)
    (s <| l_bc := c1 |> <| lh_n := zlen P |>)) as (bl & E & Hbl & Hbs); [done|lia|done|done|done|].
  exists c2, bl. split.
  { unfold read_head. mget (l_dev s). mget (l_start s). rewrite Hdev. fold st. rewrite wrap_id by lia.
    erewrite bind_step by (apply lift_bc_ok; exact E1).
    erewrite bind_step by (apply lift_bc_ok; by apply getb_ok). rewrite Ev.
    erewrite bind_step by (apply opt_ok, Hhd). erewrite bind_step by reflexivity.
    erewrite bind_step by exact E. by erewrite lift_bc_ok by exact E2. }
  rewrite (do_view _ _ _ _ _ _ D1), (do_disk _ _ _ _ _ _ D1), (do_refs _ _ _ _ _ _ D1) in D2.
  pose proof (does_trans _ _ _ _ _ _ _ _ _ _ D1 D2) as D.
  split_and!; [exact H2|exact Hbl| |congruence|by eapply does_pid| |].
  - intros i b Hb. apply Hbs; [|done]. apply znth_Some in Hb. lia.
  - intros b. rewrite (does_view _ _ _ _ _ _ b D). by destruct (decide (b = st)) as [->|].
  - intros b. rewrite (does_refs _ _ _ _ _ _ b D). destruct (decide (b = st)) as [->|]; [lia|reflexivity].
Qed.

(** ** One block of a transaction *)

(** The block of the log that holds entry [k]. *)
Definition log_block s (k : Z) : Z := l_start s + k + 1.

Lemma log_block_in s P k b : log_wf s → lists s P → znth P k = Some b →
  in_log s (log_block s k) ∧ 0 ≤ log_block s k < FSSIZE ∧ log_block s k ≠ b ∧ log_block s k ≠ l_start s ∧
  0 ≤ b < FSSIZE ∧ b ≠ l_start s ∧ 0 ≤ k < zlen P.
Proof.
  intros [_ [] _] [_ _ _ Hh HPl] Hk. pose proof (znth_Some _ _ _ Hk). pose proof (Hh b (znth_elem _ _ _ Hk)) as [? Hn].
  unfold in_log, log_block in *. split_and!; lia.
Qed.

Lemma write_log1_ok s P k b : log_wf s → lists s P → okx [] (l_bc s) → uses_only P (l_bc s) →
  (∀ b, b ∈ P → refs (l_bc s) b = 1) → znth P k = Some b →
  ∃ c', write_log1 k s = Ok (tt, s <| l_bc := c' |>) ∧ okx [] c' ∧
    writes (log_block s k) (bc_view (l_bc s) b) 0 (l_bc s) c'.
Proof.
  intros Hwf Hli H HP Hpin Hk. destruct (log_block_in s P k b Hwf Hli Hk) as (Hin & Hlb & Hne & _ & Hb & _).
  pose proof (Hpin b (znth_elem _ _ _ Hk)) as Hr. pose proof (li_home _ _ Hli) as Hhome.
  destruct (log_copy P (l_bc s) b (log_block s k)) as (i & j & c1 & c2 & c' & E1 & E2 & E & H' & Hw);
    [done|done|congruence|done|done| |apply Hli|lia|].
  { destruct (decide (refs (l_bc s) (log_block s k) = 0)) as [|Hnz]; [assumption|].
    apply HP, Hhome in Hnz as [_ []]. exact Hin. }
  exists c'. split; [|done]. unfold write_log1. mget (l_dev s). mget (l_start s). rewrite (lw_dev _ Hwf).
  unfold log_block in *. rewrite wrap_id by lia. erewrite bind_step by (apply lift_bc_ok; exact E1).
  unfold get_block. rewrite bind_assoc. erewrite bind_step by reflexivity.
  erewrite bind_step by (apply opt_ok; by apply Hli). rewrite wrap_id by lia.
  erewrite bind_step by (apply lift_bc_ok; exact E2). by erewrite lift_bc_ok by exact E.
Qed.

Lemma install1_ok (rec : bool) Q s P k b : log_wf s → lists s P → okx [] (l_bc s) → uses_only Q (l_bc s) →
  zlen Q < NBUF → (∀ b, in_log s b → b ∉ Q) →
  (if rec then zlen Q = 0 else refs (l_bc s) b = 1) → znth P k = Some b →
  ∃ c', install1 rec k s = Ok (tt, s <| l_bc := c' |>) ∧ okx [] c' ∧
    writes b (bc_view (l_bc s) (log_block s k)) (if rec then 0 else 1) (l_bc s) c'.
Proof.
  intros Hwf Hli H HQ HQl Hlog Hrec Hk. destruct (log_block_in s P k b Hwf Hli Hk) as (Hin & Hlb & Hne & _ & Hb & _).
  assert (refs (l_bc s) (log_block s k) = 0) as Hr0.
  { destruct (decide (refs (l_bc s) (log_block s k) = 0)) as [|Hnz]; [assumption|]. destruct (Hlog _ Hin (HQ _ Hnz)). }
  destruct (install_copy (negb rec) Q (l_bc s) (log_block s k) b) as (i & j & c1 & c2 & c' & E1 & E2 & E & H' & Hw);
    [done|done|congruence|done|done|done|done| |].
  { destruct rec; simpl; [|lia]. split; [|lia].
    destruct (decide (refs (l_bc s) b = 0)) as [|Hnz%HQ]; [assumption|]. destruct Q; [inversion Hnz|].
    unfold zlen in Hrec. simpl in Hrec. lia. }
  exists c'. split; [|split; [done|by destruct rec]].
  unfold install1. mget (l_dev s). mget (l_start s). rewrite (lw_dev _ Hwf).
  unfold log_block in *. rewrite wrap_id by lia. erewrite bind_step by (apply lift_bc_ok; exact E1).
  unfold get_block. rewrite bind_assoc. erewrite bind_step by reflexivity.
  erewrite bind_step by (apply opt_ok; by apply Hli). rewrite wrap_id by lia.
  erewrite bind_step by (apply lift_bc_ok; exact E2). by erewrite lift_bc_ok by exact E.
Qed.

(** ** The loops *)

Lemma lists_bc s P c : lists s P → lists (s <| l_bc := c |>) P.
Proof. intros []. by split. Qed.
Lemma log_wf_bc s c : log_wf s → log_wf (s <| l_bc := c |>).
Proof. intros []. by split. Qed.

(** The cache [c'] is [c] with the first [k] blocks of [W] holding the contents
    [v], on the disk too, each with [r] fewer references. *)
Record wrote (W : Z → option Z) (v : Z → list Z) (r k : Z) (c c' : bcache) : Prop := {
  wr_ok : okx [] c';
  wr_pid : bc_mypid c' = bc_mypid c;
  wr_new j b : 0 ≤ j < k → W j = Some b →
    bc_view c' b = v j ∧ disk_get (bc_disk c') b = v j ∧ refs c' b = refs c b - r;
  wr_old b : (∀ j, 0 ≤ j < k → W j ≠ Some b) →
    bc_view c' b = bc_view c b ∧ disk_get (bc_disk c') b = disk_get (bc_disk c) b ∧ refs c' b = refs c b;
}.

Lemma wrote_0 W v r c : okx [] c → wrote W v r 0 c c.
Proof. intros H. split; [done|done|lia|done]. Qed.

#[local] Transparent disk_get.
Lemma writes_disk b v k c c' b' : writes b v k c c' →
  disk_get (bc_disk c') b' = if decide (b' = b) then v else disk_get (bc_disk c) b'.
Proof. intros [_ _ -> _]. apply disk_get_insert. Qed.
#[local] Opaque disk_get.

Lemma wrote_S W v r k c c1 c2 b : 0 ≤ k → W k = Some b → (∀ j, 0 ≤ j < k → W j ≠ Some b) →
  wrote W v r k c c1 → okx [] c2 → writes b (v k) r c1 c2 → wrote W v r (k + 1) c c2.
Proof.
  intros Hk Hb Hinj [H1 P1 N1 O1] H2 Hw. destruct (O1 b Hinj) as (_ & _ & Rb). split; [done| | |].
  - by rewrite (w_pid _ _ _ _ _ Hw).
  - intros j b' Hj Hb'. rewrite (w_view _ _ _ _ _ Hw), (writes_disk _ _ _ _ _ b' Hw), (w_refs _ _ _ _ _ Hw).
    destruct (decide (j = k)) as [->|Hjk].
    + assert (b' = b) as -> by congruence. destruct (decide (b = b)) as [_|[]]; [|reflexivity]. rewrite Rb. done.
    + destruct (decide (b' = b)) as [->|]; [destruct (Hinj j); [lia|done]|]. apply N1; [lia|done].
  - intros b' Hb'. rewrite (w_view _ _ _ _ _ Hw), (writes_disk _ _ _ _ _ b' Hw), (w_refs _ _ _ _ _ Hw).
    destruct (decide (b' = b)) as [->|]; [destruct (Hb' k); [lia|done]|]. apply O1. intros j Hj. apply Hb'. lia.
Qed.

(** Entry [k] of the log. *)
Definition log_entry s (k : Z) : option Z := Some (log_block s k).

Lemma log_blocks_ne s j k : j ≠ k → log_entry s j ≠ Some (log_block s k).
Proof. unfold log_entry, log_block. intros ? [=]. lia. Qed.

Lemma home_not_entry s P b : log_wf s → lists s P → b ∈ P → ∀ j, 0 ≤ j < zlen P → log_entry s j ≠ Some b.
Proof.
  intros Hwf Hli Hb j Hj [= <-]. destruct (li_home _ _ Hli _ Hb) as [_ []]. pose proof (li_len _ _ Hli).
  unfold in_log, log_block. lia.
Qed.

(** [write_log], run for the first [k] entries. *)
Lemma write_log_loop s P k : log_wf s → lists s P → okx [] (l_bc s) → uses_only P (l_bc s) →
  (∀ b, b ∈ P → refs (l_bc s) b = 1) → 0 ≤ k ≤ zlen P →
  ∃ c', for_each write_log1 (upto k) s = Ok (tt, s <| l_bc := c' |>) ∧
    wrote (log_entry s) (λ j, bc_view (l_bc s) (default 0 (znth P j))) 0 k (l_bc s) c'.
Proof.
  intros Hwf Hli H HP Hpin [Hk Hle]. revert Hle. pattern k. apply natlike_ind; [..|exact Hk]; clear k Hk.
  - intros _. exists (l_bc s). split; [by destruct s|by apply wrote_0].
  - intros k Hk IH Hle. change (Z.succ k) with (k + 1) in *. destruct IH as (c1 & E1 & W1); [lia|].
    destruct (znth_lt P k) as [b Hb]; [lia|]. rewrite upto_S, for_each_app by done.
    assert (∀ x, refs c1 x = refs (l_bc s) x) as Hrefs.
    { intros x. destruct (decide (log_block s 0 ≤ x < log_block s k)) as [Hx|Hx].
      - destruct (wr_new _ _ _ _ _ _ W1 (x - l_start s - 1) x) as (_ & _ & ->);
          [unfold log_block in Hx; lia|unfold log_entry, log_block; f_equal; lia|lia].
      - apply (wr_old _ _ _ _ _ _ W1). intros j Hj [= <-]. apply Hx. unfold log_block. lia. }
    assert (bc_view c1 b = bc_view (l_bc s) b) as Hvb.
    { apply (wr_old _ _ _ _ _ _ W1). intros j Hj. eapply home_not_entry; [done|done|by eapply znth_elem|lia]. }
    destruct (write_log1_ok (s <| l_bc := c1 |>) P k b) as (c2 & E2 & H2 & Hw2);
      [by apply log_wf_bc|by apply lists_bc|apply W1|intros x; simpl; rewrite Hrefs; apply HP|intros x; simpl; rewrite Hrefs; apply Hpin|done|].
    exists c2. erewrite bind_step by exact E1. split; [cbn [for_each]; by erewrite bind_step by exact E2|].
    eapply (wrote_S _ _ _ _ _ c1 c2 (log_block s k)); [done|done| |done|done|].
    + intros j Hj. apply log_blocks_ne. lia.
    + rewrite Hb. simpl. rewrite <-Hvb. exact Hw2.
Qed.

(** [install_trans], run for the first [k] entries. *)
Lemma install_loop (rec : bool) s P k : log_wf s → lists s P → okx [] (l_bc s) →
  uses_only (if rec then [] else P) (l_bc s) →
  (∀ b, b ∈ P → refs (l_bc s) b = if rec then 0 else 1) → 0 ≤ k ≤ zlen P →
  ∃ c', for_each (install1 rec) (upto k) s = Ok (tt, s <| l_bc := c' |>) ∧
    wrote (znth P) (λ j, bc_view (l_bc s) (log_block s j)) (if rec then 0 else 1) k (l_bc s) c'.
Proof.
  intros Hwf Hli H HP Hpin [Hk Hle]. revert Hle. pattern k. apply natlike_ind; [..|exact Hk]; clear k Hk.
  - intros _. exists (l_bc s). split; [by destruct s|by apply wrote_0].
  - intros k Hk IH Hle. change (Z.succ k) with (k + 1) in *. destruct IH as (c1 & E1 & W1); [lia|].
    destruct (znth_lt P k) as [b Hb]; [lia|]. rewrite upto_S, for_each_app by done.
    assert (∀ j, 0 ≤ j < k → znth P j ≠ Some b) as Hinj.
    { intros j Hj Hjb. pose proof (li_nodup _ _ Hli) as Hnd. rewrite NoDup_alt in Hnd. unfold znth in Hb, Hjb.
      destruct (Z.leb_spec 0 k), (Z.leb_spec 0 j); try lia. specialize (Hnd _ _ _ Hb Hjb). lia. }
    assert (∀ x, refs c1 x ≠ 0 → refs (l_bc s) x ≠ 0) as Hrefs.
    { intros x Hx. destruct (decide (Exists (λ j, znth P j = Some x) (upto k))) as [Hj|Hno].
      - apply Exists_exists in Hj as (j & Hj%elem_of_upto & Hjx).
        rewrite (Hpin x) by (by eapply znth_elem). destruct (wr_new _ _ _ _ _ _ W1 j x) as (_ & _ & E); [done|done|].
        rewrite E, (Hpin x) in Hx by (by eapply znth_elem). destruct rec; lia.
      - destruct (wr_old _ _ _ _ _ _ W1 x) as (_ & _ & <-); [|done].
        intros j Hj Hjx. apply Hno, Exists_exists. exists j. split; [by apply elem_of_upto|done]. }
    pose proof (li_len _ _ Hli) as HPl. destruct (wr_old _ _ _ _ _ _ W1 b Hinj) as (_ & _ & Rb).
    pose proof (log_block_in s P k b Hwf Hli Hb) as (Hin & _).
    destruct (install1_ok rec (if rec then [] else P) (s <| l_bc := c1 |>) P k b) as (c2 & E2 & H2 & Hw2);
      [by apply log_wf_bc|by apply lists_bc|apply W1|intros x Hx; apply HP, Hrefs, Hx|
       destruct rec; [unfold zlen; simpl; lia|done]| |destruct rec; [done|simpl; rewrite Rb; by apply Hpin, (znth_elem _ k)]|done|].
    { intros x Hx. destruct rec; [set_solver|]. intros Hin'. by destruct (li_home _ _ Hli _ Hin') as [_ []]. }
    exists c2. erewrite bind_step by exact E1. split; [cbn [for_each]; by erewrite bind_step by exact E2|].
    eapply (wrote_S _ _ _ _ _ c1 c2 b); [done|done|done|done|done|].
    simpl in Hw2. destruct (wr_old _ _ _ _ _ _ W1 (log_block s k)) as (<- & _); [|exact Hw2].
    intros j Hj Hjb. apply znth_elem in Hjb. by destruct (li_home _ _ Hli _ Hjb) as [_ []].
Qed.

(** ** Recovery *)

(** What recovery needs of the list in the header. *)
Record listable s (P : list Z) : Prop := {
  la_nodup : NoDup P;
  la_home b : b ∈ P → 0 ≤ b < FSSIZE ∧ ¬ in_log s b;
  la_len : zlen P < NBUF;
}.

Lemma recover_ok s P : log_wf s → okx [] (l_bc s) → (∀ b, refs (l_bc s) b = 0) →
  is_header (bc_view (l_bc s) (l_start s)) P → listable s P →
  ∃ s', recover_from_log s = Ok (tt, s') ∧ okx [] (l_bc s') ∧
    (∀ j b, znth P j = Some b → bc_view (l_bc s') b = bc_view (l_bc s) (log_block s j)) ∧
    (∀ b, b ∉ P → b ≠ l_start s → bc_view (l_bc s') b = bc_view (l_bc s) b) ∧
    is_header (bc_view (l_bc s') (l_start s)) [].
Proof.
  intros Hwf H Hr Hhd [Hnd Hhome HPl]. assert (uses_only [] (l_bc s)) as HU by (intros b Hb; by destruct Hb).
  destruct (read_head_ok s P) as (c1 & bl & E1 & H1 & Hbl & Hbs & B1 & Hp1 & V1 & R1); [done|done|done|done|lia|].
  set (s1 := s <| l_bc := c1 |> <| lh_n := zlen P |> <| lh_block := bl |>) in *.
  assert (log_wf s1) as Hwf1 by (destruct Hwf; by split).
  assert (lists s1 P) as Hli1 by (by split).
  pose proof (zlen_nonneg P) as HP0.
  destruct (install_loop true s1 P (zlen P)) as (c2 & E2 & W2); [done|done|done| | |lia|].
  { intros b Hb. simpl in Hb. rewrite R1 in Hb. by destruct Hb. }
  { intros b _. simpl. by rewrite R1. }
  set (s2 := s1 <| l_bc := c2 |> <| lh_n := 0 |>).
  assert (∀ b, refs c2 b = 0) as R2.
  { intros b. destruct (decide (Exists (λ j, znth P j = Some b) (upto (zlen P)))) as [Hj|Hno].
    - apply Exists_exists in Hj as (j & Hj%elem_of_upto & Hjx).
      destruct (wr_new _ _ _ _ _ _ W2 j b Hj Hjx) as (_ & _ & ->). simpl. rewrite R1, Hr. lia.
    - destruct (wr_old _ _ _ _ _ _ W2 b) as (_ & _ & ->); [|simpl; by rewrite R1].
      intros j Hj Hjx. apply Hno, Exists_exists. exists j. split; [by apply elem_of_upto|done]. }
  destruct (write_head_ok s2 [] []) as (c3 & d & E3 & H3 & W3 & Hhd3).
  { destruct Hwf1. by split. }
  { split; [reflexivity|intros i b Hi%znth_Some; unfold zlen in Hi; simpl in Hi; lia|constructor|set_solver|unfold zlen; simpl; lia]. }
  { apply W2. }
  { intros b Hb. by rewrite R2 in Hb. }
  { unfold zlen. simpl. lia. }
  { apply R2. }
  exists (s2 <| l_bc := c3 |>). split; [|split; [exact H3|split; [|split]]].
  - unfold recover_from_log. erewrite bind_step by exact E1. erewrite bind_step.
    2: { unfold install_trans. erewrite bind_step by reflexivity. exact E2. }
    erewrite bind_step by reflexivity. exact E3.
  - intros j b Hj. simpl. rewrite (w_view _ _ _ _ _ W3). simpl.
    destruct (decide (b = l_start s)) as [->|].
    { destruct (Hhome (l_start s)) as [_ []]; [by eapply znth_elem|]. unfold in_log. lia. }
    destruct (wr_new _ _ _ _ _ _ W2 j b) as (-> & _); [by eapply znth_Some|done|]. apply V1.
  - intros b Hb Hne. simpl. rewrite (w_view _ _ _ _ _ W3). simpl. destruct (decide (b = l_start s)); [done|].
    destruct (wr_old _ _ _ _ _ _ W2 b) as (-> & _); [|apply V1]. intros j _ Hj. by apply Hb, (znth_elem _ j).
  - simpl. rewrite (w_view _ _ _ _ _ W3). simpl. by destruct (decide (l_start s = l_start s)) as [_|[]].
Qed.

#[local] Transparent refs bc_view disk_get.
Lemma boot_okx d pid : (∀ b v, d !! b = Some v → zlen v = BSIZE) →
  okx [] (boot_bcache d pid) ∧ (∀ b, refs (boot_bcache d pid) b = 0) ∧ (∀ b, bc_view (boot_bcache d pid) b = disk_get d b).
Proof.
  intros Hd.
  assert (∀ i bf, bc_buf (boot_bcache d pid) !! i = Some bf → bf = buf0) as Hb
    by (by intros i bf [-> _]%lookup_replicate).
  assert (∀ b, cached (boot_bcache d pid) b = None) as Hc.
  { intros b. destruct (cached (boot_bcache d pid) b) as [i|] eqn:E; [|done]. unfold cached in E.
    apply List.find_some in E as [_ (bf & Hi & Hdev & _)%caches_true]. apply Hb in Hi. by subst bf. }
  split; [|split].
  - split; try done.
    + simpl. apply reverse_Permutation.
    + intros i bf ->%Hb. split; try done; [by intros []|set_solver].
    + by intros i j bf bf' ->%Hb ->%Hb.
    + by intros i bf ->%Hb.
  - intros b. unfold refs. by rewrite buf_of_None.
  - intros b. by rewrite bc_view_buf, buf_of_None.
Qed.
#[local] Opaque refs bc_view disk_get.

(** Recovery at boot from the disk [d], with the log at [st]. *)
Lemma initlog_ok d pid st P : (∀ b v, d !! b = Some v → zlen v = BSIZE) → 0 ≤ st → st + LOGBLOCKS < FSSIZE →
  is_header (disk_get d st) P → NoDup P → (∀ b, b ∈ P → 0 ≤ b < FSSIZE ∧ ¬ (st ≤ b ≤ st + LOGBLOCKS)) → zlen P < NBUF →
  ∃ s', initlog ROOTDEV st (boot_log d pid) = Ok (tt, s') ∧ okx [] (l_bc s') ∧
    (∀ j b, znth P j = Some b → bc_view (l_bc s') b = disk_get d (st + j + 1)) ∧
    (∀ b, b ∉ P → b ≠ st → bc_view (l_bc s') b = disk_get d b).
Proof.
  intros Hd Hs0 Hs1 Hhd Hnd Hhome HPl. destruct (boot_okx d pid Hd) as (H & Hr & Hv).
  set (s := (boot_log d pid) <| l_start := st |> <| l_dev := ROOTDEV |>).
  destruct (recover_ok s P) as (s' & E & H' & V1 & V2 & _); [by split|done|done|simpl; by rewrite Hv|by split|].
  exists s'. split; [|split; [done|split]].
  - unfold initlog. destruct (Z.leb_spec BSIZE (4 + 4 * LOGBLOCKS)); [lia|].
    rewrite i32_id by lia. do 3 (erewrite bind_step by reflexivity). exact E.
  - intros j b Hj. rewrite (V1 j b Hj). simpl. by rewrite Hv.
  - intros b Hb Hne. rewrite (V2 b Hb Hne). simpl. by rewrite Hv.
Qed.

(** ** Commit *)

(** A transaction of the blocks [P], ready to be committed: they are pinned, no
    other buffer is in use, and the log on the disk is empty. *)
Record ready s (P : list Z) : Prop := {
  rd_wf : log_wf s;
  rd_lists : lists s P;
  rd_ok : okx [] (l_bc s);
  rd_pinned b : b ∈ P → refs (l_bc s) b = 1;
  rd_others b : b ∉ P → refs (l_bc s) b = 0;
  rd_empty : is_header (disk_get (bc_disk (l_bc s)) (l_start s)) [];
}.

Lemma ready_uses s P : ready s P → uses_only P (l_bc s).
Proof. intros H b Hb. destruct (decide (b ∈ P)); [done|]. by rewrite (rd_others _ _ H) in Hb. Qed.

(** A block of the file system: any but those of the log. *)
Definition home s (b : Z) : Prop := 0 ≤ b < FSSIZE ∧ ¬ in_log s b.

Lemma home_old s P b : ready s P → b ∉ P → bc_view (l_bc s) b = disk_get (bc_disk (l_bc s)) b.
Proof. intros H Hb. eapply clean0; [apply H|]. by apply (rd_others _ _ H). Qed.
Lemma start_not_entry s k : ∀ j, 0 ≤ j < k → log_entry s j ≠ Some (l_start s).
Proof. unfold log_entry, log_block. intros j Hj [=]. lia. Qed.
Lemma home_not_log s b k : k ≤ LOGBLOCKS → home s b → ∀ j, 0 ≤ j < k → log_entry s j ≠ Some b.
Proof. intros Hk [_ Hn] j Hj [= <-]. apply Hn. unfold in_log, log_block. lia. Qed.

(** What the disk holds once entry [k] of the log is written. *)
Lemma commit_phase1 s P k : ready s P → 0 ≤ k ≤ zlen P →
  ∃ c', for_each write_log1 (upto k) s = Ok (tt, s <| l_bc := c' |>) ∧ okx [] c' ∧
    (∀ b, home s b → bc_view c' b = bc_view (l_bc s) b ∧ disk_get (bc_disk c') b = disk_get (bc_disk (l_bc s)) b) ∧
    disk_get (bc_disk c') (l_start s) = disk_get (bc_disk (l_bc s)) (l_start s) ∧
    (∀ b, refs c' b = refs (l_bc s) b) ∧
    (∀ j b, 0 ≤ j < k → znth P j = Some b → bc_view c' (log_block s j) = bc_view (l_bc s) b ∧
       disk_get (bc_disk c') (log_block s j) = bc_view (l_bc s) b).
Proof.
  intros Hr Hk. pose proof (li_len _ _ (rd_lists _ _ Hr)) as HPl.
  destruct (write_log_loop s P k) as (c' & E & W); [apply Hr|apply Hr|apply Hr|by apply ready_uses|apply Hr|done|].
  exists c'. split; [exact E|]. split; [apply W|]. split; [|split; [|split]].
  - intros b Hb. destruct (wr_old _ _ _ _ _ _ W b) as (? & ? & _); [eapply home_not_log; [|done]; lia|done].
  - apply (wr_old _ _ _ _ _ _ W). apply start_not_entry.
  - intros b. destruct (decide (log_block s 0 ≤ b < log_block s k)) as [Hx|Hx].
    + destruct (wr_new _ _ _ _ _ _ W (b - l_start s - 1) b) as (_ & _ & ->);
        [unfold log_block in Hx; lia|unfold log_entry, log_block; f_equal; lia|lia].
    + apply (wr_old _ _ _ _ _ _ W). intros j Hj [= <-]. apply Hx. unfold log_block. lia.
  - intros j b Hj Hb. destruct (wr_new _ _ _ _ _ _ W j (log_block s j)) as (-> & -> & _); [done|done|].
    by rewrite Hb.
Qed.

(** ... once the header is: the transaction is committed. *)
Lemma commit_phase2 s P : ready s P →
  ∃ c', (for_each write_log1 (upto (zlen P)) ;; write_head) s = Ok (tt, s <| l_bc := c' |>) ∧ okx [] c' ∧
    (∀ b, home s b → bc_view c' b = bc_view (l_bc s) b ∧ disk_get (bc_disk c') b = disk_get (bc_disk (l_bc s)) b) ∧
    is_header (disk_get (bc_disk c') (l_start s)) P ∧
    (∀ b, refs c' b = refs (l_bc s) b) ∧
    (∀ j b, znth P j = Some b → bc_view c' (log_block s j) = bc_view (l_bc s) b ∧
       disk_get (bc_disk c') (log_block s j) = bc_view (l_bc s) b).
Proof.
  intros Hr. pose proof (zlen_nonneg P). pose proof (lw_start _ (rd_wf _ _ Hr)) as Hst.
  destruct (commit_phase1 s P (zlen P)) as (c1 & E1 & H1 & V1 & S1 & R1 & L1); [done|lia|].
  destruct (write_head_ok (s <| l_bc := c1 |>) P P) as (c2 & d & E2 & H2 & W2 & Hhd);
    [apply log_wf_bc, Hr|apply lists_bc, Hr|done|intros b; simpl; rewrite R1; by apply ready_uses|apply Hr| |].
  { simpl. rewrite R1. apply (rd_others _ _ Hr). intros [_ []]%(li_home _ _ (rd_lists _ _ Hr)). unfold in_log. lia. }
  exists c2. split; [erewrite bind_step by exact E1; exact E2|]. split; [done|]. simpl in W2. split; [|split; [|split]].
  - intros b Hb. rewrite (w_view _ _ _ _ _ W2), (writes_disk _ _ _ _ _ b W2). 
    destruct (decide (b = l_start s)) as [->|]; [|by apply V1]. destruct Hb as [_ []]. unfold in_log. lia.
  - rewrite (writes_disk _ _ _ _ _ _ W2). by destruct (decide (l_start s = l_start s)) as [_|[]].
  - intros b. rewrite (w_refs _ _ _ _ _ W2). destruct (decide (b = l_start s)) as [->|]; [rewrite R1; lia|apply R1].
  - intros j b Hb. pose proof (znth_Some _ _ _ Hb). rewrite (w_view _ _ _ _ _ W2), (writes_disk _ _ _ _ _ _ W2).
    destruct (decide (log_block s j = l_start s)) as [Ej|]; [unfold log_block in Ej; lia|]. by apply L1.
Qed.

(** ... and once the first [k] blocks are installed. *)
Lemma commit_phase3 s P k : ready s P → 0 ≤ k ≤ zlen P →
  ∃ c', (for_each write_log1 (upto (zlen P)) ;; write_head ;; for_each (install1 false) (upto k)) s =
      Ok (tt, s <| l_bc := c' |>) ∧ okx [] c' ∧
    (∀ b, home s b → bc_view c' b = bc_view (l_bc s) b) ∧
    (∀ b, home s b → b ∉ P → disk_get (bc_disk c') b = disk_get (bc_disk (l_bc s)) b) ∧
    is_header (disk_get (bc_disk c') (l_start s)) P ∧
    (∀ j b, znth P j = Some b → disk_get (bc_disk c') (log_block s j) = bc_view (l_bc s) b) ∧
    (∀ b, b ∉ P → refs c' b = 0) ∧
    (∀ j b, 0 ≤ j < k → znth P j = Some b → refs c' b = 0 ∧ disk_get (bc_disk c') b = bc_view (l_bc s) b).
Proof.
  intros Hr Hk. pose proof (rd_lists _ _ Hr) as Hli. pose proof (li_len _ _ Hli) as HPl.
  pose proof (lw_start _ (rd_wf _ _ Hr)) as Hst.
  destruct (commit_phase2 s P) as (c1 & E1 & H1 & V1 & S1 & R1 & L1); [done|].
  destruct (install_loop false (s <| l_bc := c1 |>) P k) as (c2 & E2 & W2);
    [apply log_wf_bc, Hr|by apply lists_bc|done|intros b; simpl; rewrite R1; by apply ready_uses|
     intros b Hb; simpl; rewrite R1; by apply Hr|done|].
  assert (∀ b, in_log s b → ∀ j, 0 ≤ j < k → znth P j ≠ Some b) as Hlog.
  { intros b Hb j _ Hj%znth_elem. by destruct (li_home _ _ Hli _ Hj) as [_ []]. }
  assert (∀ j b, znth P j = Some b → in_log s (log_block s j)) as Hent.
  { intros j b Hj. by destruct (log_block_in s P j b (rd_wf _ _ Hr) Hli Hj). }
  exists c2. split; [|split; [apply W2|split; [|split; [|split; [|split; [|split]]]]]].
  - rewrite <-bind_assoc. erewrite bind_step by exact E1. exact E2.
  - intros b Hb. destruct (decide (Exists (λ j, znth P j = Some b) (upto k))) as [Hj|Hno].
    + apply Exists_exists in Hj as (j & Hj%elem_of_upto & Hjx).
      destruct (wr_new _ _ _ _ _ _ W2 j b Hj Hjx) as (-> & _). simpl. by apply (L1 j b).
    + destruct (wr_old _ _ _ _ _ _ W2 b) as (-> & _); [|simpl; by apply V1].
      intros j Hj Hjx. apply Hno, Exists_exists. exists j. split; [by apply elem_of_upto|done].
  - intros b Hb HbP. destruct (wr_old _ _ _ _ _ _ W2 b) as (_ & -> & _); [|simpl; by apply V1].
    intros j _ Hj%znth_elem. done.
  - destruct (wr_old _ _ _ _ _ _ W2 (l_start s)) as (_ & -> & _); [|exact S1]. apply Hlog. unfold in_log. lia.
  - intros j b Hj. destruct (wr_old _ _ _ _ _ _ W2 (log_block s j)) as (_ & -> & _); [apply Hlog; by eapply Hent|].
    simpl. by apply (L1 j b).
  - intros b Hb. destruct (wr_old _ _ _ _ _ _ W2 b) as (_ & _ & ->); [intros j _ Hj%znth_elem; done|].
    simpl. rewrite R1. by apply (rd_others _ _ Hr).
  - intros j b Hj Hjb. destruct (wr_new _ _ _ _ _ _ W2 j b Hj Hjb) as (_ & -> & ->). simpl.
    rewrite R1, (rd_pinned _ _ Hr b) by (by eapply znth_elem). split; [lia|]. by apply (L1 j b).
Qed.

Lemma commit_phase4 s P : ready s P →
  ∃ c', (for_each write_log1 (upto (zlen P)) ;; write_head ;; for_each (install1 false) (upto (zlen P)) ;;
         setf lh_n 0 ;; write_head) s = Ok (tt, s <| l_bc := c' |> <| lh_n := 0 |>) ∧ okx [] c' ∧
    (∀ b, home s b → bc_view c' b = bc_view (l_bc s) b ∧ disk_get (bc_disk c') b = bc_view (l_bc s) b) ∧
    is_header (disk_get (bc_disk c') (l_start s)) [] ∧ (∀ b, refs c' b = 0).
Proof.
  intros Hr. pose proof (zlen_nonneg P) as HP0. pose proof (lw_start _ (rd_wf _ _ Hr)) as Hst.
  destruct (commit_phase3 s P (zlen P)) as (c1 & E1 & H1 & V1 & D1 & S1 & L1 & O1 & N1); [done|lia|].
  assert (∀ b, refs c1 b = 0) as R1.
  { intros b. destruct (decide (b ∈ P)) as [(j & Hj)%elem_znth|]; [|by apply O1].
    apply (N1 j); [by eapply znth_Some|done]. }
  destruct (write_head_ok (s <| l_bc := c1 |> <| lh_n := 0 |>) [] []) as (c2 & d & E2 & H2 & W2 & Hhd).
  { destruct (rd_wf _ _ Hr). by split. }
  { split; [reflexivity|intros i b Hi%znth_Some; unfold zlen in Hi; simpl in Hi; lia|constructor|set_solver|unfold zlen; simpl; lia]. }
  { done. }
  { intros b Hb. simpl in Hb. by rewrite R1 in Hb. }
  { unfold zlen. simpl. lia. }
  { apply R1. }
  simpl in W2. exists c2. split; [|split; [done|split; [|split]]].
  - rewrite <-!bind_assoc. rewrite bind_assoc. erewrite bind_step; [|rewrite bind_assoc; exact E1].
    erewrite bind_step by reflexivity. exact E2.
  - intros b Hb. rewrite (w_view _ _ _ _ _ W2), (writes_disk _ _ _ _ _ b W2).
    destruct (decide (b = l_start s)) as [->|]; [destruct Hb as [_ []]; unfold in_log; lia|].
    split; [by apply V1|]. destruct (decide (b ∈ P)) as [(j & Hj)%elem_znth|HbP].
    + apply (N1 j); [by eapply znth_Some|done].
    + rewrite D1 by done. symmetry. by eapply home_old.
  - rewrite (writes_disk _ _ _ _ _ _ W2). by destruct (decide (l_start s = l_start s)) as [_|[]].
  - intros b. rewrite (w_refs _ _ _ _ _ W2). destruct (decide (b = l_start s)) as [->|]; [rewrite R1; lia|apply R1].
Qed.

(** ** The steps of a commit *)

Definition run_steps (l : list (M logst unit)) : M logst unit := for_each id l.

Lemma run_steps_fmap (f : Z → M logst unit) l s : run_steps (f <$> l) s = for_each f l s.
Proof.
  revert s. induction l as [|x l IH]; intros s; [done|]. simpl. unfold run_steps in *. simpl.
  unfold mbind, M_bind. destruct (f x s) as [[]| | |]; simpl; try done.
Qed.
Lemma run_steps_app l1 l2 s : run_steps (l1 ++ l2) s = (run_steps l1 ;; run_steps l2) s.
Proof. apply for_each_app. Qed.
Lemma take_upto n k : (k ≤ Z.to_nat n)%nat → take k (upto n) = upto (Z.of_nat k).
Proof.
  intros Hk. apply list_eq. intros i. unfold upto. destruct (decide (i < k)%nat).
  - rewrite lookup_take_lt by done. rewrite !lookup_seqZ_lt by lia. done.
  - rewrite lookup_take_ge, lookup_seqZ_ge by lia. done.
Qed.
Lemma length_upto n : length (upto n) = Z.to_nat n.
Proof. unfold upto. by rewrite length_seqZ. Qed.

(** The first [k] steps, by the phase they end in. *)
Lemma take_steps n k s : 0 ≤ n → (k ≤ 2 * Z.to_nat n + 2)%nat →
  run_steps (take k (commit_steps n)) s =
    if decide (k ≤ Z.to_nat n)%nat then for_each write_log1 (upto (Z.of_nat k)) s
    else if decide (k ≤ 2 * Z.to_nat n + 1)%nat then
      (for_each write_log1 (upto n) ;; write_head ;; for_each (install1 false) (upto (Z.of_nat k - n - 1))) s
    else (for_each write_log1 (upto n) ;; write_head ;; for_each (install1 false) (upto n) ;; setf lh_n 0 ;; write_head) s.
Proof.
  intros Hn Hk. unfold commit_steps.
  assert (∀ m s, run_steps [m] s = m s) as H1.
  { intros m s1. unfold run_steps. simpl. unfold mbind, M_bind. by destruct (m s1) as [[[] ]| | |]. }
  destruct (decide (k ≤ Z.to_nat n)%nat) as [H|H].
  { rewrite take_app_le by (rewrite length_fmap, length_upto; lia). rewrite <-fmap_take, take_upto by done.
    apply run_steps_fmap. }
  rewrite take_app_ge by (rewrite length_fmap, length_upto; lia). rewrite length_fmap, length_upto.
  rewrite run_steps_app. erewrite (M_bind_ext _ (for_each write_log1 (upto n))) by (intros; apply run_steps_fmap).
  destruct (k - Z.to_nat n)%nat as [|k'] eqn:Ek; [lia|].
  destruct (decide (k ≤ 2 * Z.to_nat n + 1)%nat); apply M_bind_ext_r; intros [] s1; cbn [take app];
    unfold run_steps; cbn [for_each]; apply M_bind_ext_r; intros [] s2.
  - rewrite take_app_le by (rewrite length_fmap, length_upto; lia). rewrite <-fmap_take, take_upto by lia.
    etrans; [apply run_steps_fmap|]. do 2 f_equal. lia.
  - rewrite take_ge by (rewrite length_app, length_fmap, length_upto; simpl; lia).
    etrans; [apply run_steps_app|].
    erewrite (M_bind_ext _ (for_each (install1 false) (upto n))) by (intros; apply run_steps_fmap).
    apply M_bind_ext_r. intros [] s3. apply H1.
Qed.

(** ** Each step writes one block *)

Definition same_disk c c' : Prop := bc_disk c' = bc_disk c.
Definition log_same_disk s s' : Prop := same_disk (l_bc s) (l_bc s').
#[local] Instance same_disk_preorder : PreOrder same_disk.
Proof. split; [done|]. unfold same_disk. congruence. Qed.
#[local] Instance log_same_disk_preorder : PreOrder log_same_disk.
Proof. split; [done|]. unfold log_same_disk, same_disk. congruence. Qed.
#[local] Hint Extern 1 (keeps same_disk (modify _)) => by apply keeps_modify : keeps.
#[local] Hint Extern 1 (keeps log_same_disk (modify _)) => by apply keeps_modify : keeps.

#[local] Transparent bread bwrite brelse bunpin.
Lemma dkeeps_getb i : keeps same_disk (getb i).
Proof. unfold getb. keeps_solve. Qed.
#[local] Hint Resolve dkeeps_getb : keeps.
Lemma dkeeps_updb i f : keeps same_disk (updb i f).
Proof. unfold updb. keeps_solve. Qed.
#[local] Hint Resolve dkeeps_updb : keeps.
Lemma dkeeps_bread dev b : keeps same_disk (bread dev b).
Proof. unfold bread, bget, acquire_bc, release_bc, acquiresleep, transfer. keeps_solve. Qed.
Lemma dkeeps_brelse i : keeps same_disk (brelse i).
Proof. unfold brelse, holdingsleep, releasesleep, acquire_bc, release_bc. keeps_solve. Qed.
Lemma dkeeps_bunpin i : keeps same_disk (bunpin i).
Proof. unfold bunpin, acquire_bc, release_bc. keeps_solve. Qed.
Lemma dkeeps_copy_buf i j : keeps same_disk (copy_buf i j).
Proof. unfold copy_buf. keeps_solve. Qed.
Lemma dkeeps_store_int i off v : keeps same_disk (store_int i off v).
Proof. unfold store_int. keeps_solve. Qed.
#[local] Hint Resolve dkeeps_bread dkeeps_brelse dkeeps_bunpin dkeeps_copy_buf dkeeps_store_int : keeps.
Lemma dkeeps_lift {A} (m : C A) : keeps same_disk m → keeps log_same_disk (lift_bc m).
Proof.
  intros H s a s'. unfold lift_bc. destruct (m (l_bc s)) as [[a' c]| | |] eqn:E; [|done..]. intros [= _ <-]. by eapply H.
Qed.
Lemma lift_same_disk {A} (m : C A) s a s' : keeps same_disk m → lift_bc m s = Ok (a, s') → log_same_disk s s'.
Proof. intros Hm. by apply dkeeps_lift. Qed.
#[local] Hint Extern 2 (keeps log_same_disk (lift_bc _)) => apply dkeeps_lift; solve [eauto 2 with keeps] : keeps.

Lemma bwrite_one i c u c' : bwrite i c = Ok (u, c') → ∃ b v, bc_disk c' = <[b := v]> (bc_disk c).
Proof.
  unfold bwrite. intros E. minv E.
  assert (keeps same_disk (holdingsleep i)) as Hh by (unfold holdingsleep; keeps_solve). apply Hh in E0.
  destruct (negb _); [done|]. unfold transfer in E. minv E. apply dkeeps_getb in E1.
  destruct (_ && _); [|done]. injection E as _ <-. unfold same_disk in *. simpl. rewrite E1, E0. eauto.
Qed.
#[local] Opaque bread bwrite brelse bunpin.

(** The disk kept, then a block written, then the disk kept. *)
Lemma one_write_mid i s s1 s2 s' u : log_same_disk s s1 → lift_bc (bwrite i) s1 = Ok (u, s2) → log_same_disk s2 s' →
  ∃ b v, bc_disk (l_bc s') = <[b := v]> (bc_disk (l_bc s)).
Proof.
  unfold log_same_disk, same_disk. intros E1 E2 E3. unfold lift_bc in E2.
  destruct (bwrite i (l_bc s1)) as [[u' c]| | |] eqn:E; [|done..]. injection E2 as _ <-.
  apply bwrite_one in E as (x & v & E). rewrite E3. simpl. rewrite E, E1. eauto.
Qed.
Lemma one_write_copy i j (m : C unit) s u s' : keeps same_disk m →
  lift_bc (copy_buf j i ;; bwrite j ;; m) s = Ok (u, s') →
  ∃ b v, bc_disk (l_bc s') = <[b := v]> (bc_disk (l_bc s)).
Proof.
  intros Hm. unfold lift_bc. destruct ((copy_buf j i ;; bwrite j ;; m) (l_bc s)) as [[u' c]| | |] eqn:E; [|done..].
  intros [= _ <-].
  minv E. apply dkeeps_copy_buf in E0. minv E. apply bwrite_one in E1 as (b & v & Eb). apply Hm in E.
  unfold same_disk in *. simpl. rewrite E, Eb, E0. eauto.
Qed.

Lemma write_head_one s u s' : write_head s = Ok (u, s') → ∃ b v, bc_disk (l_bc s') = <[b := v]> (bc_disk (l_bc s)).
Proof.
  unfold write_head. intros E. minv E. injection E0 as <- <-. minv E. injection E0 as <- <-. minv E. minv E.
  injection E1 as <- <-. minv E. minv E. minv E.
  eapply one_write_mid; [|exact E3|eapply lift_same_disk, E; eauto with keeps].
  etrans; [eapply lift_same_disk, E0; eauto with keeps|].
  etrans; [eapply lift_same_disk, E1; eauto with keeps|].
  revert E2. match goal with |- ?m ?s2 = Ok (?u, ?s3) → _ => assert (keeps log_same_disk m) as Hm; [|exact (Hm s2 u s3)] end.
  unfold get_block. keeps_solve.
Qed.

Lemma steps_one_write n : Forall (λ m : M logst unit, ∀ s u s', m s = Ok (u, s') →
  ∃ b v, bc_disk (l_bc s') = <[b := v]> (bc_disk (l_bc s))) (commit_steps n).
Proof.
  assert (∀ k, keeps log_same_disk (get_block k)) as Hg by (intros k; unfold get_block; keeps_solve).
  assert (∀ s s1 s', log_same_disk s s1 → (∃ b v, bc_disk (l_bc s') = <[b := v]> (bc_disk (l_bc s1))) →
    ∃ b v, bc_disk (l_bc s') = <[b := v]> (bc_disk (l_bc s))) as Hpre
    by (unfold log_same_disk, same_disk; intros s s1 s' <-; done).
  unfold commit_steps. rewrite !Forall_app, !Forall_singleton. split_and!.
  - apply Forall_fmap, Forall_true. intros k s u s' E. unfold write_log1 in E. simpl in E.
    minv E. injection E0 as <- <-. minv E. injection E0 as <- <-. minv E. minv E. minv E.
    eapply Hpre; [|eapply one_write_copy; [|exact E]; keeps_solve].
    etrans; [eapply lift_same_disk, E0; eauto with keeps|]. etrans; [by eapply Hg|]. eapply lift_same_disk, E2; eauto with keeps.
  - intros s u s'. apply write_head_one.
  - apply Forall_fmap, Forall_true. intros k s u s' E. unfold install1 in E. simpl in E.
    minv E. injection E0 as <- <-. minv E. injection E0 as <- <-. minv E. minv E. minv E.
    eapply Hpre; [|eapply one_write_copy; [|exact E]; keeps_solve].
    etrans; [eapply lift_same_disk, E0; eauto with keeps|]. etrans; [by eapply Hg|]. eapply lift_same_disk, E2; eauto with keeps.
  - intros s u s' E. minv E. injection E0 as _ <-. by apply write_head_one in E.
Qed.

Definition same_n s s' : Prop := lh_n s' = lh_n s.
#[local] Instance same_n_preorder : PreOrder same_n.
Proof. split; [done|]. unfold same_n. congruence. Qed.
Lemma nkeeps_lift {A} (m : C A) : keeps same_n (lift_bc m).
Proof. intros s a s'. unfold lift_bc. destruct (m (l_bc s)) as [[]| | |]; [|done..]. by intros [= _ <-]. Qed.
#[local] Hint Resolve nkeeps_lift : keeps.

Lemma commit_is_steps s n : lh_n s = n → 0 < n → commit s = run_steps (commit_steps n) s.
Proof.
  intros <- Hn.
  assert (run_steps (commit_steps (lh_n s)) s = run_steps (take (2 * Z.to_nat (lh_n s) + 2) (commit_steps (lh_n s))) s) as ->.
  { rewrite take_ge; [done|]. unfold commit_steps. rewrite !length_app, !length_fmap, !length_upto. simpl. lia. }
  rewrite take_steps by lia. destruct (decide _); [lia|]. destruct (decide _); [lia|].
  unfold commit. erewrite bind_step by reflexivity. assert (0 <? lh_n s = true) as -> by lia. simpl.
  unfold write_log. rewrite bind_assoc. erewrite bind_step by reflexivity.
  apply (M_bind_ext_keeps same_n); [keeps_solve; unfold write_log1, get_block; keeps_solve|]. intros [] s1 E1.
  apply (M_bind_ext_keeps same_n); [unfold write_head, get_block; keeps_solve|]. intros [] s2 E2.
  unfold install_trans. rewrite bind_assoc. erewrite bind_step by reflexivity. unfold same_n in *. by rewrite E2, E1.
Qed.

(** C1. Commits are atomic across crashes: [commit] is a sequence of steps each of
    which writes one block of the disk; after any number [k] of them, a machine
    that reboots from that disk and runs the recovery of [initlog] sees every
    block of the file system as it was before the transaction (when the crash
    came before the header was written), or every block as the transaction left
    it (from then on): never a mixture. *)
Theorem commit_crash_safe s P k : ready s P → P ≠ [] → (k ≤ 2 * length P + 2)%nat →
  commit s = run_steps (commit_steps (zlen P)) s ∧
  Forall (λ m : M logst unit, ∀ s u s', m s = Ok (u, s') →
    ∃ b v, bc_disk (l_bc s') = <[b := v]> (bc_disk (l_bc s))) (commit_steps (zlen P)) ∧
  ∃ sk, run_steps (take k (commit_steps (zlen P))) s = Ok (tt, sk) ∧
    ∀ pid, ∃ s', initlog ROOTDEV (l_start s) (boot_log (bc_disk (l_bc sk)) pid) = Ok (tt, s') ∧
      ∀ b, home s b → bc_view (l_bc s') b =
        if decide (k ≤ length P)%nat then disk_get (bc_disk (l_bc s)) b else bc_view (l_bc s) b.
Proof.
  intros Hr Hne Hk. pose proof (rd_lists _ _ Hr) as Hli. pose proof (lw_start _ (rd_wf _ _ Hr)) as [Hs0 Hs1].
  assert (0 < zlen P) as HPp by (destruct P; [done|unfold zlen; simpl; lia]).
  assert (Z.to_nat (zlen P) = length P) as Hz by (unfold zlen; lia).
  split; [by apply commit_is_steps; [apply Hli|]|]. split; [apply steps_one_write|].
  rewrite take_steps by lia. rewrite Hz.
  assert (∀ c Q, okx [] c → is_header (disk_get (bc_disk c) (l_start s)) Q → Q = [] ∨ Q = P → ∀ pid,
    ∃ s', initlog ROOTDEV (l_start s) (boot_log (bc_disk c) pid) = Ok (tt, s') ∧
      (∀ j b, znth Q j = Some b → bc_view (l_bc s') b = disk_get (bc_disk c) (log_block s j)) ∧
      (∀ b, b ∉ Q → b ≠ l_start s → bc_view (l_bc s') b = disk_get (bc_disk c) b)) as Hrec.
  { intros c Q Hc Hh HQ pid. destruct (initlog_ok (bc_disk c) pid (l_start s) Q) as (s' & E & _ & V1 & V2); try done.
    - apply Hc.
    - destruct HQ as [-> | ->]; [constructor|apply Hli].
    - destruct HQ as [-> | ->]; [set_solver|apply Hli].
    - destruct HQ as [-> | ->]; [unfold zlen; simpl; lia|apply Hli].
    - by exists s'. }
  assert (∀ b, home s b → b ≠ l_start s) as Hhs by (intros b [_ Hn] ->; apply Hn; unfold in_log; lia).
  destruct (decide (k ≤ length P)%nat) as [H1|H1].
  { destruct (commit_phase1 s P (Z.of_nat k)) as (c & E & Hc & V & S & _); [done|lia|].
    eexists. split; [exact E|]. intros pid.
    destruct (Hrec c [] Hc) with (pid := pid) as (s' & E' & _ & V2); [rewrite S; apply Hr|by left|].
    exists s'. split; [exact E'|]. intros b Hb. rewrite V2; [by apply V|set_solver|by apply Hhs]. }
  destruct (decide (k ≤ 2 * length P + 1)%nat) as [H2|H2].
  - destruct (commit_phase3 s P (Z.of_nat k - zlen P - 1)) as (c & E & Hc & V & D & S & L & _); [done|lia|].
    eexists. split; [exact E|]. intros pid. destruct (Hrec c P Hc S) with (pid := pid) as (s' & E' & V1 & V2); [by right|].
    exists s'. split; [exact E'|]. intros b Hb. destruct (decide (b ∈ P)) as [(j & Hj)%elem_znth|HbP].
    + rewrite (V1 j b Hj). by apply L.
    + rewrite V2 by auto. rewrite D by done. symmetry. by eapply home_old.
  - destruct (commit_phase4 s P) as (c & E & Hc & V & S & _); [done|].
    eexists. split; [exact E|]. intros pid. destruct (Hrec c [] Hc S) with (pid := pid) as (s' & E' & _ & V2); [by left|].
    exists s'. split; [exact E'|]. intros b Hb. rewrite V2; [by apply V|set_solver|by apply Hhs].
Qed.

Lemma commit_ok s P : ready s P → ∃ s', commit s = Ok (tt, s') ∧ ready s' [] ∧
  (∀ b, home s b → bc_view (l_bc s') b = bc_view (l_bc s) b ∧ disk_get (bc_disk (l_bc s')) b = bc_view (l_bc s) b) ∧
  s' = s <| l_bc := l_bc s' |> <| lh_n := 0 |>.
Proof.
  intros Hr. pose proof (rd_lists _ _ Hr) as Hli. destruct (decide (P = [])) as [->|Hne].
  - exists s. split; [|split; [done|split]].
    + unfold commit. erewrite bind_step by reflexivity. by rewrite (li_n _ _ Hli).
    + intros b Hb. split; [done|]. symmetry. eapply home_old; [done|set_solver].
    + pose proof (li_n _ _ Hli) as Hn. destruct s. simpl in *. unfold upd, upd_l_bc, upd_lh_n. simpl. by rewrite Hn.
  - assert (0 < zlen P) as HPp by (destruct P; [done|unfold zlen; simpl; lia]).
    destruct (commit_phase4 s P Hr) as (c & E & Hc & V & S & R).
    exists (s <| l_bc := c |> <| lh_n := 0 |>). split; [|split; [|split; [exact V|done]]].
    + rewrite (commit_is_steps s (zlen P)) by (done || apply Hli).
      rewrite <-(take_ge (commit_steps (zlen P)) (2 * Z.to_nat (zlen P) + 2))
        by (unfold commit_steps; rewrite !length_app, !length_fmap, !length_upto; simpl; lia).
      rewrite take_steps by lia. destruct (decide _); [lia|]. destruct (decide _); [lia|]. exact E.
    + pose proof (rd_wf _ _ Hr) as []. split; [by split| |exact Hc|intros b Hb; inversion Hb|intros b _; apply R|exact S].
      split; [reflexivity|intros i b Hi%znth_Some; unfold zlen in Hi; simpl in Hi; lia|constructor|intros b Hb; inversion Hb|
        unfold zlen; simpl; lia].
Qed.

(** ** Building a transaction *)

Lemma take_lists s P : lists s P → take (Z.to_nat (zlen P)) (lh_block s) = P.
Proof.
  intros Hli. apply list_eq. intros i. unfold zlen. rewrite Nat2Z.id. destruct (decide (i < length P)%nat) as [Hi|Hi].
  - rewrite lookup_take_lt by done. destruct (lookup_lt_is_Some_2 P i Hi) as [b Hb]. rewrite Hb.
    rewrite <-znth_nat. apply (li_blocks _ _ Hli). by rewrite znth_nat.
  - rewrite lookup_take_ge by lia. symmetry. apply lookup_ge_None. lia.
Qed.

Lemma log_index_ok s P b : lists s P → 0 ≤ b < FSSIZE →
  (b ∈ P → znth P (log_index (lh_block s) (lh_n s) b) = Some b) ∧
  (b ∉ P → log_index (lh_block s) (lh_n s) b = zlen P).
Proof.
  intros Hli Hb. unfold log_index. rewrite (li_n _ _ Hli), (take_lists s P Hli).
  assert (∀ x, x ∈ P → u32 x = x) as Hu by (intros x Hx%(li_home _ _ Hli); apply wrap_id; lia).
  split.
  - intros HbP. destruct (list_find_elem_of (λ x, u32 x = b) P b) as [[j x] Ej]; [done|by apply Hu|].
    rewrite Ej. simpl. apply list_find_Some in Ej as (Hj & Hx & _). rewrite znth_nat, Hj.
    f_equal. rewrite <-Hx. symmetry. apply Hu. by eapply list_elem_of_lookup_2.
  - intros HbP. assert (list_find (λ x, u32 x = b) P = None) as ->; [|done].
    apply list_find_None, Forall_forall. intros x Hx E. rewrite Hu in E by done. by subst.
Qed.

(** The blocks of the transaction once [b] is in it. *)
Definition logged (P : list Z) (b : Z) : list Z := if decide (b ∈ P) then P else P ++ [b].

Lemma lists_snoc s P b : lists s P → log_wf s → 0 ≤ b < FSSIZE → ¬ in_log s b → b ∉ P → zlen P + 1 < NBUF →
  lists (s <| lh_block ::= λ l, zset l (zlen P) b |> <| lh_n := zlen P + 1 |>) (P ++ [b]).
Proof.
  intros Hli Hwf Hb Hn HbP HPl. pose proof (lw_len _ Hwf) as Hlen. pose proof (zlen_nonneg P). split; simpl.
  - rewrite zlen_app. done.
  - intros i x Hx. pose proof (znth_Some _ _ _ Hx) as Hi. rewrite zlen_app in Hi. unfold zlen at 2 in Hi. simpl in Hi.
    destruct (decide (i = zlen P)) as [->|].
    + rewrite znth_zset_eq by lia. rewrite <-Hx. unfold znth, zlen.
      destruct (Z.leb_spec 0 (Z.of_nat (length P))); [|lia]. rewrite Nat2Z.id. symmetry. by apply list_lookup_middle.
    + rewrite znth_zset_ne by lia. apply (li_blocks _ _ Hli). rewrite <-Hx. unfold znth, zlen in *.
      destruct (Z.leb_spec 0 i); [|done]. symmetry. apply lookup_app_l. lia.
  - apply NoDup_app. split; [apply Hli|]. split; [|apply NoDup_singleton]. intros x Hx ->%list_elem_of_singleton. done.
  - intros x [Hx| ->%list_elem_of_singleton]%elem_of_app; [by apply (li_home _ _ Hli)|done].
  - rewrite zlen_app. done.
Qed.

Lemma log_write_ok X s P i b : log_wf s → lists s P → l_locked s = false → 1 ≤ l_outstanding s →
  okx X (l_bc s) → i ∈ X → holds (l_bc s) i b → 0 ≤ b < FSSIZE → ¬ in_log s b → zlen P + 1 < NBUF →
  refs (l_bc s) b < 2147483647 →
  ∃ c' bl, log_write i s = Ok (tt, s <| l_bc := c' |> <| lh_block := bl |> <| lh_n := zlen (logged P b) |>) ∧
    zlen bl = LOGBLOCKS ∧ lists (s <| l_bc := c' |> <| lh_block := bl |> <| lh_n := zlen (logged P b) |>) (logged P b) ∧
    okx X c' ∧ holds c' i b ∧ bc_disk c' = bc_disk (l_bc s) ∧
    does b (bc_view (l_bc s) b) (disk_get (bc_disk (l_bc s)) b)
      (refs (l_bc s) b + if decide (b ∈ P) then 0 else 1) (l_bc s) c'.
Proof.
  intros Hwf Hli Hlk Hout H HX Hh Hb Hnl HPl Hrf. pose proof (zlen_nonneg P) as HP0.
  destruct (holds_buf _ _ i b H Hh) as (o & Hi & _ & Hob & _). pose proof (lw_len _ Hwf) as Hlen.
  assert (∀ r, log_write i s = r ↔
    (set_block (log_index (lh_block s) (lh_n s) b) (i32 b) ;;
     when (log_index (lh_block s) (lh_n s) b =? zlen P) (lift_bc (bpin i) ;; setf lh_n (i32 (zlen P + 1))) ;;
     release_log) (s <| l_locked := true |>) = r) as Hrun.
  { intros r. unfold log_write, acquire_log. erewrite bind_step by (mred; rewrite Hlk; done).
    erewrite bind_step by reflexivity. simpl. rewrite (li_n _ _ Hli).
    destruct (Z.leb_spec LOGBLOCKS (zlen P)); [lia|]. erewrite bind_step by reflexivity. simpl.
    destruct (Z.ltb_spec (l_outstanding s) 1); [lia|]. erewrite bind_step by (apply lift_bc_ok; by apply getb_ok).
    erewrite bind_step by reflexivity. simpl. rewrite Hob. done. }
  destruct (log_index_ok s P b Hli Hb) as [Hin Hnin]. unfold logged. destruct (decide (b ∈ P)) as [HbP|HbP].
  - exists (l_bc s), (zset (lh_block s) (log_index (lh_block s) (lh_n s) b) (i32 b)).
    specialize (Hin HbP). pose proof (znth_Some _ _ _ Hin) as Hidx. pose proof (li_blocks _ _ Hli _ _ Hin) as Hbl.
    rewrite (i32_id b) by lia. rewrite (zset_id _ _ _ Hbl).
    split; [|split; [done|split; [|split; [done|split; [done|split; [done|]]]]]].
    + apply Hrun. unfold set_block. rewrite bind_assoc. erewrite bind_step by reflexivity. simpl. rewrite Hbl.
      erewrite bind_step by reflexivity. destruct (Z.eqb_spec (log_index (lh_block s) (lh_n s) b) (zlen P)); [lia|].
      erewrite bind_step by reflexivity. unfold release_log. mred. apply Ok_pair.
      pose proof (li_n _ _ Hli) as Hn. clear Hob Hrun. destruct s. simpl in *. subst. unfold upd, upd_l_locked, upd_lh_block, upd_l_bc, upd_lh_n.
      simpl. rewrite (i32_id b) by lia. by rewrite (zset_id _ _ _ Hbl).
    + pose proof Hli as []. by split.
    + rewrite Z.add_0_r. split; [by split|done..].
  - specialize (Hnin HbP). destruct (bpinx X (l_bc s) i b) as (c' & E & H' & Hh' & D & B); [done..|].
    exists c', (zset (lh_block s) (zlen P) (i32 b)). rewrite (i32_id b) by lia. rewrite zlen_app. change (zlen [b]) with 1.
    split; [|split; [by rewrite zlen_zset|split; [|done]]].
    + apply Hrun. rewrite Hnin. unfold set_block. rewrite bind_assoc. erewrite bind_step by reflexivity. simpl.
      destruct (znth_lt (lh_block s) (zlen P)) as [x Hx]; [lia|]. rewrite Hx. erewrite bind_step by reflexivity.
      rewrite Z.eqb_refl. simpl. rewrite bind_assoc.
      erewrite bind_step by (apply lift_bc_ok; exact E). erewrite bind_step by reflexivity.
      unfold release_log. mred. apply Ok_pair. clear Hob Hrun. destruct s. simpl in *. subst.
      unfold upd, upd_l_locked, upd_lh_block, upd_l_bc, upd_lh_n. simpl. rewrite !i32_id by lia. done.
    + pose proof (lists_snoc s P b Hli Hwf Hb Hnl HbP HPl) as []. by split.
Qed.

(** The parts of the log state a transaction under way leaves alone. *)
Record same_log s s' : Prop := {
  sl_lock : l_locked s' = l_locked s;
  sl_out : l_outstanding s' = l_outstanding s;
  sl_com : l_committing s' = l_committing s;
  sl_st : l_start s' = l_start s;
  sl_slp : l_sleepers s' = l_sleepers s;
}.

Lemma elem_logged P b x : x ∈ logged P b ↔ x = b ∨ x ∈ P.
Proof. unfold logged. case_decide; [|set_solver]. split; [auto|]. intros [->|]; done. Qed.

Lemma log_update_ok s P b f : ready s P → l_locked s = false → 1 ≤ l_outstanding s → home s b →
  zlen (f (bc_view (l_bc s) b)) = BSIZE → zlen P + 1 < NBUF →
  ∃ s', log_update b f s = Ok (tt, s') ∧ ready s' (logged P b) ∧ same_log s s' ∧
    bc_disk (l_bc s') = bc_disk (l_bc s) ∧
    ∀ b', bc_view (l_bc s') b' = if decide (b' = b) then f (bc_view (l_bc s) b) else bc_view (l_bc s) b'.
Proof.
  intros Hr Hlk Hout [Hb Hnl] Hf HPl. pose proof (rd_wf _ _ Hr) as Hwf. pose proof (rd_lists _ _ Hr) as Hli.
  assert (refs (l_bc s) b = if decide (b ∈ P) then 1 else 0) as Hrf by (case_decide; by apply Hr).
  destruct (bread_held [] (l_bc s) P b) as (i & c1 & E1 & _ & H1 & Hh1 & _ & D1 & B1);
    [apply Hr|by apply ready_uses|done|set_solver|right; lia|rewrite Hrf; case_decide; lia|].
  rewrite Hrf in D1.
  destruct (set_datax [i] c1 i b f) as (c2 & E2 & H2 & Hh2 & D2 & B2);
    [done|apply in_hd|done|by rewrite (do_view _ _ _ _ _ _ D1)|].
  rewrite (do_view _ _ _ _ _ _ D1), (do_refs _ _ _ _ _ _ D1), B1 in D2.
  destruct (log_write_ok [i] (s <| l_bc := c2 |>) P i b) as (c3 & bl & E3 & Hbl & Hli3 & H3 & Hh3 & B3 & D3); try done;
    [by apply log_wf_bc|by apply lists_bc|apply in_hd|simpl; rewrite (do_refs _ _ _ _ _ _ D2); case_decide; lia|].
  simpl in D3, B3. rewrite (do_view _ _ _ _ _ _ D2), (do_refs _ _ _ _ _ _ D2), B2, B1 in D3.
  destruct (brelsex [] c3 i b) as (c4 & E4 & H4 & D4 & B4); [done|set_solver|done| |].
  { rewrite (do_refs _ _ _ _ _ _ D3). intros Hone. exfalso. revert Hone. case_decide; lia. }
  pose proof (do_view _ _ _ _ _ _ D3) as V3. rewrite V3, (do_refs _ _ _ _ _ _ D3) in D4.
  assert (does b (f (bc_view (l_bc s) b)) (disk_get (bc_disk c3) b) 1 (l_bc s) c4) as D.
  { eapply does_trans; [exact D1|]. eapply does_trans; [exact D2|]. eapply does_trans; [exact D3|].
    match goal with D4 : does _ _ _ ?r _ _ |- _ => replace r with 1 in D4 by (case_decide; lia) end. exact D4. }
  assert (bc_disk c4 = bc_disk (l_bc s)) as Bd by congruence.
  exists (s <| l_bc := c4 |> <| lh_block := bl |> <| lh_n := zlen (logged P b) |>).
  split; [|split; [|split; [by split|split; [exact Bd|]]]].
  - unfold log_update. mget (l_dev s). rewrite (lw_dev _ Hwf). erewrite bind_step by (apply lift_bc_ok; exact E1).
    erewrite bind_step by (apply lift_bc_ok; exact E2). erewrite bind_step by exact E3.
    by erewrite lift_bc_ok by exact E4.
  - split; simpl.
    + destruct Hwf. by split.
    + destruct Hli3. by split.
    + exact H4.
    + intros x [->|Hx]%elem_logged; [apply D|]. rewrite (does_refs _ _ _ _ _ _ x D).
      destruct (decide (x = b)); [reflexivity|by apply (rd_pinned _ _ Hr)].
    + intros x Hx. rewrite elem_logged in Hx. rewrite (does_refs _ _ _ _ _ _ x D).
      destruct (decide (x = b)) as [->|]; [destruct Hx; by left|]. apply (rd_others _ _ Hr). intros HxP. apply Hx. by right.
    + rewrite Bd. apply (rd_empty _ _ Hr).
  - intros b'. simpl. apply (does_view _ _ _ _ _ _ b' D).
Qed.

Lemma ready_ext s s' P : l_dev s' = l_dev s → l_start s' = l_start s → lh_n s' = lh_n s → lh_block s' = lh_block s →
  l_bc s' = l_bc s → ready s P → ready s' P.
Proof.
  intros E1 E2 E3 E4 E5 [[] [] ? ? ? ?].
  split; [split|split|..]; unfold in_log in *; rewrite ?E1, ?E2, ?E3, ?E4, ?E5; done.
Qed.

(** Between transactions: nothing is logged, no system call is active. *)
Record quiescent s : Prop := {
  q_ready : ready s [];
  q_lock : l_locked s = false;
  q_out : l_outstanding s = 0;
  q_com : l_committing s = 0;
}.

(** A file system call as the log sees it: a sequence of block updates. *)
Definition fs_call (ups : list (Z * list Z)) : LG bool :=
  ok ← begin_op;
  if (ok : bool) then for_each (λ u, log_update u.1 (λ _, u.2)) ups ;; end_op ;; mret true else mret false.

(** The contents the updates ask for. *)
Fixpoint updated (ups : list (Z * list Z)) (d : Z → list Z) (b : Z) : list Z :=
  match ups with
  | [] => d b
  | u :: ups => updated ups (λ b', if decide (b' = u.1) then u.2 else d b') b
  end.
Lemma updated_ext ups d d' b : (∀ b, d b = d' b) → updated ups d b = updated ups d' b.
Proof. revert d d'. induction ups as [|u ups IH]; intros d d' H; simpl; [done|]. apply IH. intros b'. by rewrite H. Qed.

Lemma length_logged P b : zlen (logged P b) ≤ zlen P + 1.
Proof. unfold logged. case_decide; [lia|]. rewrite zlen_app. unfold zlen. simpl. lia. Qed.

Lemma updates_ok ups s P : ready s P → l_locked s = false → 1 ≤ l_outstanding s →
  Forall (λ u, home s u.1 ∧ zlen u.2 = BSIZE) ups → zlen P + zlen ups < NBUF →
  ∃ s' P', for_each (λ u, log_update u.1 (λ _, u.2)) ups s = Ok (tt, s') ∧ ready s' P' ∧ same_log s s' ∧
    bc_disk (l_bc s') = bc_disk (l_bc s) ∧ ∀ b, bc_view (l_bc s') b = updated ups (bc_view (l_bc s)) b.
Proof.
  intros Hr Hlk Hout Hups. revert s P Hr Hlk Hout Hups. induction ups as [|u ups IH]; intros s P Hr Hlk Hout Hups HPl.
  { exists s, P. split_and!; try done. }
  apply Forall_cons in Hups as [[Hh Hl] Hups]. unfold zlen in HPl. simpl in HPl.
  destruct (log_update_ok s P u.1 (λ _, u.2)) as (s1 & E1 & Hr1 & Hs1 & B1 & V1);
    [done|done|done|done|done|unfold zlen; lia|]. pose proof Hs1 as [].
  destruct (IH s1 (logged P u.1)) as (s2 & P2 & E2 & Hr2 & Hs2 & B2 & V2); [done|congruence|congruence| | |].
  { eapply Forall_impl; [exact Hups|]. intros x [Hx ?]. split; [|done]. unfold home, in_log in *. by rewrite sl_st0. }
  { pose proof (length_logged P u.1). unfold zlen in *. lia. }
  exists s2, P2. pose proof Hs2 as []. split; [simpl; by erewrite bind_step by exact E1|]. split; [done|].
  split; [split; congruence|]. split; [congruence|]. intros b. rewrite V2. simpl. by apply updated_ext.
Qed.

(** C18. A file system call takes effect as a whole: from a quiet log, a call that
    updates up to [MAXOPBLOCKS] blocks is admitted, leaves the disk untouched
    until it ends, and returns with exactly its updates applied, in order, both
    in the cache and on the disk, the log empty and no buffer pinned. *)
Theorem fs_call_applies ups s :
  quiescent s → Forall (λ u, home s u.1 ∧ zlen u.2 = BSIZE) ups → zlen ups ≤ MAXOPBLOCKS →
  ∃ s', fs_call ups s = Ok (true, s') ∧ quiescent s' ∧ l_start s' = l_start s ∧
    ∀ b, home s b → bc_view (l_bc s') b = updated ups (bc_view (l_bc s)) b ∧
      disk_get (bc_disk (l_bc s')) b = updated ups (bc_view (l_bc s)) b.
Proof.
  intros [Hr Hlk Hout Hcom] Hups Hlen. pose proof (zlen_nonneg ups).
  set (s1 := s <| l_outstanding := 1 |>).
  assert (begin_op s = Ok (true, s1)) as E1.
  { unfold begin_op, acquire_log. erewrite bind_step by (mred; rewrite Hlk; done).
    do 3 (erewrite bind_step by reflexivity). simpl. rewrite Hcom, Hout, (li_n _ _ (rd_lists _ _ Hr)). simpl.
    unfold s1, release_log. destruct s. simpl in *. by subst. }
  assert (ready s1 []) as Hr1 by (by apply (ready_ext s)).
  destruct (updates_ok ups s1 []) as (s2 & P & E2 & Hr2 & [] & _ & V2); try done; [unfold zlen in *; simpl; lia|].
  simpl in *. destruct s2 as [lk2 st2 out2 com2 dev2 n2 bl2 slp2 bc2]. simpl in *. subst lk2 out2 com2 st2 slp2.
  set (s3 := MkLog false (l_start s) 0 1 dev2 n2 bl2 (l_sleepers s) bc2).
  assert (ready s3 P) as Hr3 by (by eapply ready_ext, Hr2).
  destruct (commit_ok s3 P Hr3) as (s4 & E4 & Hr4 & V4 & Es4). simpl in V4.
  exists (s4 <| l_committing := 0 |> <| l_sleepers := [] |>). split; [|split; [|split]].
  - unfold fs_call. erewrite bind_step by exact E1. cbv iota. erewrite bind_step by exact E2.
    erewrite (bind_step end_op _ _ tt); [reflexivity|]. rewrite Hlk, Hcom.
    change ((commit ;; end_finish) s3 = Ok (tt, s4 <| l_committing := 0 |> <| l_sleepers := [] |>)).
    erewrite bind_step by exact E4. rewrite Es4. reflexivity.
  - split; [by eapply ready_ext, Hr4|by rewrite Es4..].
  - by rewrite Es4.
  - intros b Hb. simpl. destruct (V4 b Hb) as [-> ->]. split; apply V2.
Qed.
End header.

(** ** Space in the log *)

(** The calls under way, each with the number of blocks it may still log; what is
    left of a commit under way, one write of the disk at a time; and the log. *)
Definition lconf : Type := list Z * option (list (LG unit)) * logst.
Definition commit_pieces (s : logst) : list (LG unit) := if 0 <? lh_n s then commit_steps (lh_n s) else [].

(** A call is admitted, or goes to sleep; logs a block; uses the cache; ends. The
    last to end leaves with a commit to do, which runs without [log.lock], the
    steps of others between its writes, and takes the lock again at its end. *)
Inductive log_step : lconf → lconf → Prop :=
| ls_begin ops cm s s' : begin_op s = Ok (true, s') → log_step (ops, cm, s) (MAXOPBLOCKS :: ops, cm, s')
| ls_sleep ops cm s s' : begin_op s = Ok (false, s') → log_step (ops, cm, s) (ops, cm, s')
| ls_write l1 n l2 cm i s s' : 0 < n → log_write i s = Ok (tt, s') →
    log_step (l1 ++ n :: l2, cm, s) (l1 ++ (n - 1) :: l2, cm, s')
| ls_cache {A} ops cm (m : C A) a s s' : lift_bc m s = Ok (a, s') → log_step (ops, cm, s) (ops, cm, s')
| ls_end l1 n l2 cm s s' : end_enter s = Ok (false, s') → log_step (l1 ++ n :: l2, cm, s) (l1 ++ l2, cm, s')
| ls_last l1 n l2 cm s s' : end_enter s = Ok (true, s') →
    log_step (l1 ++ n :: l2, cm, s) (l1 ++ l2, Some (commit_pieces s'), s')
| ls_commit ops m ms s s' : m s = Ok (tt, s') → log_step (ops, Some (m :: ms), s) (ops, Some ms, s')
| ls_done ops s s' : end_finish s = Ok (tt, s') → log_step (ops, Some [], s) (ops, None, s').

Definition zsum (l : list Z) : Z := foldr Z.add 0 l.
Lemma zsum_app l1 l2 : zsum (l1 ++ l2) = zsum l1 + zsum l2.
Proof. unfold zsum. induction l1; simpl; lia. Qed.
Lemma zsum_le l : Forall (λ n, 0 ≤ n ≤ MAXOPBLOCKS) l → 0 ≤ zsum l ≤ MAXOPBLOCKS * zlen l.
Proof. unfold zsum, zlen. induction 1; simpl; lia. Qed.

(** What [commit] leaves alone. *)
Record same_calls (s s' : logst) : Prop := {
  sc_lock : l_locked s' = l_locked s;
  sc_com : l_committing s' = l_committing s;
  sc_out : l_outstanding s' = l_outstanding s;
  sc_slp : l_sleepers s' = l_sleepers s;
}.
#[local] Instance same_calls_preorder : PreOrder same_calls.
Proof. split; [done|]. intros ? ? ? [] []. split; congruence. Qed.
Lemma ckeeps_lift {A} (m : C A) : keeps same_calls (lift_bc m).
Proof. intros s a s'. unfold lift_bc. destruct (m (l_bc s)) as [[]| | |]; [|done..]. intros [= _ <-]. by split. Qed.
#[local] Hint Resolve ckeeps_lift : keeps.
#[local] Hint Extern 1 (keeps same_calls (modify _)) => apply keeps_modify; by split : keeps.

#[local] Existing Instance same_n_preorder.
#[local] Hint Resolve nkeeps_lift : keeps.
(** What is left of a commit: its last step sets [log.lh.n], the others do not
    change it; none changes the calls. *)
Definition commit_left (ms : list (LG unit)) (s : logst) : Prop :=
  Forall (keeps same_calls) ms ∧
  (ms = [] ∧ lh_n s = 0 ∨ ∃ l m, ms = l ++ [setf lh_n 0 ;; m] ∧ Forall (keeps same_n) l ∧ keeps same_n m).
Lemma commit_pieces_left s : 0 ≤ lh_n s → commit_left (commit_pieces s) s.
Proof.
  unfold commit_left, commit_pieces. intros Hn. destruct (Z.ltb_spec 0 (lh_n s)); [|split; [constructor|left; split; [done|lia]]].
  unfold commit_steps, write_log1, write_head, install1, get_block. rewrite !app_assoc. split.
  - rewrite !Forall_app, !Forall_fmap, !Forall_singleton.
    split_and!; try (apply Forall_forall; intros x _; unfold compose); keeps_solve.
  - right. eexists _, _. split; [reflexivity|]. rewrite !Forall_app, !Forall_fmap, !Forall_singleton.
    split_and!; try (apply Forall_forall; intros x _; unfold compose); keeps_solve.
Qed.
Lemma commit_piece m ms s s' : commit_left (m :: ms) s → m s = Ok (tt, s') →
  commit_left ms s' ∧ same_calls s s' ∧ (lh_n s' = lh_n s ∨ lh_n s' = 0).
Proof.
  intros [[Hm Hms]%Forall_cons [[? _]|(l & m' & E & Hl & Hm')]] Em; [done|]. split; [split; [done|]|split; [by eapply Hm|]];
    destruct l as [|m1 l]; injection E as -> ->.
  - left. split; [done|]. minv Em. injection E as _ <-. by apply Hm' in Em as ->.
  - apply Forall_cons in Hl as [Hm1 Hl]. right. by exists l, m'.
  - right. minv Em. injection E as _ <-. by apply Hm' in Em as ->.
  - apply Forall_cons in Hl as [Hm1 Hl]. left. by eapply Hm1.
Qed.

(** Enough space is reserved; while a commit runs there is no call under way; and
    whoever sleeps will be woken by the end of a call or of the commit. *)
Record space_ok (ops : list Z) (cm : option (list (LG unit))) (s : logst) : Prop := {
  sp_lock : l_locked s = false;
  sp_com : l_committing s = if cm is Some _ then 1 else 0;
  sp_out : l_outstanding s = zlen ops;
  sp_ops : Forall (λ n, 0 ≤ n ≤ MAXOPBLOCKS) ops;
  sp_n : 0 ≤ lh_n s;
  sp_room : lh_n s + zsum ops ≤ LOGBLOCKS;
  sp_len : zlen ops ≤ 3;
  sp_commit : if cm is Some ms then ops = [] ∧ commit_left ms s else True;
  sp_wake : l_sleepers s ≠ [] → ops ≠ [] ∨ cm ≠ None;
  sp_idle : ops = [] → cm = None → lh_n s = 0;
}.

Lemma begin_op_inv s b s' : l_locked s = false → 0 ≤ lh_n s ≤ LOGBLOCKS → 0 ≤ l_outstanding s ≤ 3 →
  begin_op s = Ok (b, s') →
  if b then l_committing s = 0 ∧ lh_n s + (l_outstanding s + 1) * MAXOPBLOCKS ≤ LOGBLOCKS ∧
            s' = s <| l_outstanding := l_outstanding s + 1 |>
  else (l_committing s ≠ 0 ∨ LOGBLOCKS < lh_n s + (l_outstanding s + 1) * MAXOPBLOCKS) ∧
       s' = s <| l_sleepers ::= λ l, bc_mypid (l_bc s) :: l |>.
Proof.
  intros Hlk Hn Hout. unfold begin_op, acquire_log. erewrite bind_step by (mred; rewrite Hlk; done).
  do 3 (erewrite bind_step by reflexivity). simpl. rewrite i32_id by lia.
  destruct (Z.eqb_spec (l_committing s) 0) as [Hcom|Hcom], (Z.ltb_spec LOGBLOCKS (lh_n s + (l_outstanding s + 1) * MAXOPBLOCKS));
    simpl; intros E.
  2: { minv E. injection E0 as _ <-. unfold release_log in E. mred in E. injection E as <- <-.
       split; [done|]. split; [lia|]. destruct s. simpl in *. subst. unfold upd, upd_l_outstanding, upd_l_locked. simpl. by rewrite i32_id by lia. }
  all: minv E; injection E0 as <- <-; minv E; injection E0 as _ <-; unfold release_log in E; mred in E; injection E as <- <-.
  all: split; [by first [by left|right; lia]|]; destruct s; simpl in *; by subst.
Qed.

Lemma log_write_inv s i s' : log_write i s = Ok (tt, s') → l_locked s = false → 0 ≤ lh_n s →
  same_calls s s' ∧ lh_n s ≤ lh_n s' ≤ lh_n s + 1.
Proof.
  intros E Hlk Hn. unfold log_write, acquire_log in E. erewrite bind_step in E by (mred; rewrite Hlk; done).
  minv E. injection E0 as <- <-. simpl in E. destruct (Z.leb_spec LOGBLOCKS (lh_n s)); [done|].
  minv E. injection E0 as <- <-. destruct (_ <? 1); [done|]. minv E.
  assert (s0 = s <| l_locked := true |> <| l_bc := l_bc s0 |>) as Es0.
  { unfold lift_bc in E0. destruct (getb i _) as [[]| | |]; [|done..]. by injection E0 as _ <-. }
  minv E. injection E1 as <- <-. minv E. minv E.
  assert (∃ bl, s1 = s0 <| lh_block := bl |>) as [bl ->].
  { unfold set_block in E1. minv E1. injection E3 as <- <-. destruct (znth _ _); [|done]. injection E1 as _ <-. by eexists. }
  assert (same_calls (s0 <| lh_block := bl |>) s2 ∧ (lh_n s2 = lh_n s ∨ lh_n s2 = lh_n s + 1)) as [[] Hn2].
  { destruct (_ =? lh_n s); simpl in E2.
    - minv E2. injection E2 as _ <-. apply ckeeps_lift in E3 as []. split; [split; done|]. right. simpl.
      rewrite i32_id by lia. done.
    - injection E2 as _ <-. split; [done|]. left. by rewrite Es0. }
  unfold release_log in E. minv E. injection E3 as <- <-. destruct (l_locked s2); [|done]. injection E as <-.
  rewrite Es0 in *. simpl in *. split; [split; simpl; congruence|]. simpl. lia.
Qed.

Lemma end_enter_ok s : l_locked s = false → l_committing s = 0 → 1 ≤ l_outstanding s ≤ 3 →
  end_enter s = Ok (l_outstanding s =? 1, let s1 := s <| l_outstanding := l_outstanding s - 1 |> in
    if l_outstanding s =? 1 then s1 <| l_committing := 1 |> else s1 <| l_sleepers := [] |>).
Proof.
  intros Hlk Hcom Hout. unfold end_enter, acquire_log. erewrite bind_step by (mred; rewrite Hlk; done).
  do 2 (erewrite bind_step by reflexivity). simpl. rewrite Hcom. simpl. erewrite bind_step by reflexivity. simpl. rewrite i32_id by lia.
  replace (l_outstanding s - 1 =? 0) with (l_outstanding s =? 1) by (destruct (Z.eqb_spec (l_outstanding s) 1), (Z.eqb_spec (l_outstanding s - 1) 0); lia).
  destruct (l_outstanding s =? 1); (erewrite bind_step by reflexivity); unfold release_log; (erewrite bind_step by reflexivity);
    apply Ok_pair; destruct s; simpl in *; subst; unfold upd, upd_l_outstanding, upd_l_locked, upd_l_committing, upd_l_sleepers; simpl;
    by rewrite i32_id by lia.
Qed.
Lemma end_finish_ok s : l_locked s = false → end_finish s = Ok (tt, s <| l_committing := 0 |> <| l_sleepers := [] |>).
Proof.
  intros Hlk. unfold end_finish, acquire_log. erewrite bind_step by (mred; rewrite Hlk; done).
  do 2 (erewrite bind_step by reflexivity). unfold release_log. erewrite bind_step by reflexivity. simpl. destruct s. simpl in *. by subst.
Qed.

Lemma zlen_mid {A} (l1 : list A) x l2 : zlen (l1 ++ x :: l2) = zlen (l1 ++ l2) + 1.
Proof. unfold zlen. rewrite !length_app. simpl. lia. Qed.
Lemma zsum_mid l1 n l2 : zsum (l1 ++ n :: l2) = zsum (l1 ++ l2) + n.
Proof. rewrite !zsum_app. simpl. lia. Qed.

Lemma commit_left_ext ms s s' : lh_n s' = lh_n s → commit_left ms s → commit_left ms s'.
Proof. unfold commit_left. by intros ->. Qed.

Lemma begin_space ops cm s b s' : space_ok ops cm s → begin_op s = Ok (b, s') →
  space_ok (if b then MAXOPBLOCKS :: ops else ops) cm s'.
Proof.
  intros [Hlk Hcom Hout Hops Hn Hroom Hlen Hcm Hwake Hidle] E. pose proof (zsum_le _ Hops) as Hsum. pose proof (zlen_nonneg ops).
  apply begin_op_inv in E; [|done|lia|lia]. destruct b.
  - destruct E as (Hc & Hr & ->). destruct cm as [ms|]; [by rewrite Hc in Hcom|].
    assert (zlen (MAXOPBLOCKS :: ops) = zlen ops + 1) as El by (unfold zlen; simpl; lia).
    split; simpl; rewrite ?El; try done; try lia; [constructor; [lia|done]|by left].
  - destruct E as (Hr & ->). split; simpl; try done.
    intros _. destruct ops, cm; [by right|exfalso|by left..]. rewrite Hidle, Hout in Hr by done. unfold zlen in Hr. simpl in Hr. lia.
Qed.

Lemma write_space l1 n l2 cm i s s' : space_ok (l1 ++ n :: l2) cm s → 0 < n → log_write i s = Ok (tt, s') →
  space_ok (l1 ++ (n - 1) :: l2) cm s'.
Proof.
  intros [Hlk Hcom Hout Hops Hn Hroom Hlen Hcm Hwake Hidle] Hpos E. apply log_write_inv in E as [[] Hn']; [|done..].
  destruct cm as [ms|]; [destruct Hcm as [Hnil _]; by destruct l1|].
  rewrite zlen_mid in Hout, Hlen. rewrite zsum_mid in Hroom. apply Forall_app in Hops as [H1 [H2 H3]%Forall_cons].
  split; rewrite ?zlen_mid, ?zsum_mid; try congruence; try lia.
  - apply Forall_app. split; [done|]. constructor; [lia|done].
  - intros _. left. by destruct l1.
  - by destruct l1.
Qed.

Lemma end_space l1 n l2 cm s b s' : space_ok (l1 ++ n :: l2) cm s → end_enter s = Ok (b, s') →
  space_ok (l1 ++ l2) (if b then Some (commit_pieces s') else cm) s' ∧ (b = false → l_sleepers s' = []).
Proof.
  intros [Hlk Hcom Hout Hops Hn Hroom Hlen Hcm Hwake Hidle] E. destruct cm as [ms|]; [destruct Hcm as [Hnil _]; by destruct l1|].
  rewrite zlen_mid in Hout, Hlen. rewrite zsum_mid in Hroom. pose proof (zlen_nonneg (l1 ++ l2)).
  apply Forall_app in Hops as [H1 [H2 H3]%Forall_cons]. rewrite end_enter_ok in E by (done || lia). injection E as <- <-.
  assert (Forall (λ n, 0 ≤ n ≤ 10) (l1 ++ l2)) as Hops by (by apply Forall_app).
  destruct (Z.eqb_spec (l_outstanding s) 1) as [E1|E1].
  - assert (l1 ++ l2 = []) as Hnil by (apply nil_length_inv; unfold zlen in *; lia). split; [|done]. rewrite Hnil in Hroom, Hops |- *.
    simpl in Hroom. split; simpl; try done; [|lia| |by right].
    + rewrite Hout, Hnil. done.
    + split; [done|]. by apply commit_pieces_left.
  - assert (l1 ++ l2 ≠ []) as Hne by (intros Hnil; rewrite Hnil in Hout; by rewrite Hout in E1).
    split; [|done]. split; simpl; try done; lia.
Qed.

Lemma space_step c c' : space_ok c.1.1 c.1.2 c.2 → log_step c c' → space_ok c'.1.1 c'.1.2 c'.2.
Proof.
  intros Hok Hst. destruct Hst as [ops cm s s' E|ops cm s s' E|l1 n l2 cm i s s' Hpos E|A ops cm m a s s' E|l1 n l2 cm s s' E|
    l1 n l2 cm s s' E|ops m ms s s' E|ops s s' E]; simpl in *.
  - apply (begin_space _ _ _ true _ Hok E).
  - apply (begin_space _ _ _ false _ Hok E).
  - by eapply write_space.
  - assert (same_calls s s' ∧ lh_n s' = lh_n s) as [[] En] by (split; [by eapply ckeeps_lift|by eapply nkeeps_lift]).
    destruct Hok as [Hlk Hcom Hout Hops Hn Hroom Hlen Hcm Hwake Hidle]. split; rewrite ?En; try congruence; try done; [|by rewrite sc_slp0].
    destruct cm as [ms|]; [|done]. split; [by apply Hcm|]. eapply commit_left_ext; [exact En|by apply Hcm].
  - by apply (end_space l1 n l2 cm s false s' Hok E).
  - by apply (end_space l1 n l2 cm s true s' Hok E).
  - destruct Hok as [Hlk Hcom Hout Hops Hn Hroom Hlen [-> Hcm] Hwake Hidle].
    destruct (commit_piece m ms s s' Hcm E) as (Hcm' & [] & Hn'). simpl in Hroom.
    split; try done; try congruence; [lia|simpl; lia|by right].
  - destruct Hok as [Hlk Hcom Hout Hops Hn Hroom Hlen [-> [_ [[_ Hcm]|(l & m & Hnil & _)]]] Hwake Hidle]; [|by destruct l].
    rewrite end_finish_ok in E by done. injection E as <-. split; simpl; done.
Qed.

(** The messages a computation can panic with. *)
Definition panics {S A} (es : list string) (m : M S A) : Prop := ∀ s e, m s = Panic e → e ∈ es.
Lemma panics_bind {S A B} es (m : M S A) (f : A → M S B) : panics es m → (∀ a, panics es (f a)) → panics es (m ≫= f).
Proof. intros Hm Hf s e. unfold mbind, M_bind. destruct (m s) as [[a s']| | |] eqn:E; [apply Hf|intros [= <-]; by eapply Hm|done..]. Qed.
Lemma panics_ret {S A} es (a : A) : panics es (mret a : M S A).
Proof. by intros s e [=]. Qed.
Lemma panics_lift {A} es (m : C A) : panics es m → panics es (lift_bc m).
Proof. intros Hm s e. unfold lift_bc. destruct (m (l_bc s)) as [[]| | |] eqn:E; [done|intros [= <-]; by eapply Hm|done..]. Qed.

(** C19. The log never overflows and never leaves a process asleep for ever: in any
    interleaving of file system calls that each log at most [MAXOPBLOCKS] blocks,
    of commits, which run without the log's lock, write by write, and of other
    uses of the buffer cache, a call that has not used up its allowance never
    makes [log_write] panic, and no call's [end_op] panics because a commit is
    under way. While a commit runs no call is under way, and whoever tries to
    begin one goes to sleep. A process asleep in [begin_op] implies that a call is
    under way or a commit is: the end of a call wakes it, or starts a commit,
    whose end wakes it. And when no call and no commit is under way, [begin_op]
    admits the next one at once. *)
Theorem log_space_reserved s0 ops cm s :
  space_ok [] None s0 → rtc log_step ([], None, s0) (ops, cm, s) →
  (∀ i, Exists (λ n, 0 < n) ops → log_write i s ≠ Panic "too big a transaction" ∧
                                  log_write i s ≠ Panic "log_write outside of trans") ∧
  (cm ≠ None → ops = [] ∧ ∃ s', begin_op s = Ok (false, s') ∧ bc_mypid (l_bc s) ∈ l_sleepers s') ∧
  (l_sleepers s ≠ [] → ops ≠ [] ∨ cm ≠ None) ∧
  (ops ≠ [] → ∃ last s', end_enter s = Ok (last, s') ∧ (last = false → l_sleepers s' = [])) ∧
  (cm = Some [] → ∃ s', end_finish s = Ok (tt, s') ∧ l_sleepers s' = []) ∧
  (ops = [] → cm = None → ∃ s', begin_op s = Ok (true, s')).
Proof.
  intros H0 Hreach. assert (space_ok ops cm s) as Hok.
  { assert (∀ c c', rtc log_step c c' → space_ok c.1.1 c.1.2 c.2 → space_ok c'.1.1 c'.1.2 c'.2) as Hind.
    { induction 1 as [|c1 c2 c3 Hst _ IH]; [done|]. intros Hc. by eapply IH, space_step. }
    exact (Hind _ _ Hreach H0). }
  pose proof Hok as [Hlk Hcom Hout Hops Hn Hroom Hlen Hcm Hwake Hidle].
  pose proof (zsum_le _ Hops) as Hsum. pose proof (zlen_nonneg ops). split; [|split; [|split; [done|split; [|split]]]].
  - intros i Hex.
    assert (lh_n s < LOGBLOCKS ∧ 1 ≤ l_outstanding s) as [Hr1 Hr2].
    { apply Exists_exists in Hex as (n & Hin & Hpos). apply list_elem_of_split in Hin as (l1 & l2 & ->).
      rewrite zsum_app in Hroom. simpl in Hroom. apply Forall_app in Hops as [H6 [H7 H8]%Forall_cons].
      pose proof (zsum_le _ H6). pose proof (zsum_le _ H8). unfold zlen in *. rewrite length_app in *. simpl in *. lia. }
    assert (∀ e, log_write i s = Panic e → e ∈ ["acquire"; "release"]%string) as Hp.
    { unfold log_write, acquire_log. erewrite bind_step by (mred; rewrite Hlk; done).
      erewrite bind_step by reflexivity. simpl. destruct (Z.leb_spec LOGBLOCKS (lh_n s)); [lia|].
      erewrite bind_step by reflexivity. simpl. destruct (Z.ltb_spec (l_outstanding s) 1); [lia|].
      assert (∀ {A} (o : option A), panics ["acquire"; "release"]%string (opt o : M bcache A)) as Hopt
        by (intros A [] ? ? [=]).
      assert (panics ["acquire"; "release"]%string (getb i)) as Hg
        by (unfold getb; apply panics_bind; [intros ? ? [=]|intros ?; apply Hopt]).
      match goal with |- ∀ e, ?m ?x = Panic e → _ => assert (panics ["acquire"; "release"]%string m) as Hm; [|exact (Hm x)] end.
      apply panics_bind; [by apply panics_lift|]. intros bf. apply panics_bind; [intros ? ? [=]|]. intros bl.
      apply panics_bind; [|intros _; apply panics_bind].
      - unfold set_block. apply panics_bind; [intros ? ? [=]|]. intros l. destruct (znth _ _); intros ? ? [=].
      - destruct (_ =? _); [|intros ? ? [=]]. simpl. apply panics_bind; [|intros _ ? ? [=]]. apply panics_lift.
        unfold bpin, acquire_bc, release_bc, updb. apply panics_bind; [|intros _; apply panics_bind; [|intros _]].
        + apply panics_bind; [intros ? ? [=]|]. intros []; intros ? ? [=]; set_solver.
        + apply panics_bind; [done|]. intros ? ? ? [=].
        + apply panics_bind; [intros ? ? [=]|]. intros []; intros ? ? [=]; set_solver.
      - intros _. unfold release_log. apply panics_bind; [intros ? ? [=]|]. intros []; intros ? ? [=]; set_solver. }
    split; intros E%Hp; set_solver.
  - destruct cm as [ms|]; [|done]. intros _. destruct Hcm as [-> _]. split; [done|]. simpl in Hcom.
    unfold begin_op, acquire_log. erewrite bind_step by (mred; rewrite Hlk; done).
    do 3 (erewrite bind_step by reflexivity). simpl. rewrite Hcom. simpl. eexists. split; [reflexivity|]. simpl. by left.
  - destruct ops as [|n ops]; [done|]. intros _. destruct cm as [ms|]; [by destruct Hcm|].
    assert (zlen (n :: ops) = 1 + zlen ops) as El by (unfold zlen; simpl; lia). pose proof (zlen_nonneg ops).
    pose proof (end_enter_ok s Hlk Hcom ltac:(lia)) as E. eexists _, _. split; [exact E|].
    apply (end_space [] n ops None s _ _ Hok E).
  - intros ->. eexists. split; [by apply end_finish_ok|done].
  - intros -> ->. simpl in Hcom. unfold begin_op, acquire_log. erewrite bind_step by (mred; rewrite Hlk; done).
    do 3 (erewrite bind_step by reflexivity). simpl. rewrite Hcom, Hout, Hidle by done. simpl. by eexists.
Qed.

(** ** A small disk *)

(** A machine with disk [d], its log at block 2, after recovery. *)
Definition fresh_log (d : gmap Z (list Z)) : logst := MkLog false 2 0 0 ROOTDEV 0 (zrepl LOGBLOCKS 0) [] (boot_bcache d 1).
Definition demo_log : logst := fresh_log ∅.

Lemma fresh_quiescent d : (∀ b v, d !! b = Some v → zlen v = BSIZE) → d !! 2 = None → quiescent (fresh_log d).
Proof.
  intros Hd H2. destruct (boot_okx d 1) as (H & R & V); [done|].
  split; [|done..]. split; [by split| |exact H|intros b Hb; inversion Hb|intros b _; apply R|].
  - split; [done|intros i b Hi%znth_Some; unfold zlen in Hi; simpl in Hi; lia|constructor|intros b Hb; inversion Hb|done].
  - simpl. unfold disk_get. rewrite H2. split; [reflexivity|]. split; [vm_compute; reflexivity|].
    intros i b Hi%znth_Some. unfold zlen in Hi. simpl in Hi. lia.
Qed.
Lemma demo_quiescent : quiescent demo_log.
Proof. apply fresh_quiescent; [by intros b v Hb%lookup_empty_Some|done]. Qed.

Lemma demo_home b : 40 ≤ b < 100 → home demo_log b.
Proof. intros Hb. split; [lia|]. unfold in_log. simpl. lia. Qed.

Lemma fs_call_applies_witness :
  ∃ s', fs_call [(40, zrepl BSIZE 7); (41, zrepl BSIZE 9)] demo_log = Ok (true, s') ∧
    disk_get (bc_disk (l_bc s')) 40 = zrepl BSIZE 7 ∧ disk_get (bc_disk (l_bc s')) 41 = zrepl BSIZE 9.
Proof.
  destruct (fs_call_applies [(40, zrepl BSIZE 7); (41, zrepl BSIZE 9)] demo_log) as (s' & E & _ & _ & V).
  - apply demo_quiescent.
  - apply Forall_cons. split; [split; [apply demo_home; simpl; lia|reflexivity]|].
    apply Forall_singleton. split; [apply demo_home; simpl; lia|reflexivity].
  - unfold zlen. simpl. lia.
  - exists s'. split; [exact E|]. destruct (V 40) as [_ ->]; [apply demo_home; lia|].
    destruct (V 41) as [_ ->]; [apply demo_home; lia|]. split; reflexivity.
Defined.

Lemma commit_crash_safe_witness :
  ∃ s, ready s [40] ∧ disk_get (bc_disk (l_bc s)) 40 = zrepl BSIZE 0 ∧
    ∀ pid, ∃ s1 s2 r1 r2, run_steps (take 1 (commit_steps 1)) s = Ok (tt, s1) ∧
      run_steps (take 2 (commit_steps 1)) s = Ok (tt, s2) ∧
      initlog ROOTDEV 2 (boot_log (bc_disk (l_bc s1)) pid) = Ok (tt, r1) ∧ bc_view (l_bc r1) 40 = zrepl BSIZE 0 ∧
      initlog ROOTDEV 2 (boot_log (bc_disk (l_bc s2)) pid) = Ok (tt, r2) ∧ bc_view (l_bc r2) 40 = zrepl BSIZE 7.
Proof.
  destruct (log_update_ok (demo_log <| l_outstanding := 1 |>) [] 40 (λ _, zrepl BSIZE 7))
    as (s & _ & Hr & Hs & Hd & Hv).
  - apply (ready_ext demo_log); [reflexivity..|apply demo_quiescent].
  - reflexivity.
  - simpl. lia.
  - apply demo_home. lia.
  - reflexivity.
  - unfold zlen. simpl. lia.
  - assert (home s 40) as Hh by (unfold home, in_log; rewrite (sl_st _ _ Hs); simpl; lia).
    assert (disk_get (bc_disk (l_bc s)) 40 = zrepl BSIZE 0) as Hz by (rewrite Hd; reflexivity).
    assert (bc_view (l_bc s) 40 = zrepl BSIZE 7) as H7 by (rewrite Hv; reflexivity).
    assert (l_start s = 2) as Est by (apply (sl_st _ _ Hs)).
    exists s. split; [exact Hr|]. split; [exact Hz|]. intros pid.
    destruct (commit_crash_safe s [40] 1 Hr) as (_ & _ & s1 & E1 & R1); [discriminate|simpl; lia|].
    destruct (commit_crash_safe s [40] 2 Hr) as (_ & _ & s2 & E2 & R2); [discriminate|simpl; lia|].
    destruct (R1 pid) as (r1 & Er1 & V1). destruct (R2 pid) as (r2 & Er2 & V2). rewrite Est in Er1, Er2.
    exists s1, s2, r1, r2. split; [exact E1|]. split; [exact E2|]. split; [exact Er1|].
    split; [rewrite (V1 40 Hh); exact Hz|]. split; [exact Er2|]. rewrite (V2 40 Hh). exact H7.
Defined.

(** A call, then its commit: another process tries to begin in between. *)
Lemma log_space_reserved_witness :
  ∃ s1 s2 s3 s4 s5, begin_op demo_log = Ok (true, s1) ∧ end_enter s1 = Ok (true, s2) ∧ begin_op s2 = Ok (false, s3) ∧
    l_sleepers s3 ≠ [] ∧ end_finish s3 = Ok (tt, s4) ∧ l_sleepers s4 = [] ∧ begin_op s4 = Ok (true, s5).
Proof.
  assert (space_ok [] None demo_log) as H0.
  { split; try reflexivity; try (simpl; lia); [constructor|discriminate|done]. }
  destruct (log_space_reserved demo_log [] None demo_log H0 (rtc_refl _ _)) as (_ & _ & _ & _ & _ & H).
  destruct (H eq_refl eq_refl) as [s1 E1]. pose proof (ls_begin [] None demo_log s1 E1) as S1.
  destruct (log_space_reserved demo_log [MAXOPBLOCKS] None s1 H0 (rtc_once _ _ S1)) as (_ & _ & _ & Hend & _ & _).
  destruct Hend as (last & s2 & E2 & _); [done|].
  assert (last = true ∧ lh_n s2 = 0) as [-> Hn].
  { pose proof (begin_op_inv demo_log true s1 eq_refl ltac:(simpl; lia) ltac:(simpl; lia) E1) as (_ & _ & ->).
    rewrite end_enter_ok in E2 by (simpl; (done || lia)). by injection E2 as <- <-. }
  pose proof (ls_last [] MAXOPBLOCKS [] None s1 s2 E2) as S2. unfold commit_pieces in S2. rewrite Hn in S2. simpl in S2.
  assert (rtc log_step ([], None, demo_log) ([], Some [], s2)) as R2 by (eapply rtc_l; [exact S1|by apply rtc_once]).
  destruct (log_space_reserved demo_log [] (Some []) s2 H0 R2) as (_ & Hc & _). destruct Hc as (_ & s3 & E3 & Hin); [done|].
  assert (rtc log_step ([], None, demo_log) ([], Some [], s3)) as R3 by (eapply rtc_r; [exact R2|by apply ls_sleep]).
  destruct (log_space_reserved demo_log [] (Some []) s3 H0 R3) as (_ & _ & _ & _ & Hf & _). destruct (Hf eq_refl) as (s4 & E4 & Hnil).
  assert (rtc log_step ([], None, demo_log) ([], None, s4)) as R4 by (eapply rtc_r; [exact R3|by apply ls_done]).
  destruct (log_space_reserved demo_log [] None s4 H0 R4) as (_ & _ & _ & _ & _ & Hb). destruct (Hb eq_refl eq_refl) as (s5 & E5).
  exists s1, s2, s3, s4, s5. do 3 (split; [done|]). split; [intros Hs; rewrite Hs in Hin; by apply not_elem_of_nil in Hin|done].
Defined.

(** Three calls admitted together, logging ten blocks each. *)
Definition three_calls : LG bool :=
  a ← begin_op; b ← begin_op; c ← begin_op;
  for_each (λ b, log_update b (λ d, d)) (seqZ 100 30) ;; end_op ;; end_op ;; mret (a && b && c).

(** Three file system calls that [begin_op] admits together, each logging its
    full allowance of [MAXOPBLOCKS] distinct blocks, bring the machine down: the
    30 pinned blocks take all [NBUF] buffers, and the commit at the end of the
    last call panics for want of a buffer for the log. *)
Theorem three_full_calls_panic :
  match three_calls demo_log with
  | Ok (admitted, s) => admitted = true ∧ l_outstanding s = 1 ∧ lh_n s = LOGBLOCKS ∧
                        end_op s = Panic "bget: no buffers"
  | _ => False
  end.
Proof. vm_compute. auto. Qed.
