(* ===== verification/LogUse.v ===== *)
(** * Blocks inside a transaction

    What a file system call does with blocks between [begin_op] and [end_op]:
    it reads blocks into buffers it holds, looks at them, changes and logs them,
    and releases them. [in_trans s P H] is the state of the log in the middle of
    that, with [P] logged and the buffers [H] held, each with its block. *)

From stdpp Require Import base numbers list gmap strings.
From S2P Require Import Prelude Machine KState Bio BufProps Log LogProps.
Open Scope Z_scope.
Open Scope kernel_scope.

Implicit Types (s : logst) (P : list Z) (H : list (nat * Z)).

Record in_trans s P H : Prop := {
  us_wf : log_wf s;
  us_lists : lists s P;
  us_ok : okx H.*1 (l_bc s);
  us_idx : NoDup H.*1;
  us_blk : NoDup H.*2;
  us_holds i b : (i, b) ∈ H → holds (l_bc s) i b;
  us_refs b : refs (l_bc s) b = (if decide (b ∈ P) then 1 else 0) + (if decide (b ∈ H.*2) then 1 else 0);
  us_clean b : b ∉ P → bc_view (l_bc s) b = disk_get (bc_disk (l_bc s)) b;
  us_empty : is_header (disk_get (bc_disk (l_bc s)) (l_start s)) [];
  us_lock : l_locked s = false;
  us_out : 1 ≤ l_outstanding s;
}.

(** From [s] to [s'] nothing has changed but the contents of the blocks, as seen
    through the cache, to [v]; the disk is untouched. *)
Record shows (v : Z → list Z) s s' : Prop := {
  sh_log : same_log s s';
  sh_disk : bc_disk (l_bc s') = bc_disk (l_bc s);
  sh_view b : bc_view (l_bc s') b = v b;
}.
Abbreviation calm s s' := (shows (bc_view (l_bc s)) s s').
Definition with_block (v : Z → list Z) (b : Z) (d : list Z) (b' : Z) : list Z := if decide (b' = b) then d else v b'.

Lemma shows_trans v v' s1 s2 s3 : shows v s1 s2 → shows v' s2 s3 → shows v' s1 s3.
Proof. intros [[] ? ?] [[] ? ?]. split; [split; congruence|congruence|done]. Qed.
Lemma shows_view v s s' s'' : shows v s s' → calm s' s'' → shows v s s''.
Proof. intros H1 H2. pose proof (shows_trans _ _ _ _ _ H1 H2) as []. split; [done|done|]. intros b. rewrite sh_view0. apply H1. Qed.

Lemma ready_trans s P : ready s P → l_locked s = false → 1 ≤ l_outstanding s → in_trans s P [].
Proof.
  intros Hr Hl Ho. pose proof Hr as [? ? ? Hp Hot ?]. split; try done; [constructor|constructor|set_solver| |].
  - intros b. rewrite (decide_False (P := b ∈ [].*2)) by (by apply not_elem_of_nil). destruct (decide (b ∈ P)); [by rewrite Hp|by rewrite Hot].
  - intros b Hb. eapply clean0; [done|]. by apply Hot.
Qed.
Lemma trans_ready s P : in_trans s P [] → ready s P.
Proof.
  intros [? ? ? ? ? ? Hr ? ? ? ?]. split; try done; intros b Hb; rewrite Hr, (decide_False (P := b ∈ [].*2)) by set_solver;
    [by rewrite decide_True|by rewrite decide_False].
Qed.

#[local] Opaque refs bc_view disk_get bread bwrite brelse bpin bunpin.

Section use.
Lemma in_fst i b H : (i, b) ∈ H → i ∈ H.*1.
Proof. intros Hin. apply list_elem_of_fmap. by exists (i, b). Qed.
Lemma in_snd i b H : (i, b) ∈ H → b ∈ H.*2.
Proof. intros Hin. apply list_elem_of_fmap. by exists (i, b). Qed.

(** Reading a block that is not held. *)
Lemma use_bread s P H b : in_trans s P H → 0 ≤ b < FSSIZE → b ∉ H.*2 → zlen P + zlen H < NBUF →
  ∃ i s', lift_bc (bread ROOTDEV b) s = Ok (i, s') ∧ in_trans s' P ((i, b) :: H) ∧ calm s s'.
Proof.
  intros [Hwf Hli Hok Hix Hbk Hho Hrf Hcl Hem Hlk Hou] Hb HbH Hn.
  assert (uses_only (P ++ H.*2) (l_bc s)) as Hu.
  { intros x Hx. rewrite Hrf in Hx. apply elem_of_app. destruct (decide (x ∈ P)); [by left|].
    destruct (decide (x ∈ H.*2)); [by right|done]. }
  destruct (bread_held H.*1 (l_bc s) (P ++ H.*2) b) as (i & c' & E & Hi & Hok' & Hh & _ & D & B); [done|done|done| | | |].
  { intros j Hj Hjb. apply list_elem_of_fmap in Hj as ([j' x] & -> & Hj). simpl in *. pose proof (Hho _ _ Hj) as (o & Ho & _ & Hob & _).
    destruct Hjb as (o' & Ho' & _ & Hob' & _). apply HbH. replace b with x by congruence. by eapply in_snd. }
  { right. unfold zlen in *. rewrite length_app, length_fmap. lia. }
  { rewrite Hrf. repeat case_decide; lia. }
  exists i, (s <| l_bc := c' |>). split; [by apply lift_bc_ok|].
  assert (∀ x, bc_view c' x = bc_view (l_bc s) x) as Ev.
  { intros x. rewrite (does_view _ _ _ _ _ _ x D). by destruct (decide (x = b)) as [->|]. }
  split; [|split; [by split|done|done]].
  split; simpl; try done.
  - by apply log_wf_bc.
  - by apply lists_bc.
  - by apply NoDup_cons.
  - by apply NoDup_cons.
  - intros j x [[= -> ->]|Hj]%elem_of_cons; [done|].
    eapply does_holds; [exact D| | |by apply Hho]; [intros ->; by apply HbH, (in_snd j)|].
    rewrite Hrf, (decide_True (P := x ∈ H.*2)) by (by eapply in_snd). case_decide; lia.
  - intros x. rewrite (does_refs _ _ _ _ _ _ x D). destruct (decide (x = b)) as [->|Hne].
    + rewrite Hrf, (decide_False (P := b ∈ H.*2)), (decide_True (P := b ∈ b :: _)) by set_solver. lia.
    + rewrite Hrf. f_equal. apply decide_ext. set_solver.
  - intros x Hx. rewrite Ev, B. by apply Hcl.
  - by rewrite B.
Qed.

(** Looking at a held block. *)
Lemma use_getb s P H i b : in_trans s P H → (i, b) ∈ H →
  ∃ o, lift_bc (getb i) s = Ok (o, s) ∧ b_data o = bc_view (l_bc s) b.
Proof.
  intros [] Hin. destruct (holds_buf _ _ i b us_ok0 (us_holds0 _ _ Hin)) as (o & Ho & _ & _ & _ & _ & Ev & _).
  exists o. split; [|done]. erewrite lift_bc_ok by (by apply getb_ok). apply Ok_pair. by destruct s.
Qed.

(** A block is held in one buffer. *)
Lemma held_once H i j b : NoDup H.*2 → (i, b) ∈ H → (j, b) ∈ H → i = j.
Proof.
  intros Hnd [k Hk]%list_elem_of_lookup [k' Hk']%list_elem_of_lookup.
  assert (k = k') as <-; [|congruence]. eapply NoDup_lookup; [exact Hnd| |]; by rewrite list_lookup_fmap, ?Hk, ?Hk'.
Qed.

(** Changing a held block and logging it. *)
Lemma use_write s P H i b f : in_trans s P H → (i, b) ∈ H → home s b → zlen (f (bc_view (l_bc s) b)) = BSIZE →
  zlen P + 1 < NBUF →
  ∃ s1 s', lift_bc (updb i (λ bf, bf <| b_data ::= f |>)) s = Ok (tt, s1) ∧ log_write i s1 = Ok (tt, s') ∧
    in_trans s' (logged P b) H ∧ shows (with_block (bc_view (l_bc s)) b (f (bc_view (l_bc s) b))) s s'.
Proof.
  intros [Hwf Hli Hok Hix Hbk Hho Hrf Hcl Hem Hlk Hou] Hin [Hb Hnl] Hf Hn.
  pose proof (in_fst _ _ _ Hin) as Hi. pose proof (in_snd _ _ _ Hin) as HbH.
  destruct (set_datax H.*1 (l_bc s) i b f) as (c2 & E2 & H2 & Hh2 & D2 & B2); [done|done|by apply Hho|done|].
  assert (refs (l_bc s) b = (if decide (b ∈ P) then 1 else 0) + 1) as Hr by (by rewrite Hrf, (decide_True (P := b ∈ H.*2))).
  destruct (log_write_ok H.*1 (s <| l_bc := c2 |>) P i b) as (c3 & bl & E3 & Hbl & Hli3 & H3 & Hh3 & B3 & D3); try done;
    [by apply log_wf_bc|by apply lists_bc|simpl; rewrite (do_refs _ _ _ _ _ _ D2), Hr; case_decide; lia|].
  simpl in D3, B3. rewrite (do_view _ _ _ _ _ _ D2), (do_refs _ _ _ _ _ _ D2), B2 in D3.
  pose proof (does_trans _ _ _ _ _ _ _ _ _ _ D2 D3) as D.
  eexists _, _. split; [apply lift_bc_ok, E2|]. split; [exact E3|].
  assert (∀ x, bc_view c3 x = with_block (bc_view (l_bc s)) b (f (bc_view (l_bc s) b)) x) as Ev
    by (intros x; apply (does_view _ _ _ _ _ _ x D)).
  split; [|split; [by split|simpl; congruence|exact Ev]].
  split; simpl; try done.
  - destruct Hwf. by split.
  - intros j x Hj. destruct (decide (x = b)) as [->|Hne].
    + by rewrite (held_once H j i b).
    + eapply does_holds; [exact D|done| |by apply Hho].
      rewrite Hrf, (decide_True (P := x ∈ H.*2)) by (by eapply in_snd). destruct (decide (x ∈ P)); lia.
  - intros x. rewrite (does_refs _ _ _ _ _ _ x D). destruct (decide (x = b)) as [->|Hne].
    + rewrite Hr, (decide_True (P := b ∈ H.*2)), (decide_True (P := b ∈ logged P b)) by (done || by apply elem_logged; left).
      case_decide; lia.
    + rewrite Hrf. f_equal. apply decide_ext. rewrite elem_logged. naive_solver.
  - intros x Hx. rewrite elem_logged in Hx. rewrite Ev. unfold with_block. rewrite decide_False by naive_solver.
    rewrite B3, B2. apply Hcl. naive_solver.
  - by rewrite B3, B2.
Qed.

(** Releasing the block read last. *)
Lemma use_brelse s P H i b : in_trans s P ((i, b) :: H) →
  ∃ s', lift_bc (brelse i) s = Ok (tt, s') ∧ in_trans s' P H ∧ calm s s'.
Proof.
  intros [Hwf Hli Hok Hix Hbk Hho Hrf Hcl Hem Hlk Hou]. cbn [fmap list_fmap fst snd] in *.
  apply NoDup_cons in Hix as [Hi Hix]. apply NoDup_cons in Hbk as [HbH Hbk].
  assert (refs (l_bc s) b = (if decide (b ∈ P) then 1 else 0) + 1) as Hr
    by (rewrite Hrf; f_equal; by rewrite decide_True by set_solver).
  destruct (brelsex H.*1 (l_bc s) i b) as (c' & E & Hok' & D & B); [done|done|apply Hho, in_hd| |].
  { intros Hone. apply Hcl. rewrite Hr in Hone. case_decide; [lia|done]. }
  exists (s <| l_bc := c' |>). split; [by apply lift_bc_ok|].
  assert (∀ x, bc_view c' x = bc_view (l_bc s) x) as Ev.
  { intros x. rewrite (does_view _ _ _ _ _ _ x D). by destruct (decide (x = b)) as [->|]. }
  split; [|split; [by split|done|done]].
  split; simpl; try done.
  - by apply log_wf_bc.
  - by apply lists_bc.
  - intros j x Hj. eapply does_holds; [exact D| | |apply Hho; set_solver]; [intros ->; by apply HbH, (in_snd j)|].
    rewrite Hrf, (decide_True (P := x ∈ _ :: _)) by (pose proof (in_snd _ _ _ Hj); set_solver). destruct (decide (x ∈ P)); lia.
  - intros x. rewrite (does_refs _ _ _ _ _ _ x D). destruct (decide (x = b)) as [->|Hne].
    + rewrite Hr, (decide_False (P := b ∈ H.*2)) by done. lia.
    + rewrite Hrf. f_equal. apply decide_ext. set_solver.
  - intros x Hx. rewrite Ev, B. by apply Hcl.
  - by rewrite B.
Qed.
End use.
