(* ===== verification/Disk.v ===== *)
(** * Disk scheduling and RAID-backed swap

    Models the second half of [kernel/virtio_disk.c]: the pending-request
    queue and its FCFS and SSTF policies, the latency statistics, the RAID 0,
    RAID 1 and RAID 5 layouts of a swap slot, and [disk_swap_write] and
    [disk_swap_read]. Blocks are reached through the buffer cache, the
    [BlockStore] interface, which says too whether a transfer sleeps: with a
    spinlock held it may not. Requests hold pointers: the data of a request is
    looked up when the request is served, so the one [parity_buf] is shared by
    all parity requests, as in the code. *)

From stdpp Require Import base numbers list gmap strings.
From S2P Require Import Prelude Machine KState.
Open Scope Z_scope.
Open Scope kernel_scope.

Abbreviation SCHED_FCFS := 0.
Abbreviation SCHED_SSTF := 1.
Abbreviation BLOCKS_PER_PAGE := 4.      (* PGSIZE / BSIZE *)
Abbreviation BLOCKS_PER_DISK := 4096.   (* NSWAPBLOCKS_PER_MODE / NDISKS *)
Abbreviation DATA_PER_ROW := 3.         (* NDISKS - 1 *)

(** ** Choosing the next request *)

(** FCFS: the lowest occupied index, or -1. *)
Fixpoint fcfs_pick (i : Z) (q : list disk_req) : Z :=
  match q with
  | [] => -1
  | r :: q' => if rq_valid r then i else fcfs_pick (i + 1) q'
  end.

(** [dist * 4 + priority] for a request, the head being at [head]. *)
Definition sstf_score (head : Z) (r : disk_req) : Z :=
  let dist := i32 (rq_blockno r - head) in
  let dist := if dist <? 0 then i32 (- dist) else dist in
  i32 (i32 (dist * 4) + rq_priority r).

(** SSTF: the scan of the queue with [best_idx] and [best_score]. *)
Fixpoint sstf_pick (head i best_idx best_score : Z) (q : list disk_req) : Z :=
  match q with
  | [] => best_idx
  | r :: q' =>
      if rq_valid r then
        let score := sstf_score head r in
        if score <? best_score then sstf_pick head (i + 1) i score q'
        else sstf_pick head (i + 1) best_idx best_score q'
      else sstf_pick head (i + 1) best_idx best_score q'
  end.

Definition pick_request (policy head : Z) (q : list disk_req) : Z :=
  if policy =? SCHED_FCFS then fcfs_pick 0 q
  else sstf_pick head 0 (-1) 2147483647 q.

(** Simulated cost of moving the head from [head] to [blk]. *)
Definition latency (head blk : Z) : Z :=
  let dist := i32 (blk - head) in
  let dist := if dist <? 0 then i32 (- dist) else dist in
  i32 (dist + ROTATIONAL_DELAY).

(** The running average kept in [avg_disk_latency]. *)
Definition avg_latency (p : proc) (lat : Z) : Z :=
  let total_ops := i32 (p_disk_reads p + p_disk_writes p) in
  if total_ops <=? 1 then lat
  else Z.quot (i32 (i32 (p_avg_disk_latency p * (total_ops - 1)) + lat)) total_ops.

(** ** RAID layout *)

Definition raid_real_block (mode disk_id phys_offset : Z) : Z :=
  let region_base := SWAP_START + mode * NSWAPBLOCKS_PER_MODE in
  region_base + disk_id * BLOCKS_PER_DISK + phys_offset.

(** [for(row_start = 0; row_start < BLOCKS_PER_PAGE; row_start += DATA_PER_ROW)] *)
Definition row_starts : list Z := [0; 3].

(** [disk_id = data_block_in_row; if(disk_id >= par_disk) disk_id++;] *)
Definition raid5_data_disk (par_disk data_block_in_row : Z) : Z :=
  if par_disk <=? data_block_in_row then data_block_in_row + 1 else data_block_in_row.

(** [buf[j] ^= d[j]] for all [j]. *)
Definition xor_into (buf d : list Z) : list Z := zip_with Z.lxor buf d.
#[global] Arguments xor_into : simpl never.

Section disk.
Context {D : Type} `{!BlockStore D}.
Abbreviation K := (M (kst D)).

(** ** Settings and statistics *)

Definition setdisksched (policy : Z) : K Z :=
  if negb (policy =? SCHED_FCFS) && negb (policy =? SCHED_SSTF) then mret (-1)
  else acquire LSched ;; setf disk_policy policy ;; release LSched ;; mret 0.

Definition set_raid_mode (mode : Z) : K unit :=
  acquire LSched ;; setf raid_mode mode ;; release LSched.

Definition set_failed_disk (disk : Z) : K Z :=
  if (disk <? 0) || (NDISKS <=? disk) then mret (-1)
  else acquire LSched ;;
       updf failed_disk_mask (λ m, Z.lor m (Z.shiftl 1 disk)) ;;
       release LSched ;; mret 0.

(** The three out-parameters [*reads], [*writes], [*avg_lat]. *)
Definition get_disk_stats : K (Z * Z * Z) :=
  acquire LSched ;;
  r ← gets stat_reads; w ← gets stat_writes;
  n ← gets stat_req_count; l ← gets stat_latency_sum;
  release LSched ;;
  mret (r, w, if 0 <? n then Z.quot l n else 0).

(** The part of [virtio_disk_init] that sets up the request queue. *)
Definition init_req_queue : K unit :=
  updf req_queue (λ q, (λ r, r <| rq_valid := false |>) <$> q).

(** ** One block

    Where the transfer sleeps the caller may not hold a spinlock: in [bread], unless
    the cache has the block, and in [bwrite]. *)

Definition read_buf (p : dptr) : K (list Z) :=
  match p with DMem a => read_bytes a BSIZE | DParity => gets parity_buf end.
Definition write_buf (p : dptr) (bs : list Z) : K unit :=
  match p with DMem a => write_bytes a bs | DParity => setf parity_buf bs end.

Definition wait_block (write : bool) (blockno : Z) : K unit :=
  d ← gets bdev; when (bs_sleeps write blockno d) may_sleep.

Definition do_disk_read (blockno : Z) (dst : dptr) : K unit :=
  wait_block false blockno ;; d ← lift_bdev (bs_read blockno); write_buf dst d.

Definition do_disk_write (blockno : Z) (src : dptr) : K unit :=
  wait_block true blockno ;; d ← read_buf src; lift_bdev (bs_write blockno d).

(** ** The request queue *)

(** Put the request in the first free entry; when all are taken it is dropped. *)
Definition enqueue_disk_req (blockno : Z) (write : bool) (data : dptr) (priority : Z) : K unit :=
  acquire LSched ;;
  q ← gets req_queue;
  match list_find (λ r, rq_valid r = false) q with
  | Some (i, _) => setf req_queue (<[i := MkReq true blockno write priority data]> q)
  | None => mret tt
  end ;;
  release LSched.

(** The request's cost is charged to the disk statistics and to the process. *)
Definition account (wr : bool) (blk : Z) : K unit :=
  (if wr then updf stat_writes (λ n, i64 (n + 1)) else updf stat_reads (λ n, i64 (n + 1))) ;;
  head ← gets disk_head_pos;
  let lat := latency head blk in
  updf stat_latency_sum (λ n, i64 (n + lat)) ;;
  updf stat_req_count (λ n, i64 (n + 1)) ;;
  setf disk_head_pos blk ;;
  p ← myproc;
  match p with
  | Some i =>
      acquire (LProc i) ;;
      updp i (λ p, p <| p_avg_disk_latency := avg_latency p lat |>) ;;
      release (LProc i)
  | None => mret tt
  end.

(** One turn of the [while(1)] of [run_disk_queue]. *)
Definition run_disk_queue_step (_ : unit) : K (unit + unit) :=
  acquire LSched ;;
  policy ← gets disk_policy; head ← gets disk_head_pos; q ← gets req_queue;
  let best_idx := pick_request policy head q in
  if best_idx =? -1 then release LSched ;; mret (inr tt)
  else
    r ← opt (znth q best_idx);
    setf req_queue (zset q best_idx (r <| rq_valid := false |>)) ;;
    account (rq_write r) (rq_blockno r) ;;
    release LSched ;;
    (if rq_write r then do_disk_write (rq_blockno r) (rq_data r)
     else do_disk_read (rq_blockno r) (rq_data r)) ;;
    mret (inl tt).

(** Every turn takes a request out of the queue of [NDISKREQS] entries, so
    [NDISKREQS + 1] turns are enough. *)
Definition run_disk_queue : K unit := loop 129 run_disk_queue_step tt.

(** ** RAID 0 *)

Definition raid0_page (write : bool) (slot page priority : Z) : K unit :=
  let base := i32 (slot * BLOCKS_PER_PAGE) in
  for_each (λ b,
    let logical := i32 (base + b) in
    let disk_id := Z.rem logical NDISKS in
    let phys := Z.quot logical NDISKS in
    enqueue_disk_req (raid_real_block 0 disk_id phys) write (DMem (page + b * BSIZE)) priority)
    (upto BLOCKS_PER_PAGE).
Definition raid0_write_page := raid0_page true.
Definition raid0_read_page := raid0_page false.

(** ** RAID 1 *)

Definition raid1_write_page (slot page priority : Z) : K unit :=
  let base := i32 (slot * BLOCKS_PER_PAGE) in
  for_each (λ b,
    let logical := i32 (base + b) in
    let disk_id := Z.rem logical NDISKS in
    let mirror := Z.rem (disk_id + 1) NDISKS in
    let phys := Z.quot logical NDISKS in
    enqueue_disk_req (raid_real_block 1 disk_id phys) true (DMem (page + b * BSIZE)) priority ;;
    enqueue_disk_req (raid_real_block 1 mirror phys) true (DMem (page + b * BSIZE)) priority)
    (upto BLOCKS_PER_PAGE).

Definition raid1_read_page (slot page priority : Z) : K unit :=
  let base := i32 (slot * BLOCKS_PER_PAGE) in
  for_each (λ b,
    let logical := i32 (base + b) in
    let disk_id := Z.rem logical NDISKS in
    let phys := Z.quot logical NDISKS in
    enqueue_disk_req (raid_real_block 1 disk_id phys) false (DMem (page + b * BSIZE)) priority)
    (upto BLOCKS_PER_PAGE).

(** ** RAID 5 *)

(** One data block of a stripe row: xor it into [parity_buf] and queue it. *)
Definition raid5_write_block (par_disk phys row_start page priority i : Z) : K unit :=
  let block_idx := row_start + i in
  if block_idx <? BLOCKS_PER_PAGE then
    let blk_data := page + block_idx * BSIZE in
    d ← read_bytes blk_data BSIZE;
    updf parity_buf (λ b, xor_into b d) ;;
    release LSched ;;
    enqueue_disk_req (raid_real_block 2 (raid5_data_disk par_disk i) phys) true
      (DMem blk_data) priority ;;
    acquire LSched
  else mret tt.

(** One stripe row, its parity block last. *)
Definition raid5_write_row (base page priority row_start : Z) : K unit :=
  let row := Z.quot (i32 (base + row_start)) DATA_PER_ROW in
  let par_disk := Z.rem row NDISKS in
  let phys := Z.quot row NDISKS in
  acquire LSched ;;
  setf parity_buf (zrepl BSIZE 0) ;;
  for_each (raid5_write_block par_disk phys row_start page priority) (upto DATA_PER_ROW) ;;
  release LSched ;;
  enqueue_disk_req (raid_real_block 2 par_disk phys) true DParity priority.

Definition raid5_write_page (slot page priority : Z) : K unit :=
  for_each (raid5_write_row (i32 (slot * BLOCKS_PER_PAGE)) page priority) row_starts.

Definition raid5_read_page (slot page priority : Z) : K unit :=
  let base := i32 (slot * BLOCKS_PER_PAGE) in
  for_each (λ row_start,
    let row := Z.quot (i32 (base + row_start)) DATA_PER_ROW in
    let par_disk := Z.rem row NDISKS in
    let phys := Z.quot row NDISKS in
    for_each (λ i,
      let block_idx := row_start + i in
      when (block_idx <? BLOCKS_PER_PAGE)
        (enqueue_disk_req (raid_real_block 2 (raid5_data_disk par_disk i) phys) false
           (DMem (page + block_idx * BSIZE)) priority)) (upto DATA_PER_ROW)) row_starts.

(** ** Swapping a page out to a slot and back *)

(** The dispatch on the mode. *)
Definition raid_write_page (mode slot page priority : Z) : K unit :=
  match mode with
  | 0 => raid0_write_page slot page priority
  | 1 => raid1_write_page slot page priority
  | 2 => raid5_write_page slot page priority
  | _ => raid0_write_page slot page priority
  end.
Definition raid_read_page (mode slot page priority : Z) : K unit :=
  match mode with
  | 0 => raid0_read_page slot page priority
  | 1 => raid1_read_page slot page priority
  | 2 => raid5_read_page slot page priority
  | _ => raid0_read_page slot page priority
  end.

Definition disk_swap_write (slot page priority : Z) : K unit :=
  acquire LSched ;; mode ← gets raid_mode; release LSched ;;
  when ((0 <=? slot) && (slot <? 4096)) (updf slot_raid_mode (λ l, zset l slot mode)) ;;
  raid_write_page mode slot page priority ;;
  run_disk_queue.

Definition disk_swap_read (slot page priority : Z) : K unit :=
  mode ← (if (0 <=? slot) && (slot <? 4096)
          then l ← gets slot_raid_mode; opt (znth l slot) else mret 0);
  raid_read_page mode slot page priority ;;
  run_disk_queue.
End disk.

(** ** The queue *)

Section queue_facts.
Context {D : Type} `{!BlockStore D}.
Implicit Types s : kst D.

Definition all_valid (q : list disk_req) : Prop := Forall (λ r, rq_valid r = true) q.
Definition all_free (q : list disk_req) : Prop := Forall (λ r, rq_valid r = false) q.

Lemma list_find_first_free reqs r0 rest :
  all_valid reqs → rq_valid r0 = false →
  list_find (λ r, rq_valid r = false) (reqs ++ r0 :: rest) = Some (length reqs, r0).
Proof.
  intros Hv Hf. induction Hv as [|r l Hr _ IH]; simpl; [by rewrite decide_True|].
  rewrite decide_False by congruence. by rewrite IH.
Qed.

Lemma list_find_full q : all_valid q → list_find (λ r, rq_valid r = false) q = None.
Proof.
  intros Hv. apply list_find_None. eapply Forall_impl; [done|]. simpl. congruence.
Qed.

(** A request goes into the first free entry. *)
Lemma enqueue_ok s blockno wr data prio reqs r0 rest :
  LSched ∉ held s → req_queue s = reqs ++ r0 :: rest → all_valid reqs →
  rq_valid r0 = false →
  enqueue_disk_req blockno wr data prio s =
    Ok (tt, s <| req_queue := reqs ++ MkReq true blockno wr prio data :: rest |>).
Proof.
  intros Hl Hq Hv Hf. unfold enqueue_disk_req. mstep. mred. rewrite Hq.
  rewrite list_find_first_free by done. mred.
  rewrite insert_app_r_alt, Nat.sub_diag by lia. simpl.
  rewrite release_ok by (simpl; set_solver). simpl.
  rewrite held_restore by done. by destruct s.
Qed.

(** With every entry taken, the request is lost without any error. *)
Lemma enqueue_full s blockno wr data prio :
  LSched ∉ held s → all_valid (req_queue s) →
  enqueue_disk_req blockno wr data prio s = Ok (tt, s).
Proof.
  intros Hl Hv. unfold enqueue_disk_req. mstep. mred.
  rewrite list_find_full by done. mred.
  rewrite release_ok by (simpl; set_solver). simpl.
  rewrite held_restore by done. by destruct s.
Qed.
End queue_facts.

(** ** Batches of requests *)

Section batch.
Context {D : Type} `{!BlockStore D}.
Implicit Types s : kst D.

Definition enq (r : disk_req) : M (kst D) unit :=
  enqueue_disk_req (rq_blockno r) (rq_write r) (rq_data r) (rq_priority r).

(** Queueing a list of requests appends them, in order, as long as they fit. *)
Lemma for_each_enq_ok l s reqs rest :
  LSched ∉ held s → req_queue s = reqs ++ rest → all_valid reqs → all_free rest →
  all_valid l → (length l ≤ length rest)%nat →
  for_each enq l s = Ok (tt, s <| req_queue := reqs ++ l ++ drop (length l) rest |>).
Proof.
  revert s reqs rest. induction l as [|r l IH]; intros s reqs rest Hl Hq Hv Hf Hvl Hlen.
  { simpl. rewrite drop_0, <-Hq. by destruct s. }
  destruct rest as [|r0 rest]; [simpl in Hlen; lia|].
  apply Forall_cons in Hf as [Hr0 Hf]. apply Forall_cons in Hvl as [Hr Hvl]. simpl.
  mstep (enqueue_ok _ _ _ _ _ reqs r0 rest); [|done..].
  assert (MkReq true (rq_blockno r) (rq_write r) (rq_priority r) (rq_data r) = r) as ->
    by (destruct r; simpl in *; congruence).
  rewrite (IH _ (reqs ++ [r]) rest); simpl in *; try done; [|by rewrite <-app_assoc| |lia].
  - do 2 f_equal. rewrite <-app_assoc. by destruct s.
  - apply Forall_app. split; [done|]. by constructor.
Qed.

(** A loop whose body queues a list of requests queues them all. *)
Lemma for_each_flat {A} (body : A → M (kst D) unit) (F : A → list disk_req) l s :
  (∀ x s, x ∈ l → body x s = for_each enq (F x) s) →
  for_each body l s = for_each enq (concat (F <$> l)) s.
Proof.
  intros HF. revert s. induction l as [|x l IH]; intros s; simpl; [done|].
  rewrite for_each_app. unfold mbind, M_bind. rewrite HF by set_solver.
  destruct (for_each enq (F x) s) as [[]| | |]; [|done..]. apply IH. set_solver.
Qed.

Lemma for_each_singletons {A} (body : A → M (kst D) unit) (f : A → disk_req) l s :
  (∀ x s, x ∈ l → body x s = enq (f x) s) → for_each body l s = for_each enq (f <$> l) s.
Proof.
  intros HF. revert s. induction l as [|x l IH]; intros s; simpl; [done|].
  unfold mbind, M_bind. rewrite HF by set_solver.
  destruct (enq (f x) s) as [[]| | |]; [|done..]. apply IH. set_solver.
Qed.

Lemma for_each_enq_pair r1 r2 s : (enq r1 ;; enq r2) s = for_each enq [r1; r2] s.
Proof. simpl. unfold mbind, M_bind. destruct (enq r1 s) as [[]| | |]; [|done..].
  by destruct (enq r2 _) as [[[] ?]| | |]. Qed.
Lemma for_each_enq_one r s : enq r s = for_each enq [r] s.
Proof. simpl. unfold mbind, M_bind. by destruct (enq r s) as [[[] ?]| | |]. Qed.
End batch.

(** ** The policies *)

(** The request has a block of the disk image and an MLFQ level as priority. *)
Definition req_bounds (r : disk_req) : Prop :=
  0 ≤ rq_blockno r < FSSIZE ∧ 0 ≤ rq_priority r ≤ 3.

Lemma sstf_score_val head r :
  0 ≤ head < FSSIZE → req_bounds r →
  sstf_score head r = Z.abs (rq_blockno r - head) * 4 + rq_priority r.
Proof.
  intros ? []. unfold sstf_score. rewrite (i32_id (rq_blockno r - head)) by lia.
  destruct (Z.ltb_spec (rq_blockno r - head) 0);
    rewrite ?(i32_id (- (rq_blockno r - head))) by lia;
    rewrite i32_id, i32_id by (rewrite ?i32_id; lia); lia.
Qed.

Lemma fcfs_pick_spec q i : 0 ≤ i →
  (fcfs_pick i q = -1 ∧ all_free q) ∨
  (∃ k r, fcfs_pick i q = i + Z.of_nat k ∧ q !! k = Some r ∧ rq_valid r = true ∧
     ∀ j r', (j < k)%nat → q !! j = Some r' → rq_valid r' = false).
Proof.
  revert i. induction q as [|r q IH]; intros i Hi; simpl; [left; split; [done|constructor]|].
  destruct (rq_valid r) eqn:Hr.
  - right. exists 0%nat, r. split_and!; [lia|done|done|lia].
  - destruct (IH (i + 1)) as [[-> Hf]|(k & r' & -> & Hk & Hv & Hmin)]; [lia| |].
    + left. split; [done|]. by constructor.
    + right. exists (S k), r'. split_and!; [lia|done|done|].
      intros [|j] r'' ? ?; simplify_eq/=; [done|]. eapply (Hmin j); [lia|done].
Qed.

(** SSTF keeps the best entry seen so far: the result is either the one it
    started with, no entry being better, or an entry better than it with the
    least score, the first of those. *)
Lemma sstf_pick_spec head q i bi bs :
  (sstf_pick head i bi bs q = bi ∧
     ∀ r, r ∈ q → rq_valid r = true → bs ≤ sstf_score head r) ∨
  (∃ k r, sstf_pick head i bi bs q = i + Z.of_nat k ∧ q !! k = Some r ∧ rq_valid r = true ∧
     sstf_score head r < bs ∧
     ∀ j r', q !! j = Some r' → rq_valid r' = true →
       sstf_score head r ≤ sstf_score head r' ∧
       ((j < k)%nat → sstf_score head r < sstf_score head r')).
Proof.
  revert i bi bs. induction q as [|r q IH]; intros i bi bs; simpl; [left; set_solver|].
  destruct (rq_valid r) eqn:Hr; [destruct (Z.ltb_spec (sstf_score head r) bs)|].
  - right. destruct (IH (i + 1) i (sstf_score head r)) as [[-> Hm]|(k & r' & -> & Hk & Hv & Hlt & Hm)].
    + exists 0%nat, r. split_and!; [lia|done..|]. intros [|j] r' Hj ?; simplify_eq/=; [lia|].
      split; [apply Hm; [eapply list_elem_of_lookup_2|]; done|lia].
    + exists (S k), r'. split_and!; [lia|done|done|lia|].
      intros [|j] r'' Hj Hv'; simplify_eq/=; [lia|].
      destruct (Hm j r'' Hj Hv'). split; [done|]. intros. auto with lia.
  - destruct (IH (i + 1) bi bs) as [[-> Hm]|(k & r' & -> & Hk & Hv & Hlt & Hm)].
    + left. split; [done|]. intros r' [->|Hin]%elem_of_cons ?; [done|auto].
    + right. exists (S k), r'. split_and!; [lia|done|done|lia|].
      intros [|j] r'' Hj Hv'; simplify_eq/=; [lia|].
      destruct (Hm j r'' Hj Hv'). split; [done|]. intros. auto with lia.
  - destruct (IH (i + 1) bi bs) as [[-> Hm]|(k & r' & -> & Hk & Hv & Hlt & Hm)].
    + left. split; [done|]. intros r' [->|Hin]%elem_of_cons ?; [congruence|auto].
    + right. exists (S k), r'. split_and!; [lia|done|done|lia|].
      intros [|j] r'' Hj Hv'; simplify_eq/=; [congruence|].
      destruct (Hm j r'' Hj Hv'). split; [done|]. intros. auto with lia.
Qed.

(** Both policies find a pending request when there is one. *)
Lemma pick_request_spec policy head q :
  0 ≤ head < FSSIZE → (∀ r, r ∈ q → rq_valid r = true → req_bounds r) →
  (pick_request policy head q = -1 ∧ all_free q) ∨
  (∃ k r, pick_request policy head q = Z.of_nat k ∧ q !! k = Some r ∧ rq_valid r = true).
Proof.
  intros Hh Hb. unfold pick_request. destruct (policy =? SCHED_FCFS).
  - destruct (fcfs_pick_spec q 0) as [?|(k & r & -> & ? & ? & _)]; [lia|by left|].
    right. eauto with lia.
  - destruct (sstf_pick_spec head q 0 (-1) 2147483647) as [[-> Hm]|(k & r & -> & ? & ? & _)].
    + left. split; [done|]. apply Forall_forall. intros r Hr.
      destruct (rq_valid r) eqn:Hv; [|done]. exfalso. specialize (Hm r Hr Hv).
      destruct (Hb r Hr Hv). rewrite sstf_score_val in Hm by done. lia.
    + right. eauto with lia.
Qed.

(** ** Serving the queue *)

(** The process table with the latency averages blanked out: all that serving
    a request changes of it. *)
Definition no_latency (ps : list proc) : list proc :=
  (λ p, p <| p_avg_disk_latency := 0 |>) <$> ps.

(** What serving requests leaves alone. *)
Record dframe {D} (s s' : kst D) : Prop := {
  df_freelist : freelist s' = freelist s;
  df_frames : frames s' = frames s;
  df_swap_space : swap_space s' = swap_space s;
  df_clock_hand : clock_hand s' = clock_hand s;
  df_disk_policy : disk_policy s' = disk_policy s;
  df_raid_mode : raid_mode s' = raid_mode s;
  df_slot_raid_mode : slot_raid_mode s' = slot_raid_mode s;
  df_parity_buf : parity_buf s' = parity_buf s;
  df_failed_disk_mask : failed_disk_mask s' = failed_disk_mask s;
  df_procs : no_latency (procs s') = no_latency (procs s);
  df_initproc : initproc s' = initproc s;
  df_nextpid : nextpid s' = nextpid s;
  df_ticks : ticks s' = ticks s;
  df_cur : cur s' = cur s;
  df_held : held s' = held s;
}.

#[global] Instance dframe_preorder {D} : PreOrder (@dframe D).
Proof.
  split; [done|]. intros s1 s2 s3 [] []. split; etransitivity; eassumption.
Qed.

Lemma no_latency_insert ps i p v :
  ps !! i = Some p → no_latency (<[i := p <| p_avg_disk_latency := v |>]> ps) = no_latency ps.
Proof.
  intros H. unfold no_latency. rewrite list_fmap_insert. simpl.
  apply list_insert_id. by rewrite list_lookup_fmap, H.
Qed.

Lemma no_latency_lookup (ps ps' : list proc) i :
  no_latency ps' = no_latency ps → is_Some (ps !! i) → is_Some (ps' !! i).
Proof.
  intros H%(f_equal length). unfold no_latency in H. rewrite !length_fmap in H.
  rewrite !lookup_lt_is_Some. lia.
Qed.

Section serve.
Context {D : Type} `{!BlockStore D, !BlockStoreLaws D}.
Implicit Types s : kst D.

(** The driver can serve requests: no spinlock held, the head inside the
    image, a whole queue, and the running process, if any, in the table. *)
Record disk_ready s : Prop := {
  dr_held : held s = ∅;
  dr_inv : bs_inv (bdev s);
  dr_queue : zlen (req_queue s) = NDISKREQS;
  dr_head : 0 ≤ disk_head_pos s < FSSIZE;
  dr_cur i : cur s = Some i → is_Some (procs s !! i);
}.

(** What a request's buffer holds. *)
Definition buf_val s (p : dptr) : option (list Z) :=
  match p with DMem a => mread (mem s) a BSIZE | DParity => Some (parity_buf s) end.

Lemma read_buf_ok s p d : buf_val s p = Some d → read_buf p s = Ok (d, s).
Proof. destruct p; simpl; [eauto with kernel|]. by intros [= <-]. Qed.

Lemma account_ok s wr blk :
  (∀ i, LProc i ∉ held s) → (∀ i, cur s = Some i → is_Some (procs s !! i)) →
  ∃ s', account wr blk s = Ok (tt, s') ∧ dframe s s' ∧ mem s' = mem s ∧ bdev s' = bdev s ∧
    req_queue s' = req_queue s ∧ disk_head_pos s' = blk.
Proof.
  intros Hl Hc. unfold account.
  set (lat := latency (disk_head_pos s) blk).
  set (s1 := if wr then s <| stat_writes ::= λ n, i64 (n + 1) |>
             else s <| stat_reads ::= λ n, i64 (n + 1) |>).
  assert (∀ B (f : unit → M (kst D) B), ((if wr then updf stat_writes (λ n, i64 (n + 1)) : M (kst D) unit
            else updf stat_reads (λ n, i64 (n + 1))) ≫= f) s = f tt s1) as E
    by (intros; by destruct wr).
  rewrite E. clear E.
  assert (dframe s s1 ∧ mem s1 = mem s ∧ bdev s1 = bdev s ∧ req_queue s1 = req_queue s ∧
          disk_head_pos s1 = disk_head_pos s ∧ cur s1 = cur s ∧ procs s1 = procs s ∧
          held s1 = held s) as (Hf & Hm & Hb & Hq & Hh & Hcu & Hp & Hhe) by (by destruct wr).
  clearbody s1. unfold myproc. mred. rewrite Hcu, Hh.
  destruct (cur s) as [i|] eqn:Hcur; mred.
  - destruct (Hc i eq_refl) as [p Hi].
    rewrite acquire_ok by (simpl; rewrite Hhe; apply Hl). simpl.
    erewrite updp_ok by (simpl; by rewrite Hp). simpl.
    rewrite release_ok by (simpl; set_solver). simpl. eexists. split; [done|].
    split_and!; simpl; try done. rewrite held_restore by (rewrite Hhe; apply Hl).
    destruct Hf. split; simpl; try done. rewrite Hp. by apply no_latency_insert.
  - eexists. split; [done|]. split_and!; simpl; try done. destruct Hf. by split.
Qed.

(** The common half of a turn: the request leaves the queue and is accounted. *)
Lemma step_common s k r :
  LSched ∉ held s → (∀ i, LProc i ∉ held s) → (∀ i, cur s = Some i → is_Some (procs s !! i)) →
  pick_request (disk_policy s) (disk_head_pos s) (req_queue s) = Z.of_nat k →
  req_queue s !! k = Some r →
  ∃ s1, run_disk_queue_step tt s =
      ((if rq_write r then do_disk_write (rq_blockno r) (rq_data r)
        else do_disk_read (rq_blockno r) (rq_data r)) ;; mret (inl tt)) s1 ∧
    dframe s s1 ∧ mem s1 = mem s ∧ bdev s1 = bdev s ∧ disk_head_pos s1 = rq_blockno r ∧
    req_queue s1 = <[k := r <| rq_valid := false |>]> (req_queue s).
Proof.
  intros Hls Hlp Hcur Hpick Hk. unfold run_disk_queue_step.
  mstep acquire_ok; [|done].
  unfold mbind at 1 2 3, M_bind at 1 2 3, gets. simpl. rewrite Hpick.
  destruct (Z.eqb_spec (Z.of_nat k) (-1)); [lia|].
  rewrite (bind_step (opt _) _ _ r _) by (by rewrite znth_nat, Hk).
  erewrite bind_step by done. simpl.
  edestruct account_ok as (s' & E & Hf & Hm & Hb & Hq & Hh); cycle 2.
  - erewrite bind_step by exact E. destruct Hf; simpl in *.
    erewrite bind_step by (apply release_ok; rewrite df_held0; set_solver).
    eexists. split; [done|]. split_and!; simpl; try done.
    + split; simpl; try done. rewrite df_held0. by apply held_restore.
    + rewrite Hq. unfold zset. by rewrite Nat2Z.id.
  - simpl. intros i. specialize (Hlp i). set_solver.
  - done.
Qed.

Lemma disk_ready_locks s : disk_ready s → LSched ∉ held s ∧ ∀ i, LProc i ∉ held s.
Proof. intros []. rewrite dr_held0. set_solver. Qed.

Lemma disk_ready_frame s s1 q blk :
  disk_ready s → dframe s s1 → bs_inv (bdev s1) → disk_head_pos s1 = blk → 0 ≤ blk < FSSIZE →
  req_queue s1 = q → zlen q = zlen (req_queue s) → disk_ready s1.
Proof.
  intros [] [] ? ? ? ? ?. split; try congruence; try lia.
  intros i Hi. eapply no_latency_lookup; [done|]. apply dr_cur0. congruence.
Qed.

Lemma wait_block_ok s w b : held s = ∅ → wait_block w b s = Ok (tt, s).
Proof. intros Hh. unfold wait_block. mget (bdev s). destruct (bs_sleeps w b (bdev s)); [by apply may_sleep_ok|done]. Qed.

(** Serving a write puts the buffer's contents on the block and changes
    nothing else that matters. *)
Lemma step_write s k r d :
  disk_ready s → pick_request (disk_policy s) (disk_head_pos s) (req_queue s) = Z.of_nat k →
  req_queue s !! k = Some r → rq_write r = true → 0 ≤ rq_blockno r < FSSIZE →
  buf_val s (rq_data r) = Some d → zlen d = BSIZE →
  ∃ s', run_disk_queue_step tt s = Ok (inl tt, s') ∧ disk_ready s' ∧ dframe s s' ∧
    mem s' = mem s ∧ req_queue s' = <[k := r <| rq_valid := false |>]> (req_queue s) ∧
    ∀ b, bs_view (bdev s') b = if decide (b = rq_blockno r) then d else bs_view (bdev s) b.
Proof.
  intros Hr Hpick Hk Hw Hb Hd Hlen.
  destruct (step_common s k r) as (s1 & -> & Hf & Hm & Hbd & Hh & Hq);
    [by apply disk_ready_locks..|apply Hr|done|done|].
  rewrite Hw. unfold do_disk_write.
  destruct (bs_write_ok (bdev s1) (rq_blockno r) d) as (d' & E & Hinv & Hv);
    [rewrite Hbd; apply Hr|done|done|].
  assert (buf_val s1 (rq_data r) = Some d) as Hd1.
  { destruct (rq_data r); simpl in *; [congruence|]. rewrite (df_parity_buf _ _ Hf). done. }
  assert ((wait_block true (rq_blockno r) ;; d ← read_buf (rq_data r); lift_bdev (bs_write (rq_blockno r) d)) s1
          = Ok (tt, s1 <| bdev := d' |>)) as Hio.
  { mstep wait_block_ok; [|rewrite (df_held _ _ Hf); apply Hr].
    mstep read_buf_ok; [|exact Hd1]. unfold lift_bdev. by rewrite E. }
  rewrite (bind_step _ _ _ _ _ Hio). mred. eexists. split; [done|].
  assert (dframe s (s1 <| bdev := d' |>)) as Hf' by (destruct Hf; by split).
  split_and!; simpl; try done; [|by rewrite Hbd in Hv].
  eapply disk_ready_frame; [done|exact Hf'|done|done|done|done|].
  unfold zlen. by rewrite length_insert.
Qed.

(** Serving a read puts the block's contents in the buffer. *)
Lemma step_read s k r a :
  disk_ready s → pick_request (disk_policy s) (disk_head_pos s) (req_queue s) = Z.of_nat k →
  req_queue s !! k = Some r → rq_write r = false → 0 ≤ rq_blockno r < FSSIZE →
  rq_data r = DMem a → is_Some (mem s !! pg a) → pgoff a + BSIZE ≤ PGSIZE →
  ∃ s', run_disk_queue_step tt s = Ok (inl tt, s') ∧ disk_ready s' ∧ dframe s s' ∧
    mwrite (mem s) a (bs_view (bdev s) (rq_blockno r)) = Some (mem s') ∧
    req_queue s' = <[k := r <| rq_valid := false |>]> (req_queue s) ∧
    ∀ b, bs_view (bdev s') b = bs_view (bdev s) b.
Proof.
  intros Hr Hpick Hk Hw Hb Ha [p Hp] Hoff.
  destruct (step_common s k r) as (s1 & -> & Hf & Hm & Hbd & Hh & Hq);
    [by apply disk_ready_locks..|apply Hr|done|done|].
  rewrite Hw. unfold do_disk_read.
  destruct (bs_read_ok (bdev s1) (rq_blockno r)) as (d' & E & Hinv & Hv);
    [rewrite Hbd; apply Hr|done|].
  set (v := bs_view (bdev s) (rq_blockno r)).
  assert (zlen v = BSIZE) as Hlen by (apply bs_view_len; [apply Hr|done]).
  pose proof (mwrite_Some (mem s) a v p Hp ltac:(lia)) as Hmw.
  assert ((wait_block false (rq_blockno r) ;; d ← lift_bdev (bs_read (rq_blockno r)); write_buf (rq_data r) d) s1
          = Ok (tt, s1 <| bdev := d' |> <| mem := <[pg a:=splice (pgoff a) v p]> (mem s) |>)) as Hio.
  { mstep wait_block_ok; [|rewrite (df_held _ _ Hf); apply Hr].
    unfold mbind, M_bind, lift_bdev. rewrite E, Ha, Hbd. simpl.
    apply write_bytes_ok. simpl. by rewrite Hm. }
  rewrite (bind_step _ _ _ _ _ Hio). mred. eexists. split; [done|].
  assert (dframe s (s1 <| bdev := d' |> <| mem := <[pg a:=splice (pgoff a) v p]> (mem s) |>)) as Hf'
    by (destruct Hf; by split).
  split_and!; simpl; try done; [|by rewrite Hbd in Hv].
  eapply disk_ready_frame; [done|exact Hf'|done|done|done|done|].
  unfold zlen. by rewrite length_insert.
Qed.
End serve.

(** ** Draining the queue *)

(** The requests waiting in the queue, in index order. *)
Definition pending (q : list disk_req) : list disk_req := filter (λ r, rq_valid r = true) q.

Lemma pending_free q : all_free q → pending q = [].
Proof.
  induction 1 as [|r q Hr _ IH]; [done|]. unfold pending. rewrite filter_cons_False by congruence.
  apply IH.
Qed.

Lemma pending_valid q : all_valid q → pending q = q.
Proof.
  induction 1 as [|r q Hr _ IH]; [done|]. unfold pending. rewrite filter_cons_True by done.
  f_equal. apply IH.
Qed.

Lemma pending_app q1 q2 : pending (q1 ++ q2) = pending q1 ++ pending q2.
Proof. apply filter_app. Qed.

Lemma pending_length q : (length (pending q) ≤ length q)%nat.
Proof. apply length_filter. Qed.

Lemma elem_of_pending r q : r ∈ pending q ↔ rq_valid r = true ∧ r ∈ q.
Proof. unfold pending. by rewrite list_elem_of_filter. Qed.

(** Taking a request out removes it from the pending ones; if no request is
    waiting below it, it was the first. *)
Lemma pending_take q k r :
  q !! k = Some r → rq_valid r = true →
  ∃ l1 l2, pending q = l1 ++ r :: l2 ∧
    pending (<[k := r <| rq_valid := false |>]> q) = l1 ++ l2 ∧
    ((∀ j r', (j < k)%nat → q !! j = Some r' → rq_valid r' = false) → l1 = []).
Proof.
  intros Hk Hv. exists (pending (take k q)), (pending (drop (S k) q)). split_and!.
  - rewrite <-(take_drop_middle q k r Hk) at 1. rewrite pending_app. f_equal.
    unfold pending. by rewrite filter_cons_True.
  - rewrite insert_take_drop by (by eapply lookup_lt_Some). by rewrite pending_app.
  - intros H. apply pending_free, Forall_lookup. intros j r' [Hj Hlt]%lookup_take_Some. eauto.
Qed.

Section drain.
Context {D : Type} `{!BlockStore D, !BlockStoreLaws D}.
Implicit Types s : kst D.

Definition data_of s (r : disk_req) : list Z := default [] (buf_val s (rq_data r)).

(** A request that can be served: in bounds, its buffer a piece of a page
    that exists, or, for a write, the parity buffer. *)
Definition req_ok s (r : disk_req) : Prop :=
  req_bounds r ∧
  match rq_data r with
  | DMem a => is_Some (mem s !! pg a) ∧ pgoff a + BSIZE ≤ PGSIZE
  | DParity => rq_write r = true ∧ zlen (parity_buf s) = BSIZE
  end.

(** The effect of serving one request: a write puts the contents its buffer
    has now on the block, a read puts the block in the buffer. *)
Definition serve1 s (r : disk_req) s1 : Prop :=
  disk_ready s1 ∧ dframe s s1 ∧
  if rq_write r then
    mem s1 = mem s ∧
    ∀ b, bs_view (bdev s1) b = if decide (b = rq_blockno r) then data_of s r else bs_view (bdev s) b
  else
    (∃ a, rq_data r = DMem a ∧
       mwrite (mem s) a (bs_view (bdev s) (rq_blockno r)) = Some (mem s1)) ∧
    ∀ b, bs_view (bdev s1) b = bs_view (bdev s) b.

Inductive served : kst D → list disk_req → kst D → Prop :=
| served_nil s : served s [] s
| served_cons s r s1 ord s' : serve1 s r s1 → served s1 ord s' → served s (r :: ord) s'.

Lemma mwrite_present (m : phys) a bs m' b :
  mwrite m a bs = Some m' → is_Some (m !! b) → is_Some (m' !! b).
Proof.
  unfold mwrite. destruct (_ <=? _); [|done]. destruct (m !! pg a) eqn:E; [|done].
  intros [= <-] ?. rewrite lookup_insert_is_Some. destruct (decide (pg a = b)); auto.
Qed.

Lemma serve1_wf s r s1 : serve1 s r s1 → mem_wf (mem s) → mem_wf (mem s1).
Proof.
  intros (_ & _ & H). destruct (rq_write r); [by destruct H as [-> _]|].
  destruct H as [(a & _ & Hw) _]. eauto using mwrite_wf.
Qed.
Lemma serve1_req_ok s r s1 r' : serve1 s r s1 → req_ok s r' → req_ok s1 r'.
Proof.
  intros (_ & Hf & H) [Hb Hd]. split; [done|].
  destruct (rq_data r'); [|by rewrite (df_parity_buf _ _ Hf)].
  destruct Hd as [Hp ?]. split; [|done].
  destruct (rq_write r); [by destruct H as [-> _]|].
  destruct H as [(a' & _ & Hw) _]. eauto using mwrite_present.
Qed.

Lemma req_ok_data s r : mem_wf (mem s) → req_ok s r →
  ∃ d, buf_val s (rq_data r) = Some d ∧ zlen d = BSIZE.
Proof.
  intros Hwf [_ H]. unfold buf_val. destruct (rq_data r) as [a|]; [|destruct H; eauto].
  destruct H as [[p Hp] Hoff]. rewrite (mread_Some _ _ _ _ Hp Hoff). eexists. split; [done|].
  pose proof (pgoff_bound a). rewrite zlen_sub; [done|lia|lia|]. erewrite mem_wf_len; [lia|done..].
Qed.

(** One turn of the loop, on a request that can be served. *)
Lemma step_serve s k r :
  disk_ready s → mem_wf (mem s) → req_ok s r →
  pick_request (disk_policy s) (disk_head_pos s) (req_queue s) = Z.of_nat k →
  req_queue s !! k = Some r →
  ∃ s1, run_disk_queue_step tt s = Ok (inl tt, s1) ∧ serve1 s r s1 ∧
    req_queue s1 = <[k := r <| rq_valid := false |>]> (req_queue s).
Proof.
  intros Hr Hwf Hok Hpick Hk. pose proof Hok as [[Hb _] Hd]. unfold serve1.
  destruct (rq_write r) eqn:Hw.
  - destruct (req_ok_data s r) as (d & Ed & Hlen); [done..|].
    destruct (step_write s k r d) as (s1 & ? & ? & ? & ? & ? & Hv); [done..|].
    exists s1. split_and!; try done. intros b. unfold data_of. by rewrite Ed, Hv.
  - destruct (rq_data r) as [a|] eqn:Ha; [|by destruct Hd]. destruct Hd.
    destruct (step_read s k r a) as (s1 & ? & ? & ? & ? & ? & Hv); [done..|].
    exists s1. split_and!; eauto.
Qed.

(** With nothing pending the loop stops and changes nothing. *)
Lemma step_empty s : held s = ∅ → all_free (req_queue s) →
  pick_request (disk_policy s) (disk_head_pos s) (req_queue s) = -1 →
  run_disk_queue_step tt s = Ok (inr tt, s).
Proof.
  intros Hh Hf Hp. unfold run_disk_queue_step.
  mstep acquire_ok; [|rewrite Hh; set_solver].
  unfold mbind at 1 2 3, M_bind at 1 2 3, gets. simpl. rewrite Hp. simpl.
  erewrite bind_step by (apply release_ok; simpl; set_solver). mred. do 2 f_equal.
  destruct s; simpl in *. f_equal. rewrite Hh. set_solver.
Qed.

(** The queue is drained: each pending request is served exactly once, in an
    order that depends on the policy; FCFS serves in queue order. *)
Lemma drain n s :
  (length (pending (req_queue s)) < n)%nat → disk_ready s → mem_wf (mem s) →
  (∀ r, r ∈ pending (req_queue s) → req_ok s r) →
  ∃ s' ord, loop n run_disk_queue_step tt s = Ok (tt, s') ∧ served s ord s' ∧
    all_free (req_queue s') ∧ ord ≡ₚ pending (req_queue s) ∧
    (disk_policy s = SCHED_FCFS → ord = pending (req_queue s)).
Proof.
  revert s. induction n as [|n IH]; intros s Hn Hr Hwf Hok; [lia|]. simpl.
  destruct (pick_request_spec (disk_policy s) (disk_head_pos s) (req_queue s))
    as [[Hp Hf]|(k & r & Hp & Hk & Hv)];
    [apply Hr|intros r ? ?; apply Hok; by apply elem_of_pending| |].
  { exists s, []. erewrite bind_step by (apply step_empty; [apply Hr|done..]).
    rewrite pending_free by done. split_and!; [done|constructor|done..]. }
  assert (r ∈ pending (req_queue s)) as Hin
    by (apply elem_of_pending; split; [done|by eapply list_elem_of_lookup_2]).
  destruct (step_serve s k r) as (s1 & E & Hs & Hq1); [by auto..|].
  rewrite (bind_step _ _ _ _ _ E). simpl.
  destruct (pending_take _ _ _ Hk Hv) as (l1 & l2 & Hp1 & Hp2 & Hfirst).
  destruct (IH s1) as (s' & ord & E' & Hs' & Hfree & Hperm & Hfcfs).
  - rewrite Hq1, Hp2. rewrite Hp1 in Hn. rewrite !length_app in *. simpl in Hn. lia.
  - apply Hs.
  - by eapply serve1_wf.
  - rewrite Hq1, Hp2. intros r' Hr'. eapply serve1_req_ok; [done|]. apply Hok.
    rewrite Hp1. set_solver.
  - exists s', (r :: ord). split_and!; [done|by econstructor|done| |].
    + by rewrite Hp1, Hperm, Hq1, Hp2, Permutation_middle.
    + intros Hpol. pose proof Hs as (_ & Hf1 & _).
      rewrite Hp1, Hfcfs by (by rewrite (df_disk_policy _ _ Hf1)).
      rewrite Hq1, Hp2, Hfirst; [done|]. intros j r' Hlt Hj.
      unfold pick_request in Hp. rewrite Hpol in Hp. simpl in Hp.
      destruct (fcfs_pick_spec (req_queue s) 0) as [[E0 _]|(k' & r0 & E0 & _ & _ & Hmin)]; [lia|lia|].
      eapply Hmin; [|exact Hj]. lia.
Qed.

(** [run_disk_queue] always has enough turns. *)
Lemma run_disk_queue_drain s :
  disk_ready s → mem_wf (mem s) → (∀ r, r ∈ pending (req_queue s) → req_ok s r) →
  ∃ s' ord, run_disk_queue s = Ok (tt, s') ∧ served s ord s' ∧
    all_free (req_queue s') ∧ ord ≡ₚ pending (req_queue s) ∧
    (disk_policy s = SCHED_FCFS → ord = pending (req_queue s)).
Proof.
  intros Hr. apply drain; [|done]. pose proof (pending_length (req_queue s)).
  pose proof (dr_queue _ Hr) as Hq. unfold zlen in Hq. lia.
Qed.

(** ** Consequences for a batch of writes *)

Lemma served_ready s ord s' : served s ord s' → disk_ready s → disk_ready s'.
Proof. induction 1 as [|? ? ? ? ? (? & _)]; auto. Qed.
Lemma served_frame s ord s' : served s ord s' → dframe s s'.
Proof. induction 1 as [|? ? ? ? ? (_ & ? & _)]; [done|]. by etrans. Qed.
Lemma served_wf s ord s' : served s ord s' → mem_wf (mem s) → mem_wf (mem s').
Proof. induction 1; eauto using serve1_wf. Qed.

(** The contents of the disk after writes served in a given order. *)
Definition written s (ord : list disk_req) (v : Z → list Z) : Z → list Z :=
  foldl (λ v r b, if decide (b = rq_blockno r) then data_of s r else v b) v ord.

Lemma data_of_frame s s1 r : mem s1 = mem s → parity_buf s1 = parity_buf s →
  data_of s1 r = data_of s r.
Proof. intros Hm Hp. unfold data_of, buf_val. by rewrite Hm, Hp. Qed.
Lemma written_frame s s1 ord v b : mem s1 = mem s → parity_buf s1 = parity_buf s →
  written s1 ord v b = written s ord v b.
Proof.
  intros Hm Hp. unfold written. revert v. induction ord as [|r ord IH]; intros v; [done|].
  simpl. rewrite IH. f_equal. by rewrite (data_of_frame s s1).
Qed.
Lemma written_ext s ord v v' b : (∀ b, v b = v' b) → written s ord v b = written s ord v' b.
Proof.
  unfold written. revert v v'. induction ord as [|r ord IH]; intros v v' H; [apply H|].
  simpl. apply IH. intros b'. by rewrite H.
Qed.

Lemma served_writes s ord s' :
  served s ord s' → (∀ r, r ∈ ord → rq_write r = true) →
  mem s' = mem s ∧ ∀ b, bs_view (bdev s') b = written s ord (bs_view (bdev s)) b.
Proof.
  induction 1 as [|s r s1 ord s' (_ & Hf & H1) _ IH]; intros Hw; [done|].
  rewrite Hw in H1 by set_solver. destruct H1 as [Hm Hv].
  destruct IH as [Hm' Hv']; [set_solver|]. split; [congruence|]. intros b.
  rewrite Hv', (written_frame s s1) by (done || by apply df_parity_buf).
  unfold written. simpl. by apply (written_ext s).
Qed.

(** Distinct blocks: each gets its own data, whatever the order. *)
Lemma written_other s ord v b : (∀ r, r ∈ ord → rq_blockno r ≠ b) → written s ord v b = v b.
Proof.
  unfold written. revert v. induction ord as [|r ord IH]; intros v H; [done|]. simpl.
  rewrite IH by set_solver. rewrite decide_False; [done|]. intros ->. apply (H r); set_solver.
Qed.
Lemma written_distinct s ord v r :
  NoDup (rq_blockno <$> ord) → r ∈ ord → written s ord v (rq_blockno r) = data_of s r.
Proof.
  unfold written. revert v. induction ord as [|r0 ord IH]; intros v; [set_solver|]. simpl.
  intros [Hn Hd]%NoDup_cons [->|Hin]%elem_of_cons; [|by apply IH].
  change (written s ord (λ b, if decide (b = rq_blockno r0) then data_of s r0 else v b)
    (rq_blockno r0) = data_of s r0).
  rewrite written_other; [by rewrite decide_True|].
  intros r' Hr' E. apply Hn. rewrite <-E. apply list_elem_of_fmap_2. done.
Qed.

(** ** Consequences for a batch of reads *)

(** Reads into separate pieces of memory: each piece gets its block, and
    memory outside the pieces is unchanged. *)
Lemma served_reads_view s ord s' :
  served s ord s' → (∀ r, r ∈ ord → rq_write r = false) →
  ∀ b, bs_view (bdev s') b = bs_view (bdev s) b.
Proof.
  induction 1 as [|s r s1 ord s' (_ & _ & H1) _ IH]; intros Hw b; [done|].
  rewrite Hw in H1 by set_solver. destruct H1 as [_ Hv]. rewrite IH by set_solver. apply Hv.
Qed.

Definition apart (a b : Z) : Prop :=
  pg a ≠ pg b ∨ pgoff b + BSIZE ≤ pgoff a ∨ pgoff a + BSIZE ≤ pgoff b.
Definition dest (r : disk_req) : Z := match rq_data r with DMem a => a | DParity => 0 end.

Lemma served_reads_other s ord s' a :
  served s ord s' → mem_wf (mem s) → bs_inv (bdev s) →
  (∀ r, r ∈ ord → rq_write r = false ∧ 0 ≤ rq_blockno r < FSSIZE ∧ apart (dest r) a) →
  mread (mem s') a BSIZE = mread (mem s) a BSIZE.
Proof.
  induction 1 as [|s r s1 ord s' Hs _ IH]; intros Hwf Hinv Hok; [done|].
  destruct (Hok r) as (Hw & Hb & Ha); [set_solver|].
  pose proof (serve1_wf _ _ _ Hs Hwf). destruct Hs as (Hr1 & _ & H1).
  rewrite Hw in H1. destruct H1 as [(a' & Ea & Hm) _].
  rewrite IH; [|done|apply Hr1|intros r' Hr'; apply Hok; set_solver].
  unfold dest in Ha. rewrite Ea in Ha. unfold apart in Ha.
  eapply mread_mwrite_ne; [done|exact Hm|lia|].
  rewrite (bs_view_len (bdev s) (rq_blockno r)) by done. lia.
Qed.

Lemma served_reads_dest s ord s' r :
  served s ord s' → mem_wf (mem s) → bs_inv (bdev s) →
  (∀ r, r ∈ ord → rq_write r = false ∧ 0 ≤ rq_blockno r < FSSIZE) →
  (∀ i j r r', ord !! i = Some r → ord !! j = Some r' → i ≠ j → apart (dest r) (dest r')) →
  r ∈ ord → mread (mem s') (dest r) BSIZE = Some (bs_view (bdev s) (rq_blockno r)).
Proof.
  induction 1 as [|s r0 s1 ord s' Hs Hsd IH]; intros Hwf Hinv Hok Hap Hin; [set_solver|].
  destruct (Hok r0) as (Hw & Hb); [set_solver|].
  pose proof (serve1_wf _ _ _ Hs Hwf). destruct Hs as (Hr1 & _ & H1).
  rewrite Hw in H1. destruct H1 as [(a' & Ea & Hm) Hv].
  apply elem_of_cons in Hin as [->|Hin].
  - rewrite (served_reads_other s1 ord s'); [|done|done|apply Hr1|].
    + unfold dest. rewrite Ea. apply mread_mwrite_eq in Hm; [|done].
      by rewrite bs_view_len in Hm.
    + intros r' Hr'. destruct (Hok r') as [? ?]; [set_solver|]. split_and!; try done; try lia.
      apply list_elem_of_lookup in Hr' as [j Hj].
      apply (Hap (S j) 0%nat r' r0); [done|done|lia].
  - rewrite IH; [by rewrite Hv|done|apply Hr1|intros r' ?; apply Hok; set_solver| |done].
    intros i j r1 r2 ? ? ?. apply (Hap (S i) (S j)); [done|done|lia].
Qed.

Lemma served_reads_pages s ord s' b :
  served s ord s' → (∀ r, r ∈ ord → rq_write r = false ∧ pg (dest r) ≠ b) →
  mem s' !! b = mem s !! b.
Proof.
  induction 1 as [|s r s1 ord s' Hs _ IH]; intros Hok; [done|].
  rewrite IH by (intros r' ?; apply Hok; set_solver).
  destruct (Hok r) as [Hw Hp]; [set_solver|]. destruct Hs as (_ & _ & H1).
  rewrite Hw in H1. destruct H1 as [(a & Ea & Hm) _]. unfold dest in Hp. rewrite Ea in Hp.
  unfold mwrite in Hm. destruct (_ <=? _); [|done]. destruct (mem s !! pg a); [|done].
  injection Hm as <-. by rewrite lookup_insert_ne.
Qed.
End drain.
