(* ===== verification/Raid.v ===== *)
(** * RAID-backed swap: what a slot holds

    The layouts of [kernel/virtio_disk.c] as lists of requests, and what
    [disk_swap_write] and [disk_swap_read] make of them: where the blocks of a
    slot lie, which writes and reads a page turns into, that a page survives a
    round trip under RAID 0 whatever the disk scheduling policy, and what the
    RAID 1 and RAID 5 layouts do to it. *)

From stdpp Require Import base numbers list gmap strings.
From S2P Require Import Prelude Machine KState Disk.
Open Scope Z_scope.
Open Scope kernel_scope.

#[global] Arguments run_disk_queue : simpl never.
#[global] Arguments disk_swap_write : simpl never.
#[global] Arguments disk_swap_read : simpl never.

(** ** Where things lie *)

(** The stripe row and the place in it of block [b] of a slot under RAID 5. *)
Definition raid5_row (slot b : Z) : Z := (slot * 4 + b / 3 * 3) / 3.
Definition raid5_block (slot b : Z) : Z :=
  let row := raid5_row slot b in
  raid_real_block 2 (raid5_data_disk (row mod 4) (b mod 3)) (row / 4).
Definition raid5_parity_block (slot row_start : Z) : Z :=
  let row := (slot * 4 + row_start) / 3 in raid_real_block 2 (row mod 4) (row / 4).

(** The disk block that holds block [b] of slot [slot]. *)
Definition data_block (mode slot b : Z) : Z :=
  if mode =? 2 then raid5_block slot b else raid_real_block mode b slot.

Definition blk_req (mode : Z) (wr : bool) (slot page prio b : Z) : disk_req :=
  MkReq true (data_block mode slot b) wr prio (DMem (page + b * BSIZE)).

(** The requests reading a page back, the same in all three modes. *)
Definition read_reqs (mode slot page prio : Z) : list disk_req :=
  blk_req mode false slot page prio <$> [0; 1; 2; 3].

(** The copy of block [b] on the next disk, under RAID 1. *)
Definition mirror_req (slot page prio b : Z) : disk_req :=
  MkReq true (raid_real_block 1 ((b + 1) mod 4) slot) true prio (DMem (page + b * BSIZE)).
Definition parity_req (slot prio row_start : Z) : disk_req :=
  MkReq true (raid5_parity_block slot row_start) true prio DParity.

(** The requests writing a page out. *)
Definition write_reqs (mode slot page prio : Z) : list disk_req :=
  match mode with
  | 1 => concat ((λ b, [blk_req 1 true slot page prio b; mirror_req slot page prio b]) <$> [0; 1; 2; 3])
  | 2 => (blk_req 2 true slot page prio <$> [0; 1; 2]) ++ [parity_req slot prio 0] ++
         [blk_req 2 true slot page prio 3; parity_req slot prio 3]
  | _ => blk_req 0 true slot page prio <$> [0; 1; 2; 3]
  end.

Definition slot_ok (slot : Z) : Prop := 0 ≤ slot < NSWAPSPACE.

Lemma raid_real_block_bounds mode d o : 0 ≤ mode ≤ 2 → 0 ≤ d < 4 → 0 ≤ o < BLOCKS_PER_DISK →
  SWAP_START + mode * NSWAPBLOCKS_PER_MODE ≤ raid_real_block mode d o
    < SWAP_START + (mode + 1) * NSWAPBLOCKS_PER_MODE.
Proof. unfold raid_real_block. lia. Qed.

Lemma raid_real_block_inj mode d o mode' d' o' :
  0 ≤ d < 4 → 0 ≤ o < BLOCKS_PER_DISK → 0 ≤ d' < 4 → 0 ≤ o' < BLOCKS_PER_DISK →
  raid_real_block mode d o = raid_real_block mode' d' o' → mode = mode' ∧ d = d' ∧ o = o'.
Proof. unfold raid_real_block. lia. Qed.

Lemma raid5_data_disk_bounds p i : 0 ≤ p < 4 → 0 ≤ i < 3 → 0 ≤ raid5_data_disk p i < 4.
Proof. unfold raid5_data_disk. destruct (Z.leb_spec p i); lia. Qed.

Lemma data_block_bounds mode slot b : 0 ≤ mode ≤ 2 → slot_ok slot → 0 ≤ b < 4 →
  SWAP_START + mode * NSWAPBLOCKS_PER_MODE ≤ data_block mode slot b
    < SWAP_START + (mode + 1) * NSWAPBLOCKS_PER_MODE.
Proof.
  intros Hm Hs Hb. unfold slot_ok in Hs. unfold data_block, raid5_block, raid5_row.
  destruct (Z.eqb_spec mode 2) as [->|].
  - apply raid_real_block_bounds; [lia|apply raid5_data_disk_bounds; dlia|dlia].
  - apply raid_real_block_bounds; lia.
Qed.

(** ** From the loops to lists of requests *)

Lemma i32_slot slot : slot_ok slot → i32 (slot * BLOCKS_PER_PAGE) = slot * 4.
Proof. unfold slot_ok. intros. apply i32_id. lia. Qed.

Section reqs.
Context {D : Type} `{!BlockStore D}.
Implicit Types s : kst D.

Lemma logical_parts slot b : slot_ok slot → 0 ≤ b < 4 →
  Z.rem (i32 (slot * 4 + b)) NDISKS = b ∧ Z.quot (i32 (slot * 4 + b)) NDISKS = slot.
Proof.
  unfold slot_ok. intros. rewrite i32_id by lia.
  rewrite Z.rem_mod_nonneg, Z.quot_div_nonneg by lia. split; dlia.
Qed.

Lemma raid0_page_reqs wr slot page prio s : slot_ok slot →
  raid0_page wr slot page prio s = for_each enq (blk_req 0 wr slot page prio <$> [0; 1; 2; 3]) s.
Proof.
  intros Hs. unfold raid0_page. rewrite (i32_slot _ Hs). apply for_each_singletons.
  intros b s' Hb%(elem_of_upto 4). by destruct (logical_parts slot b Hs Hb) as [-> ->].
Qed.

Lemma raid1_read_reqs slot page prio s : slot_ok slot →
  raid1_read_page slot page prio s = for_each enq (read_reqs 1 slot page prio) s.
Proof.
  intros Hs. unfold raid1_read_page. rewrite (i32_slot _ Hs). apply for_each_singletons.
  intros b s' Hb%(elem_of_upto 4). by destruct (logical_parts slot b Hs Hb) as [-> ->].
Qed.

Lemma raid1_write_reqs slot page prio s : slot_ok slot →
  raid1_write_page slot page prio s = for_each enq (write_reqs 1 slot page prio) s.
Proof.
  intros Hs. unfold raid1_write_page. rewrite (i32_slot _ Hs).
  apply (for_each_flat _ (λ b, [blk_req 1 true slot page prio b; mirror_req slot page prio b])
           (upto BLOCKS_PER_PAGE)).
  intros b s' Hb%(elem_of_upto 4). destruct (logical_parts slot b Hs Hb) as [-> ->].
  rewrite <-for_each_enq_pair. unfold enq, mirror_req. simpl.
  by rewrite Z.rem_mod_nonneg by lia.
Qed.

(** The row of a block, in the arithmetic of the loops. *)
Lemma row_parts slot rs : slot_ok slot → 0 ≤ rs < 4 →
  Z.quot (i32 (slot * 4 + rs)) DATA_PER_ROW = (slot * 4 + rs) / 3 ∧
  Z.rem ((slot * 4 + rs) / 3) NDISKS = (slot * 4 + rs) / 3 mod 4 ∧
  Z.quot ((slot * 4 + rs) / 3) NDISKS = (slot * 4 + rs) / 3 / 4.
Proof.
  unfold slot_ok. intros Hs Hr. rewrite i32_id by lia.
  assert (0 ≤ (slot * 4 + rs) / 3) by dlia.
  by rewrite Z.rem_mod_nonneg, !Z.quot_div_nonneg by lia.
Qed.

Lemma raid5_block_row slot rs i : (rs = 0 ∧ 0 ≤ i < 3) ∨ (rs = 3 ∧ i = 0) →
  raid5_block slot (rs + i) =
    raid_real_block 2 (raid5_data_disk ((slot * 4 + rs) / 3 mod 4) i) ((slot * 4 + rs) / 3 / 4).
Proof.
  intros H. unfold raid5_block, raid5_row.
  assert ((rs + i) / 3 * 3 = rs ∧ (rs + i) mod 3 = i) as [-> ->] by (split; dlia). done.
Qed.

Lemma raid5_read_reqs slot page prio s : slot_ok slot →
  raid5_read_page slot page prio s = for_each enq (read_reqs 2 slot page prio) s.
Proof.
  intros Hs. unfold raid5_read_page. rewrite (i32_slot _ Hs).
  rewrite (for_each_flat _ (λ rs, if decide (rs = 0) then blk_req 2 false slot page prio <$> [0; 1; 2]
                                  else [blk_req 2 false slot page prio 3])); [done|].
  intros rs s' Hrs. assert (0 ≤ rs < 4) as Hrs' by (unfold row_starts in Hrs; set_solver by lia).
  destruct (row_parts slot rs Hs Hrs') as (-> & -> & ->). unfold row_starts in Hrs.
  apply elem_of_cons in Hrs as [->|[->|[]%not_elem_of_nil]%elem_of_cons].
  - rewrite decide_True by done. apply for_each_singletons.
    intros i s'' Hi%(elem_of_upto 3). destruct (Z.ltb_spec (0 + i) BLOCKS_PER_PAGE); [|lia].
    pose proof (raid5_block_row slot 0 i ltac:(lia)) as E. rewrite !Z.add_0_l in E.
    unfold when, enq, blk_req, data_block. simpl. by rewrite E.
  - rewrite decide_False by done. rewrite <-for_each_enq_one.
    change (upto DATA_PER_ROW) with [0; 1; 2]. unfold for_each, when, enq, blk_req, data_block. simpl.
    pose proof (raid5_block_row slot 3 0 ltac:(lia)) as E.
    change (3 + 0) with 3 in *. rewrite E. unfold mbind, M_bind.
    by destruct (enqueue_disk_req _ _ _ _ _) as [[[] ?]| | |].
Qed.
End reqs.

(** ** Writing a RAID 5 page *)

(** Block [b] of a page. *)
Definition page_block (p : list Z) (b : Z) : list Z := sub (b * BSIZE) BSIZE p.

Lemma mread_block (m : phys) page p b :
  mem_wf m → m !! page = Some p → 0 ≤ b < 4 → mread m (page + b * BSIZE) BSIZE = Some (page_block p b).
Proof.
  intros Hwf Hp Hb. pose proof (mem_wf_aligned _ _ _ Hwf Hp).
  rewrite (mread_Some _ _ _ p); rewrite ?pg_add, ?pgoff_add by lia; [done|done|lia].
Qed.

Lemma zlen_page_block p b : zlen p = PGSIZE → 0 ≤ b < 4 → zlen (page_block p b) = BSIZE.
Proof. intros. unfold page_block. apply zlen_sub; lia. Qed.

(** A page is its four blocks. *)
Lemma page_ext p p' : zlen p = PGSIZE → zlen p' = PGSIZE →
  (∀ b, 0 ≤ b < 4 → page_block p b = page_block p' b) → p = p'.
Proof.
  intros Hp Hp' H.
  assert (∀ q, zlen q = PGSIZE → q = page_block q 0 ++ page_block q 1 ++ page_block q 2 ++ page_block q 3) as E.
  { intros q Hq. unfold page_block, sub. change (Z.to_nat (0 * BSIZE)) with 0%nat. rewrite drop_0.
    assert (∀ (l : list Z) (a c : nat), (c = a + Z.to_nat BSIZE)%nat →
      take (Z.to_nat BSIZE) (drop a l) ++ drop c l = drop a l) as Hs.
    { intros l a c ->. rewrite <-drop_drop. apply take_drop. }
    rewrite (take_ge (drop (Z.to_nat (3 * BSIZE)) q)) by (rewrite length_drop; unfold zlen in Hq; lia).
    rewrite (Hs q (Z.to_nat (2 * BSIZE)) (Z.to_nat (3 * BSIZE))) by lia.
    rewrite (Hs q (Z.to_nat (1 * BSIZE)) (Z.to_nat (2 * BSIZE))) by lia.
    symmetry. apply (take_drop (Z.to_nat BSIZE) q). }
  rewrite (E p Hp), (E p' Hp'). by rewrite !H by lia.
Qed.

Section raid5_write.
Context {D : Type} `{!BlockStore D}.
Implicit Types s : kst D.

(** The place [i] of the row starting at [rs] is a block of the page. *)
Definition in_row (rs i : Z) : Prop := (rs = 0 ∧ 0 ≤ i < 3) ∨ (rs = 3 ∧ i = 0).

Lemma raid5_write_block_ok slot rs i page prio p s h reqs r0 rest :
  mem_wf (mem s) → mem s !! page = Some p → held s = {[LSched]} ∪ h → LSched ∉ h →
  in_row rs i → req_queue s = reqs ++ r0 :: rest → all_valid reqs → rq_valid r0 = false →
  raid5_write_block ((slot * 4 + rs) / 3 mod 4) ((slot * 4 + rs) / 3 / 4) rs page prio i s =
    Ok (tt, s <| parity_buf ::= λ b, xor_into b (page_block p (rs + i)) |>
              <| req_queue := reqs ++ blk_req 2 true slot page prio (rs + i) :: rest |>).
Proof.
  intros Hwf Hp Hh Hnh Hi Hq Hv Hr0. unfold in_row in Hi. unfold raid5_write_block.
  destruct (Z.ltb_spec (rs + i) BLOCKS_PER_PAGE); [|lia].
  erewrite bind_step by (apply read_bytes_ok, mread_block; [done..|lia]).
  erewrite bind_step by done. simpl.
  erewrite bind_step by (apply release_ok; simpl; rewrite Hh; set_solver).
  erewrite bind_step by (apply (enqueue_ok _ _ _ _ _ reqs r0 rest);
    [simpl; rewrite Hh; set_solver|done..]).
  rewrite acquire_ok by (simpl; rewrite Hh; set_solver). do 2 f_equal.
  unfold blk_req, data_block. simpl. rewrite raid5_block_row by lia.
  destruct s; simpl in *. f_equal. by rewrite Hh, held_restore.
Qed.

Lemma raid5_blocks_ok slot rs page prio p l s h reqs rest :
  mem_wf (mem s) → mem s !! page = Some p → held s = {[LSched]} ∪ h → LSched ∉ h →
  Forall (in_row rs) l →
  req_queue s = reqs ++ rest → all_valid reqs → all_free rest → (length l ≤ length rest)%nat →
  for_each (raid5_write_block ((slot * 4 + rs) / 3 mod 4) ((slot * 4 + rs) / 3 / 4) rs page prio) l s =
    Ok (tt, s <| parity_buf := foldl (λ b i, xor_into b (page_block p (rs + i))) (parity_buf s) l |>
              <| req_queue := reqs ++ ((λ i, blk_req 2 true slot page prio (rs + i)) <$> l)
                                ++ drop (length l) rest |>).
Proof.
  intros Hwf Hp Hh Hnh Hl. revert s reqs rest Hwf Hp Hh.
  induction Hl as [|i l Hi Hl IH]; intros s reqs rest Hwf Hp Hh Hq Hv Hf Hlen.
  { simpl. rewrite drop_0, <-Hq. by destruct s. }
  destruct rest as [|r0 rest]; [simpl in Hlen; lia|].
  apply Forall_cons in Hf as [Hr0 Hf]. simpl.
  erewrite bind_step by (eapply raid5_write_block_ok; done).
  rewrite (IH _ (reqs ++ [blk_req 2 true slot page prio (rs + i)]) rest); simpl in *; try done.
  - apply Ok_pair. rewrite <-app_assoc. by destruct s.
  - by rewrite <-app_assoc.
  - apply Forall_app. split; [done|]. by constructor.
  - lia.
Qed.

(** A row: its data blocks, then its parity block; [parity_buf] is left
    holding the parity of this row. *)
Lemma raid5_write_row_ok slot rs l page prio p s reqs rest :
  slot_ok slot → mem_wf (mem s) → mem s !! page = Some p → LSched ∉ held s →
  (rs = 0 ∧ l = [0; 1; 2]) ∨ (rs = 3 ∧ l = [0]) →
  req_queue s = reqs ++ rest → all_valid reqs → all_free rest → (length l < length rest)%nat →
  raid5_write_row (slot * 4) page prio rs s =
    Ok (tt, s <| parity_buf := foldl (λ b i, xor_into b (page_block p (rs + i))) (zrepl BSIZE 0) l |>
              <| req_queue := reqs ++ ((λ i, blk_req 2 true slot page prio (rs + i)) <$> l)
                                ++ parity_req slot prio rs :: drop (S (length l)) rest |>).
Proof.
  intros Hs Hwf Hp Hh Hl Hq Hv Hf Hlen. unfold raid5_write_row.
  destruct (row_parts slot rs Hs) as (-> & -> & ->); [lia|].
  erewrite bind_step by (by apply acquire_ok). erewrite bind_step by done. simpl.
  assert (Forall (in_row rs) l) as Hin.
  { unfold in_row. destruct Hl as [[-> ->]|[-> ->]]; repeat constructor; lia. }
  set (s1 := s <| held := {[LSched]} ∪ held s |> <| parity_buf := zrepl BSIZE 0 |>).
  assert (for_each (raid5_write_block ((slot * 4 + rs) / 3 mod 4) ((slot * 4 + rs) / 3 / 4) rs page prio)
            (upto DATA_PER_ROW) s1 =
          for_each (raid5_write_block ((slot * 4 + rs) / 3 mod 4) ((slot * 4 + rs) / 3 / 4) rs page prio) l s1)
    as El.
  { change (upto DATA_PER_ROW) with [0; 1; 2]. destruct Hl as [[-> ->]|[-> ->]]; [done|].
    unfold for_each, mbind, M_bind.
    destruct (raid5_write_block _ _ 3 _ _ 0 _) as [[[] ?]| | |]; done. }
  rewrite (raid5_blocks_ok slot rs page prio p l s1 (held s) reqs rest) in El
    by (done || simpl; lia).
  erewrite bind_step by exact El. simpl.
  erewrite bind_step by (apply release_ok; simpl; set_solver). simpl.
  assert (∃ r0, drop (length l) rest = r0 :: drop (S (length l)) rest ∧ rq_valid r0 = false) as (r0 & Hr0 & Hfr).
  { destruct (lookup_lt_is_Some_2 rest (length l)) as [r0 Hr0]; [done|]. exists r0. split.
    - by apply drop_S.
    - by eapply Forall_lookup in Hf. }
  unfold parity_req, raid5_parity_block.
  erewrite enqueue_ok with (reqs := reqs ++ _) (r0 := r0); simpl.
  - apply Ok_pair. rewrite <-app_assoc. kst_eq. by rewrite held_restore.
  - rewrite held_restore by done. done.
  - by rewrite Hr0, <-app_assoc.
  - apply Forall_app. split; [done|]. by apply Forall_fmap, Forall_true.
  - done.
Qed.

Lemma raid5_write_page_ok slot page prio p s rest :
  slot_ok slot → mem_wf (mem s) → mem s !! page = Some p → LSched ∉ held s →
  req_queue s = rest → all_free rest → (6 ≤ length rest)%nat →
  raid5_write_page slot page prio s =
    Ok (tt, s <| parity_buf := xor_into (zrepl BSIZE 0) (page_block p 3) |>
              <| req_queue := write_reqs 2 slot page prio ++ drop 6 rest |>).
Proof.
  intros Hs Hwf Hp Hh Hq Hf Hlen. unfold raid5_write_page, row_starts.
  rewrite (i32_slot _ Hs). unfold for_each.
  erewrite bind_step by (eapply (raid5_write_row_ok slot 0 [0; 1; 2] _ _ p _ [] rest);
    try done; [by left|constructor|simpl; lia]).
  erewrite bind_step; [done|].
  erewrite (raid5_write_row_ok slot 3 [0] _ _ p _
    ((blk_req 2 true slot page prio <$> [0; 1; 2]) ++ [parity_req slot prio 0]) (drop 4 rest)); simpl.
  - apply Ok_pair. rewrite drop_drop. by kst_eq.
  - done.
  - done.
  - done.
  - done.
  - by right.
  - done.
  - repeat constructor.
  - by apply Forall_drop.
  - rewrite length_drop. lia.
Qed.
End raid5_write.

(** ** Swapping a page out *)

Section swap.
Context {D : Type} `{!BlockStore D, !BlockStoreLaws D}.
Implicit Types s : kst D.

(** The driver is ready and no request is waiting. *)
Record disk_idle s : Prop := {
  di_ready : disk_ready s;
  di_wf : mem_wf (mem s);
  di_free : all_free (req_queue s);
}.

(** What [disk_swap_write] leaves alone. *)
Definition sframe s s' : Prop :=
  dframe (s <| slot_raid_mode := slot_raid_mode s' |> <| parity_buf := parity_buf s' |>) s'.

#[global] Instance sframe_preorder : PreOrder sframe.
Proof.
  split; [by intros []|]. intros s1 s2 s3 [] []. simpl in *. split; simpl; congruence.
Qed.
Lemma dframe_sframe s s' : dframe s s' → sframe s s'.
Proof. intros []. by split. Qed.

Lemma flush_ok s reqs rest :
  disk_ready s → mem_wf (mem s) → req_queue s = reqs ++ rest → all_valid reqs → all_free rest →
  (∀ r, r ∈ reqs → req_ok s r) →
  ∃ s' ord, run_disk_queue s = Ok (tt, s') ∧ served s ord s' ∧ disk_idle s' ∧ ord ≡ₚ reqs ∧
    (disk_policy s = SCHED_FCFS → ord = reqs).
Proof.
  intros Hr Hwf Hq Hv Hf Hok.
  assert (pending (req_queue s) = reqs) as Hp.
  { by rewrite Hq, pending_app, pending_valid, pending_free, app_nil_r. }
  destruct (run_disk_queue_drain s) as (s' & ord & E & Hs & Hfree & Hord);
    [done|done|by rewrite Hp|]. rewrite Hp in Hord.
  exists s', ord. split_and!; try apply Hord; try done.
  split; [by eapply served_ready|by eapply served_wf|done].
Qed.

Lemma write_reqs_valid mode slot page prio : all_valid (write_reqs mode slot page prio).
Proof. unfold write_reqs. repeat case_match; repeat constructor. Qed.
Lemma write_reqs_length mode slot page prio : (length (write_reqs mode slot page prio) ≤ 8)%nat.
Proof. unfold write_reqs. repeat case_match; simpl; lia. Qed.
Lemma write_reqs_write mode slot page prio r :
  r ∈ write_reqs mode slot page prio → rq_write r = true.
Proof.
  revert r. apply Forall_forall. unfold write_reqs. repeat case_match; repeat constructor.
Qed.

(** All blocks a slot is written to lie in the region of the mode. *)
Lemma write_reqs_region mode slot page prio r :
  0 ≤ mode ≤ 2 → slot_ok slot → r ∈ write_reqs mode slot page prio →
  SWAP_START + mode * NSWAPBLOCKS_PER_MODE ≤ rq_blockno r
    < SWAP_START + (mode + 1) * NSWAPBLOCKS_PER_MODE.
Proof.
  intros Hm Hs. revert r. apply Forall_forall.
  assert (∀ rs, 0 ≤ rs < 4 → SWAP_START + 2 * NSWAPBLOCKS_PER_MODE ≤ raid5_parity_block slot rs
    < SWAP_START + (2 + 1) * NSWAPBLOCKS_PER_MODE) as Hpar.
  { intros. unfold slot_ok in Hs. apply raid_real_block_bounds; [lia|dlia|dlia]. }
  assert (∀ b, 0 ≤ b < 4 → SWAP_START + 1 * NSWAPBLOCKS_PER_MODE ≤ rq_blockno (mirror_req slot page prio b)
    < SWAP_START + (1 + 1) * NSWAPBLOCKS_PER_MODE) as Hmir.
  { intros. unfold slot_ok in Hs. apply raid_real_block_bounds; [lia|dlia|lia]. }
  assert (mode = 0 ∨ mode = 1 ∨ mode = 2) as [->|[->| ->]] by lia; unfold write_reqs; simpl;
    repeat apply Forall_cons_2; try apply Forall_nil_2; try (apply data_block_bounds; [lia|done|lia]);
    try (apply Hpar; lia); try (apply Hmir; lia).
Qed.

Lemma blk_req_ok s mode wr slot page prio b p :
  0 ≤ mode ≤ 2 → slot_ok slot → 0 ≤ prio ≤ 3 → mem_wf (mem s) → mem s !! page = Some p → 0 ≤ b < 4 →
  req_ok s (blk_req mode wr slot page prio b).
Proof.
  intros Hm Hs Hp Hwf Hpg Hb. pose proof (mem_wf_aligned _ _ _ Hwf Hpg).
  pose proof (data_block_bounds mode slot b Hm Hs Hb).
  split; [split; simpl; lia|]. simpl. rewrite pg_add, pgoff_add by lia. split; [by eexists|lia].
Qed.

Lemma write_reqs_ok s mode slot page prio p :
  0 ≤ mode ≤ 2 → slot_ok slot → 0 ≤ prio ≤ 3 → mem_wf (mem s) → mem s !! page = Some p →
  (mode = 2 → zlen (parity_buf s) = BSIZE) →
  ∀ r, r ∈ write_reqs mode slot page prio → req_ok s r.
Proof.
  intros Hm Hs Hp Hwf Hpg Hpar r Hr. pose proof (write_reqs_region _ _ _ _ _ Hm Hs Hr) as Hb.
  split.
  { split; [lia|]. revert r Hr Hb. 
    assert (Forall (λ r, rq_priority r = prio) (write_reqs mode slot page prio)) as H.
    { unfold write_reqs. repeat case_match; repeat constructor. }
    intros r Hr _. rewrite Forall_forall in H. rewrite (H r Hr). lia. }
  pose proof (mem_wf_aligned _ _ _ Hwf Hpg) as Hal.
  assert (Forall (λ r, rq_write r = true ∧ ((mode = 2 ∧ rq_data r = DParity) ∨ ∃ b, 0 ≤ b < 4 ∧ rq_data r = DMem (page + b * BSIZE)))
    (write_reqs mode slot page prio)) as H.
  { assert (∀ b : Z, 0 ≤ b < 4 → ∃ b', 0 ≤ b' < 4 ∧ DMem (page + b * BSIZE) = DMem (page + b' * BSIZE)) by eauto.
    unfold write_reqs. repeat case_match; repeat apply Forall_cons_2; try apply Forall_nil_2;
      simpl; (split; [done|]); ((left; split; done) || (right; auto with lia)). }
  rewrite Forall_forall in H. destruct (H r Hr) as [Hw [[-> ->]|(b & Hb' & ->)]]; [by auto|].
  rewrite pg_add, pgoff_add by lia. split; [by eexists|lia].
Qed.

(** Queueing the requests of a page. *)
Lemma queue_page_write s slot page prio p mode :
  disk_idle s → slot_ok slot → mem s !! page = Some p → 0 ≤ mode ≤ 2 →
  ∃ pb, raid_write_page mode slot page prio s = Ok (tt, s <| parity_buf := pb |>
      <| req_queue := write_reqs mode slot page prio ++
           drop (length (write_reqs mode slot page prio)) (req_queue s) |>) ∧
    (mode = 2 → pb = xor_into (zrepl BSIZE 0) (page_block p 3)).
Proof.
  intros [Hr Hwf Hf] Hs Hp Hm.
  assert (length (req_queue s) = 128%nat) as Hlen by (pose proof (dr_queue _ Hr); unfold zlen in *; lia).
  assert (LSched ∉ held s) as Hh by (rewrite (dr_held _ Hr); set_solver).
  assert (mode = 0 ∨ mode = 1 ∨ mode = 2) as [->|[->| ->]] by lia.
  - exists (parity_buf s). split; [|done]. unfold raid_write_page, raid0_write_page. rewrite raid0_page_reqs by done.
    rewrite (for_each_enq_ok _ s [] (req_queue s));
      [|done|done|constructor|done|apply (write_reqs_valid 0)|rewrite Hlen; simpl; lia].
    apply Ok_pair. by kst_eq.
  - exists (parity_buf s). split; [|done]. unfold raid_write_page. rewrite raid1_write_reqs by done.
    rewrite (for_each_enq_ok _ s [] (req_queue s));
      [|done|done|constructor|done|apply (write_reqs_valid 1)|rewrite Hlen; simpl; lia].
    apply Ok_pair. by kst_eq.
  - eexists. split; [|done]. unfold raid_write_page. rewrite (raid5_write_page_ok _ _ _ p _ (req_queue s)) by (done || lia).
    done.
Qed.

(** [disk_swap_write] returns, puts each request of the page on the disk once
    (in queue order under FCFS) and remembers the mode of the slot. *)
Lemma disk_swap_write_ok s slot page prio p :
  disk_idle s → slot_ok slot → 0 ≤ prio ≤ 3 → mem s !! page = Some p → 0 ≤ raid_mode s ≤ 2 →
  ∃ s' ord, disk_swap_write slot page prio s = Ok (tt, s') ∧ disk_idle s' ∧ sframe s s' ∧
    mem s' = mem s ∧ slot_raid_mode s' = zset (slot_raid_mode s) slot (raid_mode s) ∧
    (raid_mode s = 2 → parity_buf s' = xor_into (zrepl BSIZE 0) (page_block p 3)) ∧
    ord ≡ₚ write_reqs (raid_mode s) slot page prio ∧
    (disk_policy s = SCHED_FCFS → ord = write_reqs (raid_mode s) slot page prio) ∧
    ∀ b, bs_view (bdev s') b = written s' ord (bs_view (bdev s)) b.
Proof.
  intros Hi Hs Hpr Hp Hm. pose proof Hi as [Hr Hwf Hf].
  pose proof (dr_held _ Hr) as Hh. pose proof (dr_queue _ Hr) as Hlq.
  set (mode := raid_mode s) in *. set (reqs := write_reqs mode slot page prio).
  set (s0 := s <| slot_raid_mode := zset (slot_raid_mode s) slot mode |>).
  assert (disk_idle s0) as Hi0 by (split; [destruct Hr; by split|done..]).
  destruct (queue_page_write s0 slot page prio p mode) as (pb & Eq & Hpb); [done..|].
  set (s1 := s0 <| parity_buf := pb |> <| req_queue := reqs ++ drop (length reqs) (req_queue s0) |>) in Eq.
  assert (disk_ready s1) as Hr1.
  { destruct Hr. split; try done. simpl. rewrite zlen_app. unfold zlen in *. rewrite length_drop.
    pose proof (write_reqs_length mode slot page prio). fold reqs in H. lia. }
  destruct (flush_ok s1 reqs (drop (length reqs) (req_queue s)))
    as (s' & ord & Erun & Hsv & Hi' & Hperm & Hfcfs); [done|done|done|apply write_reqs_valid|by apply Forall_drop| |].
  { eapply write_reqs_ok; try done. simpl. intros E. rewrite (Hpb E).
    unfold xor_into, zlen. rewrite length_zip_with.
    pose proof (zlen_zrepl BSIZE 0 ltac:(lia)) as H1. unfold zlen in H1.
    pose proof (zlen_page_block p 3 (mem_wf_len _ _ _ Hwf Hp) ltac:(lia)) as H2. unfold zlen in H2. lia. }
  destruct (served_writes _ _ _ Hsv) as [Hmem Hview].
  { intros r Hr'. rewrite Hperm in Hr'. by eapply write_reqs_write. }
  pose proof (served_frame _ _ _ Hsv) as Hfr.
  exists s', ord. split_and!; try done.
  - unfold disk_swap_write.
    mstep acquire_ok; [|rewrite Hh; set_solver].
    erewrite bind_step by done.
    erewrite bind_step by (apply release_ok; simpl; set_solver). simpl.
    assert ((0 <=? slot) && (slot <? 4096) = true) as -> by (unfold slot_ok in Hs; lia).
    erewrite bind_step by done.
    erewrite bind_step; [exact Erun|]. etrans; [|exact Eq]. fold mode. f_equal.
    kst_eq. by rewrite held_restore by (rewrite Hh; set_solver).
  - destruct Hfr. simpl in *. split; simpl; congruence.
  - by rewrite (df_slot_raid_mode _ _ Hfr).
  - intros E. by rewrite (df_parity_buf _ _ Hfr), <-(Hpb E).
  - intros b. rewrite Hview. symmetry. apply written_frame; [done|]. apply (df_parity_buf _ _ Hfr).
Qed.

(** ** Swapping a page in *)

Lemma read_reqs_dest mode slot page prio r :
  r ∈ read_reqs mode slot page prio →
  ∃ b, 0 ≤ b < 4 ∧ r = blk_req mode false slot page prio b.
Proof.
  unfold read_reqs. intros (b & -> & Hb%(elem_of_upto 4))%list_elem_of_fmap. eauto.
Qed.

Lemma queue_page_read s slot page prio mode :
  LSched ∉ held s → zlen (req_queue s) = NDISKREQS → all_free (req_queue s) → slot_ok slot → 0 ≤ mode ≤ 2 →
  raid_read_page mode slot page prio s = Ok (tt, s <| req_queue := read_reqs mode slot page prio ++ drop 4 (req_queue s) |>).
Proof.
  intros Hh Hq Hf Hs Hm.
  assert (length (req_queue s) = 128%nat) as Hlen by (unfold zlen in *; lia).
  assert (for_each enq (read_reqs mode slot page prio) s =
    Ok (tt, s <| req_queue := read_reqs mode slot page prio ++ drop 4 (req_queue s) |>)) as E.
  { rewrite (for_each_enq_ok _ s [] (req_queue s));
      [done|done|done|constructor|done|repeat constructor|rewrite Hlen; simpl; lia]. }
  assert (mode = 0 ∨ mode = 1 ∨ mode = 2) as [->|[->| ->]] by lia.
  - unfold raid_read_page, raid0_read_page. by rewrite raid0_page_reqs.
  - unfold raid_read_page. by rewrite raid1_read_reqs.
  - unfold raid_read_page. by rewrite raid5_read_reqs.
Qed.

(** [disk_swap_read] fills the page with the blocks of the slot, in the mode
    the slot was written in, and changes nothing else in memory or on disk. *)
Lemma disk_swap_read_ok s slot page prio mode p0 :
  disk_idle s → slot_ok slot → 0 ≤ prio ≤ 3 → mem s !! page = Some p0 →
  znth (slot_raid_mode s) slot = Some mode → 0 ≤ mode ≤ 2 →
  ∃ s' p, disk_swap_read slot page prio s = Ok (tt, s') ∧ disk_idle s' ∧ dframe s s' ∧
    mem s' = <[page := p]> (mem s) ∧ zlen p = PGSIZE ∧
    (∀ b, 0 ≤ b < 4 → page_block p b = bs_view (bdev s) (data_block mode slot b)) ∧
    ∀ b, bs_view (bdev s') b = bs_view (bdev s) b.
Proof.
  intros Hi Hs Hpr Hp Hmode Hm. pose proof Hi as [Hr Hwf Hf].
  pose proof (mem_wf_aligned _ _ _ Hwf Hp) as Hal.
  set (reqs := read_reqs mode slot page prio).
  set (s1 := s <| req_queue := reqs ++ drop 4 (req_queue s) |>).
  assert (disk_ready s1) as Hr1.
  { destruct Hr. split; try done. change (zlen (reqs ++ drop 4 (req_queue s)) = NDISKREQS).
    rewrite zlen_app. unfold zlen in *. rewrite length_drop. change (length reqs) with 4%nat. lia. }
  destruct (flush_ok s1 reqs (drop 4 (req_queue s))) as (s' & ord & Erun & Hsv & Hi' & Hperm & _);
    [done|done|done|repeat constructor|by apply Forall_drop| |].
  { intros r (b & Hb & ->)%read_reqs_dest. by eapply blk_req_ok. }
  assert (∀ r, r ∈ ord → ∃ b, 0 ≤ b < 4 ∧ r = blk_req mode false slot page prio b) as Hord.
  { intros r Hr'. rewrite Hperm in Hr'. by apply read_reqs_dest. }
  assert (∀ b, 0 ≤ b < 4 → mread (mem s') (page + b * BSIZE) BSIZE = Some (bs_view (bdev s) (data_block mode slot b))) as Hrd.
  { intros b Hb. apply (served_reads_dest s1 ord s' (blk_req mode false slot page prio b)); try done.
    - apply Hr.
    - intros r (b' & Hb' & ->)%Hord. split; [done|]. pose proof (data_block_bounds mode slot b' Hm Hs Hb').
      simpl. lia.
    - intros i j r r' Hr' Hj Hij.
      destruct (Hord r) as (b1 & Hb1 & ->); [by eapply list_elem_of_lookup_2|].
      destruct (Hord r') as (b2 & Hb2 & ->); [by eapply list_elem_of_lookup_2|].
      assert (b1 ≠ b2). { intros ->. apply Hij.
        apply (NoDup_lookup (dest <$> ord) i j (page + b2 * BSIZE)); rewrite ?list_lookup_fmap, ?Hr', ?Hj; try done.
        rewrite Hperm.
        change (NoDup [page + 0 * BSIZE; page + 1 * BSIZE; page + 2 * BSIZE; page + 3 * BSIZE]).
        repeat (apply NoDup_cons_2); [rewrite ?elem_of_cons, ?elem_of_nil; lia..|constructor]. }
      unfold apart, dest. simpl. rewrite !pg_add, !pgoff_add by lia. lia.
    - rewrite Hperm. unfold reqs, read_reqs. apply list_elem_of_fmap_2. by apply (elem_of_upto 4). }
  pose proof (di_wf _ Hi') as Hwf'.
  destruct (mem s' !! page) as [p|] eqn:Hpg; cycle 1.
  { specialize (Hrd 0 ltac:(lia)). unfold mread in Hrd. rewrite pg_add, Hpg in Hrd by lia.
    by destruct (_ <=? _). }
  exists s', p. split_and!; try done.
  - unfold disk_swap_read. unfold slot_ok in Hs.
    assert ((0 <=? slot) && (slot <? 4096) = true) as -> by lia.
    erewrite bind_step by (unfold mbind, M_bind, gets; by rewrite Hmode).
    erewrite bind_step; [exact Erun|]. apply queue_page_read; [by apply disk_ready_locks|apply Hr|done..].
  - pose proof (served_frame _ _ _ Hsv) as Hfr. destruct Hfr. by split.
  - apply map_eq. intros a. rewrite lookup_insert. case_decide as Ha; [by subst|].
    apply (served_reads_pages _ _ _ a Hsv). intros r (b & Hb & ->)%Hord. split; [done|].
    unfold dest. simpl. by rewrite pg_add by lia.
  - by eapply mem_wf_len.
  - intros b Hb. specialize (Hrd b Hb). rewrite (mread_block _ _ p) in Hrd by done. by injection Hrd.
  - intros b. apply (served_reads_view _ _ _ Hsv). by intros r (b' & Hb' & ->)%Hord.
Qed.

(** Reading a page back with a spinlock held, no block of it in the cache: the
    first transfer has to wait for the disk, and [sched] refuses. *)
Lemma swap_read_locked s slot page prio mode :
  held s ≠ ∅ → LSched ∉ held s → (∀ i, LProc i ∉ held s) → (∀ i, cur s = Some i → is_Some (procs s !! i)) →
  zlen (req_queue s) = NDISKREQS → all_free (req_queue s) → 0 ≤ disk_head_pos s < FSSIZE →
  slot_ok slot → 0 ≤ prio ≤ 3 → znth (slot_raid_mode s) slot = Some mode → 0 ≤ mode ≤ 2 →
  (∀ b, 0 ≤ b < 4 → bs_sleeps false (data_block mode slot b) (bdev s) = true) →
  disk_swap_read slot page prio s = Panic "sched locks".
Proof.
  intros Hh Hls Hlp Hc Hq Hf Hhd Hs Hpr Hmode Hm Hsl. unfold disk_swap_read.
  assert ((0 <=? slot) && (slot <? 4096) = true) as -> by (unfold slot_ok in Hs; lia).
  erewrite bind_step by (unfold mbind, M_bind, gets; by rewrite Hmode).
  erewrite bind_step by (by apply queue_page_read). set (q := read_reqs mode slot page prio ++ _).
  assert (∀ r, r ∈ q → rq_valid r = true → r ∈ read_reqs mode slot page prio) as Hin.
  { intros r [|Hr]%elem_of_app Hv; [done|]. apply (Forall_drop _ 4) in Hf. rewrite Forall_forall in Hf.
    apply Hf in Hr. congruence. }
  destruct (pick_request_spec (disk_policy s) (disk_head_pos s) q) as [[_ Hfree]|(k & r & Hpick & Hk & Hv)]; [done| | |].
  - intros r Hr Hv. apply Hin, read_reqs_dest in Hr as (b & Hb & ->); [|done].
    pose proof (data_block_bounds mode slot b Hm Hs Hb). unfold req_bounds. simpl. lia.
  - apply Forall_cons in Hfree as [Hfree _]. discriminate.
  - destruct (step_common (s <| req_queue := q |>) k r) as (s1 & E & Hfr & _ & Hbd & _); [done..|].
    assert (r ∈ q) as Hr by (by eapply list_elem_of_lookup_2). apply Hin, read_reqs_dest in Hr as (b & Hb & Er); [|done..].
    assert (rq_write r = false ∧ bs_sleeps false (rq_blockno r) (bdev s1) = true) as [Hw Hsl'] by (rewrite Hbd, Er; split; [done|by apply Hsl]).
    unfold run_disk_queue. cbn [loop]. apply bind_panic. rewrite E, Hw. apply bind_panic. unfold do_disk_read.
    apply bind_panic. unfold wait_block. mget (bdev s1). rewrite Hsl'. unfold when, may_sleep. mget (held s1). rewrite (df_held _ _ Hfr). by rewrite decide_False.
Qed.
End swap.

(** ** Slots keep their pages *)

Section slots.
Context {D : Type} `{!BlockStore D, !BlockStoreLaws D}.
Implicit Types s : kst D.

(** What holds of the swap code between its operations. *)
Record swap_inv s : Prop := {
  si_idle : disk_idle s;
  si_len : zlen (slot_raid_mode s) = NSWAPSPACE;
  si_modes : Forall (λ m, 0 ≤ m ≤ 2) (slot_raid_mode s);
  si_mode : 0 ≤ raid_mode s ≤ 2;
}.

(** Slot [slot] was written under [mode] and its blocks hold page [p]. *)
Record slot_holds s (mode slot : Z) (p : list Z) : Prop := {
  sh_mode : znth (slot_raid_mode s) slot = Some mode;
  sh_range : 0 ≤ mode ≤ 2;
  sh_len : zlen p = PGSIZE;
  sh_blocks b : 0 ≤ b < 4 → bs_view (bdev s) (data_block mode slot b) = page_block p b;
}.

Lemma slot_mode s slot : swap_inv s → slot_ok slot →
  ∃ mode, znth (slot_raid_mode s) slot = Some mode ∧ 0 ≤ mode ≤ 2.
Proof.
  intros [_ Hl Hm _] Hs. unfold slot_ok in Hs.
  destruct (znth_lt (slot_raid_mode s) slot) as [m E]; [lia|]. exists m. split; [done|].
  unfold znth in E. destruct (0 <=? slot); [|done]. by eapply Forall_lookup in Hm.
Qed.

Lemma disk_swap_write_inv s slot page prio p s' :
  swap_inv s → slot_ok slot → 0 ≤ prio ≤ 3 → mem s !! page = Some p →
  disk_swap_write slot page prio s = Ok (tt, s') → swap_inv s'.
Proof.
  intros [Hi Hl Hm Hrm] Hs Hp Hpg E.
  destruct (disk_swap_write_ok s slot page prio p) as (s1 & ord & E1 & Hi1 & Hf & _ & Hsm & _); [done..|].
  rewrite E in E1. injection E1 as ->. split; [done| | |].
  - by rewrite Hsm, zlen_zset.
  - rewrite Hsm. unfold zset. by apply Forall_insert.
  - by rewrite (df_raid_mode _ _ Hf).
Qed.

Lemma disk_swap_read_inv s slot page prio p s' :
  swap_inv s → slot_ok slot → 0 ≤ prio ≤ 3 → mem s !! page = Some p →
  disk_swap_read slot page prio s = Ok (tt, s') →
  swap_inv s' ∧ dframe s s' ∧ ∀ b, bs_view (bdev s') b = bs_view (bdev s) b.
Proof.
  intros Hinv Hs Hp Hpg E. destruct (slot_mode s slot Hinv Hs) as (mode & Emode & Hmode).
  destruct Hinv as [Hi Hl Hm Hrm].
  destruct (disk_swap_read_ok s slot page prio mode p) as (s1 & p' & E1 & Hi1 & Hf & _ & _ & _ & Hv); [done..|].
  rewrite E in E1. injection E1 as ->. split_and!; try done.
  split; [done|..]; rewrite ?(df_raid_mode _ _ Hf), ?(df_slot_raid_mode _ _ Hf); done.
Qed.

(** Writing a slot under RAID 0 makes it hold the page. *)
Lemma raid0_write_holds s slot page prio p :
  swap_inv s → slot_ok slot → 0 ≤ prio ≤ 3 → mem s !! page = Some p → raid_mode s = 0 →
  ∃ s', disk_swap_write slot page prio s = Ok (tt, s') ∧ swap_inv s' ∧ sframe s s' ∧
    mem s' = mem s ∧ slot_holds s' 0 slot p.
Proof.
  intros Hinv Hs Hp Hpg Hm. pose proof Hinv as [Hi Hl _ Hrm].
  destruct (disk_swap_write_ok s slot page prio p) as (s' & ord & E & Hi' & Hf & Hmem & Hsm & _ & Hperm & _ & Hv); [done..|].
  exists s'. split_and!; try done; [by eapply disk_swap_write_inv|].
  pose proof (di_wf _ Hi) as Hwf. rewrite Hm in *. split; [|lia|by eapply mem_wf_len|].
  - rewrite Hsm. apply znth_zset_eq. unfold slot_ok in Hs. lia.
  - intros b Hb. rewrite Hv.
    change (data_block 0 slot b) with (rq_blockno (blk_req 0 true slot page prio b)).
    rewrite written_distinct.
    + unfold data_of. simpl. rewrite Hmem. by rewrite (mread_block _ _ p).
    + rewrite Hperm. unfold slot_ok in Hs. simpl. unfold data_block, raid_real_block. simpl.
      repeat (apply NoDup_cons_2); [rewrite ?elem_of_cons, ?elem_of_nil; lia..|constructor].
    + rewrite Hperm. apply list_elem_of_fmap_2. by apply (elem_of_upto 4).
Qed.

(** A slot that holds a page is read back as that page, into any frame. *)
Lemma slot_holds_read s mode slot page prio p p0 :
  swap_inv s → slot_ok slot → 0 ≤ prio ≤ 3 → mem s !! page = Some p0 → slot_holds s mode slot p →
  ∃ s', disk_swap_read slot page prio s = Ok (tt, s') ∧ swap_inv s' ∧ dframe s s' ∧
    mem s' = <[page := p]> (mem s) ∧ ∀ b, bs_view (bdev s') b = bs_view (bdev s) b.
Proof.
  intros Hinv Hs Hp Hpg [Hmode Hr Hlen Hb].
  destruct (disk_swap_read_ok s slot page prio mode p0) as (s' & p' & E & Hi & Hf & Hmem & Hlen' & Hblk & Hv);
    [apply Hinv|done..|].
  exists s'. split_and!; try done; [by eapply disk_swap_read_inv|].
  rewrite Hmem. f_equal. apply page_ext; [done..|]. intros b Hb'. by rewrite Hblk, Hb.
Qed.

(** What a RAID 0 slot holds depends on its own four blocks only. *)
Lemma slot_holds_frame s s' mode slot p :
  slot_holds s mode slot p → znth (slot_raid_mode s') slot = znth (slot_raid_mode s) slot →
  (∀ b, 0 ≤ b < 4 → bs_view (bdev s') (data_block mode slot b) = bs_view (bdev s) (data_block mode slot b)) →
  slot_holds s' mode slot p.
Proof. intros [] Hm Hv. split; try done; [by rewrite Hm|]. intros b Hb. rewrite Hv; auto. Qed.

(** Writing another slot, in any mode, leaves a RAID 0 slot alone. *)
Lemma raid0_slot_kept s slot p slot' page prio p' s' :
  swap_inv s → slot_ok slot → slot_ok slot' → slot' ≠ slot → 0 ≤ prio ≤ 3 → mem s !! page = Some p' →
  slot_holds s 0 slot p → disk_swap_write slot' page prio s = Ok (tt, s') → slot_holds s' 0 slot p.
Proof.
  intros Hinv Hs Hs' Hne Hp Hpg Hh E. pose proof (si_mode _ Hinv) as Hm.
  destruct (disk_swap_write_ok s slot' page prio p') as (s1 & ord & E1 & Hi1 & _ & _ & Hsm & _ & Hperm & _ & Hv);
    [apply Hinv|done..|].
  rewrite E in E1. injection E1 as ->. eapply slot_holds_frame; [done| |].
  - rewrite Hsm. unfold slot_ok in *. apply znth_zset_ne; lia.
  - intros b Hb. rewrite Hv. apply written_other. intros r Hr. rewrite Hperm in Hr. intros Eb.
    pose proof (write_reqs_region _ _ _ _ _ Hm Hs' Hr) as Hreg.
    pose proof (data_block_bounds 0 slot b ltac:(lia) Hs Hb) as Hdb. rewrite Eb in Hreg.
    assert (raid_mode s = 0) as H0 by lia. rewrite H0 in Hr.
    change (write_reqs 0 slot' page prio) with (blk_req 0 true slot' page prio <$> upto 4) in Hr.
    apply list_elem_of_fmap in Hr as (b' & -> & Hb'%(elem_of_upto 4)).
    unfold slot_ok in *. apply raid_real_block_inj in Eb as (_ & _ & ?); lia.
Qed.

(** Everything else that goes on between writing a slot and reading it back:
    other slots written (in any mode) and read, the mode and the policy
    changed, memory changed in any way. *)
Inductive other_step (slot : Z) : kst D → kst D → Prop :=
| os_write s slot' page prio p s' :
    slot' ≠ slot → slot_ok slot' → 0 ≤ prio ≤ 3 → mem s !! page = Some p →
    disk_swap_write slot' page prio s = Ok (tt, s') → other_step slot s s'
| os_read s slot' page prio p s' :
    slot_ok slot' → 0 ≤ prio ≤ 3 → mem s !! page = Some p →
    disk_swap_read slot' page prio s = Ok (tt, s') → other_step slot s s'
| os_mode s mode s' :
    0 ≤ mode ≤ 2 → set_raid_mode mode s = Ok (tt, s') → other_step slot s s'
| os_policy s policy r s' : setdisksched policy s = Ok (r, s') → other_step slot s s'
| os_mem s m : mem_wf m → other_step slot s (s <| mem := m |>).

Lemma set_raid_mode_ok mode s : held s = ∅ → set_raid_mode mode s = Ok (tt, s <| raid_mode := mode |>).
Proof.
  intros Hh. unfold set_raid_mode. mstep acquire_ok; [|rewrite Hh; set_solver].
  erewrite bind_step by done. rewrite release_ok by (simpl; set_solver). apply Ok_pair. kst_eq.
  by rewrite held_restore by (rewrite Hh; set_solver).
Qed.

Lemma setdisksched_ok policy s : held s = ∅ →
  setdisksched policy s =
    if (policy =? SCHED_FCFS) || (policy =? SCHED_SSTF) then Ok (0, s <| disk_policy := policy |>)
    else Ok (-1, s).
Proof.
  intros Hh. unfold setdisksched. rewrite <-negb_orb. destruct (_ || _); simpl; [|done].
  mstep acquire_ok; [|rewrite Hh; set_solver]. erewrite bind_step by done.
  erewrite bind_step by (apply release_ok; simpl; set_solver). apply Ok_pair. kst_eq.
  by rewrite held_restore by (rewrite Hh; set_solver).
Qed.

Lemma other_step_keeps slot p s s' :
  slot_ok slot → other_step slot s s' → swap_inv s ∧ slot_holds s 0 slot p →
  swap_inv s' ∧ slot_holds s' 0 slot p.
Proof.
  intros Hs Hstep [Hinv Hh]. pose proof (dr_held _ (di_ready _ (si_idle _ Hinv))) as Hheld.
  destruct Hstep as [s slot' page prio p' s' ? ? ? ? E|s slot' page prio p' s' ? ? ? E|s mode s' ? E|
    s policy r s' E|s m Hm].
  - split; [by eapply disk_swap_write_inv|by eapply raid0_slot_kept].
  - destruct (disk_swap_read_inv s slot' page prio p' s') as (? & Hf & Hv); [done..|]. split; [done|].
    eapply slot_holds_frame; [done|by rewrite (df_slot_raid_mode _ _ Hf)|auto].
  - rewrite set_raid_mode_ok in E by done. injection E as <-. destruct Hinv as [[[]] ]. split;
      [by split; [split; [split|..]|..]|]. by eapply slot_holds_frame.
  - rewrite setdisksched_ok in E by done. destruct (_ || _); injection E as _ <-; [|done].
    destruct Hinv as [[[]] ]. split; [by split; [split; [split|..]|..]|]. by eapply slot_holds_frame.
  - destruct Hinv as [[[]] ]. split; [by split; [split; [split|..]|..]|]. by eapply slot_holds_frame.
Qed.

Lemma other_steps_keep slot p s s' :
  slot_ok slot → rtc (other_step slot) s s' → swap_inv s → slot_holds s 0 slot p →
  swap_inv s' ∧ slot_holds s' 0 slot p.
Proof.
  intros Hs. induction 1 as [|s s1 s' Hstep _ IH]; [done|]. intros Hinv Hh.
  destruct (other_step_keeps slot p s s1) as [? ?]; auto.
Qed.
End slots.
