(* ===== verification/RaidProps.v ===== *)
(** * What swapping a page to disk and back does

    The properties of the disk queue and of the RAID layouts of
    [kernel/virtio_disk.c], stated over the operations of [Disk.v] with the
    lemmas of [Raid.v], and evaluated on a small machine whose disk is behind
    the buffer cache of [Bio.v]. *)

From stdpp Require Import base numbers list gmap strings relations.
From S2P Require Import Prelude Machine KState Bio Disk Raid.
Open Scope Z_scope.
Open Scope kernel_scope.

(** ** A small machine *)

(** Two pages of memory, byte [i] of the first being [i / 1024 + 1] (so that the
    four blocks of the page differ) and the second zero, a freshly booted
    buffer cache, the disk driver idle. *)
Definition demo_page : list Z := (λ i, i / 1024 + 1) <$> upto PGSIZE.
Definition demo_mem : phys := {[ KERNBASE := demo_page; KERNBASE + PGSIZE := zrepl PGSIZE 0 ]}.
Definition demo (policy mode : Z) : kst bcache :=
  MkK demo_mem 0 [] (zrepl NSWAPSPACE false) 0 policy 0 (zrepl NDISKREQS disk_req0) 0 0 0 0
    mode (zrepl NSWAPSPACE 0) (zrepl BSIZE 0) 0 (boot_bcache ∅ 1) [] None 1 0 None ∅.

Lemma demo_page_len : zlen demo_page = PGSIZE.
Proof. reflexivity. Qed.

Lemma demo_wf : mem_wf demo_mem.
Proof.
  unfold demo_mem. apply mem_wf_insert; [|done|done].
  rewrite <-insert_empty. apply mem_wf_insert; [|done|done]. intros pa p. by rewrite lookup_empty.
Qed.

Lemma demo_idle policy mode : disk_idle (demo policy mode).
Proof.
  split; [split|..].
  - done.
  - apply boot_bcache_ok. intros b v. by rewrite lookup_empty.
  - done.
  - simpl. lia.
  - done.
  - apply demo_wf.
  - unfold all_free. simpl. unfold zrepl. by apply Forall_replicate.
Qed.

Lemma demo_inv policy mode : 0 ≤ mode ≤ 2 → swap_inv (demo policy mode).
Proof.
  intros Hm. split; [apply demo_idle|done| |done].
  simpl. unfold zrepl. apply Forall_replicate. lia.
Qed.

Section claims.
Context {D : Type} `{!BlockStore D, !BlockStoreLaws D}.
Implicit Types s : kst D.

(** C34. The disk queue is drained: started with requests that can be served,
    [run_disk_queue] returns (its loop never runs out of turns), leaves no
    request pending, and serves each pending request exactly once, each served
    request having the effect of one block transfer; under FCFS the order is
    that of the queue. *)
Theorem run_disk_queue_serves_all s :
  disk_ready s → mem_wf (mem s) → (∀ r, r ∈ pending (req_queue s) → req_ok s r) →
  ∃ s' ord, run_disk_queue s = Ok (tt, s') ∧ served s ord s' ∧ pending (req_queue s') = [] ∧
    ord ≡ₚ pending (req_queue s) ∧
    (disk_policy s = SCHED_FCFS → ord = pending (req_queue s)).
Proof.
  intros Hr Hwf Hok. destruct (run_disk_queue_drain s) as (s' & ord & ? & ? & Hf & ?); [done..|].
  exists s', ord. rewrite (pending_free _ Hf). naive_solver.
Qed.

(** C4. A page swapped out under RAID 0 comes back: the write returns and
    leaves memory alone, and after any number of other operations (other slots
    written in any mode, any slot read, the mode and the policy changed, memory
    rewritten) reading the slot into any frame, with any priority and under
    either scheduling policy, stores exactly the page that was written, and
    changes no other page. *)
Theorem raid0_swap_roundtrip s slot page prio p :
  swap_inv s → slot_ok slot → 0 ≤ prio ≤ 3 → mem s !! page = Some p → raid_mode s = 0 →
  ∃ s1, disk_swap_write slot page prio s = Ok (tt, s1) ∧ mem s1 = mem s ∧ swap_inv s1 ∧
    ∀ s2 page' prio' p0, rtc (other_step slot) s1 s2 → 0 ≤ prio' ≤ 3 → mem s2 !! page' = Some p0 →
      ∃ s3, disk_swap_read slot page' prio' s2 = Ok (tt, s3) ∧
        mem s3 = <[page' := p]> (mem s2).
Proof.
  intros Hinv Hs Hp Hpg Hm.
  destruct (raid0_write_holds s slot page prio p) as (s1 & E & Hinv1 & _ & Hmem & Hh); [done..|].
  exists s1. split_and!; [done..|]. intros s2 page' prio' p0 Hrtc Hp' Hpg'.
  destruct (other_steps_keep slot p s1 s2) as [Hinv2 Hh2]; [done..|].
  destruct (slot_holds_read s2 0 slot page' prio' p p0) as (s3 & ? & _ & _ & ? & _); [done..|].
  by exists s3.
Qed.

(** C35. In every RAID mode, swapping keeps the state of the swap code well
    formed and never gets stuck: with a well-formed idle driver, both
    [disk_swap_write] and [disk_swap_read] of any slot return (no panic, no
    fault, no endless loop) to a well-formed idle driver, and touch nothing of
    the allocator's or the process table's state but the latency averages. *)
Theorem swap_never_stuck s slot page prio p :
  swap_inv s → slot_ok slot → 0 ≤ prio ≤ 3 → mem s !! page = Some p →
  (∃ s', disk_swap_write slot page prio s = Ok (tt, s') ∧ swap_inv s' ∧ sframe s s' ∧ mem s' = mem s) ∧
  (∃ s' p', disk_swap_read slot page prio s = Ok (tt, s') ∧ swap_inv s' ∧ dframe s s' ∧
     mem s' = <[page := p']> (mem s) ∧ zlen p' = PGSIZE).
Proof.
  intros Hinv Hs Hp Hpg. split.
  - destruct (disk_swap_write_ok s slot page prio p) as (s' & ord & E & Hi & Hf & Hm & _);
      [apply Hinv|done..|apply Hinv|].
    exists s'. split_and!; try done. by eapply disk_swap_write_inv.
  - destruct (slot_mode s slot Hinv Hs) as (mode & Emode & Hmode).
    destruct (disk_swap_read_ok s slot page prio mode p) as (s' & p' & E & Hi & Hf & Hm & Hl & _);
      [apply Hinv|done..|].
    exists s', p'. split_and!; try done. by eapply disk_swap_read_inv.
Qed.

(** ** What RAID 1 and RAID 5 do to a page *)

(** The last write to a block is the one that counts. *)
Lemma written_last s l1 r l2 v :
  (∀ r', r' ∈ l2 → rq_blockno r' ≠ rq_blockno r) →
  written s (l1 ++ r :: l2) v (rq_blockno r) = data_of s r.
Proof.
  intros Hne. unfold written. rewrite foldl_app. simpl.
  change (written s l2 (λ b, if decide (b = rq_blockno r) then data_of s r else
    written s l1 v b) (rq_blockno r) = data_of s r).
  rewrite written_other by done. by rewrite decide_True.
Qed.

Lemma data_of_block s r page p b : mem_wf (mem s) → mem s !! page = Some p → 0 ≤ b < 4 →
  rq_data r = DMem (page + b * BSIZE) → data_of s r = page_block p b.
Proof. intros. unfold data_of, buf_val. by rewrite H2, (mread_block _ _ p). Qed.

(** Swapping out under FCFS and back in at once: block [b] of the page read is
    the data of the last request that wrote its block. *)
Lemma swap_out_in_fcfs s slot page prio page' prio' p p0 :
  swap_inv s → slot_ok slot → 0 ≤ prio ≤ 3 → 0 ≤ prio' ≤ 3 →
  mem s !! page = Some p → mem s !! page' = Some p0 → disk_policy s = SCHED_FCFS →
  ∃ s1 s2 p', disk_swap_write slot page prio s = Ok (tt, s1) ∧
    disk_swap_read slot page' prio' s1 = Ok (tt, s2) ∧ mem s1 = mem s ∧
    mem s2 = <[page' := p']> (mem s) ∧
    (∀ b, bs_view (bdev s2) b = bs_view (bdev s1) b) ∧
    (raid_mode s = 2 → parity_buf s1 = xor_into (zrepl BSIZE 0) (page_block p 3)) ∧
    (∀ b, bs_view (bdev s1) b = written s1 (write_reqs (raid_mode s) slot page prio) (bs_view (bdev s)) b) ∧
    ∀ b, 0 ≤ b < 4 → page_block p' b = bs_view (bdev s1) (data_block (raid_mode s) slot b).
Proof.
  intros Hinv Hs Hp Hp' Hpg Hpg' Hpol. pose proof Hinv as [Hi Hl _ Hrm].
  destruct (disk_swap_write_ok s slot page prio p)
    as (s1 & ord & E & Hi1 & Hf & Hm & Hsm & Hpar & _ & Hord & Hv); [done..|].
  rewrite Hord in Hv by done.
  assert (znth (slot_raid_mode s1) slot = Some (raid_mode s)) as Hmode
    by (rewrite Hsm; apply znth_zset_eq; unfold slot_ok in Hs; lia).
  destruct (disk_swap_read_ok s1 slot page' prio' (raid_mode s) p0)
    as (s2 & p' & E2 & _ & _ & Hm2 & _ & Hb & Hv2); [done|done|done|by rewrite Hm|done|done|].
  exists s1, s2, p'. rewrite Hm in Hm2. by split_and!.
Qed.

Lemma xor_into_zero l : zlen l = BSIZE → xor_into (zrepl BSIZE 0) l = l.
Proof.
  intros Hl. unfold xor_into, zrepl. replace (Z.to_nat BSIZE) with (length l) by (unfold zlen in Hl; lia).
  clear Hl. induction l as [|x l IH]; simpl; [done|]. by rewrite IH.
Qed.

(** Where block 0 of a RAID 5 slot is when its two rows share physical blocks:
    on the block of block 3, or on that of the second row's parity. *)
Lemma raid5_rows slot : slot_ok slot → (slot * 4 / 3) mod 4 ≠ 3 →
  (data_block 2 slot 0 = raid5_block slot 3 ∧ raid5_parity_block slot 3 ≠ raid5_block slot 3) ∨
  data_block 2 slot 0 = raid5_parity_block slot 3.
Proof.
  intros Hs Hrow. unfold slot_ok in Hs.
  unfold data_block, raid5_block, raid5_parity_block, raid5_row, raid5_data_disk, raid_real_block.
  change (2 =? 2) with true. change (3 / 3 * 3) with 3. change (0 / 3 * 3) with 0.
  change (3 mod 3) with 0. change (0 mod 3) with 0. cbn [negb].
  destruct (Z.leb_spec ((slot * 4 + 0) / 3 mod 4) 0), (Z.leb_spec ((slot * 4 + 3) / 3 mod 4) 0); dlia.
Qed.

(** C38. RAID 1 under FCFS does not give the page back: the mirror of block 3 is
    written over the primary copy of block 0 (the four "disks" hold one block
    of the slot each, and the mirror of a block is the primary of the next), so
    the page read has block 3 of the page written where block 0 should be;
    blocks 1 to 3 are right. *)
Theorem raid1_swap_block0_lost s slot page prio page' prio' p p0 :
  swap_inv s → slot_ok slot → 0 ≤ prio ≤ 3 → 0 ≤ prio' ≤ 3 →
  mem s !! page = Some p → mem s !! page' = Some p0 →
  disk_policy s = SCHED_FCFS → raid_mode s = 1 →
  ∃ s1 s2 p', disk_swap_write slot page prio s = Ok (tt, s1) ∧
    disk_swap_read slot page' prio' s1 = Ok (tt, s2) ∧ mem s2 = <[page' := p']> (mem s) ∧
    page_block p' 0 = page_block p 3 ∧
    ∀ b, 1 ≤ b < 4 → page_block p' b = page_block p b.
Proof.
  intros Hinv Hs Hp Hp' Hpg Hpg' Hpol Hm.
  destruct (swap_out_in_fcfs s slot page prio page' prio' p p0)
    as (s1 & s2 & p' & E & E2 & Hm1 & Hm2 & _ & _ & Hv & Hb); [done..|].
  pose proof (di_wf _ (si_idle _ Hinv)) as Hwf. rewrite Hm in *.
  assert (∀ r l1 l2 b, write_reqs 1 slot page prio = l1 ++ r :: l2 → 0 ≤ b < 4 →
    rq_data r = DMem (page + b * BSIZE) → (∀ r', r' ∈ l2 → rq_blockno r' ≠ rq_blockno r) →
    bs_view (bdev s1) (rq_blockno r) = page_block p b) as Hlast.
  { intros r l1 l2 b El Hb' Hd Hne. rewrite Hv, El, written_last by done.
    eapply data_of_block; rewrite ?Hm1; done. }
  exists s1, s2, p'. split_and!; try done.
  - rewrite Hb by lia.
    apply (Hlast (mirror_req slot page prio 3) (take 7 (write_reqs 1 slot page prio)) [] 3); [done|lia|done|].
    set_solver.
  - intros b Hb'. rewrite Hb by lia.
    assert (b = 1 ∨ b = 2 ∨ b = 3) as Hcase by lia.
    apply (Hlast (blk_req 1 true slot page prio b) (take (Z.to_nat (2 * b)) (write_reqs 1 slot page prio))
      (drop (Z.to_nat (2 * b + 1)) (write_reqs 1 slot page prio)) b); [|lia|done|].
    + by destruct Hcase as [->|[->| ->]].
    + unfold slot_ok in Hs. apply Forall_forall.
      destruct Hcase as [->|[->| ->]]; simpl; repeat apply Forall_cons_2; try apply Forall_nil_2;
        simpl; unfold data_block, raid_real_block; simpl; dlia.
Qed.

(** RAID 5 under FCFS does not give the page back either, unless the first
    stripe row of the slot is the last one of its group of four: the rows of a
    page share the same four physical blocks, so the second row overwrites the
    first, and block 0 of the page read is block 3 of the page written. *)
Theorem raid5_swap_block0_lost s slot page prio page' prio' p p0 :
  swap_inv s → slot_ok slot → 0 ≤ prio ≤ 3 → 0 ≤ prio' ≤ 3 →
  mem s !! page = Some p → mem s !! page' = Some p0 →
  disk_policy s = SCHED_FCFS → raid_mode s = 2 → (slot * 4 / 3) mod 4 ≠ 3 →
  ∃ s1 s2 p', disk_swap_write slot page prio s = Ok (tt, s1) ∧
    disk_swap_read slot page' prio' s1 = Ok (tt, s2) ∧ mem s2 = <[page' := p']> (mem s) ∧
    page_block p' 0 = page_block p 3.
Proof.
  intros Hinv Hs Hp Hp' Hpg Hpg' Hpol Hm Hrow.
  destruct (swap_out_in_fcfs s slot page prio page' prio' p p0)
    as (s1 & s2 & p' & E & E2 & Hm1 & Hm2 & _ & Hpar & Hv & Hb); [done..|].
  pose proof (di_wf _ (si_idle _ Hinv)) as Hwf. rewrite Hm in *. specialize (Hpar eq_refl).
  exists s1, s2, p'. split_and!; try done. rewrite Hb by lia.
  destruct (raid5_rows slot Hs Hrow) as [[E0 Hne]|E0]; rewrite Hv.
  - rewrite E0. change (raid5_block slot 3) with (rq_blockno (blk_req 2 true slot page prio 3)).
    change (write_reqs 2 slot page prio) with
      (take 4 (write_reqs 2 slot page prio) ++ blk_req 2 true slot page prio 3 :: [parity_req slot prio 3]).
    rewrite written_last by (intros r' ->%list_elem_of_singleton; done).
    eapply data_of_block; rewrite ?Hm1; done.
  - rewrite E0. change (raid5_parity_block slot 3) with (rq_blockno (parity_req slot prio 3)).
    change (write_reqs 2 slot page prio) with
      (take 5 (write_reqs 2 slot page prio) ++ parity_req slot prio 3 :: []).
    rewrite written_last by (intros r' []%not_elem_of_nil).
    unfold data_of. simpl. rewrite Hpar. apply xor_into_zero, zlen_page_block; [|lia].
    by eapply mem_wf_len.
Qed.

(** Where the parity of the first row is: on a block of its own, or on the one
    that block 3 is then written to. *)
Lemma raid5_parity_row slot : slot_ok slot →
  raid5_parity_block slot 3 ≠ raid5_parity_block slot 0 ∧
  (raid5_block slot 3 ≠ raid5_parity_block slot 0 ∨ raid5_parity_block slot 0 = raid5_block slot 3).
Proof.
  intros Hs. unfold slot_ok in Hs. unfold raid5_block, raid5_parity_block, raid5_row, raid5_data_disk, raid_real_block.
  change (3 / 3 * 3) with 3. change (3 mod 3) with 0.
  split; [dlia|]. destruct (Z.leb_spec ((slot * 4 + 3) / 3 mod 4) 0); dlia.
Qed.

(** The parity of a RAID 5 slot's first stripe row is wrong whatever the
    page: both rows' parity requests point at the one [parity_buf], which holds
    the second row's parity by the time the queue is served, so the first row's
    parity block ends up with the contents of block 3 instead of the exclusive
    or of blocks 0, 1 and 2. *)
Theorem raid5_first_parity_wrong s slot page prio p :
  swap_inv s → slot_ok slot → 0 ≤ prio ≤ 3 → mem s !! page = Some p →
  disk_policy s = SCHED_FCFS → raid_mode s = 2 →
  ∃ s1, disk_swap_write slot page prio s = Ok (tt, s1) ∧
    bs_view (bdev s1) (raid5_parity_block slot 0) = page_block p 3.
Proof.
  intros Hinv Hs Hp Hpg Hpol Hm. pose proof (di_wf _ (si_idle _ Hinv)) as Hwf.
  destruct (swap_out_in_fcfs s slot page prio page prio p p)
    as (s1 & s2 & p' & E & _ & Hm1 & _ & _ & Hpar & Hv & _); [done..|].
  rewrite Hm in *. specialize (Hpar eq_refl). exists s1. split; [done|]. rewrite Hv.
  destruct (raid5_parity_row slot Hs) as [Hne [Hne'|E0]].
  - change (raid5_parity_block slot 0) with (rq_blockno (parity_req slot prio 0)).
    change (write_reqs 2 slot page prio) with (take 3 (write_reqs 2 slot page prio) ++
      parity_req slot prio 0 :: [blk_req 2 true slot page prio 3; parity_req slot prio 3]).
    rewrite written_last by (intros r' [->|[->|[]%not_elem_of_nil]%elem_of_cons]%elem_of_cons; done).
    unfold data_of. simpl. rewrite Hpar. apply xor_into_zero, zlen_page_block; [|lia].
    by eapply mem_wf_len.
  - rewrite E0. change (raid5_block slot 3) with (rq_blockno (blk_req 2 true slot page prio 3)).
    change (write_reqs 2 slot page prio) with
      (take 4 (write_reqs 2 slot page prio) ++ blk_req 2 true slot page prio 3 :: [parity_req slot prio 3]).
    rewrite written_last by (intros r' ->%list_elem_of_singleton; simpl; unfold data_block; simpl; congruence).
    eapply data_of_block; rewrite ?Hm1; done.
Qed.
End claims.

(** ** The policies and the layout *)

(** SSTF takes a pending request nearest to the head; among those at the
    same distance the one with the highest priority (the lowest MLFQ level), and
    among those the first of the queue. A pending request is always found. *)
Theorem sstf_takes_nearest head q :
  0 ≤ head < FSSIZE → (∀ r, r ∈ q → rq_valid r = true → req_bounds r) → pending q ≠ [] →
  ∃ k r, pick_request SCHED_SSTF head q = Z.of_nat k ∧ q !! k = Some r ∧ rq_valid r = true ∧
    ∀ j r', q !! j = Some r' → rq_valid r' = true →
      Z.abs (rq_blockno r - head) < Z.abs (rq_blockno r' - head) ∨
      (Z.abs (rq_blockno r - head) = Z.abs (rq_blockno r' - head) ∧
       (rq_priority r < rq_priority r' ∨ (rq_priority r = rq_priority r' ∧ (k ≤ j)%nat))).
Proof.
  intros Hh Hb Hp. unfold pick_request. simpl.
  assert (∀ r, r ∈ q → rq_valid r = true →
    sstf_score head r = Z.abs (rq_blockno r - head) * 4 + rq_priority r ∧ 0 ≤ rq_priority r ≤ 3) as Hsc.
  { intros r Hr Hv. destruct (Hb r Hr Hv). split; [by apply sstf_score_val|done]. }
  destruct (sstf_pick_spec head q 0 (-1) 2147483647) as [[_ Hm]|(k & r & -> & Hk & Hv & _ & Hm)].
  { destruct (pending q) as [|r l] eqn:E; [done|].
    assert (r ∈ pending q) as [Hv Hr]%elem_of_pending by (rewrite E; set_solver).
    specialize (Hm r Hr Hv). rewrite sstf_score_val in Hm by auto. destruct (Hb r Hr Hv). lia. }
  exists k, r. split_and!; try done. intros j r' Hj Hv'. specialize (Hm j r' Hj Hv').
  pose proof (Hsc r ltac:(by eapply list_elem_of_lookup_2) Hv) as [Es ?].
  pose proof (Hsc r' ltac:(by eapply list_elem_of_lookup_2) Hv') as [Es' ?].
  rewrite Es, Es' in Hm. destruct (decide (j < k)%nat); lia.
Qed.

Lemma raid01_block mode slot page prio r : mode = 0 ∨ mode = 1 → r ∈ write_reqs mode slot page prio →
  ∃ d, 0 ≤ d < 4 ∧ rq_blockno r = raid_real_block mode d slot.
Proof.
  intros [-> | ->]; revert r; apply Forall_forall; simpl; repeat apply Forall_cons_2; try apply Forall_nil_2;
    (eexists; split; [|reflexivity]); dlia.
Qed.

Section layout.
Context {D : Type} `{!BlockStore D, !BlockStoreLaws D}.
Implicit Types s : kst D.

(** The requests waiting after a page was queued are those of its layout. *)
Lemma queued_reqs s mode slot page prio p s1 :
  disk_idle s → slot_ok slot → mem s !! page = Some p → 0 ≤ mode ≤ 2 →
  raid_write_page mode slot page prio s = Ok (tt, s1) →
  pending (req_queue s1) = write_reqs mode slot page prio.
Proof.
  intros Hi Hs Hp Hm E. destruct (queue_page_write s slot page prio p mode) as (pb & E1 & _); [done..|].
  rewrite E in E1. injection E1 as ->. simpl.
  rewrite pending_app, pending_valid, pending_free, app_nil_r; [done| |apply write_reqs_valid].
  apply Forall_drop, Hi.
Qed.

(** C37. The swap area is laid out soundly for RAID 0 and RAID 1: the blocks a
    page is queued for, in any mode, lie between [SWAP_START] and the end of the
    disk image, those of different modes never meet, and those of different
    slots of RAID 0 or of RAID 1 never meet. *)
Theorem swap_area_layout s s1 s' s1' mode slot page prio p mode' slot' page' prio' p' r r' :
  disk_idle s → disk_idle s' → mem s !! page = Some p → mem s' !! page' = Some p' →
  0 ≤ mode ≤ 2 → 0 ≤ mode' ≤ 2 → slot_ok slot → slot_ok slot' →
  raid_write_page mode slot page prio s = Ok (tt, s1) →
  raid_write_page mode' slot' page' prio' s' = Ok (tt, s1') →
  r ∈ pending (req_queue s1) → r' ∈ pending (req_queue s1') →
  SWAP_START ≤ rq_blockno r < FSSIZE ∧
  (mode ≠ mode' → rq_blockno r ≠ rq_blockno r') ∧
  (mode = mode' → mode ≤ 1 → slot ≠ slot' → rq_blockno r ≠ rq_blockno r').
Proof.
  intros Hi Hi' Hp Hp' Hm Hm' Hs Hs' E E'.
  rewrite (queued_reqs s mode slot page prio p), (queued_reqs s' mode' slot' page' prio' p') by done.
  intros Hr Hr'. pose proof (write_reqs_region _ _ _ _ _ Hm Hs Hr).
  pose proof (write_reqs_region _ _ _ _ _ Hm' Hs' Hr').
  split_and!; [lia|lia|lia|]. intros <- Hle Hne Eb.
  destruct (raid01_block mode slot page prio r) as (d & Hd & Ed); [lia|done|].
  destruct (raid01_block mode slot' page' prio' r') as (d' & Hd' & Ed'); [lia|done|].
  unfold slot_ok in *. rewrite Ed, Ed' in Eb. apply raid_real_block_inj in Eb; lia.
Qed.
End layout.

(** Under RAID 5 the last block of a slot and the first block of the next are
    the same disk block, for two slots out of three. *)
Theorem raid5_slots_collide slot :
  slot_ok slot → slot mod 3 ≠ 2 → data_block 2 slot 3 = data_block 2 (slot + 1) 0.
Proof.
  unfold slot_ok. intros Hs Hm. unfold data_block, raid5_block, raid5_row. simpl.
  change (3 / 3 * 3) with 3. change (0 / 3 * 3) with 0. change (3 mod 3) with 0. change (0 mod 3) with 0.
  assert ((slot * 4 + 3) / 3 = ((slot + 1) * 4 + 0) / 3) as -> by dlia. done.
Qed.

(** ** The properties on the small machine *)

Lemma demo_page0 policy mode : mem (demo policy mode) !! KERNBASE = Some demo_page.
Proof. reflexivity. Qed.
Lemma demo_page1 policy mode : mem (demo policy mode) !! (KERNBASE + PGSIZE) = Some (zrepl PGSIZE 0).
Proof. reflexivity. Qed.

(** The machine with two requests in its queue. *)
Definition demo_queue : list disk_req :=
  [MkReq true 90000 true 0 (DMem KERNBASE); disk_req0; MkReq true 500 false 2 (DMem (KERNBASE + PGSIZE))]
    ++ zrepl (NDISKREQS - 3) disk_req0.

Lemma demo_pending : pending demo_queue =
  [MkReq true 90000 true 0 (DMem KERNBASE); MkReq true 500 false 2 (DMem (KERNBASE + PGSIZE))].
Proof. vm_compute. reflexivity. Qed.

Lemma run_disk_queue_serves_all_witness :
  ∃ s' ord, run_disk_queue ((demo 1 0) <| req_queue := demo_queue |>) = Ok (tt, s') ∧
    served ((demo 1 0) <| req_queue := demo_queue |>) ord s' ∧ pending (req_queue s') = [] ∧
    ord ≡ₚ [MkReq true 90000 true 0 (DMem KERNBASE); MkReq true 500 false 2 (DMem (KERNBASE + PGSIZE))].
Proof.
  destruct (run_disk_queue_serves_all ((demo 1 0) <| req_queue := demo_queue |>)) as (s' & ord & H1 & H2 & H3 & H4 & _).
  - destruct (di_ready _ (demo_idle 1 0)). by split.
  - apply demo_wf.
  - change (req_queue ((demo 1 0) <| req_queue := demo_queue |>)) with demo_queue. rewrite demo_pending.
    apply Forall_forall. repeat apply Forall_cons_2; try apply Forall_nil_2;
      (split; [split; simpl; lia|]); simpl; (split; [by eexists|vm_compute; discriminate]).
  - change (req_queue ((demo 1 0) <| req_queue := demo_queue |>)) with demo_queue in H4.
    rewrite demo_pending in H4. exact (ex_intro _ s' (ex_intro _ ord (conj H1 (conj H2 (conj H3 H4))))).
Defined.

Lemma raid0_swap_roundtrip_witness :
  ∃ s1 s3, disk_swap_write 7 KERNBASE 2 (demo 1 0) = Ok (tt, s1) ∧
    disk_swap_read 7 (KERNBASE + PGSIZE) 0 (s1 <| raid_mode := 2 |>) = Ok (tt, s3) ∧
    mem s3 !! (KERNBASE + PGSIZE) = Some demo_page.
Proof.
  destruct (raid0_swap_roundtrip (demo 1 0) 7 KERNBASE 2 demo_page) as (s1 & E & Hm & Hinv & H);
    [apply demo_inv; lia|unfold slot_ok; lia|lia|apply demo_page0|done|].
  destruct (H (s1 <| raid_mode := 2 |>) (KERNBASE + PGSIZE) 0 (zrepl PGSIZE 0)) as (s3 & E3 & Hm3).
  - apply rtc_once, (os_mode _ s1 2); [lia|]. apply set_raid_mode_ok. apply Hinv.
  - lia.
  - simpl. rewrite Hm. apply demo_page1.
  - exists s1, s3. split_and!; [exact E|exact E3|]. by rewrite Hm3, lookup_insert_eq.
Defined.

Lemma swap_never_stuck_witness :
  (∃ s', disk_swap_write 7 KERNBASE 0 (demo 0 2) = Ok (tt, s') ∧ swap_inv s') ∧
  (∃ s', disk_swap_read 7 KERNBASE 0 (demo 0 2) = Ok (tt, s') ∧ swap_inv s').
Proof.
  destruct (swap_never_stuck (demo 0 2) 7 KERNBASE 0 demo_page) as [(s' & H1 & H2 & _) (s2 & p' & H3 & H4 & _)];
    [apply demo_inv; lia|unfold slot_ok; lia|lia|apply demo_page0|].
  split; [exact (ex_intro _ s' (conj H1 H2))|exact (ex_intro _ s2 (conj H3 H4))].
Defined.

(** Byte 0 of the page written is 1; it comes back as 4, the first byte of block 3. *)
Lemma raid1_swap_block0_lost_witness :
  ∃ s1 s2 p', disk_swap_write 7 KERNBASE 0 (demo 0 1) = Ok (tt, s1) ∧
    disk_swap_read 7 (KERNBASE + PGSIZE) 0 s1 = Ok (tt, s2) ∧
    mem s2 !! (KERNBASE + PGSIZE) = Some p' ∧ demo_page !! 0%nat = Some 1 ∧
    page_block p' 0 !! 0%nat = Some 4.
Proof.
  destruct (raid1_swap_block0_lost (demo 0 1) 7 KERNBASE 0 (KERNBASE + PGSIZE) 0 demo_page (zrepl PGSIZE 0))
    as (s1 & s2 & p' & E1 & E2 & Hm & Hb & _);
    [apply demo_inv; lia|unfold slot_ok; lia|lia|lia|apply demo_page0|apply demo_page1|done|done|].
  exists s1, s2, p'. split_and!; [exact E1|exact E2|by rewrite Hm, lookup_insert_eq|reflexivity|].
  rewrite Hb. reflexivity.
Defined.

Lemma raid5_swap_block0_lost_witness :
  ∃ s1 s2 p', disk_swap_write 7 KERNBASE 0 (demo 0 2) = Ok (tt, s1) ∧
    disk_swap_read 7 (KERNBASE + PGSIZE) 0 s1 = Ok (tt, s2) ∧
    mem s2 !! (KERNBASE + PGSIZE) = Some p' ∧ demo_page !! 0%nat = Some 1 ∧
    page_block p' 0 !! 0%nat = Some 4.
Proof.
  destruct (raid5_swap_block0_lost (demo 0 2) 7 KERNBASE 0 (KERNBASE + PGSIZE) 0 demo_page (zrepl PGSIZE 0))
    as (s1 & s2 & p' & E1 & E2 & Hm & Hb);
    [apply demo_inv; lia|unfold slot_ok; lia|lia|lia|apply demo_page0|apply demo_page1|done|done|done|].
  exists s1, s2, p'. split_and!; [exact E1|exact E2|by rewrite Hm, lookup_insert_eq|reflexivity|].
  rewrite Hb. reflexivity.
Defined.

(** The parity block starts with 4; the exclusive or of 1, 2 and 3 is 0. *)
Lemma raid5_first_parity_wrong_witness :
  ∃ s1, disk_swap_write 7 KERNBASE 0 (demo 0 2) = Ok (tt, s1) ∧
    bs_view (bdev s1) (raid5_parity_block 7 0) !! 0%nat = Some 4.
Proof.
  destruct (raid5_first_parity_wrong (demo 0 2) 7 KERNBASE 0 demo_page) as (s1 & E1 & Hb);
    [apply demo_inv; lia|unfold slot_ok; lia|lia|apply demo_page0|done|done|].
  exists s1. split; [exact E1|]. rewrite Hb. reflexivity.
Defined.

Lemma sstf_takes_nearest_witness :
  ∃ k r, pick_request SCHED_SSTF 1000 demo_queue = Z.of_nat k ∧ demo_queue !! k = Some r ∧ rq_blockno r = 500.
Proof.
  destruct (sstf_takes_nearest 1000 demo_queue) as (k & r & Hk & Hr & _).
  - lia.
  - intros r Hr Hv. assert (r ∈ pending demo_queue) as Hp by (by apply elem_of_pending).
    rewrite demo_pending in Hp. clear Hr Hv. revert r Hp. apply Forall_forall.
    repeat apply Forall_cons_2; try apply Forall_nil_2; split; simpl; lia.
  - by rewrite demo_pending.
  - exists k, r. split_and!; [done..|].
    assert (pick_request SCHED_SSTF 1000 demo_queue = 2) as E by (vm_compute; reflexivity).
    assert (k = 2%nat) as -> by lia. simpl in Hr. by injection Hr as <-.
Defined.

Lemma swap_area_layout_witness :
  ∃ s1 s1', raid_write_page 1 5 KERNBASE 0 (demo 0 0) = Ok (tt, s1) ∧
    raid_write_page 1 6 KERNBASE 0 (demo 0 0) = Ok (tt, s1') ∧
    ∀ r r', r ∈ pending (req_queue s1) → r' ∈ pending (req_queue s1') → rq_blockno r ≠ rq_blockno r'.
Proof.
  destruct (queue_page_write (demo 0 0) 5 KERNBASE 0 demo_page 1) as (pb & E & _);
    [apply demo_idle|unfold slot_ok; lia|apply demo_page0|lia|].
  destruct (queue_page_write (demo 0 0) 6 KERNBASE 0 demo_page 1) as (pb' & E' & _);
    [apply demo_idle|unfold slot_ok; lia|apply demo_page0|lia|].
  eexists _, _. split_and!; [exact E|exact E'|]. intros r r' Hr Hr'.
  destruct (λ a b c d e f g h, swap_area_layout (demo 0 0) _ (demo 0 0) _ 1 5 KERNBASE 0 demo_page
      1 6 KERNBASE 0 demo_page r r' a b c d e f g h E E' Hr Hr') as (_ & _ & H);
    [apply demo_idle|apply demo_idle|apply demo_page0|apply demo_page0|lia|lia|unfold slot_ok; lia..|].
  apply H; lia.
Defined.
