(* ===== verification/Kalloc.v ===== *)
(** * Physical memory, frames and eviction

    Models [kernel/kalloc.c] (the free list threaded through the free pages,
    the frame table, the clock hand, swap slots, eviction) and [walk] of
    [kernel/vm.c], which eviction needs. Free pages are linked through their
    first eight bytes, in memory, as in the code. [kalloc] and [evict_pages]
    call each other in the source; here [kalloc_n n] is [kalloc] with at most
    [n] nested calls left, and [kalloc] has two, one more than a sequential run
    can need (an eviction frees a page before it asks for one). *)

From stdpp Require Import base numbers list gmap strings.
From S2P Require Import Prelude Machine KState Disk Raid.
Open Scope Z_scope.
Open Scope kernel_scope.

(** The addresses [kernel/kernel.ld] and the linker choose: the end of the
    kernel image, the end of its text, the trampoline page, and the code
    address of [forkret]. *)
Class Layout := {
  kend : Z;
  etext : Z;
  trampoline : Z;
  forkret : Z;
}.

Section kalloc.
Context {D : Type} `{!BlockStore D} {L : Layout}.
Abbreviation K := (M (kst D)).

(** ** Page table walk ([vm.c]) *)

(** One level of [walk]: the table of the next level, or 0. [ka] is [kalloc]. *)
Definition walk_level (ka : K Z) (alloc : bool) (va level pagetable : Z) : K Z :=
  let pte := pagetable + 8 * PX level va in
  e ← load64 pte;
  if has e PTE_V then mret (PTE2PA e)
  else if negb alloc then mret 0
  else
    pt ← ka;
    if pt =? 0 then mret 0
    else memset_page pt 0 ;; store64 pte (setb (PA2PTE pt) PTE_V) ;; mret pt.

(** The address of the leaf entry for [va], or 0. *)
Definition walk (ka : K Z) (pagetable va : Z) (alloc : bool) : K Z :=
  if MAXVA <=? va then panic "walk" else
  l1 ← walk_level ka alloc va 2 pagetable;
  if l1 =? 0 then mret 0 else
  l0 ← walk_level ka alloc va 1 l1;
  if l0 =? 0 then mret 0 else
  mret (l0 + 8 * PX 0 va).

(** ** The free list *)

Definition kfree (pa : Z) : K unit :=
  if negb (pa mod PGSIZE =? 0) || (pa <? kend) || (PHYSTOP <=? pa) then panic "kfree" else
  let index := u32 (Z.shiftr (u64 (pa - KERNBASE)) 12) in
  when (index <? NFRAME)
    (acquire LFrametable ;;
     fs ← gets frames;
     f ← opt (znth fs index);
     setf frames (zset fs index (f <| f_in_use := false |> <| f_p := None |> <| f_va := 0 |>)) ;;
     release LFrametable) ;;
  memset_page pa 1 ;;
  acquire LKmem ;;
  head ← gets freelist;
  store64 pa head ;;
  setf freelist pa ;;
  release LKmem.

(** The pages [freerange] frees. *)
Definition page_range (pa_start pa_end : Z) : list Z :=
  let p := PGROUNDUP pa_start in
  (λ i, p + i * PGSIZE) <$> upto (Z.max 0 ((pa_end - p) / PGSIZE)).
Definition freerange (pa_start pa_end : Z) : K unit := for_each kfree (page_range pa_start pa_end).

Definition kinit : K unit :=
  updf frames (λ fs, (λ f, f <| f_in_use := false |> <| f_p := None |> <| f_reference_bit := false |>) <$> fs) ;;
  updf swap_space (λ l, (λ _, false) <$> l) ;;
  freerange kend (kend + NFRAME * PGSIZE).

(** Take the first page off the free list, if any: the locked part of [kalloc]. *)
Definition kalloc_pop : K Z :=
  acquire LKmem ;;
  r ← gets freelist;
  when (negb (r =? 0)) (next ← load64 r; setf freelist next) ;;
  release LKmem ;;
  mret r.

(** ** Frames *)

Definition track_frame (p : option nat) (va pa : Z) : K unit :=
  if (pa <? KERNBASE) || (PHYSTOP <=? pa) then mret tt else
  let index := u32 (Z.shiftr (u64 (pa - KERNBASE)) 12) in
  if NFRAME <=? index then mret tt else
  acquire LFrametable ;;
  fs ← gets frames;
  f ← opt (znth fs index);
  match p with
  | Some i => when (negb (f_in_use f)) (updp i (λ p, p <| p_resident_pages ::= λ n, i32 (n + 1) |>))
  | None => mret tt
  end ;;
  setf frames (zset fs index (MkFrame true p true va)) ;;
  release LFrametable.

(** ** Swap slots *)

(** [(p != 0) ? p->cur_q_level : 3] *)
Definition my_priority (p : option nat) : K Z :=
  match p with Some i => q ← getp i; mret (p_cur_q_level q) | None => mret 3 end.

(** The scan for a free slot; [-1] when there is none. *)
Definition take_slot : K Z :=
  acquire LSwap ;;
  l ← gets swap_space;
  slot ← match list_find (λ b, b = false) l with
         | Some (i, _) => setf swap_space (<[i := true]> l) ;; mret (Z.of_nat i)
         | None => mret (-1)
         end;
  release LSwap ;;
  mret slot.

Definition swap_out (pa : Z) : K Z :=
  p ← myproc;
  priority ← my_priority p;
  slot ← take_slot;
  if slot =? -1 then mret (-1) else
  disk_swap_write slot pa priority ;;
  match p with
  | Some i =>
      acquire (LProc i) ;;
      updp i (λ p, p <| p_pages_swapped_out ::= λ n, i32 (n + 1) |>
                     <| p_disk_writes ::= λ n, i32 (n + 1) |>) ;;
      release (LProc i)
  | None => mret tt
  end ;;
  mret slot.

Definition swap_in (pa slot : Z) : K unit :=
  p ← myproc;
  priority ← my_priority p;
  disk_swap_read slot pa priority ;;
  acquire LSwap ;;
  when ((0 <=? slot) && (slot <? NSWAPSPACE)) (updf swap_space (λ l, zset l slot false)) ;;
  release LSwap ;;
  match p with
  | Some i =>
      already_held ← holding (LProc i);
      when (negb already_held) (acquire (LProc i)) ;;
      updp i (λ p, p <| p_disk_reads ::= λ n, i32 (n + 1) |>
                     <| p_pages_swapped_in ::= λ n, i32 (n + 1) |>
                     <| p_resident_pages ::= λ n, i32 (n + 1) |>) ;;
      when (negb already_held) (release (LProc i))
  | None => mret tt
  end.

Definition swap_free (index : Z) : K unit :=
  acquire LSwap ;;
  l ← gets swap_space;
  _ ← opt (znth l index);
  setf swap_space (zset l index false) ;;
  release LSwap.

(** ** Eviction *)

(** [frames[((uint64)pa - KERNBASE) >> 12]] *)
Definition frame_index (pa : Z) : Z := Z.shiftr (u64 (pa - KERNBASE)) 12.

(** The victim, at index [hand], its entry at [pte], its page [pa], with
    [frametable_lock] held: write it out, free it and allocate again. *)
Definition evict_victim (ka : K Z) (hand pte pa : Z) : K Z :=
  e ← load64 pte;
  store64 pte (clear e PTE_V) ;;
  e ← load64 pte;
  store64 pte (setb e PTE_SWAPPED) ;;
  release LFrametable ;;
  swap_index ← swap_out pa;
  if negb (swap_index =? -1) then
    e ← load64 pte;
    store64 pte (setb (setb (Z.shiftl swap_index 10) (PTE_FLAGS e)) PTE_SWAPPED) ;;
    acquire LFrametable ;;
    fs ← gets frames;
    f ← opt (znth fs hand);
    setf frames (zset fs hand (f <| f_in_use := false |> <| f_p := None |> <| f_va := 0 |>)) ;;
    release LFrametable ;;
    match f_p f with
    | Some q =>
        acquire (LProc q) ;;
        updp q (λ p, p <| p_pages_evicted ::= λ n, i32 (n + 1) |>
                       <| p_resident_pages ::= λ n, i32 (n - 1) |>) ;;
        release (LProc q)
    | None => mret tt
    end ;;
    kfree pa ;;
    ka
  else panic "evict_pages: swap full".

(** One turn of the [while(1)] of [evict_pages]. *)
Definition evict_step (ka : K Z) (_ : unit) : K (unit + Z) :=
  acquire LFrametable ;;
  hand ← gets clock_hand;
  fs ← gets frames;
  f ← opt (znth fs hand);
  setf clock_hand (Z.rem (i32 (hand + 1)) NFRAME) ;;
  match (if f_in_use f then f_p f else None) with
  | Some i =>
      q ← getp i;
      if p_pagetable q =? 0 then release LFrametable ;; mret (inl tt)
      else
        pte ← walk (mret 0) (p_pagetable q) (f_va f) false;
        if pte =? 0 then release LFrametable ;; mret (inl tt)
        else
          e ← load64 pte;
          if has e PTE_V then
            let pa := PTE2PA e in
            g ← opt (znth fs (frame_index pa));
            if f_reference_bit g then
              setf frames (zset fs (frame_index pa) (g <| f_reference_bit := false |>)) ;;
              release LFrametable ;; mret (inl tt)
            else r ← evict_victim ka hand pte pa; mret (inr r)
          else release LFrametable ;; mret (inl tt)
  | None => release LFrametable ;; mret (inl tt)
  end.

(** Each turn either ends the search or moves the hand one frame on; a
    reference bit is cleared at most once in a revolution, so two revolutions
    are enough when any frame can be evicted. *)
Definition evict_pages_with (ka : K Z) : K Z := loop 1025 (evict_step ka) tt.

Fixpoint kalloc_n (n : nat) : K Z :=
  match n with
  | O => λ _, Diverge
  | S n =>
      r ← kalloc_pop;
      if negb (r =? 0) then memset_page r 5 ;; mret r
      else evict_pages_with (kalloc_n n)
  end.
Definition kalloc : K Z := kalloc_n 2.
Definition evict_pages : K Z := evict_pages_with (kalloc_n 1).
End kalloc.

#[global] Arguments walk : simpl never.
#[global] Arguments frame_index : simpl never.
#[global] Arguments kfree : simpl never.
#[global] Arguments swap_out : simpl never.
#[global] Arguments swap_in : simpl never.
#[global] Arguments evict_victim : simpl never.
#[global] Arguments evict_pages_with : simpl never.

(** ** The free list in memory *)

(** The list of pages linked from [head] through their first words. *)
Inductive chain (m : phys) : Z → list Z → Prop :=
| chain_nil : chain m 0 []
| chain_cons p next l : p ≠ 0 → mload64 m p = Some next → chain m next l → chain m p (p :: l).

Lemma mload64_page m m' a : m' !! pg a = m !! pg a → mload64 m' a = mload64 m a.
Proof. intros E. unfold mload64, mread. by rewrite E. Qed.

Lemma chain_frame m m' h l :
  (∀ p, p ∈ l → p mod PGSIZE = 0 ∧ m' !! p = m !! p) → chain m h l → chain m' h l.
Proof.
  intros Hf. induction 1 as [|p next l Hp Hl _ IH]; [constructor|].
  econstructor; [done| |apply IH; set_solver]. destruct (Hf p) as [Ha E]; [set_solver|].
  rewrite <-Hl. apply mload64_page. by rewrite (pg_id _ Ha).
Qed.

Lemma chain_cons_inv m h p l : chain m h (p :: l) →
  h = p ∧ p ≠ 0 ∧ ∃ next, mload64 m p = Some next ∧ chain m next l.
Proof. inversion 1; subst. eauto. Qed.
Lemma chain_nil_inv m h : chain m h [] → h = 0.
Proof. by inversion 1. Qed.

(** The first page of the list, 0 for none. *)
Definition next_of (l : list Z) : Z := match l with [] => 0 | p :: _ => p end.
Lemma chain_hd m h l : chain m h l → h = next_of l.
Proof. by destruct 1. Qed.

Section freelist.
Context {D : Type} `{!BlockStore D} {L : Layout}.
Implicit Types s : kst D.

(** A page the allocator may hand out. *)
Definition alloc_page (pa : Z) : Prop := pa mod PGSIZE = 0 ∧ kend ≤ pa < PHYSTOP ∧ KERNBASE ≤ pa.

(** The free pages are [l], each of them once. *)
Record kmem_inv s (l : list Z) : Prop := {
  km_chain : chain (mem s) (freelist s) l;
  km_nodup : NoDup l;
  km_pages : Forall alloc_page l;
  km_present p : p ∈ l → is_Some (mem s !! p);
  km_wf : mem_wf (mem s);
  km_frames : zlen (frames s) = NFRAME;
}.

Lemma kalloc_pop_ok s p l : kmem_inv s (p :: l) → LKmem ∉ held s →
  kalloc_pop s = Ok (p, s <| freelist := next_of l |>).
Proof.
  intros [Hc Hnd Hpg _ _ _] Hh. unfold kalloc_pop.
  mstep acquire_ok; [|done]. apply chain_cons_inv in Hc as (E & Hp & next & Hl & Hc').
  erewrite bind_step by done. simpl. rewrite E.
  destruct (Z.eqb_spec p 0); [done|]. simpl.
  erewrite bind_step by (erewrite bind_step by (by apply load64_ok); done).
  erewrite bind_step by (apply release_ok; simpl; set_solver). apply Ok_pair.
  rewrite (chain_hd _ _ _ Hc'). kst_eq. by rewrite held_restore.
Qed.

Lemma kalloc_pop_empty s : kmem_inv s [] → LKmem ∉ held s → kalloc_pop s = Ok (0, s).
Proof.
  intros [Hc _ _ _ _ _] Hh. unfold kalloc_pop. mstep acquire_ok; [|done].
  apply chain_nil_inv in Hc as E. erewrite bind_step by done. simpl. rewrite E. simpl.
  erewrite bind_step by done. erewrite bind_step by (apply release_ok; simpl; set_solver).
  apply Ok_pair. kst_eq. by rewrite held_restore.
Qed.

Lemma memset_page_ok s pa c p : mem_wf (mem s) → mem s !! pa = Some p →
  memset_page pa c s = Ok (tt, s <| mem := <[pa := zrepl PGSIZE (u8 c)]> (mem s) |>).
Proof.
  intros Hwf Hp. pose proof (mem_wf_aligned _ _ _ Hwf Hp) as Ha.
  unfold memset_page. apply write_bytes_ok.
  rewrite (mwrite_Some _ _ _ p); [|by rewrite pg_id|rewrite pgoff_id, zlen_zrepl by done; lia].
  rewrite pg_id, pgoff_id by done. rewrite splice_all; [done|].
  rewrite zlen_zrepl by lia. symmetry. by eapply mem_wf_len.
Qed.

(** The state after a page was taken off the list. *)
Definition allocated s (p : Z) (l : list Z) : kst D :=
  s <| freelist := next_of l |> <| mem := <[p := zrepl PGSIZE 5]> (mem s) |>.

Lemma kalloc_ok n s p l : kmem_inv s (p :: l) → LKmem ∉ held s →
  kalloc_n (S n) s = Ok (p, allocated s p l).
Proof.
  intros Hi Hh. simpl. erewrite bind_step by (by apply kalloc_pop_ok).
  destruct (km_present _ _ Hi p) as [pg Hpg]; [set_solver|].
  pose proof (km_chain _ _ Hi) as (_ & Hp0 & _)%chain_cons_inv.
  destruct (Z.eqb_spec p 0); [done|]. simpl.
  erewrite bind_step by (eapply memset_page_ok; [apply Hi|done]). done.
Qed.

Lemma allocated_inv s p l : kmem_inv s (p :: l) → kmem_inv (allocated s p l) l.
Proof.
  intros [Hc Hnd Hpg Hpr Hwf Hfr]. apply chain_cons_inv in Hc as (_ & Hp & next & Hl & Hc').
  apply NoDup_cons in Hnd as [Hni Hnd]. apply Forall_cons in Hpg as [Hp' Hpg].
  split; try done.
  - simpl. rewrite <-(chain_hd _ _ _ Hc'). eapply chain_frame; [|exact Hc'].
    intros q Hq. rewrite Forall_forall in Hpg. destruct (Hpg q Hq). split; [done|].
    apply lookup_insert_ne. by intros ->.
  - intros q Hq. simpl. rewrite lookup_insert_is_Some. destruct (decide (p = q)); [by left|right].
    split; [done|]. apply Hpr. set_solver.
  - simpl. apply mem_wf_insert; [done|apply Hp'|by apply zlen_zrepl].
Qed.

(** What [kfree] leaves in the page: a link, then ones. *)
Definition freed_page (next : Z) : list Z := splice 0 (le_of 8 next) (zrepl PGSIZE 1).
Definition clear_frame (fs : list frame) (i : Z) : list frame :=
  match znth fs i with
  | Some f => zset fs i (f <| f_in_use := false |> <| f_p := None |> <| f_va := 0 |>)
  | None => fs
  end.
Definition freed s (pa : Z) : kst D :=
  s <| frames := clear_frame (frames s) (frame_index pa) |>
    <| mem := <[pa := freed_page (freelist s)]> (mem s) |> <| freelist := pa |>.

Lemma frame_index_val pa : alloc_page pa → frame_index pa = (pa - KERNBASE) / PGSIZE ∧ 0 ≤ frame_index pa < 32768 ∧
  u32 (Z.shiftr (u64 (pa - KERNBASE)) 12) = frame_index pa.
Proof.
  intros (_ & Hb & Hk). unfold frame_index. rewrite wrap_id by lia.
  rewrite Z.shiftr_div_pow2 by lia. change (2 ^ 12) with PGSIZE.
  assert (0 ≤ (pa - KERNBASE) / PGSIZE < 32768) by dlia. split_and!; try lia.
  rewrite wrap_id; lia.
Qed.

Lemma kfree_ok s pa p : alloc_page pa → mem_wf (mem s) → mem s !! pa = Some p →
  zlen (frames s) = NFRAME → LKmem ∉ held s → LFrametable ∉ held s →
  kfree pa s = Ok (tt, freed s pa).
Proof.
  intros Hpa Hwf Hp Hlen Hk Hf. pose proof Hpa as (Ha & Hb & Hkb).
  destruct (frame_index_val pa Hpa) as (_ & Hr & Ei). unfold kfree. rewrite Ei.
  assert (negb (pa mod PGSIZE =? 0) || (pa <? kend) || (PHYSTOP <=? pa) = false) as ->.
  { rewrite Ha. destruct (Z.ltb_spec pa kend), (Z.leb_spec PHYSTOP pa); simpl; lia. }
  set (s1 := s <| frames := clear_frame (frames s) (frame_index pa) |>).
  erewrite (bind_step _ _ _ tt s1).
  2: { destruct (Z.ltb_spec (frame_index pa) NFRAME) as [Hlt|Hge].
    - destruct (znth_lt (frames s) (frame_index pa)) as [f Ef]; [lia|].
      simpl. mstep acquire_ok; [|done]. erewrite bind_step by done. simpl.
      erewrite bind_step by (by rewrite Ef). erewrite bind_step by done.
      rewrite release_ok by (simpl; set_solver). apply Ok_pair. unfold s1, clear_frame. rewrite Ef.
      kst_eq. by rewrite held_restore.
    - simpl. apply Ok_pair. unfold s1, clear_frame.
      destruct (znth (frames s) (frame_index pa)) eqn:Ef; [apply znth_Some in Ef; lia|]. by destruct s. }
  erewrite bind_step by (by apply (memset_page_ok s1 pa 1 p)).
  mstep acquire_ok; [|done]. erewrite bind_step by done. simpl.
  erewrite bind_step.
  2: { apply store64_ok. simpl. unfold mstore64. assert (pa mod 8 =? 0 = true) as -> by dlia.
    erewrite mwrite_Some; [|by rewrite pg_id, lookup_insert_eq|rewrite pgoff_id, zlen_le_of8 by done; lia].
    rewrite pg_id, pgoff_id by done. reflexivity. }
  erewrite bind_step by done. rewrite release_ok by (simpl; set_solver). apply Ok_pair.
  unfold freed, freed_page, s1. rewrite insert_insert_eq. kst_eq. by rewrite held_restore.
Qed.

Lemma zlen_freed_page next : zlen (freed_page next) = PGSIZE.
Proof. unfold freed_page. rewrite zlen_splice; rewrite ?zlen_le_of8, ?zlen_zrepl; lia. Qed.
Lemma freed_page_link next : sub 0 8 (freed_page next) = le_of 8 next.
Proof.
  unfold freed_page. rewrite <-(zlen_le_of8 next) at 1.
  apply sub_splice_eq; rewrite ?zlen_le_of8, ?zlen_zrepl; lia.
Qed.
Lemma clear_frame_len fs i : zlen (clear_frame fs i) = zlen fs.
Proof. unfold clear_frame. destruct (znth fs i); [apply zlen_zset|done]. Qed.

Lemma freed_inv s l pa : kmem_inv s l → alloc_page pa → pa ∉ l → is_Some (mem s !! pa) → 0 < pa →
  kmem_inv (freed s pa) (pa :: l).
Proof.
  intros [Hc Hnd Hpg Hpr Hwf Hfr] Hpa Hni Hp Hpos. pose proof Hpa as (Ha & Hb & _).
  assert (0 ≤ freelist s < 2 ^ 64) as Hfl.
  { rewrite (chain_hd _ _ _ Hc). destruct l as [|q l]; simpl; [lia|].
    apply Forall_cons in Hpg as [(_ & ? & ?) _]. lia. }
  split; simpl.
  - apply (chain_cons _ _ (freelist s)); [lia| |].
    + unfold mload64, mread. assert (pa mod 8 =? 0 = true) as -> by dlia.
      rewrite pg_id, pgoff_id, lookup_insert_eq by done.
      change (Some (le_val (sub 0 8 (freed_page (freelist s)))) = Some (freelist s)).
      by rewrite freed_page_link, le_val_of8.
    + eapply chain_frame; [|exact Hc]. intros q Hq. rewrite Forall_forall in Hpg.
      destruct (Hpg q Hq). split; [done|]. apply lookup_insert_ne. by intros ->.
  - by apply NoDup_cons.
  - by constructor.
  - intros q Hq. rewrite lookup_insert_is_Some. destruct (decide (pa = q)); [by left|right].
    split; [done|]. apply Hpr. set_solver.
  - apply mem_wf_insert; [done|done|apply zlen_freed_page].
  - by rewrite clear_frame_len.
Qed.
End freelist.

(** ** Booting the allocator, and using it *)

Section allocator.
Context {D : Type} `{!BlockStore D} {L : Layout}.
Implicit Types s : kst D.

(** Freeing a list of pages puts them in front, the last one first. *)
Lemma freerange_ok l s l0 :
  kmem_inv s l0 → NoDup l → (∀ p, p ∈ l → p ∉ l0 ∧ alloc_page p ∧ is_Some (mem s !! p)) →
  held s = ∅ →
  ∃ s', for_each kfree l s = Ok (tt, s') ∧ kmem_inv s' (reverse l ++ l0) ∧ held s' = ∅ ∧
    dom (mem s') = dom (mem s).
Proof.
  revert s l0. induction l as [|p l IH]; intros s l0 Hi Hnd Hl Hh; simpl; [by exists s|].
  apply NoDup_cons in Hnd as [Hni Hnd]. destruct (Hl p) as (Hp0 & Hpa & [pg Hpg]); [set_solver|].
  erewrite bind_step by (eapply kfree_ok; [done|apply Hi|done|apply Hi|rewrite Hh; set_solver..]).
  destruct (IH (freed s p) (p :: l0)) as (s' & E & Hi' & Hh' & Hd).
  - apply freed_inv; [done..|by eexists|]. destruct Hpa as (_ & _ & ?). lia.
  - done.
  - intros q Hq. destruct (Hl q) as (? & ? & Hq'); [set_solver|]. split_and!; [set_solver|done|].
    simpl. rewrite lookup_insert_is_Some. destruct (decide (p = q)); [by left|by right].
  - done.
  - exists s'. rewrite reverse_cons, <-app_assoc. split_and!; try done.
    rewrite Hd. simpl. rewrite dom_insert_L. apply elem_of_dom_2 in Hpg. set_solver.
Qed.

(** [kinit] frees the pages from [end] on, as many as the frame table has
    entries (one less when [end] is inside a page). *)
Lemma kinit_ok s :
  KERNBASE ≤ kend → kend + NFRAME * PGSIZE ≤ PHYSTOP →
  mem_wf (mem s) → (∀ p, p ∈ page_range kend (kend + NFRAME * PGSIZE) → is_Some (mem s !! p)) →
  freelist s = 0 → zlen (frames s) = NFRAME → held s = ∅ →
  ∃ s', kinit s = Ok (tt, s') ∧ kmem_inv s' (reverse (page_range kend (kend + NFRAME * PGSIZE))) ∧
    held s' = ∅ ∧ dom (mem s') = dom (mem s).
Proof.
  intros Hk Hks Hwf Hpr Hfl Hfr Hh. unfold kinit. erewrite bind_step by done.
  erewrite bind_step by done. unfold freerange.
  edestruct (freerange_ok (page_range kend (kend + NFRAME * PGSIZE))
    (s <| frames ::= λ fs, (λ f, f <| f_in_use := false |> <| f_p := None |> <| f_reference_bit := false |>) <$> fs |>
       <| swap_space ::= λ l, (λ _, false) <$> l |>) []) as (s' & E & Hi & Hh' & Hd).
  - split; simpl; try done.
    + rewrite Hfl. constructor.
    + constructor.
    + set_solver.
    + unfold zlen in *. by rewrite length_fmap.
  - unfold page_range, upto. apply NoDup_fmap_2_strong; [lia|]. apply NoDup_seqZ.
  - intros p Hp. split_and!; [set_solver| |by apply Hpr].
    unfold page_range in Hp. rewrite PGROUNDUP_pg in Hp by lia.
    apply list_elem_of_fmap in Hp as (i & -> & Hi%elem_of_upto).
    pose proof (pg_aligned (kend + PGSIZE - 1)) as Ha. pose proof (pgoff_bound (kend + PGSIZE - 1)).
    pose proof (pg_pgoff (kend + PGSIZE - 1)). unfold alloc_page. split_and!; dlia.
  - done.
  - exists s'. rewrite app_nil_r in Hi. by split_and!.
Qed.

End allocator.

(** ** The boot state *)

Section boot.
Context {D : Type} `{!BlockStore D} {L : Layout}.
Implicit Types s : kst D.

Lemma page_range_val e : KERNBASE ≤ e → e + NFRAME * PGSIZE ≤ PHYSTOP →
  page_range e (e + NFRAME * PGSIZE) =
    (λ i, pg (e + PGSIZE - 1) + i * PGSIZE) <$> upto (if e mod PGSIZE =? 0 then NFRAME else NFRAME - 1).
Proof.
  intros. unfold page_range. rewrite PGROUNDUP_pg by lia. do 2 f_equal.
  unfold pg. destruct (Z.eqb_spec (e mod PGSIZE) 0); dlia.
Qed.

(** [kinit] boots the allocator: it returns with a well-formed free list of
    512 pages starting at the end of the kernel (511 when the kernel does not
    end on a page boundary). The frame table is indexed from [KERNBASE], not
    from [end], so as soon as the kernel is a page long, the last page of the
    list has no entry in it and can never be evicted. *)
Theorem kinit_boots s :
  KERNBASE ≤ kend → kend + NFRAME * PGSIZE ≤ PHYSTOP →
  mem_wf (mem s) → (∀ p, p ∈ page_range kend (kend + NFRAME * PGSIZE) → is_Some (mem s !! p)) →
  freelist s = 0 → zlen (frames s) = NFRAME → held s = ∅ →
  ∃ s' l, kinit s = Ok (tt, s') ∧ kmem_inv s' l ∧
    zlen l = (if kend mod PGSIZE =? 0 then NFRAME else NFRAME - 1) ∧
    (∀ p, p ∈ l → kend ≤ p ∧ p + PGSIZE ≤ kend + NFRAME * PGSIZE) ∧
    (KERNBASE + PGSIZE ≤ kend → ∃ p, p ∈ l ∧ NFRAME ≤ frame_index p).
Proof.
  intros Hk Hks Hwf Hpr Hfl Hfr Hh.
  destruct (kinit_ok s) as (s' & E & Hi & _); [done..|].
  rewrite page_range_val in Hi by done. eexists s', _. split_and!; [done|exact Hi|..].
  - unfold zlen. rewrite length_reverse, length_fmap. unfold upto. rewrite length_seqZ.
    destruct (kend mod PGSIZE =? 0); lia.
  - intros p. rewrite elem_of_reverse. intros (i & -> & Hi'%elem_of_upto)%list_elem_of_fmap.
    unfold pg. destruct (Z.eqb_spec (kend mod PGSIZE) 0); dlia.
  - intros Hk'. set (n := if kend mod PGSIZE =? 0 then NFRAME else NFRAME - 1) in *.
    exists (pg (kend + PGSIZE - 1) + (n - 1) * PGSIZE).
    assert (pg (kend + PGSIZE - 1) + (n - 1) * PGSIZE ∈
      reverse ((λ i, pg (kend + PGSIZE - 1) + i * PGSIZE) <$> upto n)) as Hin.
    { rewrite elem_of_reverse. apply (list_elem_of_fmap_2 (λ i, pg (kend + PGSIZE - 1) + i * PGSIZE)).
      apply elem_of_upto. unfold n. destruct (_ =? _); lia. }
    split; [done|]. pose proof (km_pages _ _ Hi) as Hap. rewrite Forall_forall in Hap.
    destruct (frame_index_val _ (Hap _ Hin)) as (-> & _ & _).
    unfold n, pg. destruct (Z.eqb_spec (kend mod PGSIZE) 0); dlia.
Qed.
End boot.

(** ** A small machine *)

(** A kernel of 65 pages. *)
#[local] Instance demo_layout : Layout :=
  {| kend := KERNBASE + 65 * PGSIZE; etext := KERNBASE + 32768; trampoline := KERNBASE + 28672;
     forkret := KERNBASE + 8192 |}.

Definition pages (l : list Z) : phys := list_to_map ((λ p, (p, zrepl PGSIZE 0)) <$> l).

Lemma pages_wf l : Forall (λ p, p mod PGSIZE = 0) l → mem_wf (pages l).
Proof.
  unfold pages. induction 1 as [|p l Hp _ IH]; simpl; [intros pa q; by rewrite lookup_empty|].
  apply mem_wf_insert; [done|done|]. by apply zlen_zrepl.
Qed.
Lemma pages_present l p : p ∈ l → is_Some (pages l !! p).
Proof.
  unfold pages. induction l as [|q l IH]; [set_solver|]. intros [->|Hp]%elem_of_cons; simpl.
  - by rewrite lookup_insert_eq.
  - rewrite lookup_insert_is_Some. destruct (decide (q = p)); [by left|right; auto].
Qed.

(** No disk: the allocator is used without eviction. *)
#[local] Instance no_disk : BlockStore unit :=
  {| bs_read _ := panic "no disk"; bs_write _ _ := panic "no disk"; bs_sleeps _ _ _ := true |}.

Definition demo_boot (l : list Z) : kst unit :=
  MkK (pages l) 0 (zrepl NFRAME frame0) (zrepl NSWAPSPACE false) 0 0 0 [] 0 0 0 0 0 [] [] 0 tt [] None 1 0 None ∅.

Lemma kinit_boots_witness :
  ∃ s' l, kinit (demo_boot (page_range kend (kend + NFRAME * PGSIZE))) = Ok (tt, s') ∧ kmem_inv s' l ∧
    zlen l = 512 ∧ ∃ p, p ∈ l ∧ NFRAME ≤ frame_index p.
Proof.
  destruct (kinit_boots (demo_boot (page_range kend (kend + NFRAME * PGSIZE)))) as (s' & l & E & Hi & Hl & _ & Hp).
  - simpl. lia.
  - simpl. lia.
  - apply pages_wf. rewrite page_range_val by (simpl; lia). apply Forall_fmap, Forall_forall.
    intros i _. cbv beta delta [compose]. rewrite Z.mod_add by lia. apply pg_aligned.
  - apply pages_present.
  - reflexivity.
  - unfold demo_boot. simpl. by apply zlen_zrepl.
  - reflexivity.
  - exists s', l. split; [exact E|]. split; [exact Hi|]. split; [exact Hl|]. apply Hp. simpl. lia.
Defined.
