(* ===== verification/Evict.v ===== *)
(** * Eviction and swapping back in

    What the clock of [kernel/kalloc.c] does: which frame it takes, that it
    finds one whenever one can be taken, that the victim's page ends up in a
    swap slot with its entry saying so, and that swapping it back in gives the
    page the owner had. *)

From stdpp Require Import base numbers list gmap strings.
From S2P Require Import Prelude Machine KState Disk Raid Kalloc.
Open Scope Z_scope.
Open Scope kernel_scope.

(** ** Walking a page table, as a function of memory *)

Definition plevel (m : phys) (va level pt : Z) : option Z :=
  (λ e, if has e PTE_V then PTE2PA e else 0) <$> mload64 m (pt + 8 * PX level va).
Definition pwalk (m : phys) (pt va : Z) : option Z :=
  l1 ← plevel m va 2 pt;
  if decide (l1 = 0) then Some 0 else
  l0 ← plevel m va 1 l1;
  if decide (l0 = 0) then Some 0 else Some (l0 + 8 * PX 0 va).

(** ** Walks and stores *)

(** The words a walk reads on the way to the leaf. *)
Definition walk_words (m : phys) (pt va : Z) : list Z :=
  (pt + 8 * PX 2 va) :: match plevel m va 2 pt with Some l1 => [l1 + 8 * PX 1 va] | None => [] end.

Lemma pwalk_same m m' pt va : (∀ a, a ∈ walk_words m pt va → mload64 m' a = mload64 m a) →
  pwalk m' pt va = pwalk m pt va.
Proof.
  intros H. unfold pwalk. assert (plevel m' va 2 pt = plevel m va 2 pt) as E2.
  { unfold plevel. rewrite H; [done|]. unfold walk_words. set_solver. }
  rewrite E2. destruct (plevel m va 2 pt) as [l1|] eqn:E; [|done]. simpl. destruct (decide (l1 = 0)); [done|].
  assert (plevel m' va 1 l1 = plevel m va 1 l1) as ->; [|done].
  unfold plevel. rewrite H; [done|]. unfold walk_words. rewrite E. set_solver.
Qed.

Section evict.
Context {D : Type} `{!BlockStore D} {L : Layout}.
Implicit Types s : kst D.

Lemma walk_level_pure ka va level pt s a :
  plevel (mem s) va level pt = Some a →
  walk_level ka false va level pt s = Ok (a, s).
Proof.
  unfold plevel, walk_level. destruct (mload64 _ _) as [e|] eqn:E; [|done]. simpl. intros [= <-].
  erewrite bind_step by (by apply load64_ok). by destruct (has e PTE_V).
Qed.

Lemma walk_pure ka pt va s a :
  va < MAXVA → pwalk (mem s) pt va = Some a → walk ka pt va false s = Ok (a, s).
Proof.
  unfold pwalk, walk. intros Hva. destruct (Z.leb_spec MAXVA va); [lia|].
  destruct (plevel (mem s) va 2 pt) as [l1|] eqn:E1; [|done]. simpl.
  erewrite bind_step by (by apply walk_level_pure).
  destruct (decide (l1 = 0)) as [->|Hl1]; [by intros [= <-]|].
  destruct (Z.eqb_spec l1 0); [done|].
  destruct (plevel (mem s) va 1 l1) as [l0|] eqn:E0; [|done]. simpl.
  erewrite bind_step by (by apply walk_level_pure).
  destruct (decide (l0 = 0)) as [->|Hl0]; [by intros [= <-]|].
  destruct (Z.eqb_spec l0 0); [done|]. by intros [= <-].
Qed.

(** ** What the clock sees *)

(** The entry and page of the frame's owner, when the frame can be evicted;
    [None] when looking at it would fault. *)
Definition frame_target (m : phys) (ps : list proc) (f : frame) : option (option (Z * Z)) :=
  match (if f_in_use f then f_p f else None) with
  | None => Some None
  | Some i =>
      q ← ps !! i;
      if decide (p_pagetable q = 0) then Some None else
      if decide (f_va f < MAXVA) then
        pte ← pwalk m (p_pagetable q) (f_va f);
        if decide (pte = 0) then Some None else
        e ← mload64 m pte;
        if has e PTE_V then Some (Some (pte, PTE2PA e)) else Some None
      else None
  end.

#[local] Arguments frame_target : simpl never.
#[local] Arguments pwalk : simpl never.

(** Frame [i] can be evicted: through entry [pte], it being the frame of the
    page the entry maps. *)
Definition target s (i : Z) : option (option (Z * Z)) :=
  f ← znth (frames s) i; frame_target (mem s) (procs s) f.

(** The frame table is consistent: looking at a frame never faults, and the
    page the owner's entry maps is the frame's own page. *)
Record frames_wf s : Prop := {
  fw_len : zlen (frames s) = NFRAME;
  fw_hand : 0 ≤ clock_hand s < NFRAME;
  fw_target i : 0 ≤ i < NFRAME → ∃ t, target s i = Some t ∧
    ∀ pte pa, t = Some (pte, pa) → alloc_page pa ∧ frame_index pa = i;
}.

Definition refbit s (i : Z) : bool :=
  match znth (frames s) i with Some f => f_reference_bit f | None => false end.
Definition next_hand (h : Z) : Z := (h + 1) mod NFRAME.

Lemma next_hand_val h : 0 ≤ h < NFRAME → Z.rem (i32 (h + 1)) NFRAME = next_hand h.
Proof. intros. rewrite i32_id by lia. unfold next_hand. by rewrite Z.rem_mod_nonneg by lia. Qed.

(** The state after the hand passed frame [i], its bit cleared if it could be evicted. *)
Definition passed s : kst D :=
  let h := clock_hand s in
  s <| clock_hand := next_hand h |>
    <| frames := match target s h, znth (frames s) h with
                 | Some (Some _), Some f => zset (frames s) h (f <| f_reference_bit := false |>)
                 | _, _ => frames s
                 end |>.

#[local] Arguments target : simpl never.
#[local] Arguments passed : simpl never.
#[local] Arguments next_hand : simpl never.

Lemma release_frametable s h fs : LFrametable ∉ held s →
  release LFrametable (s <| held := {[LFrametable]} ∪ held s |> <| clock_hand := h |> <| frames := fs |>) =
    Ok (tt, s <| clock_hand := h |> <| frames := fs |>).
Proof.
  intros Hh. rewrite release_ok by (simpl; set_solver). apply Ok_pair.
  apply kst_ext. unfold eta, kst_eta. simpl. f_equal. by rewrite held_restore.
Qed.

(** The clock passes a frame that cannot be evicted, or has been referenced. *)
Lemma evict_step_pass ka s t :
  frames_wf s → LFrametable ∉ held s → target s (clock_hand s) = Some t →
  t = None ∨ refbit s (clock_hand s) = true →
  evict_step ka tt s = Ok (inl tt, passed s).
Proof.
  intros [Hl Hh Ht] Hheld Et Hpass. destruct (Ht _ Hh) as (t' & Et' & Hidx). rewrite Et in Et'.
  injection Et' as <-. unfold evict_step.
  mstep acquire_ok; [|done]. mget (clock_hand s). mget (frames s).
  destruct (znth_lt (frames s) (clock_hand s)) as [f Ef]; [lia|].
  erewrite bind_step by (apply opt_ok; exact Ef). rewrite (next_hand_val _ Hh).
  erewrite bind_step by done.
  assert (Et0 := Et). unfold target in Et. rewrite Ef in Et. cbn in Et. unfold frame_target in Et.
  unfold passed. rewrite Et0, Ef.
  assert (∀ fs, release LFrametable (s <| held := {[LFrametable]} ∪ held s |>
      <| clock_hand := next_hand (clock_hand s) |> <| frames := fs |>) =
    Ok (tt, s <| clock_hand := next_hand (clock_hand s) |> <| frames := fs |>)) as Hrel.
  { intros fs. by apply release_frametable. }
  assert (((release LFrametable ;; mret (inl tt)) : M (kst D) (unit + Z)) (s <| held := {[LFrametable]} ∪ held s |>
      <| clock_hand := next_hand (clock_hand s) |>) =
    Ok (inl tt, s <| clock_hand := next_hand (clock_hand s) |> <| frames := frames s |>)) as Hskip.
  { specialize (Hrel (frames s)). rewrite (bind_step _ _ _ _ _ Hrel). done. }
  destruct (if f_in_use f then f_p f else None) as [i|]; [|by simplify_eq].
  destruct (procs s !! i) as [q|] eqn:Eq; [|done]. cbn in Et.
  erewrite bind_step by (by apply getp_ok).
  destruct (decide (p_pagetable q = 0)) as [Hpt|Hpt], (Z.eqb_spec (p_pagetable q) 0); try done.
  { by simplify_eq. }
  destruct (decide (f_va f < MAXVA)) as [Hva|]; [|done].
  destruct (pwalk (mem s) (p_pagetable q) (f_va f)) as [pte|] eqn:Ew; [|done]. cbn in Et.
  erewrite bind_step by (by apply walk_pure).
  destruct (decide (pte = 0)) as [Hz|Hz], (Z.eqb_spec pte 0); try done.
  { by simplify_eq. }
  destruct (mload64 (mem s) pte) as [e|] eqn:Ee; [|done]. cbn in Et.
  erewrite bind_step by (by apply load64_ok).
  destruct (has e PTE_V); [|by simplify_eq]. injection Et as <-.
  destruct (Hidx _ _ eq_refl) as [_ Hi]. destruct Hpass as [|Hr]; [done|].
  unfold refbit in Hr. rewrite Ef in Hr. rewrite Hi.
  erewrite bind_step by (by rewrite Ef). rewrite Hr. erewrite bind_step by done.
  erewrite bind_step by (apply Hrel). done.
Qed.

(** The clock takes a frame that can be evicted and has not been referenced. *)
Lemma evict_step_take ka s pte pa :
  frames_wf s → LFrametable ∉ held s → target s (clock_hand s) = Some (Some (pte, pa)) →
  refbit s (clock_hand s) = false →
  evict_step ka tt s = (r ← evict_victim ka (clock_hand s) pte pa; mret (inr r))
    (s <| held := {[LFrametable]} ∪ held s |> <| clock_hand := next_hand (clock_hand s) |>).
Proof.
  intros [Hl Hh Ht] Hheld Et Hr. destruct (Ht _ Hh) as (t' & Et' & Hidx). rewrite Et in Et'.
  injection Et' as <-. destruct (Hidx _ _ eq_refl) as [_ Hi]. unfold evict_step.
  mstep acquire_ok; [|done]. mget (clock_hand s). mget (frames s).
  destruct (znth_lt (frames s) (clock_hand s)) as [f Ef]; [lia|].
  erewrite bind_step by (apply opt_ok; exact Ef). rewrite (next_hand_val _ Hh).
  erewrite bind_step by done.
  unfold target in Et. rewrite Ef in Et. cbn in Et. unfold frame_target in Et.
  destruct (if f_in_use f then f_p f else None) as [i|]; [|done].
  destruct (procs s !! i) as [q|] eqn:Eq; [|done]. cbn in Et.
  erewrite bind_step by (by apply getp_ok).
  destruct (decide (p_pagetable q = 0)) as [Hpt|Hpt], (Z.eqb_spec (p_pagetable q) 0); try done.
  destruct (decide (f_va f < MAXVA)) as [Hva|]; [|done].
  destruct (pwalk (mem s) (p_pagetable q) (f_va f)) as [pte'|] eqn:Ew; [|done]. cbn in Et.
  erewrite bind_step by (by apply walk_pure).
  destruct (decide (pte' = 0)) as [Hz|Hz], (Z.eqb_spec pte' 0); try done.
  destruct (mload64 (mem s) pte') as [e|] eqn:Ee; [|done]. cbn in Et.
  erewrite bind_step by (by apply load64_ok).
  destruct (has e PTE_V); [|done]. injection Et as -> <-.
  rewrite Hi. unfold refbit in Hr. rewrite Ef in Hr.
  erewrite bind_step by (by rewrite Ef). by rewrite Hr.
Qed.

(** ** The clock goes round *)

Lemma target_passed s i : target (passed s) i = target s i.
Proof.
  unfold passed. destruct (target s (clock_hand s)) as [[pp|]|] eqn:Et; [|done..].
  destruct (znth (frames s) (clock_hand s)) as [f|] eqn:Ef; [|done].
  unfold target in *. simpl. pose proof (znth_Some _ _ _ Ef).
  destruct (decide (i = clock_hand s)) as [->|].
  - rewrite znth_zset_eq, Ef by lia. done.
  - by rewrite znth_zset_ne by lia.
Qed.

Lemma passed_len s : zlen (frames (passed s)) = zlen (frames s).
Proof. unfold passed. simpl. destruct (target s (clock_hand s)) as [[]|], (znth (frames s) (clock_hand s)); simpl; by rewrite ?zlen_zset. Qed.

Lemma passed_wf s : frames_wf s → frames_wf (passed s).
Proof.
  intros [Hl Hh Ht]. split.
  - by rewrite passed_len.
  - unfold passed, next_hand. simpl. apply Z.mod_pos_bound. lia.
  - intros i Hi. rewrite target_passed. auto.
Qed.

Definition can_evict s (i : Z) : bool := match target s i with Some (Some _) => true | _ => false end.

Lemma refbit_passed s i : frames_wf s →
  refbit (passed s) i = refbit s i && negb ((i =? clock_hand s) && can_evict s i).
Proof.
  intros [Hl Hh Ht]. unfold refbit, passed, can_evict. simpl.
  destruct (znth_lt (frames s) (clock_hand s)) as [f Ef]; [lia|]. rewrite Ef.
  destruct (Z.eqb_spec i (clock_hand s)) as [->|Hne]; simpl; [|rewrite andb_true_r].
  - destruct (target s (clock_hand s)) as [[]|]; simpl; rewrite ?Ef, ?andb_true_r, ?andb_false_r; try done.
    by rewrite znth_zset_eq by lia.
  - destruct (target s (clock_hand s)) as [[]|]; try done. by rewrite znth_zset_ne by lia.
Qed.

(** The state after [k] frames were passed. *)
Definition pass (k : nat) s : kst D := Nat.iter k passed s.

(** How far ahead of the hand frame [i] is. *)
Definition ahead s (i : Z) : Z := (i - clock_hand s) mod NFRAME.

Lemma pass_facts k s : frames_wf s →
  frames_wf (pass k s) ∧ clock_hand (pass k s) = (clock_hand s + Z.of_nat k) mod NFRAME ∧
  (∀ i, target (pass k s) i = target s i) ∧
  pass k s = s <| clock_hand := clock_hand (pass k s) |> <| frames := frames (pass k s) |>.
Proof.
  intros Hwf. induction k as [|k (Hw & Hc & Ht & Hs)];
    [change (pass 0 s) with s|change (pass (S k) s) with (passed (pass k s))].
  - split_and!; try done; [|by destruct s]. rewrite Z.add_0_r, Z.mod_small; [done|apply Hwf].
  - split_and!.
    + by apply passed_wf.
    + change (clock_hand (passed (pass k s))) with (next_hand (clock_hand (pass k s))).
      unfold next_hand. rewrite Hc, Zplus_mod_idemp_l. f_equal. lia.
    + intros i. by rewrite target_passed, Ht.
    + rewrite Hs. done.
Qed.

Lemma can_evict_pass k s i : frames_wf s → can_evict (pass k s) i = can_evict s i.
Proof. intros Hwf. unfold can_evict. destruct (pass_facts k s Hwf) as (_ & _ & -> & _). done. Qed.

Lemma hand_at k s i : frames_wf s → 0 ≤ i < NFRAME →
  clock_hand (pass k s) = i ↔ Z.of_nat k mod NFRAME = ahead s i.
Proof.
  intros Hwf Hi. destruct (pass_facts k s Hwf) as (_ & -> & _ & _). pose proof (fw_hand _ Hwf).
  unfold ahead. split; intros E; dlia.
Qed.

(** A frame keeps its bit until the hand comes by. *)
Lemma refbit_pass k s i : frames_wf s → 0 ≤ i < NFRAME →
  refbit (pass k s) i = refbit s i && negb ((ahead s i <? Z.of_nat k) && can_evict s i).
Proof.
  intros Hwf Hi. induction k as [|k IH].
  - assert (0 ≤ ahead s i) by (apply Z.mod_pos_bound; lia).
    destruct (Z.ltb_spec (ahead s i) (Z.of_nat 0)); [lia|]. simpl. by rewrite andb_true_r.
  - destruct (pass_facts k s Hwf) as (Hw & _ & _ & _).
    change (pass (S k) s) with (passed (pass k s)). rewrite refbit_passed, IH, can_evict_pass by done.
    pose proof (hand_at k s i Hwf Hi) as Hat.
    assert (0 ≤ ahead s i < NFRAME) by (apply Z.mod_pos_bound; lia).
    destruct (Z.eqb_spec i (clock_hand (pass k s))) as [E|E].
    + assert (Z.of_nat k mod NFRAME = ahead s i) as Ek by (by apply Hat).
      assert (ahead s i ≤ Z.of_nat k) by dlia.
      destruct (Z.ltb_spec (ahead s i) (Z.of_nat (S k))); [|lia].
      destruct (Z.ltb_spec (ahead s i) (Z.of_nat k)), (refbit s i), (can_evict s i); done.
    + assert (ahead s i ≠ Z.of_nat k).
      { intros Eq. apply E. symmetry. apply Hat. rewrite Eq. apply Z.mod_small. lia. }
      destruct (Z.ltb_spec (ahead s i) (Z.of_nat (S k))), (Z.ltb_spec (ahead s i) (Z.of_nat k)); try lia;
        simpl; by rewrite andb_true_r.
Qed.

(** The hand is at a frame to take. *)
Definition at_victim s : bool := can_evict s (clock_hand s) && negb (refbit s (clock_hand s)).

Lemma at_victim_pass k s i : frames_wf s → 0 ≤ i < NFRAME → Z.of_nat k mod NFRAME = ahead s i →
  at_victim (pass k s) = can_evict s i && negb (refbit s i && negb ((ahead s i <? Z.of_nat k) && can_evict s i)).
Proof.
  intros Hwf Hi E. unfold at_victim. apply (hand_at k s i Hwf Hi) in E. rewrite E.
  by rewrite can_evict_pass, refbit_pass by done.
Qed.

Lemma least_nat (P : nat → bool) n : P n = true → ∃ k, (k ≤ n)%nat ∧ P k = true ∧ ∀ j, (j < k)%nat → P j = false.
Proof.
  induction n as [n IH] using lt_wf_ind. intros Hn.
  destruct (List.find P (seq 0 n)) as [j|] eqn:E.
  - apply List.find_some in E as [Hj HP]. apply List.in_seq in Hj.
    destruct (IH j) as (k & ? & ? & ?); [lia|done|]. exists k. split_and!; [lia|done..].
  - exists n. split_and!; [lia|done|]. intros j Hj. apply (List.find_none _ _ E). apply List.in_seq. lia.
Qed.

Lemma not_victim s : frames_wf s → at_victim s = false →
  ∃ t, target s (clock_hand s) = Some t ∧ (t = None ∨ refbit s (clock_hand s) = true).
Proof.
  intros Hwf Hv. destruct (fw_target _ Hwf (clock_hand s)) as (t & Et & _); [apply Hwf|].
  exists t. split; [done|]. unfold at_victim, can_evict in Hv. rewrite Et in Hv.
  destruct t; [|by left]. simpl in Hv. right. by destruct (refbit _ _).
Qed.

(** Passing over frames uses up turns of the loop, nothing else. *)
Lemma loop_pass ka k n s : frames_wf s → LFrametable ∉ held s →
  (∀ j, (j < k)%nat → at_victim (pass j s) = false) →
  loop (k + n) (evict_step ka) tt s = loop n (evict_step ka) tt (pass k s).
Proof.
  revert s. induction k as [|k IH]; intros s Hwf Hh Hno; [done|]. simpl.
  destruct (not_victim s Hwf) as (t & Et & Ht); [apply (Hno 0%nat); lia|].
  rewrite (bind_step _ _ _ _ _ (evict_step_pass ka s t Hwf Hh Et Ht)).
  rewrite IH.
  - unfold pass. by rewrite <-Nat.iter_succ_r.
  - by apply passed_wf.
  - done.
  - intros j Hj. unfold pass. rewrite <-Nat.iter_succ_r. apply (Hno (S j)). lia.
Qed.

(** What the clock algorithm promises of its victim: it can be evicted, and
    either its bit was clear and every frame the hand met before it that could
    be evicted had its bit set, or every frame that could be evicted had its
    bit set and it is the first of them. *)
Definition second_chance s (v : Z) : Prop :=
  0 ≤ v < NFRAME ∧ can_evict s v = true ∧
  ((refbit s v = false ∧
    ∀ i, 0 ≤ i < NFRAME → can_evict s i = true → ahead s i < ahead s v → refbit s i = true) ∨
   (∀ i, 0 ≤ i < NFRAME → can_evict s i = true → refbit s i = true ∧ ahead s v ≤ ahead s i)).

Lemma victim_second_chance s k : frames_wf s → at_victim (pass k s) = true →
  (∀ j, (j < k)%nat → at_victim (pass j s) = false) → second_chance s (clock_hand (pass k s)).
Proof.
  intros Hwf Hv Hno. destruct (pass_facts k s Hwf) as (Hw & _ & _ & _).
  pose proof (fw_hand _ Hw) as Hr. set (v := clock_hand (pass k s)) in *.
  assert (Z.of_nat k mod NFRAME = ahead s v) as Ek by (by apply hand_at).
  rewrite (at_victim_pass k s v) in Hv by done. apply andb_true_iff in Hv as [Hce Hrb].
  assert (∀ i, 0 ≤ i < NFRAME → can_evict s i = true → ahead s i < Z.of_nat k → refbit s i = true) as Hearly.
  { intros i Hi Hci Hlt. assert (0 ≤ ahead s i < NFRAME) by (apply Z.mod_pos_bound; lia).
    specialize (Hno (Z.to_nat (ahead s i)) ltac:(lia)).
    rewrite (at_victim_pass _ s i), Hci in Hno by (done || rewrite Z2Nat.id by lia; apply Z.mod_small; lia).
    rewrite Z2Nat.id, Z.ltb_irrefl in Hno by lia. simpl in Hno. by destruct (refbit s i). }
  split; [done|]. split; [done|]. assert (0 ≤ ahead s v < NFRAME) by (apply Z.mod_pos_bound; lia).
  destruct (decide (Z.of_nat k < NFRAME)) as [Hk|Hk].
  - left. rewrite Z.mod_small in Ek by lia. split; [|intros i Hi Hci Hlt; apply Hearly; [done..|lia]].
    rewrite <-Ek, Z.ltb_irrefl in Hrb. simpl in Hrb. by destruct (refbit s v).
  - right. intros i Hi Hci. assert (0 ≤ ahead s i < NFRAME) by (apply Z.mod_pos_bound; lia).
    split; [apply Hearly; [done..|lia]|]. destruct (decide (ahead s v ≤ ahead s i)) as [|Hgt]; [done|].
    exfalso. specialize (Hno (Z.to_nat (ahead s i + NFRAME)) ltac:(dlia)).
    rewrite (at_victim_pass _ s i), Hci in Hno; [|done|done|rewrite Z2Nat.id by lia; dlia].
    destruct (Z.ltb_spec (ahead s i) (Z.of_nat (Z.to_nat (ahead s i + NFRAME)))); [|lia].
    simpl in Hno. by rewrite andb_false_r in Hno.
Qed.

(** The search ends within two revolutions when any frame can be evicted. *)
Lemma clock_finds s i : frames_wf s → LFrametable ∉ held s → 0 ≤ i < NFRAME → can_evict s i = true →
  ∃ k v pte pa, v = clock_hand (pass k s) ∧ target s v = Some (Some (pte, pa)) ∧ second_chance s v ∧
    ∀ ka, evict_pages_with ka s = evict_victim ka v pte pa
      ((pass k s) <| held := {[LFrametable]} ∪ held s |> <| clock_hand := next_hand v |>).
Proof.
  intros Hwf Hh Hi Hci. assert (0 ≤ ahead s i < NFRAME) as Ha by (apply Z.mod_pos_bound; lia).
  destruct (least_nat (λ k, at_victim (pass k s)) (Z.to_nat (ahead s i + NFRAME))) as (k & Hk & Hv & Hno).
  { rewrite (at_victim_pass _ s i), Hci by (done || rewrite Z2Nat.id by lia; dlia).
    destruct (Z.ltb_spec (ahead s i) (Z.of_nat (Z.to_nat (ahead s i + NFRAME)))); [|lia].
    simpl. by rewrite andb_false_r. }
  destruct (pass_facts k s Hwf) as (Hw & _ & Ht & Hs).
  pose proof Hv as (Hce & Hrb)%andb_true_iff.
  destruct (target (pass k s) (clock_hand (pass k s))) as [[[pte pa]|]|] eqn:Et;
    try (unfold can_evict in Hce; by rewrite Et in Hce).
  exists k, (clock_hand (pass k s)), pte, pa. split_and!; [done|by rewrite <-Ht|by apply victim_second_chance|].
  intros ka. unfold evict_pages_with.
  replace 1025%nat with (k + S (1024 - k))%nat by lia. rewrite loop_pass by done. simpl.
  assert (held (pass k s) = held s) as Hhe by (by rewrite Hs).
  unfold mbind, M_bind. rewrite (evict_step_take ka (pass k s) pte pa); [|done|by rewrite Hhe|done|].
  2: { by destruct (refbit (pass k s) (clock_hand (pass k s))). }
  unfold mbind, M_bind. rewrite Hhe. by destruct (evict_victim _ _ _ _ _) as [[]| | |].
Qed.
End evict.

(** ** Writing the victim out *)

(** A process without its paging and disk counters. *)
Definition no_counters (p : proc) : proc :=
  p <| p_pages_evicted := 0 |> <| p_pages_swapped_in := 0 |> <| p_pages_swapped_out := 0 |>
    <| p_resident_pages := 0 |> <| p_disk_reads := 0 |> <| p_disk_writes := 0 |>
    <| p_avg_disk_latency := 0 |>.
Definition no_stats (ps : list proc) : list proc := no_counters <$> ps.

Lemma no_stats_latency ps ps' : no_latency ps' = no_latency ps → no_stats ps' = no_stats ps.
Proof.
  intros H. assert (∀ l, no_stats l = no_stats (no_latency l)) as E.
  { intros l. unfold no_stats, no_latency. rewrite <-list_fmap_compose. by apply list_fmap_ext. }
  by rewrite E, H, <-E.
Qed.
Lemma no_stats_insert ps i p q : ps !! i = Some p → no_counters q = no_counters p →
  no_stats (<[i := q]> ps) = no_stats ps.
Proof.
  intros H E. unfold no_stats. rewrite list_fmap_insert, E. apply list_insert_id.
  by rewrite list_lookup_fmap, H.
Qed.
Lemma no_stats_lookup ps ps' i p : no_stats ps' = no_stats ps → ps !! i = Some p →
  ∃ p', ps' !! i = Some p' ∧ no_counters p' = no_counters p.
Proof.
  intros H%(f_equal (λ l, l !! i)) Hp. unfold no_stats in H. rewrite !list_lookup_fmap, Hp in H.
  destruct (ps' !! i) as [p'|]; [|done]. simpl in H. exists p'. split; [done|congruence].
Qed.

(** What eviction and swapping leave alone. *)
Record eframe {D} (s s' : kst D) : Prop := {
  ef_disk_policy : disk_policy s' = disk_policy s;
  ef_raid_mode : raid_mode s' = raid_mode s;
  ef_failed_disk_mask : failed_disk_mask s' = failed_disk_mask s;
  ef_procs : no_stats (procs s') = no_stats (procs s);
  ef_initproc : initproc s' = initproc s;
  ef_nextpid : nextpid s' = nextpid s;
  ef_ticks : ticks s' = ticks s;
  ef_cur : cur s' = cur s;
}.
#[global] Instance eframe_preorder {D} : PreOrder (@eframe D).
Proof. split; [done|]. intros s1 s2 s3 [] []. split; congruence. Qed.

Lemma sframe_eframe {D} `{!BlockStore D} (s s' : kst D) : sframe s s' → eframe s s'.
Proof. intros []. simpl in *. split; try done. by apply no_stats_latency. Qed.

Section victim.
Context {D : Type} `{!BlockStore D, !BlockStoreLaws D} {L : Layout}.
Implicit Types s : kst D.

(** The running process, if any, has an MLFQ level. *)
Definition cur_ok s : Prop :=
  ∀ i, cur s = Some i → ∃ p, procs s !! i = Some p ∧ 0 ≤ p_cur_q_level p ≤ 3.

Lemma cur_ok_frame s s' : eframe s s' → cur_ok s → cur_ok s'.
Proof.
  intros Hf Hc i Hi. rewrite (ef_cur _ _ Hf) in Hi. destruct (Hc i Hi) as (p & Hp & Hl).
  destruct (no_stats_lookup _ _ _ _ (ef_procs _ _ Hf) Hp) as (p' & Hp' & E). exists p'.
  split; [done|]. by apply (f_equal p_cur_q_level) in E; simpl in E; rewrite E.
Qed.

Lemma my_priority_ok s : cur_ok s → ∃ prio, my_priority (cur s) s = Ok (prio, s) ∧ 0 ≤ prio ≤ 3.
Proof.
  intros Hc. unfold my_priority. destruct (cur s) as [i|] eqn:E; [|eexists; split; [done|lia]].
  destruct (Hc i E) as (p & Hp & Hl). exists (p_cur_q_level p).
  split; [|done]. by erewrite bind_step by (by apply getp_ok).
Qed.

(** The lowest free slot, marked used. *)
Lemma take_slot_ok s i b : LSwap ∉ held s → list_find (λ b, b = false) (swap_space s) = Some (i, b) →
  take_slot s = Ok (Z.of_nat i, s <| swap_space := <[i := true]> (swap_space s) |>).
Proof.
  intros Hh Hf. unfold take_slot. mstep acquire_ok; [|done]. mget (swap_space s). rewrite Hf.
  erewrite bind_step by (erewrite bind_step by done; done).
  erewrite bind_step by (apply release_ok; simpl; set_solver). apply Ok_pair. kst_eq.
  by rewrite held_restore.
Qed.
Lemma take_slot_none s : LSwap ∉ held s → list_find (λ b, b = false) (swap_space s) = None →
  take_slot s = Ok (-1, s).
Proof.
  intros Hh Hf. unfold take_slot. mstep acquire_ok; [|done]. mget (swap_space s). rewrite Hf.
  erewrite bind_step by done. erewrite bind_step by (apply release_ok; simpl; set_solver).
  apply Ok_pair. kst_eq. by rewrite held_restore.
Qed.

(** Update a process under its own lock. *)
Lemma locked_updp s i f p : LProc i ∉ held s → procs s !! i = Some p →
  (acquire (LProc i) ;; updp i f ;; release (LProc i)) s
    = Ok (tt, s <| procs := <[i := f p]> (procs s) |>).
Proof.
  intros Hh Hp. mstep acquire_ok; [|done]. erewrite bind_step by (by apply updp_ok).
  rewrite release_ok by (simpl; set_solver). apply Ok_pair. kst_eq. by rewrite held_restore.
Qed.

Lemma swap_inv_upd_procs s ps : swap_inv s → length ps = length (procs s) → swap_inv (s <| procs := ps |>).
Proof.
  intros [[[]] ] Hl. split; [split; [split|..]|..]; try done.
  intros i Hi. apply dr_cur in Hi. rewrite lookup_lt_is_Some in *. simpl. lia.
Qed.
Lemma swap_inv_upd_space s l : swap_inv s → swap_inv (s <| swap_space := l |>).
Proof. intros [[[]] ]. by split; [split; [split|..]|..]. Qed.

(** [swap_out] saves the page in the lowest free slot. *)
Lemma swap_out_ok s pa p i b :
  swap_inv s → cur_ok s → mem s !! pa = Some p → zlen (swap_space s) = NSWAPSPACE →
  list_find (λ b, b = false) (swap_space s) = Some (i, b) →
  ∃ s', swap_out pa s = Ok (Z.of_nat i, s') ∧ swap_inv s' ∧ eframe s s' ∧ mem s' = mem s ∧
    freelist s' = freelist s ∧ frames s' = frames s ∧ clock_hand s' = clock_hand s ∧ held s' = ∅ ∧
    swap_space s' = <[i := true]> (swap_space s) ∧
    (raid_mode s = 0 → slot_holds s' 0 (Z.of_nat i) p).
Proof.
  intros Hinv Hc Hp Hsp Hf. pose proof (dr_held _ (di_ready _ (si_idle _ Hinv))) as Hh.
  destruct (my_priority_ok s Hc) as (prio & Epr & Hpr).
  assert (slot_ok (Z.of_nat i)) as Hs.
  { apply list_find_Some in Hf as (Hi%lookup_lt_Some & _ & _). unfold slot_ok, zlen in *. lia. }
  unfold swap_out. mget (cur s). erewrite bind_step by exact Epr.
  erewrite bind_step by (eapply take_slot_ok; [rewrite Hh; set_solver|exact Hf]).
  destruct (Z.eqb_spec (Z.of_nat i) (-1)); [lia|].
  set (s1 := s <| swap_space := <[i := true]> (swap_space s) |>).
  assert (swap_inv s1) as Hinv1 by (by apply swap_inv_upd_space).
  destruct (disk_swap_write_ok s1 (Z.of_nat i) pa prio p) as (s2 & ord & E2 & Hi2 & Hf2 & Hm2 & _);
    [apply Hinv1|done|done|done|apply Hinv1|].
  assert (swap_inv s2) as Hinv2 by (by eapply disk_swap_write_inv).
  assert (eframe s s2) as Hef2 by (destruct (sframe_eframe _ _ Hf2); by split). pose proof (cur_ok_frame _ _ Hef2 Hc) as Hc2.
  pose proof (dr_held _ (di_ready _ (si_idle _ Hinv2))) as Hh2.
  erewrite bind_step by exact E2.
  assert (raid_mode s = 0 → slot_holds s2 0 (Z.of_nat i) p) as Hsh.
  { intros Hm. destruct (raid0_write_holds s1 (Z.of_nat i) pa prio p) as (s2' & E' & _ & _ & _ & ?); [done..|].
    rewrite E2 in E'. by injection E' as <-. }
  pose proof Hf2 as []. simpl in *.
  destruct (cur s) as [c|] eqn:Ec.
  - destruct (Hc2 c) as (q & Hq & _); [by rewrite (ef_cur _ _ Hef2)|].
    erewrite bind_step by (apply locked_updp; [rewrite Hh2; set_solver|exact Hq]).
    eexists. split; [done|]. split_and!; simpl; try done.
    + apply swap_inv_upd_procs; [done|]. by rewrite length_insert.
    + etrans; [exact Hef2|]. split; try done. simpl. by eapply no_stats_insert.
    + intros Hm. destruct (Hsh Hm). by split.
  - erewrite bind_step by done. exists s2. by split_and!.
Qed.

(** The entry of an evicted page: its slot above the flags, not valid, marked
    as swapped. *)
Definition swap_pte (slot e : Z) : Z :=
  setb (setb (Z.shiftl slot 10) (PTE_FLAGS (setb (clear e PTE_V) PTE_SWAPPED))) PTE_SWAPPED.

Lemma swap_pte_val slot e :
  swap_pte slot e = Z.lor (Z.shiftl slot 10) (setb (clear (PTE_FLAGS e) PTE_V) PTE_SWAPPED).
Proof.
  unfold swap_pte. rewrite PTE_FLAGS_setb, PTE_FLAGS_clear by lia. unfold setb.
  rewrite <-!Z.lor_assoc. by rewrite Z.lor_diag.
Qed.
Lemma swapped_flags_bound e : 0 ≤ setb (clear (PTE_FLAGS e) PTE_V) PTE_SWAPPED < 1024.
Proof. apply (setb_bound _ _ 10); [lia| |lia]. apply clear_bound; [lia|apply PTE_FLAGS_bound]. Qed.
Lemma swap_pte_bound slot e : slot_ok slot → 0 ≤ swap_pte slot e < 2 ^ 64.
Proof. unfold slot_ok. intros. rewrite swap_pte_val. apply pte_bound; [apply swapped_flags_bound|lia]. Qed.
Lemma swap_pte_slot slot e : Z.shiftr (swap_pte slot e) 10 = slot.
Proof. rewrite swap_pte_val. apply pte_hi, swapped_flags_bound. Qed.
Lemma swap_pte_has slot e : has (swap_pte slot e) PTE_V = false ∧ has (swap_pte slot e) PTE_SWAPPED = true.
Proof.
  rewrite swap_pte_val, !pte_has by (apply swapped_flags_bound || lia). split; [|apply has_setb; lia].
  pose proof (PTE_FLAGS_bound e) as Hb. revert Hb. generalize (PTE_FLAGS e). intros f Hf.
  apply negb_true_iff. revert f Hf. apply flags_all. vm_compute. reflexivity.
Qed.

Lemma swap_inv_ext s s' : swap_inv s → mem_wf (mem s') → length (procs s') = length (procs s) →
  held s' = held s → bdev s' = bdev s → req_queue s' = req_queue s → disk_head_pos s' = disk_head_pos s →
  cur s' = cur s → slot_raid_mode s' = slot_raid_mode s → raid_mode s' = raid_mode s → swap_inv s'.
Proof.
  intros [[[]] ] Hwf Hl E1 E2 E3 E4 E5 E6 E7. split; [split; [split|..]|..]; rewrite ?E1, ?E2, ?E3, ?E4, ?E6, ?E7; try done.
  intros i Hi. rewrite E5 in Hi. apply dr_cur in Hi. rewrite lookup_lt_is_Some in *. lia.
Qed.

Lemma slot_holds_ext s s' mode slot p : slot_holds s mode slot p →
  slot_raid_mode s' = slot_raid_mode s → bdev s' = bdev s → slot_holds s' mode slot p.
Proof. intros [] E1 E2. split; rewrite ?E1, ?E2; done. Qed.

(** What the machine is like when eviction starts. *)
Record evict_ready s : Prop := {
  er_swap : swap_inv s;
  er_cur : cur_ok s;
  er_free : kmem_inv s [];
  er_slots : zlen (swap_space s) = NSWAPSPACE;
  er_frames : frames_wf s;
  er_bytes : mem_bytes (mem s);
}.

(** Marking the entry as swapped, before the page is written out. *)
Lemma mark_swapped s pte e :
  mem_wf (mem s) → mload64 (mem s) pte = Some e → 0 ≤ e < 2 ^ 64 →
  ∃ m2, mstore64 (mem s) pte (setb (clear e PTE_V) PTE_SWAPPED) = Some m2 ∧ mem_wf m2 ∧
    mload64 m2 pte = Some (setb (clear e PTE_V) PTE_SWAPPED) ∧
    ∀ A (k : M (kst D) A), (e ← load64 pte; store64 pte (clear e PTE_V) ;;
      e ← load64 pte; store64 pte (setb e PTE_SWAPPED) ;; k) s = k (s <| mem := m2 |>).
Proof.
  intros Hwf He Hr.
  assert (0 ≤ clear e PTE_V < 2 ^ 64) as Hc by (apply clear_bound; lia).
  assert (0 ≤ setb (clear e PTE_V) PTE_SWAPPED < 2 ^ 64) as Hs by (apply setb_bound; lia).
  destruct (mstore64_ok _ _ _ (clear e PTE_V) He) as [m1 E1].
  pose proof (mstore64_wf _ _ _ _ Hwf E1) as Hwf1.
  pose proof (mload64_store_eq _ _ _ _ Hwf Hc E1) as El1.
  destruct (mstore64_ok _ _ _ (setb (clear e PTE_V) PTE_SWAPPED) El1) as [m2 E2].
  exists m2. split_and!.
  - by rewrite <-(mstore64_twice _ _ _ _ _ Hwf E1).
  - by eapply mstore64_wf.
  - by eapply mload64_store_eq.
  - intros A k. erewrite bind_step by (by apply load64_ok).
    erewrite bind_step by (by apply store64_ok).
    erewrite bind_step by (by apply load64_ok).
    erewrite bind_step by (by apply store64_ok). done.
Qed.

(** The second half of [evict_victim]: the page is in its slot; record that,
    drop the frame, free the page and allocate it again. *)
Lemma evict_record n s v pte pa slot e2 f q pq p :
  held s = ∅ → kmem_inv s [] → mload64 (mem s) pte = Some e2 →
  0 ≤ v < NFRAME → znth (frames s) v = Some f → f_p f = Some q → procs s !! q = Some pq →
  alloc_page pa → frame_index pa = v → mem s !! pa = Some p → pg pte ≠ pa →
  let e3 := setb (setb (Z.shiftl slot 10) (PTE_FLAGS e2)) PTE_SWAPPED in
  ∃ m3, mstore64 (mem s) pte e3 = Some m3 ∧
  (e ← load64 pte;
   store64 pte (setb (setb (Z.shiftl slot 10) (PTE_FLAGS e)) PTE_SWAPPED) ;;
   acquire LFrametable ;;
   fs ← gets frames;
   f ← opt (znth fs v);
   setf frames (zset fs v (f <| f_in_use := false |> <| f_p := None |> <| f_va := 0 |>)) ;;
   release LFrametable ;;
   match f_p f with
   | Some q =>
       acquire (LProc q) ;;
       updp q (λ p, p <| p_pages_evicted ::= λ n, i32 (n + 1) |>
                      <| p_resident_pages ::= λ n, i32 (n - 1) |>) ;;
       release (LProc q)
   | None => mret tt
   end ;;
   kfree pa ;;
   kalloc_n (S n)) s =
  Ok (pa, s <| mem := <[pa := zrepl PGSIZE 5]> m3 |>
            <| frames := clear_frame (frames s) v |>
            <| procs := <[q := pq <| p_pages_evicted ::= λ n, i32 (n + 1) |>
                                 <| p_resident_pages ::= λ n, i32 (n - 1) |>]> (procs s) |>).
Proof.
  intros Hh Hk He Hv Hf Hfp Hq Hpa Hidx Hp Hne e3.
  pose proof (km_wf _ _ Hk) as Hwf. pose proof (km_frames _ _ Hk) as Hfl.
  destruct (mstore64_ok _ _ _ e3 He) as [m3 E3]. exists m3. split; [done|].
  pose proof (mstore64_wf _ _ _ _ Hwf E3) as Hwf3.
  assert (m3 !! pa = Some p) as Hp3 by (erewrite mstore64_other_page; [done|done|congruence]).
  erewrite bind_step by (by apply load64_ok).
  erewrite bind_step by (by apply store64_ok).
  mstep acquire_ok; [|simpl; rewrite Hh; set_solver]. mget (frames s).
  erewrite bind_step by (apply opt_ok; exact Hf). erewrite bind_step by done.
  erewrite bind_step by (apply release_ok; simpl; set_solver). rewrite Hfp.
  set (s1 := s <| mem := m3 |> <| frames := clear_frame (frames s) v |>).
  match goal with |- mbind _ _ ?X = _ => replace X with s1 end.
  2: { unfold s1, clear_frame. rewrite Hf. kst_eq. by rewrite held_restore by (rewrite Hh; set_solver). }
  erewrite bind_step by (apply locked_updp; [simpl; rewrite Hh; set_solver|exact Hq]).
  match goal with |- mbind _ _ ?X = _ => set (s2 := X) end.
  erewrite bind_step.
  2: { eapply (kfree_ok s2 pa p); [done|done|done|simpl; by rewrite clear_frame_len|simpl; rewrite Hh; set_solver..]. }
  assert (kmem_inv s2 []) as Hk2.
  { destruct Hk. split; simpl; try done; [|set_solver|by rewrite clear_frame_len].
    rewrite (chain_hd _ _ _ km_chain). constructor. }
  erewrite kalloc_ok; [|apply freed_inv; [exact Hk2|done|set_solver|by eexists|destruct Hpa as (_ & _ & ?); lia]
                       |simpl; rewrite Hh; set_solver].
  apply Ok_pair. unfold allocated, freed, s2, s1. simpl. rewrite Hidx.
  kst_eq.
  - by rewrite insert_insert_eq.
  - by rewrite (chain_hd _ _ _ (km_chain _ _ Hk)).
  - unfold clear_frame. rewrite Hf, znth_zset_eq by lia. unfold zset. rewrite list_insert_insert_eq. done.
Qed.

(** What eviction of frame [v], whose owner's entry is at [pte], has done. *)
Record evicted s (v pte e pa : Z) (p : list Z) s' (slot : Z) : Prop := {
  ev_slot : slot_ok slot ∧ znth (swap_space s) slot = Some false;
  ev_swap_space : swap_space s' = zset (swap_space s) slot true;
  ev_mem : ∃ m3, mstore64 (mem s) pte (swap_pte slot e) = Some m3 ∧
    mem s' = <[pa := zrepl PGSIZE 5]> m3;
  ev_frames : frames s' = clear_frame (frames s) v;
  ev_swap_inv : swap_inv s';
  ev_kmem : kmem_inv s' [];
  ev_frame : eframe s s';
  ev_hand : clock_hand s' = clock_hand s;
  ev_holds : raid_mode s = 0 → slot_holds s' 0 slot p;
}.

Lemma evict_victim_ok n s v pte pa e f q pq p i b :
  evict_ready s → mload64 (mem s) pte = Some e → 0 ≤ v < NFRAME →
  znth (frames s) v = Some f → f_p f = Some q → procs s !! q = Some pq →
  alloc_page pa → frame_index pa = v → mem s !! pa = Some p → pg pte ≠ pa →
  list_find (λ b, b = false) (swap_space s) = Some (i, b) →
  ∃ s', evict_victim (kalloc_n (S n)) v pte pa (s <| held := {[LFrametable]} ∪ held s |>) = Ok (pa, s') ∧
    evicted s v pte e pa p s' (Z.of_nat i).
Proof.
  intros [Hinv Hc Hk Hsl Hfw Hb] He Hv Hf Hfp Hq Hpa Hidx Hp Hne Hfind.
  pose proof (dr_held _ (di_ready _ (si_idle _ Hinv))) as Hh. pose proof (km_wf _ _ Hk) as Hwf.
  pose proof (mload64_range _ _ _ Hwf Hb He) as Her.
  pose proof Hfind as (Hi & Hbf & _)%list_find_Some. subst b.
  assert (slot_ok (Z.of_nat i)) as Hs
    by (apply lookup_lt_Some in Hi; unfold slot_ok, zlen in *; lia).
  destruct (mark_swapped (s <| held := {[LFrametable]} ∪ held s |>) pte e) as (m2 & Em2 & Hwf2 & Hl2 & Hrun); [done..|].
  simpl in Em2. unfold evict_victim. rewrite Hrun. clear Hrun.
  erewrite bind_step by (apply release_ok; simpl; set_solver).
  set (s2 := s <| mem := m2 |>). match goal with |- context [mbind _ _ ?X] => replace X with s2 end.
  2: { kst_eq. by rewrite held_restore by (rewrite Hh; set_solver). }
  assert (m2 !! pa = Some p) as Hp2 by (erewrite mstore64_other_page; [done|done|congruence]).
  destruct (swap_out_ok s2 pa p i false) as (s3 & E3 & Hinv3 & Hef3 & Hm3 & Hfl3 & Hfr3 & Hch3 & Hh3 & Hsp3 & Hho3);
    [by eapply swap_inv_ext|done..|].
  rewrite (bind_step _ _ _ _ _ E3). destruct (Z.eqb_spec (Z.of_nat i) (-1)); [lia|]. simpl negb. cbv iota.
  destruct (no_stats_lookup _ _ _ _ (ef_procs _ _ Hef3) Hq) as (pq3 & Hq3 & _).
  destruct (evict_record n s3 v pte pa (Z.of_nat i) (setb (clear e PTE_V) PTE_SWAPPED) f q pq3 p)
    as (m3 & Em3 & Erec); try done.
  { destruct Hk. split; rewrite ?Hm3, ?Hfl3, ?Hfr3; try done; [|set_solver].
    simpl. rewrite (chain_hd _ _ _ km_chain). constructor. }
  { by rewrite Hm3. } { by rewrite Hfr3. } { by rewrite Hm3. }
  eexists. split; [exact Erec|]. rewrite Hm3 in Em3. simpl in Em3.
  assert (mem_wf m3) as Hwf3 by (by eapply mstore64_wf).
  assert (mem_wf (<[pa := zrepl PGSIZE 5]> m3)) as Hwf4
    by (apply mem_wf_insert; [done|apply Hpa|by apply zlen_zrepl]).
  split; simpl.
  - split; [done|]. by rewrite znth_nat.
  - rewrite Hsp3. unfold zset. by rewrite Nat2Z.id.
  - exists m3. split; [|done]. rewrite <-Em3. symmetry. by eapply mstore64_twice.
  - by rewrite Hfr3.
  - eapply swap_inv_ext; [exact Hinv3|done|simpl; by rewrite length_insert|done..].
  - destruct Hk. split; simpl; try done; [|set_solver|by rewrite clear_frame_len, Hfr3].
    rewrite Hfl3. change (freelist s2) with (freelist s). rewrite (chain_hd _ _ _ km_chain). constructor.
  - transitivity s3; [destruct Hef3; by split|]. split; try done. simpl. by eapply no_stats_insert.
  - done.
  - intros Hm. eapply slot_holds_ext; [by apply Hho3|done..].
Qed.

(** Passing frames changes nothing eviction depends on. *)
Lemma evict_ready_pass k h s : evict_ready s → 0 ≤ h < NFRAME →
  evict_ready ((pass k s) <| clock_hand := h |>).
Proof.
  intros [Hinv Hc Hk Hsl Hfw Hb] Hh. destruct (pass_facts k s Hfw) as (Hw & _ & Ht & Hs).
  pose proof (fw_len _ Hw) as Hl. rewrite Hs. split; simpl; try done.
  - by eapply swap_inv_ext; [done|apply Hk|done..].
  - destruct Hk. by split.
  - destruct Hw as [_ _ Htt]. split; [done|done|]. intros i Hi.
    destruct (Htt i Hi) as (t & Et & Hx). exists t. split; [|done]. rewrite <-Et. unfold target. by rewrite Hs.
Qed.

Lemma target_inv s i pte pa : target s i = Some (Some (pte, pa)) →
  ∃ f q pq e, znth (frames s) i = Some f ∧ f_in_use f = true ∧ f_p f = Some q ∧ procs s !! q = Some pq ∧
    p_pagetable pq ≠ 0 ∧ f_va f < MAXVA ∧
    pwalk (mem s) (p_pagetable pq) (f_va f) = Some pte ∧ pte ≠ 0 ∧ mload64 (mem s) pte = Some e ∧
    has e PTE_V = true ∧ pa = PTE2PA e.
Proof.
  unfold target. destruct (znth (frames s) i) as [f|]; [|done]. cbn. unfold frame_target.
  destruct (f_in_use f) eqn:Eu; [|done]. destruct (f_p f) as [q|] eqn:Ep; [|done].
  destruct (procs s !! q) as [pq|] eqn:Eq; [|done]. cbn.
  destruct (decide (p_pagetable pq = 0)); [done|]. destruct (decide (f_va f < MAXVA)); [|done].
  destruct (pwalk _ _ _) as [a|] eqn:Ew; [|done]. cbn. destruct (decide (a = 0)); [done|].
  destruct (mload64 _ a) as [e|] eqn:Ee; [|done]. cbn. destruct (has e PTE_V) eqn:Ev; [|done].
  intros [= <- <-]. exists f, q, pq, e. by split_and!.
Qed.

(** The pages frames can be evicted from are there, and are not the ones that
    hold the entries. *)
Definition targets_ok s : Prop := ∀ i pte pa, target s i = Some (Some (pte, pa)) →
  is_Some (mem s !! pa) ∧ pg pte ≠ pa.

(** The clock and the eviction of what it found. *)
Lemma evict_pages_ok n s i j b :
  evict_ready s → targets_ok s → 0 ≤ i < NFRAME → can_evict s i = true →
  list_find (λ b, b = false) (swap_space s) = Some (j, b) →
  ∃ k v pte e pa p s', evict_pages_with (kalloc_n (S n)) s = Ok (pa, s') ∧ second_chance s v ∧
    target s v = Some (Some (pte, pa)) ∧ mload64 (mem s) pte = Some e ∧ mem s !! pa = Some p ∧
    evicted ((pass k s) <| clock_hand := next_hand v |>) v pte e pa p s' (Z.of_nat j).
Proof.
  intros Hr Ht Hi Hce Hfind. pose proof Hr as [Hinv _ _ _ Hfw _].
  pose proof (dr_held _ (di_ready _ (si_idle _ Hinv))) as Hh.
  destruct (clock_finds s i) as (k & v & pte & pa & Ev & Et & Hsc & Hrun); [done|rewrite Hh; set_solver|done..|].
  destruct (pass_facts k s Hfw) as (Hw & _ & Htp & Hs).
  destruct (Ht _ _ _ Et) as ([p Hp] & Hne).
  assert (0 ≤ next_hand v < NFRAME) as Hn by (apply Z.mod_pos_bound; lia).
  pose proof (evict_ready_pass k _ s Hr Hn) as Hr2. set (s2 := (pass k s) <| clock_hand := next_hand v |>) in *.
  assert (target s2 v = Some (Some (pte, pa))) as Et2 by (rewrite <-Et, <-Htp; done).
  assert (mem s2 = mem s) as Em by (unfold s2; by rewrite Hs).
  assert (held s2 = held s) as Ehe by (unfold s2; by rewrite Hs).
  assert (swap_space s2 = swap_space s) as Esp by (unfold s2; by rewrite Hs).
  destruct (target_inv _ _ _ _ Et2) as (f & q & pq & e & Hf & _ & Hfp & Hq & _ & _ & _ & _ & He & _ & _).
  destruct (fw_target _ (er_frames _ Hr2) v) as (t & Et' & Hx); [apply Hsc|].
  rewrite Et2 in Et'. injection Et' as <-. destruct (Hx _ _ eq_refl) as [Hpa Hidx].
  destruct (evict_victim_ok n s2 v pte pa e f q pq p j b) as (s' & E & Hev); try done;
    [apply Hsc|by rewrite Em|by rewrite Esp|].
  exists k, v, pte, e, pa, p, s'. rewrite Em in He. split_and!; try done.
  rewrite Hrun, <-E. f_equal. rewrite <-Ehe. done.
Qed.

(** [swap_in] of a slot that holds a page. *)
Lemma swap_in_ok s pa slot p p0 mode :
  swap_inv s → cur_ok s → slot_ok slot → slot_holds s mode slot p → mem s !! pa = Some p0 →
  ∃ s', swap_in pa slot s = Ok (tt, s') ∧ swap_inv s' ∧ eframe s s' ∧ mem s' = <[pa := p]> (mem s) ∧
    freelist s' = freelist s ∧ frames s' = frames s ∧ clock_hand s' = clock_hand s ∧
    swap_space s' = zset (swap_space s) slot false.
Proof.
  intros Hinv Hc Hs Hho Hp. pose proof (dr_held _ (di_ready _ (si_idle _ Hinv))) as Hh.
  destruct (my_priority_ok s Hc) as (prio & Epr & Hpr).
  unfold swap_in. mget (cur s). erewrite bind_step by exact Epr.
  destruct (slot_holds_read s mode slot pa prio p p0) as (s1 & E1 & Hinv1 & Hf1 & Hm1 & _); [done..|].
  pose proof (dr_held _ (di_ready _ (si_idle _ Hinv1))) as Hh1.
  assert (eframe s s1) as Hef1 by (apply sframe_eframe, dframe_sframe, Hf1).
  pose proof (cur_ok_frame _ _ Hef1 Hc) as Hc1.
  erewrite bind_step by exact E1. mstep acquire_ok; [|rewrite Hh1; set_solver].
  unfold slot_ok in Hs. assert ((0 <=? slot) && (slot <? NSWAPSPACE) = true) as -> by lia.
  erewrite bind_step by done. erewrite bind_step by (apply release_ok; simpl; set_solver).
  set (s2 := s1 <| swap_space := zset (swap_space s1) slot false |>).
  match goal with |- ∃ s', ?m ?X = _ ∧ _ => replace X with s2 end.
  2: { kst_eq. by rewrite held_restore by (rewrite Hh1; set_solver). }
  assert (swap_inv s2) as Hinv2 by (by apply swap_inv_upd_space).
  destruct Hf1. rewrite <-(ef_cur _ _ Hef1). destruct (cur s1) as [c|] eqn:Ec.
  - destruct (Hc1 c) as (q & Hq & _); [done|].
    erewrite (bind_step _ _ _ false s2).
    2: { unfold holding, gets. rewrite bool_decide_eq_false_2; [done|]. simpl. rewrite Hh1. set_solver. }
    eexists. split; [apply locked_updp; [simpl; rewrite Hh1; set_solver|exact Hq]|].
    split_and!; simpl; try done; [| |by rewrite df_swap_space].
    + apply swap_inv_upd_procs; [done|]. by rewrite length_insert.
    + transitivity s1; [done|]. split; try done. simpl. by eapply no_stats_insert.
  - exists s2. split_and!; simpl; try done; [|by rewrite df_swap_space]. transitivity s1; done.
Qed.
End victim.
