(* ===== verification/VM.v ===== *)
(** * Virtual memory

    Models [kernel/vm.c] (page tables in physical memory, mapping, unmapping,
    growing, copying and freeing user memory, page-fault allocation, and the
    copies between user and kernel, all of which may swap pages in) and
    [proc_mapstacks] of [kernel/proc.c]. A kernel buffer that a copy reads from
    or fills is the list of its bytes. Addresses stay below 2^64, so the loops
    over pages are loops over the pages of a range. *)

From stdpp Require Import base numbers list gmap strings.
From S2P Require Import Prelude Machine KState Disk Raid Kalloc Evict.
Open Scope Z_scope.
Open Scope kernel_scope.

Abbreviation UART0 := 268435456.      (* 0x10000000 *)
Abbreviation VIRTIO0 := 268439552.    (* 0x10001000 *)
Abbreviation PLIC := 201326592.       (* 0x0c000000 *)

(** [a, a + PGSIZE, ...] below [b]. *)
Definition page_steps (a b : Z) : list Z := (λ i, a + i * PGSIZE) <$> upto ((b - a + PGSIZE - 1) / PGSIZE).

Section vm.
Context {D : Type} `{!BlockStore D} {L : Layout}.
Abbreviation K := (M (kst D)).

Definition ismapped (pagetable va : Z) : K Z :=
  pte ← walk kalloc pagetable va false;
  if pte =? 0 then mret 0 else
  e ← load64 pte; mret (if has e PTE_V then 1 else 0).

Definition walkaddr (pagetable va : Z) : K Z :=
  if MAXVA <=? va then mret 0 else
  pte ← walk kalloc pagetable va false;
  if pte =? 0 then mret 0 else
  e ← load64 pte;
  ok ← (if has e PTE_V then mret true
        else if has e PTE_SWAPPED then
          mem ← kalloc;
          if mem =? 0 then mret false else
          e ← load64 pte;
          swap_in mem (i32 (Z.shiftr e 10)) ;;
          e ← load64 pte;
          store64 pte (setb (setb (PA2PTE mem) PTE_V) (Z.land e 1023)) ;;
          e ← load64 pte;
          store64 pte (clear e PTE_SWAPPED) ;;
          mret true
        else mret false);
  if negb ok then mret 0 else
  e ← load64 pte;
  if has e PTE_U then mret (PTE2PA e) else mret 0.

(** One page of [mappages]: [Some (-1)] ends the loop with an error. *)
Definition mappage1 (pagetable va pa perm i : Z) : K (option Z) :=
  pte ← walk kalloc pagetable (va + i * PGSIZE) true;
  if pte =? 0 then mret (Some (-1)) else
  e ← load64 pte;
  if has e PTE_V then panic "mappages: remap" else
  store64 pte (setb (setb (PA2PTE (pa + i * PGSIZE)) perm) PTE_V) ;;
  mret None.

Definition mappages (pagetable va size pa perm : Z) : K Z :=
  if negb (va mod PGSIZE =? 0) then panic "mappages: va not aligned" else
  if negb (size mod PGSIZE =? 0) then panic "mappages: size not aligned" else
  if size =? 0 then panic "mappages: size" else
  r ← for_find (mappage1 pagetable va pa perm) (upto (size / PGSIZE));
  mret (default 0 r).

Definition kvmmap (kpgtbl va pa sz perm : Z) : K unit :=
  r ← mappages kpgtbl va sz pa perm;
  if negb (r =? 0) then panic "kvmmap" else mret tt.

(** [proc.c]: a page for each process's kernel stack. *)
Definition proc_mapstacks (kpgtbl : Z) : K unit :=
  for_each (λ i,
    pa ← kalloc;
    if pa =? 0 then panic "kalloc" else
    kvmmap kpgtbl (KSTACK i) pa PGSIZE (setb PTE_R PTE_W)) (upto NPROC).

Definition kvmmake : K Z :=
  kpgtbl ← kalloc;
  memset_page kpgtbl 0 ;;
  kvmmap kpgtbl UART0 UART0 PGSIZE (setb PTE_R PTE_W) ;;
  kvmmap kpgtbl VIRTIO0 VIRTIO0 PGSIZE (setb PTE_R PTE_W) ;;
  kvmmap kpgtbl PLIC PLIC 67108864 (setb PTE_R PTE_W) ;;
  kvmmap kpgtbl KERNBASE KERNBASE (etext - KERNBASE) (setb PTE_R PTE_X) ;;
  kvmmap kpgtbl etext etext (PHYSTOP - etext) (setb PTE_R PTE_W) ;;
  kvmmap kpgtbl TRAMPOLINE trampoline PGSIZE (setb PTE_R PTE_X) ;;
  proc_mapstacks kpgtbl ;;
  mret kpgtbl.

Definition uvmcreate : K Z :=
  pagetable ← kalloc;
  if pagetable =? 0 then mret 0 else
  memset_page pagetable 0 ;; mret pagetable.

(** One page of [uvmunmap]. *)
Definition uvmunmap1 (pagetable : Z) (do_free : bool) (a : Z) : K unit :=
  pte ← walk kalloc pagetable a false;
  if pte =? 0 then mret tt else
  e ← load64 pte;
  if has e PTE_V then
    when do_free (kfree (PTE2PA e)) ;;
    store64 pte 0
  else
    when (has e PTE_SWAPPED) (swap_free (i32 (Z.shiftr e 10)) ;; store64 pte 0).

Definition uvmunmap (pagetable va npages : Z) (do_free : bool) : K unit :=
  if negb (va mod PGSIZE =? 0) then panic "uvmunmap: not aligned" else
  for_each (λ i, uvmunmap1 pagetable do_free (va + i * PGSIZE)) (upto npages).

Definition uvmdealloc (pagetable oldsz newsz : Z) : K Z :=
  if oldsz <=? newsz then mret oldsz else
  when (PGROUNDUP newsz <? PGROUNDUP oldsz)
    (uvmunmap pagetable (PGROUNDUP newsz) (i32 ((PGROUNDUP oldsz - PGROUNDUP newsz) / PGSIZE)) true) ;;
  mret newsz.

(** One page of [uvmalloc]; on failure everything allocated so far goes back. *)
Definition uvmalloc1 (pagetable oldsz xperm a : Z) : K (option Z) :=
  mem ← kalloc;
  if mem =? 0 then uvmdealloc pagetable a oldsz ;; mret (Some 0) else
  memset_page mem 0 ;;
  r ← mappages pagetable a PGSIZE mem (setb (setb PTE_R PTE_U) xperm);
  if negb (r =? 0) then kfree mem ;; uvmdealloc pagetable a oldsz ;; mret (Some 0) else
  p ← myproc;
  track_frame p a mem ;;
  mret None.

Definition uvmalloc (pagetable oldsz newsz xperm : Z) : K Z :=
  if newsz <? oldsz then mret oldsz else
  let oldsz := PGROUNDUP oldsz in
  r ← for_find (uvmalloc1 pagetable oldsz xperm) (page_steps oldsz newsz);
  mret (default newsz r).

(** Page tables have three levels, so three nested calls are enough. *)
Fixpoint freewalk (depth : nat) (pagetable : Z) : K unit :=
  match depth with
  | O => λ _, Diverge
  | S depth =>
      for_each (λ i,
        pte ← load64 (pagetable + 8 * i);
        if has pte PTE_V && negb (has pte (setb (setb PTE_R PTE_W) PTE_X)) then
          freewalk depth (PTE2PA pte) ;;
          store64 (pagetable + 8 * i) 0
        else if has pte PTE_V then panic "freewalk: leaf"
        else mret tt) (upto 512) ;;
      kfree pagetable
  end.

Definition uvmfree (pagetable sz : Z) : K unit :=
  when (0 <? sz) (uvmunmap pagetable 0 (PGROUNDUP sz / PGSIZE) true) ;;
  freewalk 3 pagetable.

(** One page of [uvmcopy], [err] included. *)
Definition uvmcopy1 (old new : Z) (np : option nat) (i : Z) : K (option Z) :=
  let err := uvmunmap new 0 (i / PGSIZE) true ;; mret (Some (-1)) in
  pte ← walk kalloc old i false;
  if pte =? 0 then mret None else
  e ← load64 pte;
  if negb (has e PTE_V) then
    if has e PTE_SWAPPED then
      let swap_idx := i32 (Z.shiftr e 10) in
      let flags := PTE_FLAGS e in
      mem ← kalloc;
      if mem =? 0 then err else
      swap_in mem swap_idx ;;
      let flags := clear (setb flags PTE_V) PTE_SWAPPED in
      r ← mappages new i PGSIZE mem flags;
      if negb (r =? 0) then kfree mem ;; err else
      track_frame np i mem ;; mret None
    else mret None
  else
    let pa := PTE2PA e in
    let flags := PTE_FLAGS e in
    mem ← kalloc;
    if mem =? 0 then err else
    memmove_page mem pa ;;
    r ← mappages new i PGSIZE mem flags;
    if negb (r =? 0) then kfree mem ;; err else
    track_frame np i mem ;; mret None.

Definition uvmcopy (old new sz : Z) (np : option nat) : K Z :=
  r ← for_find (uvmcopy1 old new np) (page_steps 0 sz);
  mret (default 0 r).

Definition uvmclear (pagetable va : Z) : K unit :=
  pte ← walk kalloc pagetable va false;
  if pte =? 0 then panic "uvmclear" else
  e ← load64 pte; store64 pte (clear e PTE_U).

Definition vmfault (pagetable va : Z) : K Z :=
  p ← myproc;
  i ← opt p;
  q ← getp i;
  if p_sz q <=? va then mret 0 else
  let va := PGROUNDDOWN va in
  m ← ismapped pagetable va;
  if negb (m =? 0) then mret 0 else
  mem ← kalloc;
  mem ← (if mem =? 0 then evict_pages else mret mem);
  if mem =? 0 then mret 0 else
  memset_page mem 0 ;;
  r ← mappages pagetable va PGSIZE mem (setb (setb PTE_W PTE_U) PTE_R);
  if negb (r =? 0) then kfree mem ;; mret 0 else
  track_frame (Some i) va mem ;;
  mret mem.

(** The page to copy to or from: mapped, swapped in or allocated; 0 if none. *)
Definition user_page (pagetable va0 : Z) : K Z :=
  pa0 ← walkaddr pagetable va0;
  if pa0 =? 0 then vmfault pagetable va0 else mret pa0.

(** Turns enough for [len] bytes: a page each, and one for a piece at each end. *)
Definition copy_fuel (len : Z) : nat := Z.to_nat (len / PGSIZE + 3).

(** [copyout]: the loop state is the bytes left and where they go. *)
Definition copyout_step (pagetable : Z) (x : list Z * Z) : K ((list Z * Z) + Z) :=
  let '(src, dstva) := x in
  if zlen src =? 0 then mret (inr 0) else
  let va0 := PGROUNDDOWN dstva in
  if MAXVA <=? va0 then mret (inr (-1)) else
  pa0 ← user_page pagetable va0;
  if pa0 =? 0 then mret (inr (-1)) else
  pte ← walk kalloc pagetable va0 false;
  e ← load64 pte;
  if negb (has e PTE_W) then mret (inr (-1)) else
  let n := Z.min (PGSIZE - (dstva - va0)) (zlen src) in
  write_bytes (pa0 + (dstva - va0)) (take (Z.to_nat n) src) ;;
  mret (inl (drop (Z.to_nat n) src, va0 + PGSIZE)).
Definition copyout (pagetable dstva : Z) (src : list Z) : K Z :=
  loop (copy_fuel (zlen src)) (copyout_step pagetable) (src, dstva).

(** [copyin]: the bytes read so far, what is left to read and from where; the
    result is what [dst] holds and the return value. *)
Definition copyin_step (pagetable : Z) (x : list Z * Z * Z) : K ((list Z * Z * Z) + (list Z * Z)) :=
  let '(dst, srcva, len) := x in
  if len =? 0 then mret (inr (dst, 0)) else
  let va0 := PGROUNDDOWN srcva in
  pa0 ← user_page pagetable va0;
  if pa0 =? 0 then mret (inr (dst, -1)) else
  let n := Z.min (PGSIZE - (srcva - va0)) len in
  bs ← read_bytes (pa0 + (srcva - va0)) n;
  mret (inl (dst ++ bs, va0 + PGSIZE, len - n)).
Definition copyin (pagetable srcva len : Z) : K (list Z * Z) :=
  loop (copy_fuel len) (copyin_step pagetable) ([], srcva, len).

(** The bytes of a string up to and including its first NUL, and whether there
    was one. *)
Fixpoint take_string (bs : list Z) : list Z * bool :=
  match bs with
  | [] => ([], false)
  | b :: bs => if b =? 0 then ([0], true) else let '(r, z) := take_string bs in (b :: r, z)
  end.
Definition copyinstr_step (pagetable : Z) (x : list Z * Z * Z) : K ((list Z * Z * Z) + (list Z * Z)) :=
  let '(dst, srcva, max) := x in
  if max =? 0 then mret (inr (dst, -1)) else
  let va0 := PGROUNDDOWN srcva in
  pa0 ← walkaddr pagetable va0;
  if pa0 =? 0 then mret (inr (dst, -1)) else
  let n := Z.min (PGSIZE - (srcva - va0)) max in
  bs ← read_bytes (pa0 + (srcva - va0)) n;
  let '(str, got_null) := take_string bs in
  if got_null then mret (inr (dst ++ str, 0))
  else mret (inl (dst ++ str, va0 + PGSIZE, max - n)).
Definition copyinstr (pagetable srcva max : Z) : K (list Z * Z) :=
  loop (copy_fuel max) (copyinstr_step pagetable) ([], srcva, max).
End vm.
#[global] Arguments kalloc : simpl never.
#[global] Arguments evict_pages : simpl never.
#[global] Arguments mappages : simpl never.
#[global] Arguments uvmunmap : simpl never.
#[global] Arguments walkaddr : simpl never.
#[global] Arguments copyout : simpl never.
#[global] Arguments copyin : simpl never.
#[global] Arguments copyinstr : simpl never.
