(* ===== verification/VMProps.v ===== *)
(** * User memory

    What the copies between kernel and user memory of [kernel/vm.c] do where the
    user pages are mapped, down to the bytes: [copyin] reads them, [copyout]
    writes them and nothing else, each in at most one turn per page. *)

From stdpp Require Import base numbers list gmap strings.
From S2P Require Import Prelude Machine KState Disk Raid Kalloc Evict VM.
Open Scope Z_scope.
Open Scope kernel_scope.

(** ** Bytes of memory *)

Definition mbyte (m : phys) (a : Z) : option Z := p ← m !! pg a; znth p (pgoff a).

Lemma pg_split a b : pg a = pg b → a - b = pgoff a - pgoff b.
Proof. unfold pg, pgoff. lia. Qed.
Lemma pg_off a k : 0 ≤ pgoff a + k < PGSIZE → pg (a + k) = pg a ∧ pgoff (a + k) = pgoff a + k.
Proof.
  intros. replace (a + k) with (pg a + (pgoff a + k)) by (rewrite (pg_pgoff a) at 3; lia).
  pose proof (pg_aligned a). by rewrite pg_add, pgoff_add.
Qed.

Lemma mread_bytes m a n p : m !! pg a = Some p → 0 ≤ n → pgoff a + n ≤ PGSIZE → zlen p = PGSIZE →
  ∃ bs, mread m a n = Some bs ∧ zlen bs = n ∧ ∀ k, 0 ≤ k < n → znth bs k = mbyte m (a + k).
Proof.
  intros Hp Hn Hb Hl. pose proof (pgoff_bound a). exists (sub (pgoff a) n p).
  split; [by apply mread_Some|]. split; [apply zlen_sub; lia|]. intros k Hk.
  destruct (pg_off a k) as [E1 E2]; [lia|]. unfold mbyte. rewrite E1, E2, Hp. apply znth_sub; lia.
Qed.

Lemma mwrite_bytes m a bs m' : mem_wf m → mwrite m a bs = Some m' →
  ∀ x, mbyte m' x = if (a <=? x) && (x <? a + zlen bs) then znth bs (x - a) else mbyte m x.
Proof.
  unfold mwrite. intros Hwf. destruct (Z.leb_spec (pgoff a + zlen bs) PGSIZE); [|done].
  destruct (m !! pg a) as [p|] eqn:E; [|done]. intros [= <-] x. unfold mbyte.
  pose proof (pgoff_bound a). pose proof (pgoff_bound x). pose proof (mem_wf_len _ _ _ Hwf E) as Hl.
  destruct (decide (pg x = pg a)) as [Ex|Hne].
  - pose proof (pg_split _ _ Ex). rewrite Ex, lookup_insert_eq, E. simpl. rewrite znth_splice by lia.
    destruct (Z.leb_spec (pgoff a) (pgoff x)), (Z.leb_spec a x); try lia; [|done]. simpl.
    destruct (Z.ltb_spec (pgoff x) (pgoff a + zlen bs)), (Z.ltb_spec x (a + zlen bs)); try lia; [|done].
    f_equal. lia.
  - rewrite lookup_insert_ne by done.
    destruct (Z.leb_spec a x), (Z.ltb_spec x (a + zlen bs)); try done. simpl. exfalso. apply Hne.
    destruct (pg_off a (x - a)) as [E1 _]; [lia|]. by replace (a + (x - a)) with x in E1 by lia.
Qed.

(** ** Mapped pages *)

(** The page [pa] is mapped for the user at [va0], writable if [w]. *)
Record maps (m : phys) (pt va0 : Z) (w : bool) (pa : Z) : Prop := {
  mp_walk : ∃ pte e, pwalk m pt va0 = Some pte ∧ pte ≠ 0 ∧ mload64 m pte = Some e ∧
    has e PTE_V = true ∧ has e PTE_U = true ∧ (w = true → has e PTE_W = true) ∧ PTE2PA e = pa;
  mp_nonzero : pa ≠ 0;
  mp_page : is_Some (m !! pa);
}.

(** Every word the walk for [va0] reads lies outside page [pa]. *)
Definition apart (m : phys) (pt va0 pa : Z) : Prop :=
  ∀ a, a ∈ walk_words m pt va0 ∨ pwalk m pt va0 = Some a → pg a ≠ pa.

Lemma walk_words_same m m' pt va : (∀ a, a ∈ walk_words m pt va → mload64 m' a = mload64 m a) →
  walk_words m' pt va = walk_words m pt va.
Proof.
  intros H. unfold walk_words. f_equal. unfold plevel. rewrite H; [done|]. unfold walk_words. set_solver.
Qed.

Lemma maps_write m pt va0 w pa x p : maps m pt va0 w pa → apart m pt va0 x →
  maps (<[x := p]> m) pt va0 w pa ∧ ∀ y, apart m pt va0 y → apart (<[x := p]> m) pt va0 y.
Proof.
  intros [(pte & e & H1 & H2 & H3 & H4) Hz Hp] Hap.
  assert (∀ a, pg a ≠ x → mload64 (<[x := p]> m) a = mload64 m a) as Hl.
  { intros a Ha. apply mload64_page. by rewrite lookup_insert_ne. }
  assert (pwalk (<[x := p]> m) pt va0 = pwalk m pt va0) as Ew.
  { apply pwalk_same. intros a Ha. apply Hl, Hap. by left. }
  assert (walk_words (<[x := p]> m) pt va0 = walk_words m pt va0) as Eww.
  { apply walk_words_same. intros a Ha. apply Hl, Hap. by left. }
  split.
  - split; [|done|].
    + exists pte, e. rewrite Ew, Hl by (apply Hap; by right). done.
    + rewrite lookup_insert_is_Some. destruct (decide (x = pa)); auto.
  - intros y Hy a. rewrite Eww, Ew. apply Hy.
Qed.

(** [len] bytes of user memory from [va] on, page [T va0] mapped at [va0]; the
    pages are different, and none of them holds a table used to find them. *)
Record user_area (m : phys) (pt va len : Z) (w : bool) (T : Z → Z) : Prop := {
  ua_range : 0 ≤ va ∧ va + len ≤ MAXVA;
  ua_maps x : va ≤ x < va + len → maps m pt (pg x) w (T (pg x));
  ua_apart x y : va ≤ x < va + len → va ≤ y < va + len → apart m pt (pg x) (T (pg y));
  ua_inj x y : va ≤ x < va + len → va ≤ y < va + len → T (pg x) = T (pg y) → pg x = pg y;
}.

(** Where the byte at user address [x] is. *)
Definition user_addr (T : Z → Z) (x : Z) : Z := T (pg x) + pgoff x.

Lemma user_area_sub m pt va len w T n len' : user_area m pt va len w T → 0 ≤ n → 0 ≤ len' → n + len' ≤ len →
  user_area m pt (va + n) len' w T.
Proof.
  intros [H1 H2 H3 H4] Hn Hl' Hl. split; [lia|intros; apply H2; lia|intros; apply H3; lia|intros ????; apply H4; lia].
Qed.

Lemma user_area_write m pt va len w T x p : user_area m pt va len w T → va ≤ x < va + len →
  user_area (<[T (pg x) := p]> m) pt va len w T.
Proof.
  intros [H1 H2 H3 H4] Hx. split; [done| | |done].
  - intros y Hy. apply maps_write; auto.
  - intros y z Hy Hz. eapply (proj2 (maps_write _ _ _ _ _ (T (pg x)) p (H2 y Hy) (H3 y x Hy Hx))). auto.
Qed.

Section copies.
Context {D : Type} `{!BlockStore D} {L : Layout}.
Implicit Types s : kst D.

Lemma walkaddr_ok s pt va0 w pa : maps (mem s) pt va0 w pa → va0 < MAXVA → walkaddr pt va0 s = Ok (pa, s).
Proof.
  intros [(pte & e & H1 & H2 & H3 & H4 & H5 & _ & H6) Hz _] Hva. unfold walkaddr.
  destruct (Z.leb_spec MAXVA va0); [lia|]. erewrite bind_step by (by apply walk_pure).
  destruct (Z.eqb_spec pte 0); [done|]. erewrite bind_step by (by apply load64_ok). rewrite H4.
  erewrite bind_step by reflexivity. cbn [negb]. erewrite bind_step by (by apply load64_ok). rewrite H5, H6. done.
Qed.
Lemma user_page_ok s pt va0 w pa : maps (mem s) pt va0 w pa → va0 < MAXVA → user_page pt va0 s = Ok (pa, s).
Proof.
  intros Hm Hva. unfold user_page. erewrite bind_step by (by eapply walkaddr_ok).
  by destruct (Z.eqb_spec pa 0); [destruct (mp_nonzero _ _ _ _ _ Hm)|].
Qed.

(** Turns a copy of [len] bytes at [va] takes. *)
Definition turns (va len : Z) : Z := (pgoff va + len + PGSIZE - 1) / PGSIZE + 1.

Lemma user_addr_near T x k : 0 ≤ pgoff x + k < PGSIZE → user_addr T (x + k) = user_addr T x + k.
Proof. intros H. unfold user_addr. destruct (pg_off x k H) as [-> ->]. lia. Qed.

(** A piece of a copy: as far as the end of the page. *)
Lemma piece_bounds va len : 0 < len → let n := Z.min (PGSIZE - pgoff va) len in
  0 < n ≤ len ∧ pgoff va + n ≤ PGSIZE ∧ (n < len → va + n = pg va + PGSIZE ∧ turns (va + n) (len - n) = turns va len - 1) ∧ 2 ≤ turns va len.
Proof.
  intros Hl n. pose proof (pgoff_bound va). unfold n, turns.
  destruct (Z.min_spec (PGSIZE - pgoff va) len) as [[? ->]|[? ->]]; [|split_and!; try lia; dlia].
  assert (va + (PGSIZE - pgoff va) = pg va + PGSIZE) as E by (rewrite (pg_pgoff va) at 1; lia).
  split_and!; try lia; [|dlia]. intros _. split; [done|]. rewrite E.
  assert (pgoff (pg va + PGSIZE) = 0) as ->; [|dlia].
  unfold pgoff at 1. rewrite Z.add_mod, pg_aligned by lia. done.
Qed.

(** Where a piece lies in memory. *)
Lemma piece_page s pt va len w T n : mem_wf (mem s) → user_area (mem s) pt va len w T → 0 < n ≤ len →
  let a := user_addr T va in
  pg va < MAXVA ∧ maps (mem s) pt (pg va) w (T (pg va)) ∧ ∃ p, mem s !! pg a = Some p ∧ zlen p = PGSIZE ∧
    pg a = T (pg va) ∧ pgoff a = pgoff va.
Proof.
  intros Hwf Hua Hn a. pose proof (ua_range _ _ _ _ _ _ Hua) as [Hr1 Hr2].
  pose proof (ua_maps _ _ _ _ _ _ Hua va ltac:(lia)) as Hm. pose proof (pgoff_bound va).
  destruct (mp_page _ _ _ _ _ Hm) as [p Hp]. pose proof (mem_wf_aligned _ _ _ Hwf Hp) as Hal.
  unfold a, user_addr. split; [rewrite (pg_pgoff va) in Hr2; lia|]. split; [done|].
  rewrite pg_add, pgoff_add by done. exists p. split_and!; try done. by eapply mem_wf_len.
Qed.

Lemma copyin_piece pt w T dst srcva len s : 0 < len → mem_wf (mem s) → user_area (mem s) pt srcva len w T →
  let n := Z.min (PGSIZE - pgoff srcva) len in
  ∃ bs, copyin_step pt (dst, srcva, len) s = Ok (inl (dst ++ bs, pg srcva + PGSIZE, len - n), s) ∧ zlen bs = n ∧
    ∀ k, 0 ≤ k < n → znth bs k = mbyte (mem s) (user_addr T (srcva + k)).
Proof.
  intros Hl Hwf Hua n. destruct (piece_bounds srcva len) as (Hn & Hnp & _ & _); [lia|]. fold n in Hn, Hnp.
  destruct (piece_page s pt srcva len w T n Hwf Hua Hn) as (Hva & Hm & p & Hp & Hpl & Ea1 & Ea2). pose proof (pgoff_bound srcva).
  destruct (mread_bytes (mem s) (user_addr T srcva) n p) as (bs & Eb & Hbl & Hbs); [done|lia|lia|done|].
  exists bs. split_and!; [|done|intros k Hk; rewrite Hbs by done; f_equal; symmetry; apply user_addr_near; lia].
  unfold copyin_step. destruct (Z.eqb_spec len 0); [lia|]. cbv zeta. rewrite PGROUNDDOWN_pg.
  replace (srcva - pg srcva) with (pgoff srcva) by (rewrite (pg_pgoff srcva) at 2; lia). fold n.
  erewrite bind_step by (by eapply user_page_ok).
  destruct (Z.eqb_spec (T (pg srcva)) 0); [by destruct (mp_nonzero _ _ _ _ _ Hm)|].
  erewrite bind_step by (by apply read_bytes_ok). done.
Qed.

Lemma copyin_loop pt w T fuel dst srcva len s : 0 ≤ len → mem_wf (mem s) → user_area (mem s) pt srcva len w T →
  turns srcva len ≤ Z.of_nat fuel →
  ∃ bs, loop fuel (copyin_step pt) (dst, srcva, len) s = Ok ((dst ++ bs, 0), s) ∧ zlen bs = len ∧
    ∀ k, 0 ≤ k < len → znth bs k = mbyte (mem s) (user_addr T (srcva + k)).
Proof.
  intros Hl Hwf. revert dst srcva len Hl. induction fuel as [|fuel IH]; intros dst srcva len Hl Hua Hf.
  { pose proof (pgoff_bound srcva). unfold turns in Hf. dlia. }
  destruct (decide (len = 0)) as [->|Hlen]; [exists []; rewrite app_nil_r; split_and!; [done|done|lia]|].
  destruct (piece_bounds srcva len) as (Hn & Hnp & Hnext & Ht); [lia|].
  destruct (copyin_piece pt w T dst srcva len s) as (bs & Es & Hbl & Hbs); [lia|done|done|].
  set (n := Z.min (PGSIZE - pgoff srcva) len) in *. cbn [loop]. rewrite (bind_step _ _ _ _ _ Es).
  destruct (decide (n < len)) as [Hlt|Hge].
  - destruct (Hnext Hlt) as [Epg Eturn]. rewrite <-Epg.
    destruct (IH (dst ++ bs) (srcva + n) (len - n)) as (bs2 & E2 & Hl2 & Hb2); [lia|eapply user_area_sub; [done|lia..]|lia|].
    exists (bs ++ bs2). rewrite E2, app_assoc. split; [done|]. rewrite zlen_app. split; [lia|]. intros k Hk.
    rewrite znth_app, Hbl. destruct (Z.ltb_spec k n); [apply Hbs; lia|]. rewrite Hb2 by lia. do 2 f_equal. lia.
  - assert (n = len) as En by lia. destruct fuel as [|fuel]; [lia|]. exists bs. rewrite En in Hbs, Hbl.
    split; [|done]. rewrite En, Z.sub_diag. done.
Qed.

Lemma copy_fuel_turns va len : 0 ≤ len → turns va len ≤ Z.of_nat (copy_fuel len).
Proof. intros. pose proof (pgoff_bound va). unfold copy_fuel, turns. dlia. Qed.

(** Reading mapped user memory: the bytes that are there, and nothing changes. *)
Lemma copyin_ok pt w T srcva len s : 0 ≤ len → mem_wf (mem s) → user_area (mem s) pt srcva len w T →
  ∃ bs, copyin pt srcva len s = Ok ((bs, 0), s) ∧ zlen bs = len ∧
    ∀ k, 0 ≤ k < len → znth bs k = mbyte (mem s) (user_addr T (srcva + k)).
Proof. intros. apply (copyin_loop pt w T _ []); [done..|by apply copy_fuel_turns]. Qed.

(** ** Writing *)

(** [m'] is [m] with the bytes [src] at user address [va], and no other change. *)
Record wrote_user (T : Z → Z) (va : Z) (src : list Z) (m m' : phys) : Prop := {
  wu_bytes k : 0 ≤ k < zlen src → mbyte m' (user_addr T (va + k)) = znth src k;
  wu_other a : (∀ k, 0 ≤ k < zlen src → a ≠ user_addr T (va + k)) → mbyte m' a = mbyte m a;
}.

Lemma user_area_in m pt A len w T va n : user_area m pt A len w T → A ≤ va → va + n ≤ A + len → 0 ≤ n →
  user_area m pt va n w T.
Proof. intros Hua ? ? ?. replace va with (A + (va - A)) by lia. apply (user_area_sub _ _ _ len); [done|lia..]. Qed.

(** [copyout] may be to a part of a larger area, from [A] on. *)
Lemma copyout_piece pt T A len src dstva s : 0 < zlen src → mem_wf (mem s) → user_area (mem s) pt A len true T →
  A ≤ dstva → dstva + zlen src ≤ A + len →
  let n := Z.min (PGSIZE - pgoff dstva) (zlen src) in
  ∃ m', copyout_step pt (src, dstva) s = Ok (inl (drop (Z.to_nat n) src, pg dstva + PGSIZE), s <| mem := m' |>) ∧
    mem_wf m' ∧ user_area m' pt A len true T ∧
    wrote_user T dstva (take (Z.to_nat n) src) (mem s) m'.
Proof.
  intros Hl Hwf HuaA HA1 HA2 n. pose proof (user_area_in _ _ _ _ _ _ dstva (zlen src) HuaA HA1 HA2 ltac:(lia)) as Hua. destruct (piece_bounds dstva (zlen src)) as (Hn & Hnp & _ & _); [lia|]. fold n in Hn, Hnp.
  destruct (piece_page s pt dstva _ true T n Hwf Hua Hn) as (Hva & Hm & p & Hp & Hpl & Ea1 & Ea2). pose proof (pgoff_bound dstva).
  set (bs := take (Z.to_nat n) src). assert (zlen bs = n) as Hbl by (apply zlen_take; lia).
  assert (mwrite (mem s) (user_addr T dstva) bs = Some (<[pg (user_addr T dstva) := splice (pgoff (user_addr T dstva)) bs p]> (mem s))) as Ew
    by (apply mwrite_Some; [done|lia]).
  set (m' := <[pg (user_addr T dstva) := splice (pgoff (user_addr T dstva)) bs p]> (mem s)) in *.
  exists m'. split_and!.
  - unfold copyout_step. destruct (Z.eqb_spec (zlen src) 0); [lia|]. cbv zeta. rewrite PGROUNDDOWN_pg.
    replace (dstva - pg dstva) with (pgoff dstva) by (rewrite (pg_pgoff dstva) at 2; lia). fold n.
    destruct (Z.leb_spec MAXVA (pg dstva)); [lia|]. erewrite bind_step by (by eapply user_page_ok).
    destruct (Z.eqb_spec (T (pg dstva)) 0); [by destruct (mp_nonzero _ _ _ _ _ Hm)|].
    destruct Hm as [(pte & e & H1 & H2 & H3 & H4 & H5 & H6 & H7) _ _].
    erewrite bind_step by (by apply walk_pure). erewrite bind_step by (by apply load64_ok). rewrite H6 by done. cbn [negb].
    erewrite bind_step by (by apply write_bytes_ok). done.
  - by eapply mwrite_wf.
  - unfold m'. rewrite Ea1. apply user_area_write; [done|lia].
  - pose proof (mwrite_bytes _ _ _ _ Hwf Ew) as Hb. split; intros x Hx; rewrite Hb, Hbl.
    + rewrite Hbl in Hx. rewrite user_addr_near by lia.
      destruct (Z.leb_spec (user_addr T dstva) (user_addr T dstva + x)), (Z.ltb_spec (user_addr T dstva + x) (user_addr T dstva + n)); try lia.
      simpl. f_equal. lia.
    + rewrite Hbl in Hx. destruct (Z.leb_spec (user_addr T dstva) x), (Z.ltb_spec x (user_addr T dstva + n)); try done. exfalso.
      apply (Hx (x - user_addr T dstva)); [lia|]. rewrite user_addr_near by lia. lia.
Qed.

(** Different user addresses of an area are different bytes. *)
Lemma user_addr_inj m pt va len w T x y : mem_wf m → user_area m pt va len w T → va ≤ x < va + len → va ≤ y < va + len →
  user_addr T x = user_addr T y → x = y.
Proof.
  intros Hwf Hua Hx Hy E. unfold user_addr in E. pose proof (pgoff_bound x). pose proof (pgoff_bound y).
  destruct (mp_page _ _ _ _ _ (ua_maps _ _ _ _ _ _ Hua x Hx)) as [p Hp]. destruct (mp_page _ _ _ _ _ (ua_maps _ _ _ _ _ _ Hua y Hy)) as [q Hq].
  pose proof (mem_wf_aligned _ _ _ Hwf Hp) as A1. pose proof (mem_wf_aligned _ _ _ Hwf Hq) as A2.
  assert (T (pg x) = T (pg y)) as ET by (rewrite <-(pg_add _ _ A1 (pgoff_bound x)), E; by apply pg_add).
  pose proof (ua_inj _ _ _ _ _ _ Hua x y Hx Hy ET) as Ep. rewrite (pg_pgoff x), (pg_pgoff y), Ep. lia.
Qed.

Lemma wrote_user_app T va bs1 bs2 m m1 m2 :
  (∀ j k, 0 ≤ j < zlen (bs1 ++ bs2) → 0 ≤ k < zlen (bs1 ++ bs2) → user_addr T (va + j) = user_addr T (va + k) → j = k) →
  wrote_user T va bs1 m m1 → wrote_user T (va + zlen bs1) bs2 m1 m2 → wrote_user T va (bs1 ++ bs2) m m2.
Proof.
  intros Hinj [A1 A2] [B1 B2]. pose proof (zlen_nonneg bs1). pose proof (zlen_nonneg bs2). rewrite zlen_app in Hinj. split.
  - intros k Hk. rewrite zlen_app in Hk. rewrite znth_app. destruct (Z.ltb_spec k (zlen bs1)).
    + rewrite B2; [apply A1; lia|]. intros j Hj E.
      replace (va + zlen bs1 + j) with (va + (zlen bs1 + j)) in E by lia. apply Hinj in E; lia.
    + rewrite <-B1 by lia. do 2 f_equal. lia.
  - intros a Ha. rewrite zlen_app in Ha. rewrite B2; [apply A2; intros k Hk; apply Ha; lia|].
    intros k Hk. replace (va + zlen bs1 + k) with (va + (zlen bs1 + k)) by lia. apply Ha. lia.
Qed.

Lemma copyout_loop pt T A len fuel src dstva s : mem_wf (mem s) → user_area (mem s) pt A len true T →
  A ≤ dstva → dstva + zlen src ≤ A + len → turns dstva (zlen src) ≤ Z.of_nat fuel →
  ∃ m', loop fuel (copyout_step pt) (src, dstva) s = Ok (0, s <| mem := m' |>) ∧ mem_wf m' ∧
    user_area m' pt A len true T ∧ wrote_user T dstva src (mem s) m'.
Proof.
  revert src dstva s. induction fuel as [|fuel IH]; intros src dstva s Hwf Hua HA1 HA2 Hf; pose proof (zlen_nonneg src).
  { pose proof (pgoff_bound dstva). unfold turns in Hf. dlia. }
  destruct (decide (zlen src = 0)) as [El|Hlen].
  { exists (mem s). split_and!; [|done|done|by split; intros; [lia|]].
assert (copyout_step pt (src, dstva) s = Ok (inr 0, s)) as E by (unfold copyout_step; by rewrite El).
    cbn [loop]. rewrite (bind_step _ _ _ _ _ E). apply Ok_pair. by destruct s. }
  destruct (piece_bounds dstva (zlen src)) as (Hn & Hnp & Hnext & Ht); [lia|].
  destruct (copyout_piece pt T A len src dstva s) as (m1 & Es & Hwf1 & Hua1 & Hw1); [lia|done..|].
  set (n := Z.min (PGSIZE - pgoff dstva) (zlen src)) in *. cbn [loop]. rewrite (bind_step _ _ _ _ _ Es).
  assert (take (Z.to_nat n) src ++ drop (Z.to_nat n) src = src) as Esrc by apply take_drop.
  assert (zlen (take (Z.to_nat n) src) = n) as Htl by (apply zlen_take; lia).
  assert (zlen (drop (Z.to_nat n) src) = zlen src - n) as Hdl by (apply zlen_drop; lia).
  assert (∀ j k, 0 ≤ j < zlen src → 0 ≤ k < zlen src → user_addr T (dstva + j) = user_addr T (dstva + k) → j = k) as Hinj.
  { intros j k Hj Hk E. eapply user_addr_inj in E; [|exact Hwf|exact Hua|lia|lia]. lia. }
  destruct (decide (n < zlen src)) as [Hlt|Hge].
  - destruct (Hnext Hlt) as [Epg Eturn]. rewrite <-Epg.
    destruct (IH (drop (Z.to_nat n) src) (dstva + n) (s <| mem := m1 |>)) as (m2 & E2 & Hwf2 & Hua2 & Hw2);
      [done|done|lia|rewrite Hdl; lia|rewrite Hdl; lia|].
    exists m2. rewrite E2. split_and!; [done..|]. rewrite <-Esrc.
    eapply (wrote_user_app T dstva _ _ _ m1); [by rewrite Esrc|done|by rewrite Htl].
  - assert (n = zlen src) as En by lia. destruct fuel as [|fuel]; [lia|].
    rewrite drop_ge by (unfold zlen in *; lia). exists m1. split_and!; [done|done|done|].
    rewrite take_ge in Hw1 by (unfold zlen in *; lia). done.
Qed.

(** Writing mapped user memory. *)
Lemma copyout_ok pt T A len src dstva s : mem_wf (mem s) → user_area (mem s) pt A len true T →
  A ≤ dstva → dstva + zlen src ≤ A + len →
  ∃ m', copyout pt dstva src s = Ok (0, s <| mem := m' |>) ∧ mem_wf m' ∧
    user_area m' pt A len true T ∧ wrote_user T dstva src (mem s) m'.
Proof. intros. eapply copyout_loop; [done..|]. apply copy_fuel_turns, zlen_nonneg. Qed.

(** C31. User memory is a memory: over an area of mapped, writable pages, of any
    length and alignment, [copyout] returns 0 and changes exactly the bytes it is
    asked to, wherever the pages are, and [copyin] at any later place and length
    inside the area returns 0 and the bytes that are there: what was copied out,
    where that overlaps, and what was there before elsewhere. *)
Theorem copyout_copyin pt T A len src dstva srcva n s :
  mem_wf (mem s) → user_area (mem s) pt A len true T →
  A ≤ dstva → dstva + zlen src ≤ A + len → A ≤ srcva → 0 ≤ n → srcva + n ≤ A + len →
  ∃ s' bs, copyout pt dstva src s = Ok (0, s') ∧ copyin pt srcva n s' = Ok ((bs, 0), s') ∧
    s' = s <| mem := mem s' |> ∧ zlen bs = n ∧
    (∀ a, (∀ k, 0 ≤ k < zlen src → a ≠ user_addr T (dstva + k)) → mbyte (mem s') a = mbyte (mem s) a) ∧
    ∀ x, srcva ≤ x < srcva + n →
      znth bs (x - srcva) = if (dstva <=? x) && (x <? dstva + zlen src) then znth src (x - dstva)
                            else mbyte (mem s) (user_addr T x).
Proof.
  intros Hwf Hua H1 H2 H3 Hn H4. destruct (copyout_ok pt T A len src dstva s) as (m' & E & Hwf' & Hua' & [W1 W2]); [done..|].
  destruct (copyin_ok pt true T srcva n (s <| mem := m' |>)) as (bs & E2 & Hbl & Hbs); [done|done|by eapply user_area_in|].
  exists (s <| mem := m' |>), bs. split_and!; [done..|]. intros x Hx. rewrite Hbs by lia. simpl.
  replace (srcva + (x - srcva)) with x by lia.
  destruct (Z.leb_spec dstva x), (Z.ltb_spec x (dstva + zlen src)); simpl.
  1: { rewrite <-W1 by lia. do 2 f_equal. lia. }
  all: apply W2; intros k Hk Ea; eapply user_addr_inj in Ea; [|exact Hwf|exact Hua|lia|lia]; lia.
Qed.
End copies.

(** ** A small machine *)

#[local] Existing Instances demo_layout no_disk.

(** Two user pages, at addresses 0 and 4096, in the opposite order in memory. *)
Definition upage (k : Z) : Z := KERNBASE + k * PGSIZE.
Definition utable (e0 e1 : Z) : list Z := splice 0 (le_of 8 e0 ++ le_of 8 e1) (zrepl PGSIZE 0).
Definition uentry (k : Z) : Z := setb (PA2PTE (upage k)) (setb (setb (setb PTE_V PTE_R) PTE_W) PTE_U).
Definition two_pages : phys :=
  {[ upage 1 := zrepl PGSIZE 7; upage 0 := zrepl PGSIZE 9; upage 2 := utable (uentry 1) (uentry 0);
     upage 3 := utable (setb (PA2PTE (upage 2)) PTE_V) 0; upage 4 := utable (setb (PA2PTE (upage 3)) PTE_V) 0 ]}.
Definition two_T (va0 : Z) : Z := if va0 =? 0 then upage 1 else upage 0.
Definition two_demo : kst unit := (demo_boot []) <| mem := two_pages |>.

Lemma two_pages_wf : mem_wf two_pages.
Proof.
  unfold two_pages, mem_wf. repeat (apply map_Forall_insert_2; [split; [reflexivity|vm_compute; reflexivity]|]). done.
Qed.

Lemma two_area : user_area two_pages (upage 4) 0 (2 * PGSIZE) true two_T.
Proof.
  assert (∀ x, 0 ≤ x < 0 + 2 * PGSIZE → pg x = 0 ∨ pg x = PGSIZE) as Hpg.
  { intros x Hx. pose proof (pg_pgoff x). pose proof (pgoff_bound x). pose proof (pg_aligned x). unfold pg in *. dlia. }
  assert (∀ v, v = 0 ∨ v = PGSIZE → maps two_pages (upage 4) v true (two_T v)) as Hm.
  { intros v [->| ->]; (split; [|discriminate|by eexists]).
    - exists (upage 2), (uentry 1). split_and!; try (vm_compute; reflexivity). discriminate.
    - exists (upage 2 + 8), (uentry 0). split_and!; try (vm_compute; reflexivity). discriminate. }
  assert (∀ v, v = 0 ∨ v = PGSIZE → walk_words two_pages (upage 4) v = [upage 4; upage 3]) as Hw
    by (intros v [->| ->]; vm_compute; reflexivity).
  split.
  - lia.
  - intros x Hx. by apply Hm, Hpg.
  - intros x y Hx%Hpg Hy%Hpg a [Ha|Ha].
    + rewrite Hw in Ha by done. assert (a = upage 4 ∨ a = upage 3) as [->| ->] by set_solver;
        destruct Hy as [->| ->]; vm_compute; discriminate.
    + destruct Hx as [Ex|Ex], Hy as [->| ->]; rewrite Ex in Ha; vm_compute in Ha; injection Ha as <-; vm_compute; discriminate.
  - intros x y Hx%Hpg Hy%Hpg. destruct Hx as [->| ->], Hy as [->| ->]; vm_compute; done.
Qed.

(** 200 bytes written across the page boundary, 20 bytes around it read back. *)
Lemma copyout_copyin_witness :
  ∃ s' bs, copyout (upage 4) 4000 (upto 200) two_demo = Ok (0, s') ∧ copyin (upage 4) 4086 20 s' = Ok ((bs, 0), s') ∧
    bs = seqZ 86 20.
Proof.
  destruct (copyout_copyin (upage 4) two_T 0 (2 * PGSIZE) (upto 200) 4000 4086 20 two_demo) as (s' & bs & E1 & E2 & _ & Hl & _ & Hb).
  - apply two_pages_wf.
  - apply two_area.
  - lia.
  - rewrite zlen_upto; lia.
  - lia.
  - lia.
  - lia.
  - exists s', bs. split; [exact E1|]. split; [exact E2|]. apply znth_ext; [exact Hl|]. rewrite Hl. intros i Hi.
    specialize (Hb (4086 + i) ltac:(lia)). replace (4086 + i - 4086) with i in Hb by lia. rewrite Hb, zlen_upto by lia.
    destruct (Z.leb_spec 4000 (4086 + i)), (Z.ltb_spec (4086 + i) (4000 + 200)); try lia. simpl.
    rewrite znth_upto by lia. unfold znth. destruct (Z.leb_spec 0 i); [|lia].
    rewrite lookup_seqZ_lt by lia. f_equal. lia.
Defined.
