(* ===== verification/Str.v ===== *)
(** * Memory and string functions

    Models [kernel/string.c]: each function as the loop it is, over an array of
    bytes with checked accesses, and what the loops compute. *)

From stdpp Require Import base numbers list gmap strings.
From S2P Require Import Prelude.
Open Scope Z_scope.
Open Scope kernel_scope.

(** ** Bytes of an array *)

Abbreviation Arr := (M (list Z)).
Definition getc (i : Z) : Arr Z := a ← gets id; opt (znth a i).
Definition putc (i v : Z) : Arr unit :=
  a ← gets id; match znth a i with Some _ => modify (λ a, zset a i v) | None => fault end.

Definition memset (dst c n : Z) : Arr unit := for_each (λ i, putc (dst + i) (u8 c)) (upto n).

Fixpoint memcmp (v1 v2 : Z) (n : nat) : Arr Z :=
  match n with
  | O => mret 0
  | S n =>
      a ← getc v1; b ← getc v2;
      if negb (a =? b) then mret (a - b) else memcmp (v1 + 1) (v2 + 1) n
  end.

(** [dst] and [src] are positions in one array, so that the areas can overlap. *)
Definition memmove (dst src n : Z) : Arr unit :=
  if n =? 0 then mret tt else
  if (src <? dst) && (dst <? src + n) then
    for_each (λ i, v ← getc (src + n - (i + 1)); putc (dst + n - (i + 1)) v) (upto n)
  else
    for_each (λ i, v ← getc (src + i); putc (dst + i) v) (upto n).
Definition memcpy (dst src n : Z) : Arr unit := memmove dst src n.

(** ** Strings: [p], [q], [t] are the bytes from a pointer on *)

Fixpoint strncmp (p q : list Z) (n : nat) {struct n} : option Z :=
  match n with
  | O => Some 0
  | S n =>
      match p, q with
      | a :: p, b :: q =>
          if negb (a =? 0) && (a =? b) then strncmp p q n else Some (u8 a - u8 b)
      | _, _ => None
      end
  end.

(** [s[i] = v] *)
Definition set_char (s : list Z) (i v : Z) : option (list Z) :=
  if (0 <=? i) && (i <? zlen s) then Some (zset s i v) else None.

(** [while(n-- > 0 && ( *s++ = *t++) != 0);] from [s + i]: the new [n], the new [i]. *)
Fixpoint copy_str (n : nat) (i : Z) (s t : list Z) : option (nat * Z * list Z) :=
  match n with
  | O => Some (O, i, s)
  | S n =>
      match t with
      | [] => None
      | b :: t =>
          s ← set_char s i b;
          if b =? 0 then Some (n, i + 1, s) else copy_str n (i + 1) s t
      end
  end.
(** [while(n-- > 0) *s++ = 0;] *)
Fixpoint pad (n : nat) (i : Z) (s : list Z) : option (list Z) :=
  match n with O => Some s | S n => s ← set_char s i 0; pad n (i + 1) s end.

Definition strncpy (s t : list Z) (n : Z) : option (list Z) :=
  r ← copy_str (Z.to_nat n) 0 s t; let '(n, i, s) := r in pad n i s.

Definition safestrcpy (s t : list Z) (n : Z) : option (list Z) :=
  if n <=? 0 then Some s else
  r ← copy_str (Z.to_nat (n - 1)) 0 s t; let '(_, i, s) := r in set_char s i 0.

Fixpoint strlen (s : list Z) : option Z :=
  match s with
  | [] => None
  | b :: s => if b =? 0 then Some 0 else n ← strlen s; Some (i32 (n + 1))
  end.

(** ** memmove *)

Section arrays.
Implicit Types a : list Z.

Lemma putc_ok i v a : 0 ≤ i < zlen a → putc i v a = Ok (tt, zset a i v).
Proof. intros Hi. unfold putc. mget a. destruct (znth_lt a i Hi) as [x ->]. done. Qed.
Lemma getc_ok i a x : znth a i = Some x → getc i a = Ok (x, a).
Proof. intros Hi. unfold getc. mget a. by apply opt_ok. Qed.

(** After copying some of the bytes: those of [done], from the array as it was. *)
Definition moved (done : Z → bool) (dst src n : Z) (a a' : list Z) : Prop :=
  zlen a' = zlen a ∧ ∀ i, znth a' i = if (dst <=? i) && (i <? dst + n) && done (i - dst) then znth a (src + (i - dst)) else znth a i.

Lemma move_byte done k dst src n a a' : moved done dst src n a a' → 0 ≤ k < n → done k = false →
  0 ≤ src → 0 ≤ dst → src + n ≤ zlen a → dst + n ≤ zlen a →
  ((dst <=? src + k) && (src + k <? dst + n) && done (src + k - dst) = false) →
  ∃ a'', (v ← getc (src + k); putc (dst + k) v) a' = Ok (tt, a'') ∧
    moved (λ i, done i || (i =? k)) dst src n a a''.
Proof.
  intros [Hl Hm] Hk Hd Hs Hdst H1 H2 Hno. destruct (znth_lt a (src + k)) as [v Hv]; [lia|].
  exists (zset a' (dst + k) v). split.
  - erewrite bind_step by (apply getc_ok; rewrite Hm, Hno; exact Hv). apply putc_ok. lia.
  - split; [by rewrite zlen_zset|]. intros i. destruct (decide (i = dst + k)) as [->|Hne].
    + rewrite znth_zset_eq by lia. replace (dst + k - dst) with k by lia.
      destruct (Z.leb_spec dst (dst + k)), (Z.ltb_spec (dst + k) (dst + n)); try lia. simpl.
      rewrite Z.eqb_refl, orb_true_r. by rewrite Hv.
    + rewrite znth_zset_ne by lia. rewrite Hm. destruct (Z.eqb_spec (i - dst) k); [lia|]. by rewrite orb_false_r.
Qed.

Lemma moved_all dst src n a a' : moved (λ _, true) dst src n a a' → 0 ≤ n → 0 ≤ src → 0 ≤ dst → src + n ≤ zlen a → dst + n ≤ zlen a →
  a' = splice dst (sub src n a) a.
Proof.
  intros [Hl Hm] Hn Hs Hd H1 H2. unfold zlen in *. apply list_eq. intros i. specialize (Hm (Z.of_nat i)).
  rewrite !znth_nat in Hm. rewrite Hm. unfold splice, sub.
  destruct (Z.leb_spec dst (Z.of_nat i)), (Z.ltb_spec (Z.of_nat i) (dst + n)); simpl; try lia.
  - rewrite lookup_app_r by (rewrite length_take; lia). rewrite length_take.
    rewrite lookup_app_l by (rewrite length_take, length_drop; lia).
    rewrite lookup_take_lt by lia. rewrite lookup_drop. unfold znth.
    destruct (Z.leb_spec 0 (src + (Z.of_nat i - dst))); [|lia]. f_equal. lia.
  - rewrite lookup_app_r by (rewrite length_take; lia). rewrite length_take.
    rewrite lookup_app_r by (rewrite length_take, length_drop; lia). rewrite length_take, length_drop, lookup_drop.
    f_equal. lia.
  - rewrite lookup_app_l by (rewrite length_take; lia). by rewrite lookup_take_lt by lia.
Qed.
Lemma moved_ext d d' dst src n a a' : (∀ i, 0 ≤ i < n → d i = d' i) → moved d dst src n a a' → moved d' dst src n a a'.
Proof.
  intros H [Hl Hm]. split; [done|]. intros i. rewrite Hm.
  destruct (Z.leb_spec dst i), (Z.ltb_spec i (dst + n)); simpl; try done. rewrite H by lia. done.
Qed.

(** The two loops of [memmove], where they are right. *)
Lemma copy_backwards dst src n a : 0 ≤ n → 0 ≤ src ≤ dst → dst + n ≤ zlen a →
  for_each (λ i, v ← getc (src + n - (i + 1)); putc (dst + n - (i + 1)) v) (upto n) a = Ok (tt, splice dst (sub src n a) a).
Proof.
  intros Hn Hs H2.
  assert (∀ k, 0 ≤ k ≤ n → ∃ a', for_each (λ i, v ← getc (src + n - (i + 1)); putc (dst + n - (i + 1)) v) (upto k) a =
    Ok (tt, a') ∧ moved (λ i, n - k <=? i) dst src n a a') as Hloop.
  { intros k [Hk Hle]. revert Hle. pattern k. apply natlike_ind; [..|exact Hk]; clear k Hk.
    - intros _. exists a. split; [done|]. split; [done|]. intros i.
      destruct (Z.leb_spec dst i), (Z.ltb_spec i (dst + n)), (Z.leb_spec (n - 0) (i - dst)); simpl; try done; lia.
    - intros k Hk IH Hle. destruct IH as (a1 & E1 & M1); [lia|]. change (Z.succ k) with (k + 1) in *.
      destruct (move_byte _ (n - (k + 1)) dst src n a a1 M1) as (a2 & E2 & M2); try lia.
      exists a2. rewrite upto_S, for_each_app by lia. erewrite bind_step by exact E1. split.
      + cbn [for_each]. replace (src + n - (k + 1)) with (src + (n - (k + 1))) by lia.
        replace (dst + n - (k + 1)) with (dst + (n - (k + 1))) by lia. by erewrite bind_step by exact E2.
      + eapply moved_ext; [|exact M2]. intros i Hi. simpl. lia. }
  destruct (Hloop n) as (a' & E & Hm); [lia|]. rewrite E. apply Ok_pair. apply moved_all; try lia.
  eapply moved_ext; [|exact Hm]. intros i Hi. simpl. lia.
Qed.
Lemma copy_forwards dst src n a : 0 ≤ n → 0 ≤ src → 0 ≤ dst → src + n ≤ zlen a → dst + n ≤ zlen a → dst ≤ src ∨ src + n ≤ dst →
  for_each (λ i, v ← getc (src + i); putc (dst + i) v) (upto n) a = Ok (tt, splice dst (sub src n a) a).
Proof.
  intros Hn Hs Hd H1 H2 Hov.
  assert (∀ k, 0 ≤ k ≤ n → ∃ a', for_each (λ i, v ← getc (src + i); putc (dst + i) v) (upto k) a =
    Ok (tt, a') ∧ moved (λ i, i <? k) dst src n a a') as Hloop.
  { intros k [Hk Hle]. revert Hle. pattern k. apply natlike_ind; [..|exact Hk]; clear k Hk.
    - intros _. exists a. split; [done|]. split; [done|]. intros i.
      destruct (Z.leb_spec dst i), (Z.ltb_spec i (dst + n)), (Z.ltb_spec (i - dst) 0); simpl; try done; lia.
    - intros k Hk IH Hle. destruct IH as (a1 & E1 & M1); [lia|]. change (Z.succ k) with (k + 1) in *.
      destruct (move_byte _ k dst src n a a1 M1) as (a2 & E2 & M2); try lia.
      exists a2. rewrite upto_S, for_each_app by lia. erewrite bind_step by exact E1. split.
      + cbn [for_each]. by erewrite bind_step by exact E2.
      + eapply moved_ext; [|exact M2]. intros i Hi. simpl. lia. }
  destruct (Hloop n) as (a' & E & Hm); [lia|]. rewrite E. apply Ok_pair. apply moved_all; try done.
  eapply moved_ext; [|exact Hm]. intros i Hi. simpl. lia.
Qed.

(** [memmove] copies right whatever the overlap: for two areas of one array
    that overlap in any way, or not at all, the destination ends up with the
    bytes the source had at the start, and nothing else changes. *)
Theorem memmove_overlap dst src n a :
  0 ≤ n → 0 ≤ src → 0 ≤ dst → src + n ≤ zlen a → dst + n ≤ zlen a →
  memmove dst src n a = Ok (tt, splice dst (sub src n a) a).
Proof.
  intros Hn Hs Hd H1 H2. unfold memmove. destruct (Z.eqb_spec n 0) as [->|Hn0].
  { apply Ok_pair. apply moved_all; [|done..]. split; [done|]. intros i.
    destruct (Z.leb_spec dst i), (Z.ltb_spec i (dst + 0)); simpl; try done; lia. }
  destruct (Z.ltb_spec src dst), (Z.ltb_spec dst (src + n)); cbn [andb];
    first [apply copy_backwards; lia|apply copy_forwards; lia].
Qed.
End arrays.

Lemma memmove_overlap_witness : memmove 1 0 3 [1; 2; 3; 4] = Ok (tt, [1; 1; 2; 3]).
Proof. rewrite (memmove_overlap 1 0 3 [1; 2; 3; 4]) by (unfold zlen; simpl; lia). reflexivity. Defined.

(** ** Copying strings *)

(** The bytes of the string at the front of [t], without its NUL, [n] at most. *)
Fixpoint str_until_nul (n : nat) (t : list Z) : list Z :=
  match n, t with
  | S n, b :: t => if b =? 0 then [] else b :: str_until_nul n t
  | _, _ => []
  end.

Lemma length_str_until_nul n t : (length (str_until_nul n t) ≤ n)%nat.
Proof. revert t. induction n as [|n IH]; intros [|b t]; simpl; try lia. destruct (b =? 0); simpl; [lia|]. specialize (IH t). lia. Qed.

Lemma splice_nil (s : list Z) i : splice i [] s = s.
Proof. unfold splice. simpl. rewrite Nat.add_0_r. apply take_drop. Qed.
Lemma splice_cons (pre s : list Z) i v : 0 ≤ i → i + 1 + zlen pre ≤ zlen s →
  splice (i + 1) pre (zset s i v) = splice i (v :: pre) s.
Proof.
  unfold splice, zset, zlen. intros Hi Hl. replace (Z.to_nat (i + 1)) with (S (Z.to_nat i)) by lia.
  rewrite (take_S_r _ _ v) by (rewrite list_lookup_insert_eq; [done|lia]).
  rewrite take_insert_ge by lia. rewrite <-app_assoc. simpl. do 3 f_equal.
  rewrite drop_insert_lt by lia. f_equal. lia.
Qed.

(** [t] holds a string: a NUL among the bytes looked at, or [n] of them. *)
Definition str_ok (n : nat) (t : list Z) : Prop := 0 ∈ take n t ∨ (n ≤ length t)%nat.

Lemma str_ok_tail n b t : b ≠ 0 → str_ok (S n) (b :: t) → str_ok n t.
Proof. intros Hb [[?|Hin]%elem_of_cons|Hl]; simpl in *; [done|by left|right; lia]. Qed.

Lemma copy_str_ok n i s t : 0 ≤ i → i + Z.of_nat n ≤ zlen s → str_ok n t →
  let w := str_until_nul n t in
  copy_str n i s t = Some (if (length w <? n)%nat
    then ((n - length w - 1)%nat, i + zlen w + 1, splice i (w ++ [0]) s) else (O, i + Z.of_nat n, splice i w s)).
Proof.
  revert i s t. induction n as [|n IH]; intros i s t Hi Hl Hok; cbn zeta.
  { simpl. rewrite splice_nil, Z.add_0_r. done. }
  destruct t as [|b t]; [destruct Hok as [Hin|]; [by apply not_elem_of_nil in Hin|simpl in *; lia]|].
  cbn [copy_str str_until_nul]. unfold set_char.
  assert ((0 <=? i) && (i <? zlen s) = true) as -> by lia. cbn [mbind option_bind].
  destruct (Z.eqb_spec b 0) as [->|Hb].
  - simpl. rewrite Nat.sub_0_r. change (zlen (@nil Z)) with 0. rewrite Z.add_0_r.
    rewrite <-(splice_cons [] s i 0), splice_nil by (unfold zlen in *; simpl; lia). done.
  - apply str_ok_tail in Hok; [|done]. rewrite IH by (rewrite ?zlen_zset; lia || done). cbn zeta.
    pose proof (length_str_until_nul n t) as Hw. set (w := str_until_nul n t) in *.
    assert (zlen (b :: w) = zlen w + 1) as El by (unfold zlen; simpl; lia). cbn [length].
    change (S (length w) <? S n)%nat with (length w <? n)%nat. destruct (Nat.ltb_spec (length w) n).
    + rewrite splice_cons by (rewrite ?zlen_app; unfold zlen in *; simpl in *; lia).
      replace (S n - S (length w) - 1)%nat with (n - length w - 1)%nat by lia. rewrite El.
      by replace (i + 1 + zlen w + 1) with (i + (zlen w + 1) + 1) by lia.
    + rewrite splice_cons by (unfold zlen in *; lia). by replace (i + 1 + Z.of_nat n) with (i + Z.of_nat (S n)) by lia.
Qed.

Lemma pad_ok n i s : 0 ≤ i → i + Z.of_nat n ≤ zlen s → pad n i s = Some (splice i (replicate n 0) s).
Proof.
  revert i s. induction n as [|n IH]; intros i s Hi Hl; simpl.
  { by rewrite splice_nil. }
  unfold set_char. assert ((0 <=? i) && (i <? zlen s) = true) as -> by lia. simpl.
  rewrite IH by (rewrite ?zlen_zset; lia). rewrite splice_cons; [done|done|].
  unfold zlen in *. rewrite length_replicate. lia.
Qed.

Lemma splice_app (w1 w2 s : list Z) i : 0 ≤ i → i + zlen w1 + zlen w2 ≤ zlen s →
  splice (i + zlen w1) w2 (splice i w1 s) = splice i (w1 ++ w2) s.
Proof.
  unfold splice, zlen. intros Hi Hl.
  rewrite take_app_ge by (rewrite length_take; lia). rewrite length_take.
  replace (Z.to_nat (i + Z.of_nat (length w1)) - Z.to_nat i `min` length s)%nat with (length w1) by lia.
  rewrite take_app_length, <-!app_assoc. do 3 f_equal.
  rewrite drop_app_ge by (rewrite length_take; lia). rewrite length_take.
  rewrite drop_app_ge by lia. rewrite drop_drop. f_equal. rewrite length_app. lia.
Qed.

(** [strncpy] fills exactly [n] bytes: the string at [t], cut after [n]
    characters, then zeros up to [n] (so no NUL at all when the string is [n]
    characters or longer); the rest of the destination is untouched. *)
Theorem strncpy_exact s t n : 0 ≤ n ≤ zlen s → str_ok (Z.to_nat n) t →
  strncpy s t n = Some (let w := str_until_nul (Z.to_nat n) t in
                        splice 0 (w ++ replicate (Z.to_nat n - length w) 0) s).
Proof.
  intros Hn Hok. unfold strncpy. rewrite copy_str_ok by (lia || done). cbn zeta.
  pose proof (length_str_until_nul (Z.to_nat n) t) as Hw. set (w := str_until_nul (Z.to_nat n) t) in *.
  destruct (Nat.ltb_spec (length w) (Z.to_nat n)); cbn [mbind option_bind].
  - assert (zlen (w ++ [0]) = zlen w + 1) as El by (rewrite zlen_app; done).
    assert (zlen (splice 0 (w ++ [0]) s) = zlen s) as Es by (apply zlen_splice; unfold zlen in *; rewrite ?length_app in *; simpl in *; lia).
    rewrite pad_ok; [|unfold zlen; lia|rewrite Es; unfold zlen in *; lia].
    replace (0 + zlen w + 1) with (0 + zlen (w ++ [0])) by lia.
    rewrite splice_app; [|lia|unfold zlen in *; rewrite ?length_app, length_replicate in *; simpl in *; lia].
    rewrite <-app_assoc. replace (Z.to_nat n - length w)%nat with (S (Z.to_nat n - length w - 1)) at 2 by lia. done.
  - replace (Z.to_nat n - length w)%nat with O by lia. simpl. by rewrite app_nil_r.
Qed.

Lemma strncpy_exact_witness : strncpy [9; 9; 9; 9; 9; 9] [7; 8; 0] 5 = Some [7; 8; 0; 0; 0; 9].
Proof.
  rewrite (strncpy_exact [9; 9; 9; 9; 9; 9] [7; 8; 0] 5); [reflexivity|unfold zlen; simpl; lia|].
  left. vm_compute. right. right. left.
Defined.

Lemma safestrcpy_ok s t n : 0 < n ≤ zlen s → str_ok (Z.to_nat (n - 1)) t →
  ∃ s', safestrcpy s t n = Some s' ∧ zlen s' = zlen s ∧
    let w := str_until_nul (Z.to_nat (n - 1)) t in take (length w) s' = w ∧ s' !! length w = Some 0.
Proof.
  intros Hn Hok. unfold safestrcpy. destruct (Z.leb_spec n 0); [lia|]. rewrite copy_str_ok by (lia || done). cbn zeta.
  pose proof (length_str_until_nul (Z.to_nat (n - 1)) t) as Hw. set (w := str_until_nul (Z.to_nat (n - 1)) t) in *.
  assert (∀ v, splice 0 v s = v ++ drop (length v) s) as Hsp by (intros v; done).
  unfold set_char. destruct (Nat.ltb_spec (length w) (Z.to_nat (n - 1))); cbn [mbind option_bind].
  - assert (zlen (splice 0 (w ++ [0]) s) = zlen s) as Es by (apply zlen_splice; unfold zlen in *; rewrite ?length_app in *; simpl in *; lia).
    rewrite Es. assert ((0 <=? 0 + zlen w + 1) && (0 + zlen w + 1 <? zlen s) = true) as -> by (unfold zlen in *; lia).
    eexists. split; [done|]. rewrite zlen_zset. split; [done|]. unfold zset.
    replace (Z.to_nat (0 + zlen w + 1)) with (S (length w)) by (unfold zlen; lia). rewrite Hsp.
    rewrite take_insert_ge, list_lookup_insert_ne by lia. rewrite <-app_assoc. split; [by rewrite take_app_length|].
    rewrite lookup_app_r, Nat.sub_diag by lia. done.
  - assert (length w = Z.to_nat (n - 1)) as Hlw by lia.
    assert (zlen (splice 0 w s) = zlen s) as Es by (apply zlen_splice; unfold zlen in *; lia).
    rewrite Es, Z2Nat.id by lia. assert ((0 <=? 0 + (n - 1)) && (0 + (n - 1) <? zlen s) = true) as -> by lia.
    eexists. split; [done|]. rewrite zlen_zset. split; [done|]. unfold zset.
    replace (Z.to_nat (0 + (n - 1))) with (length w) by lia.
    rewrite take_insert_ge by lia. rewrite Hsp. split; [by rewrite take_app_length|].
    apply list_lookup_insert_eq. rewrite <-Hsp. unfold zlen in *. lia.
Qed.

(** Equal names compare equal: [strncmp] of two strings of [n] bytes. *)
Lemma strncmp_zero p q n : (n ≤ length p)%nat → (n ≤ length q)%nat →
  Forall (λ b, 0 ≤ b < 256) p → Forall (λ b, 0 ≤ b < 256) q →
  ∃ r, strncmp p q n = Some r ∧ (r = 0 ↔ str_until_nul n p = str_until_nul n q).
Proof.
  revert p q. induction n as [|n IH]; intros p q Hp Hq Fp Fq; [exists 0; split; [done|split; reflexivity]|].
  destruct p as [|a p], q as [|b q]; simpl in *; try lia.
  apply Forall_cons in Fp as [Ha Fp]. apply Forall_cons in Fq as [Hb Fq].
  destruct (Z.eqb_spec a 0) as [->|Ha0]; simpl.
  - eexists. split; [done|]. rewrite !wrap_id by lia. destruct (Z.eqb_spec b 0); split; intros; try done; lia.
  - destruct (Z.eqb_spec a b) as [->|Hab].
    + destruct (Z.eqb_spec b 0); [done|]. destruct (IH p q) as (r & E & Hr); [lia|lia|done|done|].
      exists r. split; [done|]. rewrite Hr. split; [by intros ->|by intros [=]].
    + eexists. split; [done|]. rewrite !wrap_id by lia. split; [lia|]. destruct (Z.eqb_spec b 0); [done|]. intros [=]. done.
Qed.
