(* ===== verification/Fs.v ===== *)
(** * The file system

    Models [kernel/fs.c]: the superblock, the block allocator, the inode table,
    inodes on disk and in memory, file contents, directories and path names,
    over the log of [Log]. An inode pointer is an index of [itable.inode], the
    null pointer [None]; a structure on the disk is bytes of a block. Reading
    and writing a file is parametric in where the bytes go to or come from, so
    that the same code serves kernel buffers and user memory. *)

From stdpp Require Import base numbers list gmap strings.
From S2P Require Import Prelude Machine KState Bio Log Str.
Open Scope Z_scope.
Open Scope kernel_scope.

Abbreviation ROOTINO := 1.
Abbreviation FSMAGIC := 270544960.       (* 0x10203040 *)
Abbreviation NDIRECT := 12.
Abbreviation NINDIRECT := 256.           (* BSIZE / sizeof(uint) *)
Abbreviation MAXFILE := 268.
Abbreviation IPB := 16.                  (* BSIZE / sizeof(struct dinode) *)
Abbreviation DINODE := 64.               (* sizeof(struct dinode) *)
Abbreviation BPB := 8192.
Abbreviation DIRSIZ := 14.
Abbreviation DIRENT := 16.               (* sizeof(struct dirent) *)
Abbreviation NINODE := 50.
Abbreviation NFILE := 100.
Abbreviation T_DIR := 1.
Abbreviation T_FILE := 2.
Abbreviation T_DEVICE := 3.

(** ** Data *)

Record superblock := MkSb {
  sb_magic : Z;
  sb_size : Z;
  sb_nblocks : Z;
  sb_ninodes : Z;
  sb_nlog : Z;
  sb_logstart : Z;
  sb_inodestart : Z;
  sb_bmapstart : Z;
}.

(** The in-memory [struct inode]. *)
Record inode := MkInode {
  i_dev : Z;
  i_inum : Z;
  i_ref : Z;
  i_lock : sleeplock;
  i_valid : Z;
  i_type : Z;
  i_major : Z;
  i_minor : Z;
  i_nlink : Z;
  i_size : Z;
  i_addrs : list Z;
}.
#[global] Instance inode_eta : Eta inode := λ i,
  MkInode (i_dev i) (i_inum i) (i_ref i) (i_lock i) (i_valid i) (i_type i) (i_major i) (i_minor i)
    (i_nlink i) (i_size i) (i_addrs i).
#[global] Instance upd_i_dev : Upd i_dev := ltac:(mk_upd).
#[global] Instance upd_i_inum : Upd i_inum := ltac:(mk_upd).
#[global] Instance upd_i_ref : Upd i_ref := ltac:(mk_upd).
#[global] Instance upd_i_lock : Upd i_lock := ltac:(mk_upd).
#[global] Instance upd_i_valid : Upd i_valid := ltac:(mk_upd).
#[global] Instance upd_i_type : Upd i_type := ltac:(mk_upd).
#[global] Instance upd_i_major : Upd i_major := ltac:(mk_upd).
#[global] Instance upd_i_minor : Upd i_minor := ltac:(mk_upd).
#[global] Instance upd_i_nlink : Upd i_nlink := ltac:(mk_upd).
#[global] Instance upd_i_size : Upd i_size := ltac:(mk_upd).
#[global] Instance upd_i_addrs : Upd i_addrs := ltac:(mk_upd).

Definition inode0 : inode := MkInode 0 0 0 (MkSleep 0 0) 0 0 0 0 0 0 (zrepl (NDIRECT + 1) 0).

(** [struct file] and [struct pipe] of [file.h] and [pipe.c]. *)
Inductive ftype := FD_NONE | FD_PIPE | FD_INODE | FD_DEVICE.
#[global] Instance ftype_eq_dec : EqDecision ftype.
Proof. solve_decision. Defined.
Record file := MkFile {
  fl_type : ftype;
  fl_ref : Z;
  fl_readable : bool;
  fl_writable : bool;
  fl_pipe : Z;
  fl_ip : option nat;
  fl_off : Z;
  fl_major : Z;
}.
#[global] Instance file_eta : Eta file := λ f,
  MkFile (fl_type f) (fl_ref f) (fl_readable f) (fl_writable f) (fl_pipe f) (fl_ip f) (fl_off f) (fl_major f).
#[global] Instance upd_fl_type : Upd fl_type := ltac:(mk_upd).
#[global] Instance upd_fl_ref : Upd fl_ref := ltac:(mk_upd).
#[global] Instance upd_fl_readable : Upd fl_readable := ltac:(mk_upd).
#[global] Instance upd_fl_writable : Upd fl_writable := ltac:(mk_upd).
#[global] Instance upd_fl_pipe : Upd fl_pipe := ltac:(mk_upd).
#[global] Instance upd_fl_ip : Upd fl_ip := ltac:(mk_upd).
#[global] Instance upd_fl_off : Upd fl_off := ltac:(mk_upd).
#[global] Instance upd_fl_major : Upd fl_major := ltac:(mk_upd).

Definition file0 : file := MkFile FD_NONE 0 false false 0 None 0 0.

Record pipe := MkPipe {
  pi_data : list Z;
  pi_nread : Z;
  pi_nwrite : Z;
  pi_readopen : bool;
  pi_writeopen : bool;
}.
#[global] Instance pipe_eta : Eta pipe := λ p,
  MkPipe (pi_data p) (pi_nread p) (pi_nwrite p) (pi_readopen p) (pi_writeopen p).
#[global] Instance upd_pi_data : Upd pi_data := ltac:(mk_upd).
#[global] Instance upd_pi_nread : Upd pi_nread := ltac:(mk_upd).
#[global] Instance upd_pi_nwrite : Upd pi_nwrite := ltac:(mk_upd).
#[global] Instance upd_pi_readopen : Upd pi_readopen := ltac:(mk_upd).
#[global] Instance upd_pi_writeopen : Upd pi_writeopen := ltac:(mk_upd).

(** The console: [cons] of [console.c], and what has been sent to the UART. *)
Record console := MkCons {
  c_buf : list Z;
  c_r : Z;
  c_w : Z;
  c_e : Z;
  c_out : list Z;
}.
#[global] Instance console_eta : Eta console := λ c, MkCons (c_buf c) (c_r c) (c_w c) (c_e c) (c_out c).
#[global] Instance upd_c_buf : Upd c_buf := ltac:(mk_upd).
#[global] Instance upd_c_r : Upd c_r := ltac:(mk_upd).
#[global] Instance upd_c_w : Upd c_w := ltac:(mk_upd).
#[global] Instance upd_c_e : Upd c_e := ltac:(mk_upd).
#[global] Instance upd_c_out : Upd c_out := ltac:(mk_upd).

(** The state of the file system, the open files, the pipes (by the address of
    the page each lives in) and the console. [fs_itlock] is [itable.lock],
    [fs_ftlock] is [ftable.lock]. *)
Record fsst := MkFs {
  fs_log : logst;
  fs_sb : superblock;
  fs_itlock : bool;
  fs_inode : list inode;
  fs_ftlock : bool;
  fs_file : list file;
  fs_pipe : gmap Z pipe;
  fs_cons : console;
}.
#[global] Instance fsst_eta : Eta fsst := λ s,
  MkFs (fs_log s) (fs_sb s) (fs_itlock s) (fs_inode s) (fs_ftlock s) (fs_file s) (fs_pipe s) (fs_cons s).
#[global] Instance upd_fs_log : Upd fs_log := ltac:(mk_upd).
#[global] Instance upd_fs_sb : Upd fs_sb := ltac:(mk_upd).
#[global] Instance upd_fs_itlock : Upd fs_itlock := ltac:(mk_upd).
#[global] Instance upd_fs_inode : Upd fs_inode := ltac:(mk_upd).
#[global] Instance upd_fs_ftlock : Upd fs_ftlock := ltac:(mk_upd).
#[global] Instance upd_fs_file : Upd fs_file := ltac:(mk_upd).
#[global] Instance upd_fs_pipe : Upd fs_pipe := ltac:(mk_upd).
#[global] Instance upd_fs_cons : Upd fs_cons := ltac:(mk_upd).

Abbreviation FS := (M fsst).

(** Calls into the log and into the buffer cache. *)
Definition lift_log {A} (m : LG A) : FS A := λ s,
  match m (fs_log s) with
  | Ok (a, l) => Ok (a, s <| fs_log := l |>)
  | Panic e => Panic e
  | Fault => Fault
  | Diverge => Diverge
  end.
Definition lift_buf {A} (m : C A) : FS A := lift_log (lift_bc m).
Definition data_of (bp : nat) : FS (list Z) := b ← lift_buf (getb bp); mret (b_data b).
Definition set_data (bp : nat) (d : list Z) : FS unit := lift_buf (updb bp (λ b, b <| b_data := d |>)).

(** The unsigned [n]-byte field at [off]; storing one. *)
Definition getu (off : Z) (n : nat) (d : list Z) : Z := le_val (sub off (Z.of_nat n) d).
Definition putu (off : Z) (n : nat) (v : Z) (d : list Z) : list Z := splice off (le_of n v) d.
Abbreviation i16 := (swrap 16).

(** ** Superblock and blocks *)

Definition readsb (dev : Z) : FS unit :=
  bp ← lift_buf (bread dev 1);
  d ← data_of bp;
  setf fs_sb (MkSb (getu 0 4 d) (getu 4 4 d) (getu 8 4 d) (getu 12 4 d) (getu 16 4 d) (getu 20 4 d)
                   (getu 24 4 d) (getu 28 4 d)) ;;
  lift_buf (brelse bp).

Definition bzero (dev bno : Z) : FS unit :=
  bp ← lift_buf (bread dev (u32 bno));
  set_data bp (zrepl BSIZE 0) ;;
  lift_log (log_write bp) ;;
  lift_buf (brelse bp).

Definition BBLOCK (b : Z) (sb : superblock) : Z := u32 (b / BPB + sb_bmapstart sb).
Definition IBLOCK (i : Z) (sb : superblock) : Z := u32 (i / IPB + sb_inodestart sb).

(** The scan of one bitmap block, from bit [bi] on: the first clear bit. *)
Definition bit_clear (d : list Z) (bi : Z) : bool :=
  match znth d (bi / 8) with
  | Some byte => Z.land byte (Z.shiftl 1 (bi mod 8)) =? 0
  | None => false
  end.
Definition set_bit (d : list Z) (bi : Z) : list Z :=
  match znth d (bi / 8) with
  | Some byte => zset d (bi / 8) (Z.lor byte (Z.shiftl 1 (bi mod 8)))
  | None => d
  end.
Definition clear_bit (d : list Z) (bi : Z) : list Z :=
  match znth d (bi / 8) with
  | Some byte => zset d (bi / 8) (Z.land byte (Z.lnot (Z.shiftl 1 (bi mod 8))))
  | None => d
  end.

(** One turn of the outer loop of [balloc]: bitmap block [k]. *)
Definition balloc1 (dev k : Z) : FS (option Z) :=
  let b := k * BPB in
  sb ← gets fs_sb;
  bp ← lift_buf (bread dev (BBLOCK b sb));
  d ← data_of bp;
  match first_some (λ bi, if bit_clear d bi then Some bi else None)
          (upto (Z.min BPB (sb_size sb - b))) with
  | Some bi =>
      set_data bp (set_bit d bi) ;;
      lift_log (log_write bp) ;;
      lift_buf (brelse bp) ;;
      bzero dev (b + bi) ;;
      mret (Some (b + bi))
  | None => lift_buf (brelse bp) ;; mret None
  end.
Definition balloc (dev : Z) : FS Z :=
  sb ← gets fs_sb;
  r ← for_find (balloc1 dev) (upto ((sb_size sb + BPB - 1) / BPB));
  mret (default 0 r).

Definition bfree (dev b : Z) : FS unit :=
  sb ← gets fs_sb;
  bp ← lift_buf (bread dev (BBLOCK b sb));
  d ← data_of bp;
  let bi := b mod BPB in
  if bit_clear d bi then panic "freeing free block" else
  set_data bp (clear_bit d bi) ;;
  lift_log (log_write bp) ;;
  lift_buf (brelse bp).

(** ** The inode table *)

Definition acquire_it : FS unit :=
  l ← gets fs_itlock; if (l : bool) then panic "acquire" else setf fs_itlock true.
Definition release_it : FS unit :=
  l ← gets fs_itlock; if (l : bool) then setf fs_itlock false else panic "release".
Definition geti (ip : nat) : FS inode := l ← gets fs_inode; opt (l !! ip).
Definition updi (ip : nat) (f : inode → inode) : FS unit :=
  i ← geti ip; updf fs_inode (λ l, <[ip := f i]> l).
Definition mypid : FS Z := gets (λ s, bc_mypid (l_bc (fs_log s))).

(** The sleeplock of an inode; a process that finds it taken does not come back
    by itself. *)
Definition acquiresleep_i (ip : nat) : FS unit :=
  i ← geti ip; pid ← mypid;
  if sl_locked (i_lock i) =? 0 then updi ip (λ i, i <| i_lock := MkSleep 1 pid |>) else λ _, Diverge.
Definition releasesleep_i (ip : nat) : FS unit := updi ip (λ i, i <| i_lock := MkSleep 0 0 |>).
Definition holdingsleep_i (ip : nat) : FS bool :=
  i ← geti ip; pid ← mypid;
  mret (negb (sl_locked (i_lock i) =? 0) && (sl_pid (i_lock i) =? pid)).

Definition iinit : FS unit :=
  setf fs_itlock false ;;
  for_each (λ i, updi (Z.to_nat i) (λ i, i <| i_lock := MkSleep 0 0 |>)) (upto NINODE).

(** The search of [iget]: the entry of the inode, or else the first free one. *)
Fixpoint iget_scan (dev inum : Z) (l : list inode) (k : nat) (empty : option nat) : nat + option nat :=
  match l with
  | [] => inr empty
  | i :: l =>
      if (0 <? i_ref i) && (i_dev i =? dev) && (i_inum i =? inum) then inl k else
      iget_scan dev inum l (S k)
        (match empty with None => if i_ref i =? 0 then Some k else None | Some e => Some e end)
  end.
Definition iget (dev inum : Z) : FS nat :=
  acquire_it ;;
  l ← gets fs_inode;
  match iget_scan dev inum l 0 None with
  | inl ip => updi ip (λ i, i <| i_ref ::= λ n, i32 (n + 1) |>) ;; release_it ;; mret ip
  | inr None => panic "iget: no inodes"
  | inr (Some ip) =>
      updi ip (λ i, i <| i_dev := dev |> <| i_inum := inum |> <| i_ref := 1 |> <| i_valid := 0 |>) ;;
      release_it ;; mret ip
  end.

Definition idup (ip : nat) : FS nat :=
  acquire_it ;; updi ip (λ i, i <| i_ref ::= λ n, i32 (n + 1) |>) ;; release_it ;; mret ip.

(** The offset of an on-disk inode in its block, and its fields. *)
Definition dinode_off (inum : Z) : Z := inum mod IPB * DINODE.
Definition d_type (o : Z) (d : list Z) : Z := i16 (getu o 2 d).
Definition d_nlink (o : Z) (d : list Z) : Z := i16 (getu (o + 6) 2 d).

Definition ialloc1 (dev type inum : Z) : FS (option nat) :=
  sb ← gets fs_sb;
  bp ← lift_buf (bread dev (IBLOCK inum sb));
  d ← data_of bp;
  let o := dinode_off inum in
  if d_type o d =? 0 then
    set_data bp (putu o 2 type (splice o (zrepl DINODE 0) d)) ;;
    lift_log (log_write bp) ;;
    lift_buf (brelse bp) ;;
    ip ← iget dev inum; mret (Some ip)
  else lift_buf (brelse bp) ;; mret None.
Definition ialloc (dev type : Z) : FS (option nat) :=
  sb ← gets fs_sb; for_find (ialloc1 dev type) (seqZ 1 (sb_ninodes sb - 1)).

(** [dip->type = ip->type; ...; memmove(dip->addrs, ip->addrs, ...)] and back. *)
Definition put_dinode (o : Z) (i : inode) (d : list Z) : list Z :=
  splice (o + 12) (mjoin (le_of 4 <$> i_addrs i))
    (putu (o + 8) 4 (i_size i) (putu (o + 6) 2 (i_nlink i) (putu (o + 4) 2 (i_minor i)
      (putu (o + 2) 2 (i_major i) (putu o 2 (i_type i) d))))).
Definition get_dinode (o : Z) (d : list Z) (i : inode) : inode :=
  i <| i_type := d_type o d |> <| i_major := i16 (getu (o + 2) 2 d) |>
    <| i_minor := i16 (getu (o + 4) 2 d) |> <| i_nlink := d_nlink o d |>
    <| i_size := getu (o + 8) 4 d |>
    <| i_addrs := (λ k, getu (o + 12 + 4 * k) 4 d) <$> upto (NDIRECT + 1) |>.

Definition iupdate (ip : nat) : FS unit :=
  i ← geti ip; sb ← gets fs_sb;
  bp ← lift_buf (bread (i_dev i) (IBLOCK (i_inum i) sb));
  d ← data_of bp;
  set_data bp (put_dinode (dinode_off (i_inum i)) i d) ;;
  lift_log (log_write bp) ;;
  lift_buf (brelse bp).

Definition ilock (ip : nat) : FS unit :=
  i ← geti ip;
  if i_ref i <? 1 then panic "ilock" else
  acquiresleep_i ip ;;
  i ← geti ip;
  when (i_valid i =? 0)
    (sb ← gets fs_sb;
     bp ← lift_buf (bread (i_dev i) (IBLOCK (i_inum i) sb));
     d ← data_of bp;
     updi ip (get_dinode (dinode_off (i_inum i)) d) ;;
     lift_buf (brelse bp) ;;
     updi ip (λ i, i <| i_valid := 1 |>) ;;
     i ← geti ip;
     if i_type i =? 0 then panic "ilock: no type" else mret tt).

Definition iunlock (ip : nat) : FS unit :=
  h ← holdingsleep_i ip; i ← geti ip;
  if negb h || (i_ref i <? 1) then panic "iunlock" else releasesleep_i ip.

(** ** Contents *)

Definition set_addr (ip : nat) (k a : Z) : FS unit := updi ip (λ i, i <| i_addrs ::= λ l, zset l k a |>).
Definition get_addr (ip : nat) (k : Z) : FS Z := i ← geti ip; opt (znth (i_addrs i) k).

(** [bmap]: the block of slot [k] of [ip->addrs], allocated if there is none. *)
Definition bmap_slot (ip : nat) (k : Z) : FS Z :=
  addr ← get_addr ip k;
  if addr =? 0 then
    i ← geti ip;
    addr ← balloc (i_dev i);
    if addr =? 0 then mret 0 else set_addr ip k addr ;; mret addr
  else mret addr.
(** Entry [k] of the block of block numbers [ind]. *)
Definition bmap_entry (ip : nat) (ind k : Z) : FS Z :=
  i ← geti ip;
  bp ← lift_buf (bread (i_dev i) ind);
  a ← data_of bp;
  let addr := getu (4 * k) 4 a in
  addr ← (if addr =? 0 then
            addr ← balloc (i_dev i);
            (if addr =? 0 then mret tt else
             a ← data_of bp; set_data bp (putu (4 * k) 4 addr a) ;; lift_log (log_write bp)) ;;
            mret addr
          else mret addr);
  lift_buf (brelse bp) ;;
  mret addr.
Definition bmap (ip : nat) (bn : Z) : FS Z :=
  if bn <? NDIRECT then bmap_slot ip bn else
  let bn := bn - NDIRECT in
  if bn <? NINDIRECT then
    addr ← bmap_slot ip NDIRECT;
    if addr =? 0 then mret 0 else bmap_entry ip addr bn
  else panic "bmap: out of range".

Definition itrunc (ip : nat) : FS unit :=
  i ← geti ip;
  for_each (λ k,
    a ← get_addr ip k;
    when (negb (a =? 0)) (bfree (i_dev i) a ;; set_addr ip k 0)) (upto NDIRECT) ;;
  ind ← get_addr ip NDIRECT;
  when (negb (ind =? 0))
    (bp ← lift_buf (bread (i_dev i) ind);
     a ← data_of bp;
     for_each (λ j, when (negb (getu (4 * j) 4 a =? 0)) (bfree (i_dev i) (getu (4 * j) 4 a))) (upto NINDIRECT) ;;
     lift_buf (brelse bp) ;;
     bfree (i_dev i) ind ;;
     set_addr ip NDIRECT 0) ;;
  updi ip (λ i, i <| i_size := 0 |>) ;;
  iupdate ip.

Definition iput (ip : nat) : FS unit :=
  acquire_it ;;
  i ← geti ip;
  when ((i_ref i =? 1) && negb (i_valid i =? 0) && (i_nlink i =? 0))
    (acquiresleep_i ip ;;
     release_it ;;
     itrunc ip ;;
     updi ip (λ i, i <| i_type := 0 |>) ;;
     iupdate ip ;;
     updi ip (λ i, i <| i_valid := 0 |>) ;;
     releasesleep_i ip ;;
     acquire_it) ;;
  updi ip (λ i, i <| i_ref ::= λ n, i32 (n - 1) |>) ;;
  release_it.

Definition iunlockput (ip : nat) : FS unit := iunlock ip ;; iput ip.

(** [begin_op] and [end_op]; a process that has to wait for log space does not
    come back by itself. *)
Definition fs_begin_op : FS unit :=
  ok ← lift_log begin_op; if (ok : bool) then mret tt else λ _, Diverge.
Definition fs_end_op : FS unit := lift_log end_op.

Definition ireclaim1 (dev inum : Z) : FS unit :=
  sb ← gets fs_sb;
  bp ← lift_buf (bread dev (IBLOCK inum sb));
  d ← data_of bp;
  let o := dinode_off inum in
  ip ← (if negb (d_type o d =? 0) && (d_nlink o d =? 0) then ip ← iget dev inum; mret (Some ip) else mret None);
  lift_buf (brelse bp) ;;
  match ip with
  | Some ip => fs_begin_op ;; ilock ip ;; iunlock ip ;; iput ip ;; fs_end_op
  | None => mret tt
  end.
Definition ireclaim (dev : Z) : FS unit :=
  sb ← gets fs_sb; for_each (ireclaim1 dev) (seqZ 1 (sb_ninodes sb - 1)).

Definition fsinit (dev : Z) : FS unit :=
  readsb dev ;;
  sb ← gets fs_sb;
  if negb (sb_magic sb =? FSMAGIC) then panic "invalid file system" else
  lift_log (initlog dev (sb_logstart sb)) ;;
  ireclaim dev.

(** [struct stat] *)
Record stat := MkStat { st_dev : Z; st_ino : Z; st_type : Z; st_nlink : Z; st_size : Z }.
Definition stati (ip : nat) : FS stat :=
  i ← geti ip; mret (MkStat (i32 (i_dev i)) (i_inum i) (i_type i) (i_nlink i) (i_size i)).

(** Reading and writing contents in code with state [S], of which the file
    system's is a part. *)
Section contents.
Context {S : Type} (lift : ∀ A, FS A → M S A).
Arguments lift {A} _.

(** Turns enough for [n] bytes: a block each, and a piece at each end. *)
Definition block_fuel (n : Z) : nat := Z.to_nat (n / BSIZE + 3).

(** [readi]: [out tot bs] is [either_copyout(user_dst, dst + tot, bs, ...)]. The
    loop state is the bytes copied so far, [tot] and [off]; the result is the
    bytes copied and the return value. *)
Definition readi_step (out : Z → list Z → M S Z) (ip : nat) (n : Z) (x : list Z * Z * Z) :
    M S ((list Z * Z * Z) + (list Z * Z)) :=
  let '(acc, tot, off) := x in
  if negb (tot <? n) then mret (inr (acc, i32 tot)) else
  addr ← lift (bmap ip (off / BSIZE));
  if addr =? 0 then mret (inr (acc, i32 tot)) else
  i ← lift (geti ip);
  bp ← lift (lift_buf (bread (i_dev i) addr));
  let m := Z.min (n - tot) (BSIZE - off mod BSIZE) in
  d ← lift (data_of bp);
  let bs := sub (off mod BSIZE) m d in
  r ← out tot bs;
  lift (lift_buf (brelse bp)) ;;
  if r =? -1 then mret (inr (acc, -1))
  else mret (inl (acc ++ bs, u32 (tot + m), u32 (off + m))).
Definition readi_with (out : Z → list Z → M S Z) (ip : nat) (off n : Z) : M S (list Z * Z) :=
  i ← lift (geti ip);
  if (i_size i <? off) || (u32 (off + n) <? off) then mret ([], 0) else
  let n := if i_size i <? u32 (off + n) then i_size i - off else n in
  loop (block_fuel n) (readi_step out ip n) ([], 0, off).

(** [writei]: [inp tot m] is [either_copyin(..., user_src, src + tot, m)], the
    bytes that were copied and the return value. *)
Definition writei_step (inp : Z → Z → M S (list Z * Z)) (ip : nat) (n : Z) (x : Z * Z) :
    M S ((Z * Z) + (Z * Z)) :=
  let '(tot, off) := x in
  if negb (tot <? n) then mret (inr (tot, off)) else
  addr ← lift (bmap ip (off / BSIZE));
  if addr =? 0 then mret (inr (tot, off)) else
  i ← lift (geti ip);
  bp ← lift (lift_buf (bread (i_dev i) addr));
  let m := Z.min (n - tot) (BSIZE - off mod BSIZE) in
  c ← inp tot m;
  d ← lift (data_of bp);
  lift (set_data bp (splice (off mod BSIZE) c.1 d)) ;;
  if c.2 =? -1 then lift (lift_buf (brelse bp)) ;; mret (inr (tot, off)) else
  lift (lift_log (log_write bp)) ;;
  lift (lift_buf (brelse bp)) ;;
  mret (inl (u32 (tot + m), u32 (off + m))).
Definition writei_with (inp : Z → Z → M S (list Z * Z)) (ip : nat) (off n : Z) : M S Z :=
  i ← lift (geti ip);
  if (i_size i <? off) || (u32 (off + n) <? off) then mret (-1) else
  if MAXFILE * BSIZE <? u32 (off + n) then mret (-1) else
  r ← loop (block_fuel n) (writei_step inp ip n) (0, off);
  let '(tot, off) := r in
  lift (updi ip (λ i, if i_size i <? off then i <| i_size := off |> else i)) ;;
  lift (iupdate ip) ;;
  mret (i32 tot).
End contents.

(** To and from a kernel buffer: its bytes. *)
Definition readi (ip : nat) (off n : Z) : FS (list Z * Z) :=
  readi_with (λ A m, m) (λ _ _, mret 0) ip off n.
Definition writei (ip : nat) (src : list Z) (off : Z) : FS Z :=
  writei_with (λ A m, m) (λ tot m, mret (sub tot m src, 0)) ip off (zlen src).

(** ** Directories *)

(** The two fields of a [struct dirent]. *)
Definition de_inum (de : list Z) : Z := getu 0 2 de.
Definition de_name (de : list Z) : list Z := drop 2 de.

Definition namecmp (s t : list Z) : option Z := strncmp s t (Z.to_nat DIRSIZ).

(** [off = 0; off < size; off += sizeof(de)] *)
Definition dirent_offs (from size : Z) : list Z := (λ k, from + DIRENT * k) <$> upto ((size - from + DIRENT - 1) / DIRENT).

Definition read_dirent (dp : nat) (off : Z) (msg : string) : FS (list Z) :=
  r ← readi dp off DIRENT;
  if negb (r.2 =? DIRENT) then panic msg else mret r.1.

(** The inode and the offset of its entry. *)
Definition dirlookup (dp : nat) (name : list Z) : FS (option (nat * Z)) :=
  d ← geti dp;
  if negb (i_type d =? T_DIR) then panic "dirlookup not DIR" else
  for_find (λ off,
    de ← read_dirent dp off "dirlookup read";
    if de_inum de =? 0 then mret None else
    c ← opt (namecmp name (de_name de));
    if c =? 0 then ip ← iget (i_dev d) (de_inum de); mret (Some (ip, off)) else mret None)
    (dirent_offs 0 (i_size d)).

Definition dirlink (dp : nat) (name : list Z) (inum : Z) : FS Z :=
  found ← dirlookup dp name;
  match found with
  | Some (ip, _) => iput ip ;; mret (-1)
  | None =>
      d ← geti dp;
      r ← for_find (λ off,
        de ← read_dirent dp off "dirlink read";
        mret (if de_inum de =? 0 then Some off else None)) (dirent_offs 0 (i_size d));
      let off := default (DIRENT * ((i_size d + DIRENT - 1) / DIRENT)) r in
      nm ← opt (strncpy (zrepl DIRSIZ 0) name DIRSIZ);
      n ← writei dp (le_of 2 inum ++ nm) off;
      mret (if n =? DIRENT then 0 else -1)
  end.

(** ** Paths *)

Abbreviation SLASH := 47.

(** [while( *path == '/') path++;] and [while( *path != '/' && *path != 0) path++;],
    the latter with the characters passed over. *)
Fixpoint skip_slashes (path : list Z) : list Z :=
  match path with c :: p => if c =? SLASH then skip_slashes p else path | [] => [] end.
Fixpoint span_elem (path : list Z) : list Z * list Z :=
  match path with
  | c :: p => if (c =? SLASH) || (c =? 0) then ([], path) else let '(e, r) := span_elem p in (c :: e, r)
  | [] => ([], [])
  end.

(** [None] is an access past the end of [path]; [Some None] the null pointer;
    else the rest of the path and [name]. *)
Definition skipelem (path name : list Z) : option (option (list Z * list Z)) :=
  let path := skip_slashes path in
  match path with
  | [] => None
  | c :: _ =>
      if c =? 0 then Some None else
      let '(s, path) := span_elem path in
      match path with
      | [] => None
      | _ =>
          let len := zlen s in
          let name := if DIRSIZ <=? len then splice 0 (take (Z.to_nat DIRSIZ) s) name
                      else zset (splice 0 s name) len 0 in
          match skip_slashes path with [] => None | rest => Some (Some (rest, name)) end
      end
  end.

(** One turn of the loop of [namex]: the next inode with the rest of the path
    and the name, or the result (the inode and the name). *)
Definition namex_step (parent : bool) (x : nat * list Z * list Z) :
    FS ((nat * list Z * list Z) + (option nat * list Z)) :=
  let '(ip, path, name) := x in
  e ← opt (skipelem path name);
  match e with
  | None => if parent then iput ip ;; mret (inr (None, name)) else mret (inr (Some ip, name))
  | Some (path, name) =>
      ilock ip ;;
      i ← geti ip;
      if negb (i_type i =? T_DIR) then iunlockput ip ;; mret (inr (None, name)) else
      if parent && (match path with c :: _ => c =? 0 | [] => false end)
      then iunlock ip ;; mret (inr (Some ip, name)) else
      next ← dirlookup ip name;
      match next with
      | None => iunlockput ip ;; mret (inr (None, name))
      | Some (next, _) => iunlockput ip ;; mret (inl (next, path, name))
      end
  end.
Definition namex (cwd : option nat) (path : list Z) (parent : bool) (name : list Z) : FS (option nat * list Z) :=
  c ← opt (head path);
  ip ← (if c =? SLASH then iget ROOTDEV ROOTINO else cwd ← opt cwd; idup cwd);
  loop (length path) (namex_step parent) (ip, path, name).

Definition namei (cwd : option nat) (path : list Z) : FS (option nat) :=
  r ← namex cwd path false (zrepl DIRSIZ 0); mret r.1.
Definition nameiparent (cwd : option nat) (path : list Z) : FS (option nat * list Z) :=
  namex cwd path true (zrepl DIRSIZ 0).

(** The block device the swap code shares with the file system. *)
#[global] Instance fs_store : BlockStore fsst :=
  {| bs_read b := lift_buf (bs_read b); bs_write b v := lift_buf (bs_write b v);
     bs_sleeps w b d := bs_sleeps w b (l_bc (fs_log d)) |}.
