(* ===== verification/PathProps.v ===== *)
(** * Path names

    [skipelem] takes a path apart the way splitting it at the slashes does, and
    so the loop of [namex] is a walk over the elements of the path, one turn
    for each. *)

From stdpp Require Import base numbers list gmap strings.
From S2P Require Import Prelude Machine KState Bio Log Str Fs.
Open Scope Z_scope.
Open Scope kernel_scope.

(** ** The reference: split at the slashes, drop the empty pieces *)

Fixpoint split_slash (l : list Z) : list Z * list (list Z) :=
  match l with
  | [] => ([], [])
  | c :: l => let '(w, ws) := split_slash l in if c =? SLASH then ([], w :: ws) else (c :: w, ws)
  end.
Definition path_elems (l : list Z) : list (list Z) :=
  let '(w, ws) := split_slash l in filter (λ w, w ≠ []) (w :: ws).

Lemma path_elems_slash l : path_elems (SLASH :: l) = path_elems l.
Proof. unfold path_elems. simpl. destruct (split_slash l). by rewrite filter_cons_False by auto. Qed.

(** ** What [skipelem] does, piece by piece *)

Definition nul_free (l : list Z) : Prop := Forall (λ c, c ≠ 0) l.

(** Slashes at the front, then the rest. *)
Lemma skip_slashes_spec l : nul_free l → ∃ l', skip_slashes (l ++ [0]) = l' ++ [0] ∧ path_elems l' = path_elems l ∧
  nul_free l' ∧ (length l' ≤ length l)%nat ∧ head l' ≠ Some SLASH.
Proof.
  induction l as [|c l IH]; intros Hl; simpl; [by exists []|]. apply Forall_cons in Hl as [Hc Hl].
  destruct (Z.eqb_spec c SLASH) as [->|Hne].
  - destruct (IH Hl) as (l' & E & Ee & Hl' & Hn & Hh). exists l'. rewrite path_elems_slash. split_and!; [done..|lia|done].
  - exists (c :: l). split_and!; [done..|by constructor|done|]. simpl. congruence.
Qed.

(** An element, up to the next slash or the end. *)
Lemma span_elem_spec l : nul_free l → ∃ e r, span_elem (l ++ [0]) = (e, r ++ [0]) ∧ l = e ++ r ∧ nul_free r ∧
  (r = [] ∨ head r = Some SLASH) ∧ split_slash l = (e ++ (split_slash r).1, (split_slash r).2) ∧ nul_free e.
Proof.
  induction l as [|c l IH]; intros Hl; simpl; [by exists [], []; naive_solver constructor|].
  apply Forall_cons in Hl as [Hc Hl]. destruct (Z.eqb_spec c SLASH) as [->|Hne].
  - exists [], (SLASH :: l). simpl. split_and!; try done; [by constructor|by right|by destruct (split_slash l)|constructor].
  - destruct (Z.eqb_spec c 0); [done|]. destruct (IH Hl) as (e & r & -> & -> & Hr & Hh & Es & He).
    exists (c :: e), r. split_and!; try done; [|by constructor]. by rewrite Es.
Qed.
Lemma split_first l : l = [] ∨ head l = Some SLASH → (split_slash l).1 = [] ∧
  path_elems l = filter (λ w, w ≠ []) (split_slash l).2.
Proof.
  intros [->|Hh]; [done|]. destruct l as [|c l]; [done|]. injection Hh as ->. unfold path_elems. simpl.
  destruct (split_slash l). simpl. by rewrite filter_cons_False by auto.
Qed.
(** The array [name] with the element [e] in it, cut to [DIRSIZ] characters. *)
Definition elem_buf (e name : list Z) : list Z :=
  if DIRSIZ <=? zlen e then splice 0 (take (Z.to_nat DIRSIZ) e) name else zset (splice 0 e name) (zlen e) 0.

Lemma str_until_nul_app n e l : nul_free e → str_until_nul (length e + n) (e ++ l) = e ++ str_until_nul n l.
Proof. intros He. induction He as [|c e Hc _ IH]; simpl; [done|]. destruct (Z.eqb_spec c 0); [done|]. by rewrite IH. Qed.
Lemma elem_name e name : nul_free e → zlen name = DIRSIZ →
  zlen (elem_buf e name) = DIRSIZ ∧ str_until_nul (Z.to_nat DIRSIZ) (elem_buf e name) = take (Z.to_nat DIRSIZ) e.
Proof.
  intros He Hn. unfold elem_buf. pose proof (zlen_nonneg e). destruct (Z.leb_spec DIRSIZ (zlen e)).
  - assert (zlen (take (Z.to_nat DIRSIZ) e) = DIRSIZ) as Ht by (apply zlen_take; lia).
    rewrite splice_all by congruence. split; [done|].
    assert (length (take (Z.to_nat DIRSIZ) e) = Z.to_nat DIRSIZ) as Hl by (unfold zlen in Ht; lia).
    rewrite <-(app_nil_r (take _ e)) at 1. rewrite <-Hl at 1. rewrite <-(Nat.add_0_r (length _)).
    rewrite str_until_nul_app by (by apply Forall_take). apply app_nil_r.
  - rewrite zlen_zset, zlen_splice by lia. split; [done|]. unfold splice, zset. simpl take. simpl app.
    unfold zlen in *. rewrite Nat2Z.id, insert_app_r_alt, Nat.sub_diag by done.
    destruct (drop (length e) name) as [|c l] eqn:Ed; [apply (f_equal length) in Ed; rewrite length_drop in Ed; simpl in Ed; lia|].
    rewrite (take_ge e) by lia. replace (Z.to_nat DIRSIZ) with (length e + S (Z.to_nat DIRSIZ - length e - 1))%nat by lia.
    rewrite str_until_nul_app by done. simpl. apply app_nil_r.
Qed.

Lemma path_elems_free l e : nul_free l → e ∈ path_elems l → nul_free e.
Proof.
  intros Hl. unfold path_elems. assert (nul_free (split_slash l).1 ∧ Forall nul_free (split_slash l).2) as [H1 H2].
  { induction Hl as [|c l Hc _ [IH1 IH2]]; simpl; [split; constructor|]. destruct (split_slash l) as [w ws]. simpl in *.
    destruct (c =? SLASH); simpl; split; try done; by constructor. }
  destruct (split_slash l) as [w ws]. simpl in *. intros [_ [->|He]%elem_of_cons]%list_elem_of_filter; [done|].
  rewrite Forall_forall in H2. by apply H2.
Qed.

(** [skipelem] on a path: the null pointer when no element is left; otherwise
    [name] gets the first element, and the path returned has the others, is
    shorter, and is at its end exactly when there are no others. *)
Lemma skipelem_spec l name : nul_free l →
  match path_elems l with
  | [] => skipelem (l ++ [0]) name = Some None
  | e :: es => ∃ rest, skipelem (l ++ [0]) name = Some (Some (rest ++ [0], elem_buf e name)) ∧
      path_elems rest = es ∧ nul_free rest ∧ nul_free e ∧ (length rest < length l)%nat ∧ (rest = [] ↔ es = [])
  end.
Proof.
  intros Hl. destruct (skip_slashes_spec l Hl) as (l1 & E1 & Ee1 & Hl1 & Hn1 & Hh1). rewrite <-Ee1.
  unfold skipelem. rewrite E1. destruct l1 as [|c l1]; [done|].
  destruct (span_elem_spec (c :: l1) Hl1) as (e & r & E2 & El & Hr & Hhr & Es & He).
  assert (e ≠ []) as Hne. { intros ->. simpl in El. subst r. destruct Hhr as [|Hhr]; done. }
  destruct (split_first r Hhr) as [Es1 Ee2]. assert (path_elems (c :: l1) = e :: path_elems r) as Epe.
  { unfold path_elems at 1. rewrite Es, Es1, app_nil_r. rewrite filter_cons_True by done. by rewrite Ee2. }
  rewrite Epe. apply Forall_cons in Hl1 as [Hc Hl1]. assert ((c :: l1) ++ [0] = c :: l1 ++ [0]) as Ep by done.
  destruct (skip_slashes_spec r Hr) as (r' & E3 & Ee3 & Hr' & Hn3 & Hh3).
  exists r'. split.
  { revert E2 Ep. generalize ((c :: l1) ++ [0]). intros p E2 Ep. rewrite Ep at 1. destruct (Z.eqb_spec c 0); [done|].
    rewrite E2, E3. by destruct r, r'. }
  split_and!; [done..| |].
  - apply (f_equal length) in El. rewrite length_app in El. destruct e; [done|]. simpl in *. lia.
  - split; [by intros ->|]. intros Hnil. destruct r' as [|c' r']; [done|]. exfalso.
    rewrite <-Ee3 in Hnil. unfold path_elems in Hnil. simpl in Hnil. destruct (split_slash r') as [w ws].
    destruct (Z.eqb_spec c' SLASH) as [->|]; [done|]. by rewrite filter_cons_True in Hnil.
Qed.

(** ** The walk *)

(** The walk from inode [ip] along the elements [es], without any path. *)
Fixpoint walk_elems (parent : bool) (es : list (list Z)) (ip : nat) (name : list Z) : FS (option nat * list Z) :=
  match es with
  | [] => if parent then iput ip ;; mret (None, name) else mret (Some ip, name)
  | e :: es =>
      let name := elem_buf e name in
      ilock ip ;;
      i ← geti ip;
      if negb (i_type i =? T_DIR) then iunlockput ip ;; mret (None, name) else
      if parent && bool_decide (es = []) then iunlock ip ;; mret (Some ip, name) else
      next ← dirlookup ip name;
      match next with
      | None => iunlockput ip ;; mret (None, name)
      | Some (next, _) => iunlockput ip ;; walk_elems parent es next name
      end
  end.

Lemma namex_loop parent n l ip name s : nul_free l → (length l < n)%nat →
  loop n (namex_step parent) (ip, l ++ [0], name) s = walk_elems parent (path_elems l) ip name s.
Proof.
  revert l ip name s. induction n as [|n IH]; intros l ip name s Hl Hn; [lia|]. cbn [loop].
  match goal with |- (_ ≫= ?g) s = _ => set (k := g) end. unfold namex_step.
  pose proof (skipelem_spec l name Hl) as Hspec. destruct (path_elems l) as [|e es]; cbn [walk_elems].
  - rewrite Hspec. rewrite bind_assoc. mget None. destruct parent; [|done]. by rewrite bind_assoc.
  - destruct Hspec as (rest & E & Ees & Hrest & _ & Hlen & Hend). rewrite E, bind_assoc. mget (Some (rest ++ [0], elem_buf e name)).
    rewrite bind_assoc. apply M_bind_ext_r. intros _ s1. rewrite bind_assoc. apply M_bind_ext_r. intros i s2.
    destruct (negb _); [by rewrite bind_assoc|].
    assert (match rest ++ [0] with c :: _ => c =? 0 | [] => false end = bool_decide (es = [])) as ->.
    { destruct rest as [|c rest]; simpl.
      - by rewrite bool_decide_eq_true_2 by (by apply Hend).
      - apply Forall_cons in Hrest as [Hc _]. rewrite bool_decide_eq_false_2 by (intros ?%Hend; done). lia. }
    destruct (parent && _); [by rewrite bind_assoc|].
    rewrite bind_assoc. apply M_bind_ext_r. intros [[nx off]|] s3; [|by rewrite bind_assoc].
    rewrite bind_assoc. apply M_bind_ext_r. intros _ s4. rewrite <-Ees. apply IH; [done|lia].
Qed.

(** C14. [namex] is a walk over the elements of the path: on every path and in
    every state it does what going through the pieces between the slashes, empty
    ones left out, one after the other does (so its loop ends, having gone round
    at most once for each), starting at the root for a path that begins with a
    slash and at the current directory otherwise; and the name it looks up, or
    leaves for the caller, is that element cut to [DIRSIZ] characters. *)
Theorem namex_walks cwd l parent name s : nul_free l → zlen name = DIRSIZ →
  namex cwd (l ++ [0]) parent name s =
    (ip ← (if bool_decide (head l = Some SLASH) then iget ROOTDEV ROOTINO else cwd ← opt cwd; idup cwd);
     walk_elems parent (path_elems l) ip name) s ∧
  ∀ e, e ∈ path_elems l → zlen (elem_buf e name) = DIRSIZ ∧
    str_until_nul (Z.to_nat DIRSIZ) (elem_buf e name) = take (Z.to_nat DIRSIZ) e.
Proof.
  intros Hl Hn. split; [|intros e He; apply elem_name; [by eapply path_elems_free|done]].
  unfold namex. destruct l as [|c l]; cbn [app head opt].
  - mget 0. apply M_bind_ext_r. intros ip s1. apply (namex_loop parent 1 []); [constructor|simpl; lia].
  - mget c. assert (bool_decide (Some c = Some SLASH) = (c =? SLASH)) as ->.
    { destruct (Z.eqb_spec c SLASH); [subst; by apply bool_decide_eq_true_2|]. apply bool_decide_eq_false_2. congruence. }
    apply M_bind_ext_r. intros ip s1. apply (namex_loop parent _ (c :: l)); [done|]. simpl. rewrite length_app. simpl. lia.
Qed.

(** The path [//usr/./a_name_of_sixteen] from the root. *)
Lemma namex_walks_witness :
  let path := [47; 47; 117; 115; 114; 47; 46; 47; 97; 95; 110; 97; 109; 101; 95; 111; 102; 95; 115; 105; 120; 116; 101; 101; 110] in
  let long := [97; 95; 110; 97; 109; 101; 95; 111; 102; 95; 115; 105; 120; 116; 101; 101; 110] in
  path_elems path = [[117; 115; 114]; [46]; long] ∧
  (∀ s, namex None (path ++ [0]) true (zrepl DIRSIZ 0) s =
    (ip ← iget ROOTDEV ROOTINO; walk_elems true [[117; 115; 114]; [46]; long] ip (zrepl DIRSIZ 0)) s) ∧
  str_until_nul (Z.to_nat DIRSIZ) (elem_buf long (zrepl DIRSIZ 0)) = take 14 long.
Proof.
  cbv zeta. set (path := [47; 47; 117; 115; 114; 47; 46; 47; 97; 95; 110; 97; 109; 101; 95; 111; 102; 95; 115; 105; 120; 116; 101; 101; 110]).
  assert (nul_free path) as Hf by (repeat constructor; discriminate).
  split; [reflexivity|]. split.
  - intros s. destruct (namex_walks None path true (zrepl DIRSIZ 0) s) as [-> _]; [exact Hf|reflexivity|reflexivity].
  - destruct (namex_walks None path true (zrepl DIRSIZ 0) (MkFs (boot_log ∅ 0) (MkSb 0 0 0 0 0 0 0 0) false [] false [] ∅ (MkCons [] 0 0 0 [])))
      as [_ H]; [exact Hf|reflexivity|]. apply H. repeat constructor.
Defined.
