(* ===== verification/FsProps.v ===== *)
(** * The block allocator and the inodes on disk

    What [fs.c] does to blocks inside a transaction: [balloc] and [bfree] as
    operations on the set of free blocks, and inodes written to the disk and
    read back. [ftrans s P H] is a file system in the middle of a transaction
    with [P] logged and the buffers [H] held; [fview s b] is the contents of
    block [b] as the rest of the transaction sees it. *)

From stdpp Require Import base numbers list gmap strings.
From S2P Require Import Prelude Machine KState Bio BufProps Log LogProps LogUse Disk Raid Str Fs.
Open Scope Z_scope.
Open Scope kernel_scope.

Implicit Types (s : fsst) (P : list Z) (H : list (nat * Z)).

Abbreviation ftrans s := (in_trans (fs_log s)).
Definition fview s (b : Z) : list Z := bc_view (l_bc (fs_log s)) b.
#[global] Arguments fview : simpl never.

(** Only the log has changed, and in it only the contents of blocks, to [v]. *)
Record fshows (v : Z → list Z) s s' : Prop := {
  fm_rest : s' = s <| fs_log := fs_log s' |>;
  fm_log : shows v (fs_log s) (fs_log s');
}.
Abbreviation fcalm s s' := (fshows (fview s) s s').

Lemma fm_view v s s' b : fshows v s s' → fview s' b = v b.
Proof. intros [_ [_ _ Hv]]. apply Hv. Qed.
Lemma fm_home v s s' b : fshows v s s' → home (fs_log s') b ↔ home (fs_log s) b.
Proof. intros [_ [[] _ _]]. unfold home, in_log. by rewrite sl_st. Qed.
Lemma fm_sb v s s' : fshows v s s' → fs_sb s' = fs_sb s ∧ fs_inode s' = fs_inode s ∧ fs_itlock s' = fs_itlock s.
Proof. intros [-> _]. done. Qed.
Lemma fm_trans v v' s1 s2 s3 : fshows v s1 s2 → fshows v' s2 s3 → fshows v' s1 s3.
Proof. intros [E1 H1] [E2 H2]. split; [rewrite E2, E1; done|by eapply shows_trans]. Qed.
Lemma fcalm_refl s : fcalm s s.
Proof. split; [by destruct s|]. by split; [split|..]. Qed.
Lemma fm_ext v v' s s' : (∀ b, v b = v' b) → fshows v s s' → fshows v' s s'.
Proof. intros E [H1 []]. split; [done|]. split; [done..|]. congruence. Qed.

Lemma lift_log_ok {A} (m : LG A) s a l' : m (fs_log s) = Ok (a, l') → lift_log m s = Ok (a, s <| fs_log := l' |>).
Proof. unfold lift_log. by intros ->. Qed.
Lemma fshows_of v s l' : shows v (fs_log s) l' → fshows v s (s <| fs_log := l' |>).
Proof. by split. Qed.

(** ** Blocks *)

Lemma fs_bread s P H b : ftrans s P H → 0 ≤ b < FSSIZE → b ∉ H.*2 → zlen P + zlen H < NBUF →
  ∃ i s', lift_buf (bread ROOTDEV b) s = Ok (i, s') ∧ ftrans s' P ((i, b) :: H) ∧ fcalm s s'.
Proof.
  intros Ht Hb Hn Hl. destruct (use_bread _ _ _ _ Ht Hb Hn Hl) as (i & l' & E & Ht' & Hm).
  exists i, (s <| fs_log := l' |>). split; [by apply lift_log_ok|]. split; [done|by apply fshows_of].
Qed.
Lemma fs_data s P H i b : ftrans s P H → (i, b) ∈ H → data_of i s = Ok (fview s b, s).
Proof.
  intros Ht Hi. destruct (use_getb _ _ _ _ _ Ht Hi) as (o & E & Ev). unfold data_of.
  erewrite bind_step by (apply lift_log_ok, E). unfold fview. rewrite <-Ev. apply Ok_pair. by destruct s.
Qed.
(** Change a held block, log it, and go on. *)
Lemma fs_write s P H i b d : ftrans s P H → (i, b) ∈ H → home (fs_log s) b → zlen d = BSIZE → zlen P + 1 < NBUF →
  ∃ s1 s', set_data i d s = Ok (tt, s1) ∧ lift_log (log_write i) s1 = Ok (tt, s') ∧
    ftrans s' (logged P b) H ∧ fshows (with_block (fview s) b d) s s'.
Proof.
  intros Ht Hi Hb Hd Hl. destruct (use_write _ _ _ i b (λ _, d) Ht Hi Hb Hd Hl) as (l1 & l' & E1 & E2 & Ht' & Hm).
  exists (s <| fs_log := l1 |>), (s <| fs_log := l' |>). split; [by apply lift_log_ok|].
  split; [by erewrite lift_log_ok by (exact E2)|]. split; [done|by apply fshows_of].
Qed.
Lemma fs_brelse s P H i b : ftrans s P ((i, b) :: H) →
  ∃ s', lift_buf (brelse i) s = Ok (tt, s') ∧ ftrans s' P H ∧ fcalm s s'.
Proof.
  intros Ht. destruct (use_brelse _ _ _ _ _ Ht) as (l' & E & Ht' & Hm).
  exists (s <| fs_log := l' |>). split; [by apply lift_log_ok|]. split; [done|by apply fshows_of].
Qed.
Lemma fview_len s P H b : ftrans s P H → zlen (fview s b) = BSIZE.
Proof. intros []. by eapply viewx_len. Qed.

(** Read a block, write it and log it, release it: the common case, in the form
    the code has after [bread] and a look at the data. *)
Lemma fs_update s P H b d : ftrans s P H → home (fs_log s) b → b ∉ H.*2 → zlen d = BSIZE →
  zlen P + 1 < NBUF → zlen P + zlen H < NBUF →
  ∃ i s1 s2 s3 s', lift_buf (bread ROOTDEV b) s = Ok (i, s1) ∧ data_of i s1 = Ok (fview s b, s1) ∧
    set_data i d s1 = Ok (tt, s2) ∧ lift_log (log_write i) s2 = Ok (tt, s3) ∧ lift_buf (brelse i) s3 = Ok (tt, s') ∧
    ftrans s' (logged P b) H ∧ fshows (with_block (fview s) b d) s s'.
Proof.
  intros Ht Hb Hn Hd Hl1 Hl2. destruct (fs_bread _ _ _ _ Ht (proj1 Hb) Hn Hl2) as (i & s1 & E1 & Ht1 & Hm1).
  destruct (fs_write s1 P _ i b d Ht1) as (s2 & s3 & E2 & E3 & Ht3 & Hm3); [apply list_elem_of_here|by apply (fm_home _ _ _ _ Hm1)|done..|].
  destruct (fs_brelse _ _ _ _ _ Ht3) as (s4 & E4 & Ht4 & Hm4).
  exists i, s1, s2, s3, s4. split_and!; try done.
  - rewrite (fs_data _ _ _ _ _ Ht1 ltac:(apply list_elem_of_here)). by rewrite (fm_view _ _ _ _ Hm1).
  - eapply fm_ext; [|eapply fm_trans; [exact Hm1|eapply fm_trans; [exact Hm3|exact Hm4]]].
    intros b'. simpl. rewrite (fm_view _ _ _ _ Hm3). unfold with_block. by rewrite (fm_view _ _ _ _ Hm1).
Qed.
(** Read a block, look, release it. *)
Lemma fs_look s P H b : ftrans s P H → 0 ≤ b < FSSIZE → b ∉ H.*2 → zlen P + zlen H < NBUF →
  ∃ i s1 s', lift_buf (bread ROOTDEV b) s = Ok (i, s1) ∧ data_of i s1 = Ok (fview s b, s1) ∧
    lift_buf (brelse i) s1 = Ok (tt, s') ∧ ftrans s' P H ∧ fcalm s s'.
Proof.
  intros Ht Hb Hn Hl. destruct (fs_bread _ _ _ _ Ht Hb Hn Hl) as (i & s1 & E1 & Ht1 & Hm1).
  destruct (fs_brelse _ _ _ _ _ Ht1) as (s2 & E2 & Ht2 & Hm2). exists i, s1, s2. split_and!; try done.
  - rewrite (fs_data _ _ _ _ _ Ht1 ltac:(apply list_elem_of_here)). by rewrite (fm_view _ _ _ _ Hm1).
  - eapply fm_ext; [|eapply fm_trans; [exact Hm1|exact Hm2]]. intros b'. apply (fm_view _ _ _ _ Hm1).
Qed.

(** ** Bitmaps *)

Lemma land_bit x m : 0 ≤ m → (Z.land x (Z.shiftl 1 m) =? 0) = negb (Z.testbit x m).
Proof.
  intros Hm. destruct (Z.testbit x m) eqn:E; simpl.
  - apply Z.eqb_neq. intros Hz. apply (f_equal (λ z, Z.testbit z m)) in Hz.
    by rewrite Z.land_spec, E, Z.shiftl_1_l, Z.pow2_bits_true, Z.bits_0 in Hz.
  - apply Z.eqb_eq. apply Z.bits_inj'. intros k Hk. rewrite Z.land_spec, Z.shiftl_1_l, Z.bits_0.
    destruct (decide (k = m)) as [->|]; [by rewrite E|]. rewrite Z.pow2_bits_false by done. apply andb_false_r.
Qed.
Lemma bit_clear_ok d bi : zlen d = BSIZE → 0 ≤ bi < BPB →
  ∃ byte, znth d (bi / 8) = Some byte ∧ bit_clear d bi = negb (Z.testbit byte (bi mod 8)).
Proof.
  intros Hd Hb. destruct (znth_lt d (bi / 8)) as [byte E]; [rewrite Hd; dlia|]. exists byte. split; [done|].
  unfold bit_clear. rewrite E. apply land_bit. dlia.
Qed.
Lemma zlen_set_bit d bi : zlen (set_bit d bi) = zlen d.
Proof. unfold set_bit. destruct (znth _ _); [apply zlen_zset|done]. Qed.
Lemma zlen_clear_bit d bi : zlen (clear_bit d bi) = zlen d.
Proof. unfold clear_bit. destruct (znth _ _); [apply zlen_zset|done]. Qed.

(** Marking one block leaves the bits of the others alone. *)
Lemma bit_clear_upd d i j byte byte' : zlen d = BSIZE → 0 ≤ i < BPB → 0 ≤ j < BPB → znth d (i / 8) = Some byte →
  (∀ k, 0 ≤ k < 8 → k ≠ i mod 8 → Z.testbit byte' k = Z.testbit byte k) →
  bit_clear (zset d (i / 8) byte') j = if decide (j = i) then negb (Z.testbit byte' (i mod 8)) else bit_clear d j.
Proof.
  intros Hd Hi Hj Hb Hk. destruct (bit_clear_ok (zset d (i / 8) byte') j) as (b1 & E1 & ->); [by rewrite zlen_zset|done|].
  destruct (bit_clear_ok d j) as (b2 & E2 & ->); [done..|].
  assert (0 ≤ i / 8 < zlen d) as Hr by (rewrite Hd; dlia).
  destruct (decide (j = i)) as [->|Hne]; [rewrite znth_zset_eq in E1 by done; by injection E1 as <-|].
  destruct (decide (i / 8 = j / 8)) as [Eq|Hnq].
  - rewrite <-Eq in E1, E2. rewrite znth_zset_eq in E1 by done. injection E1 as <-.
    rewrite Hk; [congruence|dlia|dlia].
  - rewrite znth_zset_ne in E1 by lia. congruence.
Qed.
Lemma bit_clear_set d i j : zlen d = BSIZE → 0 ≤ i < BPB → 0 ≤ j < BPB →
  bit_clear (set_bit d i) j = if decide (j = i) then false else bit_clear d j.
Proof.
  intros Hd Hi Hj. unfold set_bit. destruct (bit_clear_ok d i) as (b & E & _); [done..|]. rewrite E.
  erewrite bit_clear_upd by (try done; intros k Hk Hne; rewrite Z.lor_spec, Z.shiftl_1_l, Z.pow2_bits_false by lia; apply orb_false_r).
  destruct (decide _); [|done]. rewrite Z.lor_spec, Z.shiftl_1_l, Z.pow2_bits_true by dlia. by rewrite orb_true_r.
Qed.
Lemma bit_clear_clear d i j : zlen d = BSIZE → 0 ≤ i < BPB → 0 ≤ j < BPB →
  bit_clear (clear_bit d i) j = if decide (j = i) then true else bit_clear d j.
Proof.
  intros Hd Hi Hj. unfold clear_bit. destruct (bit_clear_ok d i) as (b & E & _); [done..|]. rewrite E.
  erewrite bit_clear_upd by (try done; intros k Hk Hne; rewrite Z.land_spec, Z.lnot_spec, Z.shiftl_1_l, Z.pow2_bits_false by lia; apply andb_true_r).
  destruct (decide _); [|done]. rewrite Z.land_spec, Z.lnot_spec, Z.shiftl_1_l, Z.pow2_bits_true by dlia. by rewrite andb_false_r.
Qed.

(** ** The allocator *)

Definition nbitmap (sb : superblock) : Z := (sb_size sb + BPB - 1) / BPB.
Definition bmap_block (sb : superblock) (b : Z) : Z := sb_bmapstart sb + b / BPB.
(** The bit of block [b] is clear. *)
Definition is_free s (b : Z) : bool := bit_clear (fview s (bmap_block (fs_sb s) b)) (b mod BPB).

(** The bitmap and the free blocks are blocks of the file system, not in use by
    the caller, and no free block is in the bitmap. *)
Record alloc_ok s H : Prop := {
  al_size : 0 ≤ sb_size (fs_sb s) ≤ FSSIZE;
  al_bmap k : 0 ≤ k < nbitmap (fs_sb s) →
    home (fs_log s) (sb_bmapstart (fs_sb s) + k) ∧ sb_bmapstart (fs_sb s) + k ∉ H.*2;
  al_free b : 0 ≤ b < sb_size (fs_sb s) → is_free s b = true →
    home (fs_log s) b ∧ b ∉ H.*2 ∧ ∀ k, 0 ≤ k < nbitmap (fs_sb s) → b ≠ sb_bmapstart (fs_sb s) + k;
}.

Lemma is_free_calm s s' b : fcalm s s' → is_free s' b = is_free s b.
Proof. intros Hm. unfold is_free. destruct (fm_sb _ _ _ Hm) as (-> & _). by rewrite (fm_view _ _ _ _ Hm). Qed.
Lemma alloc_ok_calm s s' H : fcalm s s' → alloc_ok s H → alloc_ok s' H.
Proof.
  intros Hm [H1 H2 H3]. destruct (fm_sb _ _ _ Hm) as (E & _). split; rewrite E; [done| |].
  - intros k Hk. rewrite (fm_home _ _ _ _ Hm). auto.
  - intros b Hb. rewrite (is_free_calm _ _ _ Hm), (fm_home _ _ _ _ Hm). auto.
Qed.

(** Block [b] is bit [b mod BPB] of a bitmap block. *)
Lemma block_parts s H b : alloc_ok s H → 0 ≤ b < sb_size (fs_sb s) →
  0 ≤ b / BPB < nbitmap (fs_sb s) ∧ 0 ≤ b mod BPB < Z.min BPB (sb_size (fs_sb s) - b / BPB * BPB) ∧
  b / BPB * BPB + b mod BPB = b ∧ BBLOCK b (fs_sb s) = bmap_block (fs_sb s) b.
Proof.
  intros Hal Hb. assert (0 ≤ b / BPB < nbitmap (fs_sb s)) as Hk by (unfold nbitmap; dlia).
  split; [done|]. split; [dlia|]. split; [dlia|]. destruct (al_bmap _ _ Hal _ Hk) as [[Hh _] _].
  unfold BBLOCK, bmap_block. rewrite Z.add_comm. apply wrap_id. lia.
Qed.
Lemma chunk_block s k i : 0 ≤ k → 0 ≤ i < Z.min BPB (sb_size (fs_sb s) - k * BPB) →
  0 ≤ k * BPB + i < sb_size (fs_sb s) ∧ (k * BPB + i) / BPB = k ∧ (k * BPB + i) mod BPB = i.
Proof. intros. split; [lia|]. split; dlia. Qed.

(** A bitmap block with no clear bit is passed over. *)
Lemma balloc1_full s P H k : ftrans s P H → alloc_ok s H → 0 ≤ k < nbitmap (fs_sb s) → zlen P + zlen H < NBUF →
  (∀ b, 0 ≤ b < sb_size (fs_sb s) → b / BPB = k → is_free s b = false) →
  ∃ s', balloc1 ROOTDEV k s = Ok (None, s') ∧ ftrans s' P H ∧ fcalm s s'.
Proof.
  intros Ht Hal Hk Hl Hno. destruct (al_bmap _ _ Hal k Hk) as [[Hb Hnl] HnH].
  destruct (fs_look s P H (sb_bmapstart (fs_sb s) + k)) as (i & s1 & s' & E1 & E2 & E3 & Ht' & Hm); [done..|].
  exists s'. split; [|done]. unfold balloc1. mget (fs_sb s). unfold BBLOCK. rewrite Z.div_mul by lia.
  rewrite (Z.add_comm k), wrap_id by lia. rewrite (bind_step _ _ _ _ _ E1), (bind_step _ _ _ _ _ E2).
  assert (first_some (λ bi, if bit_clear (fview s (sb_bmapstart (fs_sb s) + k)) bi then Some bi else None)
    (upto (Z.min BPB (sb_size (fs_sb s) - k * BPB))) = None) as ->.
  { rewrite <-(app_nil_r (upto _)). rewrite first_some_skip; [done|]. intros x Hx%elem_of_upto.
    destruct (chunk_block s k x) as (A1 & A2 & A3); [lia|done|]. specialize (Hno _ A1 A2). unfold is_free, bmap_block in Hno.
    rewrite A2, A3 in Hno. by rewrite Hno. }
  by rewrite (bind_step _ _ _ _ _ E3).
Qed.

Lemma balloc_scan P H l s : ftrans s P H → alloc_ok s H → zlen P + zlen H < NBUF →
  (∀ k, k ∈ l → 0 ≤ k < nbitmap (fs_sb s)) →
  (∀ b, 0 ≤ b < sb_size (fs_sb s) → b / BPB ∈ l → is_free s b = false) →
  ∃ s', for_find (balloc1 ROOTDEV) l s = Ok (None, s') ∧ ftrans s' P H ∧ fcalm s s'.
Proof.
  revert s. induction l as [|k l IH]; intros s Ht Hal Hl Hk Hno; [exists s; split_and!; [done..|apply fcalm_refl]|].
  destruct (balloc1_full s P H k) as (s1 & E1 & Ht1 & Hm1);
    [done|done|apply Hk; set_solver|done|intros b Hb Eb; apply Hno; [done|set_solver]|].
  destruct (fm_sb _ _ _ Hm1) as (Esb & _).
  destruct (IH s1) as (s' & E & Ht' & Hm'); [done|by eapply alloc_ok_calm|done| | |].
  - intros x Hx. rewrite Esb. apply Hk. set_solver.
  - intros b Hb Hbl. rewrite Esb in Hb. rewrite (is_free_calm _ _ _ Hm1). apply Hno; [done|set_solver].
  - exists s'. split; [simpl; by rewrite (bind_step _ _ _ _ _ E1)|]. split; [done|].
    eapply fm_ext; [|eapply fm_trans; [exact Hm1|exact Hm']]. intros b. apply (fm_view _ _ _ _ Hm1).
Qed.

Lemma bzero_ok s P H b : ftrans s P H → home (fs_log s) b → b ∉ H.*2 → zlen P + 1 < NBUF → zlen P + zlen H < NBUF →
  ∃ s', bzero ROOTDEV b s = Ok (tt, s') ∧ ftrans s' (logged P b) H ∧
    fshows (with_block (fview s) b (zrepl BSIZE 0)) s s'.
Proof.
  intros Ht Hb Hn Hl1 Hl2. destruct (fs_update s P H b (zrepl BSIZE 0)) as (i & s1 & s2 & s3 & s' & E1 & _ & E2 & E3 & E4 & H'); [done..|].
  exists s'. split; [|done]. unfold bzero. rewrite wrap_id by (destruct Hb; lia).
  by rewrite (bind_step _ _ _ _ _ E1), (bind_step _ _ _ _ _ E2), (bind_step _ _ _ _ _ E3).
Qed.

(** The contents after [balloc] of [b]: its bit set, and the block zeroed. *)
Definition alloc_view s (b : Z) : Z → list Z :=
  with_block (with_block (fview s) (bmap_block (fs_sb s) b) (set_bit (fview s (bmap_block (fs_sb s) b)) (b mod BPB)))
    b (zrepl BSIZE 0).

Lemma balloc1_takes s P H b : ftrans s P H → alloc_ok s H → zlen P + 2 < NBUF → zlen P + 1 + zlen H < NBUF →
  0 ≤ b < sb_size (fs_sb s) → is_free s b = true →
  (∀ b', 0 ≤ b' < b → b' / BPB = b / BPB → is_free s b' = false) →
  ∃ s', balloc1 ROOTDEV (b / BPB) s = Ok (Some b, s') ∧
    ftrans s' (logged (logged P (bmap_block (fs_sb s) b)) b) H ∧ fshows (alloc_view s b) s s'.
Proof.
  intros Ht Hal Hl1 Hl2 Hb Hf Hmin. destruct (block_parts s H b Hal Hb) as (Hk & Hi & Eb & EB).
  destruct (al_bmap _ _ Hal _ Hk) as [Hbm HbmH]. destruct (al_free _ _ Hal b Hb Hf) as (Hbh & HbH & Hbk).
  set (B := bmap_block (fs_sb s) b). fold B in EB. change (sb_bmapstart (fs_sb s) + b / BPB) with B in *.
  destruct (fs_update s P H B (set_bit (fview s B) (b mod BPB))) as (i & s1 & s2 & s3 & s4 & E1 & E2 & E3 & E4 & E5 & Ht4 & Hm4);
    [done..|rewrite zlen_set_bit; by eapply fview_len|lia|lia|].
  pose proof (length_logged P B) as Hll.
  destruct (bzero_ok s4 (logged P B) H b) as (s' & E6 & Ht' & Hm'); [done|by apply (fm_home _ _ _ _ Hm4)|done|lia|lia|].
  exists s'. split; [|split; [done|]].
  - unfold balloc1. mget (fs_sb s). assert (BBLOCK (b / BPB * BPB) (fs_sb s) = B) as ->.
    { rewrite <-EB. unfold BBLOCK. by rewrite Z.div_mul. }
    rewrite (bind_step _ _ _ _ _ E1), (bind_step _ _ _ _ _ E2).
    assert (first_some (λ bi, if bit_clear (fview s B) bi then Some bi else None)
      (upto (Z.min BPB (sb_size (fs_sb s) - b / BPB * BPB))) = Some (b mod BPB)) as ->.
    { rewrite (upto_split _ (b mod BPB)) by lia. rewrite first_some_skip; [simpl; unfold is_free in Hf; fold B in Hf; by rewrite Hf|].
      intros x Hx%elem_of_upto. destruct (chunk_block s (b / BPB) x) as (A1 & A2 & A3); [lia|lia|].
      assert (is_free s (b / BPB * BPB + x) = false) as Hx' by (apply Hmin; lia).
      unfold is_free, bmap_block in Hx'. rewrite A2, A3 in Hx'. change (sb_bmapstart (fs_sb s) + b / BPB) with B in Hx'. by rewrite Hx'. }
    rewrite (bind_step _ _ _ _ _ E3), (bind_step _ _ _ _ _ E4), (bind_step _ _ _ _ _ E5), Eb.
    by rewrite (bind_step _ _ _ _ _ E6).
  - eapply fm_ext; [|eapply fm_trans; [exact Hm4|exact Hm']]. intros x. unfold alloc_view. fold B.
    unfold with_block at 1 2. destruct (decide (x = b)); [done|]. apply (fm_view _ _ _ _ Hm4).
Qed.

Lemma balloc_takes s P H b : ftrans s P H → alloc_ok s H → zlen P + 2 < NBUF → zlen P + 1 + zlen H < NBUF →
  0 ≤ b < sb_size (fs_sb s) → is_free s b = true → (∀ b', 0 ≤ b' < b → is_free s b' = false) →
  ∃ s', balloc ROOTDEV s = Ok (b, s') ∧
    ftrans s' (logged (logged P (bmap_block (fs_sb s) b)) b) H ∧ fshows (alloc_view s b) s s'.
Proof.
  intros Ht Hal Hl1 Hl2 Hb Hf Hmin. destruct (block_parts s H b Hal Hb) as (Hk & _).
  destruct (balloc_scan P H (upto (b / BPB)) s) as (s1 & E1 & Ht1 & Hm1); [done|done|lia| | |].
  { intros k Hk'%elem_of_upto. lia. }
  { intros x Hx Hx'%elem_of_upto. apply Hmin. dlia. }
  destruct (fm_sb _ _ _ Hm1) as (Esb & _).
  destruct (balloc1_takes s1 P H b) as (s' & E & Ht' & Hm'); [done|by eapply alloc_ok_calm|done|done|by rewrite Esb| | |].
  { by rewrite (is_free_calm _ _ _ Hm1). }
  { intros x Hx _. rewrite (is_free_calm _ _ _ Hm1). by apply Hmin. }
  rewrite Esb in Ht'. exists s'. split; [|split; [done|]].
  - unfold balloc. mget (fs_sb s). erewrite (bind_step _ _ _ (Some b)); [reflexivity|]. fold (nbitmap (fs_sb s)).
    rewrite (upto_split _ (b / BPB)) by done. rewrite for_find_app, (bind_step _ _ _ _ _ E1). simpl.
    by rewrite (bind_step _ _ _ _ _ E).
  - eapply fm_ext; [|eapply fm_trans; [exact Hm1|exact Hm']]. intros x. unfold alloc_view. rewrite Esb.
    unfold with_block. rewrite !(fm_view _ _ _ _ Hm1). done.
Qed.

(** The free blocks after [v] has changed the bitmap block of [b], at its bit only. *)
Lemma is_free_upd s s' v H b d x c : fshows v s s' → alloc_ok s H → 0 ≤ b < sb_size (fs_sb s) → 0 ≤ x < sb_size (fs_sb s) →
  v (bmap_block (fs_sb s) b) = d → (∀ k, k ≠ bmap_block (fs_sb s) b → (∃ j, 0 ≤ j < nbitmap (fs_sb s) ∧ k = sb_bmapstart (fs_sb s) + j) → v k = fview s k) →
  (∀ j, 0 ≤ j < BPB → bit_clear d j = if decide (j = b mod BPB) then c else bit_clear (fview s (bmap_block (fs_sb s) b)) j) →
  is_free s' x = if decide (x = b) then c else is_free s x.
Proof.
  intros Hm Hal Hb Hx Hd Hoth Hbit. unfold is_free. destruct (fm_sb _ _ _ Hm) as (-> & _). rewrite (fm_view _ _ _ _ Hm).
  destruct (block_parts s H x Hal Hx) as (Hk & _). assert (0 ≤ x mod BPB < BPB) as Hxm by (apply Z.mod_pos_bound; lia).
  destruct (decide (x / BPB = b / BPB)) as [E|Hne].
  - assert (bmap_block (fs_sb s) x = bmap_block (fs_sb s) b) as -> by (unfold bmap_block; by rewrite E).
    rewrite Hd, Hbit by done. destruct (decide (x mod BPB = b mod BPB)), (decide (x = b)); subst; try done. exfalso. dlia.
  - rewrite Hoth; [|unfold bmap_block; lia|by exists (x / BPB)]. rewrite decide_False; [done|]. congruence.
Qed.

Lemma bfree_ok s P H b : ftrans s P H → alloc_ok s H → zlen P + 1 < NBUF → zlen P + zlen H < NBUF →
  0 ≤ b < sb_size (fs_sb s) → is_free s b = false →
  ∃ s', bfree ROOTDEV b s = Ok (tt, s') ∧ ftrans s' (logged P (bmap_block (fs_sb s) b)) H ∧
    fshows (with_block (fview s) (bmap_block (fs_sb s) b) (clear_bit (fview s (bmap_block (fs_sb s) b)) (b mod BPB))) s s'.
Proof.
  intros Ht Hal Hl1 Hl2 Hb Hf. destruct (block_parts s H b Hal Hb) as (Hk & Hi & Eb & EB).
  destruct (al_bmap _ _ Hal _ Hk) as [Hbm HbmH]. set (B := bmap_block (fs_sb s) b).
  destruct (fs_update s P H B (clear_bit (fview s B) (b mod BPB))) as (i & s1 & s2 & s3 & s4 & E1 & E2 & E3 & E4 & E5 & Ht4 & Hm4);
    [done..|rewrite zlen_clear_bit; by eapply fview_len|lia|lia|].
  exists s4. split; [|done]. unfold bfree. mget (fs_sb s). rewrite EB. fold B.
  rewrite (bind_step _ _ _ _ _ E1), (bind_step _ _ _ _ _ E2). unfold is_free in Hf. fold B in Hf. rewrite Hf.
  by rewrite (bind_step _ _ _ _ _ E3), (bind_step _ _ _ _ _ E4).
Qed.
Lemma bfree_panics s P H b : ftrans s P H → alloc_ok s H → zlen P + zlen H < NBUF →
  0 ≤ b < sb_size (fs_sb s) → is_free s b = true → bfree ROOTDEV b s = Panic "freeing free block".
Proof.
  intros Ht Hal Hl Hb Hf. destruct (block_parts s H b Hal Hb) as (Hk & _ & _ & EB).
  destruct (al_bmap _ _ Hal _ Hk) as [[Hbm _] HbmH].
  destruct (fs_look s P H (bmap_block (fs_sb s) b)) as (i & s1 & s2 & E1 & E2 & _); [done..|].
  unfold bfree. mget (fs_sb s). rewrite EB, (bind_step _ _ _ _ _ E1), (bind_step _ _ _ _ _ E2).
  unfold is_free in Hf. by rewrite Hf.
Qed.

(** What [bfree] does to the block and to the rest. *)
Lemma bfree_effect s P H b : ftrans s P H → alloc_ok s H → zlen P + 1 < NBUF → zlen P + zlen H < NBUF →
  0 ≤ b < sb_size (fs_sb s) → is_free s b = false →
  ∃ s' v, bfree ROOTDEV b s = Ok (tt, s') ∧ ftrans s' (logged P (bmap_block (fs_sb s) b)) H ∧ fshows v s s' ∧
    (∀ x, 0 ≤ x < sb_size (fs_sb s) → is_free s' x = if decide (x = b) then true else is_free s x) ∧
    ∀ x, x ≠ bmap_block (fs_sb s) b → fview s' x = fview s x.
Proof.
  intros Ht Hal Hl1 Hl2 Hb Hf. destruct (bfree_ok s P H b) as (s' & E & Ht' & Hm); [done..|].
  eexists s', _. split_and!; [done|done|exact Hm| |].
  - intros x Hx. eapply (is_free_upd s s' _ H); [exact Hm|done|done|done|reflexivity| |].
    + intros k Hkb _. unfold with_block. by rewrite decide_False.
    + intros j Hj. unfold with_block. rewrite decide_True by done.
      apply bit_clear_clear; [by eapply fview_len|apply Z.mod_pos_bound; lia|done].
  - intros x H1. rewrite (fm_view _ _ _ _ Hm). unfold with_block. by rewrite decide_False.
Qed.

(** What [balloc] does to the lowest free block and to the rest. *)
Lemma balloc_effect s P H b : ftrans s P H → alloc_ok s H → zlen P + 2 < NBUF → zlen P + 1 + zlen H < NBUF →
  0 ≤ b < sb_size (fs_sb s) → is_free s b = true → (∀ b', 0 ≤ b' < b → is_free s b' = false) →
  ∃ s' v, balloc ROOTDEV s = Ok (b, s') ∧ ftrans s' (logged (logged P (bmap_block (fs_sb s) b)) b) H ∧ fshows v s s' ∧
    fview s' b = zrepl BSIZE 0 ∧ (∀ x, 0 ≤ x < sb_size (fs_sb s) → is_free s' x = if decide (x = b) then false else is_free s x) ∧
    ∀ x, x ≠ b → x ≠ bmap_block (fs_sb s) b → fview s' x = fview s x.
Proof.
  intros Ht Hal Hl1 Hl2 Hb Hf Hmin. destruct (balloc_takes s P H b) as (s' & E & Ht' & Hm); [done..|].
  destruct (al_free _ _ Hal b Hb Hf) as (_ & _ & Hbk). pose proof (block_parts s H b Hal Hb) as (Hk & _).
  exists s', (alloc_view s b). split_and!; [done..| | |].
  - rewrite (fm_view _ _ _ _ Hm). unfold alloc_view, with_block at 1. by rewrite decide_True.
  - intros x Hx. eapply (is_free_upd s s' _ H); [exact Hm|done|done|done|reflexivity| |].
    + intros k Hkb (j & Hj & ->). unfold alloc_view, with_block. rewrite decide_False by (intros E'; by apply (Hbk j)).
      by rewrite decide_False.
    + intros j Hj. unfold alloc_view, with_block. rewrite decide_False, decide_True by (done || intros E'; symmetry in E'; by apply (Hbk _ Hk)).
      apply bit_clear_set; [by eapply fview_len|apply Z.mod_pos_bound; lia|done].
  - intros x H1 H2. rewrite (fm_view _ _ _ _ Hm). unfold alloc_view, with_block. by rewrite !decide_False.
Qed.

(** C15. The block allocator is a set of free blocks. [balloc] returns the lowest
    free block, zeroed and no longer free, and changes nothing else but that
    block's bit; with no block free it returns 0 and changes nothing. [bfree]
    makes a block free again and changes nothing else, and panics on a block
    that is free already. All of it is logged in the transaction under way. *)
Theorem block_allocator s P H : ftrans s P H → alloc_ok s H → zlen P + 2 < NBUF → zlen P + 1 + zlen H < NBUF →
  let size := sb_size (fs_sb s) in
  ((∀ b, 0 ≤ b < size → is_free s b = false) → ∃ s', balloc ROOTDEV s = Ok (0, s') ∧ ftrans s' P H ∧ fcalm s s') ∧
  (∀ b, 0 ≤ b < size → is_free s b = true → (∀ b', 0 ≤ b' < b → is_free s b' = false) →
    ∃ s', balloc ROOTDEV s = Ok (b, s') ∧ ftrans s' (logged (logged P (bmap_block (fs_sb s) b)) b) H ∧
      fview s' b = zrepl BSIZE 0 ∧ (∀ x, 0 ≤ x < size → is_free s' x = if decide (x = b) then false else is_free s x) ∧
      ∀ x, x ≠ b → x ≠ bmap_block (fs_sb s) b → fview s' x = fview s x) ∧
  ∀ b, 0 ≤ b < size →
    if is_free s b then bfree ROOTDEV b s = Panic "freeing free block" else
    ∃ s', bfree ROOTDEV b s = Ok (tt, s') ∧ ftrans s' (logged P (bmap_block (fs_sb s) b)) H ∧
      (∀ x, 0 ≤ x < size → is_free s' x = if decide (x = b) then true else is_free s x) ∧
      ∀ x, x ≠ bmap_block (fs_sb s) b → fview s' x = fview s x.
Proof.
  intros Ht Hal Hl1 Hl2 size. split_and!.
  - intros Hno. destruct (balloc_scan P H (upto (nbitmap (fs_sb s))) s) as (s' & E & H'); [done|done|lia| | |].
    + intros k Hk%elem_of_upto. done.
    + intros b Hb _. by apply Hno.
    + exists s'. split; [|done]. unfold balloc. mget (fs_sb s). by erewrite bind_step by exact E.
  - intros b Hb Hf Hmin. destruct (balloc_effect s P H b) as (s' & v & E & Ht' & _ & H1 & H2 & H3); [done..|]. by exists s'.
  - intros b Hb. destruct (is_free s b) eqn:Hf; [eapply bfree_panics; try done; lia|].
    destruct (bfree_effect s P H b) as (s' & v & E & Ht' & _ & H1 & H2); [done|done|lia|lia|done|done|]. by exists s'.
Qed.

(** ** Inodes on the disk *)

Lemma zlen_le_of n v : zlen (le_of n v) = Z.of_nat n.
Proof. unfold zlen. by rewrite length_le_of. Qed.
Lemma zlen_putu off n v d : 0 ≤ off → off + Z.of_nat n ≤ zlen d → zlen (putu off n v d) = zlen d.
Proof. intros. unfold putu. apply zlen_splice; rewrite ?zlen_le_of; lia. Qed.
Lemma getu_putu off n v d : 0 ≤ off → off + Z.of_nat n ≤ zlen d → getu off n (putu off n v d) = v mod 256 ^ Z.of_nat n.
Proof.
  intros. unfold getu, putu. rewrite <-(zlen_le_of n v) at 1. rewrite sub_splice_eq by (rewrite ?zlen_le_of; lia).
  apply le_val_of.
Qed.
Lemma getu_splice off n off' bs d : 0 ≤ off → 0 ≤ off' → off' + zlen bs ≤ zlen d →
  off + Z.of_nat n ≤ off' ∨ off' + zlen bs ≤ off → getu off n (splice off' bs d) = getu off n d.
Proof. intros. unfold getu. by rewrite sub_splice_ne by lia. Qed.
Lemma getu_putu_ne off n off' n' v d : 0 ≤ off → 0 ≤ off' → off' + Z.of_nat n' ≤ zlen d →
  off + Z.of_nat n ≤ off' ∨ off' + Z.of_nat n' ≤ off → getu off n (putu off' n' v d) = getu off n d.
Proof. intros. unfold putu. apply getu_splice; rewrite ?zlen_le_of; lia. Qed.
Lemma i16_mod v : - 32768 ≤ v < 32768 → i16 (v mod 256 ^ Z.of_nat 2) = v.
Proof. intros. change (256 ^ Z.of_nat 2) with 65536. unfold swrap. change (2 ^ (16 - 1)) with 32768. change (2 ^ 16) with 65536. dlia. Qed.

(** The array of block numbers as bytes. *)
Lemma zlen_words l : zlen (mjoin (le_of 4 <$> l)) = 4 * zlen l.
Proof.
  induction l as [|a l IH]; [done|]. change (mjoin (le_of 4 <$> a :: l)) with (le_of 4 a ++ mjoin (le_of 4 <$> l)).
  rewrite zlen_app, IH, zlen_le_of. unfold zlen. simpl. lia.
Qed.
Lemma sub_words l k a : znth l k = Some a → sub (4 * k) 4 (mjoin (le_of 4 <$> l)) = le_of 4 a.
Proof.
  intros Hk. pose proof (znth_Some _ _ _ Hk) as Hr. assert (∃ l1 l2, l = l1 ++ a :: l2 ∧ zlen l1 = k) as (l1 & l2 & -> & Hl1).
  { exists (take (Z.to_nat k) l), (drop (S (Z.to_nat k)) l). split; [|apply zlen_take; lia]. symmetry. apply take_drop_middle.
    unfold znth in Hk. by destruct (0 <=? k). }
  rewrite fmap_app, fmap_cons, join_app. change (mjoin (le_of 4 a :: ?x)) with (le_of 4 a ++ mjoin x).
  pose proof (zlen_words l1) as Hw. rewrite Hl1 in Hw. unfold sub, zlen in *.
  rewrite drop_app_length' by lia. by rewrite take_app_length' by (rewrite length_le_of; done).
Qed.

(** The fields of an inode fit their types. *)
Record inode_fits (i : inode) : Prop := {
  if_type : - 32768 ≤ i_type i < 32768;
  if_major : - 32768 ≤ i_major i < 32768;
  if_minor : - 32768 ≤ i_minor i < 32768;
  if_nlink : - 32768 ≤ i_nlink i < 32768;
  if_size : 0 ≤ i_size i < 4294967296;
  if_len : zlen (i_addrs i) = NDIRECT + 1;
  if_addrs : Forall (λ a, 0 ≤ a < 4294967296) (i_addrs i);
}.
(** What of an inode is on the disk. *)
Definition same_file (i j : inode) : Prop :=
  i_type i = i_type j ∧ i_major i = i_major j ∧ i_minor i = i_minor j ∧ i_nlink i = i_nlink j ∧
  i_size i = i_size j ∧ i_addrs i = i_addrs j.

Lemma zlen_put_dinode o i d : inode_fits i → zlen d = BSIZE → 0 ≤ o → o + DINODE ≤ BSIZE → zlen (put_dinode o i d) = BSIZE.
Proof.
  intros Hi Hd Ho1 Ho2. unfold put_dinode.
  assert (∀ off n v d, zlen d = BSIZE → 0 ≤ off → off + Z.of_nat n ≤ BSIZE → zlen (putu off n v d) = BSIZE) as Hp
    by (intros; rewrite zlen_putu; lia).
  match goal with |- zlen (splice _ _ ?x) = _ => assert (zlen x = BSIZE) as Hx by (do 5 (apply Hp; [|lia|lia]); done) end.
  rewrite zlen_splice; [done|lia|]. rewrite zlen_words, (if_len _ Hi). lia.
Qed.

Lemma get_put_dinode o i d j : inode_fits i → zlen d = BSIZE → 0 ≤ o → o + DINODE ≤ BSIZE →
  same_file (get_dinode o (put_dinode o i d) j) i.
Proof.
  intros Hi Hd Ho1 Ho2. pose proof Hi as [H1 H2 H3 H4 H5 H6 H7]. unfold put_dinode.
  set (d1 := putu o 2 (i_type i) d). assert (zlen d1 = BSIZE) as L1 by (unfold d1; rewrite zlen_putu; lia).
  set (d2 := putu (o + 2) 2 (i_major i) d1). assert (zlen d2 = BSIZE) as L2 by (unfold d2; rewrite zlen_putu; lia).
  set (d3 := putu (o + 4) 2 (i_minor i) d2). assert (zlen d3 = BSIZE) as L3 by (unfold d3; rewrite zlen_putu; lia).
  set (d4 := putu (o + 6) 2 (i_nlink i) d3). assert (zlen d4 = BSIZE) as L4 by (unfold d4; rewrite zlen_putu; lia).
  set (d5 := putu (o + 8) 4 (i_size i) d4). assert (zlen d5 = BSIZE) as L5 by (unfold d5; rewrite zlen_putu; lia).
  pose proof (zlen_words (i_addrs i)) as Lw. rewrite H6 in Lw.
  pose proof (sub_words (i_addrs i)) as Hsw. revert Lw Hsw. generalize (mjoin (le_of 4 <$> i_addrs i)). intros ws Lw Hsw.
  assert (∀ off, o ≤ off → off + 2 ≤ o + 12 → getu off 2 (splice (o + 12) ws d5) = getu off 2 d5) as Hs
    by (intros; apply getu_splice; lia).
  split_and!.
  - change (i16 (getu o 2 (splice (o + 12) ws d5)) = i_type i). rewrite Hs by lia. unfold d5. rewrite getu_putu_ne by lia. unfold d4. rewrite getu_putu_ne by lia. unfold d3. rewrite getu_putu_ne by lia. unfold d2. rewrite getu_putu_ne by lia. unfold d1.
    rewrite getu_putu by lia. by apply i16_mod.
  - change (i16 (getu (o + 2) 2 (splice (o + 12) ws d5)) = i_major i). rewrite Hs by lia. unfold d5. rewrite getu_putu_ne by lia. unfold d4. rewrite getu_putu_ne by lia. unfold d3. rewrite getu_putu_ne by lia. unfold d2.
    rewrite getu_putu by lia. by apply i16_mod.
  - change (i16 (getu (o + 4) 2 (splice (o + 12) ws d5)) = i_minor i). rewrite Hs by lia. unfold d5. rewrite getu_putu_ne by lia. unfold d4. rewrite getu_putu_ne by lia. unfold d3.
    rewrite getu_putu by lia. by apply i16_mod.
  - change (i16 (getu (o + 6) 2 (splice (o + 12) ws d5)) = i_nlink i). rewrite Hs by lia. unfold d5. rewrite getu_putu_ne by lia. unfold d4.
    rewrite getu_putu by lia. by apply i16_mod.
  - change (getu (o + 8) 4 (splice (o + 12) ws d5) = i_size i). rewrite getu_splice by lia. unfold d5. rewrite getu_putu by lia. apply Z.mod_small. done.
  - change ((λ k, getu (o + 12 + 4 * k) 4 (splice (o + 12) ws d5)) <$> upto (NDIRECT + 1) = i_addrs i).
    apply znth_ext; [unfold zlen; rewrite length_fmap; change (zlen (upto (NDIRECT + 1)) = zlen (i_addrs i)); rewrite zlen_upto; lia|].
    intros k Hk. assert (0 ≤ k < NDIRECT + 1) as Hk'.
    { unfold zlen in Hk. rewrite length_fmap in Hk. change (0 ≤ k < zlen (upto (NDIRECT + 1))) in Hk. by rewrite zlen_upto in Hk. }
    rewrite znth_fmap, znth_upto by done. cbn [fmap option_fmap option_map]. destruct (znth_lt (i_addrs i) k) as [a Ha]; [lia|]. rewrite Ha. f_equal.
    unfold getu. change (Z.of_nat 4) with 4. assert (sub (o + 12 + 4 * k) 4 (splice (o + 12) ws d5) = le_of 4 a) as ->.
    { rewrite <-(Hsw _ _ Ha). rewrite <-(sub_splice_eq (o + 12) ws d5) at 2 by lia.
      rewrite sub_sub by lia. done. }
    rewrite le_val_of. apply Z.mod_small. rewrite Forall_forall in H7. apply H7. unfold znth in Ha.
    destruct (0 <=? k); [|done]. by eapply list_elem_of_lookup_2.
Qed.

(** Other inodes of the block are not touched. *)
Lemma get_dinode_other o o' i d j : inode_fits i → zlen d = BSIZE → 0 ≤ o → o + DINODE ≤ BSIZE → 0 ≤ o' → o' + DINODE ≤ BSIZE →
  o' + DINODE ≤ o ∨ o + DINODE ≤ o' → get_dinode o' (put_dinode o i d) j = get_dinode o' d j.
Proof.
  intros Hi Hd Ho1 Ho2 Ho1' Ho2' Hne.
  assert (∀ off n, o' ≤ off → off + Z.of_nat n ≤ o' + DINODE → getu off n (put_dinode o i d) = getu off n d) as Hg.
  { intros off n H1 H2. unfold put_dinode. pose proof (zlen_words (i_addrs i)) as Lw. rewrite (if_len _ Hi) in Lw.
    assert (∀ off n v d, zlen d = BSIZE → 0 ≤ off → off + Z.of_nat n ≤ BSIZE → zlen (putu off n v d) = BSIZE) as Hp
      by (intros; rewrite zlen_putu; lia).
    assert (∀ k m v d, zlen d = BSIZE → o ≤ k → k + Z.of_nat m ≤ o + DINODE → getu off n (putu k m v d) = getu off n d) as Hq
      by (intros; apply getu_putu_ne; lia).
    rewrite getu_splice; [|lia|lia| |lia].
    - repeat (rewrite Hq; [|repeat (apply Hp; [|lia|lia]); done|lia|lia]). done.
    - rewrite Lw. match goal with |- _ ≤ zlen ?x => assert (zlen x = BSIZE) as -> by (do 5 (apply Hp; [|lia|lia]); done) end. lia. }
  unfold get_dinode, d_type, d_nlink. rewrite !Hg by lia.
  assert ((λ k, getu (o' + 12 + 4 * k) 4 (put_dinode o i d)) <$> upto (NDIRECT + 1) =
    (λ k, getu (o' + 12 + 4 * k) 4 d) <$> upto (NDIRECT + 1)) as ->; [|done].
  apply list_fmap_ext. intros _ k Hk%list_elem_of_lookup_2%elem_of_upto. apply Hg; lia.
Qed.

Definition iblock (sb : superblock) (inum : Z) : Z := sb_inodestart sb + inum / IPB.
(** Inode number [inum] as it is on the disk. *)
Definition disk_inode s (inum : Z) (j : inode) : inode := get_dinode (dinode_off inum) (fview s (iblock (fs_sb s) inum)) j.

Lemma dinode_off_ok inum : 0 ≤ dinode_off inum ∧ dinode_off inum + DINODE ≤ BSIZE.
Proof. unfold dinode_off. dlia. Qed.
Lemma dinode_off_ne n n' : n / IPB = n' / IPB → n ≠ n' →
  dinode_off n + DINODE ≤ dinode_off n' ∨ dinode_off n' + DINODE ≤ dinode_off n.
Proof. unfold dinode_off. intros. dlia. Qed.
Lemma geti_ok s ip i : fs_inode s !! ip = Some i → geti ip s = Ok (i, s).
Proof. intros E. unfold geti. mget (fs_inode s). by rewrite E. Qed.
Lemma updi_ok s ip f i : fs_inode s !! ip = Some i → updi ip f s = Ok (tt, s <| fs_inode := <[ip := f i]> (fs_inode s) |>).
Proof. intros E. unfold updi. by erewrite bind_step by (by apply geti_ok). Qed.
Lemma IBLOCK_ok sb inum : 0 ≤ iblock sb inum < FSSIZE → IBLOCK inum sb = iblock sb inum.
Proof. intros. unfold IBLOCK, iblock in *. rewrite Z.add_comm. apply wrap_id. lia. Qed.

Lemma iupdate_ok s P H ip i : ftrans s P H → fs_inode s !! ip = Some i → i_dev i = ROOTDEV → inode_fits i →
  let b := iblock (fs_sb s) (i_inum i) in
  home (fs_log s) b → b ∉ H.*2 → zlen P + 1 < NBUF → zlen P + zlen H < NBUF →
  ∃ s', iupdate ip s = Ok (tt, s') ∧ ftrans s' (logged P b) H ∧
    fshows (with_block (fview s) b (put_dinode (dinode_off (i_inum i)) i (fview s b))) s s'.
Proof.
  intros Ht Hi Hdev Hfit b Hb HbH Hl1 Hl2. pose proof (dinode_off_ok (i_inum i)) as [Ho1 Ho2].
  destruct (fs_update s P H b (put_dinode (dinode_off (i_inum i)) i (fview s b)))
    as (k & s1 & s2 & s3 & s4 & E1 & E2 & E3 & E4 & E5 & Ht4 & Hm4);
    [done|done|done|apply zlen_put_dinode; [done|by eapply fview_len|done..]|done|done|].
  exists s4. split; [|done]. unfold iupdate. erewrite bind_step by (by apply geti_ok). mget (fs_sb s).
  rewrite Hdev, IBLOCK_ok by apply Hb. fold b. rewrite (bind_step _ _ _ _ _ E1), (bind_step _ _ _ _ _ E2).
  by rewrite (bind_step _ _ _ _ _ E3), (bind_step _ _ _ _ _ E4).
Qed.

(** Locking an inode that has to be read from the disk. *)
Lemma ilock_loads s P H ip i : ftrans s P H → fs_inode s !! ip = Some i → i_dev i = ROOTDEV → i_valid i = 0 →
  1 ≤ i_ref i → sl_locked (i_lock i) = 0 → let b := iblock (fs_sb s) (i_inum i) in
  0 ≤ b < FSSIZE → b ∉ H.*2 → zlen P + zlen H < NBUF → i_type (disk_inode s (i_inum i) i) ≠ 0 →
  ∃ s', ilock ip s = Ok (tt, s') ∧ ftrans s' P H ∧ fs_sb s' = fs_sb s ∧ (∀ x, fview s' x = fview s x) ∧
    fs_inode s' = <[ip := disk_inode s (i_inum i)
      (i <| i_lock := MkSleep 1 (bc_mypid (l_bc (fs_log s))) |>) <| i_valid := 1 |>]> (fs_inode s).
Proof.
  intros Ht Hi Hdev Hv Hr Hlk b Hb HbH Hl Hty. pose proof (lookup_lt_Some _ _ _ Hi) as Hlt.
  set (i1 := i <| i_lock := MkSleep 1 (bc_mypid (l_bc (fs_log s))) |>). set (s1 := s <| fs_inode := <[ip := i1]> (fs_inode s) |>).
  assert (fs_inode s1 !! ip = Some i1) as Hi1 by (by apply list_lookup_insert_eq).
  destruct (fs_bread s1 P H b) as (k & s2 & E2 & Ht2 & Hm2); [done..|].
  assert (fview s2 b = fview s b) as Ev by apply (fm_view _ _ _ _ Hm2). destruct (fm_sb _ _ _ Hm2) as (Esb & Eino & _).
  set (i3 := disk_inode s (i_inum i) i1). set (s3 := s2 <| fs_inode := <[ip := i3]> (fs_inode s2) |>).
  destruct (fs_brelse s3 P H k b Ht2) as (s4 & E4 & Ht4 & Hm4). destruct (fm_sb _ _ _ Hm4) as (Esb4 & Eino4 & _).
  assert (fs_inode s4 !! ip = Some i3) as Hi4 by (rewrite Eino4; simpl; rewrite Eino; apply list_lookup_insert_eq; simpl; by rewrite length_insert).
  exists (s4 <| fs_inode := <[ip := i3 <| i_valid := 1 |>]> (fs_inode s4) |>). split.
  - unfold ilock. erewrite bind_step by (by apply geti_ok). destruct (Z.ltb_spec (i_ref i) 1); [lia|].
    erewrite bind_step.
    2: { unfold acquiresleep_i. erewrite bind_step by (by apply geti_ok). mget (bc_mypid (l_bc (fs_log s))). rewrite Hlk. by apply updi_ok. }
    fold i1 s1. erewrite bind_step by (by apply geti_ok). change (i_valid i1) with (i_valid i). rewrite Hv. cbn [Z.eqb when].
    mget (fs_sb s). change (i_dev i1) with (i_dev i). change (i_inum i1) with (i_inum i). rewrite Hdev, IBLOCK_ok by done. fold b.
    pose proof (fs_data s2 P _ k b Ht2 ltac:(apply list_elem_of_here)) as Ed. rewrite Ev in Ed.
    rewrite (bind_step _ _ _ _ _ E2), (bind_step _ _ _ _ _ Ed).
    erewrite bind_step by (apply updi_ok; rewrite Eino; exact Hi1). fold (disk_inode s (i_inum i) i1). fold i3 s3.
    rewrite (bind_step _ _ _ _ _ E4). erewrite bind_step by (by apply updi_ok).
    erewrite bind_step by (apply geti_ok; simpl; apply list_lookup_insert_eq; rewrite Eino4; simpl; rewrite length_insert, Eino; simpl; by rewrite length_insert).
    change (i_type (i3 <| i_valid := 1 |>)) with (i_type (disk_inode s (i_inum i) i)). by destruct (Z.eqb_spec (i_type (disk_inode s (i_inum i) i)) 0).
  - split; [exact Ht4|]. split; [simpl; rewrite Esb4; simpl; by rewrite Esb|]. split.
    + intros x. change (fview s4 x = fview s x). rewrite (fm_view _ _ _ _ Hm4). apply (fm_view _ _ _ _ Hm2).
    + simpl. rewrite Eino4. simpl. rewrite Eino. simpl. by rewrite !list_insert_insert_eq.
Qed.

(** C16. An inode survives the way to the disk and back. [iupdate] changes nothing
    but the inode's own 64 bytes of its block (every other inode on the disk is
    as before, logged in the transaction under way), and a later [ilock] of the
    same inode, once its entry in the table has been dropped, finds the type, the
    device numbers, the link count, the size and the block numbers that were
    stored. *)
Theorem inode_roundtrip s P H ip i : ftrans s P H → fs_inode s !! ip = Some i → i_dev i = ROOTDEV → inode_fits i →
  let b := iblock (fs_sb s) (i_inum i) in
  home (fs_log s) b → b ∉ H.*2 → zlen P + 1 < NBUF → zlen P + 1 + zlen H < NBUF →
  ∃ s', iupdate ip s = Ok (tt, s') ∧ ftrans s' (logged P b) H ∧ (∀ x, x ≠ b → fview s' x = fview s x) ∧
    (∀ n j, n ≠ i_inum i → disk_inode s' n j = disk_inode s n j) ∧
    ∀ jp j t, t = s' <| fs_inode := <[jp := j]> (fs_inode s') |> → (jp < length (fs_inode s'))%nat →
      i_dev j = ROOTDEV → i_inum j = i_inum i → i_valid j = 0 → 1 ≤ i_ref j → sl_locked (i_lock j) = 0 → i_type i ≠ 0 →
      ∃ t' j', ilock jp t = Ok (tt, t') ∧ fs_inode t' !! jp = Some j' ∧ same_file j' i ∧ i_valid j' = 1 ∧ i_inum j' = i_inum i.
Proof.
  intros Ht Hi Hdev Hfit b Hb HbH Hl1 Hl2. pose proof (zlen_nonneg H). pose proof (dinode_off_ok (i_inum i)) as [Ho1 Ho2].
  destruct (iupdate_ok s P H ip i) as (s' & E & Ht' & Hm); [done..|lia|]. fold b in Ht', Hm.
  destruct (fm_sb _ _ _ Hm) as (Esb & Eino & _). pose proof (fview_len _ _ _ b Ht) as Hlen.
  assert (fview s' b = put_dinode (dinode_off (i_inum i)) i (fview s b)) as Eb
    by (rewrite (fm_view _ _ _ _ Hm); unfold with_block; by rewrite decide_True).
  exists s'. split_and!; [done..| | |].
  - intros x Hx. rewrite (fm_view _ _ _ _ Hm). unfold with_block. by rewrite decide_False.
  - intros n j Hn. unfold disk_inode. rewrite Esb, (fm_view _ _ _ _ Hm). unfold with_block. case_decide as Ec; [|done].
    rewrite Ec. pose proof (dinode_off_ok n) as [? ?]. apply get_dinode_other; [done..|].
    destruct (dinode_off_ne n (i_inum i)) as [|]; [unfold b, iblock in Ec; lia|done|lia|lia].
  - intros jp j t -> Hjp Hjd Hjn Hjv Hjr Hjl Hty. set (t := s' <| fs_inode := _ |>).
    assert (∀ x, same_file (disk_inode t (i_inum i) x) i) as Hsf.
    { intros x. unfold disk_inode. change (fview t) with (fview s'). change (fs_sb t) with (fs_sb s'). rewrite Esb. fold b. rewrite Eb.
      by apply get_put_dinode. }
    pose proof (length_logged P b).
    destruct (ilock_loads t (logged P b) H jp j) as (t' & E' & _ & _ & _ & Et');
      [done|by apply list_lookup_insert_eq|done..| |by rewrite Hjn; change (fs_sb t) with (fs_sb s'); rewrite Esb|lia| |].
    + rewrite Hjn. change (fs_sb t) with (fs_sb s'). rewrite Esb. apply Hb.
    + rewrite Hjn. destruct (Hsf j) as [-> _]. done.
    + exists t'. eexists. split; [exact E'|]. split; [rewrite Et'; apply list_lookup_insert_eq; unfold t; simpl; by rewrite length_insert|].
      split; [|split; [done|by rewrite <-Hjn]]. rewrite Hjn.
      destruct (Hsf (j <| i_lock := MkSleep 1 (bc_mypid (l_bc (fs_log t))) |>)) as (? & ? & ? & ? & ? & ?). done.
Qed.

(** ** A small file system *)

(** A hundred blocks, the bitmap in block 45, blocks 0 to 59 in use, and a system
    call under way. *)
Definition demo_bitmap : list Z := zrepl 7 255 ++ [15] ++ zrepl (BSIZE - 8) 0.
Definition demo_disk : gmap Z (list Z) := {[ 45 := demo_bitmap ]}.
Definition call_log (d : gmap Z (list Z)) : logst := (fresh_log d) <| l_outstanding := 1 |>.
Definition small_fs (d : gmap Z (list Z)) : fsst :=
  MkFs (call_log d) (MkSb FSMAGIC 100 50 16 31 2 40 45) false (replicate 50 inode0) false (replicate 100 file0) ∅
    (MkCons (zrepl 128 0) 0 0 0 []).

Lemma small_trans d : (∀ b v, d !! b = Some v → zlen v = BSIZE) → d !! 2 = None → ftrans (small_fs d) [] [].
Proof.
  intros Hd H2. apply ready_trans; [|done|simpl; lia].
  apply (ready_ext (fresh_log d)); [reflexivity..|]. by apply fresh_quiescent.
Qed.
Lemma demo_disk_len b v : demo_disk !! b = Some v → zlen v = BSIZE.
Proof. unfold demo_disk. intros [_ <-]%lookup_singleton_Some. reflexivity. Qed.
Lemma small_home d b : 40 ≤ b < 120000 → home (call_log d) b.
Proof. intros. unfold home, in_log. simpl. lia. Qed.
Lemma small_free b : 0 ≤ b < 100 → is_free (small_fs demo_disk) b = (60 <=? b).
Proof.
  assert (forallb (λ b, Bool.eqb (is_free (small_fs demo_disk) b) (60 <=? b)) (upto 100) = true) as H by (vm_compute; reflexivity).
  intros Hb. apply eqb_prop. rewrite forallb_forall in H. apply H, list_elem_of_In. by apply elem_of_upto.
Qed.
Lemma small_alloc_ok : alloc_ok (small_fs demo_disk) [].
Proof.
  split; [simpl; lia| |].
  - intros k Hk. assert (k = 0) as -> by (unfold nbitmap in Hk; simpl in Hk; dlia).
    split; [|apply not_elem_of_nil]. unfold home, in_log. simpl. lia.
  - intros b Hb Hf. rewrite small_free in Hf by done. split; [unfold home, in_log; simpl in *; lia|].
    split; [apply not_elem_of_nil|]. intros k Hk. simpl in *. unfold nbitmap in Hk. simpl in Hk. assert (k = 0) by dlia. lia.
Qed.

Lemma block_allocator_witness :
  ∃ s', balloc ROOTDEV (small_fs demo_disk) = Ok (60, s') ∧ is_free s' 60 = false ∧ is_free s' 61 = true ∧
    bfree ROOTDEV 61 (small_fs demo_disk) = Panic "freeing free block".
Proof.
  destruct (block_allocator (small_fs demo_disk) [] []) as (_ & Ha & Hf);
    [apply small_trans; [exact demo_disk_len|reflexivity]|apply small_alloc_ok|reflexivity|reflexivity|].
  destruct (Ha 60) as (s' & E & _ & _ & Hs & _); [simpl; lia|reflexivity|intros b Hb; rewrite small_free by lia; lia|].
  exists s'. split; [exact E|]. split; [by apply (Hs 60); simpl; lia|]. split.
  - rewrite (Hs 61) by (simpl; lia). reflexivity.
  - specialize (Hf 61). rewrite small_free in Hf by lia. apply Hf. simpl. lia.
Defined.

(** Inode 17, a file of 3000 bytes, in entry 3 of the table. *)
Definition demo_inode : inode := MkInode ROOTDEV 17 1 (MkSleep 0 0) 1 T_FILE 0 0 1 3000 ([60; 61; 62] ++ zrepl 10 0).
Definition inode_fs : fsst := (small_fs demo_disk) <| fs_inode ::= <[3%nat := demo_inode]> |>.

Lemma demo_inode_fits : inode_fits demo_inode.
Proof. split; simpl; try lia; [reflexivity|]. repeat constructor; lia. Qed.

Lemma inode_roundtrip_witness :
  ∃ s' t' j', iupdate 3 inode_fs = Ok (tt, s') ∧
    ilock 5 (s' <| fs_inode := <[5%nat := inode0 <| i_dev := ROOTDEV |> <| i_inum := 17 |> <| i_ref := 1 |>]> (fs_inode s') |>) = Ok (tt, t') ∧
    fs_inode t' !! 5%nat = Some j' ∧ i_size j' = 3000 ∧ i_addrs j' = [60; 61; 62] ++ zrepl 10 0 ∧
    disk_inode s' 18 inode0 = disk_inode inode_fs 18 inode0.
Proof.
  destruct (inode_roundtrip inode_fs [] [] 3 demo_inode) as (s' & E & Ht & _ & Ho & Hr).
  - apply small_trans; [exact demo_disk_len|reflexivity].
  - reflexivity.
  - reflexivity.
  - apply demo_inode_fits.
  - apply (small_home _ 41). lia.
  - apply not_elem_of_nil.
  - reflexivity.
  - reflexivity.
  - assert (fs_inode s' = fs_inode inode_fs) as Ei.
    { destruct (iupdate_ok inode_fs [] [] 3 demo_inode) as (s1 & E1 & _ & Hm);
        [apply small_trans; [exact demo_disk_len|reflexivity]|reflexivity|reflexivity|apply demo_inode_fits|
         apply (small_home _ 41); lia|apply not_elem_of_nil|reflexivity|reflexivity|].
      assert (s1 = s') as <- by congruence. apply (fm_sb _ _ _ Hm). }
    destruct (Hr 5%nat (inode0 <| i_dev := ROOTDEV |> <| i_inum := 17 |> <| i_ref := 1 |>) _ eq_refl) as (t' & j' & E' & Hj & Hs & _);
      [rewrite Ei; vm_compute; lia|reflexivity|reflexivity|reflexivity|simpl; lia|reflexivity|discriminate|].
    exists s', t', j'. split; [exact E|]. split; [exact E'|]. split; [exact Hj|].
    destruct Hs as (_ & _ & _ & _ & -> & ->). split; [reflexivity|]. split; [reflexivity|]. apply Ho. discriminate.
Defined.
