(* ===== verification/Blockmap.v ===== *)
(** * The block map

    The blocks of a file, as [bmap] finds and makes them: [NDIRECT] of them named
    in the inode, [NINDIRECT] more in a block of block numbers, which the inode
    names too. *)

From stdpp Require Import base numbers list gmap strings.
From S2P Require Import Prelude Machine KState Bio BufProps Log LogProps LogUse Disk Raid Str Fs FsProps.
Open Scope Z_scope.
Open Scope kernel_scope.

Implicit Types (s : fsst) (P : list Z) (H : list (nat * Z)) (i : inode).

(** Slot [k] of the map: the number of the block that holds bytes from [k * BSIZE]
    on, or, in slot [MAXFILE], the number of the block of block numbers; 0 when
    there is none. *)
Definition slot s i (k : Z) : option Z :=
  if k <? NDIRECT then znth (i_addrs i) k else
  a ← znth (i_addrs i) NDIRECT;
  if MAXFILE <=? k then Some a else
  if a =? 0 then Some 0 else Some (getu (4 * (k - NDIRECT)) 4 (fview s a)).

(** Byte [x] of the file: in block [x / BSIZE], 0 where the file has no block. *)
Definition fbyte s i (x : Z) : option Z :=
  a ← slot s i (x / BSIZE);
  if a =? 0 then Some 0 else znth (fview s a) (x mod BSIZE).

Definition in_bitmap s (b : Z) : Prop := ∃ k, 0 ≤ k < nbitmap (fs_sb s) ∧ b = sb_bmapstart (fs_sb s) + k.
Definition free_block s (b : Z) : Prop := 0 ≤ b < sb_size (fs_sb s) ∧ is_free s b = true.
(** A block that this file may use: of the file system, in use, and neither in
    the bitmap nor the block of the file's inode nor held by the caller. *)
Record own_block s H i (a : Z) : Prop := {
  ob_range : 0 < a < sb_size (fs_sb s);
  ob_used : is_free s a = false;
  ob_home : home (fs_log s) a;
  ob_held : a ∉ H.*2;
  ob_bitmap : ¬ in_bitmap s a;
  ob_inode : a ≠ iblock (fs_sb s) (i_inum i);
}.

(** File [ip], open in a transaction, its blocks its own and all different. *)
Record file_ok s H (ip : nat) i : Prop := {
  fo_entry : fs_inode s !! ip = Some i;
  fo_dev : i_dev i = ROOTDEV;
  fo_fits : inode_fits i;
  fo_alloc : alloc_ok s H;
  fo_zero : ¬ free_block s 0;
  fo_ihome : home (fs_log s) (iblock (fs_sb s) (i_inum i)) ∧ iblock (fs_sb s) (i_inum i) ∉ H.*2;
  fo_ibitmap : ¬ in_bitmap s (iblock (fs_sb s) (i_inum i));
  fo_iused : ¬ free_block s (iblock (fs_sb s) (i_inum i));
  fo_slot k a : 0 ≤ k ≤ MAXFILE → slot s i k = Some a → a ≠ 0 → own_block s H i a;
  fo_inj k k' a : 0 ≤ k ≤ MAXFILE → 0 ≤ k' ≤ MAXFILE → slot s i k = Some a → slot s i k' = Some a → a ≠ 0 → k = k';
}.

(** At least [n] blocks are free. *)
Definition free_space s (n : Z) : Prop := ∃ F : list Z, NoDup F ∧ n ≤ zlen F ∧ ∀ b, b ∈ F → free_block s b.

Lemma lowest_free s b : free_block s b → ∃ b', free_block s b' ∧ ∀ x, 0 ≤ x < b' → is_free s x = false.
Proof.
  intros [Hb Hf]. destruct (list_find (λ b, is_free s b = true) (upto (sb_size (fs_sb s)))) as [[k b']|] eqn:E.
  - apply list_find_Some in E as (Hk & Hf' & Hmin). pose proof (lookup_lt_Some _ _ _ Hk) as Hlt.
    assert (∀ j : nat, (j < length (upto (sb_size (fs_sb s))))%nat → upto (sb_size (fs_sb s)) !! j = Some (Z.of_nat j)) as Hu.
    { intros j Hj. unfold upto in *. rewrite length_seqZ in Hj. rewrite lookup_seqZ. lia. }
    rewrite Hu in Hk by done. injection Hk as <-. unfold upto in Hlt. rewrite length_seqZ in Hlt.
    exists (Z.of_nat k). split; [split; [lia|done]|]. intros x Hx. apply not_true_is_false. intros Hxf.
    apply (Hmin (Z.to_nat x) x); [|lia|done]. rewrite Hu; [f_equal; lia|]. unfold upto. rewrite length_seqZ. lia.
  - exfalso. apply list_find_None in E. rewrite Forall_forall in E. apply (E b); [by apply elem_of_upto|done].
Qed.

Lemma free_space_take s s' b n : free_space s n → fs_sb s' = fs_sb s →
  (∀ x, 0 ≤ x < sb_size (fs_sb s) → x ≠ b → is_free s' x = is_free s x) → free_space s' (n - 1).
Proof.
  intros (F & Hnd & Hn & HF) Esb Hs. destruct (decide (b ∈ F)) as [Hb|Hb].
  - apply elem_of_Permutation in Hb as [F' HF']. exists F'. rewrite HF' in Hnd. apply NoDup_cons in Hnd as [Hb Hnd].
    split; [done|]. split; [apply Permutation_length in HF'; unfold zlen in *; simpl in HF'; lia|].
    intros x Hx. destruct (HF x) as [Hr Hf]; [rewrite HF'; set_solver|]. split; [by rewrite Esb|]. rewrite Hs; [done|done|]. set_solver.
  - exists F. split; [done|]. split; [lia|]. intros x Hx. destruct (HF x Hx) as [Hr Hf]. split; [by rewrite Esb|].
    rewrite Hs; [done|done|]. set_solver.
Qed.
Lemma free_space_same s s' n : free_space s n → fs_sb s' = fs_sb s →
  (∀ x, 0 ≤ x < sb_size (fs_sb s) → is_free s' x = is_free s x) → free_space s' n.
Proof.
  intros (F & Hnd & Hn & HF) Esb Hs. exists F. split_and!; [done..|]. intros b Hb. destruct (HF b Hb). split; [by rewrite Esb|by rewrite Hs].
Qed.

Lemma logged_in P b : b ∈ P → logged P b = P.
Proof. intros. unfold logged. by rewrite decide_True. Qed.
Lemma logged_le P b : zlen P ≤ zlen (logged P b).
Proof. unfold logged. case_decide; [lia|]. rewrite zlen_app. change (zlen [b]) with 1. lia. Qed.

Section file.
Context {H : list (nat * Z)}.

Lemma own_block_step s s' i i' a : own_block s H i a → fs_sb s' = fs_sb s → (∀ x, home (fs_log s') x ↔ home (fs_log s) x) →
  is_free s' a = false → i_inum i' = i_inum i → own_block s' H i' a.
Proof. intros [] Esb Hh Hf Ei. split; unfold in_bitmap in *; rewrite ?Esb, ?Hh, ?Ei; done. Qed.

(** The state has moved on: no new block is free, the blocks of the file are
    still its own. *)
Lemma file_ok_step s s' ip i i' : file_ok s H ip i → fs_sb s' = fs_sb s → (∀ x, home (fs_log s') x ↔ home (fs_log s) x) →
  (∀ x, 0 ≤ x < sb_size (fs_sb s) → is_free s' x = true → is_free s x = true) →
  fs_inode s' !! ip = Some i' → i_dev i' = i_dev i → i_inum i' = i_inum i → inode_fits i' →
  (∀ k a, 0 ≤ k ≤ MAXFILE → slot s' i' k = Some a → a ≠ 0 → own_block s' H i' a) →
  (∀ k k' a, 0 ≤ k ≤ MAXFILE → 0 ≤ k' ≤ MAXFILE → slot s' i' k = Some a → slot s' i' k' = Some a → a ≠ 0 → k = k') →
  file_ok s' H ip i'.
Proof.
  intros [] Esb Hh Hf Hi Hd Hn Hfit Hown Hinj. split; unfold in_bitmap, free_block in *; rewrite ?Esb, ?Hh, ?Hn; try done; [congruence| | |].
  - destruct fo_alloc0 as [A1 A2 A3]. split; rewrite ?Esb; [done|intros k Hk; rewrite Hh; auto|].
    intros b Hb Hbf. rewrite Hh. apply A3; auto.
  - naive_solver.
  - naive_solver.
Qed.

(** ** Slots *)

Lemma slot_direct s i k : k < NDIRECT → slot s i k = znth (i_addrs i) k.
Proof. intros Hk. unfold slot. by destruct (Z.ltb_spec k NDIRECT); [|lia]. Qed.
Lemma slot_indirect s i : slot s i MAXFILE = znth (i_addrs i) NDIRECT.
Proof. unfold slot. cbn. by destruct (znth _ _). Qed.
Lemma slot_entry s i k a : NDIRECT ≤ k < MAXFILE → slot s i MAXFILE = Some a →
  slot s i k = Some (if a =? 0 then 0 else getu (4 * (k - NDIRECT)) 4 (fview s a)).
Proof.
  intros Hk. rewrite slot_indirect. intros E. unfold slot. destruct (Z.ltb_spec k NDIRECT), (Z.leb_spec MAXFILE k); try lia.
  rewrite E. simpl. by destruct (a =? 0).
Qed.
Lemma slot_total s i k : inode_fits i → 0 ≤ k ≤ MAXFILE → ∃ a, slot s i k = Some a.
Proof.
  intros Hfit Hk. pose proof (if_len _ Hfit) as Hlen. destruct (decide (k < NDIRECT)); [rewrite slot_direct by done; apply znth_lt; lia|].
  destruct (znth_lt (i_addrs i) NDIRECT) as [a Ha]; [lia|]. rewrite <-(slot_indirect s) in Ha.
  destruct (decide (k = MAXFILE)) as [->|]; [by exists a|]. eexists. apply slot_entry; [lia|exact Ha].
Qed.

(** The slots stay when the numbers in the inode stay and the block of block
    numbers does. *)
Lemma slot_same s s' i i' k : i_addrs i' = i_addrs i → (∀ a, slot s i MAXFILE = Some a → a ≠ 0 → fview s' a = fview s a) →
  slot s' i' k = slot s i k.
Proof.
  intros Ea Hv. rewrite slot_indirect in Hv. unfold slot. rewrite Ea. destruct (k <? NDIRECT); [done|]. destruct (znth (i_addrs i) NDIRECT) as [a|] eqn:E; [|done].
  simpl. destruct (MAXFILE <=? k); [done|]. destruct (Z.eqb_spec a 0); [done|]. by rewrite Hv.
Qed.
Lemma slot_calm s s' i k : fcalm s s' → slot s' i k = slot s i k.
Proof. intros Hm. apply slot_same; [done|]. intros a _ _. apply (fm_view _ _ _ _ Hm). Qed.

Lemma fbyte_same s s' i i' x : slot s' i' (x / BSIZE) = slot s i (x / BSIZE) →
  (∀ a, slot s i (x / BSIZE) = Some a → a ≠ 0 → fview s' a = fview s a) → fbyte s' i' x = fbyte s i x.
Proof.
  intros Hs Hv. unfold fbyte. rewrite Hs. destruct (slot s i (x / BSIZE)) as [a|]; [|done]. simpl. destruct (Z.eqb_spec a 0); [done|]. by rewrite Hv.
Qed.

(** ** Filling a slot *)

(** Slot [k] has got block [b]; the rest of the file is as it was. *)
Record slot_got s s' i i' (k b : Z) : Prop := {
  sg_rest : i' = i <| i_addrs := i_addrs i' |>;
  sg_ne : b ≠ 0;
  sg_slot : slot s' i' k = Some b;
  sg_other j : 0 ≤ j ≤ MAXFILE → j ≠ k → slot s' i' j = slot s i j;
  sg_bytes x : 0 ≤ x < MAXFILE * BSIZE → fbyte s' i' x = fbyte s i x;
  sg_sb : fs_sb s' = fs_sb s;
  sg_free n : free_space s n → free_space s' (n - 1);
}.

Lemma slot_fills s s' ip i i' k b : file_ok s H ip i → free_block s b → 0 ≤ k ≤ MAXFILE → slot s i k = Some 0 →
  fs_sb s' = fs_sb s → (∀ x, home (fs_log s') x ↔ home (fs_log s) x) →
  (∀ x, 0 ≤ x < sb_size (fs_sb s) → is_free s' x = if decide (x = b) then false else is_free s x) →
  i' = i <| i_addrs := i_addrs i' |> → inode_fits i' → fs_inode s' !! ip = Some i' →
  slot s' i' k = Some b → (∀ j, 0 ≤ j ≤ MAXFILE → j ≠ k → slot s' i' j = slot s i j) →
  (k < MAXFILE → fview s' b = zrepl BSIZE 0) →
  (∀ j a, 0 ≤ j < MAXFILE → slot s i j = Some a → a ≠ 0 → fview s' a = fview s a) →
  file_ok s' H ip i' ∧ slot_got s s' i i' k b.
Proof.
  intros Hfo [Hb Hbf] Hk Hk0 Esb Hh Hfr Ei Hfit Hent Hkb Hoth Hz Hvw. pose proof Hfo as []. destruct (al_free _ _ fo_alloc0 b Hb Hbf) as (Hbh & HbH & Hbk).
  assert (b ≠ 0) as Hb0 by (intros ->; by apply fo_zero0).
  assert (∀ j a, 0 ≤ j ≤ MAXFILE → slot s i j = Some a → a ≠ 0 → a ≠ b) as Hold.
  { intros j a Hj Hja Hane ->. pose proof (ob_used _ _ _ _ (fo_slot0 j b Hj Hja Hane)). congruence. }
  assert (i_inum i' = i_inum i ∧ i_dev i' = i_dev i) as [Enum Edev] by (by rewrite Ei).
  split.
  - eapply (file_ok_step s); [done|done|done| |done|done|done|done| |].
    + intros x Hx. rewrite Hfr by done. by case_decide.
    + intros j a Hj Hja Hane. destruct (decide (j = k)) as [->|Hne].
      * rewrite Hkb in Hja. injection Hja as <-. unfold in_bitmap in *. split; unfold in_bitmap; rewrite ?Esb, ?Enum; [lia|rewrite Hfr by done; by rewrite decide_True|by apply Hh|done| |].
        { intros (x & Hx & E). by apply (Hbk x). }
        { intros E. apply fo_iused0. rewrite <-E. by split. }
      * rewrite Hoth in Hja by done. eapply own_block_step; [by eapply fo_slot0|done|done| |done].
        pose proof (fo_slot0 j a Hj Hja Hane) as Ho. pose proof (ob_range _ _ _ _ Ho). rewrite Hfr by lia. rewrite decide_False by (by eapply Hold). apply Ho.
    + intros j j' a Hj Hj' Hja Hj'a Hane. destruct (decide (j = k)) as [->|Hne], (decide (j' = k)) as [->|Hne']; [done|..].
      * exfalso. rewrite Hkb in Hja. injection Hja as <-. rewrite Hoth in Hj'a by done. by apply (Hold j' b).
      * exfalso. rewrite Hkb in Hj'a. injection Hj'a as <-. rewrite Hoth in Hja by done. by apply (Hold j b).
      * rewrite Hoth in Hja, Hj'a by done. by eapply fo_inj0.
  - split; [done|done|done|done| |done|].
    + intros x Hx. assert (0 ≤ x / BSIZE < MAXFILE) as Hxk by dlia. destruct (decide (x / BSIZE = k)) as [E|Hne].
      * unfold fbyte. rewrite E, Hkb, Hk0. simpl. destruct (Z.eqb_spec b 0); [done|]. rewrite Hz by lia. apply znth_zrepl. dlia.
      * apply fbyte_same; [apply Hoth; [lia|done]|]. intros a Ha Hane. apply (Hvw (x / BSIZE)); done.
    + intros n Hfs. eapply free_space_take; [done|done|]. intros x Hx Hne. rewrite Hfr by done. by rewrite decide_False.
Qed.

Lemma getu_zeros k : 0 ≤ k < NINDIRECT → getu (4 * k) 4 (zrepl BSIZE 0) = 0.
Proof. intros Hk. unfold getu. rewrite sub_zrepl by lia. done. Qed.

(** [bmap_slot] of an empty place of the inode. *)
Definition inode_slot (j : Z) : Z := if j <? NDIRECT then j else MAXFILE.
Lemma inode_slot_spec s i j : 0 ≤ j ≤ NDIRECT → slot s i (inode_slot j) = znth (i_addrs i) j.
Proof.
  intros Hj. unfold inode_slot. destruct (Z.ltb_spec j NDIRECT); [by apply slot_direct|]. rewrite slot_indirect. f_equal. lia.
Qed.
Lemma inode_fits_addr i j b : inode_fits i → 0 ≤ b < 4294967296 → inode_fits (i <| i_addrs := zset (i_addrs i) j b |>).
Proof. intros [] Hb. split; try done; [simpl; by rewrite zlen_zset|]. simpl. by apply Forall_insert. Qed.

Lemma bmap_slot_allocates s P ip i j : ftrans s P H → file_ok s H ip i → 0 ≤ j ≤ NDIRECT → znth (i_addrs i) j = Some 0 →
  free_space s 1 → zlen P + 2 < NBUF → zlen P + 1 + zlen H < NBUF →
  ∃ b s' P', let i' := i <| i_addrs := zset (i_addrs i) j b |> in
    bmap_slot ip j s = Ok (b, s') ∧ ftrans s' P' H ∧ b ∈ P' ∧ zlen P' ≤ zlen P + 2 ∧
    file_ok s' H ip i' ∧ slot_got s s' i i' (inode_slot j) b.
Proof.
  intros Ht Hfo Hj Ha (F & Hnd & Hn & HF) Hl1 Hl2.
  destruct F as [|b0 F]; [done|]. destruct (lowest_free s b0) as (b & Hbfree & Hmin); [apply HF; set_solver|].
  pose proof Hbfree as [Hb Hbf]. pose proof Hfo as [].
  destruct (balloc_effect s P H b) as (s1 & v & E & Ht1 & Hm & Hz & Hfr & Hvw); [done..|].
  destruct (fm_sb _ _ _ Hm) as (Esb & Eino & _). assert (b ≠ 0) as Hb0 by (intros ->; by apply fo_zero0).
  set (i' := i <| i_addrs := zset (i_addrs i) j b |>). set (s' := s1 <| fs_inode := <[ip := i']> (fs_inode s1) |>).
  pose proof (if_len _ fo_fits0) as Hlen. assert (0 ≤ inode_slot j ≤ MAXFILE) as Hsl by (unfold inode_slot; case_match; lia).
  assert (∀ k a, 0 ≤ k ≤ MAXFILE → slot s i k = Some a → a ≠ 0 → fview s' a = fview s a) as Hview.
  { intros k a Hk Hka Hane. pose proof (fo_slot0 k a Hk Hka Hane) as Ho. apply Hvw.
    - intros ->. pose proof (ob_used _ _ _ _ Ho). congruence.
    - intros ->. apply (ob_bitmap _ _ _ _ Ho). exists (b / BPB). split; [|done]. by apply (block_parts s H b fo_alloc0 Hb). }
  assert (slot s i (inode_slot j) = Some 0) as Hs0 by (by rewrite inode_slot_spec).
  exists b, s', (logged (logged P (bmap_block (fs_sb s) b)) b). cbn zeta. fold i'.
  assert (file_ok s' H ip i' ∧ slot_got s s' i i' (inode_slot j) b) as [Hfo' Hg].
  { apply (slot_fills s s' ip i i' (inode_slot j) b); [done|done|done|done|done|intros x; apply (fm_home _ _ _ _ Hm)|exact Hfr|done| | | | | |].
    - apply inode_fits_addr; [done|]. pose proof (al_size _ _ fo_alloc0). lia.
    - apply list_lookup_insert_eq. rewrite Eino. by eapply lookup_lt_Some.
    - rewrite inode_slot_spec by done. apply znth_zset_eq. lia.
    - intros k Hk Hne. destruct (slot_total s i MAXFILE fo_fits0 ltac:(lia)) as [ia Hia]. pose proof Hia as Hia2. rewrite slot_indirect in Hia2.
      destruct (decide (k < NDIRECT)) as [Hlt|Hge].
      + rewrite !slot_direct by done. apply znth_zset_ne; [lia|]. intros Ekj. apply Hne. unfold inode_slot. destruct (Z.ltb_spec j NDIRECT); lia.
      + destruct (decide (j = NDIRECT)) as [->|Hjn].
        * assert (k ≠ MAXFILE) by done. rewrite Ha in Hia2. injection Hia2 as <-. rewrite (slot_entry s i k 0), (slot_entry s' i' k b) by
            (lia || (rewrite slot_indirect; apply znth_zset_eq; lia) || done).
          cbn [Z.eqb]. destruct (Z.eqb_spec b 0); [done|]. change (fview s' b) with (fview s1 b). rewrite Hz. f_equal. by apply getu_zeros; lia.
        * assert (slot s' i' MAXFILE = slot s i MAXFILE) as EM by (rewrite !slot_indirect; apply znth_zset_ne; lia).
          destruct (decide (k = MAXFILE)) as [->|]; [done|]. rewrite (slot_entry s i k ia), (slot_entry s' i' k ia) by (done || lia || by rewrite EM).
          destruct (Z.eqb_spec ia 0); [done|]. by rewrite (Hview MAXFILE ia) by done.
    - intros _. exact Hz.
    - intros k a Hk. apply Hview. lia. }
  split_and!; [|exact Ht1|apply elem_logged; by left| |done|done].
  - unfold bmap_slot. erewrite bind_step. 2: { unfold get_addr. erewrite bind_step by (by apply geti_ok). by apply opt_ok. }
    cbn [Z.eqb]. erewrite bind_step by (by apply geti_ok). rewrite fo_dev0. rewrite (bind_step _ _ _ _ _ E).
    destruct (Z.eqb_spec b 0); [done|]. unfold set_addr. erewrite bind_step by (apply updi_ok; rewrite Eino; done). done.
  - pose proof (length_logged P (bmap_block (fs_sb s) b)). pose proof (length_logged (logged P (bmap_block (fs_sb s) b)) b). lia.
Qed.

(** An entry of the block of block numbers. *)
Lemma putu_entry d k j b : zlen d = BSIZE → 0 ≤ k < NINDIRECT → 0 ≤ j < NINDIRECT → 0 ≤ b < 4294967296 →
  getu (4 * j) 4 (putu (4 * k) 4 b d) = if decide (j = k) then b else getu (4 * j) 4 d.
Proof.
  intros Hd Hk Hj Hb. case_decide as E; [|by rewrite getu_putu_ne by lia]. rewrite E, getu_putu by lia.
  apply Z.mod_small. done.
Qed.

Lemma alloc_ok_hold s bp a i : alloc_ok s H → own_block s H i a → alloc_ok s ((bp, a) :: H).
Proof.
  intros [A1 A2 A3] Ho. split; [done| |].
  - intros k Hk. destruct (A2 k Hk) as [? ?]. split; [done|]. simpl. apply not_elem_of_cons. split; [|done].
    intros E. apply (ob_bitmap _ _ _ _ Ho). by exists k.
  - intros b Hb Hf. destruct (A3 b Hb Hf) as (? & ? & ?). split_and!; [done| |done]. simpl. apply not_elem_of_cons. split; [|done].
    intros ->. pose proof (ob_used _ _ _ _ Ho). congruence.
Qed.

Lemma bmap_entry_allocates s P ip i ia bn : ftrans s P H → file_ok s H ip i → NDIRECT ≤ bn < MAXFILE →
  slot s i MAXFILE = Some ia → ia ≠ 0 → slot s i bn = Some 0 → free_space s 1 → zlen P + 3 < NBUF → zlen P + 2 + zlen H < NBUF →
  ∃ b s' P', bmap_entry ip ia (bn - NDIRECT) s = Ok (b, s') ∧ ftrans s' P' H ∧ b ∈ P' ∧ zlen P' ≤ zlen P + 3 ∧
    file_ok s' H ip i ∧ slot_got s s' i i bn b.
Proof.
  intros Ht Hfo Hbn Hia Hia0 Hs0 (F & Hnd & Hn & HF) Hl1 Hl2. destruct F as [|b0 F]; [done|].
  destruct (lowest_free s b0) as (b & Hbfree & Hmin); [apply HF; set_solver|]. pose proof Hbfree as [Hb Hbf]. pose proof Hfo as [].
  pose proof (fo_slot0 MAXFILE ia ltac:(lia) Hia Hia0) as Ho. pose proof Ho as [_ Hiu Hih HiH Hibm _].
  destruct (fs_bread s P H ia Ht (proj1 Hih) HiH ltac:(lia)) as (bp & s1 & E1 & Ht1 & Hm1).
  assert (alloc_ok s1 ((bp, ia) :: H)) as Hal1 by (eapply alloc_ok_calm; [exact Hm1|by eapply alloc_ok_hold]).
  assert (∀ x, is_free s1 x = is_free s x) as Hf1 by (intros x; by apply is_free_calm).
  destruct (fm_sb _ _ _ Hm1) as (Esb1 & Ei1 & _). assert (zlen ((bp, ia) :: H) = 1 + zlen H) as HlH by (unfold zlen; simpl; lia).
  destruct (balloc_effect s1 P ((bp, ia) :: H) b) as (s2 & v & E2 & Ht2 & Hm2 & Hz & Hfr & Hvw);
    [done|done|lia|lia|by rewrite Esb1|by rewrite Hf1|intros; rewrite Hf1; by apply Hmin|].
  destruct (fm_sb _ _ _ Hm2) as (Esb2 & Ei2 & _). set (k := bn - NDIRECT).
  assert (∀ x, is_free s x = false → ¬ in_bitmap s x → fview s2 x = fview s x) as Hv2.
  { intros x Hx Hxb. rewrite <-(fm_view _ _ _ x Hm1). apply Hvw; [intros ->; congruence|]. rewrite Esb1. intros ->. apply Hxb.
    exists (b / BPB). split; [|done]. by apply (block_parts s H b fo_alloc0 Hb). }
  assert (fview s2 ia = fview s ia) as Hvia by (by apply Hv2).
  pose proof (fview_len _ _ _ ia Ht) as Hlia. rewrite (slot_entry s i bn ia) in Hs0 by done. destruct (Z.eqb_spec ia 0); [done|]. injection Hs0 as Hs0. fold k in Hs0.
  set (d := putu (4 * k) 4 b (fview s ia)). pose proof (al_size _ _ fo_alloc0) as Hsz.
  set (P2 := logged (logged P (bmap_block (fs_sb s1) b)) b) in *.
  assert (zlen P2 ≤ zlen P + 2) as HP2 by (pose proof (length_logged P (bmap_block (fs_sb s1) b)); pose proof (length_logged (logged P (bmap_block (fs_sb s1) b)) b); unfold P2; lia).
  destruct (fs_write s2 P2 ((bp, ia) :: H) bp ia d Ht2) as (s3 & s4 & E3 & E4 & Ht4 & Hm4);
    [by left|apply (fm_home _ _ _ _ Hm2); by apply (fm_home _ _ _ _ Hm1)|unfold d; rewrite zlen_putu; unfold k; lia|lia|].
  destruct (fs_brelse _ _ _ _ _ Ht4) as (s5 & E5 & Ht5 & Hm5). destruct (fm_sb _ _ _ Hm4) as (Esb4 & Ei4 & _), (fm_sb _ _ _ Hm5) as (Esb5 & Ei5 & _).
  assert (∀ x, fview s5 x = if decide (x = ia) then d else fview s2 x) as Hv5.
  { intros x. rewrite (fm_view _ _ _ _ Hm5), (fm_view _ _ _ _ Hm4). done. }
  assert (fs_sb s5 = fs_sb s) as Esb by congruence. assert (fs_inode s5 = fs_inode s) as Eis by congruence.
  assert (slot s5 i MAXFILE = Some ia) as Hia5 by (by rewrite slot_indirect in *).
  assert (file_ok s5 H ip i ∧ slot_got s s5 i i bn b) as [Hfo5 Hg5].
  { apply (slot_fills s s5 ip i i bn b); [done|done|lia|rewrite (slot_entry s i bn ia) by done; destruct (Z.eqb_spec ia 0); [done|]; by rewrite <-Hs0|done| | |by destruct i|done|by rewrite Eis| | | |].
    - intros x. by rewrite (fm_home _ _ _ _ Hm5), (fm_home _ _ _ _ Hm4), (fm_home _ _ _ _ Hm2), (fm_home _ _ _ _ Hm1).
    - intros x Hx. rewrite <-Hf1, <-Hfr by (by rewrite Esb1). unfold is_free. rewrite Esb, Hv5, Esb2, Esb1. rewrite decide_False; [done|].
      intros E. apply Hibm. exists (x / BPB). split; [|by rewrite <-E]. by apply (block_parts s H x fo_alloc0 Hx).
    - rewrite (slot_entry s5 i bn ia) by done. destruct (Z.eqb_spec ia 0); [done|]. rewrite Hv5, decide_True by done. fold k. unfold d, k. rewrite putu_entry by lia. by rewrite decide_True.
    - intros j Hj Hne. destruct (decide (j < NDIRECT)); [by rewrite !slot_direct|]. destruct (decide (j = MAXFILE)) as [->|]; [by rewrite Hia|].
      rewrite (slot_entry s5 i j ia), (slot_entry s i j ia) by (done || lia). destruct (Z.eqb_spec ia 0); [done|]. rewrite Hv5, decide_True by done.
      unfold d, k. rewrite putu_entry by lia. rewrite decide_False by lia. done.
    - intros _. rewrite Hv5, decide_False; [done|]. intros ->. congruence.
    - intros j a Hj Hja Hane. pose proof (fo_slot0 j a ltac:(lia) Hja Hane) as Hoa. rewrite Hv5, decide_False; [by apply Hv2; apply Hoa|].
      intros ->. pose proof (fo_inj0 j MAXFILE ia ltac:(lia) ltac:(lia) Hja Hia Hia0). lia. }
  exists b, s5, (logged P2 ia). split_and!; [|done|apply elem_logged; right; apply elem_logged; by left|pose proof (length_logged P2 ia); lia|done|done].
  assert (b ≠ 0) as Hb0 by (intros ->; by apply fo_zero0). unfold bmap_entry. erewrite bind_step by (by apply geti_ok). rewrite fo_dev0, (bind_step _ _ _ _ _ E1).
    erewrite bind_step by (eapply fs_data; [exact Ht1|by left]). rewrite (fm_view _ _ _ _ Hm1). cbv zeta. fold k. rewrite Hs0. cbn [Z.eqb].
    rewrite bind_assoc, (bind_step _ _ _ _ _ E2). destruct (Z.eqb_spec b 0); [done|]. rewrite !bind_assoc.
    erewrite bind_step by (eapply fs_data; [exact Ht2|by left]). rewrite Hvia. fold d. rewrite bind_assoc, (bind_step _ _ _ _ _ E3).
    rewrite (bind_step _ _ _ _ _ E4). mget b. by rewrite (bind_step _ _ _ _ _ E5).
Qed.

(** ** bmap *)

(** Whether the block of block numbers is yet to be allocated. *)
Definition pending i : Z := match znth (i_addrs i) NDIRECT with Some a => if a =? 0 then 1 else 0 | None => 0 end.
Lemma pending_range i : 0 ≤ pending i ≤ 1.
Proof. unfold pending. destruct (znth _ _) as [a|]; [destruct (a =? 0)|]; lia. Qed.

(** A block that is mapped. *)
Lemma bmap_mapped s P ip i bn a : ftrans s P H → file_ok s H ip i → 0 ≤ bn < MAXFILE → slot s i bn = Some a → a ≠ 0 →
  zlen P + zlen H < NBUF → ∃ s', bmap ip bn s = Ok (a, s') ∧ ftrans s' P H ∧ fcalm s s'.
Proof.
  intros Ht Hfo Hbn Ha Hne Hl. pose proof (fo_entry _ _ _ _ Hfo) as Hi. unfold bmap.
  assert (∀ j c, znth (i_addrs i) j = Some c → c ≠ 0 → bmap_slot ip j s = Ok (c, s)) as Hslot.
  { intros j c Hj Hc. unfold bmap_slot. erewrite bind_step. 2: { unfold get_addr. erewrite bind_step by (by apply geti_ok). by apply opt_ok. }
    by destruct (Z.eqb_spec c 0). }
  destruct (Z.ltb_spec bn NDIRECT) as [Hd|Hd].
  - exists s. rewrite slot_direct in Ha by done. split_and!; [by apply Hslot|done|apply fcalm_refl].
  - destruct (Z.ltb_spec (bn - NDIRECT) NINDIRECT); [|lia]. destruct (slot_total s i MAXFILE (fo_fits _ _ _ _ Hfo) ltac:(lia)) as [ia Hia].
    rewrite (slot_entry s i bn ia) in Ha by (done || lia). destruct (Z.eqb_spec ia 0) as [Hz|Hia0]; [congruence|]. injection Ha as Ha.
    pose proof (fo_slot _ _ _ _ Hfo MAXFILE ia ltac:(lia) Hia Hia0) as [_ _ [Hih _] HiH _ _].
    destruct (fs_look s P H ia) as (k & s1 & s2 & E1 & E2 & E3 & Ht2 & Hm); [done..|]. exists s2. split_and!; [|done|done].
    rewrite slot_indirect in Hia. erewrite bind_step by (by apply Hslot). destruct (Z.eqb_spec ia 0); [done|].
    unfold bmap_entry. erewrite bind_step by (by apply geti_ok). rewrite (fo_dev _ _ _ _ Hfo), (bind_step _ _ _ _ _ E1), (bind_step _ _ _ _ _ E2).
    cbv zeta. rewrite Ha. destruct (Z.eqb_spec a 0); [done|]. mget a. by rewrite (bind_step _ _ _ _ _ E3).
Qed.

Lemma free_space_le s n m : free_space s n → m ≤ n → free_space s m.
Proof. intros (F & H1 & H2 & H3) Hm. exists F. split_and!; [done|lia|done]. Qed.

(** What [bmap] of block [bn] comes to: the block is there, the blocks there were
    are still there, and no byte of the file has changed. *)
Record mapped s s' i i' (bn b : Z) : Prop := {
  mp_rest : i' = i <| i_addrs := i_addrs i' |>;
  mp_ne : b ≠ 0;
  mp_slot : slot s' i' bn = Some b;
  mp_old j a : 0 ≤ j ≤ MAXFILE → slot s i j = Some a → a ≠ 0 → slot s' i' j = Some a;
  mp_bytes x : 0 ≤ x < MAXFILE * BSIZE → fbyte s' i' x = fbyte s i x;
  mp_sb : fs_sb s' = fs_sb s;
  mp_pending : pending i' ≤ pending i;
  mp_free n : free_space s (n + pending i) → free_space s' (n - 1 + pending i');
}.
Lemma slot_got_mapped s s' i i' k b : slot_got s s' i i' k b → slot s i k = Some 0 → pending i' = pending i → mapped s s' i i' k b.
Proof.
  intros [] Hk Hp. split; try done; [|lia|].
  - intros j a Hj Hja Hne. rewrite sg_other0; [done|done|]. intros ->. congruence.
  - intros n Hn. rewrite Hp. eapply free_space_le; [by apply sg_free0|lia].
Qed.
(** Allocating the block of block numbers first. *)
Lemma slot_got_pending s s1 s2 i i1 i2 k c b : slot_got s s1 i i1 MAXFILE c → slot s i MAXFILE = Some 0 → pending i1 = 0 → pending i = 1 →
  mapped s1 s2 i1 i2 k b → mapped s s2 i i2 k b.
Proof.
  intros [] Hk Hp1 Hp []. split; try done; [rewrite mp_rest0, sg_rest0; done| |intros; rewrite mp_bytes0, sg_bytes0; done|congruence|lia|].
  - intros j a Hj Hja Hne. apply mp_old0; [done| |done]. rewrite sg_other0; [done|done|]. intros ->. congruence.
  - intros n Hn. apply mp_free0. eapply free_space_le; [by apply sg_free0|lia].
Qed.

Lemma pending_slot s i a : slot s i MAXFILE = Some a → pending i = if a =? 0 then 1 else 0.
Proof. rewrite slot_indirect. unfold pending. by intros ->. Qed.

(** A state in which other blocks have changed. *)
Lemma file_ok_shows s s' v ip i : file_ok s H ip i → fshows v s s' → (∀ b, in_bitmap s b → v b = fview s b) →
  (∀ a, slot s i MAXFILE = Some a → a ≠ 0 → v a = fview s a) → file_ok s' H ip i ∧ ∀ k, slot s' i k = slot s i k.
Proof.
  intros Hfo Hm Hv Hvi. destruct (fm_sb _ _ _ Hm) as (Esb & Eino & _).
  assert (∀ k, slot s' i k = slot s i k) as Hs by (intros k; apply slot_same; [done|]; intros a Ha Hne; rewrite (fm_view _ _ _ _ Hm); by apply Hvi).
  assert (∀ x, 0 ≤ x < sb_size (fs_sb s) → is_free s' x = is_free s x) as Hf.
  { intros x Hx. unfold is_free. rewrite Esb, (fm_view _ _ _ _ Hm), Hv; [done|]. exists (x / BPB). split; [|done].
    by apply (block_parts s H x (fo_alloc _ _ _ _ Hfo)). }
  assert (∀ x, home (fs_log s') x ↔ home (fs_log s) x) as Hh by (intros; apply (fm_home _ _ _ _ Hm)). pose proof Hfo as []. split; [|done].
  eapply (file_ok_step s); try done; [by intros x Hx; rewrite Hf|by rewrite Eino| |].
  - intros k a Hk Ha Hne. rewrite Hs in Ha. pose proof (fo_slot0 _ _ Hk Ha Hne) as Ho. eapply own_block_step; try done.
    rewrite Hf; [apply Ho|]. pose proof (ob_range _ _ _ _ Ho). lia.
  - intros k k' a Hk Hk' Ha Ha'. rewrite Hs in Ha, Ha'. by eapply fo_inj0.
Qed.
Lemma file_ok_calm s s' ip i : file_ok s H ip i → fcalm s s' → file_ok s' H ip i.
Proof. intros Hfo Hm. by eapply (file_ok_shows s s'). Qed.
Lemma fbyte_calm s s' i x : fcalm s s' → fbyte s' i x = fbyte s i x.
Proof. intros Hm. apply fbyte_same; [by apply slot_calm|]. intros a _ _. apply (fm_view _ _ _ _ Hm). Qed.
Lemma free_space_calm s s' n : fcalm s s' → free_space s n → free_space s' n.
Proof.
  intros Hm Hn. eapply free_space_same; [exact Hn|by destruct (fm_sb _ _ _ Hm)|]. intros x _. by apply is_free_calm.
Qed.
Lemma mapped_calm s s' i k a : fcalm s s' → slot s i k = Some a → a ≠ 0 → mapped s s' i i k a.
Proof.
  intros Hm Ha Hne. split; [by destruct i|done|by rewrite (slot_calm _ _ _ _ Hm)|intros; by rewrite (slot_calm _ _ _ _ Hm)|
    intros; by apply fbyte_calm|by destruct (fm_sb _ _ _ Hm)|done|].
  intros n Hn. eapply free_space_le; [by eapply free_space_calm|lia].
Qed.

(** [bmap]: the block there is, or a new one. *)
Lemma bmap_ok s P ip i bn : ftrans s P H → file_ok s H ip i → 0 ≤ bn < MAXFILE →
  free_space s (1 + pending i) → zlen P + 3 + 2 * pending i + zlen H < NBUF →
  ∃ b s' P' i', bmap ip bn s = Ok (b, s') ∧ ftrans s' P' H ∧ zlen (logged P' b) ≤ zlen P + 3 + 2 * (pending i - pending i') ∧
    file_ok s' H ip i' ∧ mapped s s' i i' bn b.
Proof.
  intros Ht Hfo Hbn Hfs Hl. pose proof (fo_fits _ _ _ _ Hfo) as Hfit. pose proof (zlen_nonneg H). pose proof (pending_range i).
  destruct (slot_total s i bn Hfit ltac:(lia)) as [a Ha]. destruct (decide (a = 0)) as [->|Hne].
  2: { destruct (bmap_mapped s P ip i bn a Ht Hfo Hbn Ha Hne ltac:(lia)) as (s' & E & Ht' & Hm). exists a, s', P, i. pose proof (length_logged P a).
    split_and!; [done|done|lia|by eapply file_ok_calm|by apply mapped_calm]. }
  pose proof (fo_entry _ _ _ _ Hfo) as Hi. unfold bmap. destruct (Z.ltb_spec bn NDIRECT) as [Hd|Hd].
  - assert (znth (i_addrs i) bn = Some 0) as Ha2 by (by rewrite <-(slot_direct s) by done).
    destruct (bmap_slot_allocates s P ip i bn Ht Hfo ltac:(lia) Ha2) as (b & s' & P' & E & Ht' & Hb & HP & Hfo' & Hg);
      [by eapply free_space_le; [exact Hfs|lia]|lia|lia|].
    replace (inode_slot bn) with bn in Hg by (unfold inode_slot; by destruct (Z.ltb_spec bn NDIRECT); [|lia]).
    assert (pending (i <| i_addrs := zset (i_addrs i) bn b |>) = pending i) as Hp.
    { unfold pending. simpl. by rewrite znth_zset_ne by lia. }
    exists b, s', P'. eexists. rewrite Hp, logged_in by done. split_and!; [done|done|lia|exact Hfo'|by apply slot_got_mapped].
  - destruct (Z.ltb_spec (bn - NDIRECT) NINDIRECT); [|lia]. destruct (slot_total s i MAXFILE Hfit ltac:(lia)) as [ia Hia].
    pose proof (pending_slot s i ia Hia) as Hp. destruct (Z.eqb_spec ia 0) as [->|Hia0].
    + assert (znth (i_addrs i) NDIRECT = Some 0) as Ha2 by (by rewrite <-(slot_indirect s)).
      destruct (bmap_slot_allocates s P ip i NDIRECT Ht Hfo ltac:(lia) Ha2) as (c & s1 & P1 & E1 & Ht1 & Hc & HP1 & Hfo1 & Hg1);
        [by eapply free_space_le; [exact Hfs|lia]|lia|lia|]. change (inode_slot NDIRECT) with MAXFILE in Hg1. set (i1 := i <| i_addrs := _ |>) in *.
      pose proof (sg_slot _ _ _ _ _ _ Hg1) as Hs1. pose proof (sg_ne _ _ _ _ _ _ Hg1) as Hc0.
      assert (slot s1 i1 bn = Some 0) as Hb1 by (rewrite (sg_other _ _ _ _ _ _ Hg1) by lia; done).
      pose proof (pending_slot s1 i1 c Hs1) as Hp1. destruct (Z.eqb_spec c 0); [done|].
      destruct (bmap_entry_allocates s1 P1 ip i1 c bn Ht1 Hfo1 ltac:(lia) Hs1 Hc0 Hb1) as (b & s2 & P2 & E2 & Ht2 & Hb & HP2 & Hfo2 & Hg2);
        [eapply free_space_le; [by apply (sg_free _ _ _ _ _ _ Hg1)|lia]|lia|lia|].
      exists b, s2, P2, i1. rewrite logged_in by done. split_and!; [|done|lia|done|].
      * rewrite (bind_step _ _ _ _ _ E1). by destruct (Z.eqb_spec c 0).
      * by eapply slot_got_pending, slot_got_mapped.
    + destruct (bmap_entry_allocates s P ip i ia bn Ht Hfo ltac:(lia) Hia Hia0 Ha) as (b & s2 & P2 & E2 & Ht2 & Hb & HP2 & Hfo2 & Hg2);
        [eapply free_space_le; [exact Hfs|lia]|lia|lia|].
      exists b, s2, P2, i. rewrite logged_in by done. split_and!; [|done|lia|done|by apply slot_got_mapped].
      rewrite slot_indirect in Hia. unfold bmap_slot. rewrite bind_assoc. erewrite bind_step. 2: { unfold get_addr. erewrite bind_step by (by apply geti_ok). by apply opt_ok. }
      destruct (Z.eqb_spec ia 0); [done|]. mget ia. by destruct (Z.eqb_spec ia 0).
Qed.
End file.

(** ** A file of twelve blocks *)

Definition twelve_blocks : inode := MkInode ROOTDEV 17 1 (MkSleep 1 0) 1 T_FILE 0 0 1 12100 (((λ k, 46 + k) <$> upto 12) ++ [0]).
Definition twelve_block_fs : fsst := (small_fs demo_disk) <| fs_inode ::= <[3%nat := twelve_blocks]> |>.

Lemma twelve_slots k a : 0 ≤ k ≤ MAXFILE → slot twelve_block_fs twelve_blocks k = Some a → a ≠ 0 → k < 12 ∧ a = 46 + k.
Proof.
  intros Hk Ha Hne. destruct (decide (k < NDIRECT)) as [Hd|Hd].
  - rewrite slot_direct in Ha by done.
    assert (forallb (λ k, bool_decide (znth (i_addrs twelve_blocks) k = Some (46 + k))) (upto 12) = true) as Hall by (vm_compute; reflexivity).
    rewrite forallb_forall in Hall. specialize (Hall k ltac:(apply list_elem_of_In; apply elem_of_upto; lia)). apply bool_decide_eq_true in Hall.
    rewrite Hall in Ha. split; [done|congruence].
  - exfalso. assert (slot twelve_block_fs twelve_blocks MAXFILE = Some 0) as H0 by (vm_compute; reflexivity).
    destruct (decide (k = MAXFILE)) as [->|]; [congruence|]. rewrite (slot_entry _ _ k 0) in Ha by (done || lia). simpl in Ha. congruence.
Qed.
Lemma twelve_block_free b : 0 ≤ b < 100 → is_free twelve_block_fs b = (60 <=? b).
Proof. apply small_free. Qed.
Lemma twelve_block_bitmap b : in_bitmap twelve_block_fs b → b = 45.
Proof. intros (k & Hk & ->). unfold nbitmap in Hk. simpl in *. assert (k = 0) by dlia. lia. Qed.
Lemma twelve_block_ok : file_ok twelve_block_fs [] 3 twelve_blocks.
Proof.
  split; try reflexivity.
  - split; simpl; try lia; [reflexivity|]. repeat constructor; lia.
  - destruct small_alloc_ok as [? Hb Hf]. split; [done|exact Hb|exact Hf].
  - intros [_ Hf]. rewrite twelve_block_free in Hf by lia. done.
  - split; [apply (small_home _ 41); lia|apply not_elem_of_nil].
  - intros Hb%twelve_block_bitmap. done.
  - intros [_ Hf]. change (iblock (fs_sb twelve_block_fs) (i_inum twelve_blocks)) with 41 in Hf. rewrite twelve_block_free in Hf by lia. done.
  - intros k a Hk Ha Hne. destruct (twelve_slots k a Hk Ha Hne) as [Hk2 ->].
    split; [simpl; lia|rewrite twelve_block_free by lia; lia|apply small_home; lia|apply not_elem_of_nil|intros Hb%twelve_block_bitmap; lia|].
    change (iblock (fs_sb twelve_block_fs) (i_inum twelve_blocks)) with 41. lia.
  - intros k k' a Hk Hk' Ha Ha' Hne. destruct (twelve_slots k a Hk Ha Hne), (twelve_slots k' a Hk' Ha' Hne). lia.
Qed.
