(* ===== verification/Trunc.v ===== *)
(** * Truncation

    [itrunc] of a file ([Blockmap]): every block of the file is free again, each
    freed once, and nothing else has changed. *)

From stdpp Require Import base numbers list gmap strings.
From S2P Require Import Prelude Machine KState Bio BufProps Log LogProps LogUse Disk Raid Str Fs FsProps Blockmap.
Open Scope Z_scope.
Open Scope kernel_scope.

Implicit Types (s : fsst) (P : list Z) (H : list (nat * Z)) (i : inode) (D : list Z).

(** From [s0], the blocks [D] have been freed, and nothing but the bitmap has
    changed on the disk. *)
Record freed s0 P0 H D s P : Prop := {
  fr_trans : ftrans s P H;
  fr_sb : fs_sb s = fs_sb s0;
  fr_home b : home (fs_log s) b ↔ home (fs_log s0) b;
  fr_free b : 0 ≤ b < sb_size (fs_sb s0) → is_free s b = if decide (b ∈ D) then true else is_free s0 b;
  fr_view b : ¬ in_bitmap s0 b → fview s b = fview s0 b;
  fr_log b : b ∈ P → b ∈ P0 ∨ in_bitmap s0 b;
}.

(** The log has grown by no more than the bitmap. *)
Lemma freed_log s0 P0 H D s P : freed s0 P0 H D s P → 0 ≤ sb_size (fs_sb s0) → zlen P ≤ zlen P0 + nbitmap (fs_sb s0).
Proof.
  intros Hfr Hsz. set (B := (λ k, sb_bmapstart (fs_sb s0) + k) <$> upto (nbitmap (fs_sb s0))).
  assert (0 ≤ nbitmap (fs_sb s0)) as Hnb by (unfold nbitmap; dlia).
  assert (zlen B = nbitmap (fs_sb s0)) as HB by (unfold B, zlen; rewrite length_fmap; by apply zlen_upto).
  assert (P ⊆+ P0 ++ B) as Hsub.
  { apply NoDup_submseteq; [apply (li_nodup _ _ (us_lists _ _ _ (fr_trans _ _ _ _ _ _ Hfr)))|].
    intros b Hb. apply elem_of_app. destruct (fr_log _ _ _ _ _ _ Hfr b Hb) as [?|(k & Hk & ->)]; [by left|right].
    eapply list_elem_of_fmap_2'; [by apply elem_of_upto|done]. }
  apply submseteq_length in Hsub. rewrite length_app in Hsub. unfold zlen in *. lia.
Qed.

Section bfrees.
Context {H : list (nat * Z)} {s0 : fsst} {P0 : list Z} {i0 : inode} (Hal0 : alloc_ok s0 H)
  (Hlog : zlen P0 + nbitmap (fs_sb s0) + 1 + zlen H < NBUF).

Lemma freed_alloc_ok D s P : freed s0 P0 H D s P → (∀ b, b ∈ D → own_block s0 H i0 b) → alloc_ok s H.
Proof.
  intros [] HD. destruct Hal0 as [A1 A2 A3]. split; rewrite ?fr_sb0; [done|intros k Hk; rewrite fr_home0; auto|].
  intros b Hb. rewrite fr_free0 by done. case_decide as Hin.
  - intros _. destruct (HD b Hin). rewrite fr_home0. split_and!; [done|done|]. intros k Hk ->. apply ob_bitmap. by exists k.
  - rewrite fr_home0. by apply A3.
Qed.

Lemma freed_bfree D s P b : freed s0 P0 H D s P → (∀ b, b ∈ D → own_block s0 H i0 b) → own_block s0 H i0 b → b ∉ D →
  ∃ s' P', bfree ROOTDEV b s = Ok (tt, s') ∧ freed s0 P0 H (b :: D) s' P' ∧ fs_inode s' = fs_inode s.
Proof.
  intros Hfr HD Hb HbD. pose proof (freed_alloc_ok _ _ _ Hfr HD) as Hal. destruct (al_size _ _ Hal0) as [Hsz _].
  pose proof (freed_log _ _ _ _ _ _ Hfr Hsz). pose proof (zlen_nonneg H). pose proof Hfr as []. pose proof (ob_range _ _ _ _ Hb).
  destruct (bfree_effect s P H b) as (s' & v & E & Ht' & Hm & Hf & Hv); [done|done|lia|lia|rewrite fr_sb0; lia| |].
  { rewrite fr_free0 by lia. rewrite decide_False by done. apply Hb. }
  destruct (fm_sb _ _ _ Hm) as (Esb & Eino & _). rewrite fr_sb0 in *.
  assert (in_bitmap s0 (bmap_block (fs_sb s0) b)) as Hbm.
  { exists (b / BPB). split; [|done]. apply (block_parts s0 H b Hal0). lia. }
  eexists s', _. split_and!; [exact E| |done]. split.
  - exact Ht'.
  - done.
  - intros x. by rewrite (fm_home _ _ _ _ Hm).
  - intros x Hx. rewrite Hf by done. rewrite fr_free0 by done. destruct (decide (x = b)) as [->|]; [by rewrite decide_True by (by left)|].
    destruct (decide (x ∈ D)); [by rewrite decide_True by (by right)|]. rewrite decide_False; [done|]. set_solver.
  - intros x Hx. rewrite Hv; [by apply fr_view0|]. by intros ->.
  - intros x [->|Hx]%elem_logged; [by right|]. by apply fr_log0.
Qed.

(** Freeing the blocks [e j]. *)
Lemma freed_loop (e : Z → Z) js D s P : freed s0 P0 H D s P → (∀ b, b ∈ D → own_block s0 H i0 b) → NoDup js →
  (∀ j, j ∈ js → e j ≠ 0 → own_block s0 H i0 (e j) ∧ e j ∉ D) →
  (∀ j j', j ∈ js → j' ∈ js → e j = e j' → e j ≠ 0 → j = j') →
  ∃ s' P' D', for_each (λ j, when (negb (e j =? 0)) (bfree ROOTDEV (e j))) js s = Ok (tt, s') ∧ freed s0 P0 H D' s' P' ∧
    fs_inode s' = fs_inode s ∧ ∀ b, b ∈ D' ↔ b ∈ D ∨ (b ≠ 0 ∧ ∃ j, j ∈ js ∧ e j = b).
Proof.
  revert D s P. induction js as [|j js IH]; intros D s P Hfr HD Hnd He Hinj.
  - exists s, P, D. split_and!; [done..|]. intros b. split; [by left|]. intros [?|(_ & x & Hx & _)]; [done|by apply not_elem_of_nil in Hx].
  - apply NoDup_cons in Hnd as [Hj Hnd]. simpl. destruct (Z.eqb_spec (e j) 0) as [E0|Hne]; cbn [negb when].
    + mget tt. destruct (IH D s P) as (s' & P' & D' & E & Hfr' & Ei & HD'); [done|done|done|intros x Hx; apply He; by right|intros x y Hx Hy; apply Hinj; by right|].
      exists s', P', D'. split_and!; [done..|]. intros b. rewrite HD'. set_solver.
    + destruct (He j ltac:(by left) Hne) as [Hown HjD]. destruct (freed_bfree D s P (e j) Hfr HD Hown HjD) as (s1 & P1 & E1 & Hfr1 & Ei1).
      rewrite (bind_step _ _ _ _ _ E1).
      destruct (IH (e j :: D) s1 P1) as (s' & P' & D' & E & Hfr' & Ei & HD'); [done| |done| |intros x y Hx Hy; apply Hinj; by right|].
      { intros b [->|Hb]%elem_of_cons; [done|by apply HD]. }
      { intros x Hx Hx0. destruct (He x ltac:(by right) Hx0). split; [done|]. apply not_elem_of_cons. split; [|done].
        intros Ex. assert (x = j) as -> by (apply Hinj; [by right|by left|done|done]). done. }
      exists s', P', D'. split_and!; [done|done|by rewrite Ei|]. intros b. rewrite HD', elem_of_cons. split.
      * intros [[->|?]|(? & x & Hx & <-)]; [right; split; [done|]; exists j; split; [by left|done]|by left|right; split; [done|]; exists x; split; [by right|done]].
      * intros [?|(? & x & [->|Hx]%elem_of_cons & <-)]; [by left; right|by left; left|right; split; [done|]; by exists x].
Qed.
End bfrees.

Lemma freed_inode s0 P0 H D s P x : freed s0 P0 H D s P → freed s0 P0 H D (s <| fs_inode := x |>) P.
Proof. intros []. by split. Qed.
Lemma freed_calm s0 P0 H D s P H' s' : freed s0 P0 H D s P → fcalm s s' → ftrans s' P H' → freed s0 P0 H' D s' P.
Proof.
  intros [] Hm Ht. destruct (fm_sb _ _ _ Hm) as (Esb & _). split; [done|congruence|intros b; by rewrite (fm_home _ _ _ _ Hm)| | |done].
  - intros b Hb. rewrite (is_free_calm _ _ _ Hm). by apply fr_free0.
  - intros b Hb. rewrite (fm_view _ _ _ _ Hm). by apply fr_view0.
Qed.
Lemma own_block_hold s H i bp a b : own_block s H i b → b ≠ a → own_block s ((bp, a) :: H) i b.
Proof. intros [] Hne. split; try done. simpl. by apply not_elem_of_cons. Qed.

(** The inode with its first [k] places cleared. *)
Definition cleared (i0 : inode) (k : Z) (l : list Z) : Prop :=
  zlen l = NDIRECT + 1 ∧ ∀ m, 0 ≤ m ≤ NDIRECT → znth l m = if decide (m < k) then Some 0 else znth (i_addrs i0) m.

Lemma cleared_set i0 k l : cleared i0 k l → 0 ≤ k ≤ NDIRECT → cleared i0 (k + 1) (zset l k 0).
Proof.
  intros [Hl Hc] Hk. split; [by rewrite zlen_zset|]. intros m Hm. destruct (decide (m = k)) as [->|Hne].
  - rewrite znth_zset_eq by lia. by rewrite decide_True by lia.
  - rewrite znth_zset_ne by (lia || done). rewrite Hc by done. repeat case_decide; lia || done.
Qed.
Lemma cleared_skip i0 k l : cleared i0 k l → 0 ≤ k ≤ NDIRECT → znth (i_addrs i0) k = Some 0 → cleared i0 (k + 1) l.
Proof.
  intros [Hl Hc] Hk H0. split; [done|]. intros m Hm. rewrite Hc by done. destruct (decide (m = k)) as [->|Hne]; [|repeat case_decide; lia || done].
  rewrite decide_False, decide_True by lia. done.
Qed.
Lemma cleared_all i0 l : cleared i0 (NDIRECT + 1) l → l = zrepl (NDIRECT + 1) 0.
Proof.
  intros [Hl Hc]. apply znth_ext; [by rewrite Hl|]. intros m Hm. rewrite znth_zrepl by lia. rewrite Hc by lia. by rewrite decide_True by lia.
Qed.

Section itrunc.
Context {H : list (nat * Z)} {s0 : fsst} {P0 : list Z} {ip : nat} {i0 : inode} (Hfo : file_ok s0 H ip i0)
  (Hlog : zlen P0 + nbitmap (fs_sb s0) + 1 + (1 + zlen H) < NBUF).

(** The blocks in slots that satisfy [Q]. *)
Definition blocks_of (Q : Z → Prop) (b : Z) : Prop := b ≠ 0 ∧ ∃ m, Q m ∧ slot s0 i0 m = Some b.
Definition with_addrs (l : list Z) : list inode := <[ip := i0 <| i_addrs := l |>]> (fs_inode s0).

Lemma with_addrs_lookup l : with_addrs l !! ip = Some (i0 <| i_addrs := l |>).
Proof. apply list_lookup_insert_eq. eapply lookup_lt_Some, (fo_entry _ _ _ _ Hfo). Qed.

Lemma itrunc_log : zlen P0 + nbitmap (fs_sb s0) + 1 + zlen H < NBUF.
Proof. lia. Qed.

Lemma itrunc_direct n k s P D l : 0 ≤ k → k + Z.of_nat n = NDIRECT → freed s0 P0 H D s P →
  (∀ b, b ∈ D ↔ blocks_of (λ m, 0 ≤ m < k) b) → fs_inode s = with_addrs l → cleared i0 k l →
  ∃ s' P' D' l', for_each (λ k, a ← get_addr ip k; when (negb (a =? 0)) (bfree (i_dev i0) a ;; set_addr ip k 0)) (seqZ k (Z.of_nat n)) s = Ok (tt, s') ∧
    freed s0 P0 H D' s' P' ∧ (∀ b, b ∈ D' ↔ blocks_of (λ m, 0 ≤ m < NDIRECT) b) ∧ fs_inode s' = with_addrs l' ∧ cleared i0 NDIRECT l'.
Proof.
  revert k s P D l. induction n as [|n IH]; intros k s P D l Hk Hkn Hfr HD Hino Hcl.
  - exists s, P, D, l. assert (k = NDIRECT) as -> by lia. by split_and!.
  - rewrite seqZ_cons by lia. replace (Z.pred (Z.of_nat (Datatypes.S n))) with (Z.of_nat n) by lia. simpl for_each.
    destruct (slot_total s0 i0 k (fo_fits _ _ _ _ Hfo) ltac:(lia)) as [a Ha].
    assert (znth (i_addrs i0) k = Some a) as Hak by (by rewrite <-(slot_direct s0) by lia).
    assert (get_addr ip k s = Ok (a, s)) as Eg.
    { unfold get_addr. erewrite bind_step by (apply geti_ok; rewrite Hino; apply with_addrs_lookup). apply opt_ok. simpl. destruct Hcl as [_ ->]; [|lia]. by rewrite decide_False by lia. }
    rewrite bind_assoc, (bind_step _ _ _ _ _ Eg). destruct (Z.eqb_spec a 0) as [E0|Hne]; cbn [negb when].
    + mget tt. apply (IH (Z.succ k) s P D l); [lia|lia|done| |done|by apply cleared_skip; [|lia|rewrite Hak, E0]].
      intros b. rewrite HD. unfold blocks_of. split; intros (Hb & m & Hm & E); (split; [done|]); exists m; (split; [|done]); [lia|].
      assert (m ≠ k) by (intros ->; congruence). lia.
    + pose proof (fo_slot _ _ _ _ Hfo k a ltac:(lia) Ha Hne) as Hown.
      assert (∀ b, b ∈ D → own_block s0 H i0 b) as HDo.
      { intros b (Hb & m & Hm & E)%HD. eapply (fo_slot _ _ _ _ Hfo); [|exact E|done]. lia. }
      assert (a ∉ D) as HaD by (intros (_ & m & Hm & E)%HD; pose proof (fo_inj _ _ _ _ Hfo m k a ltac:(lia) ltac:(lia) E Ha Hne); lia).
      destruct (freed_bfree (i0 := i0) (fo_alloc _ _ _ _ Hfo) itrunc_log D s P a Hfr HDo Hown HaD) as (s1 & P1 & E1 & Hfr1 & Ei1).
      rewrite (fo_dev _ _ _ _ Hfo). rewrite bind_assoc, (bind_step _ _ _ _ _ E1). unfold set_addr.
      erewrite bind_step by (apply updi_ok; rewrite Ei1, Hino; apply with_addrs_lookup).
      destruct (IH (Z.succ k) (s1 <| fs_inode := with_addrs (zset l k 0) |>) P1 (a :: D) (zset l k 0)) as (s' & P' & D' & l' & E & Hrest); [lia|lia|by apply freed_inode| |done|by apply cleared_set; [|lia]|].
      { intros b. rewrite elem_of_cons, HD. unfold blocks_of. split.
        - intros [->|(Hb & m & Hm & E)]; [split; [done|]; exists k; split; [lia|done]|split; [done|]; exists m; split; [lia|done]].
        - intros (Hb & m & Hm & E). destruct (decide (m = k)) as [->|]; [left; congruence|right; split; [done|]; exists m; split; [lia|done]]. }
      exists s', P', D', l'. split; [|done]. rewrite <-E. f_equal.
      * by rewrite (fo_dev _ _ _ _ Hfo).
      * destruct s1. simpl in *. unfold upd, upd_fs_inode. simpl. rewrite Ei1, Hino. unfold with_addrs. simpl. by rewrite list_insert_insert_eq.
Qed.

(** The block of block numbers, then the blocks it names. *)
Lemma itrunc_indirect s P D l : freed s0 P0 H D s P → (∀ b, b ∈ D ↔ blocks_of (λ m, 0 ≤ m < NDIRECT) b) →
  fs_inode s = with_addrs l → cleared i0 NDIRECT l →
  ∃ s' P' D', (ind ← get_addr ip NDIRECT;
    when (negb (ind =? 0))
      (bp ← lift_buf (bread (i_dev i0) ind);
       a ← data_of bp;
       for_each (λ j, when (negb (getu (4 * j) 4 a =? 0)) (bfree (i_dev i0) (getu (4 * j) 4 a))) (upto NINDIRECT) ;;
       lift_buf (brelse bp) ;;
       bfree (i_dev i0) ind ;;
       set_addr ip NDIRECT 0)) s = Ok (tt, s') ∧
    freed s0 P0 H D' s' P' ∧ (∀ b, b ∈ D' ↔ blocks_of (λ m, 0 ≤ m ≤ MAXFILE) b) ∧ fs_inode s' = with_addrs (zrepl (NDIRECT + 1) 0).
Proof.
  intros Hfr HD Hino Hcl. destruct (slot_total s0 i0 MAXFILE (fo_fits _ _ _ _ Hfo) ltac:(lia)) as [ind Hind].
  assert (get_addr ip NDIRECT s = Ok (ind, s)) as Eg.
  { unfold get_addr. erewrite bind_step by (apply geti_ok; rewrite Hino; apply with_addrs_lookup). apply opt_ok. simpl.
    destruct Hcl as [_ ->]; [|lia]. rewrite decide_False by lia. by rewrite <-(slot_indirect s0). }
  rewrite (bind_step _ _ _ _ _ Eg). assert (∀ b, b ∈ D → own_block s0 H i0 b) as HDo.
  { intros b (Hb & m & Hm & E)%HD. eapply (fo_slot _ _ _ _ Hfo); [|exact E|done]. lia. }
  destruct (Z.eqb_spec ind 0) as [E0|Hne]; cbn [negb when].
  - exists s, P, D. split_and!; [done|done| |].
    + intros b. rewrite HD. unfold blocks_of. split; intros (Hb & m & Hm & E); (split; [done|]); exists m; (split; [|done]); [lia|].
      destruct (decide (m = MAXFILE)) as [->|]; [congruence|]. destruct (decide (m < NDIRECT)); [lia|]. exfalso.
      rewrite (slot_entry s0 i0 m ind), E0 in E by (done || lia). simpl in E. congruence.
    + rewrite Hino. f_equal. apply (cleared_all i0), cleared_skip; [done|lia|]. rewrite <-(slot_indirect s0), Hind. by rewrite E0.
  - pose proof (fo_slot _ _ _ _ Hfo MAXFILE ind ltac:(lia) Hind Hne) as Hown. rewrite (fo_dev _ _ _ _ Hfo).
    destruct (al_size _ _ (fo_alloc _ _ _ _ Hfo)) as [Hsz _]. pose proof (freed_log _ _ _ _ _ _ Hfr Hsz).
    destruct (fs_bread s P H ind (fr_trans _ _ _ _ _ _ Hfr) (proj1 (ob_home _ _ _ _ Hown)) (ob_held _ _ _ _ Hown) ltac:(lia)) as (bp & s1 & E1 & Ht1 & Hm1).
    pose proof (freed_calm _ _ _ _ _ _ _ _ Hfr Hm1 Ht1) as Hfr1. destruct (fm_sb _ _ _ Hm1) as (_ & Ei1 & _).
    rewrite (bind_step _ _ _ _ _ E1). erewrite bind_step by (eapply fs_data; [exact Ht1|by left]).
    rewrite (fr_view _ _ _ _ _ _ Hfr1 ind (ob_bitmap _ _ _ _ Hown)).
    set (e := λ j, getu (4 * j) 4 (fview s0 ind)). assert (∀ j, 0 ≤ j < NINDIRECT → slot s0 i0 (NDIRECT + j) = Some (e j)) as He.
    { intros j Hj. rewrite (slot_entry s0 i0 _ ind) by (done || lia). destruct (Z.eqb_spec ind 0); [done|]. unfold e. do 3 f_equal. lia. }
    destruct (freed_loop (H := (bp, ind) :: H) (s0 := s0) (P0 := P0) (i0 := i0) (alloc_ok_hold _ _ _ _ (fo_alloc _ _ _ _ Hfo) Hown)
      ltac:(unfold zlen in *; simpl; lia) e (upto NINDIRECT) D s1 P) as (s2 & P2 & D2 & E2 & Hfr2 & Ei2 & HD2); [done| |apply NoDup_seqZ| | |].
    { intros b Hb. apply own_block_hold; [by apply HDo|]. intros ->. apply HD in Hb as (_ & m & Hm & E).
      pose proof (fo_inj _ _ _ _ Hfo m MAXFILE ind ltac:(lia) ltac:(lia) E Hind Hne). lia. }
    { intros j Hj%elem_of_upto Hj0. pose proof (He j Hj) as Ej. split.
      - apply own_block_hold; [eapply (fo_slot _ _ _ _ Hfo); [|exact Ej|done]; lia|]. intros Ex. rewrite Ex in Ej.
        pose proof (fo_inj _ _ _ _ Hfo (NDIRECT + j) MAXFILE ind ltac:(lia) ltac:(lia) Ej Hind Hne). lia.
      - intros (_ & m & Hm & E)%HD. pose proof (fo_inj _ _ _ _ Hfo m (NDIRECT + j) (e j) ltac:(lia) ltac:(lia) E Ej Hj0). lia. }
    { intros j j' Hj%elem_of_upto Hj'%elem_of_upto Ee Hj0. pose proof (He j Hj) as Ej. pose proof (He j' Hj') as Ej'. rewrite <-Ee in Ej'.
      pose proof (fo_inj _ _ _ _ Hfo (NDIRECT + j) (NDIRECT + j') (e j) ltac:(lia) ltac:(lia) Ej Ej' Hj0). lia. }
    rewrite (bind_step _ _ _ _ _ E2). destruct (fs_brelse _ _ _ _ _ (fr_trans _ _ _ _ _ _ Hfr2)) as (s3 & E3 & Ht3 & Hm3).
    pose proof (freed_calm _ _ _ _ _ _ _ _ Hfr2 Hm3 Ht3) as Hfr3. destruct (fm_sb _ _ _ Hm3) as (_ & Ei3 & _). rewrite (bind_step _ _ _ _ _ E3).
    assert (∀ b, b ∈ D2 ↔ blocks_of (λ m, 0 ≤ m < MAXFILE) b) as HD3.
    { intros b. rewrite HD2, HD. unfold blocks_of. split.
      - intros [(Hb & m & Hm & E)|(Hb & j & Hj%elem_of_upto & <-)]; (split; [done|]); [exists m; split; [lia|done]|].
        exists (NDIRECT + j). split; [lia|by apply He].
      - intros (Hb & m & Hm & E). destruct (decide (m < NDIRECT)); [left; split; [done|]; exists m; split; [lia|done]|].
        right. split; [done|]. exists (m - NDIRECT). split; [apply elem_of_upto; lia|]. specialize (He (m - NDIRECT) ltac:(lia)).
        replace (NDIRECT + (m - NDIRECT)) with m in He by lia. congruence. }
    destruct (freed_bfree (i0 := i0) (fo_alloc _ _ _ _ Hfo) itrunc_log D2 s3 P2 ind Hfr3) as (s4 & P4 & E4 & Hfr4 & Ei4).
    { intros b (Hb & m & Hm & E)%HD3. eapply (fo_slot _ _ _ _ Hfo); [|exact E|done]. lia. }
    { done. }
    { intros (_ & m & Hm & E)%HD3. pose proof (fo_inj _ _ _ _ Hfo m MAXFILE ind ltac:(lia) ltac:(lia) E Hind Hne). lia. }
    rewrite (bind_step _ _ _ _ _ E4). unfold set_addr. assert (fs_inode s4 = with_addrs l) as Ei by congruence.
    eexists (s4 <| fs_inode := with_addrs (zset l NDIRECT 0) |>), P4, (ind :: D2). split_and!.
    + erewrite updi_ok by (rewrite Ei; apply with_addrs_lookup). apply Ok_pair. destruct s4. simpl in *. unfold upd, upd_fs_inode. simpl.
      rewrite Ei. unfold with_addrs. simpl. by rewrite list_insert_insert_eq.
    + by apply freed_inode.
    + intros b. rewrite elem_of_cons, HD3. unfold blocks_of. split.
      * intros [->|(Hb & m & Hm & E)]; (split; [done|]); [exists MAXFILE; split; [lia|done]|exists m; split; [lia|done]].
      * intros (Hb & m & Hm & E). destruct (decide (m = MAXFILE)) as [->|]; [left; congruence|right; split; [done|]; exists m; split; [lia|done]].
    + simpl. f_equal. apply (cleared_all i0), cleared_set; [done|lia].
Qed.
End itrunc.

Lemma slot_zeros s i k a : i_addrs i = zrepl (NDIRECT + 1) 0 → 0 ≤ k ≤ MAXFILE → slot s i k = Some a → a = 0.
Proof.
  intros Hi Hk. assert (slot s i MAXFILE = Some 0) as H0 by (rewrite slot_indirect, Hi; by apply znth_zrepl).
  destruct (decide (k < NDIRECT)); [rewrite slot_direct, Hi, znth_zrepl by lia; congruence|].
  destruct (decide (k = MAXFILE)) as [->|]; [congruence|]. rewrite (slot_entry s i k 0) by (done || lia). simpl. congruence.
Qed.

Section truncate.
Context {H : list (nat * Z)}.

(** C17. [itrunc] gives every block of the file back. For an open file whose
    blocks are its own, it returns; a block is free afterwards exactly if it was
    free or was one of the file's, direct, indirect or the block of block numbers
    itself; no block was freed twice, which would have been a panic; no block has
    changed but those of the bitmap and the one of the inode, which holds the
    inode with size 0 and no blocks; and the log has grown by no more than these. *)
Theorem itrunc_frees ip s P i : ftrans s P H → file_ok s H ip i → zlen P + nbitmap (fs_sb s) + 2 + zlen H < NBUF →
  let inum := i_inum i in let i' := i <| i_size := 0 |> <| i_addrs := zrepl (NDIRECT + 1) 0 |> in
  ∃ s' P', itrunc ip s = Ok (tt, s') ∧ ftrans s' P' H ∧ file_ok s' H ip i' ∧ zlen P' ≤ zlen P + nbitmap (fs_sb s) + 1 ∧
    (∀ b, 0 ≤ b < sb_size (fs_sb s) →
      is_free s' b = true ↔ is_free s b = true ∨ ∃ k, 0 ≤ k ≤ MAXFILE ∧ slot s i k = Some b ∧ b ≠ 0) ∧
    (∀ b, ¬ in_bitmap s b → b ≠ iblock (fs_sb s) inum → fview s' b = fview s b) ∧
    fview s' (iblock (fs_sb s) inum) = put_dinode (dinode_off inum) i' (fview s (iblock (fs_sb s) inum)).
Proof.
  intros Ht Hfo Hl inum i'. pose proof (fo_entry _ _ _ _ Hfo) as Hi. destruct (al_size _ _ (fo_alloc _ _ _ _ Hfo)) as [Hsz _]. pose proof (zlen_nonneg H).
  assert (zlen P + nbitmap (fs_sb s) + 1 + (1 + zlen H) < NBUF) as Hl' by lia.
  assert (freed s P H [] s P) as Hfr0 by (by split; [..|left]).
  destruct (itrunc_direct Hfo Hl' 12 0 s P [] (i_addrs i)) as (s1 & P1 & D1 & l1 & E1 & Hfr1 & HD1 & Hi1 & Hc1); [lia|done|done| | | |].
  { intros b. split; [by intros ?%not_elem_of_nil|intros (_ & m & Hm & _); lia]. }
  { unfold with_addrs. replace (i <| i_addrs := i_addrs i |>) with i by (by destruct i). by rewrite list_insert_id. }
  { split; [apply (fo_fits _ _ _ _ Hfo)|]. intros m Hm. by rewrite decide_False by lia. }
  destruct (itrunc_indirect Hfo Hl' s1 P1 D1 l1 Hfr1 HD1 Hi1 Hc1) as (s2 & P2 & D2 & E2 & Hfr2 & HD2 & Hi2).
  set (s3 := s2 <| fs_inode := <[ip := i']> (fs_inode s2) |>). pose proof (freed_inode _ _ _ _ _ _ (<[ip := i']> (fs_inode s2)) Hfr2) as Hfr3. fold s3 in Hfr3.
  pose proof (freed_log _ _ _ _ _ _ Hfr3 Hsz). pose proof Hfr3 as [Ht3 Esb3 Hh3 Hf3 Hv3 _].
  assert (fs_inode s3 !! ip = Some i') as Hi3 by (apply list_lookup_insert_eq; rewrite Hi2; eapply lookup_lt_Some, with_addrs_lookup, Hfo).
  assert (inode_fits i') as Hfit by (destruct (fo_fits _ _ _ _ Hfo); split; try done; simpl; repeat constructor; lia).
  destruct (fo_ihome _ _ _ _ Hfo) as [Hih HiH].
  destruct (iupdate_ok s3 P2 H ip i' Ht3 Hi3 (fo_dev _ _ _ _ Hfo) Hfit) as (s4 & E4 & Ht4 & Hm4); [rewrite Esb3; by apply Hh3|by rewrite Esb3|lia|lia|].
  change (i_inum i') with inum in *. rewrite Esb3 in *. destruct (fm_sb _ _ _ Hm4) as (Esb4 & Ei4 & _).
  assert (∀ b, b ∈ D2 → own_block s H i b) as HD2o by (intros b (Hb & m & Hm & E)%HD2; by eapply (fo_slot _ _ _ _ Hfo)).
  assert (∀ b, 0 ≤ b < sb_size (fs_sb s) → is_free s4 b = is_free s3 b) as Hf4.
  { intros b Hb. unfold is_free. rewrite Esb4, (fm_view _ _ _ _ Hm4), Esb3. unfold with_block. rewrite decide_False; [done|].
    intros E. apply (fo_ibitmap _ _ _ _ Hfo). exists (b / BPB). split; [|exact (eq_sym E)]. by apply (block_parts s H b (fo_alloc _ _ _ _ Hfo)). }
  assert (∀ b, ¬ free_block s b → b ∉ D2 → ¬ free_block s4 b) as Hnf.
  { intros b Hnf Hb [Hbr Hf]. rewrite Esb4, Esb3 in Hbr. apply Hnf. split; [done|]. rewrite Hf4, Hf3, decide_False in Hf; done. }
  assert (file_ok s4 H ip i') as Hfo4.
  { pose proof (freed_alloc_ok (fo_alloc _ _ _ _ Hfo) _ _ _ Hfr3 HD2o) as [A1 A2 A3].
    assert (∀ k a, 0 ≤ k ≤ MAXFILE → slot s4 i' k = Some a → a = 0) as Hz by (intros k a; by apply (slot_zeros s4 i')).
    assert (∀ b, home (fs_log s4) b ↔ home (fs_log s) b) as Hh4 by (intros b; by rewrite (fm_home _ _ _ _ Hm4)).
    split; unfold in_bitmap; rewrite ?Esb4, ?Esb3; try done.
    - by rewrite Ei4.
    - apply (fo_dev _ _ _ _ Hfo).
    - split; rewrite ?Esb4, ?Esb3 in *; [done|intros k Hk; rewrite Hh4, <-Hh3; by apply A2|].
      intros b Hb Hf. rewrite Hf4 in Hf by done. rewrite Hh4, <-Hh3. by apply A3.
    - apply Hnf; [apply (fo_zero _ _ _ _ Hfo)|]. by intros [? _]%HD2.
    - by rewrite Hh4.
    - apply (fo_ibitmap _ _ _ _ Hfo).
    - apply Hnf; [apply (fo_iused _ _ _ _ Hfo)|]. intros Hin%HD2o. by apply (ob_inode _ _ _ _ Hin).
    - intros k a Hk Ha Hne. by apply Hz in Ha.
    - intros k k' a Hk _ Ha _ Hne. by apply Hz in Ha. }
  exists s4, (logged P2 (iblock (fs_sb s) inum)). pose proof (length_logged P2 (iblock (fs_sb s) inum)).
  split_and!; [|done| |lia| | |].
  - unfold itrunc. erewrite bind_step by (by apply geti_ok). rewrite (bind_step _ _ _ _ _ E1). rewrite <-bind_assoc.
    rewrite (bind_step _ _ _ _ _ E2). erewrite bind_step by (apply updi_ok; rewrite Hi2; apply (with_addrs_lookup Hfo)). rewrite <-E4. f_equal.
  - done.
  - intros b Hb. rewrite Hf4, Hf3 by done. split.
    + case_decide as Hin; [|by left]. intros _. right. apply HD2 in Hin as (Hb0 & m & Hm & E). by exists m.
    + intros [Hf|(k & Hk & E & Hb0)]; [by case_decide|]. rewrite decide_True; [done|]. apply HD2. split; [done|]. by exists k.
  - intros b Hb Hne. rewrite (fm_view _ _ _ _ Hm4). unfold with_block. rewrite decide_False by done. by apply Hv3.
  - rewrite (fm_view _ _ _ _ Hm4). unfold with_block. rewrite decide_True by done. f_equal. apply Hv3, (fo_ibitmap _ _ _ _ Hfo).
Qed.
End truncate.

Lemma itrunc_frees_witness :
  ∃ s', itrunc 3 twelve_block_fs = Ok (tt, s') ∧ is_free s' 46 = true ∧ is_free s' 57 = true ∧ is_free s' 45 = false.
Proof.
  destruct (itrunc_frees (H := []) 3 twelve_block_fs [] twelve_blocks) as (s' & P' & E & _ & _ & _ & Hf & _ & _).
  - apply small_trans; [exact demo_disk_len|reflexivity].
  - apply twelve_block_ok.
  - reflexivity.
  - exists s'. split; [exact E|]. split; [|split].
    + apply Hf; [split; [discriminate|reflexivity]|]. right. exists 0. split; [lia|]. split; [reflexivity|discriminate].
    + apply Hf; [split; [discriminate|reflexivity]|]. right. exists 11. split; [lia|]. split; [reflexivity|discriminate].
    + apply not_true_is_false. intros [Hx|(k & Hk & Ek & Hne)]%Hf; [| |split; [discriminate|reflexivity]].
      * rewrite twelve_block_free in Hx by lia. discriminate.
      * destruct (twelve_slots k 45 Hk Ek Hne). lia.
Defined.
