(* ===== verification/Contents.v ===== *)
(** * The contents of files

    A file as an array of bytes: [writei] stores into it, growing the file and
    allocating blocks where there are none, and [readi] reads it back, whatever
    blocks the file has on the disk ([Blockmap]). *)

From stdpp Require Import base numbers list gmap strings.
From S2P Require Import Prelude Machine KState Bio BufProps Log LogProps LogUse Disk Raid Str Fs FsProps Blockmap.
Open Scope Z_scope.
Open Scope kernel_scope.

Implicit Types (s : fsst) (P : list Z) (H : list (nat * Z)) (i : inode).

Section file.
Context {H : list (nat * Z)}.

(** ** Writing *)

(** The blocks that [n] bytes from [off] on lie in. *)
Definition nblk (off n : Z) : Z := if n =? 0 then 0 else (off mod BSIZE + n + BSIZE - 1) / BSIZE.
Lemma nblk_piece off n : 0 ≤ off → 0 < n → let m := Z.min n (BSIZE - off mod BSIZE) in
  0 < m ≤ n ∧ off mod BSIZE + m ≤ BSIZE ∧ nblk (off + m) (n - m) = nblk off n - 1 ∧ 1 ≤ nblk off n.
Proof.
  intros Ho Hn m. unfold nblk, m. destruct (Z.eqb_spec n 0); [lia|].
  destruct (Z.eqb_spec (n - Z.min n (BSIZE - off mod BSIZE)) 0); dlia.
Qed.

(** Writing into one block changes those bytes of the file, and no slot. *)
Lemma fbyte_write s s' ip i a off bs : file_ok s H ip i → 0 ≤ off → off mod BSIZE + zlen bs ≤ BSIZE →
  zlen (fview s a) = BSIZE → off / BSIZE < MAXFILE → slot s i (off / BSIZE) = Some a → a ≠ 0 →
  fshows (with_block (fview s) a (splice (off mod BSIZE) bs (fview s a))) s s' →
  file_ok s' H ip i ∧ (∀ k, slot s' i k = slot s i k) ∧
  ∀ x, 0 ≤ x < MAXFILE * BSIZE →
    fbyte s' i x = if (off <=? x) && (x <? off + zlen bs) then znth bs (x - off) else fbyte s i x.
Proof.
  intros Hfo Ho Hbs Hlen Hbn Ha Hne Hm. assert (0 ≤ off / BSIZE) by dlia. pose proof (zlen_nonneg bs).
  pose proof (fo_slot _ _ _ _ Hfo (off / BSIZE) a ltac:(lia) Ha Hne) as Hown.
  destruct (file_ok_shows s s' _ ip i Hfo Hm) as [Hfo' Hs].
  { intros b Hb. unfold with_block. rewrite decide_False; [done|]. intros ->. by apply (ob_bitmap _ _ _ _ Hown). }
  { intros c Hc Hc0. unfold with_block. rewrite decide_False; [done|]. intros ->.
    pose proof (fo_inj _ _ _ _ Hfo (off / BSIZE) MAXFILE a ltac:(lia) ltac:(lia) Ha Hc Hne). lia. }
  split; [done|]. split; [done|]. intros x Hx. unfold fbyte. rewrite Hs.
  destruct (decide (x / BSIZE = off / BSIZE)) as [E|Hd].
  - rewrite E, Ha. simpl. destruct (Z.eqb_spec a 0); [done|]. rewrite (fm_view _ _ _ _ Hm). unfold with_block.
    rewrite decide_True, znth_splice by (done || lia || dlia). replace (x mod BSIZE - off mod BSIZE) with (x - off) by dlia.
    destruct (Z.leb_spec (off mod BSIZE) (x mod BSIZE)), (Z.ltb_spec (x mod BSIZE) (off mod BSIZE + zlen bs)), (Z.leb_spec off x),
      (Z.ltb_spec x (off + zlen bs)); simpl; try done; exfalso; dlia.
  - assert ((off <=? x) && (x <? off + zlen bs) = false) as ->.
    { destruct (Z.leb_spec off x), (Z.ltb_spec x (off + zlen bs)); simpl; try done. exfalso. dlia. }
    destruct (slot s i (x / BSIZE)) as [a'|] eqn:Ea; [|done]. simpl. destruct (Z.eqb_spec a' 0); [done|].
    rewrite (fm_view _ _ _ _ Hm). unfold with_block. rewrite decide_False; [done|]. intros ->. apply Hd.
    eapply (fo_inj _ _ _ _ Hfo); try done; dlia.
Qed.

(** The file has got blocks in slots [k0] to [k0 + n - 1], and has kept those it had. *)
Record grown s s' i i' (k0 n : Z) : Prop := {
  gr_rest : i' = i <| i_addrs := i_addrs i' |>;
  gr_old k a : 0 ≤ k ≤ MAXFILE → slot s i k = Some a → a ≠ 0 → slot s' i' k = Some a;
  gr_new k : 0 ≤ k ≤ MAXFILE → k0 ≤ k < k0 + n → ∃ a, slot s' i' k = Some a ∧ a ≠ 0;
}.
Lemma grown_trans s1 s2 s3 i1 i2 i3 k n n' : grown s1 s2 i1 i2 k n → grown s2 s3 i2 i3 (k + n) n' → grown s1 s3 i1 i3 k (n + n').
Proof.
  intros [A1 A2 A3] [B1 B2 B3]. split; [rewrite B1, A1; done|auto|]. intros j Hj Hjk. destruct (decide (j < k + n)).
  - destruct (A3 j) as (a & Ha & Hne); [done|lia|]. eauto.
  - apply B3; lia.
Qed.

(** The bytes of the source, as [writei] of a kernel buffer takes them. *)
Abbreviation wstep src ip := (writei_step (λ A (m : FS A), m) (λ tot m, mret (sub tot m src, 0)) ip (zlen src)).

Lemma writei_piece src ip tot off s P i : ftrans s P H → file_ok s H ip i → 0 ≤ tot < zlen src → 0 ≤ off →
  off + (zlen src - tot) ≤ MAXFILE * BSIZE → zlen src < 4294967296 → free_space s (1 + pending i) →
  zlen P + 4 + 2 * pending i + zlen H < NBUF →
  let m := Z.min (zlen src - tot) (BSIZE - off mod BSIZE) in
  ∃ s' P' i', wstep src ip (tot, off) s = Ok (inl (tot + m, off + m), s') ∧ ftrans s' P' H ∧
    zlen P' ≤ zlen P + 3 + 2 * (pending i - pending i') ∧
    file_ok s' H ip i' ∧ grown s s' i i' (off / BSIZE) 1 ∧ fs_sb s' = fs_sb s ∧ pending i' ≤ pending i ∧
    (∀ n, free_space s (n + pending i) → free_space s' (n - 1 + pending i')) ∧
    ∀ x, 0 ≤ x < MAXFILE * BSIZE →
      fbyte s' i' x = if (off <=? x) && (x <? off + m) then znth src (tot + (x - off)) else fbyte s i x.
Proof.
  intros Ht Hfo Htot Ho Hend Hn Hfs Hl m. pose proof (zlen_nonneg H). pose proof (zlen_nonneg P). pose proof (pending_range i).
  destruct (nblk_piece off (zlen src - tot)) as (Hm1 & Hm2 & _ & _); [done|lia|]. fold m in Hm1, Hm2.
  assert (0 ≤ off / BSIZE < MAXFILE) as Hbn by dlia.
  destruct (bmap_ok (H := H) s P ip i (off / BSIZE)) as (a & s1 & P1 & i1 & E1 & Ht1 & HP1 & Hfo1 & Hmp); [done|done|lia|done|lia|].
  pose proof Hmp as [Hrest Ha0 Ha _ Hby Esb1 Hp1 _].
  pose proof (pending_range i1). destruct (fo_slot _ _ _ _ Hfo1 (off / BSIZE) a) as [_ _ Hah HaH Hab _]; [lia|done|done|].
  set (bs := sub tot m src). assert (zlen bs = m) as Hbs by (apply zlen_sub; lia).
  pose proof (fview_len _ _ _ a Ht1) as Hva. pose proof (logged_le P1 a).
  destruct (fs_update s1 P1 H a (splice (off mod BSIZE) bs (fview s1 a))) as (k & s2 & s3 & s4 & s5 & E2 & E3 & E4 & E5 & E6 & Ht5 & Hm5);
    [done|done|done|rewrite zlen_splice; dlia|lia|lia|].
  destruct (fm_sb _ _ _ Hm5) as (Esb5 & Eino5 & _).
  destruct (fbyte_write s1 s5 ip i1 a off bs) as (Hfo5 & Hs5 & Hb5); [done|done|lia|done|lia|done..|].
  exists s5, (logged P1 a), i1. split_and!.
  - unfold writei_step. destruct (Z.ltb_spec tot (zlen src)); [|lia]. cbn [negb]. rewrite (bind_step _ _ _ _ _ E1).
    destruct (Z.eqb_spec a 0); [done|]. erewrite bind_step by (apply geti_ok, Hfo1). rewrite (fo_dev _ _ _ _ Hfo1).
    rewrite (bind_step _ _ _ _ _ E2). cbv zeta. fold m. mget (bs, 0). rewrite (bind_step _ _ _ _ _ E3). cbn [fst snd].
    rewrite (bind_step _ _ _ _ _ E4). cbn [Z.eqb Z.opp]. rewrite (bind_step _ _ _ _ _ E5), (bind_step _ _ _ _ _ E6).
    rewrite !wrap_id by lia. done.
  - done.
  - lia.
  - done.
  - split; [done|intros j b Hj Hjb Hbne; rewrite Hs5; by apply (mp_old _ _ _ _ _ _ Hmp)|].
    intros j _ Hj. assert (j = off / BSIZE) as -> by lia. exists a. by rewrite Hs5.
  - by rewrite Esb5.
  - lia.
  - intros n Hfn. eapply free_space_same; [by apply (mp_free _ _ _ _ _ _ Hmp)|by rewrite Esb5|]. intros x Hx. unfold is_free. rewrite Esb5, (fm_view _ _ _ _ Hm5).
    unfold with_block. rewrite decide_False; [done|]. intros Ex. apply Hab. exists (x / BPB). split; [|by rewrite <-Ex].
    by apply (block_parts s1 H x (fo_alloc _ _ _ _ Hfo1)).
  - intros x Hx. rewrite Hb5, Hbs, Hby by done.
    destruct ((off <=? x) && (x <? off + m)) eqn:Ein; [|done]. unfold bs. rewrite znth_sub by lia. done.
Qed.

Lemma writei_loop src ip fuel tot off s P i : ftrans s P H → file_ok s H ip i → 0 ≤ tot ≤ zlen src → 0 ≤ off →
  off + (zlen src - tot) ≤ MAXFILE * BSIZE → zlen src < 4294967296 →
  let k := nblk off (zlen src - tot) in
  free_space s (k + pending i) → zlen P + 3 * k + 2 * pending i + 1 + zlen H < NBUF → k < Z.of_nat fuel →
  ∃ s' P' i', loop fuel (wstep src ip) (tot, off) s = Ok ((zlen src, off + (zlen src - tot)), s') ∧ ftrans s' P' H ∧
    zlen P' ≤ zlen P + 3 * k + 2 * pending i ∧ file_ok s' H ip i' ∧ grown s s' i i' (off / BSIZE) k ∧ fs_sb s' = fs_sb s ∧
    ∀ x, 0 ≤ x < MAXFILE * BSIZE →
      fbyte s' i' x = if (off <=? x) && (x <? off + (zlen src - tot)) then znth src (tot + (x - off)) else fbyte s i x.
Proof.
  revert tot off s P i. induction fuel as [|fuel IH]; intros tot off s P i Ht Hfo Htot Ho Hend Hn k Hfs Hl Hf.
  { assert (0 ≤ k); [|lia]. unfold k, nblk. destruct (_ =? _); dlia. }
  destruct (decide (tot = zlen src)) as [->|Hlt].
  - exists s, P, i. pose proof (pending_range i). unfold k. rewrite Z.sub_diag. change (nblk off 0) with 0. split_and!; try done; try lia.
    + erewrite loop_inr; [reflexivity|]. unfold writei_step. rewrite Z.ltb_irrefl. cbn [negb]. by rewrite Z.add_0_r.
    + split; [by destruct i|done|intros; lia].
    + intros x Hx. destruct (Z.leb_spec off x), (Z.ltb_spec x (off + 0)); simpl; try done. lia.
  - destruct (nblk_piece off (zlen src - tot)) as (Hm1 & Hm2 & Hm3 & Hm4); [done|lia|]. fold k in Hm3, Hm4.
    set (m := Z.min (zlen src - tot) (BSIZE - off mod BSIZE)) in *.
    destruct (writei_piece src ip tot off s P i) as (s1 & P1 & i1 & E1 & Ht1 & HP1 & Hfo1 & Hg1 & Esb1 & Hp1 & Hfs1 & Hb1);
      [done|done|lia|done|done|done|eapply free_space_le; [exact Hfs|lia]|lia|].
    fold m in E1, Hb1. replace (zlen src - tot - m) with (zlen src - (tot + m)) in Hm3 by lia.
    destruct (IH (tot + m) (off + m) s1 P1 i1) as (s2 & P2 & i2 & E2 & Ht2 & HP2 & Hfo2 & Hg2 & Esb2 & Hb2);
      [done|done|lia|lia|lia|done|rewrite Hm3; by apply Hfs1|lia|lia|]. rewrite Hm3 in HP2, Hg2.
    exists s2, P2, i2. split_and!; [|done|lia|done| |congruence|].
    + rewrite (loop_inl _ _ _ _ _ _ E1), E2. do 2 f_equal. f_equal. lia.
    + replace k with (1 + (k - 1)) by lia. eapply grown_trans; [exact Hg1|].
      destruct (decide (k - 1 = 0)) as [E0|Hne]; [rewrite E0 in *; destruct Hg2; split; [done|done|intros; lia]|].
      assert (zlen src - (tot + m) ≠ 0) as Hne'.
      { intros E0. rewrite E0 in Hm3. change (nblk (off + m) 0) with 0 in Hm3. lia. }
      replace (off / BSIZE + 1) with ((off + m) / BSIZE); [done|]. assert (m = BSIZE - off mod BSIZE) as -> by lia. dlia.
    + intros x Hx. rewrite Hb2, Hb1 by done.
      destruct (Z.leb_spec (off + m) x), (Z.ltb_spec x (off + m + (zlen src - (tot + m)))), (Z.leb_spec off x), (Z.ltb_spec x (off + m)),
        (Z.ltb_spec x (off + (zlen src - tot))); simpl; try lia; try done. f_equal. lia.
Qed.

(** ** Reading *)

(** Every block up to the size of the file is there. *)
Definition dense s i : Prop := ∀ k, 0 ≤ k → k * BSIZE < i_size i → ∃ a, slot s i k = Some a ∧ a ≠ 0.
Lemma dense_calm s s' i : dense s i → fcalm s s' → dense s' i.
Proof. intros Hd Hm k Hk Hks. rewrite (slot_calm _ _ _ _ Hm). by apply Hd. Qed.

Abbreviation rstep ip n := (readi_step (λ A (m : FS A), m) (λ _ _, mret 0) ip n).

Lemma readi_piece ip n acc tot off s P i : ftrans s P H → file_ok s H ip i → dense s i → 0 ≤ tot < n → n < 2147483648 → 0 ≤ off →
  off + (n - tot) ≤ i_size i → i_size i ≤ MAXFILE * BSIZE → zlen P + zlen H < NBUF →
  let m := Z.min (n - tot) (BSIZE - off mod BSIZE) in
  ∃ s' bs, rstep ip n (acc, tot, off) s = Ok (inl (acc ++ bs, tot + m, off + m), s') ∧ ftrans s' P H ∧ fcalm s s' ∧
    zlen bs = m ∧ ∀ j, 0 ≤ j < m → znth bs j = fbyte s i (off + j).
Proof.
  intros Ht Hfo Hd Htot Hn Ho Hend Hsz Hl m. destruct (nblk_piece off (n - tot)) as (Hm1 & Hm2 & _ & _); [done|lia|]. fold m in Hm1, Hm2.
  assert (0 ≤ off / BSIZE < MAXFILE) as Hbn by dlia. destruct (Hd (off / BSIZE)) as (a & Ha & Hne); [lia|dlia|].
  destruct (fo_slot _ _ _ _ Hfo (off / BSIZE) a) as [_ _ [Hah _] HaH _ _]; [lia|done|done|].
  destruct (bmap_mapped (H := H) s P ip i (off / BSIZE) a) as (s0 & E0 & Ht0 & Hc0); [done..|].
  pose proof (file_ok_calm _ _ _ _ Hfo Hc0) as Hfo0.
  destruct (fs_look s0 P H a) as (k & s1 & s2 & E1 & E2 & E3 & Ht2 & Hm'); [done..|]. pose proof (fview_len _ _ _ a Ht) as Hva.
  rewrite (fm_view _ _ _ _ Hc0) in E2.
  set (bs := sub (off mod BSIZE) m (fview s a)). assert (zlen bs = m) as Hbs by (apply zlen_sub; dlia).
  exists s2, bs. split_and!; try done.
  - unfold readi_step. destruct (Z.ltb_spec tot n); [|lia]. cbn [negb].
    rewrite (bind_step _ _ _ _ _ E0). destruct (Z.eqb_spec a 0); [done|].
    erewrite bind_step by (apply geti_ok, Hfo0). rewrite (fo_dev _ _ _ _ Hfo0), (bind_step _ _ _ _ _ E1). cbv zeta. fold m.
    rewrite (bind_step _ _ _ _ _ E2). fold bs. mget 0. rewrite (bind_step _ _ _ _ _ E3). cbn [Z.eqb Z.opp].
    rewrite !wrap_id by lia. done.
  - eapply fm_ext; [|eapply fm_trans; [exact Hc0|exact Hm']]. intros b. apply (fm_view _ _ _ _ Hc0).
  - intros j Hj. unfold bs, fbyte. rewrite znth_sub by dlia. assert ((off + j) / BSIZE = off / BSIZE) as -> by dlia.
    rewrite Ha. simpl. destruct (Z.eqb_spec a 0); [done|]. f_equal. dlia.
Qed.

Lemma readi_loop ip n fuel acc tot off s P i : ftrans s P H → file_ok s H ip i → dense s i → 0 ≤ tot ≤ n → 0 ≤ off →
  off + (n - tot) ≤ i_size i → i_size i ≤ MAXFILE * BSIZE → zlen P + zlen H < NBUF → nblk off (n - tot) < Z.of_nat fuel →
  n < 2147483648 →
  ∃ s' bs, loop fuel (rstep ip n) (acc, tot, off) s = Ok ((acc ++ bs, n), s') ∧ ftrans s' P H ∧ fcalm s s' ∧
    zlen bs = n - tot ∧ ∀ j, 0 ≤ j < n - tot → znth bs j = fbyte s i (off + j).
Proof.
  revert acc tot off s. induction fuel as [|fuel IH]; intros acc tot off s Ht Hfo Hd Htot Ho Hend Hsz Hl Hf Hn.
  { assert (0 ≤ nblk off (n - tot)); [|lia]. unfold nblk. destruct (_ =? _); dlia. }
  destruct (decide (tot = n)) as [->|Hlt].
  - exists s, []. rewrite Z.sub_diag. split_and!; [|done|apply fcalm_refl|done|lia].
    erewrite loop_inr; [reflexivity|]. unfold readi_step. rewrite Z.ltb_irrefl. cbn [negb].
    rewrite i32_id by lia. by rewrite app_nil_r.
  - destruct (nblk_piece off (n - tot)) as (Hm1 & Hm2 & Hm3 & Hm4); [done|lia|].
    destruct (readi_piece ip n acc tot off s P i) as (s1 & bs1 & E1 & Ht1 & Hc1 & Hl1 & Hb1); [done|done|done|lia|done|done|done..|].
    set (m := Z.min (n - tot) (BSIZE - off mod BSIZE)) in *. replace (n - tot - m) with (n - (tot + m)) in Hm3 by lia.
    destruct (IH (acc ++ bs1) (tot + m) (off + m) s1) as (s2 & bs2 & E2 & Ht2 & Hc2 & Hl2 & Hb2);
      [done|by eapply file_ok_calm|by eapply dense_calm|lia|lia|lia|done|done|lia|done|].
    exists s2, (bs1 ++ bs2). split_and!; [|done| |rewrite zlen_app; lia|].
    + rewrite (loop_inl _ _ _ _ _ _ E1), E2. by rewrite app_assoc.
    + eapply fm_ext; [|eapply fm_trans; [exact Hc1|exact Hc2]]. intros b. apply (fm_view _ _ _ _ Hc1).
    + intros j Hj. rewrite znth_app, Hl1. destruct (Z.ltb_spec j m); [apply Hb1; lia|].
      rewrite Hb2 by lia. rewrite (fbyte_calm _ _ _ _ Hc1). f_equal. lia.
Qed.

Lemma block_fuel_enough off n : 0 ≤ n → nblk off n < Z.of_nat (block_fuel n).
Proof. intros. unfold nblk, block_fuel. destruct (_ =? _); dlia. Qed.

(** [readi]: the bytes of the file, up to its end. *)
Lemma readi_ok ip off n s P i : ftrans s P H → file_ok s H ip i → dense s i → 0 ≤ off ≤ i_size i → 0 ≤ n →
  off + n < 4294967296 → i_size i ≤ MAXFILE * BSIZE → zlen P + zlen H < NBUF →
  ∃ s' bs, readi ip off n s = Ok ((bs, zlen bs), s') ∧ ftrans s' P H ∧ fcalm s s' ∧ zlen bs = Z.min n (i_size i - off) ∧
    ∀ j, 0 ≤ j < zlen bs → znth bs j = fbyte s i (off + j).
Proof.
  intros Ht Hfo Hd Ho Hn Hov Hsz Hl. unfold readi, readi_with. set (n' := Z.min n (i_size i - off)).
  destruct (readi_loop ip n' (block_fuel n') [] 0 off s P i) as (s' & bs & E & Ht' & Hc & Hlen & Hb);
    [done|done|done|lia|lia|lia|done|done|rewrite Z.sub_0_r; apply block_fuel_enough; lia|lia|].
  rewrite Z.sub_0_r in *. exists s', bs. split_and!; [|done|done|done|rewrite Hlen; done].
  erewrite bind_step by (apply geti_ok, Hfo). rewrite (wrap_id _ (off + n)) by lia.
  destruct (Z.ltb_spec (i_size i) off), (Z.ltb_spec (off + n) off); try lia. cbn [orb]. cbv zeta. rewrite Hlen.
  destruct (Z.ltb_spec (i_size i) (off + n)); [replace (i_size i - off) with n' by lia|replace n with n' by lia]; exact E.
Qed.

(** Storing the inode, with a new size, leaves the contents alone. *)
Lemma resize_ok s P ip i sz : ftrans s P H → file_ok s H ip i → 0 ≤ sz < 4294967296 → zlen P + 1 < NBUF → zlen P + zlen H < NBUF →
  let i' := i <| i_size := sz |> in let s1 := s <| fs_inode := <[ip := i']> (fs_inode s) |> in
  ∃ s', iupdate ip s1 = Ok (tt, s') ∧ ftrans s' (logged P (iblock (fs_sb s) (i_inum i))) H ∧ file_ok s' H ip i' ∧
    fs_sb s' = fs_sb s ∧ (∀ k, slot s' i' k = slot s i k) ∧ ∀ x, 0 ≤ x < MAXFILE * BSIZE → fbyte s' i' x = fbyte s i x.
Proof.
  intros Ht Hfo Hsz Hl1 Hl2 i' s1.
  assert (fs_inode s1 !! ip = Some i') as Hi1 by (apply list_lookup_insert_eq; eapply lookup_lt_Some, (fo_entry _ _ _ _ Hfo)).
  assert (∀ k, slot s1 i' k = slot s i k) as Hs1 by (intros k; by apply slot_same).
  assert (file_ok s1 H ip i') as Hfo1.
  { eapply (file_ok_step s); [done..| | |].
    - destruct (fo_fits _ _ _ _ Hfo). by split.
    - intros k a Hk Ha Hne. rewrite Hs1 in Ha. pose proof (fo_slot _ _ _ _ Hfo k a Hk Ha Hne) as Hob. by eapply own_block_step; [exact Hob|..|apply Hob|].
    - intros k k' a Hk Hk'. rewrite !Hs1. by apply (fo_inj _ _ _ _ Hfo). }
  destruct (fo_ihome _ _ _ _ Hfo1) as [Hh1 Hh2].
  destruct (iupdate_ok s1 P H ip i' Ht Hi1 (fo_dev _ _ _ _ Hfo1) (fo_fits _ _ _ _ Hfo1) Hh1 Hh2 Hl1 Hl2) as (s' & E & Ht' & Hm).
  assert (∀ k a, 0 ≤ k ≤ MAXFILE → slot s1 i' k = Some a → a ≠ 0 → fview s' a = fview s1 a) as Hv.
  { intros k a Hk Ha Hne. rewrite (fm_view _ _ _ _ Hm). unfold with_block. rewrite decide_False; [done|].
    apply (ob_inode _ _ _ _ (fo_slot _ _ _ _ Hfo1 k a Hk Ha Hne)). }
  destruct (file_ok_shows s1 s' _ ip i' Hfo1 Hm) as [Hfo' Hs'].
  { intros b Hb. unfold with_block. rewrite decide_False; [done|]. intros ->. by apply (fo_ibitmap _ _ _ _ Hfo1). }
  { intros a Ha Hne. rewrite <-(fm_view _ _ _ _ Hm). by eapply (Hv MAXFILE). }
  destruct (fm_sb _ _ _ Hm) as (Esb & _). exists s'. split_and!; [done|done|done|done|intros k; by rewrite Hs'|].
  intros x Hx. assert (0 ≤ x / BSIZE < MAXFILE) by dlia. transitivity (fbyte s1 i' x); apply fbyte_same; [done| |done|done].
  intros a Ha Hne. apply (Hv (x / BSIZE)); [lia|done|done].
Qed.

Lemma writei_ok ip src off s P i : ftrans s P H → file_ok s H ip i → dense s i → 0 ≤ off ≤ i_size i →
  off + zlen src ≤ MAXFILE * BSIZE → i_size i ≤ MAXFILE * BSIZE → free_space s (nblk off (zlen src) + pending i) →
  zlen P + 3 * nblk off (zlen src) + 2 * pending i + 1 + zlen H < NBUF →
  ∃ s' P' i', writei ip src off s = Ok (zlen src, s') ∧ ftrans s' P' H ∧ zlen P' ≤ zlen P + 3 * nblk off (zlen src) + 2 * pending i + 1 ∧
    file_ok s' H ip i' ∧ dense s' i' ∧ i_size i' = Z.max (i_size i) (off + zlen src) ∧
    ∀ x, 0 ≤ x < MAXFILE * BSIZE →
      fbyte s' i' x = if (off <=? x) && (x <? off + zlen src) then znth src (x - off) else fbyte s i x.
Proof.
  intros Ht Hfo Hd Ho Hend Hsz Hfs Hl. pose proof (zlen_nonneg src). pose proof (zlen_nonneg H). pose proof (zlen_nonneg P). pose proof (pending_range i).
  assert (0 ≤ nblk off (zlen src)) as Hk by (unfold nblk; destruct (_ =? _); dlia).
  destruct (writei_loop src ip (block_fuel (zlen src)) 0 off s P i) as (s1 & P1 & i1 & E1 & Ht1 & HP1 & Hfo1 & Hg & Esb1 & Hb1);
    [done|done|lia|lia|lia|lia|by rewrite Z.sub_0_r|rewrite Z.sub_0_r; lia|rewrite Z.sub_0_r; apply block_fuel_enough; lia|].
  rewrite Z.sub_0_r in *. assert (i_size i1 = i_size i) as Es1 by (by rewrite (gr_rest _ _ _ _ _ _ Hg)).
  destruct (resize_ok s1 P1 ip i1 (Z.max (i_size i) (off + zlen src))) as (s2 & E2 & Ht2 & Hfo2 & Esb2 & Hs2 & Hb2); [done|done|lia|lia|lia|].
  exists s2. eexists. exists (i1 <| i_size := Z.max (i_size i) (off + zlen src) |>). split_and!; [|exact Ht2| |done| |done|].
  - unfold writei, writei_with. erewrite bind_step by (apply geti_ok, Hfo). rewrite (wrap_id _ (off + zlen src)) by lia.
    destruct (Z.ltb_spec (i_size i) off), (Z.ltb_spec (off + zlen src) off); try lia. cbn [orb].
    destruct (Z.ltb_spec (MAXFILE * BSIZE) (off + zlen src)); [lia|]. rewrite (bind_step _ _ _ _ _ E1).
    erewrite bind_step by (apply updi_ok, Hfo1). erewrite bind_step.
    2: { replace (if i_size i1 <? off + zlen src then i1 <| i_size := off + zlen src |> else i1) with
           (i1 <| i_size := Z.max (i_size i) (off + zlen src) |>); [exact E2|].
         rewrite Es1. destruct (Z.ltb_spec (i_size i) (off + zlen src)); [by rewrite Z.max_r by lia|].
         rewrite Z.max_l by lia. rewrite <-Es1. by destruct i1. }
    by rewrite i32_id by lia.
  - pose proof (length_logged P1 (iblock (fs_sb s1) (i_inum i1))). lia.
  - intros k Hk0 Hks. rewrite Hs2. simpl in Hks. assert (0 ≤ k ≤ MAXFILE) as Hkr by lia.
    destruct (decide (k * BSIZE < i_size i)) as [Hlt|Hge].
    + destruct (Hd k Hk0 Hlt) as (a & Ha & Hne). exists a. split; [|done]. by eapply gr_old.
    + apply (gr_new _ _ _ _ _ _ Hg); [done|]. unfold nblk. destruct (Z.eqb_spec (zlen src) 0); dlia.
  - intros x Hx. rewrite Hb2, Hb1 by done. done.
Qed.

(** C3. A file is an array of bytes, through the direct blocks and the indirect
    ones. Within the largest size of a file and the space that is free, [writei] at any offset up to the end of the file returns the number
    of bytes given to it, having allocated the blocks it needed; the file then
    ends where it did or where the write ended, whichever is later; and [readi]
    at any place returns the bytes up to the end of the file: those written,
    where they were written, and what was there before elsewhere, whatever disk
    blocks hold them. *)
Theorem file_write_read ip src off s P i : ftrans s P H → file_ok s H ip i → dense s i → 0 ≤ off ≤ i_size i →
  off + zlen src ≤ MAXFILE * BSIZE → i_size i ≤ MAXFILE * BSIZE → free_space s (nblk off (zlen src) + pending i) →
  zlen P + 3 * nblk off (zlen src) + 2 * pending i + 1 + zlen H < NBUF →
  ∃ s' P' i', writei ip src off s = Ok (zlen src, s') ∧ ftrans s' P' H ∧ file_ok s' H ip i' ∧ dense s' i' ∧
    i_size i' = Z.max (i_size i) (off + zlen src) ∧
    ∀ from n, 0 ≤ from ≤ i_size i' → 0 ≤ n < 1048576 →
      ∃ s'' bs, readi ip from n s' = Ok ((bs, zlen bs), s'') ∧ ftrans s'' P' H ∧ file_ok s'' H ip i' ∧
        zlen bs = Z.min n (i_size i' - from) ∧
        ∀ x, from ≤ x < from + zlen bs →
          znth bs (x - from) = if (off <=? x) && (x <? off + zlen src) then znth src (x - off) else fbyte s i x.
Proof.
  intros Ht Hfo Hd Ho Hend Hsz Hfs Hl. destruct (writei_ok ip src off s P i) as (s' & P' & i' & E & Ht' & HP & Hfo' & Hd' & Hs' & Hb'); [done..|].
  exists s', P', i'. split_and!; try done. intros from n Hfr Hn.
  destruct (readi_ok ip from n s' P' i') as (s'' & bs & E2 & Ht2 & Hc & Hlen & Hb); [done|done|done|done|lia|lia|lia|lia|].
  exists s'', bs. split_and!; [done|done|by eapply file_ok_calm|done|]. intros x Hx. rewrite Hb by lia.
  replace (from + (x - from)) with x by lia. apply Hb'. lia.
Qed.
End file.

(** A thousand bytes at offset 12000 run over the end of the last direct block. *)
Lemma file_write_read_witness :
  ∃ s' s'' bs, writei 3 (zrepl 1000 7) 12000 twelve_block_fs = Ok (1000, s') ∧ readi 3 11900 2000 s' = Ok ((bs, 1100), s'') ∧
    znth bs 99 = Some 0 ∧ znth bs 100 = Some 7 ∧ znth bs 1099 = Some 7.
Proof.
  assert (zlen (zrepl 1000 7) = 1000) as Hsrc by reflexivity.
  assert (nblk 12000 (zlen (zrepl 1000 7)) + pending twelve_blocks = 3) as Hnb by reflexivity.
  destruct (file_write_read (H := []) 3 (zrepl 1000 7) 12000 twelve_block_fs [] twelve_blocks) as (s' & P' & i' & E & _ & _ & _ & Hs & Hr).
  - apply small_trans; [exact demo_disk_len|reflexivity].
  - apply twelve_block_ok.
  - intros k Hk0 Hk. change (i_size twelve_blocks) with 12100 in Hk. exists (46 + k). split; [|lia]. rewrite slot_direct by lia.
    assert (forallb (λ k, bool_decide (znth (i_addrs twelve_blocks) k = Some (46 + k))) (upto 12) = true) as Hall by (vm_compute; reflexivity).
    rewrite forallb_forall in Hall. specialize (Hall k ltac:(apply list_elem_of_In; apply elem_of_upto; lia)). by apply bool_decide_eq_true in Hall.
  - simpl. lia.
  - lia.
  - simpl. lia.
  - rewrite Hnb. exists [60; 61; 62]. split; [repeat constructor; set_solver|]. split; [vm_compute; discriminate|].
    intros b Hb. split; [|rewrite twelve_block_free]; set_unfold; simpl; lia.
  - reflexivity.
  - rewrite Hsrc in *. change (i_size twelve_blocks) with 12100 in Hs. destruct (Hr 11900 2000) as (s'' & bs & E2 & _ & _ & Hl & Hb); [lia|lia|].
    assert (zlen bs = 1100) as Hl' by lia. rewrite Hl' in *. exists s', s'', bs. split; [exact E|]. split; [exact E2|].
    split; [apply (Hb 11999); lia|]. split; [apply (Hb 12000); lia|apply (Hb 12999); lia].
Defined.
