(* ===== verification/Frame.v ===== *)
(** * What memory and disk code leaves alone

    None of the code of [kalloc.c], [vm.c] and [virtio_disk.c] touches the
    identity, the state, the parent or the scheduling data of a process,
    whatever state it is run in and whichever of its branches it takes. *)

From stdpp Require Import base numbers list gmap strings.
From S2P Require Import Prelude Machine KState Disk Raid Kalloc Evict VM.
Open Scope Z_scope.
Open Scope kernel_scope.

(** A process without its paging and disk counters and its memory. *)
Definition core (p : proc) : proc :=
  (no_counters p) <| p_page_faults := 0 |>.

(** The two states have the same processes (their paging counters aside), run
    the same one, and agree on the process globals. *)
Record same_procs {D} (s s' : kst D) : Prop := {
  sp_procs : core <$> procs s' = core <$> procs s;
  sp_cur : cur s' = cur s;
  sp_initproc : initproc s' = initproc s;
  sp_nextpid : nextpid s' = nextpid s;
  sp_ticks : ticks s' = ticks s;
}.
#[export] Instance same_procs_preorder {D} : PreOrder (@same_procs D).
Proof. split; [done|]. intros s1 s2 s3 [] []. split; congruence. Qed.

Lemma same_procs_lookup {D} (s s' : kst D) i p : same_procs s s' → procs s !! i = Some p →
  ∃ p', procs s' !! i = Some p' ∧ core p' = core p.
Proof.
  intros [H _ _ _ _] Hp. apply (f_equal (λ l, l !! i)) in H. rewrite !list_lookup_fmap, Hp in H.
  destruct (procs s' !! i) as [p'|]; [|done]. simpl in H. exists p'. split; [done|congruence].
Qed.

Section frame.
Context {D : Type} `{!BlockStore D} {L : Layout}.
Implicit Types s : kst D.
Abbreviation Keeps := (keeps (@same_procs D)).

Lemma keeps_acquire lk : Keeps (acquire lk).
Proof. unfold acquire. keeps_solve. apply keeps_modify. by split. Qed.
Lemma keeps_release lk : Keeps (release lk).
Proof. unfold release. keeps_solve. apply keeps_modify. by split. Qed.
Lemma keeps_holding lk : Keeps (holding lk).
Proof. unfold holding. keeps_solve. Qed.
Lemma keeps_may_sleep : Keeps may_sleep.
Proof. unfold may_sleep. keeps_solve. Qed.
Lemma keeps_wait_block w b : Keeps (wait_block w b).
Proof. unfold wait_block, when. pose proof keeps_may_sleep. keeps_solve. Qed.
Lemma keeps_load64 a : Keeps (load64 a).
Proof. unfold load64. keeps_solve. Qed.
Lemma keeps_read_bytes a n : Keeps (read_bytes a n).
Proof. unfold read_bytes. keeps_solve. Qed.
Lemma keeps_store64 a v : Keeps (store64 a v).
Proof. unfold store64. keeps_solve. apply keeps_modify. by split. Qed.
Lemma keeps_write_bytes a bs : Keeps (write_bytes a bs).
Proof. unfold write_bytes. keeps_solve. apply keeps_modify. by split. Qed.
Lemma keeps_memset_page pa c : Keeps (memset_page pa c).
Proof. apply keeps_write_bytes. Qed.
Lemma keeps_memmove_page dst src : Keeps (memmove_page dst src).
Proof. unfold memmove_page. apply keeps_bind; [exact _|apply keeps_read_bytes|intros; apply keeps_write_bytes]. Qed.
Lemma keeps_myproc : Keeps myproc.
Proof. unfold myproc. keeps_solve. Qed.
Lemma keeps_getp i : Keeps (getp i).
Proof. unfold getp. keeps_solve. Qed.
Lemma keeps_updp i f : (∀ p, core (f p) = core p) → Keeps (updp i f).
Proof.
  intros Hf s a s' E. unfold updp in E. minv E. injection E0 as <- <-. minv E.
  destruct (procs s !! i) as [p|] eqn:Hp; [|done]. injection E0 as <- <-. injection E as _ <-.
  split; try done. simpl. rewrite list_fmap_insert, Hf. apply list_insert_id. by rewrite list_lookup_fmap, Hp.
Qed.
Lemma keeps_lift_bdev {A} (m : M D A) : Keeps (lift_bdev m).
Proof. intros s a s'. unfold lift_bdev. destruct (m (bdev s)) as [[]| | |]; [|done..]. intros [= _ <-]. by split. Qed.
#[local] Hint Resolve keeps_acquire keeps_release keeps_holding keeps_may_sleep keeps_wait_block keeps_load64 keeps_read_bytes
  keeps_store64 keeps_write_bytes keeps_memset_page keeps_memmove_page keeps_myproc keeps_getp
  keeps_lift_bdev : keeps.
#[local] Hint Extern 1 (keeps _ (modify _)) => apply keeps_modify; by split : keeps.
#[local] Hint Extern 1 (keeps _ (updp _ _)) => by apply keeps_updp : keeps.

Lemma keeps_enqueue b w d p : Keeps (enqueue_disk_req b w d p).
Proof. unfold enqueue_disk_req. keeps_solve. Qed.
Lemma keeps_account w b : Keeps (account w b).
Proof. unfold account. keeps_solve. Qed.
Lemma keeps_do_disk_read b d : Keeps (do_disk_read b d).
Proof. unfold do_disk_read, write_buf. keeps_solve. Qed.
Lemma keeps_do_disk_write b d : Keeps (do_disk_write b d).
Proof. unfold do_disk_write, read_buf. keeps_solve. Qed.
#[local] Hint Resolve keeps_enqueue keeps_account keeps_do_disk_read keeps_do_disk_write : keeps.
Lemma keeps_run_disk_queue : Keeps run_disk_queue.
Proof. unfold run_disk_queue, run_disk_queue_step. keeps_solve. Qed.
Lemma keeps_raid_write_page mode slot page prio : Keeps (raid_write_page mode slot page prio).
Proof.
  unfold raid_write_page, raid0_write_page, raid0_page, raid1_write_page, raid5_write_page, raid5_write_row,
    raid5_write_block. keeps_solve.
Qed.
Lemma keeps_raid_read_page mode slot page prio : Keeps (raid_read_page mode slot page prio).
Proof. unfold raid_read_page, raid0_read_page, raid0_page, raid1_read_page, raid5_read_page. keeps_solve. Qed.
#[local] Hint Resolve keeps_run_disk_queue keeps_raid_write_page keeps_raid_read_page : keeps.
Lemma keeps_disk_swap_write slot page prio : Keeps (disk_swap_write slot page prio).
Proof. unfold disk_swap_write. keeps_solve. Qed.
Lemma keeps_disk_swap_read slot page prio : Keeps (disk_swap_read slot page prio).
Proof. unfold disk_swap_read. keeps_solve. Qed.
#[local] Hint Resolve keeps_disk_swap_write keeps_disk_swap_read : keeps.

Lemma keeps_walk ka pt va alloc : Keeps ka → Keeps (walk ka pt va alloc).
Proof. intros. unfold walk, walk_level. keeps_solve. Qed.
Lemma keeps_kfree pa : Keeps (kfree pa).
Proof. unfold kfree. keeps_solve. Qed.
Lemma keeps_track_frame p va pa : Keeps (track_frame p va pa).
Proof. unfold track_frame. keeps_solve. Qed.
Lemma keeps_swap_out pa : Keeps (swap_out pa).
Proof. unfold swap_out, my_priority, take_slot. keeps_solve. Qed.
Lemma keeps_swap_in pa slot : Keeps (swap_in pa slot).
Proof. unfold swap_in, my_priority. keeps_solve. Qed.
Lemma keeps_swap_free i : Keeps (swap_free i).
Proof. unfold swap_free. keeps_solve. Qed.
#[local] Hint Resolve keeps_walk keeps_kfree keeps_track_frame keeps_swap_out keeps_swap_in keeps_swap_free : keeps.
Lemma keeps_evict_pages_with ka : Keeps ka → Keeps (evict_pages_with ka).
Proof. intros. unfold evict_pages_with, evict_step, evict_victim. keeps_solve. Qed.
#[local] Hint Resolve keeps_evict_pages_with : keeps.
Lemma keeps_kalloc_n n : Keeps (kalloc_n n).
Proof. induction n; simpl; [apply keeps_diverge|]. unfold kalloc_pop. keeps_solve. Qed.
Lemma keeps_kalloc : Keeps kalloc.
Proof. apply keeps_kalloc_n. Qed.
Lemma keeps_evict_pages : Keeps evict_pages.
Proof. apply keeps_evict_pages_with, keeps_kalloc_n. Qed.
#[local] Hint Resolve keeps_kalloc keeps_evict_pages : keeps.

Lemma keeps_ismapped pt va : Keeps (ismapped pt va).
Proof. unfold ismapped. keeps_solve. Qed.
Lemma keeps_walkaddr pt va : Keeps (walkaddr pt va).
Proof. unfold walkaddr. keeps_solve. Qed.
Lemma keeps_mappages pt va sz pa perm : Keeps (mappages pt va sz pa perm).
Proof. unfold mappages, mappage1. keeps_solve. Qed.
Lemma keeps_uvmcreate : Keeps uvmcreate.
Proof. unfold uvmcreate. keeps_solve. Qed.
Lemma keeps_uvmunmap pt va n f : Keeps (uvmunmap pt va n f).
Proof. unfold uvmunmap, uvmunmap1. keeps_solve. Qed.
#[local] Hint Resolve keeps_ismapped keeps_walkaddr keeps_mappages keeps_uvmcreate keeps_uvmunmap : keeps.
Lemma keeps_uvmdealloc pt o n : Keeps (uvmdealloc pt o n).
Proof. unfold uvmdealloc. keeps_solve. Qed.
#[local] Hint Resolve keeps_uvmdealloc : keeps.
Lemma keeps_uvmalloc pt o n x : Keeps (uvmalloc pt o n x).
Proof. unfold uvmalloc, uvmalloc1. keeps_solve. Qed.
Lemma keeps_freewalk d pt : Keeps (freewalk d pt).
Proof.
  revert pt. induction d as [|d IH]; intros pt; cbn [freewalk]; [apply keeps_diverge|].
  apply keeps_bind; [exact _| |intros; apply keeps_kfree].
  apply keeps_for_each; [exact _|intros i]. apply keeps_bind; [exact _|apply keeps_load64|intros e].
  destruct (has e PTE_V && _); [apply keeps_bind; [exact _|apply IH|intros; apply keeps_store64]|].
  destruct (has e PTE_V); [apply keeps_panic|apply keeps_ret, _].
Qed.
#[local] Hint Resolve keeps_uvmalloc keeps_freewalk : keeps.
Lemma keeps_uvmfree pt sz : Keeps (uvmfree pt sz).
Proof. unfold uvmfree. keeps_solve. Qed.
Lemma keeps_uvmcopy o n sz np : Keeps (uvmcopy o n sz np).
Proof. unfold uvmcopy, uvmcopy1. keeps_solve. Qed.
Lemma keeps_vmfault pt va : Keeps (vmfault pt va).
Proof. unfold vmfault. keeps_solve. Qed.
#[local] Hint Resolve keeps_uvmfree keeps_uvmcopy keeps_vmfault : keeps.
Lemma keeps_copyout pt va src : Keeps (copyout pt va src).
Proof. unfold copyout, copyout_step, user_page. keeps_solve. Qed.
Lemma keeps_copyin pt va n : Keeps (copyin pt va n).
Proof. unfold copyin, copyin_step, user_page. keeps_solve. Qed.
Lemma keeps_copyinstr pt va n : Keeps (copyinstr pt va n).
Proof. unfold copyinstr, copyinstr_step. keeps_solve. Qed.
End frame.
#[export] Hint Resolve keeps_acquire keeps_release keeps_holding keeps_may_sleep keeps_wait_block keeps_load64 keeps_read_bytes
  keeps_store64 keeps_write_bytes keeps_memset_page keeps_memmove_page keeps_myproc keeps_getp
  keeps_lift_bdev keeps_walk keeps_kfree keeps_track_frame keeps_swap_in keeps_kalloc keeps_evict_pages
  keeps_ismapped keeps_walkaddr keeps_mappages keeps_uvmcreate keeps_uvmunmap keeps_uvmdealloc
  keeps_uvmalloc keeps_uvmfree keeps_uvmcopy keeps_vmfault keeps_copyout keeps_copyin keeps_copyinstr : keeps.
