(* ===== verification/Proc.v ===== *)
(** * Processes and the scheduler

    Models [kernel/proc.c]: the process table, allocation and reclamation of
    processes, [fork], [exit], [wait], [kill], sleeping and waking up, the MLFQ
    accounting and the two-pass scheduler. [swtch] hands the CPU over: the
    scheduler takes as a parameter what a process does until it calls [sched],
    and the kernel functions that end in [sched] are split at that call. The
    file system is reached through the interface [FileOps]. *)

From stdpp Require Import base numbers list gmap strings.
From S2P Require Import Prelude Machine KState Disk Raid Kalloc Evict VM Str.
Open Scope Z_scope.
Open Scope kernel_scope.

(** What [proc.c] calls of [file.c], [fs.c] and [log.c]; these keep their state
    behind the block device, and closing a pipe wakes processes up. Files and
    inodes are indices of their tables. *)
Class FileOps (D : Type) := {
  fo_filedup : Z → M (kst D) Z;
  fo_fileclose : Z → M (kst D) unit;
  fo_idup : Z → M (kst D) Z;
  fo_iput : Z → M (kst D) unit;
  fo_begin_op : M (kst D) unit;
  fo_end_op : M (kst D) unit;
  fo_namei_root : M (kst D) Z;
}.

(** The indices of [proc[NPROC]]. *)
Definition proc_ids : list nat := seq 0 (Z.to_nat NPROC).

(** Offsets in [struct trapframe]. *)
Abbreviation TF_kernel_satp := 0.
Abbreviation TF_kernel_sp := 8.
Abbreviation TF_kernel_trap := 16.
Abbreviation TF_epc := 24.
Abbreviation TF_kernel_hartid := 32.
Abbreviation TF_a0 := 112.
Abbreviation TF_a7 := 168.
Abbreviation TF_size := 288.

(** The quantum of each MLFQ level. *)
Definition quantum_of (level : Z) : Z :=
  if level =? 1 then 4 else if level =? 2 then 8 else if level =? 3 then 16 else 2.

#[global] Arguments quantum_of : simpl never.

(** What a timer tick does to the running process. *)
Definition mlfq_update (p : proc) : option proc :=
  t ← znth (p_ticks_per_level p) (p_cur_q_level p);
  let p := p <| p_ticks_at_cur_level ::= λ n, i32 (n + 1) |>
             <| p_ticks_per_level := zset (p_ticks_per_level p) (p_cur_q_level p) (i32 (t + 1)) |> in
  if quantum_of (p_cur_q_level p) <=? p_ticks_at_cur_level p then
    let delta_s := i32 (p_total_syscalls p - p_temp p) in
    let delta_t := p_ticks_at_cur_level p in
    let p := if (delta_s <? delta_t) && (p_cur_q_level p <? 3)
             then p <| p_cur_q_level ::= λ l, l + 1 |> else p in
    Some (p <| p_ticks_at_cur_level := 0 |> <| p_temp := p_total_syscalls p |>)
  else Some p.

Section proc.
Context {D : Type} `{!BlockStore D, !FileOps D} {L : Layout}.
Abbreviation K := (M (kst D)).

(** ** MLFQ accounting *)

Definition mlfq_tick (i : nat) : K unit :=
  acquire (LProc i) ;;
  p ← getp i;
  p' ← opt (mlfq_update p);
  updp i (λ _, p') ;;
  release (LProc i).

Definition boost1 (i : nat) : K unit :=
  acquire (LProc i) ;;
  p ← getp i;
  when (bool_decide (p_state p = RUNNABLE))
    (updp i (λ p, p <| p_cur_q_level := 0 |> <| p_ticks_at_cur_level := 0 |>
                    <| p_temp := p_total_syscalls p |>)) ;;
  release (LProc i).
Definition global_boost : K unit := for_each boost1 proc_ids.

(** ** The table *)

Definition procinit : K unit :=
  for_each (λ i, updp i (λ p, p <| p_state := UNUSED |> <| p_kstack := KSTACK (Z.of_nat i) |>)) proc_ids.

Definition allocpid : K Z :=
  acquire LPid ;; pid ← gets nextpid; setf nextpid (i32 (pid + 1)) ;; release LPid ;; mret pid.

(** The first [UNUSED] process, its lock held. *)
Definition find_unused : K (option nat) :=
  for_find (λ i,
    acquire (LProc i) ;;
    p ← getp i;
    if bool_decide (p_state p = UNUSED) then mret (Some i)
    else release (LProc i) ;; mret None) proc_ids.

Definition proc_pagetable (i : nat) : K Z :=
  pagetable ← uvmcreate;
  if pagetable =? 0 then mret 0 else
  r ← mappages pagetable TRAMPOLINE PGSIZE trampoline (setb PTE_R PTE_X);
  if r <? 0 then uvmfree pagetable 0 ;; mret 0 else
  p ← getp i;
  r ← mappages pagetable TRAPFRAME PGSIZE (p_trapframe p) (setb PTE_R PTE_W);
  if r <? 0 then
    uvmunmap pagetable TRAMPOLINE 1 false ;; uvmfree pagetable 0 ;; mret 0
  else mret pagetable.

Definition proc_freepagetable (pagetable sz : Z) : K unit :=
  uvmunmap pagetable TRAMPOLINE 1 false ;;
  uvmunmap pagetable TRAPFRAME 1 false ;;
  uvmfree pagetable sz.

Definition freeproc (i : nat) : K unit :=
  p ← getp i;
  when (negb (p_trapframe p =? 0)) (kfree (p_trapframe p)) ;;
  updp i (λ p, p <| p_trapframe := 0 |>) ;;
  p ← getp i;
  when (negb (p_pagetable p =? 0)) (proc_freepagetable (p_pagetable p) (p_sz p)) ;;
  updp i (λ p, p <| p_pagetable := 0 |> <| p_sz := 0 |> <| p_pid := 0 |> <| p_parent := None |>
                 <| p_name ::= λ n, zset n 0 0 |> <| p_chan := ChNone |> <| p_killed := 0 |>
                 <| p_xstate := 0 |> <| p_state := UNUSED |> <| p_total_syscalls := 0 |>).

(** The fields [allocproc] sets once it has found an entry. *)
Definition fresh_proc (pid : Z) (p : proc) : proc :=
  p <| p_pid := pid |> <| p_state := USED |> <| p_total_syscalls := 0 |>
    <| p_cur_q_level := 0 |> <| p_ticks_at_cur_level := 0 |>
    <| p_page_faults := 0 |> <| p_pages_evicted := 0 |> <| p_pages_swapped_in := 0 |>
    <| p_pages_swapped_out := 0 |> <| p_resident_pages := 0 |>
    <| p_ticks_per_level := [0; 0; 0; 0] |> <| p_temp := 0 |>
    <| p_disk_reads := 0 |> <| p_disk_writes := 0 |> <| p_avg_disk_latency := 0 |>.

(** [None] is the null pointer; on success the lock of the process is held. *)
Definition allocproc : K (option nat) :=
  f ← find_unused;
  match f with
  | None => mret None
  | Some i =>
      pid ← allocpid;
      updp i (fresh_proc pid) ;;
      release (LProc i) ;;
      tf ← kalloc;
      updp i (λ p, p <| p_trapframe := tf |>) ;;
      if tf =? 0 then acquire (LProc i) ;; freeproc i ;; release (LProc i) ;; mret None else
      pt ← proc_pagetable i;
      updp i (λ p, p <| p_pagetable := pt |>) ;;
      if pt =? 0 then acquire (LProc i) ;; freeproc i ;; release (LProc i) ;; mret None else
      acquire (LProc i) ;;
      updp i (λ p, p <| p_context := forkret :: u64 (p_kstack p + PGSIZE) :: replicate 12 0 |>) ;;
      mret (Some i)
  end.

Definition userinit : K unit :=
  f ← allocproc;
  setf initproc f ;;
  i ← opt f;
  root ← fo_namei_root;
  updp i (λ p, p <| p_cwd := Some root |> <| p_state := RUNNABLE |>) ;;
  release (LProc i).

Definition growproc (n : Z) : K Z :=
  me ← myproc; i ← opt me;
  p ← getp i;
  let sz := p_sz p in
  if 0 <? n then
    if TRAPFRAME <? u64 (sz + n) then mret (-1) else
    sz' ← uvmalloc (p_pagetable p) sz (u64 (sz + n)) PTE_W;
    if sz' =? 0 then mret (-1) else
    updp i (λ p, p <| p_sz := sz' |>) ;; mret 0
  else if n <? 0 then
    sz' ← uvmdealloc (p_pagetable p) sz (u64 (sz + n));
    updp i (λ p, p <| p_sz := sz' |>) ;; mret 0
  else updp i (λ p, p <| p_sz := sz |>) ;; mret 0.

(** ** Sleeping and waking *)

Definition wakeup (chan : wchan) : K unit :=
  for_each (λ i,
    me ← myproc;
    if bool_decide (me = Some i) then mret tt else
    acquire (LProc i) ;;
    p ← getp i;
    when (bool_decide (p_state p = SLEEPING ∧ p_chan p = chan))
      (updp i (λ p, p <| p_state := RUNNABLE |>)) ;;
    release (LProc i)) proc_ids.

Definition kkill (pid : Z) : K Z :=
  r ← for_find (λ i,
    acquire (LProc i) ;;
    p ← getp i;
    if p_pid p =? pid then
      updp i (λ p, p <| p_killed := 1 |>) ;;
      when (bool_decide (p_state p = SLEEPING)) (updp i (λ p, p <| p_state := RUNNABLE |>)) ;;
      release (LProc i) ;; mret (Some 0)
    else release (LProc i) ;; mret None) proc_ids;
  mret (default (-1) r).

Definition setkilled (i : nat) : K unit :=
  acquire (LProc i) ;; updp i (λ p, p <| p_killed := 1 |>) ;; release (LProc i).
Definition killed (i : nat) : K Z :=
  acquire (LProc i) ;; p ← getp i; release (LProc i) ;; mret (p_killed p).

(** [sched()] up to [swtch]: the process must hold its own lock and no other,
    and must have left [RUNNING]. *)
Definition sched : K unit :=
  me ← myproc; i ← opt me;
  h ← gets held;
  if negb (size h =? 1)%nat then panic "sched locks" else
  if negb (bool_decide (LProc i ∈ h)) then panic "sched p->lock" else
  p ← getp i;
  if bool_decide (p_state p = RUNNING) then panic "sched RUNNING" else mret tt.

(** [yield()], before and after the switch. *)
Definition yield_off : K unit :=
  me ← myproc; i ← opt me;
  acquire (LProc i) ;; updp i (λ p, p <| p_state := RUNNABLE |>) ;; sched.
Definition yield_on : K unit := me ← myproc; i ← opt me; release (LProc i).

(** [sleep(chan, lk)], before and after the switch. *)
Definition sleep_off (chan : wchan) (lk : lockid) : K unit :=
  me ← myproc; i ← opt me;
  acquire (LProc i) ;;
  release lk ;;
  updp i (λ p, p <| p_chan := chan |> <| p_state := SLEEPING |>) ;;
  sched.
Definition sleep_on (lk : lockid) : K unit :=
  me ← myproc; i ← opt me;
  updp i (λ p, p <| p_chan := ChNone |>) ;;
  release (LProc i) ;; acquire lk.

(** ** fork, exit, wait *)

Definition kfork : K Z :=
  me ← myproc; i ← opt me;
  f ← allocproc;
  match f with
  | None => mret (-1)
  | Some np =>
      release (LProc np) ;;
      p ← getp i; q ← getp np;
      r ← uvmcopy (p_pagetable p) (p_pagetable q) (p_sz p) (Some np);
      if r <? 0 then
        acquire (LProc np) ;; freeproc np ;; release (LProc np) ;; mret (-1)
      else
        acquire (LProc np) ;;
        p ← getp i; q ← getp np;
        updp np (λ q, q <| p_sz := p_sz p |>) ;;
        tf ← read_bytes (p_trapframe p) TF_size;
        write_bytes (p_trapframe q) tf ;;
        store64 (p_trapframe q + TF_a0) 0 ;;
        for_each (λ fd,
          match znth (p_ofile p) fd with
          | Some (Some f) =>
              f' ← fo_filedup f;
              updp np (λ q, q <| p_ofile ::= λ l, zset l fd (Some f') |>)
          | _ => mret tt
          end) (upto NOFILE) ;;
        cwd ← opt (p_cwd p);
        cwd' ← fo_idup cwd;
        updp np (λ q, q <| p_cwd := Some cwd' |>) ;;
        q ← getp np;
        name ← opt (safestrcpy (p_name q) (p_name p) 16);
        updp np (λ q, q <| p_name := name |>) ;;
        release (LProc np) ;;
        acquire LWait ;; updp np (λ q, q <| p_parent := Some i |>) ;; release LWait ;;
        acquire (LProc np) ;; updp np (λ q, q <| p_state := RUNNABLE |>) ;; release (LProc np) ;;
        mret (p_pid q)
  end.

(** A process pointer as a sleep channel. *)
Definition proc_chan (p : option nat) : wchan := match p with Some i => ChProc i | None => ChNone end.

Definition reparent (i : nat) : K unit :=
  for_each (λ j,
    pp ← getp j;
    when (bool_decide (p_parent pp = Some i))
      (ip ← gets initproc;
       updp j (λ p, p <| p_parent := ip |>) ;;
       wakeup (proc_chan ip))) proc_ids.

(** [kexit()] up to the switch, which never comes back. *)
Definition kexit (status : Z) : K unit :=
  me ← myproc; i ← opt me;
  ip ← gets initproc;
  if bool_decide (ip = Some i) then panic "init exiting" else
  for_each (λ fd,
    p ← getp i;
    match znth (p_ofile p) fd with
    | Some (Some f) =>
        fo_fileclose f ;;
        updp i (λ p, p <| p_ofile ::= λ l, zset l fd None |>)
    | _ => mret tt
    end) (upto NOFILE) ;;
  fo_begin_op ;;
  p ← getp i; cwd ← opt (p_cwd p);
  fo_iput cwd ;;
  fo_end_op ;;
  updp i (λ p, p <| p_cwd := None |>) ;;
  acquire LWait ;;
  reparent i ;;
  p ← getp i;
  wakeup (proc_chan (p_parent p)) ;;
  acquire (LProc i) ;;
  updp i (λ p, p <| p_xstate := status |> <| p_state := ZOMBIE |>) ;;
  release LWait ;;
  sched.

(** One scan of the table in [kwait]: a result, or whether there are children. *)
Definition reap (i : nat) (addr : Z) (pp : nat) : K Z :=
  q ← getp pp;
  let pid := p_pid q in
  let xstate := p_xstate q in
  release (LProc pp) ;; release LWait ;;
  p ← getp i;
  r ← (if addr =? 0 then mret 0 else copyout (p_pagetable p) addr (le_of 4 xstate));
  acquire LWait ;; acquire (LProc pp) ;; freeproc pp ;; release (LProc pp) ;; release LWait ;;
  mret (if r <? 0 then -1 else pid).

Fixpoint wait_scan (i : nat) (addr : Z) (l : list nat) (havekids : bool) : K (option Z * bool) :=
  match l with
  | [] => mret (None, havekids)
  | pp :: l =>
      q ← getp pp;
      if bool_decide (p_parent q = Some i) then
        acquire (LProc pp) ;;
        q ← getp pp;
        if bool_decide (p_state q = ZOMBIE) then r ← reap i addr pp; mret (Some r, true)
        else release (LProc pp) ;; wait_scan i addr l true
      else wait_scan i addr l havekids
  end.

(** [kwait()] up to its return ([Some]) or its [sleep] ([None], the process
    asleep on its own address); on waking up it scans again. *)
Definition kwait_try (addr : Z) : K (option Z) :=
  me ← myproc; i ← opt me;
  r ← wait_scan i addr proc_ids false;
  match r with
  | (Some v, _) => mret (Some v)
  | (None, havekids) =>
      k ← (if negb havekids then mret 1 else killed i);
      if negb (k =? 0) then release LWait ;; mret (Some (-1))
      else sleep_off (ChProc i) LWait ;; mret None
  end.
Definition kwait (addr : Z) : K (option Z) := acquire LWait ;; kwait_try addr.

(** ** The scheduler *)

(** Pass 1: the highest level that has a runnable process, or -1. *)
Definition sched_pass1 : K Z :=
  r ← for_find (λ level,
    for_find (λ i,
      acquire (LProc i) ;;
      p ← getp i;
      release (LProc i) ;;
      mret (if bool_decide (p_state p = RUNNABLE) && (p_cur_q_level p =? level)
            then Some level else None)) proc_ids) (upto 4);
  mret (default (-1) r).

(** Give the CPU to process [i]: the part of pass 2 before [swtch]. *)
Definition dispatch (i : nat) : K unit :=
  updp i (λ p, p <| p_state := RUNNING |>) ;;
  setf cur (Some i) ;;
  updp i (λ p, p <| p_num_times_sched ::= λ n, i32 (n + 1) |>) ;;
  p ← getp i;
  when (p_ticks_at_cur_level p =? 0) (updp i (λ p, p <| p_temp := p_total_syscalls p |>)).

(** Pass 2 over one process: [run i] is what it does until it calls [sched]. *)
Definition sched_pass2 (run : nat → K unit) (t_level : Z) (i : nat) : K bool :=
  acquire (LProc i) ;;
  p ← getp i;
  found ← (if (p_cur_q_level p =? t_level) && bool_decide (p_state p = RUNNABLE)
           then dispatch i ;; run i ;; setf cur None ;; mret true else mret false);
  release (LProc i) ;;
  mret found.

Fixpoint sched_pass2_all (run : nat → K unit) (t_level : Z) (l : list nat) (found : bool) : K bool :=
  match l with
  | [] => mret found
  | i :: l => f ← sched_pass2 run t_level i; sched_pass2_all run t_level l (found || f)
  end.

(** One turn of [for(;;)]: whether any process ran ([wfi] otherwise). *)
Definition scheduler_round (run : nat → K unit) : K bool :=
  t_level ← sched_pass1;
  if t_level =? -1 then mret false else sched_pass2_all run t_level proc_ids false.

(** ** Copies to and from user or kernel space *)

Definition either_copyout (user_dst : bool) (dst : Z) (src : list Z) : K Z :=
  me ← myproc;
  if user_dst then i ← opt me; p ← getp i; copyout (p_pagetable p) dst src
  else write_bytes dst src ;; mret 0.

Definition either_copyin (user_src : bool) (src len : Z) : K (list Z * Z) :=
  me ← myproc;
  if user_src then i ← opt me; p ← getp i; copyin (p_pagetable p) src len
  else bs ← read_bytes src len; mret (bs, 0).

(** What [procdump] prints: a line per process in use. *)
Definition state_name (st : procstate) : string :=
  match st with
  | UNUSED => "unused" | USED => "used" | SLEEPING => "sleep " | RUNNABLE => "runble"
  | RUNNING => "run   " | ZOMBIE => "zombie"
  end.
Definition procdump : K (list (Z * string * list Z)) :=
  ps ← gets procs;
  mret ((λ p, (p_pid p, state_name (p_state p), p_name p)) <$>
        filter (λ p, p_state p ≠ UNUSED) (take (Z.to_nat NPROC) ps)).
End proc.
