(* ===== verification/ProcProps.v ===== *)
(** * What the process code does

    The properties of [kernel/proc.c]: the MLFQ rules, which process the
    scheduler runs, waking up, killing, and the process table over the life of
    a process. *)

From stdpp Require Import base numbers list gmap strings.
From S2P Require Import Prelude Machine KState Disk Raid Kalloc Evict VM Frame Proc.
Open Scope Z_scope.
Open Scope kernel_scope.

(** ** Loops over the process table *)

(** A search whose body acts on the first element it looks for. *)
Lemma for_find_act {S A B} (body : A → M S (option B)) (g : A → option A) (b : A → B) (f : A → S) l s :
  (∀ x, x ∈ l → body x s = match g x with Some y => Ok (Some (b y), f y) | None => Ok (None, s) end) →
  for_find body l s = match first_some g l with Some y => Ok (Some (b y), f y) | None => Ok (None, s) end.
Proof.
  induction l as [|x l IH]; intros H; [done|]. cbn [for_find first_some]. unfold mbind, M_bind.
  rewrite H by set_solver. destruct (g x); [done|]. apply IH. set_solver.
Qed.

Section table.
Context {D : Type}.
Implicit Types s : kst D.

(** A loop that updates each process in turn updates the table pointwise. *)
Lemma for_each_procs (body : nat → M (kst D) unit) f s :
  length (procs s) = Z.to_nat NPROC →
  (∀ i p s', held s' = held s → cur s' = cur s → initproc s' = initproc s → procs s' !! i = Some p →
     body i s' = Ok (tt, s' <| procs := <[i := f i p]> (procs s') |>)) →
  for_each body proc_ids s = Ok (tt, s <| procs := imap f (procs s) |>).
Proof.
  intros Hlen Hbody. unfold proc_ids.
  set (P k := imap (λ i p, if bool_decide (i < k)%nat then f i p else p) (procs s)).
  assert (∀ n k, (k + n = length (procs s))%nat →
    for_each body (seq k n) (s <| procs := P k |>) = Ok (tt, s <| procs := P (k + n)%nat |>)) as Hloop.
  { induction n as [|n IH]; intros k Hk; [by rewrite Nat.add_0_r|]. simpl.
    destruct (lookup_lt_is_Some_2 (procs s) k) as [p Hp]; [lia|].
    assert (P k !! k = Some p) as Hpk
      by (unfold P; rewrite list_lookup_imap, Hp; simpl; by rewrite bool_decide_eq_false_2 by lia).
    erewrite bind_step by (by apply Hbody). simpl.
    replace (_ <| procs := <[k := f k p]> (P k) |>) with (s <| procs := P (S k) |>).
    { rewrite IH by lia. by replace (k + S n)%nat with (S k + n)%nat by lia. }
    kst_eq. apply list_eq. intros j. unfold P.
    destruct (decide (j = k)) as [->|Hj].
    - rewrite list_lookup_insert_eq by (rewrite length_imap; lia).
      rewrite list_lookup_imap, Hp. simpl. by rewrite bool_decide_eq_true_2 by lia.
    - rewrite list_lookup_insert_ne, !list_lookup_imap by done. destruct (procs s !! j); [|done]. simpl.
      f_equal. destruct (decide (j < k)%nat);
        [rewrite !bool_decide_eq_true_2 by lia|rewrite !bool_decide_eq_false_2 by lia]; done. }
  assert (s <| procs := P 0%nat |> = s) as E0.
  { kst_eq. apply list_eq. intros j. unfold P. rewrite list_lookup_imap.
    by destruct (procs s !! j). }
  rewrite <-E0 at 1. rewrite <-Hlen. rewrite Hloop by lia. apply Ok_pair. kst_eq. unfold P.
  apply list_eq. intros j. rewrite !list_lookup_imap. destruct (procs s !! j) eqn:Ej; [|done]. simpl.
  apply lookup_lt_Some in Ej. by rewrite bool_decide_eq_true_2 by lia.
Qed.

(** Look at a process and update it, holding its lock. *)
Lemma locked_body i p s (m : proc → M (kst D) unit) f :
  LProc i ∉ held s → procs s !! i = Some p →
  (∀ s', procs s' = procs s → LProc i ∈ held s' →
     m p s' = Ok (tt, s' <| procs := <[i := f p]> (procs s') |>)) →
  (acquire (LProc i) ;; p ← getp i; m p ;; release (LProc i)) s =
    Ok (tt, s <| procs := <[i := f p]> (procs s) |>).
Proof.
  intros Hh Hp Hm. mstep acquire_ok; [|done]. erewrite bind_step by (by apply getp_ok).
  erewrite bind_step by (apply Hm; [done|simpl; set_solver]).
  rewrite release_ok by (simpl; set_solver). apply Ok_pair. kst_eq. by rewrite held_restore.
Qed.

Lemma when_updp (c : bool) i p s f : procs s !! i = Some p →
  when c (updp i f) s = Ok (tt, s <| procs := <[i := if c then f p else p]> (procs s) |>).
Proof.
  intros Hp. destruct c; simpl; [by apply updp_ok|]. rewrite list_insert_id by done. by destruct s.
Qed.
End table.

Section rules.
Context {D : Type} `{!BlockStore D, !FileOps D} {L : Layout}.
Implicit Types s : kst D.

(** ** Waking up and boosting *)

Definition woken (chan : wchan) (me : option nat) (i : nat) (p : proc) : proc :=
  if bool_decide (me ≠ Some i ∧ p_state p = SLEEPING ∧ p_chan p = chan)
  then p <| p_state := RUNNABLE |> else p.

Lemma wakeup_ok chan s :
  length (procs s) = Z.to_nat NPROC → (∀ i, cur s ≠ Some i → LProc i ∉ held s) →
  wakeup chan s = Ok (tt, s <| procs := imap (woken chan (cur s)) (procs s) |>).
Proof.
  intros Hlen Hh. apply for_each_procs; [done|]. intros i p s' Eh Ec _ Hp.
  mget (cur s'). unfold woken. rewrite <-Ec. destruct (decide (cur s' = Some i)) as [E|E].
  - rewrite bool_decide_eq_true_2, bool_decide_eq_false_2 by (done || naive_solver).
    apply Ok_pair. rewrite list_insert_id by done. by destruct s'.
  - rewrite bool_decide_eq_false_2 by done.
    apply (locked_body i p s' (λ p, when (bool_decide (p_state p = SLEEPING ∧ p_chan p = chan))
      (updp i (λ p, p <| p_state := RUNNABLE |>)))
      (λ p, if bool_decide (cur s' ≠ Some i ∧ p_state p = SLEEPING ∧ p_chan p = chan)
            then p <| p_state := RUNNABLE |> else p)); [|done|].
    + rewrite Eh. apply Hh. congruence.
    + intros s1 Eps _. erewrite when_updp by (by rewrite Eps).
      destruct (decide (p_state p = SLEEPING ∧ p_chan p = chan));
        [rewrite !bool_decide_eq_true_2 by done|rewrite !bool_decide_eq_false_2 by naive_solver]; done.
Qed.

Definition boosted (p : proc) : proc :=
  if bool_decide (p_state p = RUNNABLE)
  then p <| p_cur_q_level := 0 |> <| p_ticks_at_cur_level := 0 |> <| p_temp := p_total_syscalls p |> else p.

Lemma global_boost_ok s :
  length (procs s) = Z.to_nat NPROC → (∀ i, LProc i ∉ held s) →
  global_boost s = Ok (tt, s <| procs := boosted <$> procs s |>).
Proof.
  intros Hlen Hh. rewrite <-imap_const. apply for_each_procs; [done|]. intros i p s' Eh _ _ Hp.
  apply (locked_body i p s' (λ p, when (bool_decide (p_state p = RUNNABLE)) (updp i _)) boosted);
    [by rewrite Eh|done|].
  intros s1 Eps _. erewrite when_updp by (by rewrite Eps). unfold boosted.
  by destruct (bool_decide _).
Qed.

(** ** The MLFQ rules *)

(** A level, less than a quantum of ticks used at it, and four tick counters. *)
Record mlfq_ok (p : proc) : Prop := {
  mo_level : 0 ≤ p_cur_q_level p ≤ 3;
  mo_ticks : 0 ≤ p_ticks_at_cur_level p < quantum_of (p_cur_q_level p);
  mo_len : zlen (p_ticks_per_level p) = 4;
}.

Lemma quantum_cases l : 0 ≤ l ≤ 3 →
  (l = 0 ∧ quantum_of l = 2) ∨ (l = 1 ∧ quantum_of l = 4) ∨ (l = 2 ∧ quantum_of l = 8) ∨ (l = 3 ∧ quantum_of l = 16).
Proof. intros. assert (l = 0 ∨ l = 1 ∨ l = 2 ∨ l = 3) as [->|[->|[->| ->]]] by lia; unfold quantum_of; simpl; lia. Qed.

Lemma mlfq_tick_run i p p' s : LProc i ∉ held s → procs s !! i = Some p → mlfq_update p = Some p' →
  mlfq_tick i s = Ok (tt, s <| procs := <[i := p']> (procs s) |>).
Proof.
  intros Hh Hp Hu. unfold mlfq_tick. mstep acquire_ok; [|done]. erewrite bind_step by (by apply getp_ok).
  erewrite bind_step by (by apply opt_ok). erewrite bind_step by (by apply updp_ok).
  rewrite release_ok by (simpl; set_solver). apply Ok_pair. kst_eq. by rewrite held_restore.
Qed.

Lemma mlfq_update_ok p :
  mlfq_ok p → 0 ≤ p_temp p ≤ p_total_syscalls p → p_total_syscalls p < 2147483648 →
  ∃ p' t, mlfq_update p = Some p' ∧ mlfq_ok p' ∧
    znth (p_ticks_per_level p) (p_cur_q_level p) = Some t ∧
    p_ticks_per_level p' = zset (p_ticks_per_level p) (p_cur_q_level p) (i32 (t + 1)) ∧
    if p_ticks_at_cur_level p + 1 <? quantum_of (p_cur_q_level p) then
      p_cur_q_level p' = p_cur_q_level p ∧ p_ticks_at_cur_level p' = p_ticks_at_cur_level p + 1 ∧
      p_temp p' = p_temp p
    else
      p_ticks_at_cur_level p' = 0 ∧ p_temp p' = p_total_syscalls p ∧
      p_cur_q_level p' =
        if (p_total_syscalls p - p_temp p <? quantum_of (p_cur_q_level p)) && (p_cur_q_level p <? 3)
        then p_cur_q_level p + 1 else p_cur_q_level p.
Proof.
  intros [Hl Ht Hlen] Htmp Htot. pose proof (quantum_cases _ Hl) as Hq.
  destruct (znth_lt (p_ticks_per_level p) (p_cur_q_level p)) as [t Et]; [lia|].
  unfold mlfq_update. rewrite Et. simpl. rewrite (i32_id (p_ticks_at_cur_level p + 1)), (i32_id (p_total_syscalls p - p_temp p)) by lia.
  destruct (Z.leb_spec (quantum_of (p_cur_q_level p)) (p_ticks_at_cur_level p + 1)),
    (Z.ltb_spec (p_ticks_at_cur_level p + 1) (quantum_of (p_cur_q_level p))); try lia.
  - replace (p_ticks_at_cur_level p + 1) with (quantum_of (p_cur_q_level p)) by lia.
    eexists _, t. split; [done|].
    destruct ((p_total_syscalls p - p_temp p <? quantum_of (p_cur_q_level p)) && (p_cur_q_level p <? 3)) eqn:E;
      simpl; split_and!; try done; split; simpl; rewrite ?zlen_zset; try done; try lia.
    assert (0 ≤ p_cur_q_level p + 1 ≤ 3) as Hl' by lia. pose proof (quantum_cases _ Hl'). lia.
  - eexists _, t. split; [done|]. simpl. rewrite (i32_id (p_ticks_at_cur_level p + 1)) by lia. split_and!; try done.
    split; simpl; rewrite ?zlen_zset, ?(i32_id (p_ticks_at_cur_level p + 1)) by lia; (done || lia).
Qed.

(** ** Which process the scheduler runs *)

Definition runnable_at (level : Z) (p : proc) : bool :=
  bool_decide (p_state p = RUNNABLE) && (p_cur_q_level p =? level).

Lemma look_locked {A} i p s (g : proc → A) : LProc i ∉ held s → procs s !! i = Some p →
  (acquire (LProc i) ;; p ← getp i; release (LProc i) ;; mret (g p)) s = Ok (g p, s).
Proof.
  intros Hh Hp. mstep acquire_ok; [|done]. erewrite bind_step by (by apply getp_ok).
  erewrite bind_step by (apply release_ok; simpl; set_solver). apply Ok_pair. kst_eq. by rewrite held_restore.
Qed.

Lemma proc_ids_lookup s i : length (procs s) = Z.to_nat NPROC → i ∈ proc_ids ↔ is_Some (procs s !! i).
Proof. intros Hl. unfold proc_ids. rewrite elem_of_seq, lookup_lt_is_Some, Hl. lia. Qed.

(** The level pass 1 settles on. *)
Definition top_level (ps : list proc) : option Z :=
  first_some (λ level, first_some (λ i, match ps !! i with
    | Some p => if runnable_at level p then Some level else None
    | None => None end) proc_ids) (upto 4).

Lemma sched_pass1_ok s : length (procs s) = Z.to_nat NPROC → (∀ i, LProc i ∉ held s) →
  sched_pass1 s = Ok (default (-1) (top_level (procs s)), s).
Proof.
  intros Hl Hh. unfold sched_pass1. erewrite bind_step; [done|]. apply for_find_look. intros level _.
  apply for_find_look. intros i Hi. apply (proc_ids_lookup s i Hl) in Hi as [p Hp]. rewrite Hp.
  apply (look_locked i p s (λ p, if runnable_at level p then Some level else None)); auto.
Qed.

Lemma top_level_Some ps level : top_level ps = Some level →
  0 ≤ level < 4 ∧ (∃ i p, ps !! i = Some p ∧ runnable_at level p = true) ∧
  ∀ i p l, (i < Z.to_nat NPROC)%nat → 0 ≤ l < level → ps !! i = Some p → runnable_at l p = false.
Proof.
  intros (l1 & x & l2 & El & Hx & Hno)%first_some_Some.
  assert (x = level) as ->.
  { apply first_some_Some in Hx as (? & i & ? & _ & Hi & _). destruct (ps !! i); [|done].
    destruct (runnable_at x p); congruence. }
  assert (level ∈ upto 4) as Hlev by (rewrite El; set_solver). apply elem_of_upto in Hlev.
  split; [done|]. split.
  - apply first_some_Some in Hx as (? & i & ? & _ & Hi & _). destruct (ps !! i) as [p|] eqn:Ep; [|done].
    exists i, p. split; [done|]. by destruct (runnable_at level p).
  - intros i p l Hi Hlt Hp. assert (l ∈ l1) as Hl.
    { assert (l ∈ upto 4) as Hin by (apply elem_of_upto; lia). rewrite El in Hin.
      assert (level = Z.of_nat (length l1)) as E1.
      { assert (upto 4 !! length l1 = Some level) as Hlk by (rewrite El; by rewrite list_lookup_middle).
        unfold upto in Hlk. apply lookup_seqZ in Hlk. lia. }
      assert (upto 4 !! Z.to_nat l = Some l) as Hlk by (unfold upto; apply lookup_seqZ; lia).
      rewrite El, lookup_app_l in Hlk by lia. by eapply list_elem_of_lookup_2. }
    specialize (Hno l Hl). apply (first_some_None _ _ ) with (x := i) in Hno; [|apply elem_of_seq; lia].
    rewrite Hp in Hno. by destruct (runnable_at l p).
Qed.

Lemma top_level_None ps : top_level ps = None → ∀ i p l, (i < Z.to_nat NPROC)%nat → 0 ≤ l < 4 →
  ps !! i = Some p → runnable_at l p = false.
Proof.
  intros Hn i p l Hi Hl Hp. apply first_some_None with (x := l) in Hn; [|by apply elem_of_upto].
  apply first_some_None with (x := i) in Hn; [|apply elem_of_seq; lia].
  rewrite Hp in Hn. by destruct (runnable_at l p).
Qed.

Lemma sched_pass2_skip run level i p s : LProc i ∉ held s → procs s !! i = Some p →
  runnable_at level p = false → sched_pass2 run level i s = Ok (false, s).
Proof.
  intros Hh Hp Hr. unfold sched_pass2. mstep acquire_ok; [|done]. erewrite bind_step by (by apply getp_ok).
  unfold runnable_at in Hr. rewrite andb_comm in Hr. rewrite Hr. erewrite bind_step by done.
  erewrite bind_step by (apply release_ok; simpl; set_solver). apply Ok_pair. kst_eq. by rewrite held_restore.
Qed.

(** Process [p], at index [i], has the CPU. *)
Definition dispatched s (i : nat) (p : proc) : kst D :=
  s <| held := {[LProc i]} ∪ held s |> <| cur := Some i |>
    <| procs := <[i := p <| p_state := RUNNING |> <| p_num_times_sched := i32 (p_num_times_sched p + 1) |>
                        <| p_temp := if p_ticks_at_cur_level p =? 0 then p_total_syscalls p else p_temp p |>]>
                (procs s) |>.

Lemma sched_pass2_run run level i p s : LProc i ∉ held s → procs s !! i = Some p →
  runnable_at level p = true →
  sched_pass2 run level i s =
    (run i ;; setf cur None ;; release (LProc i) ;; mret true) (dispatched s i p).
Proof.
  intros Hh Hp Hr. unfold sched_pass2. mstep acquire_ok; [|done]. erewrite bind_step by (by apply getp_ok).
  unfold runnable_at in Hr. rewrite andb_comm in Hr. rewrite Hr. rewrite bind_assoc.
  assert (i < length (procs s))%nat as Hlt by (by eapply lookup_lt_Some).
  erewrite bind_step.
  2: { unfold dispatch. erewrite bind_step by (by apply updp_ok). erewrite bind_step by done.
    erewrite bind_step by (apply updp_ok; simpl; by apply list_lookup_insert_eq).
    simpl. rewrite list_insert_insert_eq.
    erewrite bind_step by (apply getp_ok; simpl; by apply list_lookup_insert_eq). simpl.
    apply when_updp. simpl. by apply list_lookup_insert_eq. }
  simpl. rewrite list_insert_insert_eq.
  replace (_ <| procs := _ |>) with (dispatched s i p).
  - rewrite !bind_assoc. unfold mbind, M_bind, modify. by destruct (run i (dispatched s i p)) as [[]| | |].
  - unfold dispatched. kst_eq. by destruct (_ =? 0).
Qed.

Lemma sched_pass2_first run level l1 i p l2 found s :
  (∀ j, LProc j ∉ held s) → (∀ j, j ∈ l1 → ∃ q, procs s !! j = Some q ∧ runnable_at level q = false) →
  procs s !! i = Some p → runnable_at level p = true →
  ∃ k, sched_pass2_all run level (l1 ++ i :: l2) found s = (run i ≫= k) (dispatched s i p).
Proof.
  intros Hh Hl1 Hp Hr. revert found. induction l1 as [|j l1 IH]; intros found; simpl.
  - eexists (λ _, _). unfold mbind, M_bind. rewrite (sched_pass2_run run level i p s) by done.
    unfold mbind, M_bind. instantiate (1 := λ s, match (setf cur None ;; release (LProc i) ;; mret true) s with
      | Ok (a, s') => sched_pass2_all run level l2 (found || a) s' | Panic e => Panic e | Fault => Fault | Diverge => Diverge end).
    by destruct (run i (dispatched s i p)) as [[]| | |].
  - destruct (Hl1 j) as (q & Hq & Hqr); [set_solver|].
    erewrite bind_step by (by apply (sched_pass2_skip run level j q)). apply IH. set_solver.
Qed.

(** C36. The scheduler runs a process of the highest priority: when no process is
    runnable a turn of the scheduler does nothing; otherwise the first process it
    switches to, marked [RUNNING] and with its lock held, is runnable, no
    runnable process has a smaller (more urgent) MLFQ level, and none at the same
    level comes before it in the table. *)
Theorem scheduler_runs_highest s :
  length (procs s) = Z.to_nat NPROC → (∀ i, LProc i ∉ held s) → Forall (λ p, 0 ≤ p_cur_q_level p ≤ 3) (procs s) →
  ((∀ i p, procs s !! i = Some p → p_state p ≠ RUNNABLE) ∧ ∀ run, scheduler_round run s = Ok (false, s)) ∨
  (∃ i p, procs s !! i = Some p ∧ p_state p = RUNNABLE ∧
     (∀ j q, procs s !! j = Some q → p_state q = RUNNABLE →
        p_cur_q_level p < p_cur_q_level q ∨ (p_cur_q_level p = p_cur_q_level q ∧ (i ≤ j)%nat)) ∧
     ∀ run, ∃ k, scheduler_round run s = (run i ≫= k) (dispatched s i p)).
Proof.
  intros Hl Hh Hlev. unfold scheduler_round.
  assert (∀ j q, procs s !! j = Some q → p_state q = RUNNABLE →
    (j < Z.to_nat NPROC)%nat ∧ 0 ≤ p_cur_q_level q < 4 ∧ runnable_at (p_cur_q_level q) q = true) as Hrun.
  { intros j q Hq Hst. pose proof (lookup_lt_Some _ _ _ Hq). eapply Forall_lookup in Hlev; [|exact Hq].
    unfold runnable_at. rewrite bool_decide_eq_true_2, Z.eqb_refl by done. split_and!; [lia|lia|lia|done]. }
  destruct (top_level (procs s)) as [level|] eqn:Et; cycle 1.
  { left. split.
    - intros j q Hq Hst. destruct (Hrun j q Hq Hst) as (? & ? & Hr).
      by rewrite (top_level_None _ Et j q (p_cur_q_level q)) in Hr.
    - intros run. erewrite bind_step by (by apply sched_pass1_ok). by rewrite Et. }
  right. destruct (top_level_Some _ _ Et) as (Hlb & (i0 & p0 & Hp0 & Hr0) & Hmin).
  destruct (first_some (λ i, match procs s !! i with Some p => if runnable_at level p then Some i else None | None => None end)
    proc_ids) as [i|] eqn:Ei.
  2: { exfalso. apply first_some_None with (x := i0) in Ei; [by rewrite Hp0, Hr0 in Ei|].
       apply (proc_ids_lookup s i0 Hl). by eexists. }
  apply first_some_Some in Ei as (l1 & x & l2 & El & Hx & Hno).
  destruct (procs s !! x) as [p|] eqn:Hp; [|done]. destruct (runnable_at level p) eqn:Hr; [|done]. injection Hx as ->.
  pose proof Hr as [Hst%bool_decide_eq_true Hlv%Z.eqb_eq]%andb_true_iff.
  exists i, p. split_and!; [done|done| |].
  - intros j q Hq Hsq. destruct (Hrun j q Hq Hsq) as (Hj & Hlq & Hrq).
    destruct (decide (p_cur_q_level q < level)) as [Hlt|Hge]; [by rewrite (Hmin j q (p_cur_q_level q) Hj ltac:(lia) Hq) in Hrq|].
    destruct (decide (p_cur_q_level q = level)) as [Heq|]; [right|left; lia]. split; [lia|].
    destruct (decide (i ≤ j)%nat) as [|Hlt]; [done|]. exfalso.
    assert (i = length l1) as Ei1.
    { assert (proc_ids !! length l1 = Some i) as Hlk by (rewrite El; by rewrite list_lookup_middle).
      unfold proc_ids in Hlk. apply lookup_seq in Hlk. lia. }
    assert (j ∈ l1) as Hjl.
    { assert (proc_ids !! j = Some j) as Hlk by (unfold proc_ids; apply lookup_seq; lia).
      rewrite El, lookup_app_l in Hlk by lia. by eapply list_elem_of_lookup_2. }
    specialize (Hno j Hjl). rewrite Hq in Hno. rewrite Heq in Hrq. by rewrite Hrq in Hno.
  - intros run. erewrite bind_step by (by apply sched_pass1_ok). rewrite Et.
    change (default (-1) (Some level)) with level.
    destruct (Z.eqb_spec level (-1)); [lia|]. rewrite El. apply sched_pass2_first; [done| |done|done].
    intros j Hj. assert (j ∈ proc_ids) as [q Hq]%(proc_ids_lookup s j Hl) by (rewrite El; set_solver).
    exists q. split; [done|]. specialize (Hno j Hj). rewrite Hq in Hno. by destruct (runnable_at level q).
Qed.

(** ** The claims about scheduling *)

(** The MLFQ accounting of a timer tick: the tick is charged to the level of
    the process; within its quantum (2, 4, 8 or 16 ticks) the process stays;
    when the quantum is used up it moves one level down if it made fewer system
    calls than ticks in that time (never below level 3), and a new quantum
    starts. No other process is touched, and the accounting invariant is kept. *)
Theorem mlfq_tick_rule i p s :
  LProc i ∉ held s → procs s !! i = Some p → mlfq_ok p →
  0 ≤ p_temp p ≤ p_total_syscalls p → p_total_syscalls p < 2147483648 →
  ∃ p' t, mlfq_tick i s = Ok (tt, s <| procs := <[i := p']> (procs s) |>) ∧ mlfq_ok p' ∧
    znth (p_ticks_per_level p) (p_cur_q_level p) = Some t ∧
    p_ticks_per_level p' = zset (p_ticks_per_level p) (p_cur_q_level p) (i32 (t + 1)) ∧
    if p_ticks_at_cur_level p + 1 <? quantum_of (p_cur_q_level p) then
      p_cur_q_level p' = p_cur_q_level p ∧ p_ticks_at_cur_level p' = p_ticks_at_cur_level p + 1 ∧
      p_temp p' = p_temp p
    else
      p_ticks_at_cur_level p' = 0 ∧ p_temp p' = p_total_syscalls p ∧
      p_cur_q_level p' =
        if (p_total_syscalls p - p_temp p <? quantum_of (p_cur_q_level p)) && (p_cur_q_level p <? 3)
        then p_cur_q_level p + 1 else p_cur_q_level p.
Proof.
  intros Hh Hp Hok Ht Hs. destruct (mlfq_update_ok p Hok Ht Hs) as (p' & t & Eu & H).
  exists p', t. split; [by apply (mlfq_tick_run i p)|done].
Qed.

Lemma mlfq_update_syscalls p p' : mlfq_update p = Some p' → p_total_syscalls p' = p_total_syscalls p.
Proof.
  unfold mlfq_update. destruct (znth _ _); [|done]. simpl.
  destruct (_ <=? _); [|by intros [= <-]]. destruct (_ && _); by intros [= <-].
Qed.

(** The level and the ticks used at it after [n] ticks without a system call. *)
Definition sunk_level (n : Z) : Z := if n <? 2 then 0 else if n <? 6 then 1 else if n <? 14 then 2 else 3.
Definition sunk_ticks (n : Z) : Z :=
  if n <? 2 then n else if n <? 6 then n - 2 else if n <? 14 then n - 6 else (n - 14) mod 16.

Lemma sunk_step n : 0 ≤ n →
  (sunk_ticks n + 1 < quantum_of (sunk_level n) ∧ sunk_level (n + 1) = sunk_level n ∧ sunk_ticks (n + 1) = sunk_ticks n + 1) ∨
  (sunk_ticks n + 1 = quantum_of (sunk_level n) ∧ sunk_level (n + 1) = Z.min 3 (sunk_level n + 1) ∧ sunk_ticks (n + 1) = 0).
Proof.
  intros Hn. unfold sunk_ticks, sunk_level.
  destruct (Z.ltb_spec n 2), (Z.ltb_spec n 6), (Z.ltb_spec n 14), (Z.ltb_spec (n + 1) 2), (Z.ltb_spec (n + 1) 6),
    (Z.ltb_spec (n + 1) 14); try lia; unfold quantum_of; simpl;
  try (replace n with 13 by lia; simpl; lia); dlia.
Qed.

(** A process that only computes sinks: from a fresh quantum at level 0 and
    without a system call, it is at level 0 for 2 timer ticks, at level 1 for the
    next 4, at level 2 for the next 8, and at level 3 from then on. *)
Theorem cpu_bound_sinks i p s (n : nat) :
  LProc i ∉ held s → procs s !! i = Some p → p_cur_q_level p = 0 → p_ticks_at_cur_level p = 0 →
  zlen (p_ticks_per_level p) = 4 → p_temp p = p_total_syscalls p → 0 ≤ p_total_syscalls p < 2147483648 →
  ∃ p', for_each (λ _, mlfq_tick i) (seq 0 n) s = Ok (tt, s <| procs := <[i := p']> (procs s) |>) ∧
    p_cur_q_level p' = sunk_level (Z.of_nat n) ∧ p_ticks_at_cur_level p' = sunk_ticks (Z.of_nat n).
Proof.
  intros Hh Hp Hl Ht Hlen Htmp Hs.
  assert (∃ p', for_each (λ _, mlfq_tick i) (seq 0 n) s = Ok (tt, s <| procs := <[i := p']> (procs s) |>) ∧
    mlfq_ok p' ∧ p_cur_q_level p' = sunk_level (Z.of_nat n) ∧ p_ticks_at_cur_level p' = sunk_ticks (Z.of_nat n) ∧
    p_temp p' = p_total_syscalls p ∧ p_total_syscalls p' = p_total_syscalls p) as (p' & H); [|exists p'; naive_solver].
  induction n as [|n (p1 & E1 & Hok & Hl1 & Ht1 & Htmp1 & Hs1)].
  { exists p. rewrite Hl, Ht. split_and!; try done.
    - apply Ok_pair. kst_eq. by rewrite list_insert_id.
    - split; rewrite ?Hl, ?Ht; [lia|unfold quantum_of; simpl; lia|done]. }
  rewrite seq_S, for_each_app. erewrite bind_step by (exact E1). simpl.
  pose proof (lookup_lt_Some _ _ _ Hp) as Hlt.
  destruct (mlfq_update_ok p1 Hok) as (p2 & t & Eu & Hok2 & _ & _ & Hcase); [lia|lia|].
  erewrite bind_step by (apply (mlfq_tick_run i p1); [done|simpl; by apply list_lookup_insert_eq|done]).
  pose proof (mlfq_update_syscalls _ _ Eu) as Hs2.
  exists p2. split; [apply Ok_pair; kst_eq; by rewrite list_insert_insert_eq|]. split; [done|].
  rewrite Hl1, Ht1, Htmp1, Hs1 in Hcase. replace (Z.of_nat (S n)) with (Z.of_nat n + 1) by lia.
  destruct (sunk_step (Z.of_nat n)) as [(H1 & -> & ->)|(H1 & -> & ->)]; [lia| |].
  - destruct (Z.ltb_spec (sunk_ticks (Z.of_nat n) + 1) (quantum_of (sunk_level (Z.of_nat n)))); [|lia].
    destruct Hcase as (-> & -> & ->). split_and!; congruence.
  - destruct (Z.ltb_spec (sunk_ticks (Z.of_nat n) + 1) (quantum_of (sunk_level (Z.of_nat n)))); [lia|].
    destruct Hcase as (-> & -> & ->). split_and!; try congruence. rewrite Z.sub_diag.
    pose proof (mo_level _ Hok). pose proof (quantum_cases (sunk_level (Z.of_nat n))).
    destruct (Z.ltb_spec 0 (quantum_of (sunk_level (Z.of_nat n)))), (Z.ltb_spec (sunk_level (Z.of_nat n)) 3); simpl; lia.
Qed.

(** The boost that should stop starvation: [global_boost] puts every
    [RUNNABLE] process back at level 0 with a fresh quantum, and leaves every
    other process (sleeping, or running, the one that took the tick included)
    at its level; nothing else changes. *)
Theorem global_boost_runnable_only s :
  length (procs s) = Z.to_nat NPROC → (∀ i, LProc i ∉ held s) →
  ∃ s', global_boost s = Ok (tt, s') ∧ s' = s <| procs := procs s' |> ∧ length (procs s') = length (procs s) ∧
    ∀ i p, procs s !! i = Some p → ∃ p', procs s' !! i = Some p' ∧
      (p_state p = RUNNABLE → p_cur_q_level p' = 0 ∧ p_ticks_at_cur_level p' = 0 ∧ p_temp p' = p_total_syscalls p ∧
         p_state p' = RUNNABLE) ∧
      (p_state p ≠ RUNNABLE → p' = p).
Proof.
  intros Hlen Hh. eexists. split; [by apply global_boost_ok|]. split; [done|]. simpl. split; [apply length_fmap|].
  intros i p Hp. exists (boosted p). rewrite list_lookup_fmap, Hp. split; [done|]. unfold boosted.
  split; intros Hs; [by rewrite bool_decide_eq_true_2|by rewrite bool_decide_eq_false_2].
Qed.

(** ** Sleeping, waking, killing *)

Lemma sched_ok i p s : cur s = Some i → held s = {[LProc i]} → procs s !! i = Some p → p_state p ≠ RUNNING →
  sched s = Ok (tt, s).
Proof.
  intros Hc Hh Hp Hr. unfold sched. mget (cur s). erewrite bind_step by (by apply opt_ok). mget (held s).
  rewrite Hh, size_singleton. simpl. rewrite bool_decide_eq_true_2 by set_solver. simpl.
  erewrite bind_step by (by apply getp_ok). by rewrite bool_decide_eq_false_2.
Qed.

Lemma sleep_off_ok i p chan lk s :
  cur s = Some i → held s = {[lk]} → lk ≠ LProc i → procs s !! i = Some p →
  sleep_off chan lk s = Ok (tt, s <| held := {[LProc i]} |>
    <| procs := <[i := p <| p_chan := chan |> <| p_state := SLEEPING |>]> (procs s) |>).
Proof.
  intros Hc Hh Hlk Hp. unfold sleep_off. mget (cur s). erewrite bind_step by (by apply opt_ok).
  mstep acquire_ok; [|rewrite Hh; set_solver]. mstep release_ok; [|simpl; rewrite Hh; set_solver].
  erewrite bind_step by (by apply updp_ok). erewrite sched_ok.
  - apply Ok_pair. kst_eq. rewrite Hh. set_solver.
  - done.
  - simpl. rewrite Hh. set_solver.
  - simpl. apply list_lookup_insert_eq. by eapply lookup_lt_Some.
  - done.
Qed.
Lemma killed_ok i p s : LProc i ∉ held s → procs s !! i = Some p → killed i s = Ok (p_killed p, s).
Proof.
  intros Hh Hp. unfold killed. mstep acquire_ok; [|done]. erewrite bind_step by (by apply getp_ok).
  mstep release_ok; [|simpl; set_solver]. apply Ok_pair. kst_eq. by rewrite held_restore.
Qed.

(** Sleep and wakeup: a process that calls [sleep(chan, lk)] holding only
    [lk] is put to sleep on [chan], with [lk] released and only its own lock
    held over the switch; and from then on, whatever else happens meanwhile, a
    [wakeup(chan)] by another process makes it [RUNNABLE] and a wakeup of
    another channel leaves it asleep, with all its other fields intact. *)
Theorem sleep_until_wakeup i p chan lk s :
  cur s = Some i → held s = {[lk]} → lk ≠ LProc i → procs s !! i = Some p →
  sleep_off chan lk s = Ok (tt, s <| held := {[LProc i]} |>
    <| procs := <[i := p <| p_chan := chan |> <| p_state := SLEEPING |>]> (procs s) |>) ∧
  ∀ chan' s2 q, length (procs s2) = Z.to_nat NPROC → (∀ j, cur s2 ≠ Some j → LProc j ∉ held s2) →
    cur s2 ≠ Some i → procs s2 !! i = Some q → p_state q = SLEEPING → p_chan q = chan →
    ∃ s3, wakeup chan' s2 = Ok (tt, s3) ∧
      procs s3 !! i = Some (if decide (chan' = chan) then q <| p_state := RUNNABLE |> else q).
Proof.
  intros Hc Hh Hlk Hp. split; [by apply sleep_off_ok|].
  intros chan' s2 q Hl Hh2 Hc2 Hq Hst Hch. eexists. split; [by apply wakeup_ok|]. simpl.
  rewrite list_lookup_imap, Hq. simpl. unfold woken. f_equal. destruct (decide (chan' = chan)) as [->|Hne].
  - by rewrite bool_decide_eq_true_2.
  - rewrite bool_decide_eq_false_2; [done|]. naive_solver.
Qed.

(** A process killed: marked, and woken if it slept. *)
Definition kill_proc (p : proc) : proc :=
  (if bool_decide (p_state p = SLEEPING) then p <| p_state := RUNNABLE |> else p) <| p_killed := 1 |>.

(** The entry that [kkill] takes for [pid]: the first with that number. *)
Definition pid_entry (pid : Z) (ps : list proc) : option nat :=
  first_some (λ i, match ps !! i with Some p => if p_pid p =? pid then Some i else None | None => None end) proc_ids.

Lemma kkill_ok pid s : length (procs s) = Z.to_nat NPROC → (∀ i, LProc i ∉ held s) →
  kkill pid s = match pid_entry pid (procs s) with
    | Some i => match procs s !! i with
                | Some p => Ok (0, s <| procs := <[i := kill_proc p]> (procs s) |>) | None => Fault end
    | None => Ok (-1, s)
    end.
Proof.
  intros Hl Hh. unfold kkill, pid_entry, mbind at 1, M_bind at 1.
  erewrite (for_find_act _ (λ i, match procs s !! i with Some p => if p_pid p =? pid then Some i else None | None => None end)
    (λ _, 0) (λ i, match procs s !! i with
       | Some p => s <| procs := <[i := kill_proc p]> (procs s) |> | None => s end)).
  - destruct (first_some _ _) as [i|] eqn:E; [|done]. apply first_some_Some in E as (_ & j & _ & _ & Hj & _).
    destruct (procs s !! j) as [p|] eqn:Hp; [|done]. destruct (_ =? _); [|done]. injection Hj as <-. by rewrite Hp.
  - intros i [p Hp]%(proc_ids_lookup s i Hl). rewrite Hp. pose proof (lookup_lt_Some _ _ _ Hp) as Hlt.
    mstep acquire_ok; [|done]. erewrite bind_step by (by apply getp_ok). destruct (p_pid p =? pid).
    + erewrite bind_step by (by apply updp_ok).
      erewrite bind_step by (apply when_updp; simpl; by apply list_lookup_insert_eq).
      erewrite bind_step by (apply release_ok; simpl; set_solver). apply Ok_pair. rewrite Hp.
      kst_eq; [|by rewrite held_restore].
      rewrite list_insert_insert_eq. f_equal. unfold kill_proc. by destruct (bool_decide _).
    + erewrite bind_step by (apply release_ok; simpl; set_solver). apply Ok_pair. kst_eq. by rewrite held_restore.
Qed.
End rules.

(** ** A small machine *)

#[local] Existing Instances demo_layout no_disk.
#[local] Instance no_files : FileOps unit :=
  {| fo_filedup := mret; fo_fileclose _ := mret tt; fo_idup := mret; fo_iput _ := mret tt;
     fo_begin_op := mret tt; fo_end_op := mret tt; fo_namei_root := mret 1 |}.
(** Two runnable processes, of pids 1 and 2, at levels 0 and 1. *)
Definition demo_init : proc := proc0 <| p_state := RUNNABLE |> <| p_pid := 1 |>.
Definition demo_child : proc :=
  proc0 <| p_state := RUNNABLE |> <| p_pid := 2 |> <| p_cur_q_level := 1 |> <| p_parent := Some 0%nat |>.
Definition demo_table : kst unit :=
  MkK ∅ 0 [] [] 0 0 0 [] 0 0 0 0 0 [] [] 0 tt ([demo_init; demo_child] ++ replicate 62 proc0) (Some 0%nat) 3 0 None ∅.

Lemma demo_lookup i p : procs demo_table !! i = Some p →
  (i = 0%nat ∧ p = demo_init) ∨ (i = 1%nat ∧ p = demo_child) ∨ ((1 < i)%nat ∧ p = proc0).
Proof.
  destruct i as [|[|i]]; simpl; [intros [= <-]; auto|intros [= <-]; auto|].
  change (replicate 62 proc0 !! i = Some p → (S (S i) = 0%nat ∧ p = demo_init) ∨ (S (S i) = 1%nat ∧ p = demo_child) ∨
    ((1 < S (S i))%nat ∧ p = proc0)).
  intros [-> _]%lookup_replicate. right; right. split; [lia|done].
Qed.
Lemma demo_levels : Forall (λ p, 0 ≤ p_cur_q_level p ≤ 3) (procs demo_table).
Proof. apply Forall_lookup. intros i p [[_ ->]|[[_ ->]|[_ ->]]]%demo_lookup; simpl; lia. Qed.

Lemma scheduler_runs_highest_witness :
  ∃ i p, procs demo_table !! i = Some p ∧ p_pid p = 1 ∧
    ∀ run, ∃ k, scheduler_round run demo_table = (run i ≫= k) (dispatched demo_table i p).
Proof.
  destruct (scheduler_runs_highest demo_table) as [[H _]|(i & p & Hp & Hr & Hmin & Hrun)];
    [reflexivity|set_solver|apply demo_levels| |].
  - exfalso. apply (H 0%nat demo_init); reflexivity.
  - exists i, p. split_and!; [done| |done].
    apply demo_lookup in Hp as [[-> ->]|[[-> ->]|[_ ->]]]; [reflexivity| |discriminate].
    exfalso. specialize (Hmin 0%nat demo_init eq_refl eq_refl). vm_compute in Hmin. destruct Hmin as [|[]]; discriminate.
Defined.

(** The child, one tick before the end of its quantum. *)
Definition demo_late : kst unit :=
  demo_table <| procs ::= <[1%nat := demo_child <| p_ticks_at_cur_level := 3 |> <| p_total_syscalls := 3 |>]> |>.

Lemma mlfq_tick_rule_witness :
  ∃ p', mlfq_tick 1 demo_late = Ok (tt, demo_late <| procs ::= <[1%nat := p']> |>) ∧
    p_cur_q_level p' = 2 ∧ p_ticks_per_level p' = [0; 1; 0; 0] ∧ p_ticks_at_cur_level p' = 0.
Proof.
  destruct (mlfq_tick_rule 1 (demo_child <| p_ticks_at_cur_level := 3 |> <| p_total_syscalls := 3 |>) demo_late)
    as (p' & t & E & Hok & Ht & Hl & Hcase).
  - set_solver.
  - reflexivity.
  - split; [simpl; lia|vm_compute; split; [discriminate|reflexivity]|reflexivity].
  - simpl; lia.
  - simpl; lia.
  - exists p'. split; [exact E|]. vm_compute in Ht. injection Ht as <-. destruct Hcase as (H1 & H2 & H3).
    split_and!; [rewrite H3; reflexivity|rewrite Hl; reflexivity|exact H1].
Defined.

Lemma cpu_bound_sinks_witness :
  ∃ p', for_each (λ _, mlfq_tick 0) (seq 0 14) demo_table = Ok (tt, demo_table <| procs ::= <[0%nat := p']> |>) ∧
    p_cur_q_level p' = 3 ∧ p_ticks_at_cur_level p' = 0.
Proof.
  apply (cpu_bound_sinks 0 demo_init demo_table 14); try reflexivity; [set_solver|simpl; lia].
Defined.

Lemma global_boost_runnable_only_witness :
  ∃ s', global_boost (demo_late <| procs ::= <[0%nat := demo_init <| p_state := RUNNING |> <| p_cur_q_level := 3 |>]> |>)
      = Ok (tt, s') ∧
    p_cur_q_level <$> (procs s' !! 0%nat) = Some 3 ∧ p_cur_q_level <$> (procs s' !! 1%nat) = Some 0.
Proof.
  destruct (global_boost_runnable_only
    (demo_late <| procs ::= <[0%nat := demo_init <| p_state := RUNNING |> <| p_cur_q_level := 3 |>]> |>))
    as (s' & E & _ & _ & H); [reflexivity|set_solver|].
  exists s'. split; [exact E|].
  destruct (H 0%nat (demo_init <| p_state := RUNNING |> <| p_cur_q_level := 3 |>)) as (p0 & -> & _ & Hn); [reflexivity|].
  destruct (H 1%nat (demo_child <| p_ticks_at_cur_level := 3 |> <| p_total_syscalls := 3 |>)) as (p1 & -> & Hr & _);
    [reflexivity|].
  rewrite Hn by discriminate. destruct Hr as [Hr _]; [reflexivity|]. simpl. rewrite Hr. split; reflexivity.
Defined.

(** Process 1 running, holding the tick lock. *)
Definition demo_running : kst unit :=
  demo_table <| procs ::= <[1%nat := demo_child <| p_state := RUNNING |>]> |> <| cur := Some 1%nat |> <| held := {[LTicks]} |>.

Lemma sleep_until_wakeup_witness :
  ∃ s1 s2, sleep_off ChTicks LTicks demo_running = Ok (tt, s1) ∧
    wakeup ChTicks (s1 <| cur := None |> <| held := ∅ |>) = Ok (tt, s2) ∧
    p_state <$> (procs s1 !! 1%nat) = Some SLEEPING ∧ p_state <$> (procs s2 !! 1%nat) = Some RUNNABLE.
Proof.
  destruct (sleep_until_wakeup 1 (demo_child <| p_state := RUNNING |>) ChTicks LTicks demo_running) as [E H];
    [reflexivity|reflexivity|discriminate|reflexivity|].
  eexists. destruct (H ChTicks ((demo_running <| held := {[LProc 1]} |> <| procs := <[1%nat :=
      demo_child <| p_state := RUNNING |> <| p_chan := ChTicks |> <| p_state := SLEEPING |>]> (procs demo_running) |>)
      <| cur := None |> <| held := ∅ |>)
    (demo_child <| p_state := RUNNING |> <| p_chan := ChTicks |> <| p_state := SLEEPING |>)) as (s2 & E2 & Hs2);
    [reflexivity|set_solver|discriminate|reflexivity|reflexivity|reflexivity|].
  exists s2. split; [exact E|]. split; [exact E2|]. split; [reflexivity|]. by rewrite Hs2.
Defined.
