(* ===== verification/PTable.v ===== *)
(** * The process table over whole turns of the scheduler

    An invariant of [proc[NPROC]] (distinct pids, valid MLFQ levels, at most one
    running process), and that every piece of process code keeps it: what
    [proc.c] does itself, and anything that leaves processes alone. *)

From stdpp Require Import base numbers list gmap strings.
From S2P Require Import Prelude Machine KState Disk Raid Kalloc Evict VM Frame Proc ProcProps.
Open Scope Z_scope.
Open Scope kernel_scope.

(** What the invariant says of the process at index [i], when [pid]s below [np]
    have been given out and process [c] has the CPU. *)
Record row_ok (np : Z) (c : option nat) (i : nat) (p : proc) : Prop := {
  ro_level : 0 ≤ p_cur_q_level p ≤ 3;
  ro_unused : p_state p = UNUSED → p_pid p = 0;
  ro_pid : p_state p ≠ UNUSED → 1 ≤ p_pid p < np;
  ro_running : p_state p = RUNNING → c = Some i;
}.

(** The invariant; [k] more processes can be created before [nextpid] overflows. *)
Record table_ok {D} (k : nat) (s : kst D) : Prop := {
  to_len : length (procs s) = Z.to_nat NPROC;
  to_next : 1 ≤ nextpid s ∧ nextpid s + Z.of_nat k < 2147483648;
  to_rows i p : procs s !! i = Some p → row_ok (nextpid s) (cur s) i p;
  to_pids i j p q : procs s !! i = Some p → procs s !! j = Some q →
    p_state p ≠ UNUSED → p_state q ≠ UNUSED → p_pid p = p_pid q → i = j;
}.

(** Processes known to be running ([true]) or just to be in use ([false]). *)
Definition pin (b : bool) (p : proc) : Prop := if b then p_state p = RUNNING else p_state p ≠ UNUSED.
Definition pinned {D} (X : list (nat * bool)) (s : kst D) : Prop :=
  ∀ i b, (i, b) ∈ X → ∃ p, procs s !! i = Some p ∧ pin b p.

(** Code that keeps the invariant, and [nextpid], [cur] and the states of the
    processes of [X] with it. *)
Record table_step {D} (X : list (nat * bool)) (s s' : kst D) : Prop := {
  ts_next : nextpid s' = nextpid s;
  ts_cur : cur s' = cur s;
  ts_ok k : table_ok k s → pinned X s → table_ok k s' ∧ pinned X s';
}.
#[export] Instance table_step_preorder {D} X : PreOrder (@table_step D X).
Proof. split; [done|]. intros s1 s2 s3 [] []. split; [congruence..|naive_solver]. Qed.

(** A change of one process that the invariant allows. *)
Definition row_step (p p' : proc) : Prop :=
  (0 ≤ p_cur_q_level p ≤ 3 → 0 ≤ p_cur_q_level p' ≤ 3) ∧
  (p_state p' = RUNNING → p_state p = RUNNING) ∧
  ((p_state p' = UNUSED ∧ (p_pid p' = 0 ∨ (p_state p = UNUSED ∧ p_pid p' = p_pid p))) ∨
   (p_state p' ≠ UNUSED ∧ p_state p ≠ UNUSED ∧ p_pid p' = p_pid p)).

Lemma row_step_ok np c i p p' : row_step p p' → row_ok np c i p → row_ok np c i p'.
Proof.
  intros (Hl & Hr & Hs) []. split; [by auto| | |by auto].
  - intros Hu. destruct Hs as [(_ & [?|(H1 & H2)])|(H1 & _)]; [done| |done]. rewrite H2. auto.
  - intros Hu. destruct Hs as [(H1 & _)|(_ & H1 & H2)]; [done|]. rewrite H2. auto.
Qed.

Lemma row_step_refl p : row_step p p.
Proof. unfold row_step. destruct (decide (p_state p = UNUSED)); split_and!; auto. Qed.
Lemma row_step_same p p' : p_state p' = p_state p → p_pid p' = p_pid p →
  (0 ≤ p_cur_q_level p ≤ 3 → 0 ≤ p_cur_q_level p' ≤ 3) → row_step p p'.
Proof.
  intros E1 E2 E3. unfold row_step. rewrite E1, E2. split; [done|]. split; [done|].
  destruct (decide (p_state p = UNUSED)); auto.
Qed.
Lemma row_step_freed p p' : p_state p' = UNUSED → p_pid p' = 0 → p_cur_q_level p' = p_cur_q_level p → row_step p p'.
Proof. intros E1 E2 E3. unfold row_step. rewrite E1, E2, E3. split; [done|]. split; [done|]. auto. Qed.
(** Moving on from a state other than [UNUSED] to a state other than it and [RUNNING]. *)
Lemma row_step_move p p' : p_state p ≠ UNUSED → p_state p' ≠ UNUSED → p_state p' ≠ RUNNING →
  p_pid p' = p_pid p → p_cur_q_level p' = p_cur_q_level p → row_step p p'.
Proof. intros E1 E2 E3 E4 E5. unfold row_step. rewrite E5. split; [done|]. split; [done|]. auto. Qed.

(** What the file layer promises to [proc.c]: it leaves processes alone, but for
    waking up some of those asleep. *)
Definition roused (p p' : proc) : Prop :=
  core p' = core p ∨ (p_state p = SLEEPING ∧ core p' = core (p <| p_state := RUNNABLE |>)).
Record woken {D} (s s' : kst D) : Prop := {
  wk_procs : Forall2 roused (procs s) (procs s');
  wk_cur : cur s' = cur s;
  wk_initproc : initproc s' = initproc s;
  wk_nextpid : nextpid s' = nextpid s;
  wk_ticks : ticks s' = ticks s;
}.
Class FileOpsLaws (D : Type) `{!FileOps D} := {
  fl_filedup f : keeps woken (fo_filedup f);
  fl_fileclose f : keeps woken (fo_fileclose f);
  fl_idup ip : keeps woken (fo_idup ip);
  fl_iput ip : keeps woken (fo_iput ip);
  fl_begin_op : keeps woken fo_begin_op;
  fl_end_op : keeps woken fo_end_op;
  fl_namei_root : keeps woken fo_namei_root;
}.
#[export] Hint Resolve fl_filedup fl_fileclose fl_idup fl_iput fl_begin_op fl_end_op fl_namei_root : keeps.

Lemma roused_trans p q r : roused p q → roused q r → roused p r.
Proof.
  assert (∀ p q, core p = core q → p_state p = p_state q ∧
    core (p <| p_state := RUNNABLE |>) = core (q <| p_state := RUNNABLE |>)) as Hc by (intros [] [] [=]; by subst).
  intros [E1|[S1 E1]] [E2|[S2 E2]].
  - left. congruence.
  - right. apply Hc in E1 as [E1 E1']. split; congruence.
  - right. split; congruence.
  - exfalso. apply Hc in E1 as [E1 _]. simpl in E1. congruence.
Qed.
#[export] Instance woken_preorder {D} : PreOrder (@woken D).
Proof.
  split; [intros s; split; try done; apply Forall2_same_length_lookup; split; [done|]; intros i p q Hp Hq; left; congruence|].
  intros s1 s2 s3 [] []. split; try congruence. eapply Forall2_trans; [|done..]. exact roused_trans.
Qed.
Lemma same_procs_woken {D} (s s' : kst D) : same_procs s s' → woken s s'.
Proof.
  intros Hs. destruct (Hs) as [Hp ? ? ? ?]. split; try done. apply Forall2_same_length_lookup. split.
  - apply (f_equal length) in Hp. by rewrite !length_fmap in Hp.
  - intros i p q Hi Hq. destruct (same_procs_lookup _ _ _ _ Hs Hi) as (q' & Hq' & E). left. congruence.
Qed.

Section table.
Context {D : Type} `{!BlockStore D, !FileOps D, !FileOpsLaws D} {L : Layout}.
Implicit Types s : kst D.
Abbreviation Keeps X := (keeps (@table_step D X)).

Lemma table_ok_insert k s i p p' :
  procs s !! i = Some p → row_step p p' → table_ok k s → table_ok k (s <| procs := <[i := p']> (procs s) |>).
Proof.
  intros Hp Hstep [Hlen Hn Hrow Hpid]. pose proof (lookup_lt_Some _ _ _ Hp) as Hlt.
  assert (∀ j q, <[i := p']> (procs s) !! j = Some q →
    ∃ q0, procs s !! j = Some q0 ∧ row_step q0 q) as Hback.
  { intros j q. destruct (decide (i = j)) as [<-|Hne].
    - rewrite list_lookup_insert_eq by done. intros [= <-]. eauto.
    - rewrite list_lookup_insert_ne by done. intros Hq. exists q. split; [done|]. apply row_step_refl. }
  split; simpl; [by rewrite length_insert|done| |].
  - intros j q (q0 & Hq0 & Hst)%Hback. eauto using row_step_ok.
  - intros j1 j2 q1 q2 (p1 & Hp1 & S1)%Hback (p2 & Hp2 & S2)%Hback N1 N2 E.
    destruct S1 as (_ & _ & [(? & _)|(_ & ? & E1)]); [done|].
    destruct S2 as (_ & _ & [(? & _)|(_ & ? & E2)]); [done|].
    apply (Hpid j1 j2 p1 p2); auto; congruence.
Qed.

Lemma pinned_insert X s i p p' :
  procs s !! i = Some p → (∀ b, (i, b) ∈ X → pin b p → pin b p') →
  pinned X s → pinned X (s <| procs := <[i := p']> (procs s) |>).
Proof.
  intros Hp Hs HX j b Hj. destruct (HX j b Hj) as (q & Hq & Hst). simpl. destruct (decide (i = j)) as [<-|].
  - rewrite list_lookup_insert_eq by (by eapply lookup_lt_Some). exists p'. split; [done|].
    apply Hs; [done|congruence].
  - rewrite list_lookup_insert_ne by done. eauto.
Qed.

Lemma getp_inv i s p s' : getp i s = Ok (p, s') → procs s !! i = Some p ∧ s' = s.
Proof. unfold getp. intros E. minv E. injection E0 as <- <-. destruct (procs s !! i); [|done]. by injection E as -> ->. Qed.

(** Updating process [i], which [c] holds of, under the condition [c]. *)
Lemma tkeeps_look_updp {A} X i c f (m : proc → M (kst D) A) :
  (∀ p, c p = true → (∀ b, (i, b) ∈ X → pin b p) →
     row_step p (f p) ∧ (∀ b, (i, b) ∈ X → pin b (f p))) →
  (∀ p, Keeps X (m p)) →
  Keeps X (p ← getp i; when (c p) (updp i f) ;; m p).
Proof.
  intros Hf Hm s a s' E. apply bind_Ok_inv in E as (p & ? & [Hp ->]%getp_inv & E). minv E.
  transitivity s0; [|by eapply Hm]. destruct (c p) eqn:Ec; [|by injection E0 as _ <-].
  simpl in E0. erewrite updp_ok in E0 by done. injection E0 as _ <-. split; [done|done|]. intros k Ht HX.
  destruct (Hf p Ec) as [H1 H2]; [intros b Hb; destruct (HX i b Hb) as (? & ? & ?); congruence|].
  split; [by eapply table_ok_insert|eapply pinned_insert; eauto].
Qed.
Lemma tkeeps_updp X i f :
  (∀ p, (∀ b, (i, b) ∈ X → pin b p) →
     row_step p (f p) ∧ (∀ b, (i, b) ∈ X → pin b (f p))) →
  Keeps X (updp i f).
Proof.
  intros Hf s a s' E. destruct (procs s !! i) as [p|] eqn:Hp.
  - apply (tkeeps_look_updp X i (λ _, true) f (λ _, mret a)) with (a := a); [auto|intros; apply keeps_ret, _|].
    erewrite bind_step by (by apply getp_ok). simpl. unfold mbind, M_bind. by rewrite E.
  - unfold updp in E. minv E. injection E0 as <- <-. by rewrite Hp in E.
Qed.
Lemma tkeeps_updp_state X i f : (∀ p, row_step p (f p) ∧ p_state (f p) = p_state p) → Keeps X (updp i f).
Proof.
  intros H. apply tkeeps_updp. intros p HX. destruct (H p) as [? E]. split; [done|].
  intros b Hb. specialize (HX b Hb). destruct b; simpl in *; congruence.
Qed.

(** What leaves processes alone, or wakes them up, keeps the invariant. *)
Lemma roused_row p q : roused p q →
  row_step p q ∧ (p_state p ≠ UNUSED ↔ p_state q ≠ UNUSED) ∧ (p_state p = RUNNING ↔ p_state q = RUNNING).
Proof.
  assert (∀ p q, core p = core q → p_state p = p_state q ∧ p_pid p = p_pid q ∧ p_cur_q_level p = p_cur_q_level q) as Hcore
    by (intros [] [] [=]; done).
  intros [(E1 & E2 & E3)%Hcore|[S (E1 & E2 & E3)%Hcore]]; simpl in *.
  - rewrite E1. split; [|done]. apply row_step_same; [done..|]. lia.
  - rewrite E1, S. split; [|split; done]. apply row_step_move; rewrite ?E1, ?S; done || congruence.
Qed.
Lemma woken_table X s s' : woken s s' → table_step X s s'.
Proof.
  intros [Hps Hc Hi Hn Ht]. split; [done|done|]. intros k [Hlen Hnx Hrow Hpid] HX.
  assert (∀ j q, procs s' !! j = Some q → ∃ q0, procs s !! j = Some q0 ∧ roused q0 q) as Hback.
  { intros j q Hq. eapply Forall2_lookup_r in Hps as (q0 & Hq0 & H); [|done]. eauto. }
  split.
  - split; rewrite ?Hn, ?Hc; [|done| |].
    + by rewrite <-(Forall2_length _ _ _ Hps).
    + intros j q (q0 & Hq0 & (H & _)%roused_row)%Hback. eapply row_step_ok; eauto.
    + intros j1 j2 q1 q2 (p1 & Hp1 & (S1 & U1 & _)%roused_row)%Hback (p2 & Hp2 & (S2 & U2 & _)%roused_row)%Hback N1 N2 E.
      apply (Hpid j1 j2 p1 p2); [done|done|by apply U1|by apply U2|].
      destruct S1 as (_ & _ & [(? & _)|(_ & _ & E1)]); [done|]. destruct S2 as (_ & _ & [(? & _)|(_ & _ & E2)]); [done|]. congruence.
  - intros i b Hib. destruct (HX i b Hib) as (p & Hp & Hst). eapply Forall2_lookup_l in Hps as (q & Hq & H); [|done].
    exists q. split; [done|]. apply roused_row in H as (_ & U & R). destruct b; simpl in *; [by apply R|by apply U].
Qed.
Lemma same_procs_table X s s' : same_procs s s' → table_step X s s'.
Proof. intros H. apply woken_table. by apply same_procs_woken. Qed.
Lemma tkeeps_woken {A} X (m : M (kst D) A) : keeps woken m → Keeps X m.
Proof. intros H s a s' E. apply woken_table. by eapply H. Qed.
Lemma tkeeps_mem {A} X (m : M (kst D) A) : keeps same_procs m → Keeps X m.
Proof. intros H s a s' E. apply same_procs_table. by eapply H. Qed.

#[local] Hint Extern 2 (keeps (table_step _) _) => apply tkeeps_mem; solve [eauto 2 with keeps] : keeps.
#[local] Hint Extern 3 (keeps (table_step _) _) => apply tkeeps_woken; solve [eauto 2 with keeps] : keeps.
#[local] Hint Extern 1 (keeps _ (updp _ _)) =>
  apply tkeeps_updp_state; intros ?; split; [apply row_step_same; done|done] : keeps.

Lemma tkeeps_setf_initproc X v : Keeps X (setf initproc v).
Proof. apply keeps_modify. intros s. split; [done|done|]. intros k [] ?. by split. Qed.

Lemma tkeeps_proc_pagetable X i : Keeps X (proc_pagetable i).
Proof. unfold proc_pagetable. keeps_solve. Qed.
Lemma tkeeps_proc_freepagetable X pt sz : Keeps X (proc_freepagetable pt sz).
Proof. unfold proc_freepagetable. keeps_solve. Qed.
#[local] Hint Resolve tkeeps_proc_pagetable tkeeps_proc_freepagetable tkeeps_setf_initproc : keeps.
Lemma tkeeps_freeproc X i : (∀ b, (i, b) ∉ X) → Keeps X (freeproc i).
Proof.
  intros HX. unfold freeproc. keeps_solve. apply tkeeps_updp. intros p _.
  split; [by apply row_step_freed|]. intros b []%HX.
Qed.

Lemma tkeeps_wakeup X chan : Keeps X (wakeup chan).
Proof.
  unfold wakeup. apply keeps_for_each; [exact _|]. intros i. keeps_step; [keeps_step|].
  destruct (bool_decide _); [keeps_step|]. apply keeps_bind; [exact _|keeps_step|intros _].
  apply (tkeeps_look_updp X i (λ p, bool_decide (p_state p = SLEEPING ∧ p_chan p = chan))
    (λ p, p <| p_state := RUNNABLE |>) (λ _, release (LProc i))); [|intros; keeps_step].
  intros p [Hs _]%bool_decide_eq_true HX. split.
  - apply row_step_move; [congruence|done..].
  - intros [] Hb; specialize (HX _ Hb); simpl in *; congruence.
Qed.

Lemma mlfq_update_row p p' : mlfq_update p = Some p' → row_step p p' ∧ p_state p' = p_state p.
Proof.
  unfold mlfq_update. destruct (znth _ _) as [t|]; [|done]. simpl.
  destruct (_ <=? _); [destruct (_ && _) eqn:E|]; intros [= <-]; (split; [apply row_step_same|]); simpl; try done; lia.
Qed.
Lemma tkeeps_mlfq_tick X i : Keeps X (mlfq_tick i).
Proof.
  unfold mlfq_tick. apply keeps_bind; [exact _|keeps_step|intros _].
  intros s a s' E. apply bind_Ok_inv in E as (p & ? & [Hp ->]%getp_inv & E). minv E.
  destruct (mlfq_update p) as [p'|] eqn:Eu; [|done]. injection E0 as <- <-. minv E.
  transitivity s0; [|by eapply same_procs_table, keeps_release]. erewrite updp_ok in E0 by done. injection E0 as _ <-.
  destruct (mlfq_update_row _ _ Eu) as [H1 H2].
  split; [done|done|]. intros k Ht HX. split; [by eapply table_ok_insert|].
  eapply pinned_insert; [done| |done]. intros []; simpl; congruence.
Qed.

Lemma tkeeps_global_boost X : Keeps X global_boost.
Proof.
  unfold global_boost, boost1. keeps_solve.
Qed.

Lemma tkeeps_kkill X pid : Keeps X (kkill pid).
Proof.
  unfold kkill. keeps_step; [|keeps_step]. apply keeps_for_find; [exact _|]. intros i.
  apply keeps_bind; [exact _|keeps_step|intros _]. intros s a s' E. apply bind_Ok_inv in E as (p & ? & [Hp ->]%getp_inv & E).
  destruct (_ =? _); [|by revert E; apply (keeps_bind _ _ _); [apply tkeeps_mem, keeps_release|intros; apply keeps_ret, _]].
  minv E. erewrite updp_ok in E0 by done. injection E0 as _ <-. minv E.
  set (p1 := p <| p_killed := 1 |>) in *. set (s1 := s <| procs := _ |>) in *.
  assert (procs s1 !! i = Some p1) as Hp1 by (apply list_lookup_insert_eq; by eapply lookup_lt_Some).
  transitivity s1; [split; [done|done|]; intros k Ht HX; split;
    [by apply (table_ok_insert _ _ _ p); [|apply row_step_same|]|by apply (pinned_insert _ _ _ p)]|].
  transitivity s0.
  - erewrite when_updp in E0 by done. injection E0 as _ <-. split; [done|done|]. intros k Ht HX. split.
    + apply (table_ok_insert k s1 i p1); [done| |done]. destruct (bool_decide _) eqn:Eb; [|apply row_step_refl].
      apply bool_decide_eq_true in Eb. apply row_step_move; [simpl; congruence|done..].
    + apply (pinned_insert X s1 i p1); [done| |done]. intros b _. destruct (bool_decide _) eqn:Eb; [|done].
      apply bool_decide_eq_true in Eb. destruct b; simpl; congruence.
  - revert E. apply (keeps_bind _ _ _); [apply tkeeps_mem, keeps_release|intros; apply keeps_ret, _].
Qed.

Lemma tkeeps_setkilled X i : Keeps X (setkilled i).
Proof. unfold setkilled. keeps_solve. Qed.
Lemma tkeeps_killed X i : Keeps X (killed i).
Proof. unfold killed. keeps_solve. Qed.
Lemma tkeeps_growproc X n : Keeps X (growproc n).
Proof. unfold growproc. keeps_solve. Qed.
#[local] Hint Resolve tkeeps_wakeup tkeeps_killed : keeps.
Lemma tkeeps_reparent X i : Keeps X (reparent i).
Proof. unfold reparent. keeps_solve. Qed.
Lemma tkeeps_sched X : Keeps X sched.
Proof. unfold sched. keeps_solve. Qed.

(** ** Creating a process *)

(** Only the locks differ. *)
Definition lock_step s s' : Prop := ∃ h, s' = s <| held := h |>.
#[local] Instance lock_step_preorder : PreOrder lock_step.
Proof.
  split; [intros s; exists (held s); by rewrite kst_held_id|].
  intros s1 s2 s3 [h ->] [h' ->]. by exists h'.
Qed.
Lemma lkeeps_acquire lk : keeps lock_step (acquire lk).
Proof. unfold acquire. keeps_solve. apply keeps_modify. intros s. by eexists. Qed.
Lemma lkeeps_release lk : keeps lock_step (release lk).
Proof. unfold release. keeps_solve. apply keeps_modify. intros s. by eexists. Qed.
Lemma lkeeps_getp i : keeps lock_step (getp i).
Proof. unfold getp. keeps_solve. Qed.
#[local] Hint Resolve lkeeps_acquire lkeeps_release lkeeps_getp : keeps.

Lemma find_unused_inv s r s' : find_unused s = Ok (r, s') →
  lock_step s s' ∧ match r with Some i => ∃ p, procs s !! i = Some p ∧ p_state p = UNUSED | None => True end.
Proof.
  intros E. split; [revert E; assert (keeps lock_step find_unused) as H by (unfold find_unused; keeps_solve); apply H|].
  revert s E. unfold find_unused. induction proc_ids as [|i l IH]; simpl; intros s E; [by injection E as <-|].
  minv E. minv E0. assert (lock_step s s1) as [h1 E1'] by (by eapply lkeeps_acquire).
  apply bind_Ok_inv in E0 as (p & ? & [Hp ->]%getp_inv & E0). case_bool_decide as Hs.
  - injection E0 as <- <-. injection E as <- <-. exists p. by subst s1.
  - minv E0. injection E0 as <- <-. assert (lock_step s1 s2) as [h2 E2'] by (by eapply lkeeps_release).
    apply IH in E. destruct r as [j|]; [|done]. by subst s2 s1.
Qed.

Lemma allocpid_inv s pid s' : allocpid s = Ok (pid, s') →
  pid = nextpid s ∧ ∃ h, s' = s <| held := h |> <| nextpid := i32 (nextpid s + 1) |>.
Proof.
  unfold allocpid. intros E. minv E. apply lkeeps_acquire in E0 as [h ->]. minv E. injection E0 as <- <-.
  minv E. injection E0 as _ <-. minv E. apply lkeeps_release in E0 as [h' ->]. injection E as <- <-.
  split; [done|]. by exists h'.
Qed.

Lemma table_ok_fresh k s i p h :
  table_ok (S k) s → procs s !! i = Some p → p_state p = UNUSED →
  table_ok k (s <| held := h |> <| nextpid := i32 (nextpid s + 1) |> <| procs := <[i := fresh_proc (nextpid s) p]> (procs s) |>).
Proof.
  intros [Hlen [Hn Hk] Hrow Hpid] Hp Hu. rewrite i32_id by lia.
  assert (∀ j q, <[i := fresh_proc (nextpid s) p]> (procs s) !! j = Some q →
    (j = i ∧ q = fresh_proc (nextpid s) p) ∨ (j ≠ i ∧ procs s !! j = Some q)) as Hback.
  { intros j q. destruct (decide (i = j)) as [<-|]; [|by rewrite list_lookup_insert_ne by done; auto].
    rewrite list_lookup_insert_eq by (by eapply lookup_lt_Some). intros [= <-]. auto. }
  split; simpl; [by rewrite length_insert|lia| |].
  - intros j q [[-> ->]|[Hj Hq]]%Hback; [split; simpl; done || lia|].
    destruct (Hrow j q Hq) as [? ? H3 ?]. split; auto. intros ?%H3. lia.
  - intros j1 j2 q1 q2 [[-> ->]|[Hj1 Hq1]]%Hback [[-> ->]|[Hj2 Hq2]]%Hback; simpl; intros N1 N2 E; try done.
    + pose proof (ro_pid _ _ _ _ (Hrow _ _ Hq2) N2). lia.
    + pose proof (ro_pid _ _ _ _ (Hrow _ _ Hq1) N1). lia.
    + eauto.
Qed.

Lemma pinned_weaken X Y s : X ⊆ Y → pinned Y s → pinned X s.
Proof. intros H HY i b Hib. eauto. Qed.

Lemma allocproc_table X k s r s' : allocproc s = Ok (r, s') → table_ok (S k) s → pinned X s →
  cur s' = cur s ∧ table_ok k s' ∧ pinned X s' ∧
  match r with Some np => pinned ((np, false) :: X) s' ∧ ∀ b, (np, b) ∉ X | None => True end.
Proof.
  unfold allocproc. intros E Ht HX. minv E. apply find_unused_inv in E0 as [[h0 ->] Hu].
  destruct a as [i|].
  2: { injection E as <- <-. split; [done|]. split; [|done]. destruct Ht as [? [] ? ?]. split; simpl; auto. lia. }
  destruct Hu as (p & Hp & Hu). minv E. apply allocpid_inv in E0 as [-> [h1 ->]].
  minv E. erewrite updp_ok in E0 by done. injection E0 as _ <-.
  pose proof (table_ok_fresh k s i p h1 Ht Hp Hu) as Ht1.
  assert (∀ b, (i, b) ∉ X) as Hi by (intros b Hb; destruct (HX i b Hb) as (q & Hq & Hst); destruct b; simpl in Hst; congruence).
  set (s1 := s <| held := h1 |> <| nextpid := _ |> <| procs := _ |>) in *.
  assert (pinned ((i, false) :: X) s1) as HX1.
  { intros j b [[= -> ->]|Hj]%elem_of_cons.
    - exists (fresh_proc (nextpid s) p). split; [|done]. apply list_lookup_insert_eq. by eapply lookup_lt_Some.
    - destruct (HX j b Hj) as (q & Hq & Hst). exists q. split; [|done]. simpl. rewrite list_lookup_insert_ne; [done|].
      intros <-. by destruct (Hi b). }
  assert (table_step X s1 s' ∧ (r = None ∨ (r = Some i ∧ table_step ((i, false) :: X) s1 s'))) as [H1 H2].
  { split.
    - pose proof (tkeeps_freeproc X i Hi). revert E.
      match goal with |- ?m _ = _ → _ => assert (Keeps X m) as H1; [keeps_solve|exact (H1 _ r s')] end.
    - minv E. minv E. minv E.
      assert (table_step ((i, false) :: X) s1 s3) as H1.
      { transitivity s0; [by eapply same_procs_table, keeps_release|].
        transitivity s2; [by eapply same_procs_table, keeps_kalloc|].
        revert E2. apply tkeeps_updp_state. intros q. split; [by apply row_step_same|done]. }
      destruct (_ =? 0); [left; minv E; minv E; minv E; by injection E as <-|].
      minv E. minv E.
      destruct (_ =? 0); [left; minv E; minv E; minv E; by injection E as <-|]. minv E. minv E.
      injection E as <- <-. right. split; [done|]. etrans; [exact H1|].
      etrans; [by eapply tkeeps_proc_pagetable|]. etrans; [|etrans; [by eapply same_procs_table, keeps_acquire|]];
        [revert E4|revert E6]; apply tkeeps_updp_state; intros q; (split; [by apply row_step_same|done]). }
  destruct (ts_ok _ _ _ H1 _ Ht1) as [Ht2 HX2]; [eapply pinned_weaken; [|done]; set_solver|].
  split; [by rewrite (ts_cur _ _ _ H1)|]. split; [done|]. split; [done|].
  destruct H2 as [->|[-> H2]]; [done|]. split; [|done]. by apply (ts_ok _ _ _ H2 k).
Qed.

(** The state of a process in use changes, but not to [UNUSED] or [RUNNING]. *)
Lemma tkeeps_updp_move X i f :
  (i, false) ∈ X → (∀ b, (i, b) ∈ X → b = false) →
  (∀ p, p_state (f p) ≠ UNUSED ∧ p_state (f p) ≠ RUNNING ∧ p_pid (f p) = p_pid p ∧
        p_cur_q_level (f p) = p_cur_q_level p) →
  Keeps X (updp i f).
Proof.
  intros Hi Hb Hf. apply tkeeps_updp. intros p Hp. destruct (Hf p) as (H1 & H2 & H3 & H4).
  specialize (Hp false Hi). split; [by apply row_step_move|]. intros b ->%Hb. done.
Qed.

Lemma kfork_table X k s r s' : kfork s = Ok (r, s') → table_ok (S k) s → pinned X s →
  cur s' = cur s ∧ table_ok k s' ∧ pinned X s'.
Proof.
  unfold kfork. intros E Ht HX. minv E. injection E0 as <- <-. minv E.
  destruct (cur s) as [i|] eqn:Ec; [|done]. injection E0 as <- <-. minv E.
  rewrite <-Ec. apply (allocproc_table X k) in E0 as (<- & Ht0 & HX0 & Hr); [|done..].
  destruct a as [np|]; [|by injection E as _ <-]. destruct Hr as [HXn Hn].
  minv E. minv E. minv E. minv E.
  assert (∀ Y, table_step Y s0 s4) as Hst.
  { intros Y. apply same_procs_table. etrans; [by eapply keeps_release|]. etrans; [by eapply keeps_getp|].
    etrans; [by eapply keeps_getp|]. by eapply keeps_uvmcopy. }
  clear E0 E1 E2 E3. destruct (_ <? 0).
  - assert (table_step X s0 s') as H1.
    { etrans; [by apply Hst|]. pose proof (tkeeps_freeproc X np Hn).
      revert E. match goal with |- ?m _ = _ → _ => assert (Keeps X m) as H1; [keeps_solve|exact (H1 _ r s')] end. }
    destruct (ts_ok _ _ _ H1 k); [done..|]. split; [by apply (ts_cur _ _ _ H1)|done].
  - assert (table_step ((np, false) :: X) s0 s') as H1.
    { etrans; [by apply Hst|]. revert E.
      match goal with |- ?m _ = _ → _ => assert (Keeps ((np, false) :: X) m) as H1; [|exact (H1 _ r s')] end.
      keeps_solve. apply tkeeps_updp_move; [set_solver| |done].
      intros b [[= ->]|Hb]%elem_of_cons; [done|]. by destruct (Hn b). }
    destruct (ts_ok _ _ _ H1 k) as [? HX1]; [done..|]. split; [by apply (ts_cur _ _ _ H1)|].
    split; [done|]. eapply pinned_weaken; [|done]. set_solver.
Qed.

(** ** Killing *)

Lemma pid_entry_Some pid ps i : pid_entry pid ps = Some i →
  ∃ p, ps !! i = Some p ∧ p_pid p = pid ∧
    ∀ j q, (j < i)%nat → (j < Z.to_nat NPROC)%nat → ps !! j = Some q → p_pid q ≠ pid.
Proof.
  unfold pid_entry. intros (l1 & x & l2 & El & Hx & Hno)%first_some_Some.
  destruct (ps !! x) as [p|] eqn:Hp; [|done]. destruct (Z.eqb_spec (p_pid p) pid); [|done]. injection Hx as ->.
  exists p. split_and!; [done..|]. intros j q Hj Hjn Hq Hpid.
  assert (i = length l1) as Ei.
  { assert (proc_ids !! length l1 = Some i) as Hlk by (rewrite El; by rewrite list_lookup_middle).
    unfold proc_ids in Hlk. apply lookup_seq in Hlk. lia. }
  assert (j ∈ l1) as Hjl.
  { assert (proc_ids !! j = Some j) as Hlk by (unfold proc_ids; apply lookup_seq; lia).
    rewrite El, lookup_app_l in Hlk by lia. by eapply list_elem_of_lookup_2. }
  specialize (Hno j Hjl). rewrite Hq, Hpid, Z.eqb_refl in Hno. done.
Qed.
Lemma pid_entry_None pid s : length (procs s) = Z.to_nat NPROC → pid_entry pid (procs s) = None →
  ∀ i p, procs s !! i = Some p → p_pid p ≠ pid.
Proof.
  intros Hl Hn i p Hp Hpid. apply first_some_None with (x := i) in Hn; [|apply (proc_ids_lookup s i Hl); eauto].
  by rewrite Hp, Hpid, Z.eqb_refl in Hn.
Qed.

(** [kkill] kills one process: given the pid of a process in use it marks that
    process and no other as killed, makes it [RUNNABLE] if it slept, and returns
    0; given a positive pid that no process has it changes nothing and returns -1. *)
Theorem kkill_kills_one k s pid :
  table_ok k s → (∀ i, LProc i ∉ held s) → 1 ≤ pid →
  (∀ i p, procs s !! i = Some p → p_state p ≠ UNUSED → p_pid p = pid →
     kkill pid s = Ok (0, s <| procs := <[i := kill_proc p]> (procs s) |>)) ∧
  ((∀ i p, procs s !! i = Some p → p_state p ≠ UNUSED → p_pid p ≠ pid) → kkill pid s = Ok (-1, s)).
Proof.
  intros Ht Hh Hpid. rewrite kkill_ok by (done || apply Ht). split.
  - intros i p Hp Hu E. destruct (pid_entry pid (procs s)) as [j|] eqn:Ej.
    + apply pid_entry_Some in Ej as (q & Hq & Eq & _). assert (j = i) as ->; [|by rewrite Hp].
      apply (to_pids _ _ Ht j i q p); try done; [|congruence].
      intros Hqu. pose proof (ro_unused _ _ _ _ (to_rows _ _ Ht j q Hq) Hqu). lia.
    + by destruct (pid_entry_None pid s (to_len _ _ Ht) Ej i p).
  - intros Hno. destruct (pid_entry pid (procs s)) as [j|] eqn:Ej; [|done].
    apply pid_entry_Some in Ej as (q & Hq & Eq & _). destruct (Hno j q); [done| |done].
    intros Hqu. pose proof (ro_unused _ _ _ _ (to_rows _ _ Ht j q Hq) Hqu). lia.
Qed.

(** Process [i] stays killed, or not. *)
Definition same_killed i s s' : Prop :=
  ∀ p, procs s !! i = Some p → ∃ p', procs s' !! i = Some p' ∧ p_killed p' = p_killed p.
#[local] Instance same_killed_preorder i : PreOrder (same_killed i).
Proof.
  split; [intros s p; eauto|]. intros s1 s2 s3 H1 H2 p Hp. destruct (H1 p Hp) as (q & Hq & <-). by apply H2.
Qed.
Lemma skeeps_mem {A} i (m : M (kst D) A) : keeps same_procs m → keeps (same_killed i) m.
Proof.
  intros H s a s' E p Hp. destruct (same_procs_lookup s s' i p) as (p' & Hp' & Hc); [by eapply H|done|].
  exists p'. split; [done|]. by injection Hc.
Qed.
Lemma skeeps_updp i j f : (∀ p, p_killed (f p) = p_killed p) → keeps (same_killed i) (updp j f).
Proof.
  intros Hf s a s' E p Hp. unfold updp in E. minv E. injection E0 as <- <-. minv E.
  destruct (procs s !! j) as [q|] eqn:Hq; [|done]. injection E0 as <- <-. injection E as _ <-. simpl.
  destruct (decide (j = i)) as [->|]; [|rewrite list_lookup_insert_ne by done; eauto].
  rewrite list_lookup_insert_eq by (by eapply lookup_lt_Some). exists (f q). split; [done|]. rewrite Hf. congruence.
Qed.
#[local] Hint Extern 2 (keeps (same_killed _) _) => apply skeeps_mem; solve [eauto 2 with keeps] : keeps.
#[local] Hint Extern 1 (keeps (same_killed _) (updp _ _)) => by apply skeeps_updp : keeps.

(** The entry [allocproc] takes. *)
Lemma find_unused_first i s : length (procs s) = Z.to_nat NPROC → (∀ j, LProc j ∉ held s) →
  (∃ p, procs s !! i = Some p ∧ p_state p = UNUSED) →
  (∀ j p, (j < i)%nat → procs s !! j = Some p → p_state p ≠ UNUSED) →
  find_unused s = Ok (Some i, s <| held := {[LProc i]} ∪ held s |>).
Proof.
  intros Hl Hh (p & Hp & Hu) Hbefore. unfold find_unused.
  erewrite (for_find_act _ (λ i, match procs s !! i with Some p => if bool_decide (p_state p = UNUSED) then Some i else None
    | None => None end) id (λ i, s <| held := {[LProc i]} ∪ held s |>)).
  - destruct (first_some _ _) as [j|] eqn:E.
    + enough (j = i) as -> by done. apply first_some_Some in E as (l1 & x & l2 & El & Hx & Hno).
      destruct (procs s !! x) as [q|] eqn:Hq; [|done]. case_bool_decide as Hqu; [|done]. injection Hx as ->.
      assert (j = length l1) as Ej.
      { assert (proc_ids !! length l1 = Some j) as Hlk by (rewrite El; by rewrite list_lookup_middle).
        unfold proc_ids in Hlk. apply lookup_seq in Hlk. lia. }
      destruct (decide (j < i)%nat); [by destruct (Hbefore j q)|]. destruct (decide (j = i)); [done|].
      assert (i ∈ l1) as Hi.
      { apply lookup_lt_Some in Hp as Hlt.
        assert (proc_ids !! i = Some i) as Hlk by (unfold proc_ids; apply lookup_seq; lia).
        rewrite El, lookup_app_l in Hlk by lia. by eapply list_elem_of_lookup_2. }
      specialize (Hno i Hi). by rewrite Hp, bool_decide_eq_true_2 in Hno.
    + apply first_some_None with (x := i) in E; [|apply (proc_ids_lookup s i Hl); eauto].
      by rewrite Hp, bool_decide_eq_true_2 in E.
  - intros j [q Hq]%(proc_ids_lookup s j Hl). rewrite Hq.
    mstep acquire_ok; [|done]. erewrite bind_step by (by apply getp_ok). case_bool_decide; [done|].
    erewrite bind_step by (apply release_ok; simpl; set_solver). apply Ok_pair. kst_eq. by rewrite held_restore.
Qed.

(** [kkill(0)] reports success and marks the first free entry of the process
    table as killed; since [allocproc] does not clear the mark, the next process
    created, which gets that entry, is born killed. *)
Theorem kill_zero_poisons k s i p :
  table_ok k s → (∀ i, LProc i ∉ held s) →
  procs s !! i = Some p → p_state p = UNUSED → (∀ j q, (j < i)%nat → procs s !! j = Some q → p_state q ≠ UNUSED) →
  ∃ s1, kkill 0 s = Ok (0, s1) ∧
    ∀ np s2, allocproc s1 = Ok (Some np, s2) → np = i ∧ p_killed <$> (procs s2 !! i) = Some 1.
Proof.
  intros Ht Hh Hp Hu Hbefore. pose proof (to_len _ _ Ht) as Hl. rewrite kkill_ok by done.
  pose proof (lookup_lt_Some _ _ _ Hp) as Hlt.
  destruct (pid_entry 0 (procs s)) as [j|] eqn:Ej.
  2: { destruct (pid_entry_None 0 s Hl Ej i p Hp). by apply (ro_unused _ _ _ _ (to_rows _ _ Ht i p Hp)). }
  apply pid_entry_Some in Ej as (q & Hq & Eq & Hfirst). assert (j = i) as ->.
  { assert (p_state q = UNUSED) as Hqu.
    { destruct (decide (p_state q = UNUSED)); [done|]. pose proof (ro_pid _ _ _ _ (to_rows _ _ Ht j q Hq) ltac:(done)). lia. }
    destruct (decide (j < i)%nat); [by destruct (Hbefore j q)|]. destruct (decide (j = i)); [done|].
    destruct (Hfirst i p); [lia|lia|done|]. by apply (ro_unused _ _ _ _ (to_rows _ _ Ht i p Hp)). }
  rewrite Hp in Hq. injection Hq as <-. rewrite Hp. eexists. split; [done|]. intros np s2 E.
  set (s1 := s <| procs := <[i := kill_proc p]> (procs s) |>) in *.
  assert (procs s1 !! i = Some (kill_proc p)) as Hp1 by (by apply list_lookup_insert_eq).
  unfold allocproc in E. erewrite bind_step in E.
  2: { apply (find_unused_first i); [simpl; by rewrite length_insert|done| |].
       - exists (kill_proc p). split; [done|]. unfold kill_proc. rewrite Hu. by rewrite bool_decide_eq_false_2.
       - intros j q' Hj. simpl. rewrite list_lookup_insert_ne by lia. by apply Hbefore. }
  cbv beta iota in E. minv E. apply allocpid_inv in E0 as [-> [h ->]]. minv E. erewrite updp_ok in E0 by done. injection E0 as _ <-.
  match type of E with _ ?s0 = _ => assert (same_killed i s0 s2 ∧ np = i) as [Hk ->] end.
  { minv E. minv E. minv E. destruct (_ =? 0) in E; [repeat minv E; done|]. minv E. minv E.
    destruct (_ =? 0) in E; [repeat minv E; done|]. minv E. minv E. injection E as <- <-. split; [|done].
    etrans; [by eapply skeeps_mem, E0; apply keeps_release|]. etrans; [by eapply skeeps_mem, E1; apply keeps_kalloc|].
    etrans; [by eapply skeeps_updp, E2|].
    etrans; [by eapply skeeps_mem, E3; unfold proc_pagetable; keeps_solve|].
    etrans; [by eapply skeeps_updp, E4|]. etrans; [by eapply skeeps_mem, E5; apply keeps_acquire|].
    by eapply skeeps_updp, E6. }
  split; [done|]. edestruct Hk as (p' & -> & Hpk); [apply list_lookup_insert_eq; simpl; by rewrite length_insert|].
  simpl. by rewrite Hpk.
Qed.

(** ** Giving up the CPU *)

(** [i] is the running process, as [myproc()] finds it. *)
Lemma myproc_inv {A} (k : nat → M (kst D) A) s r s' i : cur s = Some i →
  (me ← myproc; i ← opt me; k i) s = Ok (r, s') → k i s = Ok (r, s').
Proof. intros Hc E. minv E. injection E0 as <- <-. rewrite Hc in E. minv E. by injection E0 as <- <-. Qed.

Ltac ends_sched E := repeat minv E; match type of E with sched _ = Ok (?u, _) => destruct u; eexists; exact E end.
Ltac on_cpu Hc E := apply (myproc_inv _ _ _ _ _ Hc) in E; cbv beta in E.

(** A goal about a computation that returned, from the computation itself. *)
Ltac run_keeps E :=
  revert E; match goal with |- ?m ?s = Ok (?a, ?s') → table_step ?X _ _ =>
    let H := fresh in assert (Keeps X m) as H; [|exact (H s a s')] end.

Lemma yield_off_table i s a s' : cur s = Some i → yield_off s = Ok (a, s') → table_step [(i, false)] s s'.
Proof.
  intros Hc E%(myproc_inv _ _ _ _ _ Hc). pose proof (tkeeps_sched [(i, false)]).
  run_keeps E. keeps_solve. apply tkeeps_updp_move; [set_solver|set_solver|done].
Qed.
Lemma sleep_off_table i chan lk s a s' : cur s = Some i →
  sleep_off chan lk s = Ok (a, s') → table_step [(i, false)] s s'.
Proof.
  intros Hc E%(myproc_inv _ _ _ _ _ Hc). pose proof (tkeeps_sched [(i, false)]).
  run_keeps E. keeps_solve. apply tkeeps_updp_move; [set_solver|set_solver|done].
Qed.
Lemma kexit_table i status s a s' : cur s = Some i →
  kexit status s = Ok (a, s') → table_step [(i, false)] s s'.
Proof.
  intros Hc E%(myproc_inv _ _ _ _ _ Hc). pose proof (tkeeps_sched [(i, false)]).
  pose proof (tkeeps_reparent [(i, false)] i).
  run_keeps E. keeps_solve. apply tkeeps_updp_move; [set_solver|set_solver|done].
Qed.

(** Reaping a zombie leaves the running process alone. *)
Lemma wait_scan_table i addr l hk s r s' :
  wait_scan i addr l hk s = Ok (r, s') → table_step [(i, true)] s s'.
Proof.
  revert hk s. induction l as [|pp l IH]; intros hk s E; simpl in E; [by injection E as _ <-|].
  minv E. apply getp_inv in E0 as [_ ->]. case_bool_decide; [|by eapply IH].
  minv E. etrans; [by eapply same_procs_table, keeps_acquire|].
  apply bind_Ok_inv in E as (q & ? & [Hq ->]%getp_inv & E). case_bool_decide as Hz.
  - assert (table_step [] s0 s') as H0.
    { pose proof (tkeeps_freeproc [] pp ltac:(set_solver)). run_keeps E. unfold reap. keeps_solve. }
    destruct (decide (i = pp)) as [<-|Hne].
    { split; [apply H0|apply H0|]. intros k _ HX. destruct (HX i true) as (q' & Hq' & Hs); [set_solver|].
      simpl in Hs. congruence. }
    pose proof (tkeeps_freeproc [(i, true)] pp ltac:(set_solver)).
    run_keeps E. unfold reap. keeps_solve.
  - minv E. etrans; [by eapply same_procs_table, keeps_release|by eapply IH].
Qed.

Lemma pinned_in_use i s : pinned [(i, true)] s → pinned [(i, false)] s.
Proof.
  intros HX j b Hj. assert ((j, b) = (i, false)) as [= -> ->] by set_solver.
  destruct (HX i true) as (p & Hp & Hs); [set_solver|]. exists p. split; [done|]. simpl in *. congruence.
Qed.

(** ** What a process does with the CPU *)

Lemma sched_inv s a s' : sched s = Ok (a, s') →
  ∃ i p, cur s' = Some i ∧ procs s' !! i = Some p ∧ p_state p ≠ RUNNING.
Proof.
  unfold sched. intros E. minv E. injection E0 as <- <-. minv E. destruct (cur s) as [i|] eqn:Hc; [|done].
  injection E0 as <- <-. minv E. injection E0 as <- <-. destruct (negb _); [done|]. destruct (negb _); [done|].
  apply bind_Ok_inv in E as (p & ? & [Hp ->]%getp_inv & E). case_bool_decide; [done|]. injection E as _ <-. eauto.
Qed.

(** The process that was running has given up the CPU. *)
Definition off_cpu i s : Prop := cur s = Some i ∧ ∃ p, procs s !! i = Some p ∧ p_state p ≠ RUNNING.

Lemma off_table i k s s' :
  cur s = Some i → table_ok k s → pinned [(i, true)] s →
  table_step [(i, false)] s s' → (∃ s0, sched s0 = Ok (tt, s')) → table_ok k s' ∧ off_cpu i s'.
Proof.
  intros Hc Ht HX [_ Hc' Hok] [s0 (j & p & Hj & Hp)%sched_inv].
  destruct (Hok k) as [Ht' _]; [done|by apply pinned_in_use|]. split; [done|].
  assert (j = i) as -> by congruence. split; [done|]. by exists p.
Qed.

(** Code that process [i] runs while it has the CPU, creating at most [n]
    processes: anything that leaves processes alone or only wakes them up, and
    the functions of [proc.c], in any order. *)
Inductive kcode (i : nat) : ∀ A, nat → M (kst D) A → Prop :=
| kc_mem A (m : M (kst D) A) : keeps same_procs m → kcode i A 0 m
| kc_files A (m : M (kst D) A) : keeps woken m → kcode i A 0 m
| kc_fork : kcode i Z 1 kfork
| kc_kill pid : kcode i Z 0 (kkill pid)
| kc_wakeup chan : kcode i unit 0 (wakeup chan)
| kc_tick : kcode i unit 0 (mlfq_tick i)
| kc_boost : kcode i unit 0 global_boost
| kc_setkilled j : kcode i unit 0 (setkilled j)
| kc_grow n : kcode i Z 0 (growproc n)
| kc_resume lk : kcode i unit 0 (sleep_on lk)
| kc_bind A B n n' (m : M (kst D) A) (f : A → M (kst D) B) :
    kcode i A n m → (∀ a, kcode i B n' (f a)) → kcode i B (n + n') (m ≫= f).

(** A process's turn, from the switch to it to its call of [sched]. *)
Inductive turn (i : nat) : nat → M (kst D) unit → Prop :=
| turn_yield : turn i 0 yield_off
| turn_sleep chan lk : turn i 0 (sleep_off chan lk)
| turn_exit status : turn i 0 (kexit status)
| turn_wait addr n f : (∀ v, turn i n (f v)) →
    turn i n (r ← kwait addr; match r with Some v => f v | None => mret tt end)
| turn_bind A n n' (m : M (kst D) A) f :
    kcode i A n m → (∀ a, turn i n' (f a)) → turn i (n + n') (m ≫= f).

Lemma table_ok_le k k' s : (k ≤ k')%nat → table_ok k' s → table_ok k s.
Proof. intros Hk [? [] ? ?]. split; try done. lia. Qed.

Lemma kcode_table i A n m : kcode i A n m → ∀ k s a s', m s = Ok (a, s') →
  cur s = Some i → table_ok (n + k) s → pinned [(i, true)] s →
  cur s' = Some i ∧ table_ok k s' ∧ pinned [(i, true)] s'.
Proof.
  assert (∀ A (m : M (kst D) A), Keeps [(i, true)] m → ∀ k s a s', m s = Ok (a, s') →
    cur s = Some i → table_ok (0 + k) s → pinned [(i, true)] s →
    cur s' = Some i ∧ table_ok k s' ∧ pinned [(i, true)] s') as Hk.
  { intros B m' Hm k s a s' E Hc Ht HX. destruct (Hm _ _ _ E) as [_ Hc' Hok].
    destruct (Hok k Ht HX). split_and!; [congruence|done..]. }
  induction 1 as [A m Hm|A m Hm| | | | | | | | |A B n n' m f _ IH1 _ IH2].
  3: { intros k s a s' E Hc Ht HX. rewrite <-Hc. by apply (kfork_table [(i, true)] k) in E as (-> & ? & ?). }
  1-9: apply Hk.
  - by apply tkeeps_mem.
  - by apply tkeeps_woken.
  - apply tkeeps_kkill.
  - apply tkeeps_wakeup.
  - apply tkeeps_mlfq_tick.
  - apply tkeeps_global_boost.
  - apply tkeeps_setkilled.
  - apply tkeeps_growproc.
  - unfold sleep_on. keeps_solve.
  - intros k s b s'' E Hc Ht HX. minv E. apply (IH1 (n' + k)%nat) in E0 as (? & ? & ?); [|done| |done].
    + by eapply IH2.
    + by replace (n + (n' + k))%nat with (n + n' + k)%nat by lia.
Qed.

Lemma kwait_table i addr k s r s' : kwait addr s = Ok (r, s') →
  cur s = Some i → table_ok k s → pinned [(i, true)] s →
  cur s' = Some i ∧ table_ok k s' ∧ match r with Some _ => pinned [(i, true)] s' | None => off_cpu i s' end.
Proof.
  intros E Hc Ht HX. unfold kwait in E. minv E. assert (table_step [(i, true)] s s0) as H1
    by (by eapply same_procs_table, keeps_acquire).
  assert (cur s0 = Some i) as Hc0 by (by rewrite (ts_cur _ _ _ H1)).
  on_cpu Hc0 E. minv E. assert (table_step [(i, true)] s s1) as H2.
  { etrans; [done|]. by eapply wait_scan_table. }
  assert (cur s1 = Some i) as Hc1 by (by rewrite (ts_cur _ _ _ H2)).
  destruct a0 as [[v|] hk]; [injection E as <- <-; by destruct (ts_ok _ _ _ H2 k)|].
  minv E. assert (table_step [(i, true)] s s2) as H3.
  { etrans; [done|]. destruct (negb hk); [by injection E2 as _ <-|by eapply tkeeps_killed]. }
  assert (cur s2 = Some i) as Hc2 by (by rewrite (ts_cur _ _ _ H3)).
  destruct (ts_ok _ _ _ H3 k) as [Ht3 HX3]; [done..|]. destruct (negb (_ =? 0)) in E.
  - minv E. injection E as <- <-. assert (table_step [(i, true)] s2 s3) as H4
      by (by eapply same_procs_table, keeps_release).
    destruct (ts_ok _ _ _ H4 k) as [Ht4 HX4]; [done..|]. split_and!; [by rewrite (ts_cur _ _ _ H4)|done..].
  - minv E. injection E as <- <-. pose proof (sleep_off_table _ _ _ _ _ _ Hc2 E3) as H4.
    assert (table_ok k s3 ∧ off_cpu i s3) as [? ?].
    { apply (off_table i k s2); [done..|]. on_cpu Hc2 E3. by ends_sched E3. }
    split_and!; [by rewrite (ts_cur _ _ _ H4)|done..].
Qed.

Lemma turn_table i n m : turn i n m → ∀ k s a s', m s = Ok (a, s') →
  cur s = Some i → table_ok (n + k) s → pinned [(i, true)] s → table_ok k s' ∧ off_cpu i s'.
Proof.
  induction 1 as [|chan lk|status|addr n f Hf IH|A n n' m f Hm Hf IH]; intros k s a s' E Hc Ht HX.
  - apply (off_table i k s); [done..|by eapply yield_off_table|].
    on_cpu Hc E. by ends_sched E.
  - apply (off_table i k s); [done..|by eapply sleep_off_table|].
    on_cpu Hc E. by ends_sched E.
  - apply (off_table i k s); [done..|by eapply kexit_table|].
    on_cpu Hc E. minv E. injection E0 as <- <-. case_bool_decide; [done|].
    by ends_sched E.
  - minv E. apply (kwait_table i _ (n + k)) in E0 as (Hc0 & Ht0 & Hr); [|done..]. destruct a0 as [v|].
    + by eapply IH.
    + injection E as _ <-. split; [|done]. eapply table_ok_le; [|done]. lia.
  - minv E. eapply (kcode_table _ _ _ _ Hm (n' + k)) in E0 as (? & ? & ?); [|done| |done].
    + by eapply IH.
    + by replace (n + (n' + k))%nat with (n + n' + k)%nat by lia.
Qed.

(** ** A turn of the scheduler *)

Lemma table_ok_dispatched k s i p : table_ok k s → cur s = None → procs s !! i = Some p → p_state p = RUNNABLE →
  table_ok k (dispatched s i p) ∧ pinned [(i, true)] (dispatched s i p).
Proof.
  intros [Hlen Hn Hrow Hpid] Hc Hp Hr. pose proof (lookup_lt_Some _ _ _ Hp) as Hlt.
  set (p' := p <| p_state := RUNNING |> <| p_num_times_sched := i32 (p_num_times_sched p + 1) |>
                        <| p_temp := if p_ticks_at_cur_level p =? 0 then p_total_syscalls p else p_temp p |>).
  assert (∀ j q, <[i := p']> (procs s) !! j = Some q →
    (j = i ∧ q = p') ∨ (j ≠ i ∧ procs s !! j = Some q)) as Hback.
  { intros j q. destruct (decide (i = j)) as [<-|]; [|by rewrite list_lookup_insert_ne by done; auto].
    rewrite list_lookup_insert_eq by done. intros [= <-]. auto. }
  pose proof (Hrow i p Hp) as [? _ Hpd _]. split; [split; simpl; [by rewrite length_insert|done| |]|].
  - intros j q [[-> ->]|[Hj Hq]]%Hback; [split; simpl; try done; intros; apply Hpd; congruence|].
    destruct (Hrow j q Hq) as [? ? ? H4]. split; auto. intros ?%H4. congruence.
  - intros j1 j2 q1 q2 [[-> ->]|[Hj1 Hq1]]%Hback [[-> ->]|[Hj2 Hq2]]%Hback; simpl; intros N1 N2 E; try done.
    + by apply (Hpid i j2 p q2); congruence.
    + by apply (Hpid j1 i q1 p); congruence.
    + eauto.
  - intros j b Hj. assert ((j, b) = (i, true)) as [= -> ->] by set_solver. exists p'. split; [|done].
    by apply list_lookup_insert_eq.
Qed.

(** Back in the scheduler. *)
Lemma table_ok_idle k s i h : table_ok k s → off_cpu i s →
  table_ok k (s <| cur := None |> <| held := h |>).
Proof.
  intros [Hlen Hn Hrow Hpid] [Hc (p & Hp & Hnr)]. split; simpl; [done|done| |done].
  intros j q Hq. destruct (Hrow j q Hq) as [? ? ? H4]. split; auto.
  intros Hr. specialize (H4 Hr). assert (i = j) as -> by congruence. congruence.
Qed.

Lemma sched_pass2_table n run level i k s b s' : turn i n (run i) → cur s = None → table_ok (n + k) s →
  sched_pass2 run level i s = Ok (b, s') → cur s' = None ∧ table_ok k s'.
Proof.
  intros Hrun Hc Ht E.
  assert (LProc i ∉ held s) as Hh.
  { intros Hin. unfold sched_pass2, acquire in E. minv E. minv E0. injection E1 as <- <-. by rewrite decide_True in E0. }
  assert (∃ p, procs s !! i = Some p) as [p Hp].
  { unfold sched_pass2 in E. minv E. apply lkeeps_acquire in E0 as [h ->].
    apply bind_Ok_inv in E as (p & ? & [Hp ->]%getp_inv & E). by exists p. }
  destruct (runnable_at level p) eqn:Hr.
  - rewrite (sched_pass2_run _ _ _ p) in E by done. apply andb_true_iff in Hr as [Hr%bool_decide_eq_true _].
    destruct (table_ok_dispatched (n + k) s i p) as [Ht1 HX1]; [done..|]. minv E.
    eapply (turn_table _ _ _ Hrun k) in E0 as [Ht2 Hoff]; [|done..]. minv E. injection E0 as _ <-. minv E.
    apply lkeeps_release in E0 as [h ->]. injection E as _ <-. split; [done|]. by apply (table_ok_idle k _ i).
  - rewrite (sched_pass2_skip _ _ _ p) in E by done. injection E as _ <-. split; [done|]. eapply table_ok_le; [|done]. lia.
Qed.

Lemma sched_pass2_all_table n run level l found k s b s' : (∀ i, turn i n (run i)) → cur s = None →
  table_ok (n * length l + k) s → sched_pass2_all run level l found s = Ok (b, s') → cur s' = None ∧ table_ok k s'.
Proof.
  intros Hrun. revert found s. induction l as [|i l IH]; intros found s Hc Ht E; simpl in E, Ht.
  - injection E as _ <-. split; [done|]. eapply table_ok_le; [|done]. lia.
  - minv E. apply (sched_pass2_table n _ _ _ (n * length l + k)) in E0 as [Hc1 Ht1]; [|done..|].
    + by eapply IH.
    + eapply table_ok_le; [|done]. lia.
Qed.

(** C11. The process table stays sound whatever processes do: in any turn of the
    scheduler in which each process that is given the CPU runs any sequence of
    kernel code (forks, kills, wakeups, timer ticks, boosts, system calls that
    only use memory and the disk) and then yields, sleeps, waits or exits, the
    pids of processes in use stay distinct and allocated from [nextpid], entries
    not in use have pid 0, MLFQ levels stay between 0 and 3, and at the end no
    process is marked [RUNNING]. *)
Theorem scheduler_keeps_table n run k s b s' :
  (∀ i, turn i n (run i)) → cur s = None → table_ok (n * Z.to_nat NPROC + k) s →
  scheduler_round run s = Ok (b, s') →
  cur s' = None ∧ table_ok k s' ∧ ∀ i p, procs s' !! i = Some p → p_state p ≠ RUNNING.
Proof.
  intros Hrun Hc Ht E. assert (cur s' = None ∧ table_ok k s') as [Hc' Ht'].
  { unfold scheduler_round in E. minv E. assert (lock_step s s0) as [h ->].
    { assert (keeps lock_step sched_pass1) as H by (unfold sched_pass1; keeps_solve). by eapply H. }
    assert (∀ k', table_ok k' s → table_ok k' (s <| held := h |>)) as Hh by (intros k' []; by split).
    destruct (_ =? -1).
    - injection E as _ <-. split; [done|]. apply Hh. eapply table_ok_le; [|done]. lia.
    - apply (sched_pass2_all_table n run _ _ _ k) in E; [done..|]. apply Hh. unfold proc_ids. by rewrite length_seq. }
  split_and!; [done..|]. intros i p Hp Hr. pose proof (ro_running _ _ _ _ (to_rows _ _ Ht' i p Hp) Hr). congruence.
Qed.
End table.

(** ** A small machine *)

#[local] Existing Instances demo_layout no_disk no_files.
#[local] Instance no_files_laws : FileOpsLaws unit.
Proof. split; intros; by apply keeps_ret, _. Qed.

Definition demo_turn (i : nat) : M (kst unit) unit :=
  yield_on ;; mlfq_tick i ;; r ← kkill 2; yield_off.

Lemma demo_table_ok : table_ok 100 demo_table.
Proof.
  split; [done|simpl; lia| |].
  - intros i p [[-> ->]|[[-> ->]|[? ->]]]%demo_lookup; split; simpl; done || lia.
  - intros i j p q [[-> ->]|[[-> ->]|[? ->]]]%demo_lookup [[-> ->]|[[-> ->]|[? ->]]]%demo_lookup; simpl; done.
Qed.
Lemma demo_turn_ok i : turn i 0 (demo_turn i).
Proof.
  apply (turn_bind i _ 0 0); [apply kc_mem; unfold yield_on; keeps_solve|intros _].
  apply (turn_bind i _ 0 0); [apply kc_tick|intros _].
  apply (turn_bind i _ 0 0); [apply kc_kill|intros _; apply turn_yield].
Qed.

Lemma scheduler_keeps_table_witness :
  ∃ s', scheduler_round demo_turn demo_table = Ok (true, s') ∧ table_ok 100 s' ∧
    p_killed <$> (procs s' !! 1%nat) = Some 1 ∧ ∀ i p, procs s' !! i = Some p → p_state p ≠ RUNNING.
Proof.
  destruct (scheduler_round demo_turn demo_table) as [[b s']| | |] eqn:E; [|exfalso; revert E; vm_compute; discriminate..].
  destruct (scheduler_keeps_table 0 demo_turn 100 demo_table b s') as (_ & Ht & Hr);
    [apply demo_turn_ok|reflexivity|apply demo_table_ok|exact E|].
  exists s'. revert E Ht Hr. vm_compute. intros [= <- <-] Ht Hr. split_and!; try done.
Defined.

Lemma kkill_kills_one_witness :
  kkill 2 demo_table = Ok (0, demo_table <| procs ::= <[1%nat := kill_proc demo_child]> |>) ∧
  kkill 7 demo_table = Ok (-1, demo_table).
Proof.
  destruct (kkill_kills_one 100 demo_table 2) as [H _]; [apply demo_table_ok|set_solver|lia|].
  destruct (kkill_kills_one 100 demo_table 7) as [_ H']; [apply demo_table_ok|set_solver|lia|].
  split; [by apply H|]. apply H'. intros i p [[_ ->]|[[_ ->]|[_ ->]]]%demo_lookup; simpl; done.
Defined.

(** The same machine with sixteen free pages. *)
Definition demo_pages : list Z := page_range kend (kend + 16 * PGSIZE).
Definition demo_memory : kst unit :=
  match for_each kfree demo_pages
    (demo_table <| mem := pages demo_pages |> <| frames := zrepl NFRAME frame0 |>) with
  | Ok (_, s) => s
  | _ => demo_table
  end.

Lemma kill_zero_poisons_witness :
  ∃ s1 s2, kkill 0 demo_memory = Ok (0, s1) ∧ allocproc s1 = Ok (Some 2%nat, s2) ∧
    p_killed <$> (procs s2 !! 2%nat) = Some 1.
Proof.
  assert (procs demo_memory = procs demo_table) as Ep by (vm_compute; reflexivity).
  assert (held demo_memory = ∅) as Eh by (vm_compute; reflexivity).
  destruct (kill_zero_poisons 100 demo_memory 2 proc0) as (s1 & E & H).
  - destruct demo_table_ok as [H1 H2 H3 H4]. split; rewrite ?Ep; [done| |exact H3|exact H4]. vm_compute. done.
  - intros i. rewrite Eh. apply not_elem_of_empty.
  - rewrite Ep. reflexivity.
  - reflexivity.
  - rewrite Ep. intros j q Hj [[_ ->]|[[_ ->]|[? _]]]%demo_lookup; [discriminate..|lia].
  - assert (match kkill 0 demo_memory with
            | Ok (_, s1) => match allocproc s1 with Ok (r, _) => r | _ => None end | _ => None end = Some 2%nat) as Ha
      by (vm_compute; reflexivity).
    exists s1. rewrite E in Ha. destruct (allocproc s1) as [[r s2]| | |]; [|discriminate Ha..]. subst r.
    exists s2. split; [exact E|]. split; [reflexivity|]. apply (H 2%nat s2 eq_refl).
Defined.
