(* ===== verification/PageTable.v ===== *)
(** * Page tables as maps

    The three-level tables of [kernel/vm.c] as the finite maps they stand for.
    [tree_ok m pt T] says that the pages [T] of memory [m] are the table rooted
    at [pt], with nothing shared; [entry m T va] is the entry the table has for
    [va], 0 where there is no table for it. [walk] finds or makes the place of
    an entry without changing any, and [mappages] is an insertion in the map. *)

From stdpp Require Import base numbers list gmap strings.
From S2P Require Import Prelude Machine KState Disk Raid Kalloc Evict VM.
Open Scope Z_scope.
Open Scope kernel_scope.

(** The pages of a table, by the indices on the way to them: [[]] is the root. *)
Abbreviation tree := (gmap (list Z) Z).

Section table.
Context {L : Layout}.
Implicit Types (m : phys) (T : tree).

(** What a directory holds where the path goes on to [q]. *)
Definition child_word (T : tree) (q : list Z) (e : Z) : Prop :=
  match T !! q with Some b => e = setb (PA2PTE b) PTE_V | None => has e PTE_V = false end.

(** Indices on the way to a page of the table; an address below [MAXVA] has a
    first index below 256. *)
Definition path_ok (q : list Z) : Prop :=
  (length q ≤ 2)%nat ∧ Forall (λ i, 0 ≤ i < 512) q ∧ default 0 (head q) < 256.

Record tree_ok (m : phys) (pt : Z) (T : tree) : Prop := {
  tr_root : T !! [] = Some pt;
  tr_path q a : T !! q = Some a → path_ok q;
  tr_parent q i a : T !! (q ++ [i]) = Some a → is_Some (T !! q);
  tr_inj q q' a : T !! q = Some a → T !! q' = Some a → q = q';
  tr_page q a : T !! q = Some a → alloc_page a ∧ is_Some (m !! a);
  tr_word q a i : T !! q = Some a → (length q < 2)%nat → 0 ≤ i < 512 →
    ∃ e, mload64 m (a + 8 * i) = Some e ∧ child_word T (q ++ [i]) e;
}.

(** [p] is a page of the table. *)
Definition in_tree (T : tree) (p : Z) : Prop := ∃ q, T !! q = Some p.

(** Where the entry for [va] is, and what it is. *)
Definition leaf (T : tree) (va : Z) : option Z := (λ a, a + 8 * PX 0 va) <$> T !! [PX 2 va; PX 1 va].
Definition entry (m : phys) (T : tree) (va : Z) : Z :=
  match leaf T va with Some a => default 0 (mload64 m a) | None => 0 end.

(** ** Words of a page *)

Lemma word_page a i : a mod PGSIZE = 0 → 0 ≤ i < 512 → pg (a + 8 * i) = a ∧ pgoff (a + 8 * i) = 8 * i.
Proof. intros. split; [apply pg_add|apply pgoff_add]; lia. Qed.

Lemma word_inj a b i j : a mod PGSIZE = 0 → b mod PGSIZE = 0 → 0 ≤ i < 512 → 0 ≤ j < 512 →
  a + 8 * i = b + 8 * j → a = b ∧ i = j.
Proof.
  intros Ha Hb Hi Hj E. destruct (word_page a i Ha Hi) as [E1 _]. destruct (word_page b j Hb Hj) as [E2 _].
  rewrite E in E1. lia.
Qed.

Lemma word_load m a i : mem_wf m → is_Some (m !! a) → 0 ≤ i < 512 → ∃ e, mload64 m (a + 8 * i) = Some e.
Proof.
  intros Hwf [p Hp] Hi. pose proof (mem_wf_aligned _ _ _ Hwf Hp) as Ha. destruct (word_page a i Ha Hi) as [E1 E2].
  unfold mload64, mread. assert ((a + 8 * i) mod 8 =? 0 = true) as -> by dlia.
  rewrite E1, E2, Hp. destruct (Z.leb_spec (8 * i + 8) PGSIZE); [|lia]. simpl. eauto.
Qed.

Lemma zero_page_word m a i : a mod PGSIZE = 0 → 0 ≤ i < 512 → mload64 (<[a := zrepl PGSIZE 0]> m) (a + 8 * i) = Some 0.
Proof.
  intros Ha Hi. destruct (word_page a i Ha Hi) as [E1 E2]. unfold mload64, mread.
  assert ((a + 8 * i) mod 8 =? 0 = true) as -> by dlia. rewrite E1, E2, lookup_insert_eq.
  destruct (Z.leb_spec (8 * i + 8) PGSIZE); [|lia]. cbn [fmap option_fmap option_map]. f_equal.
  assert (sub (8 * i) 8 (zrepl PGSIZE 0) = zrepl 8 0) as ->; [|reflexivity].
  unfold sub, zrepl. rewrite drop_replicate, take_replicate. f_equal. lia.
Qed.

Lemma alloc_page_range a : alloc_page a → 0 < a < 2 ^ 56 ∧ a mod PGSIZE = 0.
Proof. unfold alloc_page. lia. Qed.

Lemma table_word b : alloc_page b → let e := setb (PA2PTE b) PTE_V in
  has e PTE_V = true ∧ PTE2PA e = b ∧ 0 ≤ e < 2 ^ 64.
Proof.
  intros [Hb Ha]%alloc_page_range e. split; [by apply has_setb|]. split.
  - apply PTE2PA_make; lia.
  - unfold e, setb, PA2PTE. apply pte_bound; [lia|]. rewrite Z.shiftr_div_pow2 by lia. dlia.
Qed.

(** ** Facts of a table *)

Lemma path_snoc q i : path_ok (q ++ [i]) → (length q < 2)%nat ∧ 0 ≤ i < 512.
Proof. unfold path_ok. rewrite length_app, Forall_app, Forall_singleton. simpl. lia. Qed.
Lemma path_next q i : path_ok q → (length q < 2)%nat → 0 ≤ i < 512 → (q = [] → i < 256) → path_ok (q ++ [i]).
Proof.
  intros (H1 & H2 & H3) Hl Hi H0. unfold path_ok. rewrite length_app, Forall_app, Forall_singleton. simpl. split_and!; try lia; [done|].
  destruct q; simpl in *; auto.
Qed.
Lemma PX_first va : 0 ≤ va < MAXVA → PX 2 va < 256.
Proof. intros. rewrite PX_div by lia. simpl Z.add. simpl Z.pow. dlia. Qed.

Lemma tr_aligned m pt T q a : tree_ok m pt T → T !! q = Some a → a mod PGSIZE = 0.
Proof. intros Ht Hq. by destruct (tr_page _ _ _ Ht q a Hq) as [[_ ?]%alloc_page_range _]. Qed.

Lemma tr_prefix m pt T q q' a : tree_ok m pt T → T !! (q ++ q') = Some a → is_Some (T !! q).
Proof.
  intros Ht. revert a. induction q' as [|x q' IH] using rev_ind; intros a Ha; [rewrite app_nil_r in Ha; by eexists|].
  rewrite app_assoc in Ha. apply (tr_parent _ _ _ Ht) in Ha as [b Hb]. by eapply IH.
Qed.

(** Different pages of addresses have different places. *)
Lemma leaf_inj m pt T va va' a : tree_ok m pt T → 0 ≤ va < MAXVA → 0 ≤ va' < MAXVA →
  leaf T va = Some a → leaf T va' = Some a → pg va = pg va'.
Proof.
  unfold leaf. intros Ht Hv Hv' (b & Hb & E)%fmap_Some (b' & Hb' & E')%fmap_Some. subst a.
  pose proof (PX_bound 0 va). pose proof (PX_bound 0 va').
  apply word_inj in E' as [-> E0]; [|by eapply tr_aligned|by eapply tr_aligned|done|done].
  pose proof (tr_inj _ _ _ Ht _ _ _ Hb Hb') as Eq. injection Eq as E2 E1.
  rewrite !PX_compose by done. by rewrite E0, E1, E2.
Qed.

Lemma PX_pg level va : 0 ≤ level ≤ 2 → PX level (pg va) = PX level va.
Proof.
  intros Hl. rewrite !PX_div by lia. unfold pg.
  assert (level = 0 ∨ level = 1 ∨ level = 2) as [->|[->| ->]] by lia; simpl Z.add; simpl Z.pow; f_equal; dlia.
Qed.
Lemma leaf_pg T va : leaf T (pg va) = leaf T va.
Proof. unfold leaf. by rewrite !PX_pg by lia. Qed.
Lemma entry_pg m T va : entry m T (pg va) = entry m T va.
Proof. unfold entry. by rewrite leaf_pg. Qed.

Lemma leaf_word m pt T va a : mem_wf m → tree_ok m pt T → leaf T va = Some a → mload64 m a = Some (entry m T va).
Proof.
  intros Hwf Ht Hl. unfold entry. rewrite Hl. revert Hl. unfold leaf. intros (b & Hb & ->)%fmap_Some.
  destruct (tr_page _ _ _ Ht _ _ Hb) as [_ Hp]. destruct (word_load m b (PX 0 va) Hwf Hp (PX_bound 0 va)) as [e ->]. done.
Qed.

Lemma leaf_in_tree m pt T va a : tree_ok m pt T → leaf T va = Some a → in_tree T (pg a) ∧ a ≠ 0.
Proof.
  unfold leaf. intros Ht (b & Hb & ->)%fmap_Some. pose proof (PX_bound 0 va).
  destruct (tr_page _ _ _ Ht _ _ Hb) as [[? Ha]%alloc_page_range _]. destruct (word_page b (PX 0 va) Ha) as [-> _]; [done|].
  split; [by eexists|lia].
Qed.

(** Memory that is the same on the pages of the table. *)
Lemma tree_frame m m' pt T : tree_ok m pt T → (∀ p, in_tree T p → m' !! p = m !! p) →
  tree_ok m' pt T ∧ ∀ va, entry m' T va = entry m T va.
Proof.
  intros Ht Hm. assert (∀ q a i, T !! q = Some a → 0 ≤ i < 512 → mload64 m' (a + 8 * i) = mload64 m (a + 8 * i)) as Hw.
  { intros q a i Hq Hi. apply mload64_page. destruct (word_page a i) as [-> _]; [by eapply tr_aligned|done|].
    apply Hm. by eexists. }
  split.
  - destruct Ht as [H1 H2 H3 H4 H5 H6]. split; try done.
    + intros q a Hq. rewrite Hm by (by eexists). by apply (H5 q).
    + intros q a i Hq Hl Hi. erewrite Hw by done. by apply H6.
  - intros va. unfold entry, leaf. destruct (T !! _) as [b|] eqn:Hb; [|done]. simpl.
    erewrite Hw by (done || apply PX_bound). done.
Qed.

(** Writing an entry. *)
Lemma tree_store m pt T va a v m' : mem_wf m → tree_ok m pt T → leaf T va = Some a → 0 ≤ va < MAXVA →
  0 ≤ v < 2 ^ 64 → mstore64 m a v = Some m' →
  tree_ok m' pt T ∧ ∀ x, 0 ≤ x < MAXVA → entry m' T x = if decide (pg x = pg va) then v else entry m T x.
Proof.
  intros Hwf Ht Hl Hva Hv Hs. split.
  - revert Hl. unfold leaf. intros (b & Hb & ->)%fmap_Some. pose proof (PX_bound 0 va).
    destruct Ht as [H1 H2 H3 H4 H5 H6]. split; try done.
    + intros q c Hq. destruct (H5 q c Hq) as [Hc Hp]. split; [done|].
      apply elem_of_dom. rewrite (mstore64_dom _ _ _ _ Hs). by apply elem_of_dom.
    + intros q c i Hq Hlen Hi. rewrite (mload64_store_ne _ _ _ _ _ Hwf Hs); [by apply H6|]. intros E.
      apply word_inj in E as [-> _]; [|by apply (H5 _ _ Hb)|by apply (H5 _ _ Hq)|done|done].
      pose proof (H4 _ _ _ Hb Hq). subst q. simpl in Hlen. lia.
  - intros x Hx. unfold entry at 1. destruct (leaf T x) as [b|] eqn:Hb.
    + destruct (decide (b = a)) as [->|Hne].
      * rewrite decide_True by (by eapply leaf_inj). by erewrite mload64_store_eq.
      * rewrite decide_False.
        -- rewrite (mload64_store_ne _ _ _ _ _ Hwf Hs) by done. unfold entry. by rewrite Hb.
        -- intros E. apply Hne. rewrite <-leaf_pg, E, leaf_pg, Hl in Hb. by injection Hb.
    + rewrite decide_False; [unfold entry; by rewrite Hb|].
      intros E. by rewrite <-leaf_pg, E, leaf_pg, Hl in Hb.
Qed.

(** A new table [b], of zeros, below a directory. *)
Section grow.
Context (m : phys) (pt : Z) (T : tree) (q : list Z) (i a b : Z) (m' : phys).
Hypothesis Hwf : mem_wf m.
Hypothesis Ht : tree_ok m pt T.
Hypothesis Hq : T !! q = Some a.
Hypothesis Hok : path_ok (q ++ [i]).
Hypothesis Hno : T !! (q ++ [i]) = None.
Hypothesis Hb : alloc_page b.
Hypothesis Hbp : is_Some (m !! b).
Hypothesis Hbn : ¬ in_tree T b.
Hypothesis Hs : mstore64 (<[b := zrepl PGSIZE 0]> m) (a + 8 * i) (setb (PA2PTE b) PTE_V) = Some m'.

Local Lemma grow_len : (length q < 2)%nat.
Proof. by apply (path_snoc q i). Qed.
Local Lemma grow_i : 0 ≤ i < 512.
Proof. by apply (path_snoc q i). Qed.
#[local] Hint Resolve grow_i : core.
Local Lemma grow_wf : mem_wf (<[b := zrepl PGSIZE 0]> m).
Proof. apply mem_wf_insert; [done|by apply (alloc_page_range b)|by apply zlen_zrepl]. Qed.

Local Lemma grow_old c j : c mod PGSIZE = 0 → 0 ≤ j < 512 → c ≠ b → c + 8 * j ≠ a + 8 * i →
  mload64 m' (c + 8 * j) = mload64 m (c + 8 * j).
Proof.
  intros Hc Hj Hcb Hne. rewrite (mload64_store_ne _ _ _ _ _ grow_wf Hs) by done. apply mload64_page.
  destruct (word_page c j) as [-> _]; [done..|]. by rewrite lookup_insert_ne.
Qed.

Local Lemma grow_new j : 0 ≤ j < 512 → mload64 m' (b + 8 * j) = Some 0.
Proof.
  intros Hj. destruct (alloc_page_range b Hb) as [_ Hba]. pose proof (tr_aligned _ _ _ _ _ Ht Hq).
  rewrite (mload64_store_ne _ _ _ _ _ grow_wf Hs); [by apply zero_page_word|].
  intros [-> _]%word_inj; [|done..]. apply Hbn. by eexists.
Qed.

Local Lemma grow_word q' c j : T !! q' = Some c → (length q' < 2)%nat → 0 ≤ j < 512 →
  ∃ e, mload64 m' (c + 8 * j) = Some e ∧ child_word (<[q ++ [i] := b]> T) (q' ++ [j]) e.
Proof.
  intros Hq' Hl' Hj. pose proof (tr_aligned _ _ _ _ _ Ht Hq). pose proof (tr_aligned _ _ _ _ _ Ht Hq').
  unfold child_word. destruct (decide (c + 8 * j = a + 8 * i)) as [E|Hca].
  - apply word_inj in E as [-> ->]; [|done..]. pose proof (tr_inj _ _ _ Ht _ _ _ Hq Hq'). subst q'.
    exists (setb (PA2PTE b) PTE_V). rewrite lookup_insert_eq. split; [|done].
    eapply mload64_store_eq; [apply grow_wf|by apply table_word|done].
  - rewrite grow_old; [|done..|intros ->; apply Hbn; by eexists|done].
    destruct (tr_word _ _ _ Ht q' c j Hq' Hl' Hj) as (e & He & Hc). exists e. split; [done|].
    rewrite lookup_insert_ne; [done|]. intros [<- <-]%app_inj_tail. rewrite Hq in Hq'. by simplify_eq.
Qed.

Lemma tree_grow : tree_ok m' pt (<[q ++ [i] := b]> T).
Proof.
  pose proof Ht as [H1 H2 H3 H4 H5 _]. split.
  - rewrite lookup_insert_ne; [done|]. by destruct q.
  - intros q' c. rewrite lookup_insert_Some. intros [[<- <-]|[_ Hq']]; [|by eapply H2].
    done.
  - intros q' j c. rewrite lookup_insert_Some. intros Hc. assert (is_Some (T !! q')) as [d Hd].
    { destruct Hc as [[[-> _]%app_inj_tail _]|[_ Hc]]; [by eexists|by eapply H3]. }
    rewrite lookup_insert_ne; [by eexists|]. intros <-. by rewrite Hno in Hd.
  - intros q1 q2 c. rewrite !lookup_insert_Some.
    intros [[<- <-]|[_ E1]] [[<- E]|[_ E2]]; [done|by destruct Hbn; eexists|subst c; by destruct Hbn; eexists|by eapply H4].
  - intros q' c. rewrite lookup_insert_Some. intros Hc. split; [destruct Hc as [[_ <-]|[_ Hc]]; [done|by apply (H5 q')]|].
    apply elem_of_dom. rewrite (mstore64_dom _ _ _ _ Hs), dom_insert_L, elem_of_union, elem_of_singleton, elem_of_dom.
    destruct Hc as [[_ <-]|[_ Hc]]; [by left|right; by apply (H5 q')].
  - intros q' c j. rewrite lookup_insert_Some. intros [[<- <-]|[_ Hq']]; [|by apply grow_word]. intros Hl' Hj.
    exists 0. split; [by apply grow_new|]. unfold child_word. rewrite lookup_insert_ne.
    + destruct (T !! ((q ++ [i]) ++ [j])) eqn:E; [|done]. apply H3 in E as [? E]. by rewrite Hno in E.
    + intros E. apply (f_equal length) in E. rewrite !length_app in E. simpl in E. lia.
Qed.

(** Its entries are empty, as they were. *)
Lemma entry_grow x : entry m' (<[q ++ [i] := b]> T) x = entry m T x.
Proof.
  unfold entry, leaf. destruct (decide (q ++ [i] = [PX 2 x; PX 1 x])) as [E|Hne].
  - rewrite <-E, lookup_insert_eq, Hno. simpl. rewrite grow_new by apply PX_bound. done.
  - rewrite lookup_insert_ne by done. destruct (T !! [PX 2 x; PX 1 x]) as [c|] eqn:Hc; [|done]. simpl.
    pose proof (tr_aligned _ _ _ _ _ Ht Hc). pose proof (tr_aligned _ _ _ _ _ Ht Hq).
    rewrite grow_old; [done|done|apply PX_bound|intros ->; apply Hbn; by eexists|].
    intros [-> _]%word_inj; [|done|done|apply PX_bound|done].
    pose proof (tr_inj _ _ _ Ht _ _ _ Hq Hc) as Eq. pose proof grow_len as Hlen. rewrite Eq in Hlen. simpl in Hlen. lia.
Qed.
End grow.
End table.

(** ** Walking *)

Section walk.
Context {D : Type} `{!BlockStore D} {L : Layout}.
Implicit Types s : kst D.

(** The table rooted at [pt] and the free list [l] share no page. *)
Record vm_inv s (pt : Z) (T : tree) (l : list Z) : Prop := {
  vi_kmem : kmem_inv s l;
  vi_tree : tree_ok (mem s) pt T;
  vi_apart p : in_tree T p → p ∉ l;
}.

(** From [s] to [s'] the table took the pages [used] from the free list, and
    nothing outside the table and the free list changed. *)
Record took s T l s' T' l' (used : list Z) : Prop := {
  tk_state : s' = s <| freelist := freelist s' |> <| mem := mem s' |>;
  tk_list : l = used ++ l';
  tk_sub : T ⊆ T';
  tk_pages p : in_tree T' p ↔ in_tree T p ∨ p ∈ used;
  tk_other p : ¬ in_tree T p → p ∉ l → mem s' !! p = mem s !! p;
}.

Lemma took_refl s T l : took s T l s T l [].
Proof. split; try done; [by destruct s|set_solver]. Qed.

Lemma took_trans s1 T1 l1 u1 s2 T2 l2 u2 s3 T3 l3 :
  took s1 T1 l1 s2 T2 l2 u1 → took s2 T2 l2 s3 T3 l3 u2 → took s1 T1 l1 s3 T3 l3 (u1 ++ u2).
Proof.
  intros [A1 A2 A3 A4 A5] [B1 B2 B3 B4 B5]. split.
  - rewrite B1, A1. by destruct s1.
  - by rewrite A2, B2, app_assoc.
  - by etrans.
  - intros p. rewrite B4, A4, elem_of_app. tauto.
  - intros p Hp Hl. rewrite A2, not_elem_of_app in Hl. rewrite B5; [apply A5; [done|set_solver]| |set_solver].
    rewrite A4. naive_solver.
Qed.

Lemma kmem_inv_mem s l m' : kmem_inv s l → (∀ p, p ∈ l → m' !! p = mem s !! p) → mem_wf m' → kmem_inv (s <| mem := m' |>) l.
Proof.
  intros [H1 H2 H3 H4 H5 H6] Hm Hwf. split; simpl; try done.
  - eapply chain_frame; [|exact H1]. rewrite Forall_forall in H3. intros p Hp. split; [by apply H3|by apply Hm].
  - intros p Hp. rewrite Hm by done. auto.
Qed.

(** A write to a page that is neither the table's nor free. *)
Lemma vm_inv_mem s pt T l m' : vm_inv s pt T l → (∀ p, p ∈ l ∨ in_tree T p → m' !! p = mem s !! p) → mem_wf m' →
  vm_inv (s <| mem := m' |>) pt T l ∧ ∀ x, entry m' T x = entry (mem s) T x.
Proof.
  intros [Hk Ht Ha] Hm Hwf. destruct (tree_frame (mem s) m' pt T Ht) as [Ht' He]; [auto|].
  split; [|done]. split; [apply kmem_inv_mem; auto|done|done].
Qed.

(** Writing an entry. *)
Lemma store_entry s pt T l va a v : vm_inv s pt T l → leaf T va = Some a → 0 ≤ va < MAXVA → 0 ≤ v < 2 ^ 64 →
  ∃ m', store64 a v s = Ok (tt, s <| mem := m' |>) ∧ vm_inv (s <| mem := m' |>) pt T l ∧
    (∀ x, 0 ≤ x < MAXVA → entry m' T x = if decide (pg x = pg va) then v else entry (mem s) T x) ∧
    ∀ p, ¬ in_tree T p → m' !! p = mem s !! p.
Proof.
  intros [Hk Ht Ha] Hl Hva Hv. pose proof (leaf_word _ _ _ _ _ (km_wf _ _ Hk) Ht Hl) as Hw.
  destruct (mstore64_ok _ _ _ v Hw) as [m' Hs]. destruct (leaf_in_tree _ _ _ _ _ Ht Hl) as [Hin _].
  assert (∀ p, ¬ in_tree T p → m' !! p = mem s !! p) as Ho.
  { intros p Hp. eapply mstore64_other_page; [done|]. by intros ->. }
  destruct (tree_store (mem s) pt T va a v m') as [Ht' He]; [apply Hk|done..|]. exists m'. split_and!; [by apply store64_ok| |done|done].
  split; [apply kmem_inv_mem|done|done]; [done| |by eapply mstore64_wf; [apply Hk|]].
  intros p Hp. apply Ho. intros Hp'. by destruct (Ha p).
Qed.

(** Looking an entry up changes nothing. *)
Lemma walk_level_find s pt T l ka alloc va level q a b : vm_inv s pt T l → T !! q = Some a →
  T !! (q ++ [PX level va]) = Some b → walk_level ka alloc va level a s = Ok (b, s).
Proof.
  intros [Hk Ht _] Hq Hb. destruct (path_snoc _ _ (tr_path _ _ _ Ht _ _ Hb)) as [Hl _].
  destruct (tr_word _ _ _ Ht q a (PX level va) Hq) as (e & He & Hc); [lia|apply PX_bound|].
  unfold child_word in Hc. rewrite Hb in Hc. destruct (tr_page _ _ _ Ht _ _ Hb) as [Hap _].
  destruct (table_word b Hap) as (Hv & Hpa & _). rewrite <-Hc in Hv, Hpa.
  unfold walk_level. cbv zeta. erewrite bind_step by (by apply load64_ok). by rewrite Hv, Hpa.
Qed.
Lemma walk_level_none s pt T l ka va level q a : vm_inv s pt T l → T !! q = Some a → (length q < 2)%nat →
  T !! (q ++ [PX level va]) = None → walk_level ka false va level a s = Ok (0, s).
Proof.
  intros [Hk Ht _] Hq Hl Hno. destruct (tr_word _ _ _ Ht q a (PX level va) Hq) as (e & He & Hc); [lia|apply PX_bound|].
  unfold child_word in Hc. rewrite Hno in Hc. unfold walk_level. cbv zeta.
  erewrite bind_step by (by apply load64_ok). by rewrite Hc.
Qed.

Lemma in_tree_pos s pt T l q a : vm_inv s pt T l → T !! q = Some a → a ≠ 0.
Proof. intros Hi Hq. destruct (tr_page _ _ _ (vi_tree _ _ _ _ Hi) _ _ Hq) as [[? _]%alloc_page_range _]. lia. Qed.

Lemma walk_finds s pt T l ka va : vm_inv s pt T l → va < MAXVA →
  walk ka pt va false s = Ok (default 0 (leaf T va), s).
Proof.
  intros Hi Hva. pose proof (tr_root _ _ _ (vi_tree _ _ _ _ Hi)) as Hr. unfold walk. destruct (Z.leb_spec MAXVA va); [lia|].
  unfold leaf. destruct (T !! [PX 2 va]) as [l1|] eqn:E1.
  - erewrite bind_step by (eapply (walk_level_find _ _ _ _ _ _ _ _ []); done).
    destruct (Z.eqb_spec l1 0); [by destruct (in_tree_pos _ _ _ _ _ _ Hi E1)|].
    destruct (T !! [PX 2 va; PX 1 va]) as [l0|] eqn:E0.
    + erewrite bind_step by (eapply (walk_level_find _ _ _ _ _ _ _ _ [PX 2 va]); done).
      destruct (Z.eqb_spec l0 0); [by destruct (in_tree_pos _ _ _ _ _ _ Hi E0)|]. done.
    + erewrite bind_step by (eapply (walk_level_none _ _ _ _ _ _ _ [PX 2 va]); [done..|simpl; lia|done]). done.
  - erewrite bind_step by (eapply (walk_level_none _ _ _ _ _ _ _ []); [done..|simpl; lia|done]).
    destruct (T !! [PX 2 va; PX 1 va]) as [l0|] eqn:E0; [|done].
    apply (tr_parent _ _ _ (vi_tree _ _ _ _ Hi) [_]) in E0 as [? E0]. by rewrite E1 in E0.
Qed.

(** What a walk that may allocate leaves: at most [n] pages taken, no entry changed. *)
Definition made (n : nat) s pt T l s' T' l' (used : list Z) : Prop :=
  vm_inv s' pt T' l' ∧ took s T l s' T' l' used ∧ (length used ≤ n)%nat ∧
  ∀ x, entry (mem s') T' x = entry (mem s) T x.

Lemma made_trans n1 n2 pt s1 T1 l1 u1 s2 T2 l2 u2 s3 T3 l3 :
  made n1 s1 pt T1 l1 s2 T2 l2 u1 → made n2 s2 pt T2 l2 s3 T3 l3 u2 → made (n1 + n2) s1 pt T1 l1 s3 T3 l3 (u1 ++ u2).
Proof.
  intros (_ & A2 & A3 & A4) (B1 & B2 & B3 & B4). split_and!; [done|by eapply took_trans|rewrite length_app; lia|].
  intros x. by rewrite B4.
Qed.

Lemma took_held s T l s' T' l' u : took s T l s' T' l' u → held s' = held s.
Proof. intros Ht. by rewrite (tk_state _ _ _ _ _ _ _ Ht). Qed.

(** The new table of a level, zeroed and linked. *)
Lemma grow_level s pt T b l q a i m' : vm_inv s pt T (b :: l) → T !! q = Some a → path_ok (q ++ [i]) →
  T !! (q ++ [i]) = None → mstore64 (<[b := zrepl PGSIZE 0]> (mem s)) (a + 8 * i) (setb (PA2PTE b) PTE_V) = Some m' →
  made 1 s pt T (b :: l) (s <| freelist := next_of l |> <| mem := m' |>) (<[q ++ [i] := b]> T) l [b].
Proof.
  intros [Hk Ht Ha] Hq Hok Hno Hs. destruct (path_snoc _ _ Hok) as [Hl Hi]. pose proof (km_pages _ _ Hk) as [Hb _]%Forall_cons.
  assert (¬ in_tree T b) as Hbn by (intros Hb'; apply (Ha b Hb'); set_solver).
  assert (is_Some (mem s !! b)) as Hbp by (apply (km_present _ _ Hk); set_solver).
  destruct (word_page a i) as [Epg _]; [by eapply tr_aligned|done|].
  assert (∀ p, p ≠ a → p ≠ b → m' !! p = mem s !! p) as Ho.
  { intros p Hpa Hpb. rewrite (mstore64_other_page _ _ _ _ p Hs) by (by rewrite Epg). by rewrite lookup_insert_ne. }
  assert (NoDup (b :: l)) as [Hbl _]%NoDup_cons by apply Hk.
  pose proof (km_wf _ _ Hk) as Hwf.
  assert (∀ p, in_tree (<[q ++ [i] := b]> T) p ↔ in_tree T p ∨ p ∈ [b]) as Hin.
  { intros p. rewrite list_elem_of_singleton. unfold in_tree. split.
    - intros [q' [[_ <-]|[_ ?]]%lookup_insert_Some]; [by right|left; by eexists].
    - intros [[q' Hq']| ->]; [|exists (q ++ [i]); apply lookup_insert_eq].
      exists q'. apply lookup_insert_Some. right. split; [|done]. intros <-. by rewrite Hno in Hq'. }
  split_and!; [split| |done|].
  - apply (kmem_inv_mem (allocated s b l)); [by apply allocated_inv| |].
    + intros p Hp. simpl. rewrite lookup_insert_ne by set_solver. apply Ho; [|set_solver].
      intros ->. apply (Ha a); [by eexists|set_solver].
    + eapply mstore64_wf; [|done]. apply mem_wf_insert; [done|by apply (alloc_page_range b)|by apply zlen_zrepl].
  - by eapply (tree_grow (mem s) pt T q i a b).
  - intros p [Hp|Hp]%Hin; [|set_solver]. specialize (Ha p Hp). set_solver.
  - split; try done.
    + by apply insert_subseteq.
    + intros p Hp Hpl. apply Ho; [|set_solver]. intros ->. apply Hp. by eexists.
  - intros x. by eapply (entry_grow (mem s) pt T q i a b).
Qed.

Lemma walk_level_makes s pt T l va level q a : vm_inv s pt T l → LKmem ∉ held s → T !! q = Some a → (length q < 2)%nat →
  (q = [] → PX level va < 256) → (1 ≤ length l)%nat →
  ∃ b s' T' l' used, walk_level kalloc true va level a s = Ok (b, s') ∧ made 1 s pt T l s' T' l' used ∧
    T' !! (q ++ [PX level va]) = Some b.
Proof.
  intros Hi Hh Hq Hl H0 Hlen. destruct (T !! (q ++ [PX level va])) as [b|] eqn:Hno.
  { exists b, s, T, l, []. split_and!; [by eapply walk_level_find| |done]. split_and!; [done|apply took_refl|simpl; lia|done]. }
  destruct l as [|b l]; [simpl in Hlen; lia|]. pose proof Hi as [Hk Ht Ha]. pose proof (km_wf _ _ Hk) as Hwf.
  pose proof (km_pages _ _ Hk) as [Hb _]%Forall_cons. destruct (alloc_page_range b Hb) as [Hb0 Hba].
  destruct (tr_word _ _ _ Ht q a (PX level va) Hq) as (e & He & Hc); [lia|apply PX_bound|].
  unfold child_word in Hc. rewrite Hno in Hc.
  destruct (word_page a (PX level va)) as [Epg _]; [by eapply tr_aligned|apply PX_bound|].
  assert (a ≠ b) as Hab by (intros ->; apply (Ha b); [by eexists|set_solver]).
  destruct (mstore64_ok (<[b := zrepl PGSIZE 0]> (mem s)) (a + 8 * PX level va) e (setb (PA2PTE b) PTE_V)) as [m' Hs].
  { rewrite <-He. apply mload64_page. by rewrite Epg, lookup_insert_ne. }
  eexists b, _, _, l, [b]. split_and!; [|eapply grow_level; [done..| |done|done]|apply lookup_insert_eq].
  2:{ apply path_next; [by eapply tr_path|done|apply PX_bound|done]. }
  unfold walk_level. cbv zeta. erewrite bind_step by (by apply load64_ok). rewrite Hc. cbn [negb].
  erewrite bind_step by (by apply kalloc_ok). destruct (Z.eqb_spec b 0); [lia|].
  erewrite bind_step; [|eapply memset_page_ok; [apply (allocated_inv _ _ _ Hk)|simpl; apply lookup_insert_eq]].
  simpl mem. rewrite insert_insert_eq. erewrite bind_step by (apply store64_ok; exact Hs). done.
Qed.

(** [walk] with [alloc]: the place of the entry for [va], at the cost of at most two pages. *)
Lemma walk_makes s pt T l va : vm_inv s pt T l → LKmem ∉ held s → 0 ≤ va < MAXVA → (2 ≤ length l)%nat →
  ∃ a s' T' l' used, walk kalloc pt va true s = Ok (a, s') ∧ made 2 s pt T l s' T' l' used ∧ leaf T' va = Some a.
Proof.
  intros Hi Hh Hva Hlen. pose proof (tr_root _ _ _ (vi_tree _ _ _ _ Hi)) as Hr. unfold walk. destruct (Z.leb_spec MAXVA va); [lia|].
  destruct (walk_level_makes s pt T l va 2 [] pt) as (l1 & s1 & T1 & f1 & u1 & E1 & M1 & H1); [done..|simpl; lia|intros; by apply PX_first|lia|].
  rewrite (bind_step _ _ _ _ _ E1). pose proof M1 as (I1 & K1 & N1 & _). rewrite (tk_list _ _ _ _ _ _ _ K1), length_app in Hlen.
  destruct (Z.eqb_spec l1 0); [by destruct (in_tree_pos _ _ _ _ _ _ I1 H1)|].
  destruct (walk_level_makes s1 pt T1 f1 va 1 [PX 2 va] l1) as (l0 & s2 & T2 & f2 & u2 & E2 & M2 & H2);
    [done|by rewrite (took_held _ _ _ _ _ _ _ K1)|done|simpl; lia|done|lia|].
  rewrite (bind_step _ _ _ _ _ E2). pose proof M2 as (I2 & _).
  destruct (Z.eqb_spec l0 0); [by destruct (in_tree_pos _ _ _ _ _ _ I2 H2)|].
  exists (l0 + 8 * PX 0 va), s2, T2, f2, (u1 ++ u2). split_and!; [done|by apply (made_trans 1 1 _ _ _ _ _ s1 T1 f1)|].
  unfold leaf. simpl in H2. by rewrite H2.
Qed.
End walk.

(** ** Mapping *)

(** The entry [mappages] makes. *)
Definition leaf_pte (pa perm : Z) : Z := setb (setb (PA2PTE pa) perm) PTE_V.

Lemma leaf_pte_range pa perm : 0 ≤ pa < 2 ^ 56 → 0 ≤ perm < 1024 → 0 ≤ leaf_pte pa perm < 2 ^ 64.
Proof.
  intros. unfold leaf_pte. apply setb_bound; [lia| |lia]. unfold setb, PA2PTE. apply pte_bound; [lia|].
  rewrite Z.shiftr_div_pow2 by lia. dlia.
Qed.

Lemma pg_in a va n : va mod PGSIZE = 0 → a mod PGSIZE = 0 → va ≤ a < va + (n + 1) * PGSIZE →
  va + n * PGSIZE ≤ a → a = va + n * PGSIZE.
Proof. intros. dlia. Qed.

(** Addresses in a range of pages. *)
Lemma pg_in_range va n x : va mod PGSIZE = 0 → va ≤ pg x < va + n * PGSIZE ↔ va ≤ x < va + n * PGSIZE.
Proof. unfold pg. intros. dlia. Qed.

Section mapping.
Context {D : Type} `{!BlockStore D} {L : Layout}.
Implicit Types s : kst D.

Lemma took_mem s T l s' T' l' u m' : took s T l s' T' l' u → (∀ p, ¬ in_tree T' p → m' !! p = mem s' !! p) →
  took s T l (s' <| mem := m' |>) T' l' u.
Proof.
  intros [H1 H2 H3 H4 H5] Hm. split; try done; [simpl; rewrite H1; by destruct s|].
  intros p Hp Hl. simpl. rewrite Hm; [by apply H5|]. rewrite H4, H2 in *. set_solver.
Qed.

Lemma mappage1_inserts s pt T l va pa perm i : vm_inv s pt T l → LKmem ∉ held s → 0 ≤ va + i * PGSIZE < MAXVA →
  (2 ≤ length l)%nat → 0 ≤ pa + i * PGSIZE < 2 ^ 56 → 0 ≤ perm < 1024 → has (entry (mem s) T (va + i * PGSIZE)) PTE_V = false →
  ∃ s' T' l' used, mappage1 pt va pa perm i s = Ok (None, s') ∧ vm_inv s' pt T' l' ∧ took s T l s' T' l' used ∧
    (length used ≤ 2)%nat ∧ ∀ x, 0 ≤ x < MAXVA →
      entry (mem s') T' x = if decide (pg x = pg (va + i * PGSIZE)) then leaf_pte (pa + i * PGSIZE) perm else entry (mem s) T x.
Proof.
  intros Hi Hh Hva Hlen Hpa Hperm Hno. unfold mappage1.
  destruct (walk_makes s pt T l (va + i * PGSIZE)) as (a & s1 & T1 & l1 & u & E & (I1 & K1 & N1 & M1) & Hl); [done..|].
  rewrite (bind_step _ _ _ _ _ E). destruct (leaf_in_tree _ _ _ _ _ (vi_tree _ _ _ _ I1) Hl) as [_ Ha0].
  destruct (Z.eqb_spec a 0); [done|].
  pose proof (leaf_word _ _ _ _ _ (km_wf _ _ (vi_kmem _ _ _ _ I1)) (vi_tree _ _ _ _ I1) Hl) as Hw.
  erewrite bind_step by (by apply load64_ok). rewrite M1, Hno.
  destruct (store_entry s1 pt T1 l1 (va + i * PGSIZE) a (leaf_pte (pa + i * PGSIZE) perm)) as (m' & E2 & I2 & He & Ho);
    [done..|by apply leaf_pte_range|].
  rewrite (bind_step _ _ _ _ _ E2). exists (s1 <| mem := m' |>), T1, l1, u. split_and!; [done|done|by apply took_mem|done|].
  intros x Hx. simpl. rewrite He, M1 by done. done.
Qed.

Lemma mappages_loop s pt T l va pa perm k : vm_inv s pt T l → LKmem ∉ held s → va mod PGSIZE = 0 → 0 ≤ va →
  va + Z.of_nat k * PGSIZE ≤ MAXVA → (2 * k ≤ length l)%nat → 0 ≤ pa → pa + Z.of_nat k * PGSIZE ≤ 2 ^ 56 → 0 ≤ perm < 1024 →
  (∀ x, va ≤ x < va + Z.of_nat k * PGSIZE → has (entry (mem s) T x) PTE_V = false) →
  ∃ s' T' l' used, for_find (mappage1 pt va pa perm) (upto (Z.of_nat k)) s = Ok (None, s') ∧ vm_inv s' pt T' l' ∧
    took s T l s' T' l' used ∧ (length used ≤ 2 * k)%nat ∧ ∀ x, 0 ≤ x < MAXVA →
      entry (mem s') T' x = if decide (va ≤ pg x < va + Z.of_nat k * PGSIZE) then leaf_pte (pa + (pg x - va)) perm
                            else entry (mem s) T x.
Proof.
  intros Hi Hh Hal Hva. induction k as [|k IH]; intros Hb Hlen Hpa Hpb Hperm Hno.
  { exists s, T, l, []. split_and!; [done|done|apply took_refl|done|]. intros x Hx. by rewrite decide_False by lia. }
  destruct IH as (s1 & T1 & l1 & u1 & E1 & I1 & K1 & N1 & M1); [lia..|done| |].
  { intros x Hx. apply Hno. lia. }
  pose proof (tk_list _ _ _ _ _ _ _ K1) as El. rewrite El, length_app in Hlen.
  assert (pg (va + Z.of_nat k * PGSIZE) = va + Z.of_nat k * PGSIZE) as Epg by (apply pg_id; dlia).
  destruct (mappage1_inserts s1 pt T1 l1 va pa perm (Z.of_nat k)) as (s2 & T2 & l2 & u2 & E2 & I2 & K2 & N2 & M2).
  { done. } { by rewrite (took_held _ _ _ _ _ _ _ K1). } { lia. } { lia. } { lia. } { done. }
  { rewrite M1, Epg, decide_False by lia. apply Hno. lia. }
  exists s2, T2, l2, (u1 ++ u2). split_and!; [|done|by eapply took_trans|rewrite length_app; lia|].
  - rewrite Nat2Z.inj_succ, <-Z.add_1_r, upto_S, for_find_app, (bind_step _ _ _ _ _ E1) by lia. simpl.
    by rewrite (bind_step _ _ _ _ _ E2).
  - intros x Hx. rewrite M2, M1, Epg by done. pose proof (pg_aligned x) as Hp.
    destruct (decide (pg x = va + Z.of_nat k * PGSIZE)) as [E|Hne].
    + rewrite E, decide_True by lia. f_equal. lia.
    + destruct (decide (va ≤ pg x < va + Z.of_nat k * PGSIZE)); [by rewrite decide_True by lia|].
      rewrite decide_False; [done|]. intros ?. apply Hne, (pg_in _ _ _ Hal Hp); lia.
Qed.

(** [mappages] is an insertion in a map: on a page table and a free list that
    share nothing and a range with nothing mapped, with two free pages for each
    page to map, it returns 0; the entries of the range are the new ones, every
    other entry is as it was, the pages taken from the free list are now the
    table's, and no byte outside the table and the free list has changed. *)
Theorem mappages_inserts s pt T l va size pa perm :
  vm_inv s pt T l → LKmem ∉ held s →
  va mod PGSIZE = 0 → size mod PGSIZE = 0 → 0 ≤ va → 0 < size → va + size ≤ MAXVA →
  2 * (size / PGSIZE) ≤ zlen l → 0 ≤ pa → pa + size ≤ 2 ^ 56 → 0 ≤ perm < 1024 →
  (∀ x, va ≤ x < va + size → has (entry (mem s) T x) PTE_V = false) →
  ∃ s' T' l' used, mappages pt va size pa perm s = Ok (0, s') ∧ vm_inv s' pt T' l' ∧ took s T l s' T' l' used ∧
    zlen used ≤ 2 * (size / PGSIZE) ∧ ∀ x, 0 ≤ x < MAXVA → entry (mem s') T' x =
      if decide (va ≤ x < va + size) then leaf_pte (pa + (pg x - va)) perm else entry (mem s) T x.
Proof.
  intros Hi Hh Hal Hsz Hva Hpos Hb Hlen Hpa Hpb Hperm Hno.
  assert (Z.of_nat (Z.to_nat (size / PGSIZE)) * PGSIZE = size) as Ek by dlia.
  destruct (mappages_loop s pt T l va pa perm (Z.to_nat (size / PGSIZE))) as (s' & T' & l' & u & E & I & K & N & M);
    rewrite ?Ek; [done..|unfold zlen in Hlen; lia|lia|lia|done|done|].
  exists s', T', l', u. split_and!; [|done|done|unfold zlen; dlia|].
  - unfold mappages. rewrite Hal, Hsz. cbn [negb Z.eqb]. destruct (Z.eqb_spec size 0); [lia|].
    rewrite Z2Nat.id in E by dlia. by rewrite (bind_step _ _ _ _ _ E).
  - intros x Hx. rewrite M, Ek by done. apply decide_ext. rewrite <-Ek. by apply pg_in_range.
Qed.
End mapping.
