(* ===== verification/FreeTable.v ===== *)
(** * Taking page tables down

    [uvmunmap], [freewalk] and [uvmfree] of [kernel/vm.c] on the page tables of
    [PageTable]: unmapping removes a range from the map and gives its pages and
    swap slots back, and freeing a table gives back every page it is made of. *)

From stdpp Require Import base numbers list gmap strings.
From S2P Require Import Prelude Machine KState Disk Raid Kalloc Evict VM PageTable.
Open Scope Z_scope.
Open Scope kernel_scope.

(** ** Unmapping *)

(** What becomes of an entry, the page it frees and the slot it frees. *)
Definition unmapped_pte (e : Z) : Z := if has e PTE_V || has e PTE_SWAPPED then 0 else e.
Definition freed_page_of (do_free : bool) (e : Z) : list Z := if has e PTE_V && do_free then [PTE2PA e] else [].
Definition freed_slot_of (e : Z) : list Z := if has e PTE_V then [] else if has e PTE_SWAPPED then [i32 (Z.shiftr e 10)] else [].

(** The entries of [n] pages from [va] on. *)
Definition entries (m : phys) (T : tree) (va n : Z) : list Z := (λ i, entry m T (va + i * PGSIZE)) <$> upto n.
Definition clear_frames (fs : list frame) (ps : list Z) : list frame := foldl clear_frame fs (frame_index <$> ps).
Definition clear_slots (sp : list bool) (ks : list Z) : list bool := foldl (λ sp k, zset sp k false) sp ks.

Lemma clear_frames_app fs ps ps' : clear_frames fs (ps ++ ps') = clear_frames (clear_frames fs ps) ps'.
Proof. unfold clear_frames. by rewrite fmap_app, foldl_app. Qed.
Lemma clear_slots_app sp ks ks' : clear_slots sp (ks ++ ks') = clear_slots (clear_slots sp ks) ks'.
Proof. apply foldl_app. Qed.
Lemma zlen_clear_slots sp ks : zlen (clear_slots sp ks) = zlen sp.
Proof. revert sp. induction ks as [|k ks IH]; intros sp; [done|]. cbn [clear_slots foldl]. unfold clear_slots in IH. by rewrite IH, zlen_zset. Qed.

Lemma entries_S m T va n : 0 ≤ n → entries m T va (n + 1) = entries m T va n ++ [entry m T (va + n * PGSIZE)].
Proof. intros. unfold entries. by rewrite upto_S, fmap_app. Qed.

Section unmap.
Context {D : Type} `{!BlockStore D} {L : Layout}.
Implicit Types s : kst D.

(** From [s] to [s'] the pages [fr] and the slots [sl] were given back; besides,
    only pages in [P] changed. *)
Record gave s (P : Z → Prop) (fr sl : list Z) s' : Prop := {
  gv_state : s' = s <| freelist := freelist s' |> <| mem := mem s' |> <| frames := clear_frames (frames s) fr |>
                    <| swap_space := clear_slots (swap_space s) sl |>;
  gv_other p : ¬ P p → p ∉ fr → mem s' !! p = mem s !! p;
}.

Lemma gave_refl s P : gave s P [] [] s.
Proof. split; [by destruct s|done]. Qed.
Lemma gave_trans s1 s2 s3 P fr1 fr2 sl1 sl2 : gave s1 P fr1 sl1 s2 → gave s2 P fr2 sl2 s3 →
  gave s1 P (fr1 ++ fr2) (sl1 ++ sl2) s3.
Proof.
  intros [A1 A2] [B1 B2]. split.
  - rewrite B1, A1. destruct s1. unfold upd; simpl. by rewrite clear_frames_app, clear_slots_app.
  - intros p Hp Hf. rewrite B2, A2; [done|done|set_solver|done|set_solver].
Qed.
Lemma gave_mem s P fr sl s' m' : gave s P fr sl s' → (∀ p, ¬ P p → m' !! p = mem s' !! p) → gave s P fr sl (s' <| mem := m' |>).
Proof.
  intros [A1 A2] Hm. split; [|intros p Hp Hf; simpl; rewrite Hm by done; auto]. rewrite A1 at 1. by destruct s.
Qed.
Lemma gave_weaken s (P Q : Z → Prop) fr sl s' : gave s P fr sl s' → (∀ p, P p → Q p ∨ p ∈ fr) → gave s Q fr sl s'.
Proof. intros [A1 A2] H. split; [done|]. intros p Hp Hf. apply A2; [|done]. intros [?|?]%H; done. Qed.
Lemma gave_held s P fr sl s' : gave s P fr sl s' → held s' = held s.
Proof. intros [-> _]. done. Qed.

(** The locks [kfree] and [swap_free] take. *)
Definition unlocked s : Prop := LKmem ∉ held s ∧ LFrametable ∉ held s ∧ LSwap ∉ held s.

Lemma store_gave s pt T l va a v : vm_inv s pt T l → leaf T va = Some a → 0 ≤ va < MAXVA → 0 ≤ v < 2 ^ 64 →
  ∃ s', store64 a v s = Ok (tt, s') ∧ vm_inv s' pt T l ∧ gave s (in_tree T) [] [] s' ∧
    ∀ x, 0 ≤ x < MAXVA → entry (mem s') T x = if decide (pg x = pg va) then v else entry (mem s) T x.
Proof.
  intros Hi Hl Hva Hv. destruct (store_entry s pt T l va a v) as (m' & E & I & M & Ho); [done..|].
  exists (s <| mem := m' |>). split_and!; [done|done| |done]. split; [by destruct s|auto].
Qed.

(** Giving back a page that is not the table's. *)
Lemma kfree_gave s pt T l p : vm_inv s pt T l → unlocked s → alloc_page p → is_Some (mem s !! p) → ¬ in_tree T p → p ∉ l →
  kfree p s = Ok (tt, freed s p) ∧ vm_inv (freed s p) pt T (p :: l) ∧ gave s (in_tree T) [p] [] (freed s p) ∧
  ∀ x, entry (mem (freed s p)) T x = entry (mem s) T x.
Proof.
  intros [Hk Ht Ha] (L1 & L2 & _) Hp [page Hpage] Hin Hl.
  destruct (tree_frame (mem s) (mem (freed s p)) pt T Ht) as [Ht' He].
  { intros q Hq. simpl. apply lookup_insert_ne. by intros ->. }
  split; [by eapply kfree_ok; try apply Hk|]. split; [|split; [|done]].
  - split; [apply freed_inv; [done..|by eexists|destruct Hp; lia]|done|]. intros q Hq. specialize (Ha q Hq). set_solver.
  - split; [by destruct s|]. intros q _ Hq. simpl. apply lookup_insert_ne. set_solver.
Qed.

Lemma swap_free_gave s pt T l k : vm_inv s pt T l → unlocked s → 0 ≤ k < zlen (swap_space s) →
  let s' := s <| swap_space := zset (swap_space s) k false |> in
  swap_free k s = Ok (tt, s') ∧ vm_inv s' pt T l ∧ gave s (in_tree T) [] [k] s'.
Proof.
  intros [Hk Ht Ha] (_ & _ & L3) Hk0 s'. destruct (znth_lt (swap_space s) k) as [b Hb]; [done|]. split; [|split].
  - unfold swap_free. mstep acquire_ok; [|done]. erewrite bind_step by done. simpl. erewrite bind_step by (by apply opt_ok).
    erewrite bind_step by done. rewrite release_ok by (simpl; set_solver). apply Ok_pair. unfold s'. kst_eq. by rewrite held_restore.
  - split; [|done|done]. destruct Hk. by split.
  - split; [by destruct s|done].
Qed.

Lemma unlocked_gave s P fr sl s' : gave s P fr sl s' → unlocked s → unlocked s'.
Proof. intros Hg. unfold unlocked. by rewrite (gave_held _ _ _ _ _ Hg). Qed.

(** What the entry [e] names can be given back. *)
Definition can_free (b : bool) s T (l : list Z) (e : Z) : Prop :=
  (∀ p, p ∈ freed_page_of b e → alloc_page p ∧ is_Some (mem s !! p) ∧ ¬ in_tree T p ∧ p ∉ l) ∧
  (∀ k, k ∈ freed_slot_of e → 0 ≤ k < zlen (swap_space s)).

Lemma uvmunmap1_removes b s pt T l a : vm_inv s pt T l → unlocked s → 0 ≤ a < MAXVA →
  let e := entry (mem s) T a in can_free b s T l e →
  ∃ s', uvmunmap1 pt b a s = Ok (tt, s') ∧ vm_inv s' pt T (reverse (freed_page_of b e) ++ l) ∧
    gave s (in_tree T) (freed_page_of b e) (freed_slot_of e) s' ∧
    ∀ x, 0 ≤ x < MAXVA → entry (mem s') T x = if decide (pg x = pg a) then unmapped_pte e else entry (mem s) T x.
Proof.
  intros Hi Hu Ha e [Hpg Hsl]. unfold uvmunmap1. erewrite bind_step by (eapply walk_finds; [done|lia]).
  destruct (leaf T a) as [w|] eqn:Hw.
  2:{ assert (e = 0) as E0 by (unfold e, entry; by rewrite Hw). rewrite E0. exists s.
      split_and!; [done|done|apply gave_refl|]. intros x Hx. destruct (decide (pg x = pg a)) as [E|]; [|done].
      by rewrite <-entry_pg, E, entry_pg. }
  simpl. destruct (leaf_in_tree _ _ _ _ _ (vi_tree _ _ _ _ Hi) Hw) as [_ Hw0]. destruct (Z.eqb_spec w 0); [done|].
  erewrite bind_step by (apply load64_ok, (leaf_word _ _ _ _ _ (km_wf _ _ (vi_kmem _ _ _ _ Hi)) (vi_tree _ _ _ _ Hi) Hw)).
  fold e. unfold freed_page_of, freed_slot_of, unmapped_pte in *. destruct (has e PTE_V); simpl.
  - destruct b; simpl.
    + destruct (Hpg (PTE2PA e)) as (P1 & P2 & P3 & P4); [set_solver|].
      destruct (kfree_gave s pt T l (PTE2PA e)) as (E1 & I1 & G1 & M1); [done..|]. erewrite bind_step by exact E1.
      destruct (store_gave (freed s (PTE2PA e)) pt T (PTE2PA e :: l) a w 0) as (s' & E & I & G & M); [done..|].
      exists s'. split_and!; [done|done|by apply (gave_trans _ _ _ _ [_] [] [] [] G1 G)|]. intros x Hx. rewrite M, M1 by done. done.
    + erewrite bind_step by reflexivity. destruct (store_gave s pt T l a w 0) as (s' & E & I & G & M); [done..|]. by exists s'.
  - destruct (has e PTE_SWAPPED); simpl.
    + destruct (swap_free_gave s pt T l (i32 (Z.shiftr e 10))) as (E1 & I1 & G1); [done..|apply Hsl; set_solver|].
      rewrite (bind_step _ _ _ _ _ E1).
      destruct (store_gave _ pt T l a w 0 I1 Hw) as (s' & E & I & G & M); [done..|].
      exists s'. split_and!; [done|done|by apply (gave_trans _ _ _ _ [] [] [_] [] G1 G)|]. intros x Hx. by rewrite M.
    + exists s. split_and!; [done|done|apply gave_refl|]. intros x Hx. destruct (decide (pg x = pg a)) as [E|]; [|done].
      unfold e. by rewrite <-entry_pg, E, entry_pg.
Qed.

(** The pages and slots the entries [es] give back. *)
Definition freed_pages (b : bool) (es : list Z) : list Z := concat (freed_page_of b <$> es).
Definition freed_slots (es : list Z) : list Z := concat (freed_slot_of <$> es).

Lemma freed_pages_snoc b es e : freed_pages b (es ++ [e]) = freed_pages b es ++ freed_page_of b e.
Proof. unfold freed_pages. rewrite fmap_app, concat_app. simpl. by rewrite app_nil_r. Qed.
Lemma freed_slots_snoc es e : freed_slots (es ++ [e]) = freed_slots es ++ freed_slot_of e.
Proof. unfold freed_slots. rewrite fmap_app, concat_app. simpl. by rewrite app_nil_r. Qed.

Lemma elem_freed_pages b es p : p ∈ freed_pages b es ↔ ∃ e, e ∈ es ∧ p ∈ freed_page_of b e.
Proof.
  unfold freed_pages. rewrite list_elem_of_In, in_concat. setoid_rewrite <-list_elem_of_In.
  setoid_rewrite list_elem_of_fmap. naive_solver.
Qed.

(** They can all be given back. *)
Definition can_unmap (b : bool) s T (l es : list Z) : Prop :=
  NoDup (freed_pages b es) ∧ ∀ e, e ∈ es → can_free b s T l e.

(** Giving [fr] back does not stop another page from being given back. *)
Lemma can_free_gave b s s' T l e fr sl : can_free b s T l e → gave s (in_tree T) fr sl s' →
  (∀ p, p ∈ freed_page_of b e → p ∉ fr) → can_free b s' T (reverse fr ++ l) e.
Proof.
  intros [H1 H2] Hg Hd. split.
  - intros p Hp. destruct (H1 p Hp) as (A1 & A2 & A3 & A4). specialize (Hd p Hp).
    rewrite (gv_other _ _ _ _ _ Hg) by done. split_and!; [done..|]. rewrite elem_of_app, elem_of_reverse. tauto.
  - intros k Hk. rewrite (gv_state _ _ _ _ _ Hg). simpl. rewrite zlen_clear_slots. auto.
Qed.

Lemma uvmunmap_loop b s pt T l va k : vm_inv s pt T l → unlocked s → va mod PGSIZE = 0 → 0 ≤ va →
  va + Z.of_nat k * PGSIZE ≤ MAXVA → let es := entries (mem s) T va (Z.of_nat k) in can_unmap b s T l es →
  ∃ s', for_each (λ i, uvmunmap1 pt b (va + i * PGSIZE)) (upto (Z.of_nat k)) s = Ok (tt, s') ∧
    vm_inv s' pt T (reverse (freed_pages b es) ++ l) ∧ gave s (in_tree T) (freed_pages b es) (freed_slots es) s' ∧
    ∀ x, 0 ≤ x < MAXVA → entry (mem s') T x =
      if decide (va ≤ pg x < va + Z.of_nat k * PGSIZE) then unmapped_pte (entry (mem s) T x) else entry (mem s) T x.
Proof.
  intros Hi Hu Hal Hva. induction k as [|k IH]; intros Hb.
  { intros es _. change es with ([] : list Z). exists s. split_and!; [done|done|apply gave_refl|]. intros x Hx. by rewrite decide_False by lia. }
  rewrite Nat2Z.inj_succ, <-Z.add_1_r, entries_S by lia. set (es := entries (mem s) T va (Z.of_nat k)) in *.
  set (a := va + Z.of_nat k * PGSIZE) in *. intros es' [Hnd Hcan]. subst es'.
  rewrite freed_pages_snoc in *. rewrite freed_slots_snoc in *. apply NoDup_app in Hnd as (Hnd & Hdis & _).
  destruct IH as (s1 & E1 & I1 & G1 & M1); [unfold a in *; lia|split; [done|set_solver]|].
  assert (pg a = a) as Epg by (apply pg_id; unfold a; dlia).
  assert (entry (mem s1) T a = entry (mem s) T a) as Ea.
  { rewrite M1 by (unfold a in *; lia). rewrite Epg, decide_False by lia. done. }
  destruct (uvmunmap1_removes b s1 pt T (reverse (freed_pages b es) ++ l) a) as (s2 & E2 & I2 & G2 & M2).
  { done. } { by eapply unlocked_gave. } { unfold a in *; lia. }
  { rewrite Ea. eapply can_free_gave; [apply Hcan; set_solver|done|set_solver]. }
  rewrite Ea in *. exists s2. split_and!.
  - rewrite upto_S, for_each_app, (bind_step _ _ _ _ _ E1) by lia. simpl. by rewrite (bind_step _ _ _ _ _ E2).
  - by rewrite reverse_app, <-app_assoc.
  - by eapply gave_trans.
  - intros x Hx. rewrite M2, M1, Epg by done. pose proof (pg_aligned x) as Hp. fold a.
    destruct (decide (pg x = a)) as [E|Hne].
    + rewrite decide_True by (unfold a in *; lia). rewrite <-(entry_pg _ _ x). by rewrite E.
    + destruct (decide (va ≤ pg x < a)); [by rewrite decide_True by (unfold a in *; lia)|].
      rewrite decide_False; [done|]. intros ?. apply Hne, (pg_in _ _ _ Hal Hp); unfold a in *; lia.
Qed.

(** [uvmunmap] is a removal from a map: over any number of pages it returns;
    every entry of the range that is mapped or swapped becomes 0, every other
    entry stays; the pages that were mapped (when it is to free them) are put on
    the free list and the slots of the swapped ones are free again, in order;
    nothing outside the table and those pages has changed. *)
Theorem uvmunmap_removes b s pt T l va n :
  vm_inv s pt T l → unlocked s → va mod PGSIZE = 0 → 0 ≤ va → 0 ≤ n → va + n * PGSIZE ≤ MAXVA →
  let es := entries (mem s) T va n in can_unmap b s T l es →
  ∃ s', uvmunmap pt va n b s = Ok (tt, s') ∧
    vm_inv s' pt T (reverse (freed_pages b es) ++ l) ∧ gave s (in_tree T) (freed_pages b es) (freed_slots es) s' ∧
    ∀ x, 0 ≤ x < MAXVA → entry (mem s') T x =
      if decide (va ≤ x < va + n * PGSIZE) then unmapped_pte (entry (mem s) T x) else entry (mem s) T x.
Proof.
  intros Hi Hu Hal Hva Hn Hb es Hc. destruct (uvmunmap_loop b s pt T l va (Z.to_nat n)) as (s' & E & I & G & M);
    rewrite ?Z2Nat.id by done; [done..|]. rewrite Z2Nat.id in * by done. exists s'. split_and!; [|done|done|].
  - unfold uvmunmap. by rewrite Hal.
  - intros x Hx. rewrite M by done. pose proof (pg_in_range va n x Hal). apply decide_ext. done.
Qed.
End unmap.

(** ** Freeing the table *)

Lemma path_va i j k : path_ok [i; j] → 0 ≤ k < 512 → ∃ va, 0 ≤ va < MAXVA ∧ PX 2 va = i ∧ PX 1 va = j ∧ PX 0 va = k.
Proof.
  intros (_ & [Hi [Hj _]%Forall_cons]%Forall_cons & H0) Hk. simpl in H0. exists (i * 2 ^ 30 + j * 2 ^ 21 + k * 2 ^ 12).
  rewrite !PX_div by lia. simpl Z.add. simpl Z.pow. split_and!; dlia.
Qed.

(** The pages of the table at [q] and below, in the order [freewalk] frees them. *)
Fixpoint pages_below (d : nat) (T : tree) (q : list Z) : list Z :=
  match d with
  | O => []
  | S d => match T !! q with
           | None => []
           | Some a => concat ((λ i, pages_below d T (q ++ [i])) <$> upto 512) ++ [a]
           end
  end.

(** The part of them below the first [n] entries. *)
Definition pages_until (d : nat) (T : tree) (q : list Z) (n : Z) : list Z := concat ((λ i, pages_below d T (q ++ [i])) <$> upto n).

Lemma pages_until_S d T q n : 0 ≤ n → pages_until d T q (n + 1) = pages_until d T q n ++ pages_below d T (q ++ [n]).
Proof. intros. unfold pages_until. rewrite upto_S, fmap_app, concat_app by done. simpl. by rewrite app_nil_r. Qed.

Lemma elem_pages_until d T q n p : p ∈ pages_until d T q n ↔ ∃ i, 0 ≤ i < n ∧ p ∈ pages_below d T (q ++ [i]).
Proof.
  unfold pages_until. rewrite list_elem_of_In, in_concat. setoid_rewrite <-list_elem_of_In.
  setoid_rewrite list_elem_of_fmap. setoid_rewrite elem_of_upto. naive_solver.
Qed.

Lemma elem_pages_below d T q p : p ∈ pages_below d T q → ∃ q', T !! (q ++ q') = Some p.
Proof.
  revert q. induction d as [|d IH]; intros q; cbn [pages_below]; [set_solver|].
  destruct (T !! q) as [a|] eqn:Hq; [|set_solver]. fold (pages_until d T q 512).
  rewrite elem_of_app, list_elem_of_singleton, elem_pages_until. intros [(i & _ & [q' Hq']%IH)| ->].
  - exists (i :: q'). by rewrite <-Hq', <-app_assoc.
  - exists []. by rewrite app_nil_r.
Qed.

(** All of the table is below its root. *)
Lemma pages_below_all {L : Layout} m pt T d q q' p : tree_ok m pt T → T !! (q ++ q') = Some p → (length q' < d)%nat →
  p ∈ pages_below d T q.
Proof.
  intros Ht. revert q q'. induction d as [|d IH]; intros q q' Hp Hl; [lia|]. cbn [pages_below].
  destruct (tr_prefix _ _ _ _ _ _ Ht Hp) as [a Ha].
  rewrite Ha. fold (pages_until d T q 512). rewrite elem_of_app, list_elem_of_singleton, elem_pages_until.
  destruct q' as [|i q']; [right; rewrite app_nil_r, Ha in Hp; by simplify_eq|]. left. exists i.
  destruct (tr_path _ _ _ Ht _ _ Hp) as (_ & [_ [Hi _]%Forall_cons]%Forall_app & _). split; [done|].
  eapply (IH _ q'); [by rewrite <-app_assoc|simpl in Hl; lia].
Qed.

Section freewalk.
Context {D : Type} `{!BlockStore D} {L : Layout}.
Context (m0 : phys) (pt : Z) (T : tree).
Hypothesis Hwf0 : mem_wf m0.
Hypothesis Ht : tree_ok m0 pt T.
Hypothesis Hempty : ∀ x, 0 ≤ x < MAXVA → has (entry m0 T x) PTE_V = false.
Implicit Types s : kst D.

Local Lemma below_same q i j q1 q2 p : T !! ((q ++ [i]) ++ q1) = Some p → T !! ((q ++ [j]) ++ q2) = Some p → i = j.
Proof.
  intros H1 H2. pose proof (tr_inj _ _ _ Ht _ _ _ H1 H2) as E. rewrite <-!app_assoc in E. by apply app_inv_head in E as [=].
Qed.
Local Lemma below_root q i q1 p : T !! ((q ++ [i]) ++ q1) = Some p → T !! q ≠ Some p.
Proof.
  intros H1 H2. pose proof (tr_inj _ _ _ Ht _ _ _ H1 H2) as E. apply (f_equal length) in E. rewrite !length_app in E. simpl in E. lia.
Qed.

(** A word of a table: a link to the table below, or nothing mapped. *)
Local Lemma table_entry q a i : T !! q = Some a → 0 ≤ i < 512 → ∃ e, mload64 m0 (a + 8 * i) = Some e ∧
  match T !! (q ++ [i]) with
  | Some b => has e PTE_V = true ∧ has e (setb (setb PTE_R PTE_W) PTE_X) = false ∧ PTE2PA e = b
  | None => has e PTE_V = false
  end.
Proof.
  intros Hq Hi. destruct (tr_path _ _ _ Ht _ _ Hq) as (Hl & Hs & H0). destruct (decide (length q = 2%nat)) as [E|Hne].
  - destruct q as [|i2 [|i1 [|]]]; try done. destruct (path_va i2 i1 i) as (va & Hva & P2 & P1 & P0); [done..|].
    assert (leaf T va = Some (a + 8 * i)) as Hleaf by (unfold leaf; by rewrite P2, P1, Hq, <-P0).
    exists (entry m0 T va). split; [by eapply leaf_word|].
    destruct (T !! ([i2; i1] ++ [i])) as [b|] eqn:Hb; [|by apply Hempty]. apply (tr_path _ _ _ Ht) in Hb as [Hb _]. simpl in Hb. lia.
  - destruct (tr_word _ _ _ Ht q a i) as (e & He & Hc); [done|lia|done|]. exists e. split; [done|]. unfold child_word in Hc.
    destruct (T !! (q ++ [i])) as [b|] eqn:Hb; [|done]. destruct (tr_page _ _ _ Ht _ _ Hb) as [Hap _].
    destruct (table_word b Hap) as (Hv & Hpa & _). rewrite <-Hc in Hv, Hpa. split_and!; [done| |done].
    rewrite Hc. unfold setb, PA2PTE. rewrite pte_has by (vm_compute; done). reflexivity.
Qed.

(** The pages at [q] and below are as in [m0], and not free. *)
Definition intact s (l q : list Z) : Prop := ∀ q' b, T !! (q ++ q') = Some b → mem s !! b = m0 !! b ∧ b ∉ l.

(** The state in the loop of [freewalk] at the table at [q], below entry [n]. *)
Record walking (d : nat) s (l q : list Z) (a n : Z) s' : Prop := {
  wk_kmem : kmem_inv s' (reverse (pages_until d T q n) ++ l);
  wk_gave : gave s (λ p, p = a) (pages_until d T q n) [] s';
  wk_word i : n ≤ i < 512 → mload64 (mem s') (a + 8 * i) = mload64 m0 (a + 8 * i);
  wk_page : is_Some (mem s' !! a);
}.

Local Definition freewalk_turn (d : nat) (pagetable i : Z) : M (kst D) unit :=
  pte ← load64 (pagetable + 8 * i);
  if has pte PTE_V && negb (has pte (setb (setb PTE_R PTE_W) PTE_X)) then
    freewalk d (PTE2PA pte) ;; store64 (pagetable + 8 * i) 0
  else if has pte PTE_V then panic "freewalk: leaf" else mret tt.

(** What freeing the table at a path is to do. *)
Definition frees (d : nat) : Prop := ∀ q a s l, T !! q = Some a → (length q + d = 3)%nat → kmem_inv s l → unlocked s →
  intact s l q → ∃ s', freewalk d a s = Ok (tt, s') ∧ kmem_inv s' (reverse (pages_below d T q) ++ l) ∧
    gave s (λ _, False) (pages_below d T q) [] s'.

Local Lemma walking_intact d s l q a n s1 : T !! q = Some a → intact s l q → walking d s l q a n s1 →
  intact s1 (reverse (pages_until d T q n) ++ l) (q ++ [n]).
Proof.
  intros Hq Hin Hw q' c Hc. destruct (Hin (n :: q') c) as [Hm Hl]; [by rewrite <-Hc, <-app_assoc|].
  assert (c ∉ pages_until d T q n) as Hno.
  { rewrite elem_pages_until. intros (i & Hi & [q2 H2]%elem_pages_below). pose proof (below_same _ _ _ _ _ _ H2 Hc). lia. }
  rewrite (gv_other _ _ _ _ _ (wk_gave _ _ _ _ _ _ _ Hw)); [|intros ->; by eapply below_root|done].
  split; [done|]. rewrite elem_of_app, elem_of_reverse. tauto.
Qed.

Local Lemma freewalk_step d s l q a n s1 : frees d → T !! q = Some a → (length q + S d = 3)%nat → unlocked s → intact s l q →
  0 ≤ n < 512 → walking d s l q a n s1 → ∃ s2, freewalk_turn d a n s1 = Ok (tt, s2) ∧ walking d s l q a (n + 1) s2.
Proof.
  intros IH Hq Hlen Hu Hin Hn Hw. pose proof Hw as [Hk Hg Hword Hpage]. unfold freewalk_turn.
  pose proof (tr_aligned _ _ _ _ _ Ht Hq) as Hal.
  destruct (table_entry q a n Hq Hn) as (e & He & Hc). erewrite bind_step by (apply load64_ok; rewrite Hword; [done|lia]).
  destruct (T !! (q ++ [n])) as [b|] eqn:Hb.
  2:{ rewrite Hc. simpl. exists s1. split; [done|]. assert (pages_below d T (q ++ [n]) = []) as Eb by (destruct d; [done|]; simpl; by rewrite Hb).
      split; rewrite ?pages_until_S, ?Eb, ?app_nil_r by lia; [done|done| |done]. intros i Hi. apply Hword. lia. }
  destruct Hc as (-> & -> & ->). simpl. destruct (IH (q ++ [n]) b s1 (reverse (pages_until d T q n) ++ l)) as (s2 & E2 & K2 & G2).
  { done. } { rewrite length_app. simpl. lia. } { done. } { by eapply unlocked_gave. } { by eapply walking_intact. }
  rewrite (bind_step _ _ _ _ _ E2).
  assert (a ∉ pages_below d T (q ++ [n])) as Han by (intros [q' Ha]%elem_pages_below; by eapply below_root).
  assert (mem s2 !! a = mem s1 !! a) as Em by (apply (gv_other _ _ _ _ _ G2); auto).
  assert (mload64 (mem s2) (a + 8 * n) = Some e) as He2.
  { rewrite <-He, <-(Hword n) by lia. apply mload64_page. by destruct (word_page a n) as [-> _]. }
  destruct (mstore64_ok _ _ _ 0 He2) as [m' Hs]. exists (s2 <| mem := m' |>). split; [by apply store64_ok|].
  assert (∀ p, p ≠ a → m' !! p = mem s2 !! p) as Ho.
  { intros p Hp. eapply mstore64_other_page; [done|]. by destruct (word_page a n) as [-> _]. }
  assert (mem_wf m') as Hwf' by (eapply mstore64_wf; [apply K2|done]).
  split.
  - rewrite pages_until_S, reverse_app, <-app_assoc by lia. apply kmem_inv_mem; [done| |done]. intros p Hp. apply Ho.
    intros ->. destruct (Hin [] a) as [_ Hal']; [by rewrite app_nil_r|].
    rewrite !elem_of_app, !elem_of_reverse, elem_pages_until in Hp.
    destruct Hp as [?|[(i & _ & [q' Ha]%elem_pages_below)|?]]; [done|by eapply below_root|done].
  - rewrite pages_until_S by lia. apply gave_mem; [|done].
    apply (gave_trans s s1 s2 _ _ _ [] []); [done|]. by eapply gave_weaken; [exact G2|].
  - intros i Hi. rewrite (mload64_store_ne _ _ _ _ _ (km_wf _ _ K2) Hs) by lia. rewrite <-Hword by lia. apply mload64_page.
    destruct (word_page a i) as [-> _]; [done|lia|]. by rewrite Em.
  - simpl. apply elem_of_dom. rewrite (mstore64_dom _ _ _ _ Hs), elem_of_dom, Em. done.
Qed.

Local Lemma freewalk_loop d s l q a n : frees d → T !! q = Some a → (length q + S d = 3)%nat → kmem_inv s l → unlocked s →
  intact s l q → (n ≤ 512)%nat →
  ∃ s', for_each (freewalk_turn d a) (upto (Z.of_nat n)) s = Ok (tt, s') ∧ walking d s l q a (Z.of_nat n) s'.
Proof.
  intros IH Hq Hlen Hk Hu Hin. destruct (tr_page _ _ _ Ht _ _ Hq) as [_ Hp]. destruct (Hin [] a) as [Hm _]; [by rewrite app_nil_r|].
  induction n as [|n IHn]; intros Hn.
  - exists s. split; [done|]. split; [done|apply gave_refl| |by rewrite Hm]. intros i Hi. apply mload64_page.
    destruct (word_page a i) as [-> _]; [by eapply tr_aligned|lia|done].
  - destruct IHn as (s1 & E1 & W1); [lia|]. destruct (freewalk_step d s l q a (Z.of_nat n) s1) as (s2 & E2 & W2); [done..|lia|done|].
    exists s2. rewrite Nat2Z.inj_succ, <-Z.add_1_r. split; [|done].
    rewrite upto_S, for_each_app, (bind_step _ _ _ _ _ E1) by lia. simpl. by rewrite (bind_step _ _ _ _ _ E2).
Qed.

Lemma freewalk_frees d : frees d.
Proof.
  induction d as [|d IH]; intros q a s l Hq Hlen Hk Hu Hin.
  { destruct (tr_path _ _ _ Ht _ _ Hq) as [Hl _]. lia. }
  destruct (freewalk_loop d s l q a 512) as (s1 & E1 & W1); [done..|]. change (Z.of_nat 512) with 512 in *.
  destruct (Hin [] a) as [_ Hal]; [by rewrite app_nil_r|]. destruct (tr_page _ _ _ Ht _ _ Hq) as [Hap _].
  destruct W1 as [K1 G1 _ [page Hpage]]. pose proof (unlocked_gave _ _ _ _ _ G1 Hu) as (L1 & L2 & _).
  assert (a ∉ pages_until d T q 512) as Han.
  { rewrite elem_pages_until. intros (i & _ & [q' Ha]%elem_pages_below). by eapply below_root. }
  assert (pages_below (S d) T q = pages_until d T q 512 ++ [a]) as Eb by (cbn [pages_below]; by rewrite Hq).
  exists (freed s1 a). split_and!.
  - change (freewalk (S d) a s) with ((for_each (freewalk_turn d a) (upto 512) ;; kfree a) s).
    rewrite (bind_step _ _ _ _ _ E1). by eapply kfree_ok; try apply K1.
  - rewrite Eb, reverse_app. simpl. apply freed_inv; [done|done| |by eexists|destruct Hap; lia].
    rewrite elem_of_app, elem_of_reverse. tauto.
  - rewrite Eb. apply (gave_weaken _ (λ p, p = a)).
    2:{ intros p ->. right. rewrite elem_of_app, list_elem_of_singleton. by right. }
    refine (gave_trans s s1 (freed s1 a) _ _ [a] [] [] G1 _).
    split; [by destruct s1|]. intros p _ Hp. simpl. apply lookup_insert_ne. intros ->. apply Hp. constructor.
Qed.
End freewalk.

(** ** A process's table *)

Section process.
Context {D : Type} `{!BlockStore D} {L : Layout}.
Implicit Types s : kst D.

Lemma unmapped_invalid e : has (unmapped_pte e) PTE_V = false.
Proof. unfold unmapped_pte. destruct (has e PTE_V) eqn:E; [done|]. by destruct (has e PTE_SWAPPED). Qed.

Lemma entries_same m m' T T' va n : (∀ x, va ≤ x < va + n * PGSIZE → entry m' T' x = entry m T x) → entries m' T' va n = entries m T va n.
Proof. intros H. apply list_fmap_ext. intros _ i Hi%list_elem_of_lookup_2%elem_of_upto. apply H. lia. Qed.

(** Unmapping a page of the kernel's that is mapped below a process. *)
Lemma unmap_shared s pt T l va : vm_inv s pt T l → unlocked s → va mod PGSIZE = 0 → 0 ≤ va → va + PGSIZE ≤ MAXVA →
  has (entry (mem s) T va) PTE_V = true →
  ∃ s', uvmunmap pt va 1 false s = Ok (tt, s') ∧ vm_inv s' pt T l ∧ gave s (in_tree T) [] [] s' ∧
    ∀ x, 0 ≤ x < MAXVA → entry (mem s') T x = if decide (va ≤ x < va + PGSIZE) then 0 else entry (mem s) T x.
Proof.
  intros Hi Hu Hal Hva Hb Hv. assert (entries (mem s) T va 1 = [entry (mem s) T va]) as Ees.
  { rewrite (entries_S _ _ _ 0) by lia. unfold entries. simpl. by rewrite Z.add_0_r. }
  destruct (uvmunmap_removes false s pt T l va 1) as (s' & E & I & G & M); rewrite ?Ees in *; [done..|lia|lia| |].
  { unfold can_unmap, can_free, freed_pages, freed_page_of, freed_slot_of. simpl. rewrite Hv. simpl. split; [constructor|].
    intros e ->%list_elem_of_singleton. rewrite Hv. simpl. set_solver. }
  unfold freed_pages, freed_slots, freed_page_of, freed_slot_of in *. simpl in *. rewrite Hv in *. simpl in *.
  exists s'. split_and!; [done..|]. intros x Hx. rewrite M by done. replace (va + 1 * PGSIZE) with (va + PGSIZE) by lia.
  destruct (decide (va ≤ x < va + PGSIZE)) as [Hr|]; [|done].
  assert (pg x = va) as Ex by (revert Hr Hal; unfold pg; clear; intros; dlia).
  unfold unmapped_pte. by rewrite <-entry_pg, Ex, Hv.
Qed.

Lemma uvmfree_frees s pt T l sz : vm_inv s pt T l → unlocked s → 0 ≤ sz ≤ TRAPFRAME →
  let es := entries (mem s) T 0 (PGROUNDUP sz / PGSIZE) in can_unmap true s T l es →
  (∀ x, PGROUNDUP sz ≤ x < MAXVA → has (entry (mem s) T x) PTE_V = false) →
  ∃ s', uvmfree pt sz s = Ok (tt, s') ∧ kmem_inv s' (reverse (freed_pages true es ++ pages_below 3 T []) ++ l) ∧
    gave s (in_tree T) (freed_pages true es ++ pages_below 3 T []) (freed_slots es) s'.
Proof.
  intros Hi Hu Hsz es Hc Hrest. assert (PGROUNDUP sz = pg (sz + PGSIZE - 1)) as Eup by (apply PGROUNDUP_pg; lia).
  assert (PGROUNDUP sz / PGSIZE * PGSIZE = PGROUNDUP sz ∧ 0 ≤ PGROUNDUP sz ≤ TRAPFRAME) as [En Hup].
  { rewrite Eup. pose proof (pg_aligned (sz + PGSIZE - 1)). unfold pg in *. dlia. }
  destruct (uvmunmap_removes true s pt T l 0 (PGROUNDUP sz / PGSIZE)) as (s1 & E1 & I1 & G1 & M1); [done|done|done|lia|dlia|lia|done|].
  fold es in I1, G1. rewrite En in M1. pose proof I1 as [K1 T1 A1].
  assert (∀ x, 0 ≤ x < MAXVA → has (entry (mem s1) T x) PTE_V = false) as Hempty.
  { intros x Hx. rewrite M1 by done. destruct (decide (0 ≤ x < 0 + PGROUNDUP sz)); [apply unmapped_invalid|]. apply Hrest. lia. }
  destruct (freewalk_frees (D := D) (mem s1) pt T (km_wf _ _ K1) T1 Hempty 3 [] pt s1 (reverse (freed_pages true es) ++ l)) as (s2 & E2 & K2 & G2).
  { apply (tr_root _ _ _ T1). } { done. } { done. } { by eapply unlocked_gave. }
  { intros q' b Hb. split; [done|]. apply A1. by exists q'. }
  exists s2. split_and!.
  - unfold uvmfree. assert (when (0 <? sz) (uvmunmap pt 0 (PGROUNDUP sz / PGSIZE) true) s = Ok (tt, s1)) as E0.
    { destruct (Z.ltb_spec 0 sz); [done|]. assert (sz = 0) as Z0 by lia. rewrite Z0 in E1. exact E1. }
    by rewrite (bind_step _ _ _ _ _ E0).
  - by rewrite reverse_app, <-app_assoc.
  - rewrite <-(app_nil_r (freed_slots es)). eapply gave_trans; [done|]. eapply gave_weaken; [done|]. by intros p [].
Qed.

End process.
