(* ===== verification/UserMem.v ===== *)
(** * The memory of a process

    How [uvmalloc], [uvmcopy] and [uvmdealloc] of [kernel/vm.c] and
    [proc_freepagetable] of [kernel/proc.c] build user memory on the page tables
    of [PageTable] and take it down: growing a process maps fresh zeroed pages
    and changes nothing it had; [fork]'s copy has the parent's bytes in pages of
    its own; shrinking and freeing give back exactly the pages it had. *)

From stdpp Require Import base numbers list gmap strings.
From S2P Require Import Prelude Machine KState Disk Raid Kalloc Evict VM Proc PageTable FreeTable.
Open Scope Z_scope.
Open Scope kernel_scope.

Lemma PTE2PA_leaf p perm : 0 ≤ p < 2 ^ 56 → p mod PGSIZE = 0 → 0 ≤ perm < 1024 → PTE2PA (leaf_pte p perm) = p.
Proof.
  intros. unfold leaf_pte, setb. rewrite <-Z.lor_assoc. apply PTE2PA_make; [done..|]. apply (lor_bound _ _ 10); lia.
Qed.
Lemma leaf_valid p perm : has (leaf_pte p perm) PTE_V = true.
Proof. by apply has_setb. Qed.

Section user.
Context {D : Type} `{!BlockStore D} {L : Layout}.
Implicit Types s : kst D.

(** The table at [pt] with [n] pages of user memory, which share no page with
    each other, the table and the free list. *)
Definition user_mem s pt T l (n : Z) : Prop := vm_inv s pt T l ∧ can_unmap true s T l (entries (mem s) T 0 n).

(** The pages a process is made of. *)
Definition own s T (n p : Z) : Prop := in_tree T p ∨ p ∈ freed_pages true (entries (mem s) T 0 n).

(** From [s] to [s'] the pages [used] were taken from the free list; nothing but
    the table and the free list changed, frame table and counters apart. *)
Record grew (k : nat) s T l s' T' l' (used : list Z) : Prop := {
  gr_list : l = used ++ l';
  gr_len : (length used ≤ 3 * k)%nat;
  gr_tree p : in_tree T' p → in_tree T p ∨ p ∈ used;
  gr_other p : ¬ in_tree T p → p ∉ l → mem s' !! p = mem s !! p;
  gr_held : held s' = held s;
  gr_cur : cur s' = cur s;
  gr_procs i : is_Some (procs s !! i) → is_Some (procs s' !! i);
  gr_swap : swap_space s' = swap_space s;
}.

Lemma grew_refl s T l : grew 0 s T l s T l [].
Proof. split; auto. Qed.
Lemma grew_trans j k s1 T1 l1 u1 s2 T2 l2 u2 s3 T3 l3 :
  grew j s1 T1 l1 s2 T2 l2 u1 → grew k s2 T2 l2 s3 T3 l3 u2 → grew (j + k) s1 T1 l1 s3 T3 l3 (u1 ++ u2).
Proof.
  intros [A1 A2 A3 A4 A5 A6 A7 A8] [B1 B2 B3 B4 B5 B6 B7 B8]. split; try congruence.
  - by rewrite A1, B1, app_assoc.
  - rewrite length_app. lia.
  - intros p [Hp|Hp]%B3; rewrite elem_of_app; [apply A3 in Hp|]; tauto.
  - intros p Hp Hl. rewrite A1, not_elem_of_app in Hl. rewrite B4; [apply A4; [done|rewrite A1, elem_of_app; tauto]| |tauto].
    intros [?|?]%A3; tauto.
  - auto.
Qed.

(** A page that is neither the table's nor free stays so. *)
Lemma grew_outside k s T l s' T' l' u p : grew k s T l s' T' l' u → ¬ in_tree T p → p ∉ l →
  mem s' !! p = mem s !! p ∧ ¬ in_tree T' p ∧ p ∉ l'.
Proof.
  intros Hg Hp Hl. split; [by eapply gr_other|]. pose proof (gr_list _ _ _ _ _ _ _ _ Hg) as El. split.
  - intros [?|?]%(gr_tree _ _ _ _ _ _ _ _ Hg); [done|]. apply Hl. rewrite El, elem_of_app. by left.
  - intros ?. apply Hl. rewrite El, elem_of_app. by right.
Qed.

Lemma can_free_grew b k s T l s' T' l' u e : grew k s T l s' T' l' u → can_free b s T l e → can_free b s' T' l' e.
Proof.
  intros Hg [H1 H2]. split.
  - intros p Hp. destruct (H1 p Hp) as (A1 & A2 & A3 & A4). destruct (grew_outside _ _ _ _ _ _ _ _ _ Hg A3 A4) as (-> & ? & ?).
    by split_and!.
  - intros i Hi. rewrite (gr_swap _ _ _ _ _ _ _ _ Hg). auto.
Qed.

(** Marking the frame of a new page. *)
Lemma track_frame_new s p va pa : alloc_page pa → zlen (frames s) = NFRAME → LFrametable ∉ held s →
  (∀ i, p = Some i → is_Some (procs s !! i)) →
  ∃ ps fs, track_frame p va pa s = Ok (tt, s <| procs := ps |> <| frames := fs |>) ∧ zlen fs = NFRAME ∧
    ∀ i, is_Some (procs s !! i) → is_Some (ps !! i).
Proof.
  intros Hpa Hl Hh Hp. destruct (frame_index_val pa Hpa) as (Hfi & Hfr & _). destruct (Hpa) as (_ & Hr1 & Hr2).
  unfold track_frame. destruct (Z.ltb_spec pa KERNBASE), (Z.leb_spec PHYSTOP pa); try lia. cbn [orb]. cbv iota.
  change (Z.shiftr (u64 (pa - KERNBASE)) 12) with (frame_index pa). rewrite wrap_id by lia.
  destruct (Z.leb_spec NFRAME (frame_index pa)); [exists (procs s), (frames s); split_and!; [by destruct s|done|done]|].
  destruct (znth_lt (frames s) (frame_index pa)) as [f Ef]; [lia|].
  assert (∃ ps, match p with
    | Some i => when (negb (f_in_use f)) (updp i (λ p, p <| p_resident_pages ::= λ n, i32 (n + 1) |>))
    | None => mret tt end (s <| held := {[LFrametable]} ∪ held s |>) = Ok (tt, s <| held := {[LFrametable]} ∪ held s |> <| procs := ps |>)
    ∧ ∀ i, is_Some (procs s !! i) → is_Some (ps !! i)) as (ps & Eps & Hps).
  { destruct p as [i|]; [|exists (procs s); split; [by destruct s|done]].
    destruct (f_in_use f); [exists (procs s); split; [by destruct s|done]|]. destruct (Hp i) as [q Hq]; [done|].
    eexists. split; [simpl; by rewrite (updp_ok _ _ _ q)|]. intros j Hj. rewrite list_lookup_insert_is_Some. naive_solver. }
  eexists ps, _. split; [|split; [|done]].
  - mstep acquire_ok; [|done]. mget (frames s). erewrite bind_step by (apply opt_ok; exact Ef).
    rewrite (bind_step _ _ _ _ _ Eps). erewrite bind_step by reflexivity. rewrite release_ok by (simpl; set_solver).
    apply Ok_pair. kst_eq. simpl. by rewrite held_restore.
  - by rewrite zlen_zset.
Qed.

(** ** A new page *)

(** [kalloc], a fill, [mappages] and [track_frame]: a page [c] more at [va]. *)
Definition fresh_state s (p : Z) (l c : list Z) : kst D := s <| freelist := next_of l |> <| mem := <[p := c]> (mem s) |>.

Lemma fresh_inv s pt T p l c : vm_inv s pt T (p :: l) → zlen c = PGSIZE →
  vm_inv (fresh_state s p l c) pt T l ∧ (∀ x, entry (mem (fresh_state s p l c)) T x = entry (mem s) T x).
Proof.
  intros [Hk Ht Ha] Hc. pose proof (km_nodup _ _ Hk) as [Hpl _]%NoDup_cons.
  assert (¬ in_tree T p) as Hpt by (intros Hp; apply (Ha p Hp); constructor).
  pose proof (km_pages _ _ Hk) as [Hp _]%Forall_cons. pose proof (allocated_inv _ _ _ Hk) as Hk1.
  assert (∀ q, q ∈ l ∨ in_tree T q → p ≠ q) as Hne by (intros q [Hq|Hq] E; subst q; done).
  destruct (tree_frame (mem s) (mem (fresh_state s p l c)) pt T Ht) as [Ht' He]; [intros q Hq; apply lookup_insert_ne; auto|].
  split; [|done]. split; [|done|].
  - apply (kmem_inv_mem (allocated s p l)); [done| |apply mem_wf_insert; [apply Hk|by apply (alloc_page_range p)|done]].
    intros q Hq. simpl. rewrite !lookup_insert_ne by auto. done.
  - intros q Hq. specialize (Ha q Hq). set_solver.
Qed.

Lemma map_fresh s pt T p l c va perm np : vm_inv s pt T (p :: l) → LKmem ∉ held s → LFrametable ∉ held s →
  zlen c = PGSIZE → va mod PGSIZE = 0 → 0 ≤ va → va + PGSIZE ≤ MAXVA → (2 ≤ length l)%nat → 0 ≤ perm < 1024 →
  has (entry (mem s) T va) PTE_V = false → (∀ i, np = Some i → is_Some (procs s !! i)) →
  ∃ s1 s' T' l' used, mappages pt va PGSIZE p perm (fresh_state s p l c) = Ok (0, s1) ∧ track_frame np va p s1 = Ok (tt, s') ∧
    cur s1 = cur s ∧ vm_inv s' pt T' l' ∧ grew 1 s T (p :: l) s' T' l' (p :: used) ∧ mem s' !! p = Some c ∧
    (∀ q, in_tree T' q ↔ in_tree T q ∨ q ∈ used) ∧ ¬ in_tree T' p ∧
    ∀ x, 0 ≤ x < MAXVA → entry (mem s') T' x = if decide (va ≤ x < va + PGSIZE) then leaf_pte p perm else entry (mem s) T x.
Proof.
  intros Hi Hh1 Hh2 Hc Hal Hva Hb Hlen Hperm Hno Hnp. destruct (fresh_inv s pt T p l c Hi Hc) as [Hi0 He0].
  pose proof Hi as [Hk Ht Ha]. pose proof (km_nodup _ _ Hk) as [Hpl _]%NoDup_cons. pose proof (km_pages _ _ Hk) as [Hp _]%Forall_cons.
  assert (¬ in_tree T p) as Hpt by (intros Hp'; apply (Ha p Hp'); constructor). destruct (alloc_page_range p Hp) as [Hp0 Hpa].
  destruct (mappages_inserts (fresh_state s p l c) pt T l va PGSIZE p perm) as (s1 & T' & l' & u & E1 & I1 & K1 & N1 & M1);
    [done|done|done|done|done|lia|lia| | |destruct Hp; lia|done| |].
  { unfold zlen. change (PGSIZE / PGSIZE) with 1. lia. } { lia. }
  { intros x Hx. rewrite He0, <-entry_pg. assert (pg x = va) as -> by (revert Hx Hal; unfold pg; clear; intros; dlia). done. }
  pose proof (tk_state _ _ _ _ _ _ _ K1) as Es1. pose proof (tk_list _ _ _ _ _ _ _ K1) as El.
  destruct (track_frame_new s1 np va p) as (ps & fs & E2 & Hfs & Hps);
    [done|apply (km_frames _ _ (vi_kmem _ _ _ _ I1))|rewrite Es1; done|rewrite Es1; done|].
  assert (∀ q, ¬ in_tree T q → q ∉ l → mem s1 !! q = <[p:=c]> (mem s) !! q) as Ho by (apply (tk_other _ _ _ _ _ _ _ K1)).
  assert (¬ in_tree T' p) as Hpt'.
  { intros [?|?]%(tk_pages _ _ _ _ _ _ _ K1); [done|]. apply Hpl. rewrite El, elem_of_app. by left. }
  exists s1, (s1 <| procs := ps |> <| frames := fs |>), T', l', u. split_and!; [done|done|by rewrite Es1| | | | |done|].
  - destruct I1 as [[] ? ?]. split; [by split|done|done].
  - split; simpl; try (by rewrite Es1).
    + by rewrite El.
    + unfold zlen in N1. change (PGSIZE / PGSIZE) with 1 in N1. lia.
    + intros q [?|?]%(tk_pages _ _ _ _ _ _ _ K1); [by left|right; by constructor].
    + intros q Hq [Hqp Hql]%not_elem_of_cons. rewrite Ho by done. by rewrite lookup_insert_ne.
    + intros i Hip. apply Hps. by rewrite Es1.
  - simpl. rewrite Ho by done. apply lookup_insert_eq.
  - apply (tk_pages _ _ _ _ _ _ _ K1).
  - intros x Hx. simpl. rewrite M1, He0 by done. destruct (decide (va ≤ x < va + PGSIZE)) as [Hr|]; [|done].
    assert (pg x = va) as -> by (revert Hr Hal; unfold pg; clear; intros; dlia). f_equal. lia.
Qed.

Lemma freed_leaf p perm : alloc_page p → 0 ≤ perm < 1024 →
  freed_page_of true (leaf_pte p perm) = [p] ∧ freed_slot_of (leaf_pte p perm) = [].
Proof.
  intros [Hp Ha]%alloc_page_range Hperm. unfold freed_page_of, freed_slot_of. rewrite leaf_valid. simpl.
  by rewrite PTE2PA_leaf by lia.
Qed.

Lemma grew_can_unmap k s T l s' T' l' u es : grew k s T l s' T' l' u → can_unmap true s T l es → can_unmap true s' T' l' es.
Proof. intros Hg [H1 H2]. split; [done|]. intros e He. eapply can_free_grew; eauto. Qed.

Lemma can_unmap_page s T l es p : can_unmap true s T l es → p ∈ freed_pages true es →
  is_Some (mem s !! p) ∧ ¬ in_tree T p ∧ p ∉ l.
Proof.
  intros [_ H] (e & He & Hp)%elem_freed_pages. destruct (H e He) as [Hf _]. by destruct (Hf p Hp) as (_ & ?).
Qed.

Lemma can_unmap_snoc s T l es e : can_unmap true s T l es → can_free true s T l e → NoDup (freed_page_of true e) →
  (∀ p, p ∈ freed_page_of true e → p ∉ freed_pages true es) → can_unmap true s T l (es ++ [e]).
Proof.
  intros [H1 H2] He Hnd Hd. split; [|set_solver]. rewrite freed_pages_snoc, NoDup_app. split_and!; [done| |done].
  intros p Hp Hp'. by apply (Hd p).
Qed.

(** One more page of user memory. *)
Lemma user_mem_add k s pt T l s' T' l' u p perm n : 0 ≤ n → can_unmap true s T l (entries (mem s) T 0 n) →
  grew k s T l s' T' l' u → vm_inv s' pt T' l' → entries (mem s') T' 0 n = entries (mem s) T 0 n →
  entry (mem s') T' (n * PGSIZE) = leaf_pte p perm → 0 ≤ perm < 1024 →
  alloc_page p → p ∈ l → p ∉ l' → is_Some (mem s' !! p) → ¬ in_tree T' p →
  user_mem s' pt T' l' (n + 1) ∧ ∀ q, q ∈ freed_pages true (entries (mem s') T' 0 (n + 1)) ↔ q ∈ freed_pages true (entries (mem s) T 0 n) ∨ q = p.
Proof.
  intros Hn Hc Hg Hi Hes He Hperm Hp Hpl Hpl' Hpm Hpt. destruct (freed_leaf p perm Hp Hperm) as [Ep Es].
  rewrite entries_S, Z.add_0_l, He, Hes by done. split.
  - split; [done|]. rewrite entries_S, Z.add_0_l, He, Hes by done. apply can_unmap_snoc.
    + by eapply grew_can_unmap.
    + unfold can_free. rewrite Ep, Es. split; [intros q ->%list_elem_of_singleton; by split_and!|set_solver].
    + rewrite Ep. apply NoDup_singleton.
    + intros q. rewrite Ep. intros ->%list_elem_of_singleton Hin. by destruct (can_unmap_page _ _ _ _ _ Hc Hin) as (_ & _ & ?).
  - intros q. by rewrite freed_pages_snoc, Ep, elem_of_app, list_elem_of_singleton.
Qed.

(** A mapped page of user memory is among those the process gives back. *)
Lemma freed_entry m T n x : 0 ≤ pg x < n * PGSIZE → has (entry m T x) PTE_V = true →
  PTE2PA (entry m T x) ∈ freed_pages true (entries m T 0 n).
Proof.
  intros Hx Hv. apply elem_freed_pages. exists (entry m T x). unfold freed_page_of. rewrite Hv. split; [|constructor].
  unfold entries. apply list_elem_of_fmap. exists (pg x / PGSIZE). rewrite elem_of_upto. pose proof (pg_aligned x).
  split; [|dlia]. rewrite <-entry_pg. f_equal. dlia.
Qed.

Lemma used_page s l used l' p : kmem_inv s l → l = used ++ l' → p ∈ used → alloc_page p.
Proof. intros Hk -> Hp. pose proof (km_pages _ _ Hk) as Hall. rewrite Forall_forall in Hall. apply Hall. set_solver. Qed.

(** What is mapped keeps its bytes while memory grows. *)
Lemma mapped_kept k s pt T l n s' T' l' u x p perm : user_mem s pt T l n → 0 ≤ pg x < n * PGSIZE →
  entry (mem s) T x = leaf_pte p perm → alloc_page p → 0 ≤ perm < 1024 → grew k s T l s' T' l' u → mem s' !! p = mem s !! p.
Proof.
  intros [Hi Hc] Hx He [Hp Ha]%alloc_page_range Hperm Hg.
  assert (p ∈ freed_pages true (entries (mem s) T 0 n)) as Hin.
  { replace p with (PTE2PA (entry (mem s) T x)) by (rewrite He; apply PTE2PA_leaf; [lia|done|done]).
    apply freed_entry; [done|rewrite He; apply leaf_valid]. }
  destruct (can_unmap_page _ _ _ _ _ Hc Hin) as (_ & ? & ?). by eapply gr_other.
Qed.

(** ** Growing *)

Lemma PGROUNDUP_pages sz : 0 ≤ sz ≤ TRAPFRAME → PGROUNDUP sz / PGSIZE * PGSIZE = PGROUNDUP sz ∧ 0 ≤ PGROUNDUP sz / PGSIZE ∧ PGROUNDUP sz ≤ TRAPFRAME.
Proof. intros. rewrite PGROUNDUP_pg by lia. unfold pg. dlia. Qed.

(** The locks the allocator takes, and the process that is charged. *)
Definition can_charge s (np : option nat) : Prop := LKmem ∉ held s ∧ LFrametable ∉ held s ∧ ∀ i, np = Some i → is_Some (procs s !! i).
Definition ready s : Prop := can_charge s (cur s).

Lemma can_charge_grew k s T l s' T' l' u np : grew k s T l s' T' l' u → can_charge s np → can_charge s' np.
Proof.
  intros Hg (H1 & H2 & H3). unfold can_charge. rewrite (gr_held _ _ _ _ _ _ _ _ Hg). split_and!; [done..|].
  intros i Hc. eapply gr_procs; eauto.
Qed.
Lemma ready_grew k s T l s' T' l' u : grew k s T l s' T' l' u → ready s → ready s'.
Proof. intros Hg. unfold ready. rewrite (gr_cur _ _ _ _ _ _ _ _ Hg). by eapply can_charge_grew. Qed.

Definition user_perm (xperm : Z) : Z := setb (setb PTE_R PTE_U) xperm.
Lemma user_perm_range xperm : 0 ≤ xperm < 1024 → 0 ≤ user_perm xperm < 1024.
Proof. intros. apply (setb_bound _ _ 10); [lia| |lia]. by vm_compute. Qed.

Lemma page_of n x : n * PGSIZE ≤ x < n * PGSIZE + PGSIZE ↔ pg x = n * PGSIZE.
Proof. unfold pg. split; intros; dlia. Qed.

Lemma uvmalloc1_adds s pt T l n oldsz xperm : user_mem s pt T l n → ready s → 0 ≤ n → (n + 1) * PGSIZE ≤ MAXVA →
  (3 ≤ length l)%nat → 0 ≤ xperm < 1024 → has (entry (mem s) T (n * PGSIZE)) PTE_V = false →
  ∃ s' T' l' p used, uvmalloc1 pt oldsz xperm (n * PGSIZE) s = Ok (None, s') ∧ user_mem s' pt T' l' (n + 1) ∧
    grew 1 s T l s' T' l' (p :: used) ∧ mem s' !! p = Some (zrepl PGSIZE 0) ∧
    (∀ q, own s' T' (n + 1) q ↔ own s T n q ∨ q ∈ p :: used) ∧
    ∀ x, 0 ≤ x < MAXVA → entry (mem s') T' x = if decide (pg x = n * PGSIZE) then leaf_pte p (user_perm xperm) else entry (mem s) T x.
Proof.
  intros [Hi Hc] Hr Hn Hb Hlen Hx Hno. pose proof Hr as (H1 & H2 & H3). destruct l as [|p l]; [simpl in Hlen; lia|].
  pose proof Hi as [Hk Ht Ha]. pose proof (km_pages _ _ Hk) as [Hp _]%Forall_cons. destruct (alloc_page_range p Hp) as [Hp0 Hpa].
  pose proof (user_perm_range xperm Hx) as Hperm.
  destruct (map_fresh s pt T p l (zrepl PGSIZE 0) (n * PGSIZE) (user_perm xperm) (cur s)) as
    (s1 & s' & T' & l' & u & E1 & E2 & Ec & I & G & Hm & Hin & Hpt & M); [done..|by apply zlen_zrepl|dlia|lia|lia|simpl in Hlen; lia|done|done|done|].
  assert (∀ x, 0 ≤ x < MAXVA → entry (mem s') T' x = if decide (pg x = n * PGSIZE) then leaf_pte p (user_perm xperm) else entry (mem s) T x) as M'.
  { intros x Hx'. rewrite M by done. by apply decide_ext, page_of. }
  assert (p ∉ l') as Hpl'.
  { pose proof (km_nodup _ _ Hk) as [Hpl _]%NoDup_cons. pose proof (gr_list _ _ _ _ _ _ _ _ G) as [= El]. intros ?. apply Hpl. rewrite El, elem_of_app. by right. }
  destruct (user_mem_add 1 s pt T (p :: l) s' T' l' (p :: u) p (user_perm xperm) n) as [Hum Hown]; try done.
  { apply entries_same. intros x Hx'. rewrite M' by lia. rewrite decide_False; [done|]. intros [? ?]%page_of. lia. }
  { rewrite M' by lia. by rewrite decide_True by (apply pg_id; dlia). }
  { constructor. }
  exists s', T', l', p, u. split_and!; [|done|done|done| |done].
  - unfold uvmalloc1. erewrite bind_step by (by apply kalloc_ok). destruct (Z.eqb_spec p 0); [lia|].
    erewrite bind_step; [|eapply memset_page_ok; [apply (allocated_inv _ _ _ Hk)|simpl; apply lookup_insert_eq]].
    simpl mem. rewrite insert_insert_eq. rewrite (bind_step _ _ _ _ _ E1). cbn [Z.eqb negb].
    erewrite (bind_step _ _ _ (cur s) s1) by (unfold myproc; mred; by rewrite Ec). by rewrite (bind_step _ _ _ _ _ E2).
  - intros q. unfold own. rewrite Hin, Hown, elem_of_cons. tauto.
Qed.

Lemma uvmalloc_loop s pt T l n k oldsz xperm : user_mem s pt T l n → ready s → 0 ≤ n → (n + Z.of_nat k) * PGSIZE ≤ MAXVA →
  (3 * k ≤ length l)%nat → 0 ≤ xperm < 1024 →
  (∀ x, n * PGSIZE ≤ x < (n + Z.of_nat k) * PGSIZE → has (entry (mem s) T x) PTE_V = false) →
  ∃ s' T' l' used, for_find (uvmalloc1 pt oldsz xperm) ((λ i, n * PGSIZE + i * PGSIZE) <$> upto (Z.of_nat k)) s = Ok (None, s') ∧
    user_mem s' pt T' l' (n + Z.of_nat k) ∧ grew k s T l s' T' l' used ∧
    (∀ q, own s' T' (n + Z.of_nat k) q ↔ own s T n q ∨ q ∈ used) ∧
    (∀ x, 0 ≤ x < MAXVA → ¬ (n * PGSIZE ≤ pg x < (n + Z.of_nat k) * PGSIZE) → entry (mem s') T' x = entry (mem s) T x) ∧
    ∀ x, n * PGSIZE ≤ pg x < (n + Z.of_nat k) * PGSIZE → ∃ p, p ∈ used ∧ entry (mem s') T' x = leaf_pte p (user_perm xperm) ∧
      mem s' !! p = Some (zrepl PGSIZE 0).
Proof.
  intros Hum Hr Hn. induction k as [|k IH]; intros Hb Hlen Hx Hno.
  { exists s, T, l, []. rewrite Z.add_0_r. split_and!; [done|done|apply grew_refl|set_solver|done|lia]. }
  destruct IH as (s1 & T1 & l1 & u1 & E1 & U1 & G1 & O1 & M1 & N1); [lia|lia|done|intros; apply Hno; lia|].
  set (m := n + Z.of_nat k) in *. pose proof (gr_list _ _ _ _ _ _ _ _ G1) as El. pose proof (gr_len _ _ _ _ _ _ _ _ G1).
  assert (pg (m * PGSIZE) = m * PGSIZE) as Epm by (apply pg_id; dlia).
  destruct (uvmalloc1_adds s1 pt T1 l1 m oldsz xperm) as (s2 & T2 & l2 & p & u2 & E2 & U2 & G2 & Hp & O2 & M2).
  { done. } { by eapply ready_grew. } { unfold m; lia. } { unfold m; lia. } { rewrite El, length_app in Hlen. lia. } { done. }
  { rewrite M1 by lia. apply Hno. unfold m. lia. }
  exists s2, T2, l2, (u1 ++ p :: u2). rewrite Nat2Z.inj_succ, <-Z.add_1_r, Z.add_assoc. fold m. split_and!.
  - rewrite upto_S, fmap_app, for_find_app, (bind_step _ _ _ _ _ E1) by lia. simpl.
    replace (n * PGSIZE + Z.of_nat k * PGSIZE) with (m * PGSIZE) by (unfold m; lia). by rewrite (bind_step _ _ _ _ _ E2).
  - done.
  - replace (S k) with (k + 1)%nat by lia. by eapply grew_trans.
  - intros q. rewrite O2, O1, elem_of_app. tauto.
  - intros x Hx0 Hx1. rewrite M2, decide_False by (done || lia). apply M1; [done|lia].
  - intros x Hx0. rewrite M2 by (unfold pg, m in *; dlia).
    destruct (decide (pg x = m * PGSIZE)); [exists p; set_solver|]. pose proof (pg_aligned x).
    destruct (N1 x) as (p' & Hp' & He' & Hm'); [dlia|]. exists p'. split_and!; [set_solver|done|].
    rewrite (mapped_kept 1 s1 pt T1 l1 m s2 T2 l2 (p :: u2) x p' _ U1) with (2 := He'); [done|dlia| |by apply user_perm_range|done].
    eapply used_page; [apply Hum|exact El|done].
Qed.

(** C8. Growing a process: with no entry mapped above the old size and three free
    pages for each new one, [uvmalloc] returns the new size; every page between
    the sizes, rounded up, is mapped to a page of its own, full of zeros, that
    the process can read and, with [xperm], write or execute; every entry outside
    is as before, and so is every byte of memory that was not free and not the
    table's. The pages taken from the free list are exactly those the process has more. *)
Theorem uvmalloc_grows s pt T l oldsz newsz xperm : user_mem s pt T l (PGROUNDUP oldsz / PGSIZE) → ready s →
  0 ≤ oldsz ≤ newsz → newsz ≤ TRAPFRAME → 0 ≤ xperm < 1024 →
  3 * (PGROUNDUP newsz / PGSIZE - PGROUNDUP oldsz / PGSIZE) ≤ zlen l →
  (∀ x, PGROUNDUP oldsz ≤ x < PGROUNDUP newsz → has (entry (mem s) T x) PTE_V = false) →
  ∃ s' T' l' used, uvmalloc pt oldsz newsz xperm s = Ok (newsz, s') ∧
    user_mem s' pt T' l' (PGROUNDUP newsz / PGSIZE) ∧ l = used ++ l' ∧
    (∀ p, own s' T' (PGROUNDUP newsz / PGSIZE) p ↔ own s T (PGROUNDUP oldsz / PGSIZE) p ∨ p ∈ used) ∧
    (∀ p, ¬ in_tree T p → p ∉ l → mem s' !! p = mem s !! p) ∧
    (∀ x, 0 ≤ x < MAXVA → ¬ (PGROUNDUP oldsz ≤ x < PGROUNDUP newsz) → entry (mem s') T' x = entry (mem s) T x) ∧
    ∀ x, PGROUNDUP oldsz ≤ x < PGROUNDUP newsz → ∃ p, p ∈ used ∧ mem s' !! p = Some (zrepl PGSIZE 0) ∧
      entry (mem s') T' x = leaf_pte p (user_perm xperm).
Proof.
  intros Hum Hr Hsz Hmax Hx Hlen Hno. destruct (PGROUNDUP_pages oldsz) as (En & Hn & Hn'); [lia|].
  destruct (PGROUNDUP_pages newsz) as (Em & Hm & Hm'); [lia|]. set (n := PGROUNDUP oldsz / PGSIZE) in *. set (m := PGROUNDUP newsz / PGSIZE) in *.
  assert (n ≤ m) as Hnm by (unfold n, m, zlen in *; rewrite !PGROUNDUP_pg by lia; unfold pg; dlia).
  assert (n + Z.of_nat (Z.to_nat (m - n)) = m) as Ek by lia.
  destruct (uvmalloc_loop s pt T l n (Z.to_nat (m - n)) (PGROUNDUP oldsz) xperm) as (s' & T' & l' & u & E & U & G & O & M & N);
    rewrite ?Ek; [done|done|done|lia|unfold zlen in Hlen; lia|done|intros x Hx'; apply Hno; lia|].
  rewrite Ek in *. exists s', T', l', u. split_and!; [|done|by eapply gr_list|done|by eapply gr_other| |].
  - unfold uvmalloc. destruct (Z.ltb_spec newsz oldsz); [lia|]. cbv zeta. unfold page_steps.
    replace ((newsz - PGROUNDUP oldsz + PGSIZE - 1) / PGSIZE) with (Z.of_nat (Z.to_nat (m - n))).
    + rewrite En in E. by rewrite (bind_step _ _ _ _ _ E).
    + rewrite Z2Nat.id by lia. unfold m, n. rewrite !PGROUNDUP_pg by lia. unfold pg. dlia.
  - intros x Hx' Hr'. apply M; [done|]. rewrite En, Em. revert Hr'. rewrite <-En, <-Em. unfold pg. intros ? ?. dlia.
  - intros x Hx'. destruct (N x) as (p & ? & ? & ?); [|by exists p]. rewrite <-En, <-Em in Hx'. unfold pg. dlia.
Qed.

(** ** Copying *)

(** The parent in [fork]: [n] pages of memory, none of them in a swap slot, and
    nothing shared with the child's table [Tn]. *)
Record parent s old To l n Tn : Prop := {
  pa_mem : user_mem s old To l n;
  pa_apart p : own s To n p → ¬ in_tree Tn p;
  pa_resident x : 0 ≤ x < n * PGSIZE → has (entry (mem s) To x) PTE_V = false → has (entry (mem s) To x) PTE_SWAPPED = false;
}.

Lemma own_not_free s pt T l n p : user_mem s pt T l n → own s T n p → p ∉ l.
Proof. intros [Hi Hc] [Hp|Hp]; [by apply (vi_apart _ _ _ _ Hi)|by eapply can_unmap_page]. Qed.

Lemma parent_grew k s old To l n Tn s' Tn' l' u : parent s old To l n Tn → grew k s Tn l s' Tn' l' u → kmem_inv s' l' →
  parent s' old To l' n Tn' ∧ (∀ x, entry (mem s') To x = entry (mem s) To x) ∧ ∀ p, own s To n p → mem s' !! p = mem s !! p.
Proof.
  intros [Hm Ha Hr] Hg Hk. assert (∀ p, own s To n p → mem s' !! p = mem s !! p ∧ ¬ in_tree Tn' p ∧ p ∉ l') as Ho.
  { intros p Hp. eapply grew_outside; [done|auto|by eapply own_not_free]. }
  destruct Hm as [[Hk0 Ht Hap] [Hnd Hc]].
  destruct (tree_frame (mem s) (mem s') old To Ht) as [Ht' He]; [intros p Hp; apply Ho; by left|].
  assert (entries (mem s') To 0 n = entries (mem s) To 0 n) as Ees by (by apply entries_same).
  split; [|split; [done|apply Ho]]. split.
  - split; [split; [done|done|intros p Hp; apply Ho; by left]|]. rewrite Ees. split; [done|]. intros e He'. destruct (Hc e He') as [H1 H2]. split.
    + intros p Hp. destruct (H1 p Hp) as (A1 & A2 & A3 & A4). destruct (Ho p) as (-> & _ & ?); [|by split_and!].
      right. apply elem_freed_pages. by exists e.
    + intros i Hi. rewrite (gr_swap _ _ _ _ _ _ _ _ Hg). auto.
  - intros p Hp. apply Ho. revert Hp. unfold own. by rewrite Ees.
  - intros x Hx. rewrite He. auto.
Qed.

(** The child's entry at [x] is for a copy of the parent's page there. *)
Definition copied s To s' Tn (used : list Z) (x : Z) : Prop :=
  let e := entry (mem s) To x in
  if has e PTE_V then ∃ p, p ∈ used ∧ entry (mem s') Tn x = leaf_pte p (PTE_FLAGS e) ∧ mem s' !! p = mem s !! PTE2PA e
  else entry (mem s') Tn x = 0.

Lemma memmove_page_ok s dst src p q : mem_wf (mem s) → mem s !! src = Some p → mem s !! dst = Some q →
  memmove_page dst src s = Ok (tt, s <| mem := <[dst := p]> (mem s) |>).
Proof.
  intros Hwf Hp Hq. pose proof (mem_wf_aligned _ _ _ Hwf Hp) as Hsa. pose proof (mem_wf_aligned _ _ _ Hwf Hq) as Hda.
  pose proof (mem_wf_len _ _ _ Hwf Hp) as Hsl. pose proof (mem_wf_len _ _ _ Hwf Hq) as Hdl. unfold memmove_page.
  erewrite bind_step.
  2:{ apply read_bytes_ok, mread_Some; [by rewrite pg_id|by rewrite pgoff_id]. }
  rewrite pgoff_id by done. assert (sub 0 PGSIZE p = p) as -> by (unfold sub, zlen in *; rewrite drop_0; apply take_ge; lia).
  apply write_bytes_ok. rewrite (mwrite_Some _ _ _ q); [|by rewrite pg_id|rewrite pgoff_id by done; lia].
  rewrite pg_id, pgoff_id by done. rewrite splice_all; [done|lia].
Qed.

Lemma user_mem_hole s pt T l n : 0 ≤ n → user_mem s pt T l n → entry (mem s) T (n * PGSIZE) = 0 →
  user_mem s pt T l (n + 1) ∧ ∀ q, own s T (n + 1) q ↔ own s T n q.
Proof.
  intros Hn [Hi Hc] He. unfold user_mem, own. rewrite entries_S, Z.add_0_l, He, freed_pages_snoc by done.
  change (freed_page_of true 0) with ([] : list Z). rewrite app_nil_r. split; [|done]. split; [done|].
  apply can_unmap_snoc; [done| |constructor|set_solver]. split; set_solver.
Qed.

(** A page taken for the child, filled with the parent's page. *)
Lemma uvmcopy1_page s old To new Tn l n np pa page : vm_inv s old To l → user_mem s new Tn l n → can_charge s np →
  0 ≤ n → (n + 1) * PGSIZE ≤ MAXVA → (3 ≤ length l)%nat → has (entry (mem s) Tn (n * PGSIZE)) PTE_V = false →
  let e := entry (mem s) To (n * PGSIZE) in has e PTE_V = true → PTE2PA e = pa → mem s !! pa = Some page → pa ∉ l →
  ∃ s' T' l' p used, uvmcopy1 old new np (n * PGSIZE) s = Ok (None, s') ∧ user_mem s' new T' l' (n + 1) ∧
    grew 1 s Tn l s' T' l' (p :: used) ∧ mem s' !! p = Some page ∧
    (∀ q, own s' T' (n + 1) q ↔ own s Tn n q ∨ q ∈ p :: used) ∧
    ∀ x, 0 ≤ x < MAXVA → entry (mem s') T' x = if decide (pg x = n * PGSIZE) then leaf_pte p (PTE_FLAGS e) else entry (mem s) Tn x.
Proof.
  intros Hold [Hi Hc] Hr Hn Hb Hlen Hno e Hv Epa Hpage Hpal. pose proof Hr as (H1 & H2 & H3). destruct l as [|p l]; [simpl in Hlen; lia|].
  pose proof Hi as [Hk Ht Ha]. pose proof (km_pages _ _ Hk) as [Hp _]%Forall_cons. destruct (alloc_page_range p Hp) as [Hp0 Hpa].
  pose proof (mem_wf_len _ _ _ (km_wf _ _ Hk) Hpage) as Hpl.
  destruct (map_fresh s new Tn p l page (n * PGSIZE) (PTE_FLAGS e) np) as
    (s1 & s' & T' & l' & u & E1 & E2 & Ec & I & G & Hm & Hin & Hpt & M); [done..|dlia|lia|lia|simpl in Hlen; lia|apply PTE_FLAGS_bound|done|done|].
  assert (∀ x, 0 ≤ x < MAXVA → entry (mem s') T' x = if decide (pg x = n * PGSIZE) then leaf_pte p (PTE_FLAGS e) else entry (mem s) Tn x) as M'.
  { intros x Hx'. rewrite M by done. by apply decide_ext, page_of. }
  assert (p ∉ l') as Hpl'.
  { pose proof (km_nodup _ _ Hk) as [Hnd _]%NoDup_cons. pose proof (gr_list _ _ _ _ _ _ _ _ G) as [= El]. intros ?. apply Hnd. rewrite El, elem_of_app. by right. }
  destruct (user_mem_add 1 s new Tn (p :: l) s' T' l' (p :: u) p (PTE_FLAGS e) n) as [Hum Hown]; try done.
  { apply entries_same. intros x Hx'. rewrite M' by lia. rewrite decide_False; [done|]. intros [? ?]%page_of. lia. }
  { rewrite M' by lia. by rewrite decide_True by (apply pg_id; dlia). }
  { apply PTE_FLAGS_bound. } { constructor. }
  exists s', T', l', p, u. split_and!; [|done|done|done| |done].
  - unfold uvmcopy1. cbv zeta. erewrite bind_step by (eapply walk_finds; [exact Hold|lia]).
    destruct (leaf To (n * PGSIZE)) as [w|] eqn:Hw; [|unfold e, entry in Hv; by rewrite Hw in Hv]. simpl.
    destruct (leaf_in_tree _ _ _ _ _ (vi_tree _ _ _ _ Hold) Hw) as [_ Hw0]. destruct (Z.eqb_spec w 0); [done|].
    erewrite bind_step by (apply load64_ok, (leaf_word _ _ _ _ _ (km_wf _ _ Hk) (vi_tree _ _ _ _ Hold) Hw)).
    fold e. rewrite Hv, Epa. cbn [negb]. erewrite bind_step by (by apply kalloc_ok). destruct (Z.eqb_spec p 0); [lia|].
    erewrite bind_step; [|eapply (memmove_page_ok _ p pa page); [apply (allocated_inv _ _ _ Hk)|..]].
    2:{ simpl. rewrite lookup_insert_ne; [done|]. intros ->. apply Hpal. constructor. }
    2:{ simpl. apply lookup_insert_eq. }
    simpl mem. rewrite insert_insert_eq. rewrite (bind_step _ _ _ _ _ E1). cbn [Z.eqb negb]. by rewrite (bind_step _ _ _ _ _ E2).
  - intros q. unfold own. rewrite Hin, Hown, elem_of_cons. tauto.
Qed.

Lemma uvmcopy1_hole s old To l new np x : vm_inv s old To l → 0 ≤ x < MAXVA →
  has (entry (mem s) To x) PTE_V = false → has (entry (mem s) To x) PTE_SWAPPED = false → uvmcopy1 old new np x s = Ok (None, s).
Proof.
  intros Hi Hx Hv Hs. unfold uvmcopy1. cbv zeta. erewrite bind_step by (eapply walk_finds; [done|lia]).
  destruct (leaf To x) as [w|] eqn:Hw; [|done]. simpl.
  destruct (leaf_in_tree _ _ _ _ _ (vi_tree _ _ _ _ Hi) Hw) as [_ Hw0]. destruct (Z.eqb_spec w 0); [done|].
  erewrite bind_step by (apply load64_ok, (leaf_word _ _ _ _ _ (km_wf _ _ (vi_kmem _ _ _ _ Hi)) (vi_tree _ _ _ _ Hi) Hw)).
  by rewrite Hv, Hs.
Qed.

Lemma uvmcopy_loop s old To new Tn l N k np : parent s old To l N Tn → user_mem s new Tn l 0 → can_charge s np →
  Z.of_nat k ≤ N → N * PGSIZE ≤ MAXVA → (3 * k ≤ length l)%nat → (∀ x, 0 ≤ x < N * PGSIZE → entry (mem s) Tn x = 0) →
  ∃ s' T' l' used, for_find (uvmcopy1 old new np) ((λ i, 0 + i * PGSIZE) <$> upto (Z.of_nat k)) s = Ok (None, s') ∧
    user_mem s' new T' l' (Z.of_nat k) ∧ grew k s Tn l s' T' l' used ∧
    (∀ q, own s' T' (Z.of_nat k) q ↔ own s Tn 0 q ∨ q ∈ used) ∧
    (∀ x, 0 ≤ x < MAXVA → ¬ (0 ≤ pg x < Z.of_nat k * PGSIZE) → entry (mem s') T' x = entry (mem s) Tn x) ∧
    ∀ x, 0 ≤ pg x < Z.of_nat k * PGSIZE → copied s To s' T' used x.
Proof.
  intros Hpar Hum Hr. induction k as [|k IH]; intros Hk Hb Hlen Hz.
  { exists s, Tn, l, []. split_and!; [done|done|apply grew_refl|set_solver|done|lia]. }
  destruct IH as (s1 & T1 & l1 & u1 & E1 & U1 & G1 & O1 & M1 & N1); [lia|lia|lia|done|].
  set (n := Z.of_nat k) in *. pose proof (gr_list _ _ _ _ _ _ _ _ G1) as El. pose proof (gr_len _ _ _ _ _ _ _ _ G1).
  assert (pg (n * PGSIZE) = n * PGSIZE) as Epn by (apply pg_id; dlia).
  destruct (parent_grew k s old To l N Tn s1 T1 l1 u1) as (P1 & He1 & Hm1); [done|done|apply U1|].
  assert (entry (mem s1) T1 (n * PGSIZE) = 0) as Hz1 by (rewrite M1 by lia; apply Hz; lia).
  rewrite Nat2Z.inj_succ, <-Z.add_1_r. fold n. rewrite upto_S, fmap_app, for_find_app, (bind_step _ _ _ _ _ E1) by lia.
  simpl. rewrite Z.add_0_l. set (e := entry (mem s) To (n * PGSIZE)). replace (S k) with (k + 1)%nat by lia.
  assert (∀ x, 0 ≤ pg x < (n + 1) * PGSIZE → 0 ≤ x < MAXVA ∧ (pg x = n * PGSIZE ∨ 0 ≤ pg x < n * PGSIZE)) as Hsplit.
  { intros x Hx. pose proof (pg_aligned x). unfold pg, n in *. dlia. }
  destruct (has e PTE_V) eqn:Hv.
  - assert (PTE2PA e ∈ freed_pages true (entries (mem s) To 0 N)) as Hin by (apply freed_entry; [lia|done]).
    destruct (can_unmap_page _ _ _ _ _ (proj2 (pa_mem _ _ _ _ _ _ Hpar)) Hin) as ([page Hpage] & _ & Hpal).
    destruct (uvmcopy1_page s1 old To new T1 l1 n np (PTE2PA e) page) as (s2 & T2 & l2 & p & u2 & E2 & U2 & G2 & Hp & O2 & M2).
    { apply P1. } { done. } { by eapply can_charge_grew. } { lia. } { lia. } { rewrite El, length_app in Hlen. lia. }
    { by rewrite Hz1. } { by rewrite He1. } { by rewrite He1. } { rewrite Hm1; [done|by right]. }
    { intros ?. apply Hpal. rewrite El, elem_of_app. by right. }
    rewrite He1 in M2. fold e in M2. exists s2, T2, l2, (u1 ++ p :: u2). split_and!; [by rewrite (bind_step _ _ _ _ _ E2)|done|by eapply grew_trans| | |].
    + intros q. rewrite O2, O1, elem_of_app. tauto.
    + intros x Hx0 Hx1. rewrite M2, decide_False by (done || lia). apply M1; [done|lia].
    + intros x Hx. destruct (Hsplit x Hx) as [Hxv Hor]. unfold copied. rewrite M2 by done. destruct (decide (pg x = n * PGSIZE)) as [Ex|Hne].
      * rewrite <-(entry_pg _ To x), Ex. fold e. rewrite Hv. exists p. split_and!; [set_solver|done|by rewrite Hp].
      * destruct Hor as [|Hx']; [done|]. specialize (N1 x Hx'). unfold copied in N1.
        destruct (has (entry (mem s) To x) PTE_V); [|done]. destruct N1 as (p' & Hp' & He' & Hm'). exists p'. split_and!; [set_solver|done|].
        rewrite (mapped_kept 1 s1 new T1 l1 n s2 T2 l2 (p :: u2) x p' _ U1 Hx' He'); [done| |apply PTE_FLAGS_bound|done].
        eapply used_page; [apply Hum|exact El|done].
  - destruct (user_mem_hole s1 new T1 l1 n) as [U2 O2]; [lia|done|done|]. exists s1, T1, l1, u1. split_and!.
    + by erewrite bind_step by (apply (uvmcopy1_hole _ _ To l1); [apply P1|lia|by rewrite He1|rewrite He1; apply (pa_resident _ _ _ _ _ _ Hpar); [lia|done]]).
    + done.
    + rewrite <-(app_nil_r u1). eapply grew_trans; [done|]. destruct (grew_refl s1 T1 l1). split; auto. simpl. lia.
    + intros q. by rewrite O2, O1.
    + intros x Hx0 Hx1. apply M1; [done|lia].
    + intros x Hx. destruct (Hsplit x Hx) as [_ [Ex|Hx']]; [|by apply N1]. unfold copied.
      rewrite <-(entry_pg _ To x), <-(entry_pg _ T1 x), Ex. fold e. by rewrite Hv.
Qed.

(** C7. [fork]'s copy of memory: when no page of the parent's first [sz] bytes is
    in a swap slot and three pages are free for each, [uvmcopy] into a table with
    nothing mapped there returns 0; the child then has, at exactly the addresses
    where the parent has a page, a page of its own with the same bytes and the
    same permissions; the parent's entries, its pages, and every byte that was
    not free and not the child's table's are as before. *)
Theorem uvmcopy_copies s old To new Tn l sz np : let N := PGROUNDUP sz / PGSIZE in
  parent s old To l N Tn → user_mem s new Tn l 0 → can_charge s np → 0 ≤ sz ≤ TRAPFRAME → 3 * N ≤ zlen l →
  (∀ x, 0 ≤ x < PGROUNDUP sz → entry (mem s) Tn x = 0) →
  ∃ s' Tn' l' used, uvmcopy old new sz np s = Ok (0, s') ∧ l = used ++ l' ∧
    user_mem s' old To l' N ∧ user_mem s' new Tn' l' N ∧ (∀ p, own s' To N p → ¬ own s' Tn' N p) ∧
    (∀ p, own s' Tn' N p ↔ in_tree Tn p ∨ p ∈ used) ∧
    (∀ p, ¬ in_tree Tn p → p ∉ l → mem s' !! p = mem s !! p) ∧
    (∀ x, entry (mem s') To x = entry (mem s) To x) ∧
    (∀ x, PGROUNDUP sz ≤ x < MAXVA → entry (mem s') Tn' x = entry (mem s) Tn x) ∧
    ∀ x, 0 ≤ x < PGROUNDUP sz → copied s To s' Tn' used x.
Proof.
  intros N Hpar Hum Hr Hsz Hlen Hz. destruct (PGROUNDUP_pages sz Hsz) as (En & Hn & Hn'). fold N in En, Hn.
  destruct (uvmcopy_loop s old To new Tn l N (Z.to_nat N) np) as (s' & T' & l' & u & E & U & G & O & M & C);
    [done..|lia|lia|unfold zlen in Hlen; lia|intros; apply Hz; lia|]. rewrite Z2Nat.id in * by done.
  destruct (parent_grew _ s old To l N Tn s' T' l' u Hpar G) as (P & He & Hm); [apply U|].
  assert (∀ p, own s' T' N p ↔ in_tree Tn p ∨ p ∈ u) as O' by (intros p; rewrite O; unfold own; set_solver).
  assert (∀ p, own s' To N p → own s To N p) as Hown.
  { intros p. unfold own. by rewrite (entries_same (mem s) (mem s') To To 0 N). }
  pose proof (gr_list _ _ _ _ _ _ _ _ G) as El.
  exists s', T', l', u. split_and!; [|done|apply P|done| |done|by eapply gr_other|done| |].
  - unfold uvmcopy, page_steps. replace ((sz - 0 + PGSIZE - 1) / PGSIZE) with N; [by rewrite (bind_step _ _ _ _ _ E)|].
    unfold N. rewrite PGROUNDUP_pg by lia. unfold pg. dlia.
  - intros p Hp%Hown [?|Hu]%O'; [by eapply (pa_apart _ _ _ _ _ _ Hpar)|].
    apply (own_not_free _ _ _ _ _ _ (pa_mem _ _ _ _ _ _ Hpar) Hp). rewrite El, elem_of_app. by left.
  - intros x Hx. apply M; [lia|]. rewrite <-En in Hx. unfold pg. dlia.
  - intros x Hx. apply C. rewrite En. rewrite <-En in Hx. unfold pg. dlia.
Qed.
(** ** Shrinking *)

Lemma entries_app m T va n k : 0 ≤ n → 0 ≤ k → entries m T va (n + k) = entries m T va n ++ entries m T (va + n * PGSIZE) k.
Proof.
  intros Hn Hk. rewrite <-(Z2Nat.id k) by done. induction (Z.to_nat k) as [|j IH].
  { unfold entries at 3. simpl. by rewrite Z.add_0_r, app_nil_r. }
  rewrite Nat2Z.inj_succ, <-Z.add_1_r, Z.add_assoc, !entries_S, IH, <-app_assoc by lia. do 4 f_equal. lia.
Qed.

(** Giving memory back, for [sbrk] with a negative argument: the size returned is
    the new one, the pages above it are on the free list, their slots are free,
    and what is below is untouched. *)
Theorem uvmdealloc_shrinks s pt T l oldsz newsz : user_mem s pt T l (PGROUNDUP oldsz / PGSIZE) → unlocked s →
  0 ≤ newsz < oldsz → oldsz ≤ TRAPFRAME →
  ∃ s' fr sl, uvmdealloc pt oldsz newsz s = Ok (newsz, s') ∧ user_mem s' pt T (reverse fr ++ l) (PGROUNDUP newsz / PGSIZE) ∧
    (∀ p, own s T (PGROUNDUP oldsz / PGSIZE) p ↔ own s' T (PGROUNDUP newsz / PGSIZE) p ∨ p ∈ fr) ∧
    gave s (in_tree T) fr sl s' ∧
    ∀ x, 0 ≤ x < MAXVA → entry (mem s') T x =
      if decide (PGROUNDUP newsz ≤ x < PGROUNDUP oldsz) then unmapped_pte (entry (mem s) T x) else entry (mem s) T x.
Proof.
  intros [Hi Hc] Hu Hsz Hmax. destruct (PGROUNDUP_pages oldsz) as (En & Hn & Hn'); [lia|].
  destruct (PGROUNDUP_pages newsz) as (Em & Hm & Hm'); [lia|]. set (n := PGROUNDUP oldsz / PGSIZE) in *. set (m := PGROUNDUP newsz / PGSIZE) in *.
  assert (m ≤ n) as Hmn by (unfold n, m; rewrite !PGROUNDUP_pg by lia; unfold pg; dlia).
  assert (entries (mem s) T 0 n = entries (mem s) T 0 m ++ entries (mem s) T (m * PGSIZE) (n - m)) as Ees.
  { rewrite <-(Z.add_0_l (m * PGSIZE)), <-entries_app by lia. f_equal. lia. }
  set (lo := entries (mem s) T 0 m) in *. set (hi := entries (mem s) T (m * PGSIZE) (n - m)) in *. rewrite Ees in Hc.
  assert (∀ b, freed_pages b (lo ++ hi) = freed_pages b lo ++ freed_pages b hi) as Eapp.
  { intros b. unfold freed_pages. by rewrite fmap_app, concat_app. }
  destruct Hc as [Hnd Hc]. rewrite Eapp in Hnd. apply NoDup_app in Hnd as (Hlo & Hdis & Hhi).
  destruct (uvmunmap_removes true s pt T l (m * PGSIZE) (n - m)) as (s' & E & I & G & M);
    [done|done|dlia|lia|lia|lia|split; [done|intros e He; apply Hc, elem_of_app; by right]|]. fold hi in I, G.
  assert (entries (mem s') T 0 m = lo) as Elo.
  { apply entries_same. intros x Hx. rewrite M by lia. by rewrite decide_False by lia. }
  exists s', (freed_pages true hi), (freed_slots hi). split_and!; [|split; [done|]| |done|].
  - unfold uvmdealloc. destruct (Z.leb_spec oldsz newsz); [lia|].
    assert ((PGROUNDUP oldsz - PGROUNDUP newsz) / PGSIZE = n - m) as -> by (unfold n, m; dlia). rewrite i32_id by lia.
    rewrite <-Em at 2. destruct (Z.ltb_spec (PGROUNDUP newsz) (PGROUNDUP oldsz)); simpl; [by rewrite (bind_step _ _ _ _ _ E)|].
    assert (n - m = 0) as Z0 by (unfold n, m in *; lia). rewrite Z0 in E. unfold uvmunmap in E.
    assert ((m * PGSIZE) mod PGSIZE = 0) as Z1 by dlia. rewrite Z1 in E. by injection E as <-.
  - rewrite Elo. split; [done|]. intros e He. eapply can_free_gave; [apply Hc, elem_of_app; by left|done|]. intros p Hp Hp'. apply (Hdis p); [|done].
    apply elem_freed_pages. by exists e.
  - intros p. unfold own. rewrite Elo, Ees, Eapp, elem_of_app. tauto.
  - intros x Hx. rewrite M by done. apply decide_ext. rewrite <-En, <-Em. lia.
Qed.

(** ** Freeing *)

(** C6. A process's memory goes back whole: [proc_freepagetable] returns, and the
    free list is then the old one with the pages of user memory that are resident
    and the pages of the table itself, each once; the swap slots of the pages
    that are not resident are free again. No page that is shared with the kernel
    or belongs to anyone else is freed or written. *)
Theorem proc_freepagetable_frees s pt T l sz :
  vm_inv s pt T l → unlocked s → 0 ≤ sz ≤ TRAPFRAME →
  let es := entries (mem s) T 0 (PGROUNDUP sz / PGSIZE) in can_unmap true s T l es →
  has (entry (mem s) T TRAMPOLINE) PTE_V = true → has (entry (mem s) T TRAPFRAME) PTE_V = true →
  (∀ x, PGROUNDUP sz ≤ x < TRAPFRAME → has (entry (mem s) T x) PTE_V = false) →
  ∃ s' l', proc_freepagetable pt sz s = Ok (tt, s') ∧ kmem_inv s' l' ∧
    (∀ p, p ∈ l' ↔ p ∈ l ∨ p ∈ freed_pages true es ∨ in_tree T p) ∧
    swap_space s' = clear_slots (swap_space s) (freed_slots es) ∧
    (∀ p, ¬ in_tree T p → p ∉ freed_pages true es → mem s' !! p = mem s !! p) ∧
    held s' = held s ∧ procs s' = procs s.
Proof.
  intros Hi Hu Hsz es Hc Htp Htf Hrest. assert (PGROUNDUP sz = pg (sz + PGSIZE - 1)) as Eup by (apply PGROUNDUP_pg; lia).
  assert (PGROUNDUP sz / PGSIZE * PGSIZE = PGROUNDUP sz ∧ PGROUNDUP sz ≤ TRAPFRAME) as [En Hup].
  { rewrite Eup. pose proof (pg_aligned (sz + PGSIZE - 1)). unfold pg in *. dlia. }
  destruct (unmap_shared s pt T l TRAMPOLINE) as (s1 & E1 & I1 & G1 & M1); [done..|lia|lia|done|].
  destruct (unmap_shared s1 pt T l TRAPFRAME) as (s2 & E2 & I2 & G2 & M2); [done|by eapply unlocked_gave|done|lia|lia| |].
  { rewrite M1 by lia. by rewrite decide_False by lia. }
  assert (gave s (in_tree T) [] [] s2) as G by exact (gave_trans _ _ _ _ [] [] [] [] G1 G2).
  assert (∀ x, 0 ≤ x < TRAPFRAME → entry (mem s2) T x = entry (mem s) T x) as Esame.
  { intros x Hx. rewrite M2, M1 by lia. by rewrite !decide_False by lia. }
  assert (entries (mem s2) T 0 (PGROUNDUP sz / PGSIZE) = es) as Ees by (apply entries_same; intros x Hx; apply Esame; lia).
  destruct (uvmfree_frees s2 pt T l sz) as (s3 & E3 & K3 & G3).
  { done. } { by eapply unlocked_gave. } { done. }
  { rewrite Ees. destruct Hc as [Hnd Hc]. split; [done|]. intros e He.
    apply (can_free_gave true s s2 T l e [] []); [by apply Hc|done|set_solver]. }
  { intros x Hx. destruct (decide (x < TRAPFRAME)); [rewrite Esame by (pose proof (pg_aligned (sz + PGSIZE - 1)); unfold pg in *; dlia); apply Hrest; lia|].
    rewrite M2, M1 by lia. destruct (decide (TRAPFRAME ≤ x < TRAPFRAME + PGSIZE)); [done|]. by rewrite decide_True by lia. }
  rewrite Ees in *. 
  assert (gave s (in_tree T) (freed_pages true es ++ pages_below 3 T []) (freed_slots es) s3) as [S O]
    by exact (gave_trans _ _ _ _ [] _ [] _ G G3).
  assert (∀ p, p ∈ pages_below 3 T [] ↔ in_tree T p) as Hall.
  { intros p. split; [intros [q Hq]%elem_pages_below; by exists q|]. intros [q Hq].
    eapply (pages_below_all _ _ _ _ _ q); [apply I2|done|]. destruct (tr_path _ _ _ (vi_tree _ _ _ _ I2) _ _ Hq). lia. }
  exists s3, (reverse (freed_pages true es ++ pages_below 3 T []) ++ l). split_and!; [|done| | | |by rewrite S|by rewrite S].
  - unfold proc_freepagetable. by rewrite (bind_step _ _ _ _ _ E1), (bind_step _ _ _ _ _ E2).
  - intros p. rewrite elem_of_app, elem_of_reverse, elem_of_app, Hall. tauto.
  - by rewrite S.
  - intros p Hp Hf. apply O; [done|]. rewrite elem_of_app, Hall. tauto.
Qed.
(** ** A new table *)

Lemma uvmcreate_makes s p l : kmem_inv s (p :: l) → LKmem ∉ held s → let T : tree := {[ [] := p ]} in
  ∃ s', uvmcreate s = Ok (p, s') ∧ vm_inv s' p T l ∧ grew 1 s ∅ (p :: l) s' T l [p] ∧ ∀ x, entry (mem s') T x = 0.
Proof.
  intros Hk Hh T. pose proof (km_pages _ _ Hk) as [Hp _]%Forall_cons. destruct (alloc_page_range p Hp) as [Hp0 Hpa].
  pose proof (km_nodup _ _ Hk) as [Hpl _]%NoDup_cons.
  assert (∀ q a, T !! q = Some a → q = [] ∧ a = p) as HT by (intros q a [<- <-]%lookup_singleton_Some; done).
  set (s' := fresh_state s p l (zrepl PGSIZE 0)). exists s'. split_and!.
  - unfold uvmcreate. erewrite bind_step by (by apply kalloc_ok). destruct (Z.eqb_spec p 0); [lia|].
    erewrite bind_step; [|eapply memset_page_ok; [apply (allocated_inv _ _ _ Hk)|simpl; apply lookup_insert_eq]].
    simpl mem. by rewrite insert_insert_eq.
  - split.
    + apply (kmem_inv_mem (allocated s p l)); [by apply allocated_inv| |apply mem_wf_insert; [apply Hk|done|by apply zlen_zrepl]].
      intros q Hq. simpl. rewrite !lookup_insert_ne by (intros ->; done). done.
    + split.
      * apply lookup_singleton_eq.
      * intros q a [-> _]%HT. split_and!; [simpl; lia|constructor|simpl; lia].
      * intros q i a [E _]%HT. by destruct q.
      * intros q q' a [-> _]%HT [-> _]%HT. done.
      * intros q a [_ ->]%HT. split; [done|]. simpl. rewrite lookup_insert_eq. by eexists.
      * intros q a i [-> ->]%HT _ Hi. exists 0. split; [by apply zero_page_word|]. unfold child_word.
        destruct (T !! ([] ++ [i])) eqn:E; [by apply HT in E as [E _]|done].
    + intros q [q' [_ ->]%HT]. done.
  - split; [done|simpl; lia| | |done|done|done|done].
    + intros q [q' [_ ->]%HT]. right. constructor.
    + intros q _ [Hq _]%not_elem_of_cons. simpl. by rewrite lookup_insert_ne.
  - intros x. unfold entry, leaf. destruct (T !! [PX 2 x; PX 1 x]) eqn:E; [by apply HT in E as [E _]|done].
Qed.
End user.

(** ** A small machine *)

#[local] Existing Instances demo_layout no_disk.

(** [n] free pages from the end of the kernel on, and no process running. *)
Definition demo_pages (n : nat) : list Z := (λ i, kend + Z.of_nat i * PGSIZE) <$> seq 0 n.

Lemma demo_free n : (n ≤ 64)%nat → ∃ (s : kst unit) l, kmem_inv s l ∧ length l = n ∧ held s = ∅ ∧ cur s = None.
Proof.
  intros Hn. assert (∀ p, p ∈ demo_pages n → ∃ i, p = kend + Z.of_nat i * PGSIZE ∧ (i < n)%nat) as Hin.
  { intros p (i & -> & Hi%elem_of_seq)%list_elem_of_fmap. exists i. split; [done|lia]. }
  destruct (freerange_ok (demo_pages n) (demo_boot (demo_pages n)) []) as (s & E & Hi & Hh & _).
  - split; [apply chain_nil|constructor|constructor|set_solver| |by apply zlen_zrepl].
    apply pages_wf, Forall_forall. intros p (i & -> & _)%Hin. rewrite Z.mod_add by lia. done.
  - apply NoDup_fmap_2_strong; [intros; lia|apply NoDup_seq].
  - intros p Hp. split_and!; [set_solver| |by apply pages_present]. destruct (Hin p Hp) as (i & -> & Hi).
    unfold alloc_page. simpl. split_and!; dlia.
  - done.
  - exists (s <| cur := None |>), (reverse (demo_pages n)). rewrite app_nil_r in Hi. split_and!; [by destruct Hi; split| |done|done].
    unfold demo_pages. by rewrite length_reverse, length_fmap, length_seq.
Qed.

(** A new table, from [n] free pages. *)
Lemma demo_table n : (n < 64)%nat → ∃ (s0 s : kst unit) pt l, uvmcreate s0 = Ok (pt, s) ∧ user_mem s pt {[ [] := pt ]} l 0 ∧ length l = n ∧
  held s = ∅ ∧ cur s = None ∧ ∀ x, entry (mem s) {[ [] := pt ]} x = 0.
Proof.
  intros Hn. destruct (demo_free (S n)) as (s0 & l0 & Hk & Hl & Hh & Hc); [lia|]. destruct l0 as [|pt l]; [done|]. injection Hl as Hl.
  destruct (uvmcreate_makes s0 pt l) as (s & E & I & G & Z); [done|rewrite Hh; set_solver|].
  exists s0, s, pt, l. split_and!; [done|split; [done|]|done|by rewrite (gr_held _ _ _ _ _ _ _ _ G)|by rewrite (gr_cur _ _ _ _ _ _ _ _ G)|done].
  split; [constructor|]. intros e He. by apply elem_of_nil in He.
Qed.

Lemma demo_ready (s : kst unit) : held s = ∅ → cur s = None → ready s ∧ unlocked s.
Proof. intros Hh Hc. unfold ready, can_charge, unlocked. rewrite Hh, Hc. split_and!; set_solver. Qed.

(** From nothing to 5000 bytes. *)
Lemma uvmalloc_grows_witness : ∃ (s0 s s' : kst unit) pt T p, uvmcreate s0 = Ok (pt, s) ∧ uvmalloc pt 0 5000 PTE_W s = Ok (5000, s') ∧
  entry (mem s') T 4100 = leaf_pte p (user_perm PTE_W) ∧ mem s' !! p = Some (zrepl PGSIZE 0).
Proof.
  destruct (demo_table 6) as (s0 & s & pt & l & E & U & Hl & Hh & Hc & Hz); [lia|].
  destruct (uvmalloc_grows s pt {[ [] := pt ]} l 0 5000 PTE_W) as (s' & T' & l' & u & E' & _ & _ & _ & _ & _ & N).
  - exact U.
  - by apply demo_ready.
  - lia.
  - lia.
  - lia.
  - unfold zlen. rewrite Hl. vm_compute. done.
  - intros x _. by rewrite Hz.
  - destruct (N 4100) as (p & _ & Hp & He); [vm_compute; done|]. exists s0, s, s', pt, T', p. by split_and!.
Defined.

(** A process with a page, and a table for its child. *)
Lemma uvmcopy_copies_witness : ∃ (s s' : kst unit) old new To Tn used, uvmcopy old new PGSIZE None s = Ok (0, s') ∧
  has (entry (mem s) To 100) PTE_V = true ∧ copied s To s' Tn used 100.
Proof.
  destruct (demo_table 7) as (s0 & s1 & old & l1 & _ & U1 & Hl1 & Hh1 & Hc1 & Hz1); [lia|].
  destruct (uvmalloc_loop s1 old {[ [] := old ]} l1 0 1 0 PTE_W) as (s2 & To & l2 & u & _ & U2 & G2 & _ & _ & N2).
  { exact U1. } { by apply demo_ready. } { lia. } { lia. } { rewrite Hl1. lia. } { lia. } { intros x _. by rewrite Hz1. }
  pose proof (gr_list _ _ _ _ _ _ _ _ G2) as El. pose proof (gr_len _ _ _ _ _ _ _ _ G2) as Elen.
  rewrite El, length_app in Hl1. destruct l2 as [|new l3]; [simpl in Hl1; lia|].
  assert (∀ x, 0 ≤ x < 4096 → has (entry (mem s2) To x) PTE_V = true) as Hv.
  { intros x Hx. destruct (N2 x) as (p & _ & -> & _); [unfold pg; dlia|]. apply leaf_valid. }
  assert (parent s2 old To (new :: l3) 1 ∅) as P2.
  { split; [exact U2|intros p _ [q Hq]; by rewrite lookup_empty in Hq|]. intros x Hx Hno. by rewrite Hv in Hno by lia. }
  assert (held s2 = ∅) as Hh2 by (by rewrite (gr_held _ _ _ _ _ _ _ _ G2)).
  destruct (uvmcreate_makes s2 new l3) as (s3 & E3 & I3 & G3 & Z3); [apply U2|rewrite Hh2; set_solver|].
  destruct (parent_grew _ _ _ _ _ _ _ _ _ _ _ P2 G3 (vi_kmem _ _ _ _ I3)) as (P3 & He3 & _).
  destruct (uvmcopy_copies s3 old To new {[ [] := new ]} l3 PGSIZE None) as (s4 & Tn & l4 & u4 & E4 & _ & _ & _ & _ & _ & _ & _ & _ & C).
  - exact P3.
  - split; [exact I3|]. split; [constructor|]. intros e He. by apply elem_of_nil in He.
  - unfold can_charge. rewrite (gr_held _ _ _ _ _ _ _ _ G3), Hh2. split_and!; set_solver.
  - lia.
  - unfold zlen. change (PGROUNDUP PGSIZE / PGSIZE) with 1. simpl in Hl1. lia.
  - intros x _. apply Z3.
  - exists s3, s4, old, new, To, Tn, u4. split; [exact E4|]. split; [rewrite He3; apply Hv; lia|]. apply C. vm_compute. done.
Defined.

(** A process of 100 bytes. *)
Lemma proc_freepagetable_frees_witness : ∃ (s s' : kst unit) pt T l l', proc_freepagetable pt 100 s = Ok (tt, s') ∧ kmem_inv s l ∧
  kmem_inv s' l' ∧ ∀ p, p ∈ l' ↔ p ∈ l ∨ p ∈ freed_pages true (entries (mem s) T 0 1) ∨ in_tree T p.
Proof.
  destruct (demo_table 7) as (s0 & s1 & pt & l1 & _ & [I1 _] & Hl1 & Hh1 & Hc1 & Hz1); [lia|].
  destruct (mappages_inserts s1 pt {[ [] := pt ]} l1 TRAMPOLINE PGSIZE KERNBASE 0) as (s2 & T2 & l2 & u2 & _ & I2 & K2 & N2 & M2).
  { exact I1. } { rewrite Hh1. set_solver. } { done. } { done. } { lia. } { lia. } { lia. } { unfold zlen. rewrite Hl1. vm_compute. done. }
  { lia. } { lia. } { lia. } { intros x _. by rewrite Hz1. }
  pose proof (took_held _ _ _ _ _ _ _ K2) as Hh2. rewrite Hh1 in Hh2. pose proof (tk_list _ _ _ _ _ _ _ K2) as El2.
  rewrite El2, length_app in Hl1. unfold zlen in N2. change (PGSIZE / PGSIZE) with 1 in N2.
  destruct (mappages_inserts s2 pt T2 l2 TRAPFRAME PGSIZE KERNBASE 0) as (s3 & T3 & l3 & u3 & _ & I3 & K3 & N3 & M3).
  { exact I2. } { rewrite Hh2. set_solver. } { done. } { done. } { lia. } { lia. } { lia. } { unfold zlen. change (PGSIZE / PGSIZE) with 1. lia. }
  { lia. } { lia. } { lia. } { intros x Hx. rewrite M2, decide_False by lia. by rewrite Hz1. }
  pose proof (took_held _ _ _ _ _ _ _ K3) as Hh3. rewrite Hh2 in Hh3. pose proof (tk_list _ _ _ _ _ _ _ K3) as El3.
  rewrite El3, length_app in Hl1. unfold zlen in N3. change (PGSIZE / PGSIZE) with 1 in N3.
  assert (cur s3 = None) as Hc3 by (rewrite (tk_state _ _ _ _ _ _ _ K3); simpl; by rewrite (tk_state _ _ _ _ _ _ _ K2)).
  assert (user_mem s3 pt T3 l3 0) as U3 by (split; [exact I3|]; split; [constructor|]; intros e He; by apply elem_of_nil in He).
  destruct (uvmalloc_loop s3 pt T3 l3 0 1 0 PTE_W) as (s4 & T4 & l4 & u4 & _ & [I4 C4] & G4 & _ & M4 & _).
  { exact U3. } { by apply demo_ready. } { lia. } { lia. } { lia. } { lia. }
  { intros x Hx. rewrite M3, decide_False, M2, decide_False by lia. by rewrite Hz1. }
  assert (∀ x, 4096 ≤ x < MAXVA → entry (mem s4) T4 x = entry (mem s3) T3 x) as E4.
  { intros x Hx. apply M4; [lia|]. unfold pg. dlia. }
  destruct (proc_freepagetable_frees s4 pt T4 l4 100) as (s5 & l5 & E5 & K5 & Hall & _).
  - exact I4.
  - apply demo_ready; [by rewrite (gr_held _ _ _ _ _ _ _ _ G4)|by rewrite (gr_cur _ _ _ _ _ _ _ _ G4)].
  - lia.
  - exact C4.
  - rewrite E4, M3, decide_False, M2, decide_True by lia. apply leaf_valid.
  - rewrite E4, M3, decide_True by lia. apply leaf_valid.
  - change (PGROUNDUP 100) with 4096. intros x Hx. rewrite E4, M3, decide_False, M2, decide_False by lia. by rewrite Hz1.
  - exists s4, s5, pt, T4, l4, l5. split_and!; [exact E5|apply I4|exact K5|exact Hall].
Defined.
