(* ===== verification/File.v ===== *)
(** * Open files, pipes and the console

    Models [kernel/file.c], [kernel/pipe.c] and [kernel/console.c] over the file
    system of [Fs] and the processes of [Proc], and gives the implementation of
    the interface [FileOps] that [proc.c] uses. A call that sleeps is followed up
    to the sleep; what it does when woken up is a definition of its own. *)

From stdpp Require Import base numbers list gmap strings.
From S2P Require Import Prelude Machine KState Bio Log Disk Raid Kalloc Evict VM Str Fs Proc.
Open Scope Z_scope.
Open Scope kernel_scope.

Abbreviation NDEV := 10.
Abbreviation CONSOLE := 1.
Abbreviation PIPESIZE := 512.
Abbreviation INPUT_BUF_SIZE := 128.
(** Offsets in [struct pipe], after a [struct spinlock] of 24 bytes. *)
Abbreviation PIPE_data := 24.
Abbreviation PIPE_nread := 536.
Abbreviation PIPE_nwrite := 540.

Section file.
Context {L : Layout}.
Abbreviation K := (M (kst fsst)).

(** A call into the file system by the running process. *)
Definition lift_fs {A} (m : FS A) : K A :=
  me ← myproc;
  pid ← match me with Some i => p ← getp i; mret (p_pid p) | None => mret 0 end;
  lift_bdev (updf fs_log (λ l, l <| l_bc ::= λ c, c <| bc_mypid := pid |> |>) ;; m).

(** ** file.c *)

Definition acquire_ft : FS unit :=
  l ← gets fs_ftlock; if (l : bool) then panic "acquire" else setf fs_ftlock true.
Definition release_ft : FS unit :=
  l ← gets fs_ftlock; if (l : bool) then setf fs_ftlock false else panic "release".
Definition getf (f : nat) : FS file := l ← gets fs_file; opt (l !! f).
Definition updfile (f : nat) (g : file → file) : FS unit :=
  x ← getf f; updf fs_file (λ l, <[f := g x]> l).

Definition fileinit : FS unit := setf fs_ftlock false.

Definition filealloc : FS (option nat) :=
  acquire_ft ;;
  r ← for_find (λ f,
    x ← getf f;
    if fl_ref x =? 0 then updfile f (λ x, x <| fl_ref := 1 |>) ;; release_ft ;; mret (Some f)
    else mret None) (seq 0 (Z.to_nat NFILE));
  match r with Some f => mret (Some f) | None => release_ft ;; mret None end.

Definition filedup (f : nat) : FS nat :=
  acquire_ft ;;
  x ← getf f;
  if fl_ref x <? 1 then panic "filedup" else
  updfile f (λ x, x <| fl_ref ::= λ n, i32 (n + 1) |>) ;;
  release_ft ;; mret f.

(** The part of [fileclose] under [ftable.lock]: the file, once its last
    reference is gone. *)
Definition fileclose_ref (f : nat) : FS (option file) :=
  acquire_ft ;;
  x ← getf f;
  if fl_ref x <? 1 then panic "fileclose" else
  updfile f (λ x, x <| fl_ref ::= λ n, i32 (n - 1) |>) ;;
  ff ← getf f;
  if 0 <? fl_ref ff then release_ft ;; mret None else
  updfile f (λ x, x <| fl_ref := 0 |> <| fl_type := FD_NONE |>) ;;
  release_ft ;; mret (Some ff).

(** ** pipe.c *)

Definition getpi (pi : Z) : K pipe := m ← lift_bdev (gets fs_pipe); opt (m !! pi).
Definition updpi (pi : Z) (f : pipe → pipe) : K unit :=
  p ← getpi pi; lift_bdev (updf fs_pipe (λ m, <[pi := f p]> m)).

Definition pipeclose (pi : Z) (writable : bool) : K unit :=
  acquire (LPipe pi) ;;
  (if writable then updpi pi (λ p, p <| pi_writeopen := false |>) ;; wakeup (ChAddr (pi + PIPE_nread))
   else updpi pi (λ p, p <| pi_readopen := false |>) ;; wakeup (ChAddr (pi + PIPE_nwrite))) ;;
  p ← getpi pi;
  if negb (pi_readopen p) && negb (pi_writeopen p) then
    release (LPipe pi) ;;
    lift_bdev (updf fs_pipe (λ m, delete pi m)) ;;
    kfree pi
  else release (LPipe pi).

Definition fileclose (f : nat) : K unit :=
  r ← lift_fs (fileclose_ref f);
  match r with
  | None => mret tt
  | Some ff =>
      match fl_type ff with
      | FD_PIPE => pipeclose (fl_pipe ff) (fl_writable ff)
      | FD_INODE | FD_DEVICE =>
          lift_fs fs_begin_op ;;
          ip ← opt (fl_ip ff);
          lift_fs (iput ip) ;;
          lift_fs fs_end_op
      | FD_NONE => mret tt
      end
  end.

(** The two ends, or [None] for -1. *)
Definition pipealloc : K (option (nat * nat)) :=
  f0 ← lift_fs filealloc;
  match f0 with
  | None => mret None
  | Some f0 =>
      f1 ← lift_fs filealloc;
      match f1 with
      | None => fileclose f0 ;; mret None
      | Some f1 =>
          pi ← kalloc;
          if pi =? 0 then fileclose f0 ;; fileclose f1 ;; mret None else
          d ← read_bytes (pi + PIPE_data) PIPESIZE;
          lift_bdev (updf fs_pipe (λ m, <[pi := MkPipe d 0 0 true true]> m)) ;;
          lift_fs (updfile f0 (λ x, x <| fl_type := FD_PIPE |> <| fl_readable := true |>
                                      <| fl_writable := false |> <| fl_pipe := pi |>) ;;
                   updfile f1 (λ x, x <| fl_type := FD_PIPE |> <| fl_readable := false |>
                                      <| fl_writable := true |> <| fl_pipe := pi |>)) ;;
          mret (Some (f0, f1))
      end
  end.

(** How the loop of [pipewrite] ends: with [i] bytes written, because there is
    nobody to read (the lock is then released), or asleep with [i] written. *)
Inductive pw_end := PwDone (i : Z) | PwDead | PwSleep (i : Z).
Definition pipewrite_step (pr : nat) (pi addr n i : Z) : K (Z + pw_end) :=
  if negb (i <? n) then mret (inr (PwDone i)) else
  p ← getpi pi;
  dead ← (if negb (pi_readopen p) then mret true else k ← killed pr; mret (negb (k =? 0)));
  if (dead : bool) then release (LPipe pi) ;; mret (inr PwDead) else
  if pi_nwrite p =? u32 (pi_nread p + PIPESIZE) then
    wakeup (ChAddr (pi + PIPE_nread)) ;;
    sleep_off (ChAddr (pi + PIPE_nwrite)) (LPipe pi) ;;
    mret (inr (PwSleep i))
  else
    q ← getp pr;
    c ← copyin (p_pagetable q) (u64 (addr + i)) 1;
    if c.2 =? -1 then mret (inr (PwDone i)) else
    ch ← opt (head c.1);
    updpi pi (λ p, p <| pi_data ::= λ d, zset d (pi_nwrite p mod PIPESIZE) ch |>
                     <| pi_nwrite ::= λ w, u32 (w + 1) |>) ;;
    mret (inl (i + 1)).
(** With the lock held and [i] bytes written: [inl] is asleep, [inr] the result. *)
Definition pipewrite_from (pi addr n i : Z) : K (Z + Z) :=
  me ← myproc; pr ← opt me;
  r ← loop (Z.to_nat (n - i) + 1) (pipewrite_step pr pi addr n) i;
  match r with
  | PwDone i => wakeup (ChAddr (pi + PIPE_nread)) ;; release (LPipe pi) ;; mret (inr i)
  | PwDead => mret (inr (-1))
  | PwSleep i => mret (inl i)
  end.
Definition pipewrite (pi addr n : Z) : K (Z + Z) := acquire (LPipe pi) ;; pipewrite_from pi addr n 0.
Definition pipewrite_resume (pi addr n i : Z) : K (Z + Z) := sleep_on (LPipe pi) ;; pipewrite_from pi addr n i.

Definition piperead_step (pr : nat) (pi addr n i : Z) : K (Z + Z) :=
  if negb (i <? n) then mret (inr i) else
  p ← getpi pi;
  if pi_nread p =? pi_nwrite p then mret (inr i) else
  ch ← opt (znth (pi_data p) (pi_nread p mod PIPESIZE));
  q ← getp pr;
  r ← copyout (p_pagetable q) (u64 (addr + i)) [ch];
  if r =? -1 then mret (inr (if i =? 0 then -1 else i)) else
  updpi pi (λ p, p <| pi_nread ::= λ r, u32 (r + 1) |>) ;;
  mret (inl (i + 1)).
(** With the lock held; [None] is asleep. *)
Definition piperead_from (pi addr n : Z) : K (option Z) :=
  me ← myproc; pr ← opt me;
  p ← getpi pi;
  if (pi_nread p =? pi_nwrite p) && pi_writeopen p then
    k ← killed pr;
    if negb (k =? 0) then release (LPipe pi) ;; mret (Some (-1)) else
    sleep_off (ChAddr (pi + PIPE_nread)) (LPipe pi) ;; mret None
  else
    i ← loop (Z.to_nat n + 1) (piperead_step pr pi addr n) 0;
    wakeup (ChAddr (pi + PIPE_nwrite)) ;;
    release (LPipe pi) ;;
    mret (Some i).
Definition piperead (pi addr n : Z) : K (option Z) := acquire (LPipe pi) ;; piperead_from pi addr n.
Definition piperead_resume (pi addr n : Z) : K (option Z) := sleep_on (LPipe pi) ;; piperead_from pi addr n.

(** ** console.c *)

Abbreviation BACKSPACE := 256.
(** [C('D')] and the like. *)
Abbreviation CTRL_D := 4.
Abbreviation CTRL_H := 8.
Abbreviation CTRL_P := 16.
Abbreviation CTRL_U := 21.

Definition getc_cons : K console := lift_bdev (gets fs_cons).
Definition updc (f : console → console) : K unit := lift_bdev (updf fs_cons f).

(** A character that the UART has taken. *)
Definition uartputc (c : Z) : K unit := updc (λ x, x <| c_out ::= λ l, l ++ [u8 c] |>).
Definition consputc (c : Z) : K unit :=
  if c =? BACKSPACE then uartputc 8 ;; uartputc 32 ;; uartputc 8 else uartputc c.

Definition consolewrite_step (user_src : bool) (src n i : Z) : K (Z + Z) :=
  if negb (i <? n) then mret (inr i) else
  let nn := Z.min 32 (n - i) in
  c ← either_copyin user_src (u64 (src + i)) nn;
  if c.2 =? -1 then mret (inr i) else
  for_each uartputc c.1 ;;
  mret (inl (i + nn)).
Definition consolewrite (user_src : bool) (src n : Z) : K Z :=
  loop (Z.to_nat (n / 32) + 2) (consolewrite_step user_src src n) 0.

(** [consoleread]: the loop state is where the next byte goes and how many are
    left to read. It ends for good, as killed, or asleep. *)
Inductive cr_end := CrDone (n : Z) | CrKilled | CrSleep (dst n : Z).
Definition consoleread_step (pr : nat) (user_dst : bool) (target : Z) (x : Z * Z) : K ((Z * Z) + cr_end) :=
  let '(dst, n) := x in
  if negb (0 <? n) then mret (inr (CrDone n)) else
  c ← getc_cons;
  if c_r c =? c_w c then
    k ← killed pr;
    if negb (k =? 0) then release LCons ;; mret (inr CrKilled) else
    sleep_off ChCons LCons ;; mret (inr (CrSleep dst n))
  else
    ch ← opt (znth (c_buf c) (c_r c mod INPUT_BUF_SIZE));
    updc (λ c, c <| c_r ::= λ r, u32 (r + 1) |>) ;;
    if ch =? CTRL_D then
      when (n <? target) (updc (λ c, c <| c_r ::= λ r, u32 (r - 1) |>)) ;;
      mret (inr (CrDone n))
    else
      r ← either_copyout user_dst dst [ch];
      if r =? -1 then mret (inr (CrDone n)) else
      if ch =? 10 then mret (inr (CrDone (n - 1))) else mret (inl (u64 (dst + 1), n - 1)).
(** With the lock held; [inl] is asleep. *)
Definition consoleread_from (user_dst : bool) (target dst n : Z) : K ((Z * Z) + Z) :=
  me ← myproc; pr ← opt me;
  r ← loop (Z.to_nat n + 1) (consoleread_step pr user_dst target) (dst, n);
  match r with
  | CrDone n => release LCons ;; mret (inr (target - n))
  | CrKilled => mret (inr (-1))
  | CrSleep dst n => mret (inl (dst, n))
  end.
Definition consoleread (user_dst : bool) (dst n : Z) : K ((Z * Z) + Z) :=
  acquire LCons ;; consoleread_from user_dst n dst n.
Definition consoleread_resume (user_dst : bool) (target dst n : Z) : K ((Z * Z) + Z) :=
  sleep_on LCons ;; consoleread_from user_dst target dst n.

(** [C('U')]: erase the line that is being edited; the buffer bounds it. *)
Definition kill_line_step (_ : unit) : K (unit + unit) :=
  c ← getc_cons;
  if c_e c =? c_w c then mret (inr tt) else
  ch ← opt (znth (c_buf c) (u32 (c_e c - 1) mod INPUT_BUF_SIZE));
  if ch =? 10 then mret (inr tt) else
  updc (λ c, c <| c_e ::= λ e, u32 (e - 1) |>) ;; consputc BACKSPACE ;; mret (inl tt).

Definition consoleintr (ch : Z) : K unit :=
  acquire LCons ;;
  (if ch =? CTRL_P then procdump ;; mret tt
   else if ch =? CTRL_U then
     c ← getc_cons; loop (Z.to_nat (u32 (c_e c - c_w c)) + 1) kill_line_step tt
   else if (ch =? CTRL_H) || (ch =? 127) then
     c ← getc_cons;
     when (negb (c_e c =? c_w c)) (updc (λ c, c <| c_e ::= λ e, u32 (e - 1) |>) ;; consputc BACKSPACE)
   else
     c ← getc_cons;
     when (negb (ch =? 0) && (u32 (c_e c - c_r c) <? INPUT_BUF_SIZE))
       (let ch := if ch =? 13 then 10 else ch in
        consputc ch ;;
        updc (λ c, c <| c_buf ::= λ b, zset b (c_e c mod INPUT_BUF_SIZE) (u8 ch) |>
                     <| c_e ::= λ e, u32 (e + 1) |>) ;;
        c ← getc_cons;
        when ((ch =? 10) || (ch =? CTRL_D) || (u32 (c_e c - c_r c) =? INPUT_BUF_SIZE))
          (updc (λ c, c <| c_w := c_e c |>) ;; wakeup ChCons))) ;;
  release LCons.

(** ** Reading and writing files *)

(** The bytes of a [struct stat]; [pad] is what the stack held in its hole. *)
Definition stat_bytes (pad : list Z) (st : stat) : list Z :=
  le_of 4 (st_dev st) ++ le_of 4 (st_ino st) ++ le_of 2 (st_type st) ++ le_of 2 (st_nlink st) ++
  pad ++ le_of 8 (st_size st).
Definition filestat (pad : list Z) (f : nat) (addr : Z) : K Z :=
  me ← myproc; i ← opt me; p ← getp i;
  x ← lift_fs (getf f);
  if bool_decide (fl_type x = FD_INODE ∨ fl_type x = FD_DEVICE) then
    ip ← opt (fl_ip x);
    st ← lift_fs (ilock ip ;; st ← stati ip; iunlock ip ;; mret st);
    r ← copyout (p_pagetable p) addr (stat_bytes pad st);
    mret (if r <? 0 then -1 else 0)
  else mret (-1).

(** [devsw[major].read] and [.write] are set for [CONSOLE] only. *)
Definition has_driver (major : Z) : bool := (0 <=? major) && (major <? NDEV) && (major =? CONSOLE).

(** A result, or [None] for a call gone to sleep. *)
Definition fileread (f : nat) (addr n : Z) : K (option Z) :=
  x ← lift_fs (getf f);
  if negb (fl_readable x) then mret (Some (-1)) else
  match fl_type x with
  | FD_PIPE => piperead (fl_pipe x) addr n
  | FD_DEVICE =>
      if negb (has_driver (fl_major x)) then mret (Some (-1)) else
      r ← consoleread true addr n;
      mret (match r with inl _ => None | inr v => Some v end)
  | FD_INODE =>
      ip ← opt (fl_ip x);
      lift_fs (ilock ip) ;;
      x ← lift_fs (getf f);
      r ← readi_with (@lift_fs) (λ tot bs, either_copyout true (u64 (addr + tot)) bs) ip (fl_off x) (u32 n);
      when (0 <? r.2) (lift_fs (updfile f (λ x, x <| fl_off ::= λ o, u32 (o + r.2) |>))) ;;
      lift_fs (iunlock ip) ;;
      mret (Some r.2)
  | FD_NONE => panic "fileread"
  end.

(** [((MAXOPBLOCKS-1-1-2) / 2) * BSIZE] bytes go into one transaction. *)
Abbreviation WRITE_MAX := 3072.
Definition filewrite_step (f : nat) (addr n i : Z) : K (Z + Z) :=
  if negb (i <? n) then mret (inr i) else
  let n1 := Z.min (n - i) WRITE_MAX in
  lift_fs fs_begin_op ;;
  x ← lift_fs (getf f); ip ← opt (fl_ip x);
  lift_fs (ilock ip) ;;
  x ← lift_fs (getf f);
  r ← writei_with (@lift_fs) (λ tot m, either_copyin true (u64 (u64 (addr + i) + tot)) m) ip (fl_off x) n1;
  when (0 <? r) (lift_fs (updfile f (λ x, x <| fl_off ::= λ o, u32 (o + r) |>))) ;;
  lift_fs (iunlock ip) ;;
  lift_fs fs_end_op ;;
  if negb (r =? n1) then mret (inr i) else mret (inl (i + r)).
Definition filewrite (f : nat) (addr n : Z) : K (option Z) :=
  x ← lift_fs (getf f);
  if negb (fl_writable x) then mret (Some (-1)) else
  match fl_type x with
  | FD_PIPE => r ← pipewrite (fl_pipe x) addr n; mret (match r with inl _ => None | inr v => Some v end)
  | FD_DEVICE =>
      if negb (has_driver (fl_major x)) then mret (Some (-1)) else
      r ← consolewrite true addr n; mret (Some r)
  | FD_INODE =>
      i ← loop (Z.to_nat (n / WRITE_MAX) + 2) (filewrite_step f addr n) 0;
      mret (Some (if i =? n then n else -1))
  | FD_NONE => panic "filewrite"
  end.

(** ** The interface to [proc.c] *)

#[global] Instance file_ops : FileOps fsst := {|
  fo_filedup f := r ← lift_fs (filedup (Z.to_nat f)); mret (Z.of_nat r);
  fo_fileclose f := fileclose (Z.to_nat f);
  fo_idup ip := r ← lift_fs (idup (Z.to_nat ip)); mret (Z.of_nat r);
  fo_iput ip := lift_fs (iput (Z.to_nat ip));
  fo_begin_op := lift_fs fs_begin_op;
  fo_end_op := lift_fs fs_end_op;
  fo_namei_root := r ← lift_fs (namei None [SLASH; 0]); ip ← opt r; mret (Z.of_nat ip);
|}.
End file.
