(* ===== verification/Args.v ===== *)
(** * System call arguments

    Models the first half of [kernel/syscall.c]: fetching words and strings from
    user memory and the arguments from the trapframe. A kernel buffer that a
    fetch fills is returned with the result. *)

From stdpp Require Import base numbers list gmap strings.
From S2P Require Import Prelude Machine KState Disk Raid Kalloc Evict VM Str Proc.
Open Scope Z_scope.
Open Scope kernel_scope.

Section args.
Context {D : Type} `{!BlockStore D} {L : Layout}.
Abbreviation K := (M (kst D)).

(** [struct proc *p = myproc();] for code that uses it. *)
Definition mypcb : K (nat * proc) := me ← myproc; i ← opt me; p ← getp i; mret (i, p).

(** The word and the result, 0 or -1. *)
Definition fetchaddr (addr : Z) : K (Z * Z) :=
  x ← mypcb;
  let p := x.2 in
  if (p_sz p <=? addr) || (p_sz p <? u64 (addr + 8)) then mret (0, -1) else
  c ← copyin (p_pagetable p) addr 8;
  if negb (c.2 =? 0) then mret (0, -1) else mret (le_val c.1, 0).

(** The bytes copied into [buf] and the length of the string, or -1. *)
Definition fetchstr (addr max : Z) : K (list Z * Z) :=
  x ← mypcb;
  c ← copyinstr (p_pagetable x.2) addr max;
  if c.2 <? 0 then mret (c.1, -1) else n ← opt (strlen c.1); mret (c.1, n).

(** Registers [a0] to [a5] of the trapframe. *)
Definition argraw (n : Z) : K Z :=
  x ← mypcb;
  if (0 <=? n) && (n <=? 5) then load64 (p_trapframe x.2 + TF_a0 + 8 * n) else panic "argraw".
Definition argint (n : Z) : K Z := v ← argraw n; mret (i32 v).
Definition argaddr (n : Z) : K Z := argraw n.
Definition argstr (n max : Z) : K (list Z * Z) := addr ← argaddr n; fetchstr addr max.
End args.
