(* ===== verification/Exec.v ===== *)
(** * Program loading

    Models [kernel/exec.c]: reading an ELF file into a new page table, building
    the stack with the arguments, and committing to the new image. An argument
    is the address of the page that holds its string. *)

From stdpp Require Import base numbers list gmap strings.
From S2P Require Import Prelude Machine KState Bio Log Disk Raid Kalloc Evict VM Str Fs Proc File Args.
Open Scope Z_scope.
Open Scope kernel_scope.

Abbreviation MAXARG := 32.
Abbreviation USERSTACK := 1.
Abbreviation ELF_MAGIC := 1179403647.    (* 0x464C457F *)
Abbreviation ELF_PROG_LOAD := 1.
Abbreviation ELFHDR := 64.               (* sizeof(struct elfhdr) *)
Abbreviation PROGHDR := 56.              (* sizeof(struct proghdr) *)
Abbreviation TF_sp := 48.
Abbreviation TF_a1 := 120.

(** The fields of the headers that are used. *)
Definition elf_magic (h : list Z) : Z := getu 0 4 h.
Definition elf_entry (h : list Z) : Z := getu 24 8 h.
Definition elf_phoff (h : list Z) : Z := getu 32 8 h.
Definition elf_phnum (h : list Z) : Z := getu 56 2 h.
Definition ph_type (h : list Z) : Z := getu 0 4 h.
Definition ph_flags (h : list Z) : Z := getu 4 4 h.
Definition ph_off (h : list Z) : Z := getu 8 8 h.
Definition ph_vaddr (h : list Z) : Z := getu 16 8 h.
Definition ph_filesz (h : list Z) : Z := getu 32 8 h.
Definition ph_memsz (h : list Z) : Z := getu 40 8 h.

Definition flags2perm (flags : Z) : Z :=
  let perm := if has flags 1 then PTE_X else 0 in
  if has flags 2 then setb perm PTE_W else perm.

(** The last element of a path, for the name of the process. *)
Fixpoint path_last (last s : list Z) : option (list Z) :=
  match s with
  | [] => None
  | c :: s' => if c =? 0 then Some last else path_last (if c =? SLASH then s' else last) s'
  end.

Section exec.
Context {L : Layout}.
Abbreviation K := (M (kst fsst)).

(** One page of a segment: [Some (-1)] ends the loop. *)
Definition loadseg1 (pagetable va : Z) (ip : nat) (offset sz i : Z) : K (option Z) :=
  pa ← walkaddr pagetable (u64 (va + i));
  if pa =? 0 then panic "loadseg: address should exist" else
  let n := if sz - i <? PGSIZE then sz - i else PGSIZE in
  r ← readi_with (@lift_fs) (λ tot bs, either_copyout false (pa + tot) bs) ip (u32 (offset + i)) n;
  mret (if negb (r.2 =? n) then Some (-1) else None).
Definition loadseg (pagetable va : Z) (ip : nat) (offset sz : Z) : K Z :=
  r ← for_find (loadseg1 pagetable va ip offset sz) (page_steps 0 sz);
  mret (default 0 r).

(** A kernel buffer read from a file. *)
Definition readi_k (ip : nat) (off n : Z) : K (list Z * Z) := lift_fs (readi ip off n).

(** One program header: the loop state is [i], [off] and [sz]; the loop ends
    with whether all went well, and the size so far. *)
Definition kexec_load_step (pagetable phnum : Z) (ip : nat) (x : Z * Z * Z) : K ((Z * Z * Z) + (bool * Z)) :=
  let '(i, off, sz) := x in
  if negb (i <? phnum) then mret (inr (true, sz)) else
  r ← readi_k ip (u32 off) PROGHDR;
  if negb (r.2 =? PROGHDR) then mret (inr (false, sz)) else
  let ph := r.1 in
  let next sz := mret (inl (i + 1, i32 (off + PROGHDR), sz)) in
  if negb (ph_type ph =? ELF_PROG_LOAD) then next sz else
  if ph_memsz ph <? ph_filesz ph then mret (inr (false, sz)) else
  if u64 (ph_vaddr ph + ph_memsz ph) <? ph_vaddr ph then mret (inr (false, sz)) else
  if negb (ph_vaddr ph mod PGSIZE =? 0) then mret (inr (false, sz)) else
  sz1 ← uvmalloc pagetable sz (u64 (ph_vaddr ph + ph_memsz ph)) (flags2perm (ph_flags ph));
  if sz1 =? 0 then mret (inr (false, sz)) else
  l ← loadseg pagetable (ph_vaddr ph) ip (u32 (ph_off ph)) (u32 (ph_filesz ph));
  if l <? 0 then mret (inr (false, sz1)) else next sz1.

(** One argument: its string goes on the stack, its address in [ustack]. *)
Definition kexec_arg (pagetable stackbase : Z) (sp : Z) (ustack : list Z) (arg : Z) : K (option (Z * list Z)) :=
  if MAXARG <=? zlen ustack then mret None else
  s ← read_bytes arg PGSIZE;
  n ← opt (strlen s);
  let sp := u64 (sp - (n + 1)) in
  let sp := u64 (sp - sp mod 16) in
  if sp <? stackbase then mret None else
  r ← copyout pagetable sp (take (Z.to_nat (n + 1)) s);
  if r <? 0 then mret None else mret (Some (sp, ustack ++ [sp])).
Fixpoint kexec_args (pagetable stackbase : Z) (argv : list Z) (sp : Z) (ustack : list Z) :
    K (option (Z * list Z)) :=
  match argv with
  | [] => mret (Some (sp, ustack))
  | arg :: argv =>
      r ← kexec_arg pagetable stackbase sp ustack arg;
      match r with
      | None => mret None
      | Some (sp, ustack) => kexec_args pagetable stackbase argv sp ustack
      end
  end.

(** [bad:] *)
Definition kexec_bad (pagetable sz : Z) (ip : option nat) : K Z :=
  when (negb (pagetable =? 0)) (proc_freepagetable pagetable sz) ;;
  match ip with
  | Some ip => lift_fs (iunlockput ip) ;; lift_fs fs_end_op
  | None => mret tt
  end ;;
  mret (-1).

(** The stack, and the switch to the new image. *)
Definition kexec_finish (path : list Z) (argv : list Z) (elf : list Z) (pagetable sz : Z) : K Z :=
  x ← mypcb;
  let '(me, p) := x in
  let oldsz := p_sz p in
  let sz := PGROUNDUP sz in
  sz1 ← uvmalloc pagetable sz (u64 (sz + (USERSTACK + 1) * PGSIZE)) PTE_W;
  if sz1 =? 0 then kexec_bad pagetable sz None else
  let sz := sz1 in
  uvmclear pagetable (u64 (sz - (USERSTACK + 1) * PGSIZE)) ;;
  let stackbase := u64 (sz - USERSTACK * PGSIZE) in
  r ← kexec_args pagetable stackbase argv sz [];
  match r with
  | None => kexec_bad pagetable sz None
  | Some (sp, ustack) =>
      let argc := zlen ustack in
      if MAXARG <=? argc then fault else
      let sp := u64 (sp - (argc + 1) * 8) in
      let sp := u64 (sp - sp mod 16) in
      if sp <? stackbase then kexec_bad pagetable sz None else
      r ← copyout pagetable sp (mjoin (le_of 8 <$> (ustack ++ [0])));
      if r <? 0 then kexec_bad pagetable sz None else
      p ← getp me;
      store64 (p_trapframe p + TF_a1) sp ;;
      last ← opt (path_last path path);
      name ← opt (safestrcpy (p_name p) last 16);
      updp me (λ p, p <| p_name := name |>) ;;
      let oldpagetable := p_pagetable p in
      updp me (λ p, p <| p_pagetable := pagetable |> <| p_sz := sz |>) ;;
      store64 (p_trapframe p + TF_epc) (elf_entry elf) ;;
      updp me (λ p, p <| p_page_faults := 0 |> <| p_pages_evicted := 0 |> <| p_pages_swapped_in := 0 |>
                      <| p_pages_swapped_out := 0 |> <| p_resident_pages := 0 |>) ;;
      store64 (p_trapframe p + TF_sp) sp ;;
      proc_freepagetable oldpagetable oldsz ;;
      mret argc
  end.

Definition kexec (path : list Z) (argv : list Z) : K Z :=
  lift_fs fs_begin_op ;;
  x ← mypcb;
  let '(me, p) := x in
  ip ← lift_fs (namei (Z.to_nat <$> p_cwd p) path);
  match ip with
  | None => lift_fs fs_end_op ;; mret (-1)
  | Some ip =>
      lift_fs (ilock ip) ;;
      r ← readi_k ip 0 ELFHDR;
      let elf := r.1 in
      if negb (r.2 =? ELFHDR) || negb (elf_magic elf =? ELF_MAGIC) then kexec_bad 0 0 (Some ip) else
      pagetable ← proc_pagetable me;
      if pagetable =? 0 then kexec_bad 0 0 (Some ip) else
      l ← loop (Z.to_nat (elf_phnum elf) + 1) (kexec_load_step pagetable (elf_phnum elf) ip)
            (0, i32 (elf_phoff elf), 0);
      let '(ok, sz) := l in
      if negb ok then kexec_bad pagetable sz (Some ip) else
      lift_fs (iunlockput ip) ;;
      lift_fs fs_end_op ;;
      kexec_finish path argv elf pagetable sz
  end.
End exec.
