(* ===== verification/Sysfile.v ===== *)
(** * File system calls

    Models [kernel/sysfile.c]. A system call gives its return value, or [None]
    when the process has gone to sleep or has exited. *)

From stdpp Require Import base numbers list gmap strings.
From S2P Require Import Prelude Machine KState Bio Log Disk Raid Kalloc Evict VM Str Fs Proc File Args Exec.
Open Scope Z_scope.
Open Scope kernel_scope.

Abbreviation MAXPATH := 128.
Abbreviation O_RDONLY := 0.
Abbreviation O_WRONLY := 1.
Abbreviation O_RDWR := 2.
Abbreviation O_CREATE := 512.
Abbreviation O_TRUNC := 1024.

Section sysfile.
Context {L : Layout}.
Abbreviation K := (M (kst fsst)).
Abbreviation ret v := (mret (Some v)).

(** The descriptor and the file, or [None] for -1. *)
Definition argfd (n : Z) : K (option (Z * nat)) :=
  fd ← argint n;
  x ← mypcb;
  if (fd <? 0) || (NOFILE <=? fd) then mret None else
  match znth (p_ofile x.2) fd with
  | Some (Some f) => mret (Some (fd, Z.to_nat f))
  | _ => mret None
  end.

Definition set_ofile (me : nat) (fd : Z) (f : option Z) : K unit :=
  updp me (λ p, p <| p_ofile ::= λ l, zset l fd f |>).
Definition fdalloc (f : nat) : K Z :=
  x ← mypcb;
  let '(me, p) := x in
  r ← for_find (λ fd,
    match znth (p_ofile p) fd with
    | Some None => set_ofile me fd (Some (Z.of_nat f)) ;; mret (Some fd)
    | _ => mret None
    end) (upto NOFILE);
  mret (default (-1) r).

Definition sys_dup : K (option Z) :=
  a ← argfd 0;
  match a with
  | None => ret (-1)
  | Some (_, f) =>
      fd ← fdalloc f;
      if fd <? 0 then ret (-1) else lift_fs (filedup f) ;; ret fd
  end.

Definition sys_read : K (option Z) :=
  p ← argaddr 1; n ← argint 2; a ← argfd 0;
  match a with None => ret (-1) | Some (_, f) => fileread f p n end.

Definition sys_write : K (option Z) :=
  p ← argaddr 1; n ← argint 2; a ← argfd 0;
  match a with None => ret (-1) | Some (_, f) => filewrite f p n end.

Definition sys_close : K (option Z) :=
  a ← argfd 0;
  match a with
  | None => ret (-1)
  | Some (fd, f) => x ← mypcb; set_ofile x.1 fd None ;; fileclose f ;; ret 0
  end.

Definition sys_fstat (pad : list Z) : K (option Z) :=
  st ← argaddr 1; a ← argfd 0;
  match a with None => ret (-1) | Some (_, f) => r ← filestat pad f st; ret r end.

(** Path lookups by the running process. *)
Definition my_namei (path : list Z) : K (option nat) :=
  x ← mypcb; lift_fs (namei (Z.to_nat <$> p_cwd x.2) path).
Definition my_nameiparent (path : list Z) : K (option nat * list Z) :=
  x ← mypcb; lift_fs (nameiparent (Z.to_nat <$> p_cwd x.2) path).

Definition sys_link : K (option Z) :=
  old ← argstr 0 MAXPATH;
  if old.2 <? 0 then ret (-1) else
  new ← argstr 1 MAXPATH;
  if new.2 <? 0 then ret (-1) else
  lift_fs fs_begin_op ;;
  ip ← my_namei old.1;
  match ip with
  | None => lift_fs fs_end_op ;; ret (-1)
  | Some ip =>
      lift_fs (ilock ip) ;;
      i ← lift_fs (geti ip);
      if i_type i =? T_DIR then lift_fs (iunlockput ip) ;; lift_fs fs_end_op ;; ret (-1) else
      lift_fs (updi ip (λ i, i <| i_nlink ::= λ n, i16 (n + 1) |>)) ;;
      lift_fs (iupdate ip) ;;
      lift_fs (iunlock ip) ;;
      let bad :=
        lift_fs (ilock ip) ;;
        lift_fs (updi ip (λ i, i <| i_nlink ::= λ n, i16 (n - 1) |>)) ;;
        lift_fs (iupdate ip) ;;
        lift_fs (iunlockput ip) ;;
        lift_fs fs_end_op ;;
        ret (-1) in
      d ← my_nameiparent new.1;
      match d with
      | (None, _) => bad
      | (Some dp, name) =>
          lift_fs (ilock dp) ;;
          di ← lift_fs (geti dp); i ← lift_fs (geti ip);
          r ← (if negb (i_dev di =? i_dev i) then mret (-1) else lift_fs (dirlink dp name (i_inum i)));
          if r <? 0 then lift_fs (iunlockput dp) ;; bad else
          lift_fs (iunlockput dp) ;;
          lift_fs (iput ip) ;;
          lift_fs fs_end_op ;;
          ret 0
      end
  end.

Definition isdirempty (dp : nat) : FS bool :=
  d ← geti dp;
  r ← for_find (λ off,
    de ← read_dirent dp off "isdirempty: readi";
    mret (if negb (de_inum de =? 0) then Some tt else None)) (dirent_offs (2 * DIRENT) (i_size d));
  mret (match r with Some _ => false | None => true end).

Definition sys_unlink : K (option Z) :=
  path ← argstr 0 MAXPATH;
  if path.2 <? 0 then ret (-1) else
  lift_fs fs_begin_op ;;
  d ← my_nameiparent path.1;
  match d with
  | (None, _) => lift_fs fs_end_op ;; ret (-1)
  | (Some dp, name) =>
      lift_fs (ilock dp) ;;
      let bad := lift_fs (iunlockput dp) ;; lift_fs fs_end_op ;; ret (-1) in
      dot ← opt (namecmp name [46; 0]); dotdot ← opt (namecmp name [46; 46; 0]);
      if (dot =? 0) || (dotdot =? 0) then bad else
      e ← lift_fs (dirlookup dp name);
      match e with
      | None => bad
      | Some (ip, off) =>
          lift_fs (ilock ip) ;;
          i ← lift_fs (geti ip);
          if i_nlink i <? 1 then panic "unlink: nlink < 1" else
          empty ← (if i_type i =? T_DIR then lift_fs (isdirempty ip) else mret true);
          if negb empty then lift_fs (iunlockput ip) ;; bad else
          n ← lift_fs (writei dp (zrepl DIRENT 0) off);
          if negb (n =? DIRENT) then panic "unlink: writei" else
          when (i_type i =? T_DIR)
            (lift_fs (updi dp (λ i, i <| i_nlink ::= λ n, i16 (n - 1) |>)) ;; lift_fs (iupdate dp)) ;;
          lift_fs (iunlockput dp) ;;
          lift_fs (updi ip (λ i, i <| i_nlink ::= λ n, i16 (n - 1) |>)) ;;
          lift_fs (iupdate ip) ;;
          lift_fs (iunlockput ip) ;;
          lift_fs fs_end_op ;;
          ret 0
      end
  end.

(** The inode, locked. *)
Definition create (path : list Z) (type major minor : Z) : K (option nat) :=
  d ← my_nameiparent path;
  match d with
  | (None, _) => mret None
  | (Some dp, name) =>
      lift_fs (
        ilock dp ;;
        e ← dirlookup dp name;
        match e with
        | Some (ip, _) =>
            iunlockput dp ;;
            ilock ip ;;
            i ← geti ip;
            if (type =? T_FILE) && ((i_type i =? T_FILE) || (i_type i =? T_DEVICE)) then mret (Some ip)
            else iunlockput ip ;; mret None
        | None =>
            di ← geti dp;
            n ← ialloc (i_dev di) type;
            match n with
            | None => iunlockput dp ;; mret None
            | Some ip =>
                ilock ip ;;
                updi ip (λ i, i <| i_major := i16 major |> <| i_minor := i16 minor |> <| i_nlink := 1 |>) ;;
                iupdate ip ;;
                i ← geti ip;
                let fail :=
                  updi ip (λ i, i <| i_nlink := 0 |>) ;;
                  iupdate ip ;; iunlockput ip ;; iunlockput dp ;; mret None in
                dots ← (if type =? T_DIR then
                          r ← dirlink ip [46; 0] (i_inum i);
                          if r <? 0 then mret false else
                          r ← dirlink ip [46; 46; 0] (i_inum di);
                          mret (negb (r <? 0))
                        else mret true);
                if negb dots then fail else
                r ← dirlink dp name (i_inum i);
                if r <? 0 then fail else
                when (type =? T_DIR) (updi dp (λ i, i <| i_nlink ::= λ n, i16 (n + 1) |>) ;; iupdate dp) ;;
                iunlockput dp ;;
                mret (Some ip)
            end
        end)
  end.

(** The second half of [sys_open], with the inode locked. *)
Definition open_inode (ip : nat) (omode : Z) : K (option Z) :=
  i ← lift_fs (geti ip);
  let bad := lift_fs (iunlockput ip) ;; lift_fs fs_end_op ;; ret (-1) in
  if (i_type i =? T_DEVICE) && ((i_major i <? 0) || (NDEV <=? i_major i)) then bad else
  f ← lift_fs filealloc;
  match f with
  | None => bad
  | Some f =>
      fd ← fdalloc f;
      if fd <? 0 then fileclose f ;; bad else
      lift_fs (updfile f (λ x,
        (if i_type i =? T_DEVICE then x <| fl_type := FD_DEVICE |> <| fl_major := i_major i |>
         else x <| fl_type := FD_INODE |> <| fl_off := 0 |>)
        <| fl_ip := Some ip |> <| fl_readable := negb (has omode O_WRONLY) |>
        <| fl_writable := has omode O_WRONLY || has omode O_RDWR |>)) ;;
      when (has omode O_TRUNC && (i_type i =? T_FILE)) (lift_fs (itrunc ip)) ;;
      lift_fs (iunlock ip) ;;
      lift_fs fs_end_op ;;
      ret fd
  end.
Definition sys_open : K (option Z) :=
  omode ← argint 1;
  path ← argstr 0 MAXPATH;
  if path.2 <? 0 then ret (-1) else
  lift_fs fs_begin_op ;;
  if has omode O_CREATE then
    ip ← create path.1 T_FILE 0 0;
    match ip with
    | None => lift_fs fs_end_op ;; ret (-1)
    | Some ip => open_inode ip omode
    end
  else
    ip ← my_namei path.1;
    match ip with
    | None => lift_fs fs_end_op ;; ret (-1)
    | Some ip =>
        lift_fs (ilock ip) ;;
        i ← lift_fs (geti ip);
        if (i_type i =? T_DIR) && negb (omode =? O_RDONLY)
        then lift_fs (iunlockput ip) ;; lift_fs fs_end_op ;; ret (-1)
        else open_inode ip omode
    end.

(** [sys_mkdir] and [sys_mknod] after the creation. *)
Definition put_created (ip : option nat) : K (option Z) :=
  match ip with
  | None => lift_fs fs_end_op ;; ret (-1)
  | Some ip => lift_fs (iunlockput ip) ;; lift_fs fs_end_op ;; ret 0
  end.
Definition sys_mkdir : K (option Z) :=
  lift_fs fs_begin_op ;;
  path ← argstr 0 MAXPATH;
  ip ← (if path.2 <? 0 then mret None else create path.1 T_DIR 0 0);
  put_created ip.
Definition sys_mknod : K (option Z) :=
  lift_fs fs_begin_op ;;
  major ← argint 1; minor ← argint 2;
  path ← argstr 0 MAXPATH;
  ip ← (if path.2 <? 0 then mret None else create path.1 T_DEVICE (i16 major) (i16 minor));
  put_created ip.

Definition sys_chdir : K (option Z) :=
  lift_fs fs_begin_op ;;
  path ← argstr 0 MAXPATH;
  ip ← (if path.2 <? 0 then mret None else my_namei path.1);
  match ip with
  | None => lift_fs fs_end_op ;; ret (-1)
  | Some ip =>
      lift_fs (ilock ip) ;;
      i ← lift_fs (geti ip);
      if negb (i_type i =? T_DIR) then lift_fs (iunlockput ip) ;; lift_fs fs_end_op ;; ret (-1) else
      lift_fs (iunlock ip) ;;
      x ← mypcb;
      cwd ← opt (p_cwd x.2);
      lift_fs (iput (Z.to_nat cwd)) ;;
      lift_fs fs_end_op ;;
      updp x.1 (λ p, p <| p_cwd := Some (Z.of_nat ip) |>) ;;
      ret 0
  end.

(** The argument vector: the pages that hold the strings, and whether it is
    complete. *)
Definition fetch_arg (uargv : Z) (argv : list Z) : K (list Z + (list Z * bool)) :=
  let i := zlen argv in
  if MAXARG <=? i then mret (inr (argv, false)) else
  a ← fetchaddr (u64 (uargv + 8 * i));
  if a.2 <? 0 then mret (inr (argv, false)) else
  if a.1 =? 0 then mret (inr (argv, true)) else
  page ← kalloc;
  if page =? 0 then mret (inr (argv, false)) else
  s ← fetchstr a.1 PGSIZE;
  write_bytes page s.1 ;;
  if s.2 <? 0 then mret (inr (argv ++ [page], false)) else mret (inl (argv ++ [page])).
Definition sys_exec : K (option Z) :=
  uargv ← argaddr 1;
  path ← argstr 0 MAXPATH;
  if path.2 <? 0 then ret (-1) else
  r ← loop (Z.to_nat MAXARG + 1) (fetch_arg uargv) [];
  let '(argv, ok) := r in
  if negb ok then for_each kfree argv ;; ret (-1) else
  v ← kexec path.1 argv;
  for_each kfree argv ;;
  ret v.

Definition sys_pipe : K (option Z) :=
  fdarray ← argaddr 0;
  r ← pipealloc;
  match r with
  | None => ret (-1)
  | Some (rf, wf) =>
      x ← mypcb;
      let '(me, p) := x in
      let close := fileclose rf ;; fileclose wf ;; ret (-1) in
      fd0 ← fdalloc rf;
      if fd0 <? 0 then close else
      fd1 ← fdalloc wf;
      if fd1 <? 0 then set_ofile me fd0 None ;; close else
      c ← copyout (p_pagetable p) fdarray (le_of 4 fd0);
      bad ← (if c <? 0 then mret true else
             c ← copyout (p_pagetable p) (u64 (fdarray + 4)) (le_of 4 fd1); mret (c <? 0));
      if (bad : bool) then set_ofile me fd0 None ;; set_ofile me fd1 None ;; close else ret 0
  end.
End sysfile.
