(* ===== verification/Sysproc.v ===== *)
(** * Process system calls and the system call table

    Models [kernel/sysproc.c] and the dispatch of [kernel/syscall.c]. A system
    call gives its return value, or [None] when the process has gone to sleep or
    has exited. *)

From stdpp Require Import base numbers list gmap strings.
From S2P Require Import Prelude Machine KState Bio Log Disk Raid Kalloc Evict VM Str Fs Proc File Args Exec Sysfile.
Open Scope Z_scope.
Open Scope kernel_scope.

Abbreviation SBRK_EAGER := 1.

(** [struct mlfqinfo] and [struct vmstats], as [copyout] sends them. *)
Definition mlfqinfo_bytes (p : proc) : list Z :=
  le_of 4 (p_cur_q_level p) ++ mjoin (le_of 4 <$> take 4 (p_ticks_per_level p)) ++
  le_of 4 (p_num_times_sched p) ++ le_of 4 (p_total_syscalls p).
Definition vmstats_bytes (p : proc) : list Z :=
  mjoin (le_of 4 <$> [p_page_faults p; p_pages_evicted p; p_pages_swapped_in p; p_pages_swapped_out p;
                      p_resident_pages p; p_disk_reads p; p_disk_writes p; p_avg_disk_latency p]).

Section sysproc.
Context {D : Type} `{!BlockStore D, !FileOps D} {L : Layout}.
Abbreviation K := (M (kst D)).
Abbreviation ret v := (mret (Some v)).

Definition sys_exit : K (option Z) := n ← argint 0; kexit n ;; mret None.
Definition sys_getpid : K (option Z) := x ← mypcb; ret (p_pid x.2).
Definition sys_fork : K (option Z) := r ← kfork; ret r.
Definition sys_wait : K (option Z) := p ← argaddr 0; kwait p.

Definition sys_sbrk : K (option Z) :=
  n ← argint 0; t ← argint 1;
  x ← mypcb;
  let '(me, p) := x in
  let addr := p_sz p in
  if (t =? SBRK_EAGER) || (n <? 0) then
    r ← growproc n;
    ret (if r <? 0 then -1 else addr)
  else
    if u64 (addr + n) <? addr then ret (-1) else
    if TRAPFRAME <? u64 (addr + n) then ret (-1) else
    updp me (λ p, p <| p_sz ::= λ z, u64 (z + n) |>) ;;
    ret addr.

(** The loop of [sys_pause], [tickslock] held. *)
Definition pause_from (ticks0 n : Z) : K (option Z) :=
  t ← gets ticks;
  if u32 (t - ticks0) <? n then
    x ← mypcb;
    k ← killed x.1;
    if negb (k =? 0) then release LTicks ;; ret (-1)
    else sleep_off ChTicks LTicks ;; mret None
  else release LTicks ;; ret 0.
Definition sys_pause : K (option Z) :=
  n ← argint 0;
  let n := if n <? 0 then 0 else n in
  acquire LTicks ;;
  ticks0 ← gets ticks;
  pause_from ticks0 n.
Definition pause_resume (ticks0 n : Z) : K (option Z) := sleep_on LTicks ;; pause_from ticks0 n.

Definition sys_kill : K (option Z) := pid ← argint 0; r ← kkill pid; ret r.
Definition sys_uptime : K (option Z) := acquire LTicks ;; t ← gets ticks; release LTicks ;; ret t.
Definition sys_hello : K (option Z) := ret 0.
Definition sys_getpid2 : K (option Z) := x ← mypcb; ret (p_pid x.2).

Definition sys_getppid : K (option Z) :=
  x ← mypcb;
  acquire LWait ;;
  pid ← (match p_parent x.2 with
         | None => mret (-1)
         | Some j => q ← getp j; mret (p_pid q)
         end);
  release LWait ;;
  ret pid.

Fixpoint count_children (me : nat) (l : list nat) (total : Z) : K Z :=
  match l with
  | [] => mret total
  | i :: l =>
      acquire (LProc i) ;;
      p ← getp i;
      release (LProc i) ;;
      count_children me l
        (if bool_decide (p_parent p = Some me) && bool_decide (p_state p ≠ ZOMBIE ∧ p_state p ≠ UNUSED)
         then i32 (total + 1) else total)
  end.
Definition sys_getnumchild : K (option Z) :=
  x ← mypcb;
  acquire LWait ;;
  total ← count_children x.1 proc_ids 0;
  release LWait ;;
  ret total.

Definition sys_getsyscount : K (option Z) := x ← mypcb; ret (p_total_syscalls x.2).

Definition sys_getchildsyscount : K (option Z) :=
  pid ← argint 0;
  acquire LWait ;;
  r ← for_find (λ i,
    acquire (LProc i) ;;
    p ← getp i;
    x ← mypcb;
    if (p_pid p =? pid) && bool_decide (p_parent p = Some x.1) then
      release (LProc i) ;; release LWait ;; mret (Some (p_total_syscalls p))
    else release (LProc i) ;; mret None) proc_ids;
  match r with Some v => ret v | None => release LWait ;; ret (-1) end.

Definition sys_getlevel : K (option Z) := x ← mypcb; ret (p_cur_q_level x.2).

(** The process with the given pid, as it is under its lock. *)
Definition find_pid (pid : Z) : K (option proc) :=
  for_find (λ i,
    acquire (LProc i) ;;
    p ← getp i;
    release (LProc i) ;;
    mret (if (p_pid p =? pid) && bool_decide (p_state p ≠ UNUSED) then Some p else None)) proc_ids.
Definition send_info (f : proc → list Z) : K (option Z) :=
  pid ← argint 0; info_addr ← argaddr 1;
  r ← find_pid pid;
  match r with
  | None => ret (-1)
  | Some p =>
      x ← mypcb;
      c ← copyout (p_pagetable x.2) info_addr (f p);
      ret (if c <? 0 then -1 else 0)
  end.
Definition sys_getmlfqinfo : K (option Z) := send_info mlfqinfo_bytes.
Definition sys_getvmstats : K (option Z) := send_info vmstats_bytes.

Definition sys_setraidmode : K (option Z) :=
  mode ← argint 0;
  if (mode <? 0) || (2 <? mode) then ret (-1) else set_raid_mode mode ;; ret 0.
Definition sys_setdisksched : K (option Z) := policy ← argint 0; r ← setdisksched policy; ret r.
Definition sys_setfaileddisk : K (option Z) := disk ← argint 0; r ← set_failed_disk disk; ret r.
End sysproc.

(** ** The table *)

Section syscalls.
Context {L : Layout}.
Abbreviation K := (M (kst fsst)).

(** [syscalls[]]; [pad] is what the stack of [sys_fstat] holds. *)
Definition syscalls (pad : list Z) : list (K (option Z)) :=
  [sys_fork; sys_exit; sys_wait; sys_pipe; sys_read; sys_kill; sys_exec; sys_fstat pad; sys_chdir;
   sys_dup; sys_getpid; sys_sbrk; sys_pause; sys_uptime; sys_open; sys_write; sys_mknod; sys_unlink;
   sys_link; sys_mkdir; sys_close; sys_hello; sys_getppid; sys_getnumchild; sys_getpid2;
   sys_getsyscount; sys_getchildsyscount; sys_getlevel; sys_getmlfqinfo; sys_getvmstats;
   sys_setdisksched; sys_setraidmode; sys_setfaileddisk].

(** [syscall()]: whether the call returned to the process. *)
Definition syscall (pad : list Z) : K bool :=
  x ← mypcb;
  let '(me, p) := x in
  a7 ← load64 (p_trapframe p + TF_a7);
  let num := i32 a7 in
  match (if 0 <? num then znth (syscalls pad) (num - 1) else None) with
  | Some call =>
      updp me (λ p, p <| p_total_syscalls ::= λ n, i32 (n + 1) |>) ;;
      r ← call;
      match r with
      | None => mret false
      | Some v => x ← mypcb; store64 (p_trapframe x.2 + TF_a0) (u64 v) ;; mret true
      end
  | None => store64 (p_trapframe p + TF_a0) (u64 (-1)) ;; mret true
  end.
End syscalls.
