(* ===== verification/Trap.v ===== *)
(** * Traps and interrupts

    Models [kernel/trap.c] and [forkret] of [kernel/proc.c]: system calls, page
    faults (swapping a page back in, or allocating it), timer and device
    interrupts, and the return to user space. The control and status registers
    the code reads are the record [csr]; what it writes into them on the way out
    is the record [user_regs]. The interrupt controller's claim and completion and
    the devices' handlers are the record [dev_ops], an argument. *)

From stdpp Require Import base numbers list gmap strings.
From S2P Require Import Prelude Machine KState Bio Log Disk Raid Kalloc Evict VM Str Fs Proc File Args Exec Sysfile Sysproc.
Open Scope Z_scope.
Open Scope kernel_scope.

Abbreviation SSTATUS_SPP := 256.
Abbreviation SSTATUS_SPIE := 32.
Abbreviation SATP_SV39 := 9223372036854775808.   (* 8L << 60 *)
Abbreviation IRQ_EXTERNAL := 9223372036854775817.   (* 0x8000000000000009 *)
Abbreviation IRQ_TIMER := 9223372036854775813.      (* 0x8000000000000005 *)
Abbreviation UART0_IRQ := 10.
Abbreviation VIRTIO0_IRQ := 1.

Definition MAKE_SATP (pagetable : Z) : Z := Z.lor SATP_SV39 (Z.shiftr pagetable 12).

(** The registers, the characters waiting in the UART, and whether interrupts are
    enabled. *)
Record csr := MkCsr {
  r_sstatus : Z;
  r_sepc : Z;
  r_scause : Z;
  r_stval : Z;
  r_satp : Z;
  r_tp : Z;
  intr_get : bool;
  uart_rx : list Z;
}.
Record user_regs := MkUregs { w_stvec : Z; w_sstatus : Z; w_sepc : Z }.

(** Addresses the linker gives [uservec] and [usertrap], from [trampoline] on. *)
Record trap_layout := MkTl { tl_uservec : Z; tl_usertrap : Z }.

Section trap.
Context {D : Type} `{!BlockStore D, !FileOps D} {L : Layout} (TL : trap_layout).
Abbreviation K := (M (kst D)).

(** ** Interrupts *)

(** [cpuid()] is the register [tp]. *)
Definition clockintr (r : csr) : K unit :=
  boost ← (if r_tp r =? 0 then
             acquire LTicks ;;
             updf ticks (λ t, u32 (t + 1)) ;;
             t ← gets ticks;
             let boost := t mod 128 =? 0 in
             wakeup ChTicks ;;
             release LTicks ;;
             mret boost
           else mret false);
  when (boost : bool) global_boost.

(** What [devintr] calls: the PLIC's claim register, read and written by the CPU
    [hart], what [uartintr] does with the characters that came in, and
    [virtio_disk_intr], which works on the state of the disk driver ([Virtio]). *)
Record dev_ops := MkDev {
  plic_claim : Z → K Z;
  plic_complete : Z → Z → K unit;
  dv_uartintr : list Z → K unit;
  dv_virtio_disk_intr : K unit;
}.

(** The message about an unexpected interrupt is not modelled. *)
Definition devintr (dev : dev_ops) (r : csr) : K Z :=
  if r_scause r =? IRQ_EXTERNAL then
    irq ← plic_claim dev (r_tp r);
    (if irq =? UART0_IRQ then dv_uartintr dev (uart_rx r)
     else when (irq =? VIRTIO0_IRQ) (dv_virtio_disk_intr dev)) ;;
    when (negb (irq =? 0)) (plic_complete dev (r_tp r) irq) ;;
    mret 1
  else if r_scause r =? IRQ_TIMER then clockintr r ;; mret 2
  else mret 0.

(** An interrupt that was claimed is completed, after its handler and only then. *)
Lemma devintr_completes dev r irq s s1 s2 s3 : r_scause r = IRQ_EXTERNAL → plic_claim dev (r_tp r) s = Ok (irq, s1) →
  (if irq =? UART0_IRQ then dv_uartintr dev (uart_rx r) else when (irq =? VIRTIO0_IRQ) (dv_virtio_disk_intr dev)) s1 = Ok (tt, s2) →
  irq ≠ 0 → plic_complete dev (r_tp r) irq s2 = Ok (tt, s3) → devintr dev r s = Ok (1, s3).
Proof.
  intros Hr Hc Hh Hne Hd. unfold devintr. rewrite Hr. change (IRQ_EXTERNAL =? IRQ_EXTERNAL) with true. cbv iota.
  rewrite (bind_step _ _ _ _ _ Hc), (bind_step _ _ _ _ _ Hh), (proj2 (Z.eqb_neq _ _) Hne). cbn [negb when].
  by rewrite (bind_step _ _ _ _ _ Hd).
Qed.

(** [kerneltrap], up to a [yield] that it ends in ([true]) or to its return. *)
Definition kerneltrap (dev : dev_ops) (r : csr) : K bool :=
  if negb (has (r_sstatus r) SSTATUS_SPP) then panic "kerneltrap: not from supervisor mode" else
  if intr_get r then panic "kerneltrap: interrupts enabled" else
  which_dev ← devintr dev r;
  if which_dev =? 0 then panic "kerneltrap" else
  me ← myproc;
  match me with
  | Some i => if which_dev =? 2 then mlfq_tick i ;; yield_off ;; mret true else mret false
  | None => mret false
  end.

(** ** Page faults *)

(** The entry of a swapped page once it is back in the page [mem]. *)
Definition swapped_in_pte (mem e : Z) : Z := setb (setb (PA2PTE mem) (clear (PTE_FLAGS e) PTE_SWAPPED)) PTE_V.

(** A fault at [stval] in process [i]. *)
Definition page_fault (i : nat) (stval : Z) : K unit :=
  updp i (λ p, p <| p_page_faults ::= λ n, i32 (n + 1) |>) ;;
  p ← getp i;
  let fault_va := PGROUNDDOWN stval in
  pte ← walk kalloc (p_pagetable p) fault_va false;
  swapped ← (if pte =? 0 then mret false else e ← load64 pte; mret (has e PTE_SWAPPED));
  if (swapped : bool) then
    mem ← kalloc;
    if mem =? 0 then setkilled i else
    e ← load64 pte;
    swap_in mem (i32 (Z.shiftr e 10)) ;;
    e ← load64 pte;
    store64 pte (swapped_in_pte mem e) ;;
    track_frame (Some i) fault_va mem
  else
    m ← vmfault (p_pagetable p) stval;
    if negb (m =? 0) then mret tt else setkilled i.

(** ** To and from user space *)

Definition prepare_return (r : csr) : K user_regs :=
  x ← mypcb;
  let p := x.2 in
  store64 (p_trapframe p + TF_kernel_satp) (r_satp r) ;;
  store64 (p_trapframe p + TF_kernel_sp) (u64 (p_kstack p + PGSIZE)) ;;
  store64 (p_trapframe p + TF_kernel_trap) (tl_usertrap TL) ;;
  store64 (p_trapframe p + TF_kernel_hartid) (r_tp r) ;;
  epc ← load64 (p_trapframe p + TF_epc);
  mret (MkUregs (TRAMPOLINE + tl_uservec TL) (setb (clear (r_sstatus r) SSTATUS_SPP) SSTATUS_SPIE) epc).

(** How [usertrap] ends: back in user space with a page table, in [yield], or
    with the process gone (exited, or asleep in a system call). *)
Inductive trap_end := TrapReturn (u : user_regs) (satp : Z) | TrapYield | TrapGone.

Definition trap_return (r : csr) : K trap_end :=
  u ← prepare_return r; x ← mypcb; mret (TrapReturn u (MAKE_SATP (p_pagetable x.2))).

(** The end of [usertrap], from [if(killed(p))] on. *)
Definition usertrap_end (i : nat) (r : csr) (which_dev : Z) : K trap_end :=
  k ← killed i;
  if negb (k =? 0) then kexit (-1) ;; mret TrapGone else
  if which_dev =? 2 then mlfq_tick i ;; yield_off ;; mret TrapYield else trap_return r.
(** After the [yield]. *)
Definition usertrap_resume (r : csr) : K trap_end := yield_on ;; trap_return r.

Definition usertrap (syscall : K bool) (dev : dev_ops) (r : csr) : K trap_end :=
  if has (r_sstatus r) SSTATUS_SPP then panic "usertrap: not from user mode" else
  x ← mypcb;
  let '(i, p) := x in
  store64 (p_trapframe p + TF_epc) (r_sepc r) ;;
  if r_scause r =? 8 then
    k ← killed i;
    if negb (k =? 0) then kexit (-1) ;; mret TrapGone else
    epc ← load64 (p_trapframe p + TF_epc);
    store64 (p_trapframe p + TF_epc) (u64 (epc + 4)) ;;
    done ← syscall;
    if (done : bool) then usertrap_end i r 0 else mret TrapGone
  else
    which_dev ← devintr dev r;
    if negb (which_dev =? 0) then usertrap_end i r which_dev else
    (if (r_scause r =? 15) || (r_scause r =? 13) || (r_scause r =? 12) then page_fault i (r_stval r)
     else setkilled i) ;;
    usertrap_end i r 0.
End trap.

(** ** The whole kernel *)

Section kernel.
Context {L : Layout} (TL : trap_layout).
Abbreviation K := (M (kst fsst)).

(** [uartintr]: the console takes each character. *)
Definition uartintr (chars : list Z) : K unit := for_each consoleintr chars.

(** The PLIC, and the driver's handler, come from outside. *)
Definition xv6_devices (claim : Z → K Z) (complete : Z → Z → K unit) (disk_intr : K unit) : dev_ops :=
  MkDev claim complete uartintr disk_intr.

Section devices.
Context (claim : Z → K Z) (complete : Z → Z → K unit) (disk_intr : K unit).
Definition xv6_usertrap (pad : list Z) (r : csr) : K trap_end :=
  usertrap TL (syscall pad) (xv6_devices claim complete disk_intr) r.
Definition xv6_kerneltrap (r : csr) : K bool := kerneltrap (xv6_devices claim complete disk_intr) r.
End devices.

(** [forkret]: [first] is its static variable; [init] is the address of the
    string ["/init"]. *)
Definition forkret_body (first : bool) (init : Z) (r : csr) : K trap_end :=
  x ← mypcb;
  release (LProc x.1) ;;
  when first
    (lift_fs (fsinit ROOTDEV) ;;
     argc ← kexec [47; 105; 110; 105; 116; 0] [init];
     x ← mypcb;
     store64 (p_trapframe x.2 + TF_a0) (u64 argc) ;;
     if argc =? -1 then panic "exec" else mret tt) ;;
  trap_return TL r.
End kernel.
