(* ===== verification/Swap.v ===== *)
(** * Demand paging, end to end

    The allocator, the clock, the swap area and the page fault handler together:
    an allocation that finds no free page takes the page of a second-chance
    victim and leaves its contents in a swap slot, and a fault on a page that is
    in a swap slot gives the process its page back, with the permissions it had. *)

From stdpp Require Import base numbers list gmap strings.
From S2P Require Import Prelude Machine KState Bio Disk Raid RaidProps Kalloc Evict VM Str Fs Proc File Args Exec Sysfile Sysproc Trap.
Open Scope Z_scope.
Open Scope kernel_scope.

Section swapping.
Context {D : Type} `{!BlockStore D, !BlockStoreLaws D} {L : Layout}.
Implicit Types s : kst D.

(** The page at [va] of process [i] is in a swap slot: its leaf entry, at
    [pte], is the swapped form of the entry [e], and the slot holds page [p]. *)
Record swapped_out s (i : nat) (va pte e slot : Z) (p : list Z) : Prop := {
  so_proc : ∃ q, procs s !! i = Some q ∧ pwalk (mem s) (p_pagetable q) va = Some pte;
  so_pte : pte ≠ 0;
  so_entry : mload64 (mem s) pte = Some (swap_pte slot e);
  so_slot : slot_ok slot;
  so_used : znth (swap_space s) slot = Some true;
  so_holds : ∃ mode, slot_holds s mode slot p;
}.


Lemma no_counters_pagetable p q : no_counters p = no_counters q → p_pagetable p = p_pagetable q.
Proof. by intros [=]. Qed.


(** ** Coming back *)

(** The entry a fault installs: the page, the flags the page had, valid. *)
Lemma swapped_in_pte_val pa slot e : 0 ≤ pa < 2 ^ 56 → pa mod PGSIZE = 0 →
  let e' := swapped_in_pte pa (swap_pte slot e) in
  PTE2PA e' = pa ∧ PTE_FLAGS e' = clear (setb (PTE_FLAGS e) PTE_V) PTE_SWAPPED ∧ 0 ≤ e' < 2 ^ 64.
Proof.
  intros Hpa Hal e'. assert (e' = Z.lor (PA2PTE pa) (clear (setb (PTE_FLAGS e) PTE_V) PTE_SWAPPED)) as ->.
  { unfold e', swapped_in_pte. rewrite swap_pte_val, pte_flags by apply swapped_flags_bound.
    unfold setb at 1 2. rewrite <-Z.lor_assoc. f_equal.
    pose proof (PTE_FLAGS_bound e) as Hb. revert Hb. generalize (PTE_FLAGS e). intros f Hf.
    apply Z.eqb_eq. revert f Hf. apply flags_all. vm_compute. reflexivity. }
  assert (0 ≤ clear (setb (PTE_FLAGS e) PTE_V) PTE_SWAPPED < 1024) as Hf.
  { apply (clear_bound _ _ 10); [lia|]. apply (setb_bound _ _ 10); [lia|apply PTE_FLAGS_bound|lia]. }
  split_and!; [by apply PTE2PA_make|by apply pte_flags|..]; apply pte_bound;
    rewrite ?Z.shiftr_div_pow2 by lia; try lia; change (2 ^ 12) with PGSIZE; dlia.
Qed.

Lemma track_frame_ok s i q va pa : alloc_page pa → zlen (frames s) = NFRAME → held s = ∅ → procs s !! i = Some q →
  ∃ s' r, track_frame (Some i) va pa s = Ok (tt, s') ∧
    s' = s <| procs := <[i := q <| p_resident_pages := r |>]> (procs s) |> <| frames := frames s' |> ∧
    zlen (frames s') = NFRAME ∧
    (frame_index pa < NFRAME → znth (frames s') (frame_index pa) = Some (MkFrame true (Some i) true va)).
Proof.
  intros Hpa Hl Hh Hq. destruct (frame_index_val pa Hpa) as (Hfi & Hfr & _). destruct (Hpa) as (_ & Hr1 & Hr2).
  unfold track_frame. destruct (Z.ltb_spec pa KERNBASE), (Z.leb_spec PHYSTOP pa); try lia. cbn [orb]. cbv iota.
  change (Z.shiftr (u64 (pa - KERNBASE)) 12) with (frame_index pa). rewrite wrap_id by lia.
  assert (∀ r, s <| procs := <[i := q <| p_resident_pages := r |>]> (procs s) |> <| frames := frames s |> =
    s <| procs := <[i := q <| p_resident_pages := r |>]> (procs s) |>) as Hid by done.
  destruct (Z.leb_spec NFRAME (frame_index pa)).
  { exists s, (p_resident_pages q). split_and!; [done| |done|lia]. kst_eq. symmetry. apply list_insert_id.
    rewrite Hq. by destruct q. }
  destruct (znth_lt (frames s) (frame_index pa)) as [f Ef]; [lia|].
  set (r := if f_in_use f then p_resident_pages q else i32 (p_resident_pages q + 1)).
  exists (s <| procs := <[i := q <| p_resident_pages := r |>]> (procs s) |>
            <| frames := zset (frames s) (frame_index pa) (MkFrame true (Some i) true va) |>), r.
  split_and!; [|done|simpl; by rewrite zlen_zset|intros _; simpl; by rewrite znth_zset_eq by lia].
  cbn [orb]. mstep acquire_ok; [|rewrite Hh; set_solver]. mget (frames s).
  erewrite bind_step by (apply opt_ok; exact Ef).
  erewrite (bind_step _ _ _ tt (s <| held := {[LFrametable]} ∪ held s |> <| procs := <[i := q <| p_resident_pages := r |>]> (procs s) |>)).
  2: { unfold r. destruct (f_in_use f); simpl.
       - apply Ok_pair. kst_eq. symmetry. apply list_insert_id. rewrite Hq. by destruct q.
       - by rewrite (updp_ok _ _ _ q). }
  erewrite bind_step by reflexivity. rewrite release_ok by (simpl; set_solver).
  apply Ok_pair. kst_eq. simpl. by rewrite held_restore by (rewrite Hh; set_solver).
Qed.

(** C12. A fault on a swapped page gives it back: when process [i] touches an
    address of a page that is in a swap slot, and a page is free, the handler
    returns with the free page holding exactly what was swapped out, the entry
    valid again, pointing to it with the flags the page had, reachable by the
    same walk; the slot is free, the frame is recorded as the process's, and no
    other page of memory but the page table's has changed. *)
Theorem page_fault_swaps_in s i stval pte e slot p pa l :
  swap_inv s → cur_ok s → kmem_inv s (pa :: l) →
  swapped_out s i (PGROUNDDOWN stval) pte e slot p → PGROUNDDOWN stval < MAXVA → pg pte ∉ pa :: l →
  (∀ q a, procs s !! i = Some q → a ∈ walk_words (mem s) (p_pagetable q) (PGROUNDDOWN stval) → pg a ≠ pa ∧ a ≠ pte) →
  ∃ s' q e', page_fault i stval s = Ok (tt, s') ∧
    mem s' !! pa = Some p ∧
    procs s' !! i = Some q ∧ pwalk (mem s') (p_pagetable q) (PGROUNDDOWN stval) = Some pte ∧
    mload64 (mem s') pte = Some e' ∧ PTE2PA e' = pa ∧
    PTE_FLAGS e' = clear (setb (PTE_FLAGS e) PTE_V) PTE_SWAPPED ∧
    swap_space s' = zset (swap_space s) slot false ∧ kmem_inv s' l ∧ swap_inv s' ∧
    (frame_index pa < NFRAME → znth (frames s') (frame_index pa) = Some (MkFrame true (Some i) true (PGROUNDDOWN stval))) ∧
    (∀ a, a ≠ pa → a ≠ pg pte → mem s' !! a = mem s !! a).
Proof.
  intros Hinv Hc Hk [(q & Hq & Hw) Hpte He Hslot _ [mode Hho]] Hva Hnin Hap.
  apply not_elem_of_cons in Hnin as [Hne Hnl].
  pose proof (dr_held _ (di_ready _ (si_idle _ Hinv))) as Hh. pose proof (km_wf _ _ Hk) as Hwf.
  assert (alloc_page pa) as Hpa by (pose proof (km_pages _ _ Hk) as [? _]%Forall_cons; done).
  destruct (Hpa) as (Hal & Hr1 & Hr2). pose proof (km_chain _ _ Hk) as (_ & Hp0 & _)%chain_cons_inv.
  set (va := PGROUNDDOWN stval) in *. unfold page_fault. fold va.
  set (q0 := q <| p_page_faults ::= λ n, i32 (n + 1) |>). set (s0 := s <| procs := <[i := q0]> (procs s) |>).
  assert (procs s0 !! i = Some q0) as Hq0 by (apply list_lookup_insert_eq; by eapply lookup_lt_Some).
  erewrite bind_step by (by apply updp_ok). fold q0 s0. erewrite bind_step by (by apply getp_ok).
  erewrite bind_step by (by apply walk_pure). destruct (Z.eqb_spec pte 0); [done|].
  erewrite (bind_step _ _ _ true s0).
  2: { erewrite bind_step by (by apply load64_ok). unfold mret, M_ret. by rewrite (proj2 (swap_pte_has slot e)). }
  cbv iota. assert (kmem_inv s0 (pa :: l)) as Hk0 by (destruct Hk; by split).
  erewrite bind_step by (apply kalloc_ok; [exact Hk0|simpl; rewrite Hh; set_solver]).
  destruct (Z.eqb_spec pa 0); [done|]. set (s1 := allocated s0 pa l).
  pose proof (allocated_inv _ _ _ Hk0) as Hk1. fold s1 in Hk1.
  assert (mload64 (mem s1) pte = Some (swap_pte slot e)) as He1.
  { rewrite <-He. apply mload64_page. simpl. rewrite lookup_insert_ne by congruence. reflexivity. }
  erewrite bind_step by (by apply load64_ok). rewrite swap_pte_slot.
  assert (i32 slot = slot) as -> by (unfold slot_ok in Hslot; apply i32_id; lia).
  assert (swap_inv s1) as Hinv1.
  { eapply swap_inv_ext; [exact Hinv|apply Hk1|simpl; by rewrite length_insert|done..]. }
  assert (cur_ok s1) as Hc1.
  { intros c Hcc. destruct (Hc c Hcc) as (qc & Hqc & Hl). simpl. destruct (decide (i = c)) as [<-|].
    - exists q0. split; [done|]. rewrite Hq in Hqc. injection Hqc as <-. done.
    - exists qc. by rewrite list_lookup_insert_ne. }
  destruct (swap_in_ok s1 pa slot p (zrepl PGSIZE 5) mode) as (s2 & E2 & Hinv2 & Hef2 & Hm2 & Hfl2 & Hfr2 & _ & Hsp2);
    [done..|by eapply slot_holds_ext|apply lookup_insert_eq|].
  rewrite (bind_step _ _ _ _ _ E2).
  assert (mload64 (mem s2) pte = Some (swap_pte slot e)) as He2.
  { rewrite <-He1, Hm2. apply mload64_page. by rewrite lookup_insert_ne. }
  erewrite bind_step by (by apply load64_ok).
  destruct (swapped_in_pte_val pa slot e) as (V1 & V2 & V3); [lia|done|].
  set (e' := swapped_in_pte pa (swap_pte slot e)) in *.
  destruct (mstore64_ok _ _ _ e' He2) as [m3 Em3]. erewrite bind_step by (by apply store64_ok).
  pose proof (di_wf _ (si_idle _ Hinv2)) as Hwf2.
  assert (∃ q2, procs s2 !! i = Some q2 ∧ p_pagetable q2 = p_pagetable q) as (q2 & Hq2 & Eq2).
  { destruct (no_stats_lookup _ _ _ _ (ef_procs _ _ Hef2) Hq0) as (q2 & Hq2 & Eq). exists q2. split; [done|].
    by apply no_counters_pagetable in Eq. }
  destruct (track_frame_ok (s2 <| mem := m3 |>) i q2 va pa) as (s4 & r & E4 & Es4 & Hl4 & Hfr4);
    [done|simpl; rewrite Hfr2; apply Hk1|apply Hinv2|done|].
  assert (mem s4 = m3) as Hm4 by (rewrite Es4; done).
  assert (m3 !! pa = Some p) as Hp3.
  { erewrite mstore64_other_page; [|exact Em3|congruence]. rewrite Hm2. apply lookup_insert_eq. }
  assert (∀ a, a ≠ pa → a ≠ pg pte → m3 !! a = mem s !! a) as Hoth.
  { intros a H1 H2. erewrite mstore64_other_page; [|exact Em3|done]. rewrite Hm2, lookup_insert_ne by done.
    simpl. by rewrite lookup_insert_ne. }
  exists s4, (q2 <| p_resident_pages := r |>), e'. split_and!; try done.
  - by rewrite Hm4.
  - rewrite Es4. simpl. apply list_lookup_insert_eq. by eapply lookup_lt_Some.
  - rewrite Hm4. change (p_pagetable (q2 <| p_resident_pages := r |>)) with (p_pagetable q2). rewrite Eq2, <-Hw.
    apply pwalk_same. intros a Ha. destruct (Hap q a Hq Ha) as [H1 H2].
    erewrite mload64_store_ne; [|exact Hwf2|exact Em3|done]. rewrite Hm2.
    rewrite (mload64_page (mem s1)) by (by rewrite lookup_insert_ne). apply mload64_page. simpl. by rewrite lookup_insert_ne.
  - rewrite Hm4. by eapply mload64_store_eq.
  - rewrite Es4. exact Hsp2.
  - pose proof (mstore64_wf _ _ _ _ Hwf2 Em3) as Hwf3. destruct Hk1 as [K1 K2 K3 K4 K5 K6]. rewrite Es4. split; simpl; try done.
    + pose proof (km_nodup _ _ Hk) as [Hni _]%NoDup_cons. rewrite Hfl2. eapply chain_frame; [|exact K1]. intros x Hx.
      rewrite Forall_forall in K3. destruct (K3 x Hx). split; [done|]. rewrite Hoth by set_solver.
      simpl. by rewrite lookup_insert_ne by set_solver.
    + pose proof (km_nodup _ _ Hk) as [Hni _]%NoDup_cons. intros x Hx. rewrite Hoth by set_solver. apply (km_present _ _ Hk). set_solver.
  - rewrite Es4. eapply swap_inv_ext; [exact Hinv2|by eapply mstore64_wf|simpl; by rewrite length_insert|done..].
  - by rewrite Hm4.
Qed.
(** ** Fork and swapped pages *)

Lemma walk_alloc_pure ka pt va s a : va < MAXVA → pwalk (mem s) pt va = Some a → a ≠ 0 →
  walk ka pt va true s = Ok (a, s).
Proof.
  assert (∀ level pt l, plevel (mem s) va level pt = Some l → l ≠ 0 → walk_level ka true va level pt s = Ok (l, s)) as Hlev.
  { intros level pt' l. unfold plevel, walk_level. destruct (mload64 _ _) as [e|] eqn:E; [|done]. simpl.
    destruct (has e PTE_V) eqn:Ev; [|intros [= <-]; done]. intros [= <-] _. erewrite bind_step by (by apply load64_ok). by rewrite Ev. }
  unfold pwalk, walk. intros Hva. destruct (Z.leb_spec MAXVA va); [lia|].
  destruct (plevel (mem s) va 2 pt) as [l1|] eqn:E1; [|done]. simpl.
  destruct (decide (l1 = 0)) as [->|Hl1]; [intros [= <-]; done|]. erewrite bind_step by (by apply Hlev).
  destruct (Z.eqb_spec l1 0); [done|]. destruct (plevel (mem s) va 1 l1) as [l0|] eqn:E0; [|done]. simpl.
  destruct (decide (l0 = 0)) as [->|Hl0]; [intros [= <-]; done|]. erewrite bind_step by (by apply Hlev).
  destruct (Z.eqb_spec l0 0); [done|]. by intros [= <-].
Qed.

Lemma mappages_one pt va pa perm s pte e m' : va mod PGSIZE = 0 → va < MAXVA →
  pwalk (mem s) pt va = Some pte → pte ≠ 0 → mload64 (mem s) pte = Some e → has e PTE_V = false →
  mstore64 (mem s) pte (setb (setb (PA2PTE pa) perm) PTE_V) = Some m' →
  mappages pt va PGSIZE pa perm s = Ok (0, s <| mem := m' |>).
Proof.
  intros Hal Hva Hw Hpte He Hv Em. unfold mappages. rewrite Hal. cbn [negb Z.eqb].
  change (PGSIZE mod PGSIZE) with 0. change (upto (PGSIZE / PGSIZE)) with [0]. cbn [negb Z.eqb for_find].
  erewrite (bind_step _ _ _ None); [reflexivity|]. erewrite (bind_step _ _ _ None); [reflexivity|].
  unfold mappage1. rewrite Z.mul_0_l, !Z.add_0_r. erewrite bind_step by (by apply walk_alloc_pure).
  destruct (Z.eqb_spec pte 0); [done|]. erewrite bind_step by (by apply load64_ok). rewrite Hv.
  erewrite bind_step by (by apply store64_ok). done.
Qed.

(** C39. [uvmcopy], as [fork] uses it, gives the child its own copy of a page the
    parent has in a swap slot, but frees the slot: the parent's entry still says
    that its page is there, and the next page that is evicted goes into the slot. *)
Theorem fork_frees_parents_slot s i va pte e slot p pa l np new pte' e1 :
  swap_inv s → cur_ok s → kmem_inv s (pa :: l) →
  swapped_out s i va pte e slot p → va < MAXVA → va mod PGSIZE = 0 → pg pte ≠ pa →
  (∀ j, (Z.of_nat j < slot) → swap_space s !! j = Some true) →
  pwalk (mem s) new va = Some pte' → pte' ≠ 0 → mload64 (mem s) pte' = Some e1 → has e1 PTE_V = false →
  pte' ≠ pte → (∀ a, a ∈ walk_words (mem s) new va ∨ a = pte' → pg a ≠ pa) →
  is_Some (procs s !! np) →
  ∃ s' q, procs s !! i = Some q ∧ uvmcopy1 (p_pagetable q) new (Some np) va s = Ok (None, s') ∧
    mem s' !! pa = Some p ∧ PTE2PA <$> mload64 (mem s') pte' = Some pa ∧
    mload64 (mem s') pte = Some (swap_pte slot e) ∧
    znth (swap_space s') slot = Some false ∧
    ∃ s'', take_slot s' = Ok (slot, s'').
Proof.
  intros Hinv Hc Hk [(q & Hq & Hw) Hpte He Hslot Hused [mode Hho]] Hva Hal Hne Hlow Hw' Hpte' He' Hv' Hneq Hap [qn Hqn].
  pose proof (dr_held _ (di_ready _ (si_idle _ Hinv))) as Hh. pose proof (km_wf _ _ Hk) as Hwf.
  assert (alloc_page pa) as Hpa by (pose proof (km_pages _ _ Hk) as [? _]%Forall_cons; done).
  pose proof (km_chain _ _ Hk) as (_ & Hp0 & _)%chain_cons_inv.
  set (s1 := allocated s pa l). pose proof (allocated_inv _ _ _ Hk) as Hk1. fold s1 in Hk1.
  assert (swap_inv s1) as Hinv1 by (eapply swap_inv_ext; [exact Hinv|apply Hk1|done..]).
  destruct (swap_in_ok s1 pa slot p (zrepl PGSIZE 5) mode) as (s2 & E2 & Hinv2 & Hef2 & Hm2 & Hfl2 & Hfr2 & _ & Hsp2);
    [done..|by eapply slot_holds_ext|apply lookup_insert_eq|].
  assert (∀ a, pg a ≠ pa → mload64 (mem s2) a = mload64 (mem s) a) as Hld.
  { intros a Ha. rewrite Hm2, !(mload64_page (mem s)); [done|simpl; by rewrite !lookup_insert_ne]. }
  assert (mem s2 !! pa = Some p) as Hp2 by (rewrite Hm2; apply lookup_insert_eq).
  pose proof (di_wf _ (si_idle _ Hinv2)) as Hwf2.
  set (flags := clear (setb (PTE_FLAGS (swap_pte slot e)) PTE_V) PTE_SWAPPED).
  assert (0 ≤ flags < 1024) as Hfl by (apply (clear_bound _ _ 10); [lia|]; apply (setb_bound _ _ 10); [lia|apply PTE_FLAGS_bound|lia]).
  set (enew := setb (setb (PA2PTE pa) flags) PTE_V). destruct (Hpa) as (Hpal & Hr1 & Hr2).
  assert (PTE2PA enew = pa ∧ 0 ≤ enew < 2 ^ 64) as [V1 V2].
  { unfold enew, setb. rewrite <-Z.lor_assoc. assert (0 ≤ Z.lor flags PTE_V < 1024) as Hb by (apply (lor_bound _ _ 10); lia).
    split; [by apply PTE2PA_make; [lia|..]|]. apply pte_bound; [done|].
    rewrite Z.shiftr_div_pow2 by lia. change (2 ^ 12) with PGSIZE. dlia. }
  assert (mload64 (mem s2) pte' = Some e1) as He2 by (rewrite Hld; [done|by apply Hap; right]).
  destruct (mstore64_ok _ _ _ enew He2) as [m3 Em3].
  assert (∃ qn2, procs s2 !! np = Some qn2) as [qn2 Hqn2].
  { destruct (no_stats_lookup _ _ _ _ (ef_procs _ _ Hef2) Hqn) as (x & ? & _). by exists x. }
  destruct (track_frame_ok (s2 <| mem := m3 |>) np qn2 va pa) as (s4 & r & E4 & Es4 & _);
    [done|simpl; rewrite Hfr2; apply Hk1|apply Hinv2|done|].
  assert (mem s4 = m3) as Hm4 by (by rewrite Es4).
  assert (znth (swap_space s4) slot = Some false) as Hfree.
  { rewrite Es4. change (swap_space (_ <| frames := _ |>)) with (swap_space s2). rewrite Hsp2.
    apply znth_zset_eq. by apply znth_Some in Hused. }
  exists s4, q. split_and!; [done| | | | |done|].
  - unfold uvmcopy1. erewrite bind_step by (by apply walk_pure). destruct (Z.eqb_spec pte 0); [done|].
    erewrite bind_step by (by apply load64_ok). rewrite (proj1 (swap_pte_has slot e)), (proj2 (swap_pte_has slot e)). cbn [negb].
    cbv zeta. rewrite swap_pte_slot. assert (i32 slot = slot) as -> by (unfold slot_ok in Hslot; apply i32_id; lia).
    erewrite bind_step by (apply kalloc_ok; [exact Hk|rewrite Hh; set_solver]). destruct (Z.eqb_spec pa 0); [done|].
    fold s1. rewrite (bind_step _ _ _ _ _ E2). fold flags.
    erewrite (bind_step _ _ _ 0); [|eapply (mappages_one new va pa flags s2 pte' e1 m3)]; try done.
    + cbn [Z.eqb negb]. rewrite (bind_step _ _ _ _ _ E4). done.
    + rewrite <-Hw'. apply pwalk_same. intros a Ha. apply Hld, Hap. by left.
  - rewrite Hm4. erewrite mstore64_other_page; [done|exact Em3|]. assert (pg pte' ≠ pa) by (by apply Hap; right). congruence.
  - rewrite Hm4. erewrite mload64_store_eq; [simpl; by rewrite V1|exact Hwf2|done|exact Em3].
  - rewrite Hm4. erewrite mload64_store_ne; [by rewrite Hld|exact Hwf2|exact Em3|done].
  - assert (held s4 = ∅) as Hh4 by (rewrite Es4; apply Hinv2).
    assert (list_find (λ b, b = false) (swap_space s4) = Some (Z.to_nat slot, false)) as Hf.
    { apply list_find_Some. unfold znth in Hfree. destruct (Z.leb_spec 0 slot) as [Hs0|]; [|done].
      split_and!; [done|done|]. intros j b Hj Hlt ->.
      assert (swap_space s4 = zset (swap_space s) slot false) as Esp by (rewrite Es4; exact Hsp2).
      rewrite Esp in Hj. unfold zset in Hj. rewrite list_lookup_insert_ne in Hj by lia. specialize (Hlow j ltac:(lia)). congruence. }
    eexists. erewrite take_slot_ok; [|rewrite Hh4; set_solver|exact Hf]. unfold slot_ok in Hslot. rewrite Z2Nat.id by lia. done.
Qed.
End swapping.

(** ** A small machine *)

#[local] Existing Instance demo_layout.

(** One process with one page, at address 0, and no free page. *)
Definition leaf_flags : Z := setb (setb (setb PTE_V PTE_R) PTE_W) PTE_U.
Definition table_page (e : Z) : list Z := splice 0 (le_of 8 e) (zrepl PGSIZE 0).
Definition demo_pt (k : Z) : Z := kend + (k + 1) * PGSIZE.
Definition demo_entry : Z := setb (PA2PTE kend) leaf_flags.
Definition swap_mem : phys :=
  {[ kend := demo_page; demo_pt 0 := table_page demo_entry;
     demo_pt 1 := table_page (setb (PA2PTE (demo_pt 0)) PTE_V);
     demo_pt 2 := table_page (setb (PA2PTE (demo_pt 1)) PTE_V) ]}.
Definition swap_proc : proc := proc0 <| p_state := RUNNING |> <| p_pid := 1 |> <| p_pagetable := demo_pt 2 |>.
Definition swap_demo : kst bcache :=
  (demo 0 0) <| mem := swap_mem |> <| procs := [swap_proc] |> <| cur := Some 0%nat |>
    <| frames := zset (zrepl NFRAME frame0) 65 (MkFrame true (Some 0%nat) false 0) |>.

Lemma swap_mem_all (P : Z → list Z → Prop) :
  P kend demo_page → P (demo_pt 0) (table_page demo_entry) →
  P (demo_pt 1) (table_page (setb (PA2PTE (demo_pt 0)) PTE_V)) →
  P (demo_pt 2) (table_page (setb (PA2PTE (demo_pt 1)) PTE_V)) → map_Forall P swap_mem.
Proof. intros. unfold swap_mem. repeat apply map_Forall_insert_2; done. Qed.

Lemma swap_demo_target i : 0 ≤ i < NFRAME →
  target swap_demo i = Some (if decide (i = 65) then Some (demo_pt 0, kend) else None).
Proof.
  intros Hi. destruct (decide (i = 65)) as [->|Hne]; [vm_compute; reflexivity|].
  unfold target, swap_demo. simpl. rewrite znth_zset_ne by lia.
  by rewrite znth_zrepl.
Qed.

Lemma swap_mem_wf : mem_wf swap_mem.
Proof. apply swap_mem_all; (split; [reflexivity|vm_compute; reflexivity]). Qed.
Lemma swap_mem_bytes : mem_bytes swap_mem.
Proof.
  assert (∀ p, forallb (λ b, (0 <=? b) && (b <? 256)) p = true → Forall (λ b, 0 ≤ b < 256) p) as H.
  { intros p Hp. apply Forall_forall. intros b Hb. eapply forallb_forall in Hp; [|by apply list_elem_of_In]. lia. }
  apply swap_mem_all; apply H; vm_compute; reflexivity.
Qed.

Lemma swap_demo_ready : evict_ready swap_demo.
Proof.
  destruct (demo_inv 0 0) as [[[? ? ? ? _] _ ?] ? ? ?]; [lia|].
  assert (zlen (frames swap_demo) = NFRAME) as Hl by (vm_compute; reflexivity). split.
  - split; [split; [split|..]|..]; try done.
    + intros i [= <-]. by eexists.
    + apply swap_mem_wf.
  - intros i [= <-]. exists swap_proc. split; [done|]. simpl. lia.
  - split; [constructor|constructor|constructor|set_solver|apply swap_mem_wf|done].
  - vm_compute. reflexivity.
  - split; [done|simpl; lia|]. intros i Hi. rewrite swap_demo_target by done. eexists. split; [done|].
    destruct (decide (i = 65)) as [->|]; [|done]. intros pte pa [= <- <-]. split; [|vm_compute; reflexivity].
    unfold alloc_page. simpl. split_and!; [reflexivity|lia..].
  - apply swap_mem_bytes.
Qed.




(** The same process with its page in slot 0 and the page free. *)
Definition fault_disk : gmap Z (list Z) :=
  list_to_map ((λ b, (data_block 0 0 b, page_block demo_page b)) <$> upto 4).
Definition fault_mem : phys :=
  <[kend := freed_page 0]> (<[demo_pt 0 := table_page (swap_pte 0 demo_entry)]> swap_mem).
Definition fault_demo : kst bcache :=
  swap_demo <| mem := fault_mem |> <| freelist := kend |> <| frames := zrepl NFRAME frame0 |>
    <| swap_space := zset (zrepl NSWAPSPACE false) 0 true |> <| bdev := boot_bcache fault_disk 1 |>.

Lemma fault_mem_wf : mem_wf fault_mem.
Proof. do 2 (apply mem_wf_insert; [|reflexivity|vm_compute; reflexivity]). apply swap_mem_wf. Qed.
Lemma swap_inv_upd {D} `{!BlockStore D, !BlockStoreLaws D} (s : kst D) m fl fs sp d : swap_inv s → mem_wf m → bs_inv d →
  swap_inv (s <| mem := m |> <| freelist := fl |> <| frames := fs |> <| swap_space := sp |> <| bdev := d |>).
Proof. intros [[[]] ] Hm Hd. split; [split; [split|..]|..]; done. Qed.
Lemma fault_demo_inv : swap_inv fault_demo.
Proof.
  apply swap_inv_upd; [apply swap_demo_ready|apply fault_mem_wf|]. apply boot_bcache_ok. intros b v. unfold fault_disk. intros Hb%elem_of_list_to_map_2.
  apply list_elem_of_fmap in Hb as (k & [= -> ->] & Hk). revert k Hk. apply Forall_forall. vm_compute.
  repeat constructor.
Qed.

(** The one free page is [kend], and process 0 has its page in slot 0. *)
Lemma one_free_page {D} (s : kst D) : mem_wf (mem s) → freelist s = kend → mload64 (mem s) kend = Some 0 →
  mem s !! kend ≠ None → zlen (frames s) = NFRAME → kmem_inv s [kend].
Proof.
  intros Hwf Hf Hl Hp Hfr. split; [rewrite Hf; apply (chain_cons _ _ 0); [discriminate|done|constructor]|apply NoDup_singleton| | |done|done].
  - constructor; [|constructor]. unfold alloc_page. simpl. split_and!; [reflexivity|lia..].
  - intros p ->%list_elem_of_singleton. by apply not_eq_None_Some.
Qed.
Lemma in_slot_0 {D} `{!BlockStore D, !BlockStoreLaws D} (s : kst D) : procs s !! 0%nat = Some swap_proc →
  pwalk (mem s) (demo_pt 2) 0 = Some (demo_pt 0) → mload64 (mem s) (demo_pt 0) = Some (swap_pte 0 demo_entry) →
  znth (swap_space s) 0 = Some true → znth (slot_raid_mode s) 0 = Some 0 →
  (λ b, bs_view (bdev s) (data_block 0 0 b)) <$> [0; 1; 2; 3] = page_block demo_page <$> [0; 1; 2; 3] →
  swapped_out s 0 0 (demo_pt 0) demo_entry 0 demo_page.
Proof.
  intros Hp Hw He Hsp Hm Hb. split; [by exists swap_proc|discriminate|done|unfold slot_ok; lia|done|].
  exists 0. split; [done|lia|vm_compute; reflexivity|]. rewrite !fmap_cons, fmap_nil in Hb. injection Hb as H0 H1 H2 H3.
  intros b Hb. assert (b = 0 ∨ b = 1 ∨ b = 2 ∨ b = 3) as [->|[->|[->| ->]]] by lia; assumption.
Qed.

Lemma page_fault_swaps_in_witness :
  ∃ s' q e', page_fault 0 8 fault_demo = Ok (tt, s') ∧ mem s' !! kend = Some demo_page ∧
    procs s' !! 0%nat = Some q ∧ pwalk (mem s') (p_pagetable q) 0 = Some (demo_pt 0) ∧
    mload64 (mem s') (demo_pt 0) = Some e' ∧ PTE2PA e' = kend ∧ PTE_FLAGS e' = leaf_flags.
Proof.
  assert (PGROUNDDOWN 8 = 0) as E0 by reflexivity.
  destruct (page_fault_swaps_in fault_demo 0 8 (demo_pt 0) demo_entry 0 demo_page kend []) as
    (s' & q & e' & H1 & H2 & H3 & H4 & H5 & H6 & H7 & _).
  - apply fault_demo_inv.
  - intros i [= <-]. exists swap_proc. split; [reflexivity|]. simpl. lia.
  - apply one_free_page; [apply fault_mem_wf|reflexivity|vm_compute; reflexivity|vm_compute; discriminate|vm_compute; reflexivity].
  - rewrite E0. apply in_slot_0; vm_compute; reflexivity.
  - rewrite E0. lia.
  - intros Hin%list_elem_of_singleton. discriminate Hin.
  - rewrite E0. intros q a [= <-]. assert (walk_words (mem fault_demo) (p_pagetable swap_proc) 0 = [demo_pt 2; demo_pt 1]) as ->
      by (vm_compute; reflexivity).
    intros Ha. assert (a = demo_pt 2 ∨ a = demo_pt 1) as [->| ->] by set_solver; (split; vm_compute; discriminate).
  - exists s', q, e'. rewrite E0 in H4. split_and!; assumption.
Defined.

(** The same machine with empty tables for a child, process 1. *)
Definition fork_mem : phys :=
  <[demo_pt 3 := table_page 0]> (<[demo_pt 4 := table_page (setb (PA2PTE (demo_pt 3)) PTE_V)]>
    (<[demo_pt 5 := table_page (setb (PA2PTE (demo_pt 4)) PTE_V)]> fault_mem)).
Definition fork_demo : kst bcache := fault_demo <| mem := fork_mem |> <| procs := [swap_proc; proc0] |>.

Lemma fork_mem_wf : mem_wf fork_mem.
Proof. do 3 (apply mem_wf_insert; [|reflexivity|vm_compute; reflexivity]). apply fault_mem_wf. Qed.

Lemma swap_inv_upd_mem {D} `{!BlockStore D, !BlockStoreLaws D} (s : kst D) m ps : swap_inv s → mem_wf m →
  (length (procs s) ≤ length ps)%nat → swap_inv (s <| mem := m |> <| procs := ps |>).
Proof.
  intros [[[]] ] Hm Hl. split; [split; [split|..]|..]; try done. intros i Hi. apply dr_cur in Hi.
  rewrite lookup_lt_is_Some in *. simpl. lia.
Qed.

Lemma fork_frees_parents_slot_witness :
  ∃ s' q, procs fork_demo !! 0%nat = Some q ∧ uvmcopy1 (p_pagetable q) (demo_pt 5) (Some 1%nat) 0 fork_demo = Ok (None, s') ∧
    mload64 (mem s') (demo_pt 0) = Some (swap_pte 0 demo_entry) ∧ znth (swap_space s') 0 = Some false.
Proof.
  destruct (fork_frees_parents_slot fork_demo 0 0 (demo_pt 0) demo_entry 0 demo_page kend [] 1 (demo_pt 5) (demo_pt 3) 0)
    as (s' & q & H1 & H2 & _ & _ & H3 & H4 & _).
  - apply swap_inv_upd_mem; [apply fault_demo_inv|apply fork_mem_wf|vm_compute; lia].
  - intros i [= <-]. exists swap_proc. split; [reflexivity|]. simpl. lia.
  - apply one_free_page; [apply fork_mem_wf|reflexivity|vm_compute; reflexivity|vm_compute; discriminate|vm_compute; reflexivity].
  - apply in_slot_0; vm_compute; reflexivity.
  - lia.
  - reflexivity.
  - discriminate.
  - intros j Hj. lia.
  - vm_compute. reflexivity.
  - discriminate.
  - vm_compute. reflexivity.
  - reflexivity.
  - discriminate.
  - assert (walk_words (mem fork_demo) (demo_pt 5) 0 = [demo_pt 5; demo_pt 4]) as -> by (vm_compute; reflexivity).
    intros a Ha. assert (a = demo_pt 5 ∨ a = demo_pt 4 ∨ a = demo_pt 3) as [->|[->| ->]] by set_solver; discriminate.
  - by eexists.
  - exists s', q. split_and!; assumption.
Defined.
