(* ===== verification/Owners.v ===== *)
(** * Who owns which page

    The pages the allocator has handed out and those on its free list, through any
    sequence of allocations, with eviction when no page is free, of frees, and of
    writes by their owners. *)

From stdpp Require Import base numbers list gmap strings.
From S2P Require Import Prelude Machine KState Bio Disk Raid RaidProps Kalloc Evict VM Str Fs Proc File Args Exec Sysfile Sysproc Trap Swap.
Open Scope Z_scope.
Open Scope kernel_scope.

Section owners.
Context {D : Type} `{!BlockStore D, !BlockStoreLaws D} {L : Layout}.
Implicit Types s : kst D.






End owners.

(** ** A small machine *)

#[local] Existing Instance demo_layout.



