(* ===== verification/FileProps.v ===== *)
(** * What open files, pipes and the console promise

    The file layer leaves processes alone but for waking them up, as [proc.c]
    relies on ([file_ops_laws]); a pipe is a queue of at most [PIPESIZE] bytes,
    whatever the reads and writes, also when its 32-bit counters wrap around;
    and what becomes of a pipe write whose user page has been swapped out. *)

From stdpp Require Import base numbers list gmap strings.
From S2P Require Import Prelude Machine KState Bio Log LogProps Disk Raid RaidProps Kalloc Evict VM VMProps Str Fs Frame Proc ProcProps PTable File Trap Swap.
Open Scope Z_scope.
Open Scope kernel_scope.

(** ** The interface to the swap code *)

(** The file system's block device is the buffer cache, and keeps its promise. *)
Lemma fs_read_ok (d : fsst) b : bc_ok (l_bc (fs_log d)) → 0 ≤ b < FSSIZE →
  ∃ d', @bs_read fsst _ b d = Ok (bc_view (l_bc (fs_log d)) b, d') ∧ bc_ok (l_bc (fs_log d')) ∧
    ∀ b', bc_view (l_bc (fs_log d')) b' = bc_view (l_bc (fs_log d)) b'.
Proof.
  intros Hd Hb. destruct (bio_read_ok _ b Hd Hb) as (c' & E & H1 & H2). eexists. cbn [bs_read fs_store].
  unfold lift_buf, lift_log, lift_bc. cbn [bs_read bio_store]. rewrite E. split; [reflexivity|]. split; [exact H1|exact H2].
Qed.
Lemma fs_write_ok (d : fsst) b v : bc_ok (l_bc (fs_log d)) → 0 ≤ b < FSSIZE → zlen v = BSIZE →
  ∃ d', @bs_write fsst _ b v d = Ok (tt, d') ∧ bc_ok (l_bc (fs_log d')) ∧
    ∀ b', bc_view (l_bc (fs_log d')) b' = if decide (b' = b) then v else bc_view (l_bc (fs_log d)) b'.
Proof.
  intros Hd Hb Hv. destruct (bio_write_ok _ b v Hd Hb Hv) as (c' & E & H1 & H2). eexists. cbn [bs_write fs_store].
  unfold lift_buf, lift_log, lift_bc. cbn [bs_write bio_store]. rewrite E. split; [reflexivity|]. split; [exact H1|exact H2].
Qed.
#[global] Instance fs_store_laws : BlockStoreLaws fsst := {|
  bs_inv d := bc_ok (l_bc (fs_log d));
  bs_view d := bc_view (l_bc (fs_log d));
  bs_view_len d b H _ := bc_view_len _ b H;
  bs_read_ok := fs_read_ok;
  bs_write_ok := fs_write_ok;
|}.

(** ** The interface to [proc.c] *)

Section laws.
Context {L : Layout}.
Abbreviation Keeps := (keeps (@PTable.woken fsst)).

Lemma keeps_same_woken {A} (m : M (kst fsst) A) : keeps same_procs m → Keeps m.
Proof. intros H s a s' E. apply same_procs_woken. by eapply H. Qed.
#[local] Hint Extern 2 (keeps PTable.woken _) => apply keeps_same_woken; solve [eauto 2 with keeps] : keeps.

Lemma keeps_wakeup chan : Keeps (wakeup chan).
Proof.
  unfold wakeup. apply keeps_for_each; [exact _|]. intros i. keeps_step; [keeps_step|].
  destruct (bool_decide _); [keeps_step|]. apply keeps_bind; [exact _|keeps_step|intros _].
  intros s x s' E. apply bind_Ok_inv in E as (p & ? & [Hp ->]%getp_inv & E). minv E.
  transitivity s0; [|by eapply same_procs_woken, keeps_release].
  destruct (bool_decide _) eqn:Ec; [|by injection E0 as _ <-]. apply bool_decide_eq_true in Ec as [Hs _].
  simpl in E0. erewrite updp_ok in E0 by done. injection E0 as _ <-. split; try done. simpl.
  apply Forall2_same_length_lookup. split; [by rewrite length_insert|]. intros j q q' Hq Hq'.
  destruct (decide (i = j)) as [<-|]; [|rewrite list_lookup_insert_ne in Hq' by done; left; congruence].
  rewrite list_lookup_insert_eq in Hq' by (by eapply lookup_lt_Some). injection Hq' as <-.
  right. replace q with p by congruence. done.
Qed.
Lemma keeps_lift_fs {A} (m : FS A) : keeps same_procs (lift_fs m).
Proof. unfold lift_fs. keeps_solve. Qed.
#[local] Hint Resolve keeps_wakeup keeps_lift_fs : keeps.
Lemma keeps_pipeclose pi w : Keeps (pipeclose pi w).
Proof. unfold pipeclose, updpi, getpi. keeps_solve. Qed.
#[local] Hint Resolve keeps_pipeclose : keeps.
Lemma keeps_fileclose f : Keeps (fileclose f).
Proof. unfold fileclose. keeps_solve. Qed.

#[global] Instance file_ops_laws : FileOpsLaws fsst.
Proof. split; intros; cbn [file_ops fo_filedup fo_fileclose fo_idup fo_iput fo_begin_op fo_end_op fo_namei_root];
  solve [apply keeps_fileclose|keeps_solve]. Qed.
End laws.
#[export] Hint Resolve keeps_wakeup keeps_lift_fs keeps_pipeclose keeps_fileclose : keeps.

(** ** A pipe as a queue of bytes *)

Record pipe_ok (p : pipe) : Prop := {
  po_len : zlen (pi_data p) = PIPESIZE;
  po_nread : 0 ≤ pi_nread p < 4294967296;
  po_nwrite : 0 ≤ pi_nwrite p < 4294967296;
  po_count : u32 (pi_nwrite p - pi_nread p) ≤ PIPESIZE;
}.
Definition pcount (p : pipe) : Z := u32 (pi_nwrite p - pi_nread p).
(** The bytes written and not yet read, in the order they were written. *)
Definition content (p : pipe) : list Z :=
  (λ k, default 0 (znth (pi_data p) ((pi_nread p + k) mod PIPESIZE))) <$> upto (pcount p).
Definition pushed (c : Z) (p : pipe) : pipe :=
  p <| pi_data ::= λ d, zset d (pi_nwrite p mod PIPESIZE) c |> <| pi_nwrite ::= λ w, u32 (w + 1) |>.
Definition popped (p : pipe) : pipe := p <| pi_nread ::= λ r, u32 (r + 1) |>.

Lemma pcount_bound p : 0 ≤ pcount p < 4294967296.
Proof. unfold pcount, wrap. apply Z.mod_pos_bound. lia. Qed.
Lemma zlen_content p : zlen (content p) = pcount p.
Proof. pose proof (pcount_bound p). unfold content, zlen. rewrite length_fmap. apply zlen_upto; lia. Qed.
Lemma znth_content p k : 0 ≤ k < pcount p →
  znth (content p) k = Some (default 0 (znth (pi_data p) ((pi_nread p + k) mod PIPESIZE))).
Proof. intros. unfold content. by rewrite znth_fmap, znth_upto. Qed.

Lemma pipe_full p : pipe_ok p → (pi_nwrite p =? u32 (pi_nread p + PIPESIZE)) = (pcount p =? PIPESIZE).
Proof.
  intros [_ H1 H2 H3]. apply eq_true_iff_eq. rewrite !Z.eqb_eq. unfold pcount, wrap in *. dlia.
Qed.
Lemma pipe_empty p : pipe_ok p → (pi_nread p =? pi_nwrite p) = (pcount p =? 0).
Proof.
  intros [_ H1 H2 H3]. apply eq_true_iff_eq. rewrite !Z.eqb_eq. unfold pcount, wrap in *. dlia.
Qed.

(** Writing a byte adds it at the end, also when [nwrite] wraps around. *)
Lemma pushed_ok c p : pipe_ok p → pcount p < PIPESIZE →
  pipe_ok (pushed c p) ∧ content (pushed c p) = content p ++ [c].
Proof.
  intros [Hl H1 H2 H3] Hc. pose proof (pcount_bound p) as Hb.
  assert (pcount (pushed c p) = pcount p + 1) as Ep by (unfold pcount, wrap in *; simpl; unfold wrap; dlia).
  split; [split; simpl; [by rewrite zlen_zset|done|unfold wrap; dlia|change (pcount (pushed c p) ≤ PIPESIZE); lia]|].
  apply znth_ext; [rewrite zlen_app, !zlen_content, Ep; done|]. intros k. rewrite zlen_content, Ep. intros Hk.
  rewrite znth_content, znth_app, zlen_content by lia. simpl.
  assert (0 ≤ pi_nwrite p mod PIPESIZE < PIPESIZE) by (apply Z.mod_pos_bound; lia).
  destruct (Z.ltb_spec k (pcount p)).
  - rewrite znth_content by lia. rewrite znth_zset_ne; [done|lia|].
    unfold pcount, wrap in *. dlia.
  - assert (k = pcount p) as -> by lia. rewrite Z.sub_diag.
    replace ((pi_nread p + pcount p) mod PIPESIZE) with (pi_nwrite p mod PIPESIZE) by (unfold pcount, wrap in *; dlia).
    rewrite znth_zset_eq by lia. done.
Qed.
(** Reading takes the byte at the front. *)
Lemma popped_ok p : pipe_ok p → 0 < pcount p → ∃ c,
  znth (pi_data p) (pi_nread p mod PIPESIZE) = Some c ∧ pipe_ok (popped p) ∧ content p = c :: content (popped p).
Proof.
  intros [Hl H1 H2 H3] Hc. pose proof (pcount_bound p) as Hb.
  assert (pcount (popped p) = pcount p - 1) as Ep by (unfold pcount, wrap in *; simpl; unfold wrap; dlia).
  destruct (znth_lt (pi_data p) (pi_nread p mod PIPESIZE)) as [c Ec]; [rewrite Hl; apply Z.mod_pos_bound; lia|].
  exists c. split; [done|]. split.
  { split; simpl; [done|unfold wrap; dlia|done|change (pcount p ≤ PIPESIZE) in H3; change (pcount (popped p) ≤ PIPESIZE); lia]. }
  apply znth_ext; [change (c :: ?l) with ([c] ++ l); rewrite zlen_app, !zlen_content, Ep; change (zlen [c]) with 1; lia|].
  intros k. rewrite zlen_content. intros Hk. rewrite znth_content by lia. change (c :: ?l) with ([c] ++ l).
  rewrite znth_app. change (zlen [c]) with 1. destruct (Z.ltb_spec k 1).
  - assert (k = 0) as -> by lia. by rewrite Z.add_0_r, Ec.
  - rewrite znth_content by lia. simpl. do 3 f_equal. unfold wrap. dlia.
Qed.

Definition setpipe (pi : Z) (p : pipe) (s : kst fsst) : kst fsst :=
  s <| bdev ::= λ d, d <| fs_pipe ::= <[pi := p]> |> |>.

Section pipes.
Context {L : Layout}.
Implicit Types (s : kst fsst) (p : pipe).

Lemma getpi_ok pi p s : fs_pipe (bdev s) !! pi = Some p → getpi pi s = Ok (p, s).
Proof.
  intros H. unfold getpi. erewrite bind_step; [|unfold lift_bdev; reflexivity]. simpl. rewrite H.
  apply Ok_pair. by destruct s.
Qed.
Lemma updpi_ok pi f p s : fs_pipe (bdev s) !! pi = Some p → updpi pi f s = Ok (tt, setpipe pi (f p) s).
Proof. intros H. unfold updpi. by erewrite bind_step by (by apply getpi_ok). Qed.
Lemma setpipe_twice pi p p' s : setpipe pi p' (setpipe pi p s) = setpipe pi p' s.
Proof. unfold setpipe. kst_eq. unfold upd, upd_fs_pipe. simpl. by rewrite insert_insert_eq. Qed.
Lemma setpipe_same pi p s : fs_pipe (bdev s) !! pi = Some p → setpipe pi p s = s.
Proof. intros H. unfold setpipe. kst_eq. unfold upd, upd_fs_pipe. rewrite insert_id by done. by destruct (bdev s). Qed.
Lemma setpipe_lookup pi p s : fs_pipe (bdev (setpipe pi p s)) !! pi = Some p.
Proof. simpl. apply lookup_insert_eq. Qed.

(** Process [me] with the pipe [p] at [pi] and [n] bytes of its memory
    at [addr] mapped (and writable, if [w]). *)
Record pipe_user (me : nat) (q : proc) (pi : Z) (p : pipe) (addr n : Z) (w : bool) (T : Z → Z) s : Prop := {
  pu_cur : cur s = Some me;
  pu_proc : procs s !! me = Some q;
  pu_table : length (procs s) = Z.to_nat NPROC;
  pu_pipe : fs_pipe (bdev s) !! pi = Some p;
  pu_ok : pipe_ok p;
  pu_mem : mem_wf (mem s);
  pu_n : 0 ≤ n;
  pu_area : user_area (mem s) (p_pagetable q) addr n w T;
}.
Definition same_ends p p' : Prop := pi_readopen p' = pi_readopen p ∧ pi_writeopen p' = pi_writeopen p.

Lemma pipe_user_set me q pi p addr n w T s p' : pipe_user me q pi p addr n w T s → pipe_ok p' →
  pipe_user me q pi p' addr n w T (setpipe pi p' s).
Proof. intros [] Hp'. split; try done. apply setpipe_lookup. Qed.

(** The address of byte [i] of the user buffer does not wrap around. *)
Lemma pipe_user_addr me q pi p addr n w T s i : pipe_user me q pi p addr n w T s → 0 ≤ i < n → u64 (addr + i) = addr + i.
Proof. intros [] Hi. destruct (ua_range _ _ _ _ _ _ pu_area0). apply wrap_id. lia. Qed.

(** One more byte into a pipe with room. *)
Lemma pipewrite_byte me q pi p addr n w T s i :
  pipe_user me q pi p addr n w T s → LProc me ∉ held s → pi_readopen p = true → p_killed q = 0 → 0 ≤ i < n → pcount p < PIPESIZE →
  ∃ c, mbyte (mem s) (user_addr T (addr + i)) = Some c ∧
    pipewrite_step me pi addr n i s = Ok (inl (i + 1), setpipe pi (pushed c p) s).
Proof.
  intros Hu Hh Hro Ha Hi Hc. pose proof Hu as [Hcur Hq Hlen Hp Hok Hm Hn Har].
  destruct (copyin_ok (p_pagetable q) w T (addr + i) 1 s) as (bs & E & Hl & Hb);
    [lia|done|eapply user_area_sub; [done|lia..]|].
  destruct bs as [|c [|]]; [done| |unfold zlen in Hl; simpl in Hl; lia].
  specialize (Hb 0 ltac:(lia)). rewrite Z.add_0_r in Hb. exists c. split; [done|].
  unfold pipewrite_step. destruct (Z.ltb_spec i n); [|lia]. cbn [negb].
  erewrite bind_step by (by apply getpi_ok). rewrite Hro. cbn [negb].
  erewrite bind_step; [|erewrite bind_step by (by apply killed_ok); rewrite Ha; reflexivity].
  cbn [Z.eqb negb]. rewrite pipe_full by done. destruct (Z.eqb_spec (pcount p) PIPESIZE); [lia|].
  erewrite bind_step by (by apply getp_ok). erewrite pipe_user_addr by done.
  rewrite (bind_step _ _ _ _ _ E). cbn [snd fst head Z.eqb Z.opp]. mget c.
  erewrite bind_step by (by apply updpi_ok). reflexivity.
Qed.

(** The loop of [pipewrite], up to the end of the bytes or of the room. *)
Lemma pipewrite_fill me q pi addr n w T bs fuel i p s :
  pipe_user me q pi p addr n w T s → LProc me ∉ held s → pi_readopen p = true → p_killed q = 0 →
  zlen bs = n → (∀ k, 0 ≤ k < n → znth bs k = mbyte (mem s) (user_addr T (addr + k))) →
  0 ≤ i ≤ n → n - i < Z.of_nat fuel →
  let k := Z.min (n - i) (PIPESIZE - pcount p) in
  ∃ p', pipe_ok p' ∧ same_ends p p' ∧ content p' = content p ++ sub i k bs ∧
    loop fuel (pipewrite_step me pi addr n) i s =
      loop (fuel - Z.to_nat k) (pipewrite_step me pi addr n) (i + k) (setpipe pi p' s).
Proof.
  revert i p s. induction fuel as [|fuel IH]; intros i p s Hu Hh Hro Ha Hl Hbs Hi Hf k; [lia|].
  pose proof Hu as [Hcur Hq Hlen Hp Hok Hm Hn Har].
  destruct (decide (k ≤ 0)) as [Hk|Hk].
  { pose proof (po_count _ Hok) as Hc. change (pcount p ≤ PIPESIZE) in Hc. assert (k = 0) as -> by lia.
    exists p. rewrite setpipe_same, Z.add_0_r by done. split_and!; [done..| |done].
    unfold sub. by rewrite app_nil_r. }
  destruct (pipewrite_byte me q pi p addr n w T s i) as (c & Hc & E); [done..|lia|lia|].
  destruct (pushed_ok c p) as [Hok' Hct]; [done|lia|].
  destruct (IH (i + 1) (pushed c p) (setpipe pi (pushed c p) s)) as (p' & Hp' & Hs' & Hc' & E');
    [by eapply pipe_user_set|done..|lia|lia|].
  assert (pcount (pushed c p) = pcount p + 1) as Epc
    by (rewrite <-!zlen_content, Hct, zlen_app; done).
  rewrite Epc in Hc', E'. exists p'. split_and!; [done|destruct Hs'; done| |].
  - rewrite Hc', Hct, <-app_assoc. f_equal. apply znth_ext.
    + rewrite zlen_app, !zlen_sub by lia. change (zlen [c]) with 1. lia.
    + rewrite zlen_app, zlen_sub by lia. change (zlen [c]) with 1. intros j Hj.
      rewrite znth_app, (znth_sub i k) by lia. change (zlen [c]) with 1. destruct (Z.ltb_spec j 1).
      * assert (j = 0) as -> by lia. rewrite Z.add_0_r, Hbs, Hc by lia. done.
      * rewrite znth_sub by lia. f_equal. lia.
  - rewrite (loop_inl _ _ _ _ _ _ E), E', setpipe_twice. f_equal; lia.
Qed.

Lemma pipewrite_dead me q pi p addr n i s : cur s = Some me → procs s !! me = Some q → held s = {[LPipe pi]} →
  fs_pipe (bdev s) !! pi = Some p → pi_readopen p = false ∨ p_killed q ≠ 0 → i < n →
  pipewrite_step me pi addr n i s = Ok (inr PwDead, s <| held := ∅ |>).
Proof.
  intros Hcur Hq Hh Hp Hdead Hi. unfold pipewrite_step. destruct (Z.ltb_spec i n); [|lia]. cbn [negb].
  erewrite bind_step by (by apply getpi_ok). erewrite (bind_step _ _ _ true).
  - mstep release_ok; [|rewrite Hh; set_solver]. apply Ok_pair. rewrite Hh. kst_eq. set_solver.
  - destruct (pi_readopen p) eqn:Ero; [|done]. destruct Hdead as [|Hk]; [done|]. cbn [negb].
    erewrite bind_step by (apply killed_ok; [rewrite Hh; set_solver|done]). by destruct (Z.eqb_spec (p_killed q) 0).
Qed.
(** The end of the loop: all written, or the pipe full. *)
Lemma pipewrite_last me q pi p addr n i s : cur s = Some me → procs s !! me = Some q → held s = {[LPipe pi]} →
  length (procs s) = Z.to_nat NPROC → fs_pipe (bdev s) !! pi = Some p → pipe_ok p → pi_readopen p = true → p_killed q = 0 →
  (i < n → pcount p = PIPESIZE) →
  let woken := imap (ProcProps.woken (ChAddr (pi + PIPE_nread)) (Some me)) (procs s) in
  pipewrite_step me pi addr n i s = 
    if i <? n then Ok (inr (PwSleep i), s <| held := {[LProc me]} |>
      <| procs := <[me := q <| p_chan := ChAddr (pi + PIPE_nwrite) |> <| p_state := SLEEPING |>]> woken |>)
    else Ok (inr (PwDone i), s).
Proof.
  intros Hcur Hq Hh Hlen Hp Hok Hro Ha Hfull woken. unfold pipewrite_step. destruct (Z.ltb_spec i n); [|done]. cbn [negb].
  erewrite bind_step by (by apply getpi_ok). rewrite Hro. cbn [negb].
  erewrite bind_step; [|erewrite bind_step by (apply killed_ok; [rewrite Hh; set_solver|done]); rewrite Ha; reflexivity].
  cbn [Z.eqb negb]. rewrite pipe_full by done. rewrite Hfull by done. cbn [Z.eqb Pos.eqb].
  mstep wakeup_ok; [|done|intros j _; rewrite Hh; set_solver]. rewrite Hcur.
  erewrite bind_step by (apply sleep_off_ok; [done|done|done|]; simpl; rewrite list_lookup_imap, Hq; simpl;
    unfold ProcProps.woken; by rewrite bool_decide_eq_false_2 by naive_solver).
  apply Ok_pair. kst_eq.
Qed.

Lemma held_pipe pi (h : gset lockid) i : h = {[LPipe pi]} → LProc i ∉ h.
Proof. set_solver. Qed.

(** C32. Writing to a pipe appends to a queue of 512 bytes. With nobody to read,
    or for a killed process, [pipewrite] returns -1 and nothing has changed;
    otherwise the bytes that fit, in order, are added behind those not yet read
    (also when the 32-bit counters wrap around), the readers are woken up, and
    the call returns [n] when all fit and is asleep on [nwrite], the lock
    released, when they do not. *)
Theorem pipewrite_appends me q pi p addr n w T bs s :
  pipe_user me q pi p addr n w T s → held s = ∅ →
  zlen bs = n → (∀ k, 0 ≤ k < n → znth bs k = mbyte (mem s) (user_addr T (addr + k))) →
  let k := Z.min n (PIPESIZE - zlen (content p)) in
  let woken := imap (ProcProps.woken (ChAddr (pi + PIPE_nread)) (Some me)) (procs s) in
  (0 < n → pi_readopen p = false ∨ p_killed q ≠ 0 → pipewrite pi addr n s = Ok (inr (-1), s)) ∧
  (pi_readopen p = true → p_killed q = 0 →
   ∃ p', pipe_ok p' ∧ same_ends p p' ∧ content p' = content p ++ take (Z.to_nat k) bs ∧
     pipewrite pi addr n s =
       if k =? n then Ok (inr n, (setpipe pi p' s) <| procs := woken |>)
       else Ok (inl k, (setpipe pi p' s) <| held := {[LProc me]} |>
         <| procs := <[me := q <| p_chan := ChAddr (pi + PIPE_nwrite) |> <| p_state := SLEEPING |>]> woken |>)).
Proof.
  intros Hu Hh Hl Hbs k woken. pose proof Hu as [Hcur Hq Hlen Hp Hok Hm Hn Har].
  set (s1 := s <| held := {[LPipe pi]} |>).
  assert (pipe_user me q pi p addr n w T s1) as Hu1 by (by destruct Hu).
  unfold pipewrite. mstep acquire_ok; [|rewrite Hh; set_solver].
  replace (s <| held := {[LPipe pi]} ∪ held s |>) with s1 by (unfold s1; rewrite Hh; kst_eq; set_solver).
  unfold pipewrite_from. erewrite (bind_step myproc) by (unfold myproc, gets; reflexivity).
  erewrite bind_step by (by apply opt_ok). rewrite Z.sub_0_r. split.
  - intros Hn0 Hdead. rewrite Nat.add_1_r.
    erewrite bind_step by (by apply loop_inr, (pipewrite_dead me q pi p)). apply Ok_pair. unfold s1. rewrite <-Hh. kst_eq.
  - intros Hro Ha. destruct (pipewrite_fill me q pi addr n w T bs (Z.to_nat n + 1) 0 p s1) as (p' & Hp' & Hs & Hc & E);
      [done|simpl; set_solver|done..|lia|lia|]. rewrite Z.sub_0_r, Z.add_0_l in *. 
    assert (Z.min n (PIPESIZE - pcount p) = k) as Ek by (unfold k; by rewrite zlen_content). rewrite Ek in Hc, E.
    pose proof (po_count _ Hok) as Hk0. change (pcount p ≤ PIPESIZE) in Hk0.
    exists p'. split_and!; [done..|]. replace (Z.to_nat n + 1 - Z.to_nat k)%nat with (S (Z.to_nat n - Z.to_nat k)) in E by lia.
    assert (k < n → pcount p' = PIPESIZE) as Hfull.
    { intros Hlt. rewrite <-zlen_content, Hc, zlen_app, zlen_sub, zlen_content by lia. lia. }
    destruct Hs as [Hs1 Hs2]. rewrite Hro in Hs1.
    pose proof (pipewrite_last me q pi p' addr n k (setpipe pi p' s1) Hcur Hq eq_refl Hlen
      (setpipe_lookup _ _ _) Hp' Hs1 Ha Hfull) as Est.
    destruct (Z.eqb_spec k n) as [Hkn|Hkn], (Z.ltb_spec k n); try lia.
    + erewrite bind_step by (rewrite E; by apply loop_inr). cbv beta iota.
      mstep wakeup_ok; [|done|intros j _; simpl; set_solver]. mstep release_ok; [|simpl; set_solver].
      rewrite Hkn. apply Ok_pair. kst_eq; [by rewrite Hcur|]. rewrite Hh. set_solver.
    + erewrite bind_step by (rewrite E; by apply loop_inr). apply Ok_pair. kst_eq.
Qed.
(** One byte out of a pipe that has one. *)
Lemma piperead_byte me q pi p addr n T s i :
  pipe_user me q pi p addr n true T s → 0 ≤ i < n → 0 < pcount p →
  ∃ c m', content p = c :: content (popped p) ∧ pipe_ok (popped p) ∧ wrote_user T (addr + i) [c] (mem s) m' ∧
    piperead_step me pi addr n i s = Ok (inl (i + 1), (setpipe pi (popped p) s) <| mem := m' |>) ∧
    pipe_user me q pi (popped p) addr n true T ((setpipe pi (popped p) s) <| mem := m' |>).
Proof.
  intros Hu Hi Hc. pose proof Hu as [Hcur Hq Hlen Hp Hok Hm Hn Har].
  destruct (popped_ok p Hok Hc) as (c & Ec & Hok' & Hct).
  destruct (copyout_ok (p_pagetable q) T addr n [c] (addr + i) s) as (m' & E & Hm' & Har' & Hw);
    [done|done|lia|change (zlen [c]) with 1; lia|].
  exists c, m'. split_and!; [done..| |].
  - unfold piperead_step. destruct (Z.ltb_spec i n); [|lia]. cbn [negb]. erewrite bind_step by (by apply getpi_ok).
    rewrite pipe_empty by done. destruct (Z.eqb_spec (pcount p) 0); [lia|].
    erewrite bind_step by (by apply opt_ok). erewrite bind_step by (by apply getp_ok). erewrite pipe_user_addr by done.
    rewrite (bind_step _ _ _ _ _ E). cbn [Z.eqb Z.opp]. erewrite bind_step by (by apply updpi_ok). reflexivity.
  - split; try done. apply setpipe_lookup.
Qed.

Lemma piperead_drain me q pi addr n T fuel i p s :
  pipe_user me q pi p addr n true T s → 0 ≤ i ≤ n → n - i < Z.of_nat fuel →
  let k := Z.min (n - i) (pcount p) in
  ∃ p' m', pipe_ok p' ∧ same_ends p p' ∧ content p' = drop (Z.to_nat k) (content p) ∧
    wrote_user T (addr + i) (take (Z.to_nat k) (content p)) (mem s) m' ∧
    loop fuel (piperead_step me pi addr n) i s = Ok (i + k, (setpipe pi p' s) <| mem := m' |>).
Proof.
  revert i p s. induction fuel as [|fuel IH]; intros i p s Hu Hi Hf k; [lia|].
  pose proof Hu as [Hcur Hq Hlen Hp Hok Hm Hn Har]. pose proof (pcount_bound p) as Hb.
  destruct (decide (k = 0)) as [Hk|Hk].
  { exists p, (mem s). rewrite Hk, Z.add_0_r. split_and!; [done..| |].
    - split; [intros j; change (zlen _) with 0; lia|done].
    - rewrite setpipe_same by done. replace (s <| mem := mem s |>) with s by (by destruct s). apply loop_inr.
      unfold piperead_step. destruct (Z.ltb_spec i n); [|done]. cbn [negb]. erewrite bind_step by (by apply getpi_ok).
      rewrite pipe_empty by done. by destruct (Z.eqb_spec (pcount p) 0); [|lia]. }
  destruct (piperead_byte me q pi p addr n T s i) as (c & m1 & Hct & Hok1 & Hw1 & E1 & Hu1); [done|lia|lia|].
  assert (pcount (popped p) = pcount p - 1) as Epc.
  { rewrite <-(zlen_content p), Hct, <-zlen_content. unfold zlen. simpl. lia. }
  destruct (IH (i + 1) (popped p) ((setpipe pi (popped p) s) <| mem := m1 |>)) as (p' & m' & Hok' & Hse & Hc' & Hw' & E');
    [done|lia|lia|]. rewrite Epc in *.
  replace (Z.to_nat k) with (S (Z.to_nat (Z.min (n - (i + 1)) (pcount p - 1)))) by lia.
  exists p', m'. rewrite Hct. cbn [take drop firstn skipn]. split_and!; [done|destruct Hse; done|done| |].
  - apply (wrote_user_app T (addr + i) [c] _ (mem s) m1).
    + intros j l Hj Hl Eq. cut (addr + i + j = addr + i + l); [lia|].
      assert (zlen ([c] ++ take (Z.to_nat (Z.min (n - (i + 1)) (pcount p - 1))) (content (popped p))) ≤ k) as Hlen'.
      { rewrite zlen_app. change (zlen [c]) with 1. unfold zlen. rewrite length_take. lia. }
      apply (user_addr_inj (mem s) (p_pagetable q) addr n true T); [done|done|lia|lia|done].
    + done.
    + change (zlen [c]) with 1. replace (addr + i + 1) with (addr + (i + 1)) by lia. exact Hw'.
  - rewrite (loop_inl _ _ _ _ _ _ E1), E'. f_equal. f_equal; [lia|]. kst_eq.
    unfold upd, upd_fs_pipe. simpl. by rewrite insert_insert_eq.
Qed.

(** C33. Reading from a pipe takes from the front of the queue. From an empty pipe
    that can still be written the call goes to sleep on [nread] with the lock
    released (or returns -1 for a killed process, nothing changed); otherwise it
    returns the number of bytes it took, at most [n], having copied exactly
    those that were written first, in order, to the user's memory and to no
    other place, and wakes the writers up; 0 is the end of the file. *)
Theorem piperead_takes me q pi p addr n T s :
  pipe_user me q pi p addr n true T s → held s = ∅ →
  let k := Z.min n (zlen (content p)) in
  let woken := imap (ProcProps.woken (ChAddr (pi + PIPE_nwrite)) (Some me)) (procs s) in
  (content p = [] → pi_writeopen p = true →
     piperead pi addr n s =
       if p_killed q =? 0 then Ok (None, s <| held := {[LProc me]} |>
         <| procs := <[me := q <| p_chan := ChAddr (pi + PIPE_nread) |> <| p_state := SLEEPING |>]> (procs s) |>)
       else Ok (Some (-1), s)) ∧
  (content p ≠ [] ∨ pi_writeopen p = false →
   ∃ p' m', pipe_ok p' ∧ same_ends p p' ∧ content p' = drop (Z.to_nat k) (content p) ∧
     wrote_user T addr (take (Z.to_nat k) (content p)) (mem s) m' ∧
     piperead pi addr n s = Ok (Some k, (setpipe pi p' s) <| mem := m' |> <| procs := woken |>)).
Proof.
  intros Hu Hh k woken. pose proof Hu as [Hcur Hq Hlen Hp Hok Hm Hn Har].
  set (s1 := s <| held := {[LPipe pi]} |>).
  assert (pipe_user me q pi p addr n true T s1) as Hu1 by (by destruct Hu).
  unfold piperead. mstep acquire_ok; [|rewrite Hh; set_solver].
  replace (s <| held := {[LPipe pi]} ∪ held s |>) with s1 by (unfold s1; rewrite Hh; kst_eq; set_solver).
  unfold piperead_from. erewrite (bind_step myproc) by (unfold myproc, gets; reflexivity).
  erewrite bind_step by (by apply opt_ok). erewrite bind_step by (by apply getpi_ok).
  rewrite pipe_empty by done. pose proof (zlen_content p) as Hzc. split.
  - intros Hemp Hwo. rewrite Hemp in Hzc. change (zlen []) with 0 in Hzc. rewrite <-Hzc, Hwo. cbn [Z.eqb andb].
    erewrite bind_step by (apply killed_ok; [simpl; set_solver|done]). destruct (Z.eqb_spec (p_killed q) 0); cbn [negb].
    + erewrite bind_step by (by apply sleep_off_ok). apply Ok_pair. kst_eq.
    + mstep release_ok; [|simpl; set_solver]. apply Ok_pair. kst_eq. rewrite Hh. set_solver.
  - intros Hcase. assert ((pcount p =? 0) && pi_writeopen p = false) as ->.
    { destruct (Z.eqb_spec (pcount p) 0); [|done]. destruct Hcase as [[]|]; [|done].
      destruct (content p); [done|]. unfold zlen in Hzc. simpl in Hzc. lia. }
    destruct (piperead_drain me q pi addr n T (Z.to_nat n + 1) 0 p s1) as (p' & m' & Hp' & Hs & Hc & Hw & E); [done|lia|lia|].
    rewrite Z.sub_0_r, Z.add_0_r, Z.add_0_l in *. rewrite <-Hzc in *. fold k in Hc, Hw, E. exists p', m'. split_and!; [done..|].
    rewrite (bind_step _ _ _ _ _ E). mstep wakeup_ok; [|done|intros j _; simpl; set_solver].
    mstep release_ok; [|simpl; set_solver]. apply Ok_pair. kst_eq; [by rewrite Hcur|]. rewrite Hh. set_solver.
Qed.

(** Translating the address of a page that is in a swap slot, with a spinlock held. *)
Lemma walkaddr_locked s h me q va pte e slot pg0 pa l :
  swap_inv s → cur_ok s → kmem_inv s (pa :: l) → swapped_out s me va pte e slot pg0 → procs s !! me = Some q →
  (∀ mode b, znth (slot_raid_mode s) slot = Some mode → 0 ≤ b < 4 → bs_sleeps false (data_block mode slot b) (bdev s) = true) →
  va < MAXVA → pg pte ≠ pa → h ≠ ∅ → LSched ∉ h → LKmem ∉ h → (∀ i, LProc i ∉ h) →
  walkaddr (p_pagetable q) va (s <| held := h |>) = Panic "sched locks".
Proof.
  intros Hinv Hc Hk [(q' & Hq & Hw) Hpte He Hslot _ [mode [Hm1 Hm2 _ _]]] Hq' Hsl Hva Hne Hh0 Hh1 Hh2 Hh3.
  assert (q' = q) as -> by congruence. unfold walkaddr. destruct (Z.leb_spec MAXVA va); [lia|].
  set (s0 := s <| held := h |>). assert (kmem_inv s0 (pa :: l)) as Hk0 by (destruct Hk; by split).
  erewrite bind_step by (apply walk_pure; [done|exact Hw]). destruct (Z.eqb_spec pte 0); [done|].
  erewrite bind_step by (by apply load64_ok). destruct (swap_pte_has slot e) as [-> ->].
  pose proof (km_chain _ _ Hk) as (_ & Hp0 & _)%chain_cons_inv. pose proof (si_idle _ Hinv) as [[_ _ Hqu Hhd Hcur] _ Hfr].
  apply bind_panic. erewrite bind_step by (by apply kalloc_ok). destruct (Z.eqb_spec pa 0); [done|].
  set (s1 := allocated s0 pa l). assert (mload64 (mem s1) pte = Some (swap_pte slot e)) as He1.
  { rewrite <-He. apply mload64_page. simpl. by rewrite lookup_insert_ne by congruence. }
  erewrite bind_step by (by apply load64_ok). rewrite swap_pte_slot.
  assert (i32 slot = slot) as -> by (unfold slot_ok in Hslot; apply i32_id; lia).
  apply bind_panic. destruct (my_priority_ok s1) as (prio & Epr & Hpr); [exact Hc|].
  unfold swap_in. mget (cur s1). rewrite (bind_step _ _ _ _ _ Epr). apply bind_panic.
  apply (swap_read_locked s1 slot pa prio mode); try done. intros b Hb. by apply Hsl.
Qed.

(** C40. A pipe does not work with a buffer that has been swapped out:
    [pipewrite] copies from user memory with the pipe's spinlock held, so when
    the page of the next byte is in a swap slot, no block of which the buffer
    cache has at hand (and the process is alive and the pipe has a reader and
    room), the kernel panics in [sched]: the transfer has to sleep. *)
Theorem pipewrite_swapped_panics me q pi p addr n s pte e slot page pa l :
  swap_inv s → cur_ok s → kmem_inv s (pa :: l) → swapped_out s me (PGROUNDDOWN addr) pte e slot page → pg pte ≠ pa →
  (∀ mode b, znth (slot_raid_mode s) slot = Some mode → 0 ≤ b < 4 → bs_sleeps false (data_block mode slot b) (bdev s) = true) →
  cur s = Some me → procs s !! me = Some q → p_killed q = 0 →
  fs_pipe (bdev s) !! pi = Some p → pipe_ok p → pi_readopen p = true → zlen (content p) < PIPESIZE →
  0 < n → 0 ≤ addr < MAXVA →
  pipewrite pi addr n s = Panic "sched locks".
Proof.
  intros Hinv Hc Hk Hso Hne Hsl Hcur Hq Ha Hp Hok Hro Hroom Hn Haddr. rewrite zlen_content in Hroom.
  assert (held s = ∅) as Hh by apply Hinv.
  unfold pipewrite. mstep acquire_ok; [|rewrite Hh; set_solver].
  rewrite Hh, union_empty_r_L. set (s1 := s <| held := {[LPipe pi]} |>).
  unfold pipewrite_from. erewrite (bind_step myproc) by (unfold myproc, gets; reflexivity).
  erewrite bind_step by (by apply opt_ok). apply bind_panic. rewrite Z.sub_0_r, Nat.add_1_r. cbn [loop].
  apply bind_panic. unfold pipewrite_step. destruct (Z.ltb_spec 0 n); [|lia]. cbn [negb].
  erewrite bind_step by (by apply getpi_ok). rewrite Hro. cbn [negb].
  erewrite bind_step; [|erewrite bind_step by (apply killed_ok; [simpl; set_solver|done]); rewrite Ha; reflexivity].
  cbn [Z.eqb negb]. rewrite pipe_full by done. destruct (Z.eqb_spec (pcount p) PIPESIZE); [lia|].
  erewrite bind_step by (by apply getp_ok). apply bind_panic. rewrite Z.add_0_r.
  assert (u64 addr = addr) as -> by (apply wrap_id; lia).
  unfold copyin. change (copy_fuel 1) with 3%nat. cbn [loop]. apply bind_panic. unfold copyin_step. cbn [Z.eqb]. cbv zeta.
  apply bind_panic. unfold user_page. apply bind_panic.
  eapply walkaddr_locked; try done; [|set_solver..]. rewrite PGROUNDDOWN_pg. pose proof (pgoff_bound addr). pose proof (pg_pgoff addr). lia.
Qed.
End pipes.

(** ** A process and a pipe *)

#[local] Existing Instance demo_layout.

(** A pipe with one byte in it, its write counter about to wrap around. *)
Definition demo_pipe : pipe := MkPipe (zset (zrepl PIPESIZE 0) 510 65) 4294967294 4294967295 true true.
Definition pipe_at : Z := upage 9.
Definition demo_fs (c : bcache) : fsst :=
  MkFs (demo_log <| l_bc := c |>) (MkSb FSMAGIC 0 0 0 0 0 0 0) false [] false [] {[ pipe_at := demo_pipe ]}
    (MkCons (zrepl INPUT_BUF_SIZE 0) 0 0 0 []).
Definition pipe_proc : proc := proc0 <| p_state := RUNNING |> <| p_pid := 3 |> <| p_pagetable := upage 4 |>.
Definition with_bdev {D D'} (s : kst D) (d : D') : kst D' :=
  MkK (mem s) (freelist s) (frames s) (swap_space s) (clock_hand s) (disk_policy s)
    (disk_head_pos s) (req_queue s) (stat_reads s) (stat_writes s) (stat_latency_sum s)
    (stat_req_count s) (raid_mode s) (slot_raid_mode s) (parity_buf s) (failed_disk_mask s)
    d (procs s) (initproc s) (nextpid s) (ticks s) (cur s) (held s).
Definition pipe_demo : kst fsst :=
  (with_bdev two_demo (demo_fs (boot_bcache ∅ 1)))
    <| procs := pipe_proc :: replicate 63 proc0 |> <| cur := Some 0%nat |>.

Lemma demo_pipe_ok : pipe_ok demo_pipe.
Proof. split; vm_compute; (reflexivity || split || idtac); (reflexivity || discriminate). Qed.
Lemma pipe_demo_user w n : 0 ≤ n ≤ 100 → pipe_user 0 pipe_proc pipe_at demo_pipe 4094 n w two_T pipe_demo.
Proof.
  intros Hn. split; [reflexivity..|vm_compute; reflexivity|apply demo_pipe_ok|apply two_pages_wf|lia|].
  assert (user_area two_pages (upage 4) 4094 n true two_T) as [H1 H2 H3 H4]
    by (eapply user_area_in; [apply two_area|lia..]).
  split; [done| |done|done]. intros x Hx. destruct (H2 x Hx) as [(pte & e & ?) ? ?].
  split; [|done..]. exists pte, e. naive_solver.
Qed.

Lemma pipewrite_appends_witness :
  ∃ p', content demo_pipe = [65] ∧ content p' = [65; 7; 7; 9; 9] ∧
    pipewrite pipe_at 4094 4 pipe_demo = Ok (inr 4, (setpipe pipe_at p' pipe_demo)
      <| procs := imap (ProcProps.woken (ChAddr (pipe_at + PIPE_nread)) (Some 0%nat)) (procs pipe_demo) |>).
Proof.
  destruct (pipewrite_appends 0 pipe_proc pipe_at demo_pipe 4094 4 true two_T [7; 7; 9; 9] pipe_demo) as [_ H].
  - apply pipe_demo_user. lia.
  - reflexivity.
  - reflexivity.
  - intros k Hk. assert (k = 0 ∨ k = 1 ∨ k = 2 ∨ k = 3) as [->|[->|[->| ->]]] by lia; vm_compute; reflexivity.
  - destruct H as (p' & _ & _ & Hc & E); [reflexivity..|]. exists p'.
    split; [vm_compute; reflexivity|]. split; [rewrite Hc; vm_compute; reflexivity|]. exact E.
Defined.

Lemma piperead_takes_witness :
  ∃ p' m', content p' = [] ∧ mbyte m' (user_addr two_T 4094) = Some 65 ∧
    piperead pipe_at 4094 10 pipe_demo = Ok (Some 1, (setpipe pipe_at p' pipe_demo) <| mem := m' |>
      <| procs := imap (ProcProps.woken (ChAddr (pipe_at + PIPE_nwrite)) (Some 0%nat)) (procs pipe_demo) |>).
Proof.
  destruct (piperead_takes 0 pipe_proc pipe_at demo_pipe 4094 10 two_T pipe_demo) as [_ H].
  - apply pipe_demo_user. lia.
  - reflexivity.
  - assert (content demo_pipe = [65]) as Ec by (vm_compute; reflexivity).
    destruct H as (p' & m' & _ & _ & Hc & [Hw _] & E); [left; rewrite Ec; discriminate|].
    exists p', m'. rewrite Ec in Hc, Hw, E. split; [rewrite Hc; reflexivity|]. split; [|exact E].
    apply (Hw 0). vm_compute. split; [discriminate|reflexivity].
Defined.

(** The process of [fault_demo], whose only page is in slot 0, writing to the pipe. *)
Definition pipe_fault_demo : kst fsst := with_bdev fault_demo (demo_fs (boot_bcache fault_disk 1)).

Lemma with_bdev_swap_inv (s : kst bcache) (d : fsst) : swap_inv s → bdev s = l_bc (fs_log d) → swap_inv (with_bdev s d).
Proof.
  intros [[[? Hb]] ] E. split; [split; [split|..]|..]; try done. cbn [bs_inv fs_store_laws]. simpl. by rewrite <-E.
Qed.

Lemma pipewrite_swapped_panics_witness : pipewrite pipe_at 8 4 pipe_fault_demo = Panic "sched locks".
Proof.
  apply (pipewrite_swapped_panics 0 swap_proc pipe_at demo_pipe 8 4 pipe_fault_demo (demo_pt 0) demo_entry 0 demo_page kend []).
  - apply with_bdev_swap_inv; [apply fault_demo_inv|reflexivity].
  - intros i [= <-]. exists swap_proc. split; [reflexivity|]. simpl. lia.
  - apply one_free_page; [apply fault_mem_wf|reflexivity|vm_compute; reflexivity|vm_compute; discriminate|vm_compute; reflexivity].
  - apply in_slot_0; vm_compute; reflexivity.
  - discriminate.
  - intros mode b Hmode Hb. assert (mode = 0) as -> by (vm_compute in Hmode; congruence).
    assert (b = 0 ∨ b = 1 ∨ b = 2 ∨ b = 3) as [->|[->|[->| ->]]] by lia; vm_compute; reflexivity.
  - reflexivity.
  - reflexivity.
  - reflexivity.
  - vm_compute. reflexivity.
  - apply demo_pipe_ok.
  - reflexivity.
  - vm_compute. reflexivity.
  - lia.
  - lia.
Defined.
