(* ===== verification/Grep.v ===== *)
(** * grep

    Models [user/grep.c]: the matcher of Kernighan and Pike over the operators
    [^ . * $], and the loop that reads a file in pieces and prints the lines that
    match. A [char *] is what there is in memory from where it points: reading
    past the end of it is an error of the model. The theorems say which language
    a pattern stands for, and that [grep] prints the lines in it, however [read]
    cuts the file up. *)

From stdpp Require Import base numbers list strings.
From S2P Require Import Prelude.
Open Scope Z_scope.
Open Scope kernel_scope.

Definition CARET : Z := 94.
Definition DOT : Z := 46.
Definition STAR : Z := 42.
Definition DOLLAR : Z := 36.
Definition NL : Z := 10.

(** ** The matcher *)

(** [matchstar(c, re, text)], given what [matchhere(re, .)] does. *)
Fixpoint matchstar (here : list Z → option bool) (c : Z) (text : list Z) : option bool :=
  r ← here text;
  if (r : bool) then Some true else
  match text with
  | [] => None
  | x :: text' => if negb (x =? 0) && ((x =? c) || (c =? DOT)) then matchstar here c text' else Some false
  end.

Fixpoint matchhere (re text : list Z) : option bool :=
  match re with
  | [] => None
  | c :: re1 =>
      if c =? 0 then Some true else
      match re1 with
      | [] => None
      | c1 :: re2 =>
          if c1 =? STAR then matchstar (matchhere re2) c text else
          match text with
          | [] => None
          | x :: text' =>
              if (c =? DOLLAR) && (c1 =? 0) then Some (x =? 0) else
              if negb (x =? 0) && ((c =? DOT) || (c =? x)) then matchhere re1 text' else Some false
          end
      end
  end.

(** The loop of [match]. *)
Fixpoint match_from (re text : list Z) : option bool :=
  r ← matchhere re text;
  if (r : bool) then Some true else
  match text with
  | [] => None
  | x :: text' => if x =? 0 then Some false else match_from re text'
  end.
Definition match_ (re text : list Z) : option bool :=
  c ← head re;
  if c =? CARET then matchhere (tail re) text else match_from re text.

(** ** Patterns *)

(** A pattern: anchored at the start, its characters, each once or any number of
    times, anchored at the end. *)
Record pattern := MkPat { pt_bol : bool; pt_items : list (Z * bool); pt_eol : bool }.

Fixpoint parse_items (r : list Z) : list (Z * bool) * bool :=
  match r with
  | [] => ([], false)
  | c :: r1 =>
      match r1 with
      | [] => if c =? DOLLAR then ([], true) else ([(c, false)], false)
      | c1 :: r2 => if c1 =? STAR then let '(l, e) := parse_items r2 in ((c, true) :: l, e)
                    else let '(l, e) := parse_items r1 in ((c, false) :: l, e)
      end
  end.
Definition parse (r : list Z) : pattern :=
  match r with
  | c :: r' => if c =? CARET then MkPat true (parse_items r').1 (parse_items r').2 else MkPat false (parse_items r).1 (parse_items r).2
  | [] => MkPat false [] false
  end.

(** [.] stands for any character. *)
Definition covers (c x : Z) : Prop := c = DOT ∨ c = x.
(** The words of a sequence of characters, some of them starred. *)
Inductive lang : list (Z * bool) → list Z → Prop :=
| lang_nil : lang [] []
| lang_one c x p u : covers c x → lang p u → lang ((c, false) :: p) (x :: u)
| lang_done c p u : lang p u → lang ((c, true) :: p) u
| lang_more c x p u : covers c x → lang ((c, true) :: p) u → lang ((c, true) :: p) (x :: u).

(** A line matches if a part of it is a word of the pattern. *)
Definition matches (p : pattern) (text : list Z) : Prop :=
  ∃ a u b, text = a ++ u ++ b ∧ lang (pt_items p) u ∧ (pt_bol p = true → a = []) ∧ (pt_eol p = true → b = []).

(** A C string: characters up to the first NUL. *)
Definition no_nul (l : list Z) : Prop := 0 ∉ l.

Definition here_spec (l : list (Z * bool) * bool) (text : list Z) : Prop :=
  ∃ u b, text = u ++ b ∧ lang l.1 u ∧ (l.2 = true → b = []).

(** ** The matcher decides the language *)

Lemma covers_spec c x : (c =? DOT) || (c =? x) = true ↔ covers c x.
Proof. unfold covers. rewrite orb_true_iff, !Z.eqb_eq. done. Qed.

Lemma matchstar_ok here (P : list Z → Prop) c j text : no_nul text →
  (∀ t, no_nul t → ∃ b, here (t ++ 0 :: j) = Some b ∧ (b = true ↔ P t)) →
  ∃ b, matchstar here c (text ++ 0 :: j) = Some b ∧ (b = true ↔ ∃ u v, text = u ++ v ∧ Forall (covers c) u ∧ P v).
Proof.
  intros Hn Hh. induction text as [|x text IH].
  - destruct (Hh [] Hn) as ([] & E & Hb); simpl in E |- *; rewrite E; simpl.
    + exists true. split; [done|]. split; [intros _; exists [], []; by rewrite <-Hb|done].
    + exists false. split; [done|]. split; [done|]. intros (u & v & Euv & _ & Hv). symmetry in Euv. apply app_nil in Euv as [-> ->]. by apply Hb.
  - destruct (Hh _ Hn) as (b & E & Hb). apply not_elem_of_cons in Hn as [Hx Hn]. simpl in E. simpl. rewrite E. simpl. destruct b.
    + exists true. split; [done|]. split; [intros _; exists [], (x :: text); by rewrite <-Hb|done].
    + destruct (Z.eqb_spec x 0) as [->|_]; [done|]. cbn [negb andb]. rewrite orb_comm, (Z.eqb_sym x c).
      destruct ((c =? DOT) || (c =? x)) eqn:Ec.
      * apply covers_spec in Ec. destruct (IH Hn) as (b & E' & Hb'). exists b. split; [done|]. rewrite Hb'. split.
        -- intros (u & v & -> & Hu & Hv). exists (x :: u), v. split; [done|]. split; [by constructor|done].
        -- intros (u & v & Euv & Hu & Hv). destruct u as [|y u]; [simpl in Euv; subst v; by apply Hb in Hv|].
           injection Euv as <- ->. inversion Hu. by exists u, v.
      * exists false. split; [done|]. split; [done|]. intros (u & v & Euv & Hu & Hv). destruct u as [|y u]; [simpl in Euv; subst v; by apply Hb|].
        injection Euv as <- ->. inversion Hu as [|? ? Hc]; subst. apply covers_spec in Hc. by rewrite Ec in Hc.
Qed.

Lemma lang_star c p w : lang ((c, true) :: p) w ↔ ∃ u v, w = u ++ v ∧ Forall (covers c) u ∧ lang p v.
Proof.
  split.
  - intros H. remember ((c, true) :: p) as q eqn:Eq. revert Eq. induction H as [| |c' p' u H _|c' x p' u Hc H IH]; intros Eq; simplify_eq.
    + exists [], u. by split_and!.
    + destruct (IH eq_refl) as (u' & v & -> & Hu & Hv). exists (x :: u'), v. split; [done|]. split; [by constructor|done].
  - intros (u & v & -> & Hu & Hv). induction Hu; simpl; [by constructor|by constructor].
Qed.

Lemma here_star c l e text : here_spec ((c, true) :: l, e) text ↔ ∃ u v, text = u ++ v ∧ Forall (covers c) u ∧ here_spec (l, e) v.
Proof.
  unfold here_spec. simpl. split.
  - intros (w & b & -> & (u & v & -> & Hu & Hv)%lang_star & Hb). exists u, (v ++ b). split; [by rewrite app_assoc|]. split; [done|]. by exists v, b.
  - intros (u & v & -> & Hu & (w & b & -> & Hw & Hb)). exists (u ++ w), b. split; [by rewrite app_assoc|]. split; [|done]. apply lang_star. by exists u, w.
Qed.
Lemma here_one c l e x text : here_spec ((c, false) :: l, e) (x :: text) ↔ covers c x ∧ here_spec (l, e) text.
Proof.
  unfold here_spec. simpl. split.
  - intros (w & b & Ew & Hw & Hb). inversion Hw as [|? y ? u Hc Hu| |]; subst. injection Ew as <- ->. split; [done|]. by exists u, b.
  - intros (Hc & u & b & -> & Hu & Hb). exists (x :: u), b. split; [done|]. split; [by constructor|done].
Qed.
Lemma here_one_nil c l e : ¬ here_spec ((c, false) :: l, e) [].
Proof. intros (w & b & Ew & Hw & _). inversion Hw; subst. done. Qed.

(** One character, and then what [R] matches. *)
Lemma match_one c R l e j' text : no_nul text →
  (∀ t, no_nul t → ∃ b, matchhere R (t ++ 0 :: j') = Some b ∧ (b = true ↔ here_spec (l, e) t)) →
  ∃ x t', text ++ 0 :: j' = x :: t' ∧ (x = 0 ↔ text = []) ∧
    ∃ b, (if negb (x =? 0) && ((c =? DOT) || (c =? x)) then matchhere R t' else Some false) = Some b ∧
      (b = true ↔ here_spec ((c, false) :: l, e) text).
Proof.
  intros Ht HR. destruct text as [|x text]; simpl.
  - exists 0, j'. split; [done|]. split; [done|]. exists false. split; [done|]. split; [done|]. by intros H%here_one_nil.
  - apply not_elem_of_cons in Ht as [Hx Ht]. exists x, (text ++ 0 :: j'). split; [done|]. split; [by split; [intros ->|]|].
    destruct (Z.eqb_spec x 0) as [->|_]; [done|]. cbn [negb andb].
    pose proof (here_one c l e x text) as Hone. rewrite <-covers_spec in Hone.
    destruct ((c =? DOT) || (c =? x)); [|exists false; naive_solver].
    destruct (HR text Ht) as (b & E & Hb). exists b. split; [done|]. rewrite Hb, Hone. naive_solver.
Qed.

Lemma parse_items_cons c c1 r : parse_items (c :: c1 :: r) =
  if c1 =? STAR then let '(l, e) := parse_items r in ((c, true) :: l, e) else let '(l, e) := parse_items (c1 :: r) in ((c, false) :: l, e).
Proof. done. Qed.

Lemma matchhere_ok j j' n re text : (length re < n)%nat → no_nul re → no_nul text →
  ∃ b, matchhere (re ++ 0 :: j) (text ++ 0 :: j') = Some b ∧ (b = true ↔ here_spec (parse_items re) text).
Proof.
  revert re text. induction n as [|n IH]; intros re text Hlen Hre Ht; [lia|].
  destruct re as [|c re1]; [exists true; split; [done|]; split; [intros _; exists [], text; split_and!; [done|constructor|done]|done]|].
  apply not_elem_of_cons in Hre as [Hc Hre]. simpl in Hlen. cbn [app matchhere]. destruct (Z.eqb_spec c 0) as [->|_]; [done|].
  destruct re1 as [|c1 re2].
  - cbn [app]. change (0 =? STAR) with false. cbn [Z.eqb andb].
    destruct (match_one c (0 :: j) [] false j' text Ht) as (x & t' & -> & Hx & b & E & Hb).
    { intros t Hn. exists true. split; [done|]. split; [intros _; exists [], t; split_and!; [done|constructor|done]|done]. }
    rewrite andb_true_r. cbn [parse_items]. destruct (Z.eqb_spec c DOLLAR) as [->|_]; [|by exists b].
    exists (x =? 0). split; [done|]. rewrite Z.eqb_eq, Hx. split.
    + intros ->. exists [], []. split_and!; [done|constructor|done].
    + intros (u & v & -> & Hu & Hv). inversion Hu; subst. by rewrite Hv.
  - apply not_elem_of_cons in Hre as [Hc1 Hre]. simpl in Hlen. rewrite parse_items_cons. cbn [app]. destruct (Z.eqb_spec c1 STAR) as [->|_].
    + destruct (matchstar_ok (matchhere (re2 ++ 0 :: j)) (here_spec (parse_items re2)) c j' text Ht) as (b & E & Hb).
      { intros t Hn. apply IH; [lia|done|done]. }
      exists b. split; [done|]. rewrite Hb. destruct (parse_items re2) as [l e]. by rewrite here_star.
    + destruct (Z.eqb_spec c1 0) as [->|_]; [done|]. rewrite andb_false_r.
      destruct (parse_items (c1 :: re2)) as [l e] eqn:Ep.
      destruct (match_one c (c1 :: re2 ++ 0 :: j) l e j' text Ht) as (x & t' & -> & Hx & b & E & Hb); [|exists b; split; [exact E|exact Hb]].
      intros t Hn. rewrite <-Ep. apply (IH (c1 :: re2)); [simpl; lia|by apply not_elem_of_cons|done].
Qed.

Lemma match_from_ok j j' re text : no_nul re → no_nul text →
  ∃ b, match_from (re ++ 0 :: j) (text ++ 0 :: j') = Some b ∧ (b = true ↔ ∃ a v, text = a ++ v ∧ here_spec (parse_items re) v).
Proof.
  intros Hre. induction text as [|x text IH]; intros Ht;
    destruct (matchhere_ok j j' _ re _ (Nat.lt_succ_diag_r _) Hre Ht) as ([] & E & Hb); simpl in E |- *; rewrite E; simpl.
  - exists true. split; [done|]. split; [intros _; exists [], []; by rewrite <-Hb|done].
  - exists false. split; [done|]. split; [done|]. intros (a & v & Ea & Hv). symmetry in Ea. apply app_nil in Ea as [-> ->]. by apply Hb.
  - exists true. split; [done|]. split; [intros _; exists [], (x :: text); by rewrite <-Hb|done].
  - apply not_elem_of_cons in Ht as [Hx Ht]. destruct (Z.eqb_spec x 0) as [->|_]; [done|]. destruct (IH Ht) as (b & E' & Hb').
    exists b. split; [done|]. rewrite Hb'. split.
    + intros (a & v & -> & Hv). by exists (x :: a), v.
    + intros (a & v & Ea & Hv). destruct a as [|y a]; [simpl in Ea; subst v; by apply Hb in Hv|]. injection Ea as <- ->. by exists a, v.
Qed.

Lemma match_reads re text j j' : no_nul re → no_nul text →
  ∃ b, match_ (re ++ 0 :: j) (text ++ 0 :: j') = Some b ∧ (b = true ↔ matches (parse re) text).
Proof.
  intros Hre Ht. unfold match_. destruct re as [|c re].
  - simpl. destruct (match_from_ok j j' [] text Hre Ht) as (b & E & Hb). exists b. split; [done|]. rewrite Hb. unfold matches, here_spec. simpl. split.
    + intros (a & v & -> & u & w & -> & Hu & Hw). by exists a, u, w.
    + intros (a & u & w & -> & Hu & _ & Hw). exists a, (u ++ w). split; [done|]. by exists u, w.
  - simpl. destruct (Z.eqb_spec c CARET) as [->|Hc]; simpl.
    + apply not_elem_of_cons in Hre as [_ Hre]. destruct (matchhere_ok j j' _ re text (Nat.lt_succ_diag_r _) Hre Ht) as (b & E & Hb).
      exists b. split; [done|]. rewrite Hb. unfold matches, here_spec. simpl. split.
      * intros (u & w & -> & Hu & Hw). by exists [], u, w.
      * intros (a & u & w & -> & Hu & Ha & Hw). rewrite Ha by done. by exists u, w.
    + destruct (match_from_ok j j' (c :: re) text Hre Ht) as (b & E & Hb). exists b. split; [exact E|]. rewrite Hb. unfold matches, here_spec.
      cbn [pt_items pt_bol pt_eol]. split.
      * intros (a & v & -> & u & w & -> & Hu & Hw). by exists a, u, w.
      * intros (a & u & w & -> & Hu & _ & Hw). exists a, (u ++ w). split; [done|]. by exists u, w.
Qed.

(** C29. [match] decides the language of the pattern. On C strings it returns, 1
    if some part of the line is a word of the pattern (at the start of the line
    after [^], up to its end before [$]) and 0 if none is, reading neither string
    past its NUL. *)
Theorem match_decides re text j j' : no_nul re → no_nul text →
  ∃ b, match_ (re ++ 0 :: j) (text ++ 0 :: j') = Some b ∧ (b = true ↔ matches (parse re) text).
Proof. apply match_reads. Qed.

(** ["^a.*c$"] and ["abbc"]. *)
Lemma match_decides_witness : match_ [94; 97; 46; 42; 99; 36; 0] [97; 98; 98; 99; 0] = Some true ∧ matches (parse [94; 97; 46; 42; 99; 36]) [97; 98; 98; 99].
Proof.
  destruct (match_decides [94; 97; 46; 42; 99; 36] [97; 98; 98; 99] [] []) as (b & E & Hb).
  - unfold no_nul. intros H. by repeat (apply elem_of_cons in H as [H|H]; [done|]); apply not_elem_of_nil in H.
  - unfold no_nul. intros H. by repeat (apply elem_of_cons in H as [H|H]; [done|]); apply not_elem_of_nil in H.
  - assert (b = true) as -> by (vm_compute in E; congruence). split; [exact E|by apply Hb].
Defined.

(** ** The loop over a file *)

(** [strchr(s, c)] of [user/ulib.c]: how far from [s], if there is one before the
    NUL. *)
Fixpoint strchr (s : list Z) (c : Z) : option (option Z) :=
  match s with
  | [] => None
  | x :: s' =>
      if x =? 0 then Some None else if x =? c then Some (Some 0) else
      r ← strchr s' c; Some (option_map Z.succ r)
  end.

Definition BUFSIZE : Z := 1024.

Section grep.
(** What the system calls do to the world [S]: [read] gives the bytes it has put
    into the buffer, or nothing for an error. *)
Context {S : Type} (read : Z → Z → M S (option (list Z))) (write : Z → list Z → M S unit).

(** A turn of the inner loop: the next line of the buffer, from [p]. *)
Definition grep_line (pat : list Z) (x : list Z * Z) : M S ((list Z * Z) + (list Z * Z)) :=
  let '(buf, p) := x in
  r ← opt (strchr (drop (Z.to_nat p) buf) NL);
  match r with
  | None => mret (inr (buf, p))
  | Some k =>
      let q := p + k in
      let buf := zset buf q 0 in
      b ← opt (match_ pat (drop (Z.to_nat p) buf));
      if (b : bool) then
        let buf := zset buf q NL in
        write 1 (sub p (q + 1 - p) buf) ;; mret (inl (buf, q + 1))
      else mret (inl (buf, q + 1))
  end.

(** A turn of the outer loop: the next piece of the file, [m] bytes being left of
    the previous one. A turn of the inner loop uses up a byte of the buffer. *)
Definition grep_piece (pat : list Z) (fd : Z) (x : list Z * Z) : M S ((list Z * Z) + unit) :=
  let '(buf, m) := x in
  r ← read fd (i32 (BUFSIZE - m - 1));
  match r with
  | None => mret (inr tt)
  | Some [] => mret (inr tt)
  | Some bs =>
      let buf := splice m bs buf in
      let m := m + zlen bs in
      let buf := zset buf m 0 in
      r ← loop (Datatypes.S (Z.to_nat BUFSIZE)) (grep_line pat) (buf, 0);
      let '(buf, p) := r in
      if 0 <? m then
        let m' := m - p in
        mret (inl (splice 0 (sub p m' buf) buf, m'))
      else mret (inl (buf, m))
  end.
Definition grep (fuel : nat) (pat : list Z) (fd : Z) (buf : list Z) : M S unit := loop fuel (grep_piece pat fd) (buf, 0).
End grep.

(** ** What is printed *)

(** The complete lines of a text, without their newlines, and what follows. *)
Fixpoint cut (l : list Z) : list (list Z) * list Z :=
  match l with
  | [] => ([], [])
  | x :: l' =>
      let '(ls, r) := cut l' in
      if x =? NL then ([] :: ls, r) else
      match ls with [] => ([], x :: r) | a :: ls' => ((x :: a) :: ls', r) end
  end.
Definition printed (P : list Z → bool) (ls : list (list Z)) : list Z := mjoin ((λ l, l ++ [NL]) <$> List.filter P ls).

Lemma cut_line a b : NL ∉ a → cut (a ++ NL :: b) = (a :: (cut b).1, (cut b).2).
Proof.
  induction a as [|x a IH]; intros Ha; simpl.
  - by destruct (cut b).
  - apply not_elem_of_cons in Ha as [Hx Ha]. rewrite IH by done. destruct (Z.eqb_spec x NL); [by subst|done].
Qed.
Lemma cut_rest a : NL ∉ a → cut a = ([], a).
Proof.
  induction a as [|x a IH]; intros Ha; simpl; [done|]. apply not_elem_of_cons in Ha as [Hx Ha]. rewrite IH by done.
  destruct (Z.eqb_spec x NL); [by subst|done].
Qed.
Lemma cut_ind (P : list Z → Prop) : (∀ a, NL ∉ a → P a) → (∀ a b, NL ∉ a → P b → P (a ++ NL :: b)) → ∀ l, P l.
Proof.
  intros H1 H2 l. remember (length l) as n eqn:En. revert l En. induction (lt_wf n) as [n _ IH]. intros l ->.
  destruct (decide (NL ∈ l)) as [Hin|]; [|by apply H1].
  apply list_elem_of_split_l in Hin as (a & b & -> & Ha). apply H2; [done|]. eapply IH; [|reflexivity]. rewrite length_app. simpl. lia.
Qed.
Lemma cut_app l d : (cut (l ++ d)).1 = (cut l).1 ++ (cut ((cut l).2 ++ d)).1.
Proof.
  induction l as [a Ha|a b Ha IH] using cut_ind; [by rewrite (cut_rest a)|].
  rewrite <-app_assoc. simpl. rewrite !cut_line by done. simpl. by rewrite IH.
Qed.
Lemma cut_rest_free l : NL ∉ (cut l).2.
Proof. induction l as [a Ha|a b Ha IH] using cut_ind; [by rewrite cut_rest|]. by rewrite cut_line. Qed.
Lemma cut_length l : (length (cut l).2 ≤ length l)%nat.
Proof. induction l as [a Ha|a b Ha IH] using cut_ind; [by rewrite cut_rest|]. rewrite cut_line by done. rewrite length_app. simpl in *. lia. Qed.
Lemma printed_app P l1 l2 : printed P (l1 ++ l2) = printed P l1 ++ printed P l2.
Proof. unfold printed. by rewrite List.filter_app, fmap_app, join_app. Qed.

Lemma strchr_none c z : NL ∉ c → no_nul c → strchr (c ++ 0 :: z) NL = Some None.
Proof.
  induction c as [|x c IH]; [done|]. intros [H1 Hc]%not_elem_of_cons [H2 Hn]%not_elem_of_cons. simpl.
  destruct (Z.eqb_spec x 0); [by subst|]. destruct (Z.eqb_spec x NL); [by subst|]. by rewrite IH.
Qed.
Lemma strchr_some a b : NL ∉ a → no_nul a → strchr (a ++ NL :: b) NL = Some (Some (zlen a)).
Proof.
  induction a as [|x a IH]; [done|]. intros [H1 Hc]%not_elem_of_cons [H2 Hn]%not_elem_of_cons. simpl.
  destruct (Z.eqb_spec x 0); [by subst|]. destruct (Z.eqb_spec x NL); [by subst|]. rewrite IH by done. simpl. do 2 f_equal. unfold zlen. simpl. lia.
Qed.

Lemma drop_zset p (buf a : list Z) x y t : 0 ≤ p → drop (Z.to_nat p) buf = a ++ y :: t → drop (Z.to_nat p) (zset buf (p + zlen a) x) = a ++ x :: t.
Proof.
  intros Hp E. unfold zset, zlen. replace (Z.to_nat (p + Z.of_nat (length a))) with (Z.to_nat p + length a)%nat by lia.
  rewrite drop_insert_ge by lia. rewrite E. replace (Z.to_nat p + length a - Z.to_nat p)%nat with (length a + 0)%nat by lia.
  by rewrite insert_app_r.
Qed.
Lemma drop_further p (buf a : list Z) y t : 0 ≤ p → drop (Z.to_nat p) buf = a ++ y :: t → drop (Z.to_nat (p + zlen a + 1)) buf = t.
Proof.
  intros Hp E. unfold zlen. replace (Z.to_nat (p + Z.of_nat (length a) + 1)) with (Z.to_nat p + length (a ++ [y]))%nat by (rewrite length_app; simpl; lia).
  rewrite <-drop_drop, E. replace (a ++ y :: t) with ((a ++ [y]) ++ t) by (by rewrite <-app_assoc). apply drop_app_length.
Qed.

Section io.
Context {S : Type} (read : Z → Z → M S (option (list Z))) (write : Z → list Z → M S unit).
(** What is still to be read from file [fd], and what has been written to the
    standard output. *)
Context (fd : Z) (inp out : S → list Z).
(** [read] gives some of the bytes that follow, at most as many as it is asked
    for, and none only at the end of the file; [write] takes all it is given. *)
Context (read_spec : ∀ n s, 0 ≤ n → ∃ bs s', read fd n s = Ok (Some bs, s') ∧ inp s = bs ++ inp s' ∧ out s' = out s ∧
  zlen bs ≤ n ∧ (bs = [] → n = 0 ∨ inp s = [])).
Context (write_spec : ∀ bs s, ∃ s', write 1 bs s = Ok (tt, s') ∧ inp s' = inp s ∧ out s' = out s ++ bs).
Context (re j : list Z) (re_ok : no_nul re) (P : list Z → bool) (P_ok : ∀ l, no_nul l → P l = true ↔ matches (parse re) l).

Lemma match_line l t : no_nul l → match_ (re ++ 0 :: j) (l ++ 0 :: t) = Some (P l).
Proof using re_ok P_ok.
  intros Hl. destruct (match_reads re l j t re_ok Hl) as (b & -> & Hb). f_equal. apply eq_true_iff_eq. by rewrite Hb, P_ok.
Qed.

Lemma grep_lines c z : no_nul c → ∀ fuel p buf s, 0 ≤ p → drop (Z.to_nat p) buf = c ++ 0 :: z → (length c < fuel)%nat →
  ∃ buf' s', loop fuel (grep_line write (re ++ 0 :: j)) (buf, p) s = Ok ((buf', p + zlen c - zlen (cut c).2), s') ∧ zlen buf' = zlen buf ∧
    drop (Z.to_nat (p + zlen c - zlen (cut c).2)) buf' = (cut c).2 ++ 0 :: z ∧ inp s' = inp s ∧ out s' = out s ++ printed P (cut c).1.
Proof using write_spec re_ok P_ok.
  induction c as [a Ha|a b Ha IH] using cut_ind; intros Hn fuel p buf s Hp Eb Hf.
  - rewrite cut_rest by done. simpl. replace (p + zlen a - zlen a) with p by lia. exists buf, s.
    destruct fuel as [|fuel]; [lia|]. erewrite loop_inr.
    2: { unfold grep_line. rewrite Eb, strchr_none by done. reflexivity. }
    split_and!; try done. by rewrite app_nil_r.
  - destruct fuel as [|fuel]; [lia|]. rewrite cut_line by done. cbn [fst snd].
    assert (no_nul a ∧ no_nul b) as [Hna Hnb] by (unfold no_nul in *; rewrite elem_of_app, elem_of_cons in Hn; tauto).
    rewrite <-app_assoc in Eb. simpl in Eb. pose proof (drop_zset p buf a 0 NL _ Hp Eb) as E0. pose proof (zlen_nonneg a) as Hza.
    assert (zlen (a ++ NL :: b) = zlen a + 1 + zlen b) as Elen by (unfold zlen; rewrite length_app; simpl; lia).
    rewrite length_app in Hf. simpl in Hf.
    assert (∃ buf1 s1, grep_line write (re ++ 0 :: j) (buf, p) s = Ok (inl (buf1, p + zlen a + 1), s1) ∧ zlen buf1 = zlen buf ∧
      drop (Z.to_nat (p + zlen a + 1)) buf1 = b ++ 0 :: z ∧ inp s1 = inp s ∧ out s1 = out s ++ printed P [a]) as (buf1 & s1 & E1 & L1 & D1 & I1 & O1).
    { unfold grep_line. rewrite Eb, strchr_some by done. erewrite bind_step by reflexivity. cbv beta iota zeta. rewrite E0, match_line by done.
      erewrite bind_step by reflexivity. unfold printed. simpl. destruct (P a) eqn:EP.
      - pose proof (drop_zset p (zset buf (p + zlen a) 0) a NL 0 _ Hp E0) as E2.
        destruct (write_spec (a ++ [NL]) s) as (s1 & Ew & Is & Os). exists (zset (zset buf (p + zlen a) 0) (p + zlen a) NL), s1.
        assert (sub p (p + zlen a + 1 - p) (zset (zset buf (p + zlen a) 0) (p + zlen a) NL) = a ++ [NL]) as ->.
        { unfold sub. rewrite E2. replace (Z.to_nat (p + zlen a + 1 - p)) with (length (a ++ [NL])) by (rewrite length_app; unfold zlen; simpl; lia).
          change (a ++ NL :: b ++ 0 :: z) with (a ++ [NL] ++ b ++ 0 :: z). rewrite app_assoc. apply take_app_length. }
        rewrite (bind_step _ _ _ _ _ Ew). split; [done|]. rewrite !zlen_zset. split; [done|]. split; [by eapply drop_further|].
        split; [done|]. rewrite Os. simpl. by rewrite app_nil_r.
      - exists (zset buf (p + zlen a) 0), s. split; [done|]. rewrite zlen_zset. split; [done|]. split; [by eapply drop_further|].
        split; [done|]. simpl. by rewrite app_nil_r. }
    destruct (IH Hnb fuel (p + zlen a + 1) buf1 s1) as (buf' & s' & E' & L' & D' & I' & O'); [lia|done|lia|].
    rewrite (loop_inl _ _ _ _ _ _ E1), Elen. replace (p + (zlen a + 1 + zlen b)) with (p + zlen a + 1 + zlen b) by lia.
    exists buf', s'. split; [done|]. split; [by rewrite L'|]. split; [done|]. split; [by rewrite I'|].
    rewrite O', O1, <-app_assoc. by rewrite <-printed_app.
Qed.
(** A line that fills the buffer never comes to its end there. *)
Lemma no_room a b : zlen a = BUFSIZE - 1 → NL ∉ a → (∀ l, l ∈ (cut (a ++ b)).1 → zlen l < BUFSIZE - 1) → (cut (a ++ b)).1 = [].
Proof.
  intros Ha Hn Hl. destruct (cut b) as [ls r] eqn:Eb. destruct (decide (NL ∈ b)) as [Hin|Hout].
  - apply list_elem_of_split_l in Hin as (u & v & -> & Hu). rewrite app_assoc in Hl.
    rewrite cut_line in Hl by (rewrite elem_of_app; tauto). specialize (Hl (a ++ u) ltac:(by left)).
    pose proof (zlen_nonneg u). rewrite zlen_app in Hl. lia.
  - by rewrite cut_rest by (rewrite elem_of_app; tauto).
Qed.

Lemma grep_reads fuel buf m pend s : (length (inp s) < fuel)%nat → zlen buf = BUFSIZE → 0 ≤ m < BUFSIZE → take (Z.to_nat m) buf = pend →
  NL ∉ pend → no_nul (pend ++ inp s) → (∀ l, l ∈ (cut (pend ++ inp s)).1 → zlen l < BUFSIZE - 1) →
  ∃ s', loop fuel (grep_piece read write (re ++ 0 :: j) fd) (buf, m) s = Ok (tt, s') ∧
    out s' = out s ++ printed P (cut (pend ++ inp s)).1.
Proof using read_spec write_spec re_ok P_ok.
  revert buf m pend s. induction fuel as [|fuel IH]; intros buf m pend s Hf Hb Hm Ep Hpn Hnn Hl; [lia|].
  assert (zlen pend = m) as Em by (rewrite <-Ep; unfold zlen in *; rewrite length_take; lia).
  destruct (read_spec (BUFSIZE - m - 1) s) as (bs & s1 & E1 & I1 & O1 & Hbs & Hend); [lia|].
  destruct bs as [|x bs'] eqn:Ebs.
  - exists s1. split; [erewrite loop_inr; [reflexivity|]; unfold grep_piece; rewrite i32_id by (unfold BUFSIZE in *; lia); by rewrite (bind_step _ _ _ _ _ E1)|].
    rewrite O1. destruct (Hend eq_refl) as [Hz|Hz].
    + rewrite no_room by (done || lia). by rewrite app_nil_r.
    + rewrite Hz, app_nil_r, cut_rest by done. by rewrite app_nil_r.
  - rewrite <-Ebs in *. assert (0 < zlen bs) as Hbp by (rewrite Ebs; unfold zlen; simpl; lia). set (c := pend ++ bs).
    assert (zlen c = m + zlen bs) as Elc by (unfold c; rewrite zlen_app; lia).
    rewrite I1, app_assoc in Hnn, Hl. fold c in Hnn, Hl. assert (no_nul c) as Hnc by (unfold no_nul in *; rewrite elem_of_app in Hnn; tauto).
    destruct (drop (Z.to_nat m + length bs) buf) as [|y t] eqn:Et.
    { apply (f_equal length) in Et. rewrite length_drop in Et. unfold zlen in *. simpl in Et. lia. }
    assert (drop (Z.to_nat 0) (zset (splice m bs buf) (m + zlen bs) 0) = c ++ 0 :: t) as Ed.
    { assert (splice m bs buf = c ++ y :: t) as Es by (unfold splice, c; rewrite Ep, Et; by rewrite app_assoc).
      replace (m + zlen bs) with (0 + zlen c) by lia. apply (drop_zset 0 _ c 0 y t); [lia|]. by rewrite Es. }
    destruct (grep_lines c t Hnc (Datatypes.S (Z.to_nat BUFSIZE)) 0 (zset (splice m bs buf) (m + zlen bs) 0) s1)
      as (buf3 & s3 & E3 & L3 & D3 & I3 & O3); [lia|done|unfold zlen in *; unfold BUFSIZE in *; lia|].
    rewrite Z.add_0_l in *. set (r := (cut c).2) in *. pose proof (cut_length c) as Hlr. fold r in Hlr.
    assert (zlen buf3 = BUFSIZE) as Lb by (rewrite L3, zlen_zset, zlen_splice; lia).
    assert (sub (zlen c - zlen r) (zlen r) buf3 = r) as Esub by (unfold sub; rewrite D3; unfold zlen; rewrite Nat2Z.id; apply take_app_length).
    destruct (IH (splice 0 r buf3) (zlen r) r s3) as (s' & E' & O').
    + rewrite I3. rewrite I1, length_app in Hf. unfold zlen in Hbp. lia.
    + rewrite zlen_splice; unfold zlen in *; lia.
    + unfold zlen in *. lia.
    + unfold splice. simpl. unfold zlen. rewrite Nat2Z.id. apply take_app_length.
    + apply cut_rest_free.
    + rewrite I3. intros Hin. apply Hnn. apply elem_of_app in Hin as [Hin|Hin]; apply elem_of_app; [left|by right].
      revert Hin. unfold r. clear. induction c as [a Ha|a b Ha IHc] using cut_ind; [by rewrite cut_rest|]. rewrite cut_line by done. simpl.
      rewrite elem_of_app, elem_of_cons. tauto.
    + intros l Hin. apply Hl. rewrite cut_app, elem_of_app. right. by rewrite <-I3.
    + exists s'. split.
      * erewrite loop_inl; [exact E'|]. unfold grep_piece. rewrite i32_id by (unfold BUFSIZE in *; lia). rewrite (bind_step _ _ _ _ _ E1), Ebs.
        cbv beta iota zeta. rewrite <-Ebs. rewrite (bind_step _ _ _ _ _ E3). cbv beta iota zeta.
        destruct (Z.ltb_spec 0 (m + zlen bs)); [|lia]. rewrite <-Elc.
        replace (zlen c - (zlen c - zlen r)) with (zlen r) by lia. by rewrite Esub.
      * assert (pend ++ inp s = c ++ inp s1) as -> by (rewrite I1; unfold c; by rewrite app_assoc).
        rewrite O', O3, O1, I3, (cut_app c), printed_app. by rewrite app_assoc.
Qed.

(** C30. [grep] prints the lines that match. Whatever pieces [read] cuts the file
    into, [grep] comes to the end of it and has written, in order, each complete
    line of which some part is a word of the pattern, with its newline, and
    nothing else; provided the file has no NUL and no line longer than 1022
    bytes, which is what the buffer holds. *)
Theorem grep_prints_matches buf s : zlen buf = BUFSIZE → no_nul (inp s) → (∀ l, l ∈ (cut (inp s)).1 → zlen l < BUFSIZE - 1) →
  ∃ s', grep read write (Datatypes.S (length (inp s))) (re ++ 0 :: j) fd buf s = Ok (tt, s') ∧
    out s' = out s ++ printed P (cut (inp s)).1.
Proof using read_spec write_spec re_ok P_ok.
  intros Hb Hn Hl. apply (grep_reads _ buf 0 []); [lia|done|done|done|apply not_elem_of_nil|done|done].
Qed.
End io.

(** ** A file of three lines, read five bytes at a time *)

Record world := MkWorld { w_in : list Z; w_out : list Z }.
Definition read5 (fd n : Z) : M world (option (list Z)) := λ w,
  let k := Z.to_nat (Z.min 5 n) in Ok (Some (take k (w_in w)), MkWorld (drop k (w_in w)) (w_out w)).
Definition write_out (fd : Z) (bs : list Z) : M world unit := λ w, Ok (tt, MkWorld (w_in w) (w_out w ++ bs)).
Definition line_matches (re l : list Z) : bool := bool_decide (match_ (re ++ [0]) (l ++ [0]) = Some true).

Lemma line_matches_ok re l : no_nul re → no_nul l → line_matches re l = true ↔ matches (parse re) l.
Proof.
  intros Hre Hl. unfold line_matches. destruct (match_reads re l [] [] Hre Hl) as (b & -> & <-). rewrite bool_decide_eq_true. naive_solver.
Qed.

(** The pattern ["b$"] and the text ["ab\nbc\nbb\nb"]. *)
Lemma grep_prints_matches_witness :
  ∃ w, grep read5 write_out 12 [98; 36; 0] 0 (zrepl BUFSIZE 0) (MkWorld [97; 98; 10; 98; 99; 10; 98; 98; 10; 98] []) = Ok (tt, w) ∧
    w_out w = [97; 98; 10; 98; 98; 10].
Proof.
  assert (no_nul [98; 36]) as Hre by (unfold no_nul; rewrite !elem_of_cons, elem_of_nil; lia).
  destruct (grep_prints_matches read5 write_out 0 w_in w_out) with (re := [98; 36]) (j := @nil Z) (P := line_matches [98; 36])
    (buf := zrepl BUFSIZE 0) (s := MkWorld [97; 98; 10; 98; 99; 10; 98; 98; 10; 98] []) as (w & E & O).
  - intros n s Hn. eexists _, _. split; [reflexivity|]. simpl. split; [by rewrite take_drop|]. split; [done|].
    split; [unfold zlen; rewrite length_take; lia|]. intros H%(f_equal length). rewrite length_take in H. simpl in H.
    destruct (w_in s); [by right|left; simpl in H; lia].
  - intros bs s. by eexists.
  - exact Hre.
  - intros l Hl. by apply line_matches_ok.
  - reflexivity.
  - unfold no_nul. simpl. rewrite !elem_of_cons, elem_of_nil. lia.
  - assert (forallb (λ l, zlen l <? 1023) (cut [97; 98; 10; 98; 99; 10; 98; 98; 10; 98]).1 = true) as H by reflexivity.
    intros l Hl. rewrite forallb_forall in H. apply Z.ltb_lt, H. by apply list_elem_of_In.
  - exists w. split; [exact E|]. rewrite O. reflexivity.
Defined.
