(* ===== verification/Umalloc.v ===== *)
(** * malloc and free

    Models [user/umalloc.c], the allocator of Kernighan and Ritchie: a circular
    list of free blocks in the order of their addresses, through headers in the
    memory it manages. Addresses are counted in units of [sizeof(Header)], 16
    bytes. [sbrk] is a parameter. *)

From stdpp Require Import base numbers list gmap strings.
From S2P Require Import Prelude.
Open Scope Z_scope.
Open Scope kernel_scope.

(** [Header]: [s.ptr] (0 is null) and [s.size], in units. *)
Record header := MkHdr { h_ptr : Z; h_size : Z }.
#[global] Instance header_eta : Eta header := λ h, MkHdr (h_ptr h) (h_size h).
#[global] Instance upd_h_ptr : Upd h_ptr := ltac:(mk_upd).
#[global] Instance upd_h_size : Upd h_size := ltac:(mk_upd).

Definition HDRSIZE : Z := 16.
(** [&base], in the program's data, below the heap. *)
Definition BASE : Z := 1.

(** The headers, [freep], and the first unit above the program's memory. *)
Record heap := MkHeap { hp_mem : gmap Z header; hp_freep : Z; hp_brk : Z }.
#[global] Instance heap_eta : Eta heap := λ s, MkHeap (hp_mem s) (hp_freep s) (hp_brk s).
#[global] Instance upd_hp_mem : Upd hp_mem := ltac:(mk_upd).
#[global] Instance upd_hp_freep : Upd hp_freep := ltac:(mk_upd).
#[global] Instance upd_hp_brk : Upd hp_brk := ltac:(mk_upd).
Abbreviation U := (M heap).

(** Memory that has not been written is zero; reading a header nobody has written
    is an error of the model. *)
Definition hdr (a : Z) : U header := m ← gets hp_mem; opt (m !! a).
Definition set_hdr (a : Z) (f : header → header) : U unit :=
  updf hp_mem (λ m, <[a := f (default (MkHdr 0 0) (m !! a))]> m).

(** ** free *)

(** The search for the place of [bp]: a turn of the [for] loop. *)
Definition find_step (bp p : Z) : U (Z + Z) :=
  h ← hdr p;
  if (p <? bp) && (bp <? h_ptr h) then mret (inr p) else
  if (h_ptr h <=? p) && ((p <? bp) || (bp <? h_ptr h)) then mret (inr p) else
  mret (inl (h_ptr h)).

(** Join the block at [bp] to the block above it, and to the block at [p]. *)
Definition join_next (bp p : Z) : U unit :=
  hb ← hdr bp; hp ← hdr p;
  if bp + h_size hb =? h_ptr hp then
    hn ← hdr (h_ptr hp);
    set_hdr bp (λ h, h <| h_size := u32 (h_size h + h_size hn) |>) ;;
    hn ← hdr (h_ptr hp);
    set_hdr bp (λ h, h <| h_ptr := h_ptr hn |>)
  else set_hdr bp (λ h, h <| h_ptr := h_ptr hp |>).
Definition join_prev (bp p : Z) : U unit :=
  hb ← hdr bp; hp ← hdr p;
  if p + h_size hp =? bp then
    set_hdr p (λ h, h <| h_size := u32 (h_size h + h_size hb) |>) ;;
    set_hdr p (λ h, h <| h_ptr := h_ptr hb |>)
  else set_hdr p (λ h, h <| h_ptr := bp |>).

Definition free_ (ap : Z) : U unit :=
  let bp := ap - 1 in
  m ← gets hp_mem; freep ← gets hp_freep;
  p ← loop (2 * Datatypes.S (size m)) (find_step bp) freep;
  join_next bp p ;; join_prev bp p ;;
  setf hp_freep p.

(** ** malloc *)

Section malloc.
(** [sbrk(n)], in bytes: the address of the new memory, or [SBRK_ERROR]. *)
Context (sbrk : Z → U Z).
Definition SBRK_ERROR : Z := -1.

Definition morecore (nu : Z) : U Z :=
  let nu := if nu <? 4096 then 4096 else nu in
  p ← sbrk (i32 (nu * HDRSIZE));
  if p =? SBRK_ERROR then mret 0 else
  let hp := p / HDRSIZE in
  set_hdr hp (λ h, h <| h_size := nu |>) ;;
  free_ (hp + 1) ;;
  gets hp_freep.

Definition nunits_of (nbytes : Z) : Z := u32 ((nbytes + HDRSIZE - 1) / HDRSIZE + 1).

(** A turn of the loop of [malloc] at [prevp] and [p]. *)
Definition malloc_step (nunits : Z) (x : Z * Z) : U ((Z * Z) + Z) :=
  let '(prevp, p) := x in
  h ← hdr p;
  if nunits <=? h_size h then
    r ← (if h_size h =? nunits then
           set_hdr prevp (λ g, g <| h_ptr := h_ptr h |>) ;; mret p
         else
           set_hdr p (λ g, g <| h_size := u32 (h_size g - nunits) |>) ;;
           h ← hdr p;
           let p := p + h_size h in
           set_hdr p (λ g, g <| h_size := nunits |>) ;; mret p);
    setf hp_freep prevp ;;
    mret (inr (r + 1))
  else
    freep ← gets hp_freep;
    if p =? freep then
      p ← morecore nunits;
      if p =? 0 then mret (inr 0) else h ← hdr p; mret (inl (p, h_ptr h))
    else mret (inl (p, h_ptr h)).

(** Once round the list, [morecore], and once more round the list. *)
Definition malloc (nbytes : Z) : U Z :=
  let nunits := nunits_of nbytes in
  prevp ← gets hp_freep;
  when (prevp =? 0)
    (setf hp_freep BASE ;; set_hdr BASE (λ h, h <| h_ptr := BASE |>) ;; set_hdr BASE (λ h, h <| h_size := 0 |>)) ;;
  prevp ← gets hp_freep;
  h ← hdr prevp; m ← gets hp_mem;
  loop (2 * Datatypes.S (size m) + 2) (malloc_step nunits) (prevp, h_ptr h).
End malloc.

(** ** The heap *)

(** Units [a] to [a + n - 1] of each block. *)
Definition cover (l : list (Z * Z)) : list Z := l ≫= λ b, seqZ b.1 b.2.

(** The list of free blocks in the order of their addresses: from [l] the list
    goes on at [e]. *)
Definition first_addr (l : list (Z * Z)) (e : Z) : Z := match l with b :: _ => b.1 | [] => e end.
Fixpoint lseg (m : gmap Z header) (l : list (Z * Z)) (e : Z) : Prop :=
  match l with
  | [] => True
  | b :: l => m !! b.1 = Some (MkHdr (first_addr l e) b.2) ∧ lseg m l e
  end.
Fixpoint apart (l : list (Z * Z)) : Prop :=
  match l with
  | b :: l => (match l with b' :: _ => b.1 + b.2 < b'.1 | [] => True end) ∧ apart l
  | [] => True
  end.

(** The free blocks [L], the first of them [base], the allocated blocks [A], and
    all the memory the allocator has had from [sbrk], [W]: every unit of it is in
    one block, free or allocated. *)
Record heap_ok (L A : list (Z * Z)) (W : list Z) (s : heap) : Prop := {
  hk_head : head L = Some (BASE, 0);
  hk_links : lseg (hp_mem s) L BASE;
  hk_apart : apart L;
  hk_pos b : b ∈ L ++ A → b ≠ (BASE, 0) → 0 < b.2;
  hk_alloc a n : (a, n) ∈ A → 0 < n ∧ ∃ p, hp_mem s !! a = Some (MkHdr p n);
  hk_cover : cover (L ++ A) ≡ₚ W;
  hk_nodup : NoDup W;
  hk_range u : u ∈ W → BASE < u < hp_brk s;
  hk_brk : BASE < hp_brk s ≤ 4294967296;
  hk_freep : hp_freep s ∈ L.*1;
}.

(** ** Lists of blocks *)

Implicit Types (l L A : list (Z * Z)) (m : gmap Z header) (s : heap).

Lemma cover_app l1 l2 : cover (l1 ++ l2) = cover l1 ++ cover l2.
Proof. apply bind_app. Qed.
Lemma cover_cons b l : cover (b :: l) = seqZ b.1 b.2 ++ cover l.
Proof. done. Qed.
Lemma elem_of_cover l u : u ∈ cover l ↔ ∃ b, b ∈ l ∧ b.1 ≤ u < b.1 + b.2.
Proof.
  unfold cover. rewrite list_elem_of_bind. split.
  - intros (b & Hu%elem_of_seqZ & Hb). by exists b.
  - intros (b & Hb & Hu). exists b. split; [by apply elem_of_seqZ|done].
Qed.
#[global] Instance cover_perm : Proper ((≡ₚ) ==> (≡ₚ)) cover.
Proof. intros l l' H. unfold cover. by rewrite H. Qed.

Lemma lseg_app m l1 l2 e : lseg m (l1 ++ l2) e ↔ lseg m l1 (first_addr l2 e) ∧ lseg m l2 e.
Proof.
  induction l1 as [|b l1 IH]; simpl; [tauto|]. rewrite IH. assert (first_addr (l1 ++ l2) e = first_addr l1 (first_addr l2 e)) as -> by (by destruct l1).
  tauto.
Qed.
Lemma lseg_ext m m' l e : lseg m l e → (∀ b, b ∈ l → m' !! b.1 = m !! b.1) → lseg m' l e.
Proof.
  induction l as [|b l IH]; simpl; [done|]. intros [H1 H2] Hm. split; [rewrite Hm; [done|by left]|]. apply IH; [done|]. intros c Hc. apply Hm. by right.
Qed.
Lemma lseg_lookup m l e b : lseg m l e → b ∈ l → ∃ p, m !! b.1 = Some (MkHdr p b.2).
Proof.
  induction l as [|c l IH]; [by intros _ ?%not_elem_of_nil|]. intros [H1 H2] [->|Hb]%elem_of_cons; [by eexists|by apply IH].
Qed.

Lemma apart_app l1 l2 : apart (l1 ++ l2) → apart l1 ∧ apart l2.
Proof.
  induction l1 as [|b l1 IH]; [done|]. simpl. intros [H1 H2]. destruct (IH H2) as [H3 H4]. split; [|done]. split; [|done]. by destruct l1.
Qed.
(** The blocks after a block lie above it. *)
Lemma apart_above b l : apart (b :: l) → (∀ c, c ∈ b :: l → 0 ≤ c.2) → ∀ c, c ∈ l → b.1 + b.2 < c.1.
Proof.
  revert b. induction l as [|d l IH]; intros b; [by intros _ _ c ?%not_elem_of_nil|]. intros [H1 H2] Hp c [->|Hc]%elem_of_cons; [done|].
  pose proof (IH d H2 ltac:(intros x Hx; apply Hp; by right) c Hc). pose proof (Hp d ltac:(by right; left)). lia.
Qed.
Lemma apart_mid l1 b l2 : apart (l1 ++ b :: l2) → (∀ c, c ∈ l1 ++ b :: l2 → 0 ≤ c.2) →
  (∀ c, c ∈ l1 → c.1 + c.2 < b.1) ∧ (∀ c, c ∈ l2 → b.1 + b.2 < c.1).
Proof.
  intros H Hp. split.
  - induction l1 as [|d l1 IH]; [by intros c ?%not_elem_of_nil|]. intros c [->|Hc]%elem_of_cons.
    + eapply (apart_above _ (l1 ++ b :: l2)); [done|exact Hp|]. apply elem_of_app. right. by left.
    + apply IH; [by destruct H|intros x Hx; apply Hp; by right|done].
  - apply apart_above; [by apply apart_app in H as [_ ?]|]. intros c Hc. apply Hp. apply elem_of_app. by right.
Qed.
Lemma apart_app_2 l1 l2 : apart l1 → apart l2 → (∀ b c, last l1 = Some b → head l2 = Some c → b.1 + b.2 < c.1) → apart (l1 ++ l2).
Proof.
  induction l1 as [|b l1 IH]; [done|]. simpl. intros [H1 H2] H3 Hm. split.
  - destruct l1 as [|d l1]; simpl; [|done]. destruct l2 as [|c l2]; [done|]. by apply Hm.
  - apply IH; [done..|]. intros d c Hd. apply Hm. destruct l1; [done|done].
Qed.

(** The last free block below [a]. *)
Lemma find_place L a : apart L → (∀ c, c ∈ L → 0 ≤ c.2) → (∃ b, head L = Some b ∧ b.1 < a) → a ∉ L.*1 →
  ∃ l1 b l2, L = l1 ++ b :: l2 ∧ b.1 < a ∧ ∀ c, c ∈ l2 → a < c.1.
Proof.
  induction L as [|b L IH]; [by intros _ _ (? & ? & _)|]. intros Hap Hp (b' & [= <-] & Hb) Ha.
  destruct L as [|c L]; [exists [], b, []; split_and!; [done|done|by intros c ?%not_elem_of_nil]|].
  apply not_elem_of_cons in Ha as [_ Ha]. destruct (decide (c.1 < a)) as [Hc|Hc].
  - destruct IH as (l1 & b1 & l2 & E & H1 & H2); [by destruct Hap|intros x Hx; apply Hp; by right|by exists c|done|].
    exists (b :: l1), b1, l2. by rewrite E.
  - assert (a ≠ c.1) by (intros ->; apply Ha; by left). exists [], b, (c :: L). split_and!; [done|done|]. intros d [->|Hd]%elem_of_cons; [lia|].
    pose proof (apart_above c L ltac:(by destruct Hap) ltac:(intros x Hx; apply Hp; by right) d Hd). pose proof (Hp c ltac:(by right; left)). lia.
Qed.

(** ** The blocks of a heap *)

Lemma cover_disjoint b c l : NoDup (cover (b :: l)) → c ∈ l → 0 < b.2 → 0 < c.2 → b.1 + b.2 ≤ c.1 ∨ c.1 + c.2 ≤ b.1.
Proof.
  rewrite cover_cons. intros (_ & Hd & _)%NoDup_app Hc Hb Hc2.
  destruct (decide (b.1 + b.2 ≤ c.1)); [by left|]. right. apply Z.le_ngt. intros Hlt.
  apply (Hd (Z.max b.1 c.1)); [apply elem_of_seqZ; lia|]. apply elem_of_cover. exists c. split; [done|lia].
Qed.

Section heap_facts.
Context {L A W s} (Hok : heap_ok L A W s).

Lemma hk_sizes b : b ∈ L ++ A → 0 ≤ b.2.
Proof.
  intros Hb. destruct (decide (b = (BASE, 0))) as [->|Hne]; [done|]. pose proof (hk_pos _ _ _ _ Hok b Hb Hne). lia.
Qed.
Lemma hk_sizes_l b : b ∈ L → 0 ≤ b.2.
Proof. intros Hb. apply hk_sizes. apply elem_of_app. by left. Qed.
Lemma hk_cases : ∃ l, L = (BASE, 0) :: l.
Proof. pose proof (hk_head _ _ _ _ Hok). destruct L as [|b l]; [done|]. simplify_eq/=. by eexists. Qed.
Lemma hk_first : first_addr L BASE = BASE.
Proof. by destruct hk_cases as [? ->]. Qed.
(** Every block but [base] is in the memory of [W]. *)
Lemma hk_bounds b : b ∈ L ++ A → b ≠ (BASE, 0) → BASE < b.1 ∧ b.1 + b.2 ≤ hp_brk s.
Proof.
  intros Hb Hne. pose proof (hk_pos _ _ _ _ Hok b Hb Hne) as Hp.
  assert (∀ u, b.1 ≤ u < b.1 + b.2 → BASE < u < hp_brk s) as Hu.
  { intros u Hu. apply (hk_range _ _ _ _ Hok). rewrite <-(hk_cover _ _ _ _ Hok). apply elem_of_cover. by exists b. }
  pose proof (Hu b.1). pose proof (Hu (b.1 + b.2 - 1)). lia.
Qed.
Lemma hk_low b : b ∈ L ++ A → BASE ≤ b.1.
Proof.
  intros Hb. destruct (decide (b = (BASE, 0))) as [->|Hne]; [done|]. pose proof (hk_bounds b Hb Hne). lia.
Qed.
Lemma hk_freep_low : BASE ≤ hp_freep s.
Proof.
  pose proof (hk_freep _ _ _ _ Hok) as Hf. apply list_elem_of_fmap in Hf as (c & -> & Hc). apply hk_low, elem_of_app. by left.
Qed.
Lemma hk_base b : b ∈ L → b.1 = BASE → b = (BASE, 0).
Proof.
  intros Hb E. destruct (decide (b = (BASE, 0))) as [->|Hne]; [done|]. exfalso.
  pose proof (hk_bounds b ltac:(apply elem_of_app; by left) Hne). lia.
Qed.
Lemma hk_small b : b ∈ L ++ A → 0 ≤ b.2 < 4294967296.
Proof.
  intros Hb. split; [by apply hk_sizes|]. destruct (decide (b = (BASE, 0))) as [->|Hne]; [done|].
  pose proof (hk_bounds b Hb Hne). pose proof (hk_brk _ _ _ _ Hok). unfold BASE in *. lia.
Qed.
(** Two different blocks have no unit in common. *)
Lemma hk_disjoint b c l : L ++ A ≡ₚ b :: l → c ∈ l → b ≠ (BASE, 0) → c ≠ (BASE, 0) → b.1 + b.2 ≤ c.1 ∨ c.1 + c.2 ≤ b.1.
Proof.
  intros E Hc Hb Hc'.
  apply (cover_disjoint b c l).
  - rewrite <-E, (hk_cover _ _ _ _ Hok). apply (hk_nodup _ _ _ _ Hok).
  - done.
  - apply (hk_pos _ _ _ _ Hok); [rewrite E; by left|done].
  - apply (hk_pos _ _ _ _ Hok); [rewrite E; by right|done].
Qed.
Lemma hk_addrs : NoDup L.*1.
Proof.
  pose proof (hk_apart _ _ _ _ Hok) as Ha. pose proof hk_sizes_l as Hs. revert Ha Hs. clear Hok.
  induction L as [|b l IH]; intros Ha Hs; [constructor|]. constructor.
  - intros (c & E & Hc)%list_elem_of_fmap. pose proof (apart_above b l Ha Hs c Hc). pose proof (Hs b ltac:(by left)). lia.
  - apply IH; [by destruct Ha|]. intros c Hc. apply Hs. by right.
Qed.
Lemma hk_lookup b : b ∈ L → ∃ p, hp_mem s !! b.1 = Some (MkHdr p b.2).
Proof. apply lseg_lookup with (e := BASE), (hk_links _ _ _ _ Hok). Qed.
Lemma hk_addr_inj b c : b ∈ L → c ∈ L → b.1 = c.1 → b = c.
Proof.
  intros Hb Hc E. destruct (hk_lookup b Hb) as [? E1], (hk_lookup c Hc) as [? E2]. rewrite E in E1. destruct b, c; simplify_eq/=. congruence.
Qed.
Lemma hk_length : (length L ≤ size (hp_mem s))%nat.
Proof.
  rewrite <-(length_fmap fst L), <-(size_list_to_set (C := gset Z)) by apply hk_addrs.
  rewrite <-size_dom. apply subseteq_size. intros a (b & -> & Hb)%elem_of_list_to_set%list_elem_of_fmap.
  destruct (hk_lookup b Hb) as [? E]. by eapply elem_of_dom_2.
Qed.
(** An allocated block is outside of every free block. *)
Lemma hk_alloc_out a k c : (a, k) ∈ A → c ∈ L → a ≠ c.1 ∧ (a + k ≤ c.1 ∨ c.1 + c.2 ≤ a).
Proof.
  intros Ha Hc. pose proof (hk_alloc _ _ _ _ Hok a k Ha) as [Hk _].
  assert ((a, k) ≠ (BASE, 0)) as Hne by (intros [= ? ?]; lia).
  pose proof (hk_bounds (a, k) ltac:(apply elem_of_app; by right) Hne) as [Hlow _]. simpl in Hlow.
  destruct (decide (c = (BASE, 0))) as [->|Hc0]; [simpl; lia|].
  pose proof (hk_pos _ _ _ _ Hok c ltac:(apply elem_of_app; by left) Hc0). apply list_elem_of_split in Hc as (x & y & E).
  destruct (hk_disjoint c (a, k) (x ++ y ++ A)) as [Hd|Hd]; [rewrite E, <-app_assoc; simpl; by rewrite <-Permutation_middle|set_solver|done..| |];
    simpl in Hd; lia.
Qed.
End heap_facts.

(** ** Going round the list *)

Lemma first_addr_app l1 l2 e : first_addr (l1 ++ l2) e = first_addr l1 (first_addr l2 e).
Proof. by destruct l1. Qed.
Lemma lseg_split m l1 b l2 e : lseg m (l1 ++ b :: l2) e → m !! b.1 = Some (MkHdr (first_addr l2 e) b.2).
Proof. rewrite lseg_app. by intros (_ & ? & _). Qed.
(** The circle can be opened at any block. *)
Lemma lseg_rotate m l1 l2 e : l1 ≠ [] → l2 ≠ [] →
  lseg m (l1 ++ l2) (first_addr l1 e) → lseg m (l2 ++ l1) (first_addr l2 e).
Proof. destruct l1 as [|b l1], l2 as [|c l2]; [done..|]. intros _ _. rewrite !lseg_app. by intros [? ?]. Qed.
Lemma ring_at L A W s f : heap_ok L A W s → f ∈ L.*1 →
  ∃ b la lb, L = la ++ b :: lb ∧ b.1 = f ∧ lseg (hp_mem s) (b :: lb ++ la) f.
Proof.
  intros Hok (b & -> & Hb)%list_elem_of_fmap. apply list_elem_of_split in Hb as (la & lb & E). exists b, la, lb.
  split_and!; [done|done|]. pose proof (hk_links _ _ _ _ Hok) as Hl. destruct la as [|c la].
  - rewrite app_nil_r. pose proof (hk_first Hok) as Hf. rewrite E in Hl, Hf. simpl in Hf. rewrite Hf. done.
  - apply (lseg_rotate _ (c :: la) (b :: lb) 0); [done..|]. pose proof (hk_first Hok) as Hf. rewrite E in Hl, Hf. simpl in Hf.
    simpl first_addr. rewrite Hf. done.
Qed.

(** ** free *)

Definition find_stop (bp p nx : Z) : bool :=
  (p <? bp) && (bp <? nx) || (nx <=? p) && ((p <? bp) || (bp <? nx)).
Lemma find_step_eq bp p h s : hp_mem s !! p = Some h →
  find_step bp p s = Ok (if find_stop bp p (h_ptr h) then inr p else inl (h_ptr h), s).
Proof.
  intros E. unfold find_step, hdr. rewrite !bind_assoc. erewrite bind_step by done. erewrite bind_step by (by apply opt_ok).
  unfold find_stop. by repeat case_match; simplify_eq/=.
Qed.

(** The loop of [free] stops at the last free block below [bp], and nowhere else. *)
Lemma find_stop_spec L A W s l1 p l2 bp c h : heap_ok L A W s → L = l1 ++ p :: l2 → p.1 < bp → (∀ d, d ∈ l2 → bp < d.1) → BASE < bp →
  c ∈ L → hp_mem s !! c.1 = Some h → find_stop bp c.1 (h_ptr h) = bool_decide (c = p).
Proof.
  intros Hok E Hp Hl2 Hbp Hc Hh.
  destruct (apart_mid l1 p l2) as [Ha1 Ha2]; [rewrite <-E; apply (hk_apart _ _ _ _ Hok)|rewrite <-E; intros; by eapply hk_sizes_l|].
  pose proof (hk_links _ _ _ _ Hok) as Hl. pose proof (hk_apart _ _ _ _ Hok) as Hap.
  assert (∀ d, d ∈ L → 0 ≤ d.2) as Hs by (intros; by eapply hk_sizes_l). rewrite E in Hc. apply elem_of_app in Hc as [Hc|[->|Hc]%elem_of_cons].
  - rewrite bool_decide_eq_false_2 by (intros ->; pose proof (Ha1 p Hc); pose proof (Hs p ltac:(rewrite E; set_solver)); lia).
    apply list_elem_of_split in Hc as (x & y & ->).
    assert (L = x ++ c :: (y ++ p :: l2)) as E' by (by rewrite E, <-app_assoc). rewrite E' in Hl, Hap. apply lseg_split in Hl. rewrite Hl in Hh. injection Hh as <-. cbn [h_ptr].
    destruct (apart_mid _ _ _ Hap) as [_ Hy]; [intros d Hd; apply Hs; by rewrite E'|].
    assert (c.1 < first_addr (y ++ p :: l2) BASE ≤ p.1) as [? ?].
    { rewrite first_addr_app. destruct y as [|d y]; simpl.
      - pose proof (Hy p ltac:(set_solver)). pose proof (Hs c ltac:(rewrite E; set_solver)). lia.
      - pose proof (Hy d ltac:(set_solver)). pose proof (Ha1 d ltac:(set_solver)). pose proof (Hs c ltac:(rewrite E; set_solver)).
        pose proof (Hs d ltac:(rewrite E; set_solver)). lia. }
    unfold find_stop. lia.
  - rewrite bool_decide_eq_true_2 by done. rewrite E in Hl. apply lseg_split in Hl. rewrite Hl in Hh. injection Hh as <-. simpl.
    destruct l2 as [|d l2]; simpl.
    + pose proof (hk_low Hok p ltac:(rewrite E; set_solver)). unfold find_stop. lia.
    + pose proof (Hl2 d ltac:(by left)). unfold find_stop. lia.
  - pose proof (Hl2 c Hc). rewrite bool_decide_eq_false_2 by (intros ->; lia).
    apply list_elem_of_split in Hc as (x & y & ->).
    assert (L = (l1 ++ p :: x) ++ c :: y) as E' by (by rewrite E, <-app_assoc). rewrite E' in Hl, Hap. apply lseg_split in Hl.
    rewrite Hl in Hh. injection Hh as <-. simpl.
    destruct (apart_mid _ _ _ Hap) as [_ Hy]; [intros d Hd; apply Hs; by rewrite E'|].
    destruct y as [|d y]; simpl; [unfold find_stop; lia|].
    pose proof (Hy d ltac:(set_solver)). pose proof (Hs c ltac:(rewrite E; set_solver)). unfold find_stop. lia.
Qed.

Lemma find_walk bp o1 p o2 e k s : lseg (hp_mem s) (o1 ++ p :: o2) e →
  (∀ c h, c ∈ o1 ++ [p] → hp_mem s !! c.1 = Some h → find_stop bp c.1 (h_ptr h) = bool_decide (c = p)) → p ∉ o1 →
  loop (length o1 + Datatypes.S k) (find_step bp) (first_addr (o1 ++ p :: o2) e) s = Ok (p.1, s).
Proof.
  induction o1 as [|c o1 IH]; intros [Hc Hl] Hst Hp; simpl length; simpl first_addr.
  - rewrite Nat.add_0_l. apply loop_inr. erewrite find_step_eq by exact Hc. rewrite (Hst p _ ltac:(by left) Hc). by rewrite bool_decide_eq_true_2.
  - rewrite Nat.add_succ_l. erewrite loop_inl; [apply IH|]; [done| |set_solver|].
    + intros d h Hd. apply Hst. by right.
    + erewrite find_step_eq by exact Hc. rewrite (Hst c _ ltac:(by left) Hc). rewrite bool_decide_eq_false_2 by set_solver. done.
Qed.

Lemma find_ok L A W s l1 p l2 bp : heap_ok L A W s → L = l1 ++ p :: l2 → p.1 < bp → (∀ d, d ∈ l2 → bp < d.1) → BASE < bp →
  loop (2 * Datatypes.S (size (hp_mem s))) (find_step bp) (hp_freep s) s = Ok (p.1, s).
Proof.
  intros Hok E Hp Hl2 Hbp. destruct (ring_at L A W s (hp_freep s) Hok (hk_freep _ _ _ _ Hok)) as (f & la & lb & E2 & Hf & Hring).
  assert (p ∈ f :: lb ++ la) as Hin by (assert (p ∈ L) as HL by (rewrite E; set_solver); rewrite E2 in HL; set_solver).
  assert (∀ c, c ∈ f :: lb ++ la → c ∈ L) as Hsub by (rewrite E2; set_solver).
  apply list_elem_of_split_l in Hin as (o1 & o2 & Eo & Hno).
  assert (length L = length (f :: lb ++ la)) as HlenL by (rewrite E2, length_app; simpl; rewrite length_app; lia).
  pose proof (hk_length Hok) as Hlen. rewrite HlenL, Eo, length_app in Hlen. simpl length in Hlen.
  rewrite <-Hf at 1. change (f.1) with (first_addr (f :: lb ++ la) 0). rewrite Eo, first_addr_app in *. simpl first_addr.
  replace (2 * Datatypes.S (size (hp_mem s)))%nat with (length o1 + Datatypes.S (2 * Datatypes.S (size (hp_mem s)) - length o1 - 1))%nat by lia.
  change (p.1) with (first_addr (p :: o2) 0) at 1. rewrite <-first_addr_app.
  assert (first_addr (o1 ++ p :: o2) 0 = first_addr (o1 ++ p :: o2) (hp_freep s)) as -> by (by rewrite !first_addr_app).
  apply find_walk; [done| |done]. intros c h Hc Hh. eapply find_stop_spec; [done..| |done]. apply Hsub. set_solver.
Qed.

Lemma hdr_ok a h s : hp_mem s !! a = Some h → hdr a s = Ok (h, s).
Proof. intros E. unfold hdr. erewrite bind_step by done. by apply opt_ok. Qed.
Lemma set_hdr_ok a f h s : hp_mem s !! a = Some h → set_hdr a f s = Ok (tt, s <| hp_mem := <[a := f h]> (hp_mem s) |>).
Proof. intros E. unfold set_hdr, modify, upd, upd_hp_mem. cbn. by rewrite E. Qed.
Lemma set_hdr_any a f s : set_hdr a f s = Ok (tt, s <| hp_mem := <[a := f (default (MkHdr 0 0) (hp_mem s !! a))]> (hp_mem s) |>).
Proof. done. Qed.
Lemma set_hdr_to a f h h' s : hp_mem s !! a = Some h → f h = h' → set_hdr a f s = Ok (tt, s <| hp_mem := <[a := h']> (hp_mem s) |>).
Proof. intros E <-. by apply set_hdr_ok. Qed.
Lemma set_hdr_twice a f g h s : hp_mem s !! a = Some h →
  (set_hdr a f ;; set_hdr a g) s = Ok (tt, s <| hp_mem := <[a := g (f h)]> (hp_mem s) |>).
Proof.
  intros E. erewrite bind_step by (by apply set_hdr_ok). erewrite set_hdr_ok by (cbn; apply lookup_insert_eq). cbn. by rewrite insert_insert_eq.
Qed.

(** The block freed is joined to the block above it, when the two touch. *)
Lemma join_next_ok s bp n q p k l2 : hp_mem s !! bp = Some (MkHdr q n) → hp_mem s !! p = Some (MkHdr (first_addr l2 BASE) k) →
  lseg (hp_mem s) l2 BASE → apart l2 → (∀ d, d ∈ l2 → 0 < d.2 ∧ bp + n ≤ d.1 ∧ n + d.2 < 4294967296) → BASE < bp → 0 < n →
  ∃ n' l3, join_next bp p s = Ok (tt, s <| hp_mem := <[bp := MkHdr (first_addr l3 BASE) n']> (hp_mem s) |>) ∧
    cover ((bp, n') :: l3) = cover ((bp, n) :: l2) ∧ apart ((bp, n') :: l3) ∧ lseg (hp_mem s) l3 BASE ∧ n ≤ n' ∧ ∀ d, d ∈ l3 → d ∈ l2.
Proof.
  intros Hb Hp Hl Hap Hl2 Hbp Hn. unfold join_next.
  erewrite bind_step by (by apply hdr_ok). erewrite bind_step by (by apply hdr_ok). cbn [h_size h_ptr].
  destruct (Z.eqb_spec (bp + n) (first_addr l2 BASE)) as [E|E].
  - destruct l2 as [|d l3]; simpl in E; [lia|]. destruct (Hl2 d ltac:(by left)) as (Hd & _ & Hw). destruct Hl as [Hd1 Hl]. exists (n + d.2), l3.
    pose proof (apart_above d l3 Hap ltac:(intros c Hc; destruct (Hl2 c Hc); lia)) as Hab.
    split_and!.
    + cbn [first_addr]. erewrite bind_step by (by apply hdr_ok). erewrite bind_step by (by apply set_hdr_ok). cbn [h_size h_ptr].
      assert (bp ≠ d.1) by lia. erewrite bind_step by (apply hdr_ok; cbn; by rewrite lookup_insert_ne).
      erewrite set_hdr_ok by (cbn; apply lookup_insert_eq). cbn. rewrite insert_insert_eq, wrap_id; [done|]. lia.
    + rewrite !cover_cons. simpl. rewrite seqZ_app by lia. rewrite <-app_assoc. by rewrite E.
    + destruct Hap as [Hm Hap]. destruct l3 as [|c l3]; [done|]. split; [|done]. simpl. lia.
    + done.
    + lia.
    + intros c Hc. by right.
  - exists n, l2. split_and!; [by eapply set_hdr_to|done| |done|lia|done].
    split; [|done]. destruct l2 as [|d l2]; [done|]. simpl in *. destruct (Hl2 d ltac:(by left)). lia.
Qed.

(** Then it is joined to the block below it, or linked from there. *)
Lemma join_prev_ok s bp n nx p k q : hp_mem s !! bp = Some (MkHdr nx n) → hp_mem s !! p = Some (MkHdr q k) → 0 ≤ n + k < 4294967296 →
  join_prev bp p s = Ok (tt, s <| hp_mem := <[p := if p + k =? bp then MkHdr nx (k + n) else MkHdr bp k]> (hp_mem s) |>).
Proof.
  intros Hb Hp Hw. unfold join_prev. erewrite bind_step by (by apply hdr_ok). erewrite bind_step by (by apply hdr_ok). cbn [h_size h_ptr].
  case_match; [|by eapply set_hdr_to]. erewrite set_hdr_twice by done. cbn. by rewrite wrap_id by lia.
Qed.

Section freed.
Context {L A W s bp n A' l1 p l2} (Hok : heap_ok L A W s) (HA : A ≡ₚ (bp, n) :: A') (HL : L = l1 ++ p :: l2)
  (Hp : p.1 < bp) (Hl2 : ∀ d, d ∈ l2 → bp < d.1).

Lemma freed_perm : L ++ A ≡ₚ (bp, n) :: L ++ A'.
Proof. rewrite HA. by rewrite <-Permutation_middle. Qed.
Lemma freed_in_l b : b ∈ l1 ∨ b = p ∨ b ∈ l2 → b ∈ L.
Proof using HL. rewrite HL. clear -l1. set_solver. Qed.
Lemma freed_bp : BASE < bp ∧ 0 < n ∧ bp + n ≤ hp_brk s.
Proof.
  assert ((bp, n) ∈ L ++ A) as Hin by (rewrite freed_perm; by left).
  assert ((bp, n) ≠ (BASE, 0)) as Hne by (intros [= Eb En]; pose proof (hk_low Hok p ltac:(apply elem_of_app; left; apply freed_in_l; tauto)); lia).
  pose proof (hk_bounds Hok _ Hin Hne). pose proof (hk_pos _ _ _ _ Hok _ Hin Hne). simpl in *. lia.
Qed.
Lemma freed_disjoint c : c ∈ L ++ A' → c ≠ (BASE, 0) → bp + n ≤ c.1 ∨ c.1 + c.2 ≤ bp.
Proof.
  intros Hc Hne. eapply (hk_disjoint Hok (bp, n)); [apply freed_perm|done| |done]. pose proof freed_bp. intros [= ? ?]. lia.
Qed.
Lemma freed_below : p.1 + p.2 ≤ bp.
Proof.
  destruct (decide (p = (BASE, 0))) as [->|Hne]; [simpl in *; lia|].
  destruct (freed_disjoint p) as [?|?]; [apply elem_of_app; left; apply freed_in_l; tauto|done| |done]. pose proof freed_bp. lia.
Qed.
Lemma freed_above d : d ∈ l2 → 0 < d.2 ∧ bp + n ≤ d.1 ∧ n + d.2 < 4294967296.
Proof.
  intros Hd. pose proof (Hl2 d Hd). pose proof freed_bp. assert (d ∈ L) as HdL by (apply freed_in_l; tauto).
  assert (d ≠ (BASE, 0)) as Hne by (intros ->; simpl in *; lia).
  pose proof (hk_pos _ _ _ _ Hok d ltac:(apply elem_of_app; by left) Hne).
  pose proof (hk_bounds Hok d ltac:(apply elem_of_app; by left) Hne). pose proof (hk_brk _ _ _ _ Hok). unfold BASE in *.
  destruct (freed_disjoint d ltac:(apply elem_of_app; by left) Hne); lia.
Qed.
Lemma freed_alloc a k : (a, k) ∈ A' → a ≠ bp ∧ a ≠ p.1.
Proof.
  intros Ha. pose proof freed_bp. pose proof (hk_alloc _ _ _ _ Hok a k ltac:(rewrite HA; by right)) as [Hk _]. split.
  - destruct (freed_disjoint (a, k)) as [Hd|Hd]; [apply elem_of_app; by right|intros [= ? ?]; lia|simpl in Hd; lia..].
  - eapply (hk_alloc_out Hok); [rewrite HA; by right|apply freed_in_l; tauto].
Qed.

Context {n' l3} (Hcov : cover ((bp, n') :: l3) = cover ((bp, n) :: l2)) (Hap : apart ((bp, n') :: l3))
  (Hlnk : lseg (hp_mem s) l3 BASE) (Hn : n ≤ n') (Hl3 : ∀ d, d ∈ l3 → d ∈ l2).

Definition freed_list : list (Z * Z) :=
  if p.1 + p.2 =? bp then l1 ++ (p.1, p.2 + n') :: l3 else l1 ++ p :: (bp, n') :: l3.
Definition freed_heap : heap :=
  let nx := first_addr l3 BASE in
  MkHeap (<[p.1 := if p.1 + p.2 =? bp then MkHdr nx (p.2 + n') else MkHdr bp p.2]> (<[bp := MkHdr nx n']> (hp_mem s))) p.1 (hp_brk s).

Lemma freed_size : 0 ≤ n' + p.2 < 4294967296.
Proof.
  pose proof freed_bp. pose proof freed_below. pose proof (hk_sizes_l Hok p ltac:(apply freed_in_l; tauto)).
  pose proof (hk_low Hok p ltac:(apply elem_of_app; left; apply freed_in_l; tauto)). pose proof (hk_brk _ _ _ _ Hok). unfold BASE in *.
  assert (bp + n' - 1 ∈ cover ((bp, n) :: l2)) as Hin by (rewrite <-Hcov, cover_cons; apply elem_of_app; left; apply elem_of_seqZ; simpl; lia).
  assert (bp + n' - 1 ∈ W) as HW.
  { rewrite <-(hk_cover _ _ _ _ Hok). apply elem_of_cover in Hin as (b & Hb & Hu). apply elem_of_cover. exists b. split; [|done].
    rewrite freed_perm. apply elem_of_cons in Hb as [->|Hb]; [by left|]. right. apply elem_of_app. left. apply freed_in_l. tauto. }
  pose proof (hk_range _ _ _ _ Hok _ HW). unfold BASE in *. lia.
Qed.
Lemma freed_cover : cover (freed_list ++ A') ≡ₚ W.
Proof.
  rewrite <-(hk_cover _ _ _ _ Hok), freed_perm, HL, cover_cons, !cover_app, !cover_cons.
  rewrite !cover_cons in Hcov. simpl in Hcov. unfold freed_list. pose proof freed_bp. pose proof (hk_sizes_l Hok p ltac:(apply freed_in_l; tauto)).
  assert (∀ x y z t u : list Z, (x ++ y ++ z ++ t) ++ u ≡ₚ z ++ (x ++ y ++ t) ++ u) as Hperm by (intros; solve_Permutation).
  case_match eqn:E; rewrite !cover_app, !cover_cons; simpl.
  - apply Z.eqb_eq in E. rewrite seqZ_app by lia. rewrite E, <-(app_assoc (seqZ p.1 p.2)), Hcov. apply Hperm.
  - rewrite Hcov. apply Hperm.
Qed.
Lemma freed_apart : apart freed_list.
Proof.
  pose proof (hk_apart _ _ _ _ Hok) as HapL. rewrite HL in HapL. pose proof freed_below.
  assert (∀ b c, last l1 = Some b → c = p.1 → b.1 + b.2 < c) as Hlast.
  { intros b c Hb ->. destruct (apart_mid _ _ _ HapL) as [H1 _]; [intros d Hd; apply (hk_sizes_l Hok); by rewrite HL|].
    apply H1. by apply last_Some_elem_of. }
  apply apart_app in HapL as [Hl1 _]. unfold freed_list. case_match eqn:E.
  - apply apart_app_2; [done| |]; [|intros b c Hb [= <-]; by apply Hlast].
    destruct Hap as [Hm Ha]. split; [|done]. destruct l3; [done|]. simpl in *. lia.
  - apply apart_app_2; [done| |]; [|intros b c Hb [= <-]; by apply Hlast].
    split; [|done]. simpl. lia.
Qed.

Lemma freed_links : lseg (hp_mem freed_heap) freed_list BASE.
Proof.
  pose proof (hk_apart _ _ _ _ Hok) as HapL. pose proof (hk_links _ _ _ _ Hok) as Hl. rewrite HL in HapL, Hl. apply lseg_app in Hl as [Hl1 _].
  destruct (apart_mid _ _ _ HapL) as [H1 _]; [intros d Hd; apply (hk_sizes_l Hok); by rewrite HL|].
  pose proof freed_below. pose proof (hk_sizes_l Hok p ltac:(apply freed_in_l; tauto)).
  assert (lseg (hp_mem freed_heap) l1 p.1) as Hl1'.
  { eapply lseg_ext; [exact Hl1|]. intros b Hb. cbn [freed_heap hp_mem]. pose proof (H1 b Hb). pose proof (hk_sizes_l Hok b ltac:(apply freed_in_l; tauto)).
    rewrite !lookup_insert_ne by lia. done. }
  assert (lseg (hp_mem freed_heap) l3 BASE) as Hl3'.
  { eapply lseg_ext; [exact Hlnk|]. intros b Hb. cbn [freed_heap hp_mem]. pose proof (Hl2 b (Hl3 b Hb)). rewrite !lookup_insert_ne by lia. done. }
  unfold freed_list. case_match eqn:E; rewrite lseg_app; (split; [exact Hl1'|]); simpl; (split; [|]).
  - rewrite lookup_insert_eq, E. done.
  - done.
  - rewrite lookup_insert_eq, E. by destruct p.
  - split; [|done]. rewrite lookup_insert_ne by lia. by rewrite lookup_insert_eq.
Qed.
Lemma freed_ok : heap_ok freed_list A' W freed_heap.
Proof.
  pose proof freed_bp. pose proof freed_below as Hbl.
  assert (∀ b, b ∈ L → b ≠ (BASE, 0) → 0 < b.2) as Hpos by (intros; by apply (hk_pos _ _ _ _ Hok); [apply elem_of_app; left|]).
  split.
  - pose proof (hk_head _ _ _ _ Hok) as Hh. rewrite HL in Hh. unfold freed_list. case_match eqn:E; destruct l1; [|done..].
    apply Z.eqb_eq in E. simplify_eq/=. lia.
  - apply freed_links.
  - apply freed_apart.
  - intros b [Hb|Hb]%elem_of_app Hne; [|destruct b; by destruct (hk_alloc _ _ _ _ Hok _ _ ltac:(rewrite HA; by right))].
    unfold freed_list in Hb. pose proof (hk_sizes_l Hok p ltac:(apply freed_in_l; tauto)).
    assert (∀ d, d ∈ l3 → 0 < d.2) as Hl3p by (intros d Hd; by apply freed_above, Hl3).
    destruct (p.1 + p.2 =? bp); apply elem_of_app in Hb as [Hb|Hb].
    + apply Hpos; [|done]. apply freed_in_l. tauto.
    + apply elem_of_cons in Hb as [->|Hb]; [simpl; lia|by apply Hl3p].
    + apply Hpos; [|done]. apply freed_in_l. tauto.
    + apply elem_of_cons in Hb as [->|[->|Hb]%elem_of_cons]; [apply Hpos; [apply freed_in_l; tauto|done]|simpl; lia|by apply Hl3p].
  - intros a k Ha. destruct (freed_alloc a k Ha). destruct (hk_alloc _ _ _ _ Hok a k ltac:(rewrite HA; by right)) as (? & q & E).
    split; [done|]. exists q. cbn [freed_heap hp_mem]. by rewrite !lookup_insert_ne.
  - apply freed_cover.
  - apply (hk_nodup _ _ _ _ Hok).
  - apply (hk_range _ _ _ _ Hok).
  - apply (hk_brk _ _ _ _ Hok).
  - cbn [freed_heap hp_freep]. unfold freed_list. case_match; rewrite fmap_app, elem_of_app; right; by left.
Qed.
Lemma freed_fits : ∃ b, b ∈ freed_list ∧ n ≤ b.2.
Proof.
  pose proof (hk_sizes_l Hok p ltac:(apply freed_in_l; tauto)). unfold freed_list. case_match.
  - exists (p.1, p.2 + n'). split; [apply elem_of_app; right; by left|simpl; lia].
  - exists (bp, n'). split; [apply elem_of_app; right; right; by left|done].
Qed.
End freed.

(** [free] of a block that is allocated. *)
Lemma free_ok L A W s bp n A' : heap_ok L A W s → A ≡ₚ (bp, n) :: A' →
  ∃ L' s', free_ (bp + 1) s = Ok (tt, s') ∧ heap_ok L' A' W s' ∧ hp_brk s' = hp_brk s ∧
    size (hp_mem s') = size (hp_mem s) ∧ ∃ b, b ∈ L' ∧ n ≤ b.2.
Proof.
  intros Hok HA. destruct (hk_cases Hok) as [l0 E0].
  assert ((bp, n) ∈ A) as Hin by (rewrite HA; by left). destruct (hk_alloc _ _ _ _ Hok bp n Hin) as (Hn & q & Hbp).
  assert ((bp, n) ≠ (BASE, 0)) as Hne by (intros [= ? ?]; lia).
  pose proof (hk_bounds Hok (bp, n) ltac:(apply elem_of_app; by right) Hne) as [Hlow _]. simpl in Hlow.
  destruct (find_place L bp) as (l1 & p & l2 & E & Hp & Hl2); [apply (hk_apart _ _ _ _ Hok)|apply (hk_sizes_l Hok)|rewrite E0; by eexists| |].
  { intros (b & Eb & Hb)%list_elem_of_fmap. by destruct (hk_alloc_out Hok bp n b Hin Hb). }
  pose proof (hk_links _ _ _ _ Hok) as Hlinks. rewrite E in Hlinks. pose proof (lseg_split _ _ _ _ _ Hlinks) as Hpm. apply lseg_app in Hlinks as (_ & _ & Hl).
  pose proof (hk_apart _ _ _ _ Hok) as Hap. rewrite E in Hap. apply apart_app in Hap as [_ [_ Hap]].
  destruct (join_next_ok s bp n q p.1 p.2 l2) as (n' & l3 & Ej & Hcov & Hap3 & Hl3 & Hnn & Hsub);
    [done..|by apply (freed_above Hok HA E Hp Hl2)|done|done|].
  exists (@freed_list bp l1 p n' l3), (@freed_heap s bp p n' l3). split_and!; [|by eapply freed_ok|done| |by eapply freed_fits].
  2: { cbn. assert (bp ≠ p.1) by lia. rewrite !map_size_insert, !lookup_insert_ne, Hbp, Hpm by done. done. }
  unfold free_. cbv zeta. replace (bp + 1 - 1) with bp by lia. erewrite bind_step by done. erewrite bind_step by done. erewrite bind_step by (by eapply find_ok).
  erewrite bind_step by exact Ej. erewrite bind_step; [|eapply join_prev_ok]; [done|..].
  - cbn. apply lookup_insert_eq.
  - cbn. rewrite lookup_insert_ne by lia. done.
  - by eapply freed_size.
Qed.

(** ** malloc *)

Section alloc.
Context {L A W s nu x pv b y} (Hok : heap_ok L A W s) (HL : L = x ++ pv :: b :: y) (Hnu : 0 < nu ≤ b.2).

Lemma alloc_order : (∀ c, c ∈ x → c.1 < pv.1) ∧ pv.1 < b.1 ∧ ∀ c, c ∈ y → b.1 + b.2 < c.1.
Proof.
  pose proof (hk_apart _ _ _ _ Hok) as Hap. rewrite HL in Hap. assert (∀ c, c ∈ L → 0 ≤ c.2) as Hs by (intros; by apply (hk_sizes_l Hok)).
  destruct (apart_mid _ _ _ Hap) as [H1 H2]; [by rewrite <-HL|].
  assert (L = (x ++ [pv]) ++ b :: y) as E by (by rewrite HL, <-app_assoc). rewrite <-HL, E in Hap.
  destruct (apart_mid _ _ _ Hap) as [H3 H4]; [by rewrite <-E|]. split_and!; [|pose proof (H2 b ltac:(by left)); pose proof (Hs pv ltac:(rewrite HL; set_solver)); lia|done].
  intros c Hc. pose proof (H1 c Hc). pose proof (Hs c ltac:(rewrite HL; set_solver)). lia.
Qed.
Lemma alloc_b : b ∈ L ∧ pv ∈ L ∧ b ≠ (BASE, 0) ∧ b.2 < 4294967296 ∧ BASE < b.1.
Proof.
  assert (b ∈ L) as Hb by (rewrite HL; set_solver). assert (b ≠ (BASE, 0)) as Hne by (intros ->; simpl in *; lia).
  split_and!; [done|rewrite HL; set_solver|done| |].
  - apply (hk_small Hok). apply elem_of_app. by left.
  - by apply (hk_bounds Hok); [apply elem_of_app; left|].
Qed.
Lemma alloc_hdrs : hp_mem s !! b.1 = Some (MkHdr (first_addr y BASE) b.2) ∧ hp_mem s !! pv.1 = Some (MkHdr b.1 pv.2) ∧
  lseg (hp_mem s) x pv.1 ∧ lseg (hp_mem s) y BASE.
Proof. pose proof (hk_links _ _ _ _ Hok) as Hl. rewrite HL, lseg_app in Hl. destruct Hl as (? & ? & ? & ?). done. Qed.

(** The whole block. *)
Lemma alloc_whole : nu = b.2 →
  heap_ok (x ++ pv :: y) ((b.1, nu) :: A) W (s <| hp_mem := <[pv.1 := MkHdr (first_addr y BASE) pv.2]> (hp_mem s) |> <| hp_freep := pv.1 |>).
Proof.
  intros Enu. destruct alloc_order as (Hx & Hpb & Hy), alloc_b as (HbL & HpL & Hb0 & Hb32 & Hlow), alloc_hdrs as (Hbm & Hpm & Hlx & Hly).
  assert ((x ++ pv :: y) ++ (b.1, nu) :: A ≡ₚ L ++ A) as Hperm by (rewrite HL, Enu, <-!app_assoc; destruct b; simpl; solve_Permutation).
  split.
  - pose proof (hk_head _ _ _ _ Hok) as Hh. rewrite HL in Hh. by destruct x.
  - apply lseg_app. split; [|split]; cbn.
    + eapply lseg_ext; [exact Hlx|]. intros c Hc. rewrite lookup_insert_ne; [done|]. pose proof (Hx c Hc). lia.
    + apply lookup_insert_eq.
    + eapply lseg_ext; [exact Hly|]. intros c Hc. rewrite lookup_insert_ne; [done|]. pose proof (Hy c Hc). lia.
  - pose proof (hk_apart _ _ _ _ Hok) as Hap. rewrite HL in Hap. assert (x ++ pv :: b :: y = (x ++ [pv]) ++ b :: y) as E by (by rewrite <-app_assoc).
    rewrite E in Hap. apply apart_app in Hap as [Hap1 [_ Hap2]]. replace (x ++ pv :: y) with ((x ++ [pv]) ++ y) by (by rewrite <-app_assoc).
    apply apart_app_2; [done..|]. intros d c. rewrite last_snoc. intros [= <-] Hc.
    pose proof (hk_apart _ _ _ _ Hok) as Hap. rewrite HL in Hap. apply apart_app in Hap as [_ [Hm _]]. simpl in Hm.
    pose proof (Hy c ltac:(by apply head_Some_elem_of)). lia.
  - intros c Hc. apply (hk_pos _ _ _ _ Hok). by rewrite <-Hperm.
  - intros a k [[= -> ->]|Ha]%elem_of_cons; cbn.
    + split; [lia|]. rewrite lookup_insert_ne, Hbm, Enu by lia. by eexists.
    + destruct (hk_alloc _ _ _ _ Hok a k Ha) as (? & q & E). split; [done|]. exists q. destruct (hk_alloc_out Hok a k pv Ha HpL). by rewrite lookup_insert_ne.
  - rewrite Hperm. apply (hk_cover _ _ _ _ Hok).
  - apply (hk_nodup _ _ _ _ Hok).
  - apply (hk_range _ _ _ _ Hok).
  - apply (hk_brk _ _ _ _ Hok).
  - cbn. rewrite fmap_app, elem_of_app. right. by left.
Qed.

(** The end of the block. *)
Lemma alloc_part h : nu < b.2 → let a := b.1 + (b.2 - nu) in
  heap_ok (x ++ pv :: (b.1, b.2 - nu) :: y) ((a, nu) :: A) W
    (s <| hp_mem := <[a := MkHdr h nu]> (<[b.1 := MkHdr (first_addr y BASE) (b.2 - nu)]> (hp_mem s)) |> <| hp_freep := pv.1 |>).
Proof.
  intros Hlt a. destruct alloc_order as (Hx & Hpb & Hy), alloc_b as (HbL & HpL & Hb0 & Hb32 & Hlow), alloc_hdrs as (Hbm & Hpm & Hlx & Hly).
  assert (cover ((x ++ pv :: (b.1, b.2 - nu) :: y) ++ (a, nu) :: A) ≡ₚ cover (L ++ A)) as Hperm.
  { rewrite HL, !cover_app, !cover_cons. simpl. replace (seqZ b.1 b.2) with (seqZ b.1 (b.2 - nu) ++ seqZ a nu) by
      (unfold a; rewrite <-seqZ_app by lia; f_equal; lia). solve_Permutation. }
  split.
  - pose proof (hk_head _ _ _ _ Hok) as Hh. rewrite HL in Hh. by destruct x.
  - apply lseg_app. split; [|split; [|split]]; cbn.
    + eapply lseg_ext; [exact Hlx|]. intros c Hc. pose proof (Hx c Hc). rewrite !lookup_insert_ne; [done|lia..].
    + rewrite !lookup_insert_ne by lia. done.
    + rewrite lookup_insert_ne by lia. apply lookup_insert_eq.
    + eapply lseg_ext; [exact Hly|]. intros c Hc. pose proof (Hy c Hc). rewrite !lookup_insert_ne; [done|lia..].
  - pose proof (hk_apart _ _ _ _ Hok) as Hap. rewrite HL in Hap. clear -Hap Hnu Hlt. induction x as [|c x' IH].
    + destruct Hap as (Hm & Hm2 & Hap). split; [done|]. split; [|done]. destruct y; [done|]. simpl in *. lia.
    + destruct Hap as [Hm Hap]. split; [|by apply IH]. by destruct x'.
  - intros c [Hc|[->|Hc]%elem_of_cons]%elem_of_app Hne; [|simpl; lia|apply (hk_pos _ _ _ _ Hok); [apply elem_of_app; by right|done]].
    apply elem_of_app in Hc as [Hc|[->|[->|Hc]%elem_of_cons]%elem_of_cons]; [| |simpl; lia|];
      (apply (hk_pos _ _ _ _ Hok); [apply elem_of_app; left; rewrite HL; set_solver|done]).
  - intros a' k [[= -> ->]|Ha]%elem_of_cons; cbn.
    + split; [lia|]. rewrite lookup_insert_eq. by eexists.
    + destruct (hk_alloc _ _ _ _ Hok a' k Ha) as (? & q & E). split; [done|]. exists q. destruct (hk_alloc_out Hok a' k b Ha HbL).
      rewrite !lookup_insert_ne; [done|lia..].
  - rewrite Hperm. apply (hk_cover _ _ _ _ Hok).
  - apply (hk_nodup _ _ _ _ Hok).
  - apply (hk_range _ _ _ _ Hok).
  - apply (hk_brk _ _ _ _ Hok).
  - cbn. rewrite fmap_app, elem_of_app. right. by left.
Qed.
End alloc.

Lemma find_pred L A W s q h b : heap_ok L A W s → q ∈ L.*1 → hp_mem s !! q = Some h → h_ptr h = b.1 → b ∈ L → b ≠ (BASE, 0) →
  ∃ x pv y, pv.1 = q ∧ L = x ++ pv :: b :: y.
Proof.
  intros Hok (pv & -> & Hpv)%list_elem_of_fmap Hq Eh Hb Hne. apply list_elem_of_split in Hpv as (x & y & E).
  pose proof (hk_links _ _ _ _ Hok) as Hl. rewrite E in Hl. apply lseg_split in Hl. rewrite Hl in Hq. injection Hq as <-. cbn in Eh.
  destruct y as [|d y]; simpl in Eh.
  - exfalso. apply Hne. by apply (hk_base Hok).
  - exists x, pv, y. split; [done|]. rewrite E. rewrite (hk_addr_inj Hok d b); [done|rewrite E; set_solver|done|done].
Qed.

Lemma first_fit (nu : Z) (l : list (Z * Z)) :
  (∃ o1 b o2, l = o1 ++ b :: o2 ∧ nu ≤ b.2 ∧ ∀ c, c ∈ o1 → c.2 < nu) ∨ ∀ c, c ∈ l → c.2 < nu.
Proof.
  induction l as [|d l [(o1 & b & o2 & -> & Hb & Ho)|IH]]; [right; by intros c ?%not_elem_of_nil|..]; (destruct (decide (nu ≤ d.2)) as [Hd|Hd];
    [left; eexists [], d, _; split_and!; [done|done|by intros c ?%not_elem_of_nil]|]).
  - left. exists (d :: o1), b, o2. split_and!; [done..|]. intros c [->|Hc]%elem_of_cons; [lia|by apply Ho].
  - right. intros c [->|Hc]%elem_of_cons; [lia|by apply IH].
Qed.

(** The list in the order in which [malloc] looks at it: from behind [freep] to
    [freep]. *)
Lemma malloc_order L A W s : heap_ok L A W s →
  ∃ o f h, f.1 = hp_freep s ∧ f ∉ o ∧ (∀ c, c ∈ L ↔ c ∈ o ++ [f]) ∧ length L = Datatypes.S (length o) ∧
    hp_mem s !! hp_freep s = Some h ∧ h_ptr h = first_addr (o ++ [f]) (h_ptr h) ∧ lseg (hp_mem s) (o ++ [f]) (h_ptr h).
Proof.
  intros Hok. destruct (ring_at L A W s (hp_freep s) Hok (hk_freep _ _ _ _ Hok)) as (f & la & lb & E & Hf & Hring).
  exists (lb ++ la), f. pose proof Hring as [Hfm Hl]. rewrite Hf in Hfm. eexists. split_and!; [done| | | |exact Hfm| |].
  - pose proof (hk_addrs Hok) as Hnd. rewrite E, fmap_app, fmap_cons in Hnd. apply NoDup_app in Hnd as (_ & H1 & H2). apply NoDup_cons in H2 as [H2 _].
    intros [Hc|Hc]%elem_of_app; [apply H2; by apply list_elem_of_fmap_2|]. apply (H1 f.1); [by apply list_elem_of_fmap_2|by left].
  - intros c. rewrite E. clear. set_solver.
  - rewrite E, !length_app. simpl. lia.
  - cbn [h_ptr]. rewrite (first_addr_app (lb ++ la)). cbn [first_addr]. by rewrite Hf.
  - cbn [h_ptr]. rewrite lseg_app. cbn [first_addr]. rewrite Hf. split; [done|]. split; [|done]. cbn [first_addr]. by rewrite Hf.
Qed.

Section malloc_facts.
Context (sbrk : Z → U Z).

Lemma alloc_step L A W s nu x pv b y : heap_ok L A W s → L = x ++ pv :: b :: y → 0 < nu ≤ b.2 →
  ∃ a L' s', malloc_step sbrk nu (pv.1, b.1) s = Ok (inr (a + 1), s') ∧ heap_ok L' ((a, nu) :: A) W s' ∧ hp_brk s' = hp_brk s.
Proof.
  intros Hok HL Hnu. pose proof (alloc_hdrs Hok HL) as (Hbm & Hpm & _). destruct (alloc_b Hok HL Hnu) as (_ & _ & _ & Hb32 & _).
  unfold malloc_step. erewrite bind_step by (by apply hdr_ok). cbn [h_size h_ptr]. rewrite (proj2 (Z.leb_le _ _)) by lia.
  destruct (Z.eqb_spec b.2 nu) as [E|E].
  - exists b.1. eexists _, _. split_and!; [|by apply (alloc_whole Hok HL Hnu)|done].
    rewrite bind_assoc. erewrite bind_step by (eapply set_hdr_to; [exact Hpm|reflexivity]). done.
  - set (a := b.1 + (b.2 - nu)). exists a. eexists _, _. split_and!; [|apply (alloc_part Hok HL Hnu (h_ptr (default (MkHdr 0 0) (<[b.1 := MkHdr (first_addr y BASE) (b.2 - nu)]> (hp_mem s) !! a)))); lia|done].
    rewrite bind_assoc. erewrite bind_step by (eapply (set_hdr_to _ _ _ (MkHdr (first_addr y BASE) (b.2 - nu))); [exact Hbm|cbn; by rewrite wrap_id by lia]).
    rewrite bind_assoc. erewrite bind_step by (apply hdr_ok; cbn; apply lookup_insert_eq). cbn [h_size]. done.
Qed.

Lemma malloc_walk nu o1 l e q h k s : lseg (hp_mem s) (o1 ++ l) e → hp_mem s !! q = Some h → h_ptr h = first_addr (o1 ++ l) e →
  (∀ c, c ∈ o1 → c.2 < nu ∧ c.1 ≠ hp_freep s) →
  ∃ q' h', (q' = q ∨ q' ∈ o1.*1) ∧ hp_mem s !! q' = Some h' ∧ h_ptr h' = first_addr l e ∧
    loop (length o1 + k) (malloc_step sbrk nu) (q, h_ptr h) s = loop k (malloc_step sbrk nu) (q', h_ptr h') s.
Proof.
  revert q h. induction o1 as [|c o1 IH]; intros q h Hl Hq Eh Ho.
  - exists q, h. by split_and!; [left|..].
  - destruct Hl as [Hc Hl]. simpl in Eh. destruct (Ho c ltac:(by left)) as [Hsz Hfr].
    destruct (IH c.1 _ Hl Hc ltac:(done) ltac:(intros d Hd; apply Ho; by right)) as (q' & h' & Hq' & Hm & E' & Eloop).
    exists q', h'. split_and!; [|done|done|].
    + right. rewrite fmap_cons, elem_of_cons. destruct Hq' as [->|?]; [by left|by right].
    + rewrite <-Eloop. simpl length. rewrite Nat.add_succ_l. apply loop_inl. unfold malloc_step. rewrite Eh.
      erewrite bind_step by (by apply hdr_ok). cbn [h_size h_ptr]. rewrite (proj2 (Z.leb_gt _ _)) by lia.
      erewrite bind_step by done. by rewrite (proj2 (Z.eqb_neq _ _)) by done.
Qed.

(** When a free block is large enough, the loop finds one. *)
Lemma malloc_fits L A W s nu k : heap_ok L A W s → 0 < nu → (∃ b, b ∈ L ∧ nu ≤ b.2) → (length L ≤ k)%nat →
  ∃ h a L' s', hp_mem s !! hp_freep s = Some h ∧ loop k (malloc_step sbrk nu) (hp_freep s, h_ptr h) s = Ok (a + 1, s') ∧
    heap_ok L' ((a, nu) :: A) W s' ∧ hp_brk s' = hp_brk s.
Proof.
  intros Hok Hnu (b0 & Hb0 & Hfit) Hk. destruct (malloc_order L A W s Hok) as (o & f & h & Hf & Hfo & Hin & Hlen & Hh & Eh & Hl).
  destruct (first_fit nu (o ++ [f])) as [(o1 & b & o2 & E & Hb & Ho)|Hno]; [|pose proof (Hno b0 ltac:(by apply Hin)); lia].
  assert (f ∉ o1) as Hfo1.
  { intros Hc. destruct o2 as [|d o2 _] using rev_ind; [apply app_inj_tail in E as [-> _]; done|].
    rewrite app_comm_cons, app_assoc in E. apply app_inj_tail in E as [-> _]. apply Hfo. apply elem_of_app. by left. }
  assert (b ∈ L) as HbL by (apply Hin; rewrite E; set_solver). rewrite E in Hl, Eh.
  assert (∀ c, c ∈ o1 → c ∈ L) as Hsub by (intros c Hc; apply Hin; rewrite E; set_solver).
  assert (f ∈ L) as HfL by (apply Hin; set_solver).
  assert (length o1 < k)%nat as Hlo by (apply (f_equal length) in E; rewrite !length_app in E; simpl in E; lia).
  destruct (malloc_walk nu o1 (b :: o2) (h_ptr h) (hp_freep s) h (Datatypes.S (k - length o1 - 1)) s Hl Hh Eh) as (q & h' & Hq & Hqm & Eq & Eloop).
  { intros c Hc. split; [by apply Ho|]. rewrite <-Hf. intros Ec. apply (hk_addr_inj Hok) in Ec as ->; [done|by apply Hsub|done]. }
  replace (length o1 + Datatypes.S (k - length o1 - 1))%nat with k in Eloop by lia. cbn in Eq.
  destruct (find_pred L A W s q h' b Hok) as (x & pv & y & <- & EL); [|done..| |].
  { destruct Hq as [->|(c & -> & Hc)%list_elem_of_fmap]; [rewrite <-Hf|]; apply list_elem_of_fmap_2; auto. }
  { intros ->. simpl in Hb. lia. }
  destruct (alloc_step L A W s nu x pv b y Hok EL ltac:(lia)) as (a & L' & s' & Es & Hok' & Hbrk).
  exists h, a, L', s'. split_and!; [done| |done|done]. rewrite Eloop, Eq. by apply loop_inr.
Qed.

(** [sys_sbrk] grows the program from its end, or fails and changes nothing. *)
Definition sbrk_spec : Prop := ∀ n s, 0 ≤ n < 2147483648 → n mod HDRSIZE = 0 →
  sbrk n s = Ok (SBRK_ERROR, s) ∨ sbrk n s = Ok (HDRSIZE * hp_brk s, s <| hp_brk := hp_brk s + n / HDRSIZE |>).

Definition grain (nu : Z) : Z := if nu <? 4096 then 4096 else nu.

(** New memory, as a block that is allocated. *)
Lemma heap_grow L A W s n h : heap_ok L A W s → 0 < n → hp_brk s + n ≤ 4294967296 →
  heap_ok L ((hp_brk s, n) :: A) (seqZ (hp_brk s) n ++ W)
    (s <| hp_brk := hp_brk s + n |> <| hp_mem := <[hp_brk s := MkHdr h n]> (hp_mem s) |>).
Proof.
  intros Hok Hn Hmax. pose proof (hk_brk _ _ _ _ Hok).
  assert (∀ b, b ∈ L ++ A → b.1 < hp_brk s) as Hlow.
  { intros b Hb. destruct (decide (b = (BASE, 0))) as [->|Hne]; [simpl; lia|].
    pose proof (hk_bounds Hok b Hb Hne). pose proof (hk_pos _ _ _ _ Hok b Hb Hne). lia. }
  split; try apply Hok.
  - eapply lseg_ext; [apply (hk_links _ _ _ _ Hok)|]. intros b Hb. cbn. pose proof (Hlow b ltac:(apply elem_of_app; by left)).
    by rewrite lookup_insert_ne by lia.
  - intros b Hb Hne. rewrite <-Permutation_middle in Hb. apply elem_of_cons in Hb as [->|Hb]; [done|by apply (hk_pos _ _ _ _ Hok)].
  - intros a k [[= -> ->]|Ha]%elem_of_cons; cbn; [split; [done|]; rewrite lookup_insert_eq; by eexists|].
    pose proof (Hlow (a, k) ltac:(apply elem_of_app; by right)). simpl in *. rewrite lookup_insert_ne by lia. by apply (hk_alloc _ _ _ _ Hok).
  - rewrite <-Permutation_middle, cover_cons. by rewrite (hk_cover _ _ _ _ Hok).
  - apply NoDup_app. split_and!; [apply NoDup_seqZ| |apply (hk_nodup _ _ _ _ Hok)]. intros u Hu%elem_of_seqZ HW. pose proof (hk_range _ _ _ _ Hok u HW). lia.
  - intros u [Hu%elem_of_seqZ|Hu]%elem_of_app; cbn; [lia|]. pose proof (hk_range _ _ _ _ Hok u Hu). lia.
  - cbn. lia.
Qed.

Lemma morecore_ok L A W s nu : sbrk_spec → heap_ok L A W s → 0 ≤ nu < 134217728 → hp_brk s + grain nu ≤ 4294967296 →
  morecore sbrk nu s = Ok (0, s) ∨
  ∃ L' s', morecore sbrk nu s = Ok (hp_freep s', s') ∧ hp_freep s' ≠ 0 ∧ heap_ok L' A (seqZ (hp_brk s) (grain nu) ++ W) s' ∧
    hp_brk s' = hp_brk s + grain nu ∧ (size (hp_mem s') ≤ Datatypes.S (size (hp_mem s)))%nat ∧ ∃ b, b ∈ L' ∧ nu ≤ b.2.
Proof.
  intros Hsbrk Hok Hnu Hmax. pose proof (hk_brk _ _ _ _ Hok). unfold morecore. fold (grain nu). assert (0 < grain nu < 134217728) as Hg by (unfold grain; case_match; lia).
  assert (nu ≤ grain nu) by (unfold grain; case_match; lia). cbv zeta. rewrite i32_id by (unfold HDRSIZE; lia).
  destruct (Hsbrk (grain nu * HDRSIZE) s) as [E|E]; [unfold HDRSIZE; lia|by apply Z_mod_mult| |].
  - left. erewrite bind_step by exact E. done.
  - right. rewrite Z.div_mul in E by done. pose proof (heap_grow L A W s (grain nu) (h_ptr (default (MkHdr 0 0) (hp_mem s !! hp_brk s))) Hok ltac:(lia) Hmax) as Hok1.
    destruct (free_ok _ _ _ _ (hp_brk s) (grain nu) A Hok1) as (L' & s' & Ef & Hok' & Hbrk & Hsize & b & Hb & Hbs); [done|].
    exists L', s'. split_and!; [|pose proof (hk_freep_low Hok'); unfold BASE in *; lia|done|done| |exists b; split; [done|lia]].
    2: { rewrite Hsize. cbn. rewrite map_size_insert. case_match; simpl; lia. }
    erewrite bind_step by exact E. rewrite (proj2 (Z.eqb_neq _ _)) by (unfold HDRSIZE, SBRK_ERROR, BASE in *; lia).
    cbv zeta. rewrite Z.mul_comm, Z.div_mul by done. erewrite bind_step by done. erewrite bind_step by exact Ef. done.
Qed.

Lemma malloc_search L A W s nu h k : sbrk_spec → heap_ok L A W s → 0 < nu < 134217728 → hp_brk s + grain nu ≤ 4294967296 →
  hp_mem s !! hp_freep s = Some h → (2 * Datatypes.S (size (hp_mem s)) ≤ k)%nat →
  (loop k (malloc_step sbrk nu) (hp_freep s, h_ptr h) s = Ok (0, s)) ∨
  ∃ a L' n' s', loop k (malloc_step sbrk nu) (hp_freep s, h_ptr h) s = Ok (a + 1, s') ∧
    heap_ok L' ((a, nu) :: A) (seqZ (hp_brk s) n' ++ W) s' ∧ hp_brk s' = hp_brk s + n' ∧ 0 ≤ n'.
Proof.
  intros Hsbrk Hok Hnu Hmax Hh Hk. pose proof (hk_length Hok) as HlenL.
  destruct (first_fit nu L) as [(o1 & b & o2 & E & Hb & _)|Hno].
  - right. destruct (malloc_fits L A W s nu k Hok ltac:(lia)) as (h' & a & L' & s' & Hh' & El & Hok' & Hbrk); [exists b; split; [rewrite E; set_solver|done]|lia|].
    simplify_eq. exists a, L', 0, s'. split_and!; [done..|lia|done].
  - destruct (malloc_order L A W s Hok) as (o & f & h' & Hf & Hfo & Hin & Hlen & Hh' & Eh & Hl). simplify_eq.
    assert (f ∈ L) as HfL by (apply Hin; set_solver). destruct (hk_lookup Hok f HfL) as [nx Hfm].
    destruct (malloc_walk nu o [f] (h_ptr h) (hp_freep s) h (Datatypes.S (k - length o - 1)) s Hl Hh Eh) as (q & g & _ & _ & Eq & Eloop).
    { intros c Hc. assert (c ∈ L) by (apply Hin; set_solver). split; [by apply Hno|]. rewrite <-Hf. intros Ec. apply (hk_addr_inj Hok) in Ec as ->; done. }
    replace (length o + Datatypes.S (k - length o - 1))%nat with k in Eloop by lia. rewrite Eloop, Eq. cbn [first_addr].
    assert (malloc_step sbrk nu (q, f.1) s = (p ← morecore sbrk nu; if p =? 0 then mret (inr 0) else h ← hdr p; mret (inl (p, h_ptr h))) s) as Estep.
    { unfold malloc_step. erewrite bind_step by (by apply hdr_ok). cbn [h_size]. pose proof (Hno f HfL). rewrite (proj2 (Z.leb_gt _ _)) by lia.
      erewrite bind_step by done. by rewrite (proj2 (Z.eqb_eq _ _)) by done. }
    destruct (morecore_ok L A W s nu Hsbrk Hok ltac:(lia) Hmax) as [E|(L' & s' & E & Hfr & Hok' & Hbrk & Hsize & Hfit)].
    + left. apply loop_inr. rewrite Estep. by erewrite bind_step by exact E.
    + right. pose proof (hk_length Hok').
      destruct (malloc_fits L' A _ s' nu (k - length o - 1)%nat Hok' ltac:(lia) Hfit) as (h' & a & L2 & s2 & Hh2 & El & Hok2 & Hbrk2); [lia|].
      exists a, L2, (grain nu), s2. split_and!; [|done|by rewrite Hbrk2|unfold grain; case_match; lia].
      erewrite loop_inl; [exact El|]. rewrite Estep. erewrite bind_step by exact E. rewrite (proj2 (Z.eqb_neq _ _)) by done.
      by erewrite bind_step by (by apply hdr_ok).
Qed.
End malloc_facts.

(** ** The allocator's contract *)

(** The state between calls: no call of [malloc] yet, or a heap whose allocated
    blocks, header included, are [A]. *)
Definition heap_inv (A : list (Z * Z)) (W : list Z) (s : heap) : Prop :=
  (hp_freep s = 0 ∧ A = [] ∧ W = [] ∧ BASE < hp_brk s ≤ 4294967296) ∨ ∃ L, heap_ok L A W s.

Lemma heap_init (s : heap) : BASE < hp_brk s ≤ 4294967296 →
  heap_ok [(BASE, 0)] [] [] (s <| hp_freep := BASE |> <| hp_mem := <[BASE := MkHdr BASE 0]> (hp_mem s) |>).
Proof.
  intros Hb. split; [done|by split; [apply lookup_insert_eq|]|done| |by intros a n ?%not_elem_of_nil|done|constructor|by intros u ?%not_elem_of_nil|done|by left].
  intros b [->|?%not_elem_of_nil]%elem_of_cons; done.
Qed.

Lemma nunits_ok nbytes : 0 ≤ nbytes < 2147483600 →
  0 < nunits_of nbytes < 134217728 ∧ nbytes ≤ (nunits_of nbytes - 1) * HDRSIZE < nbytes + HDRSIZE.
Proof.
  intros Hn. unfold nunits_of, HDRSIZE. rewrite wrap_id by dlia. dlia.
Qed.

(** What the program writes in its blocks, behind their headers, is not the
    allocator's. *)
Lemma heap_user_write A W s a n u o : heap_inv A W s → (a, n) ∈ A → a < u < a + n →
  heap_inv A W (s <| hp_mem ::= partial_alter (λ _, o) u |>).
Proof.
  intros [(_ & -> & _)|[L Hok]] Ha Hu; [by apply not_elem_of_nil in Ha|]. right. exists L.
  assert (∀ c k, (c, k) ∈ A → u ≠ c) as HA.
  { intros c k Hc ->. pose proof (hk_alloc _ _ _ _ Hok c k Hc) as [Hk _]. pose proof (hk_alloc _ _ _ _ Hok a n Ha) as [Hn _].
    assert (∀ x y, (x, y) ∈ A → (x, y) ≠ (BASE, 0)) as Hne.
    { intros x y Hx [= -> ->]. by destruct (hk_alloc _ _ _ _ Hok _ _ Hx). }
    apply list_elem_of_split in Ha as (x & y & E). assert ((c, k) ∈ x ++ y) as Hin.
    { rewrite E in Hc. assert ((c, k) ≠ (a, n)) by (intros [= -> ->]; lia). set_solver. }
    destruct (hk_disjoint Hok (a, n) (c, k) (L ++ x ++ y)) as [Hd|Hd]; [rewrite E; solve_Permutation|set_solver|apply Hne; rewrite E; set_solver|by eapply Hne|simpl in Hd; lia..]. }
  split; try apply Hok.
  - eapply lseg_ext; [apply (hk_links _ _ _ _ Hok)|]. intros b Hb. cbn. apply lookup_partial_alter_ne. intros ->.
    destruct (hk_alloc_out Hok a n b Ha Hb). pose proof (hk_sizes_l Hok b Hb). lia.
  - intros c k Hc. cbn. rewrite lookup_partial_alter_ne by (by eapply HA). by apply (hk_alloc _ _ _ _ Hok).
Qed.

(** The first call of [malloc] makes the list. *)
Lemma malloc_start (sbrk : Z → U Z) A W s nbytes : heap_inv A W s →
  ∃ L s1, heap_ok L A W s1 ∧ hp_brk s1 = hp_brk s ∧
    malloc sbrk nbytes s = (prevp ← gets hp_freep; h ← hdr prevp; m ← gets hp_mem;
      loop (2 * Datatypes.S (size m) + 2) (malloc_step sbrk (nunits_of nbytes)) (prevp, h_ptr h)) s1.
Proof.
  intros [(Hf & -> & -> & Hb)|[L Hok]]; unfold malloc; cbv zeta; erewrite bind_step by done.
  - rewrite Hf. eexists [(BASE, 0)], _. split_and!; [by apply heap_init|done|]. cbn [Z.eqb when].
    erewrite bind_step; [done|]. erewrite bind_step by done. erewrite bind_step by apply set_hdr_any.
    erewrite set_hdr_ok by (cbn; apply lookup_insert_eq). cbn. by rewrite insert_insert_eq.
  - exists L, s. split_and!; [done..|]. pose proof (hk_freep_low Hok). rewrite (proj2 (Z.eqb_neq _ _)) by (unfold BASE in *; lia). done.
Qed.

Section contract.
Context (sbrk : Z → U Z).

(** C21. The allocator of the user programs keeps its heap. Between calls every
    unit of memory it has from [sbrk] is in exactly one block, the free blocks are
    in the circle of [freep] in the order of their addresses with no two of them
    touching, and an allocated block still has its size in its header. From any
    such state, [malloc] returns, and it either returns 0 and leaves the blocks as
    they were, or returns the address behind the header of a new block large
    enough for [nbytes], disjoint from every other block, with what [sbrk] gave
    ([n'] units) as the only new memory; [free] of an allocated block returns and
    leaves the other blocks allocated; and what the program writes in its own
    blocks does not matter to it. *)
Theorem umalloc_keeps_heap A W s : sbrk_spec sbrk → heap_inv A W s →
  (∀ nbytes, 0 ≤ nbytes < 2147483600 → hp_brk s + grain (nunits_of nbytes) ≤ 4294967296 →
    ∃ r n' s', malloc sbrk nbytes s = Ok (r, s') ∧ hp_brk s' = hp_brk s + n' ∧
      ((r = 0 ∧ n' = 0 ∧ heap_inv A W s') ∨
       ∃ a n, r = a + 1 ∧ nbytes ≤ (n - 1) * HDRSIZE < nbytes + HDRSIZE ∧ 0 ≤ n' ∧
         heap_inv ((a, n) :: A) (seqZ (hp_brk s) n' ++ W) s' ∧
         ∀ b, b ∈ A → b.1 + b.2 ≤ a ∨ a + n ≤ b.1)) ∧
  (∀ a n A', A ≡ₚ (a, n) :: A' → ∃ s', free_ (a + 1) s = Ok (tt, s') ∧ heap_inv A' W s' ∧ hp_brk s' = hp_brk s) ∧
  (∀ a n u o, (a, n) ∈ A → a < u < a + n → heap_inv A W (s <| hp_mem ::= partial_alter (λ _, o) u |>)).
Proof.
  intros Hsbrk Hinv. split_and!; [| |by intros; eapply heap_user_write].
  - intros nbytes Hn Hmax. destruct (nunits_ok nbytes Hn) as [Hnu Hfit].
    destruct (malloc_start sbrk A W s nbytes Hinv) as (L & s1 & Hok & Hbrk & ->). rewrite <-Hbrk in *.
    destruct (malloc_order L A W s1 Hok) as (_ & _ & h & _ & _ & _ & _ & Hh & _).
    erewrite bind_step by done. erewrite bind_step by (by apply hdr_ok). erewrite bind_step by done.
    destruct (malloc_search sbrk L A W s1 (nunits_of nbytes) h (2 * Datatypes.S (size (hp_mem s1)) + 2) Hsbrk Hok Hnu Hmax Hh) as [E|(a & L' & n' & s' & E & Hok' & Hbrk' & Hn')]; [lia| |].
    + exists 0, 0, s1. split_and!; [done|lia|]. left. split_and!; [done..|]. right. by exists L.
    + exists (a + 1), n', s'. split_and!; [done|done|]. right. exists a, (nunits_of nbytes). split_and!; [done|lia..|done|right; by exists L'|].
      intros b Hb. destruct b as [c k]. pose proof (hk_alloc _ _ _ _ Hok' a _ ltac:(by left)) as [Ha _]. pose proof (hk_alloc _ _ _ _ Hok' c k ltac:(by right)) as [Hk _].
      destruct (hk_disjoint Hok' (a, nunits_of nbytes) (c, k) (L' ++ A)) as [Hd|Hd]; [by rewrite <-Permutation_middle|apply elem_of_app; by right|intros [= ? ?]; lia|intros [= ? ?]; lia|simpl in *; lia..].
  - intros a n A' HA. destruct Hinv as [(_ & -> & _)|[L Hok]]; [by apply Permutation_nil_cons in HA|].
    destruct (free_ok L A W s a n A' Hok HA) as (L' & s' & E & Hok' & Hbrk & _). exists s'. split_and!; [done|right; by exists L'|done].
Qed.
End contract.

(** An [sbrk] that always has memory, a first [malloc(100)], and the heap it leaves. *)
Definition sbrk_ex (n : Z) : U Z := λ s, Ok (HDRSIZE * hp_brk s, s <| hp_brk := hp_brk s + n / HDRSIZE |>).
Definition heap_ex : heap := MkHeap (<[1 := MkHdr 1024 0]> (<[1024 := MkHdr 1 4088]> (<[5112 := MkHdr 0 8]> ∅))) 1 5120.

Example malloc_ex : malloc sbrk_ex 100 (MkHeap ∅ 0 1024) = Ok (5113, heap_ex).
Proof. vm_compute. reflexivity. Qed.
Example malloc_free_ex : ∃ s, (p ← malloc sbrk_ex 100; q ← malloc sbrk_ex 4000; free_ p ;; r ← malloc sbrk_ex 16; free_ q ;; free_ r) heap_ex = Ok (tt, s) ∧
  hp_mem s !! 1024 = Some (MkHdr 1 4088).
Proof. eexists. split; vm_compute; reflexivity. Qed.

Lemma heap_ex_ok : heap_ok [(1, 0); (1024, 4088)] [(5112, 8)] (seqZ 1024 4096) heap_ex.
Proof.
  split; try done.
  - intros b Hb Hne. rewrite !elem_of_app, !elem_of_cons in Hb. destruct Hb as [[->|[->|Hb]]|[->|Hb]]; [done|done|by apply not_elem_of_nil in Hb|done|by apply not_elem_of_nil in Hb].
  - intros a n [[= -> ->]|?%not_elem_of_nil]%elem_of_cons; [|done]. split; [done|]. by eexists.
  - apply NoDup_seqZ.
  - intros u Hu%elem_of_seqZ. unfold BASE. cbn. lia.
  - by left.
Qed.

Lemma umalloc_keeps_heap_witness :
  (∃ r n' s', malloc sbrk_ex 100 heap_ex = Ok (r, s') ∧ hp_brk s' = hp_brk heap_ex + n') ∧
  (∃ s', free_ 5113 heap_ex = Ok (tt, s') ∧ heap_inv [] (seqZ 1024 4096) s').
Proof.
  assert (sbrk_spec sbrk_ex) as Hs by (intros n s _ _; by right).
  assert (heap_inv [(5112, 8)] (seqZ 1024 4096) heap_ex) as Hi by (right; eexists; apply heap_ex_ok).
  destruct (umalloc_keeps_heap sbrk_ex _ _ _ Hs Hi) as (Hm & Hf & _). split.
  - destruct (Hm 100) as (r & n' & s' & E & Hb & _); [done|vm_compute; discriminate|]. by exists r, n', s'.
  - destruct (Hf 5112 8 [] ltac:(done)) as (s' & E & Hinv & _). by exists s'.
Defined.
