(* ===== verification/Print.v ===== *)
(** * Formatted printing

    Models [user/printf.c], and with it the functions that [kernel/printf.c] has
    in common with it ([printint], [printptr], the directives): they are over any
    way of putting out a character and any table of digits. *)

From Stdlib Require Import Strings.String.
From stdpp Require Import base numbers list strings.
From S2P Require Import Prelude.
Open Scope Z_scope.
Open Scope kernel_scope.

Definition PCT : Z := 37.
Definition MINUS : Z := 45.
Definition CH0 : Z := 48.
Definition CH_X : Z := 120.
Definition CH_c : Z := 99.
Definition CH_d : Z := 100.
Definition CH_l : Z := 108.
Definition CH_p : Z := 112.
Definition CH_s : Z := 115.
Definition CH_u : Z := 117.

(** [0123456789ABCDEF]. *)
Definition user_digits : list Z := [48; 49; 50; 51; 52; 53; 54; 55; 56; 57; 65; 66; 67; 68; 69; 70].

(** An argument behind the format: a number, as the 64 bits of its register, or a
    pointer to a string, as the bytes from there on ([None] is a null pointer). *)
Inductive arg := Num (x : Z) | Str (s : option (list Z)).

Section printing.
Context {S : Type} (putc : Z → M S unit) (digits : list Z).
Abbreviation P := (M S).

(** A turn of the [do] loop of [printint]: the digits so far in [buf], which has
    room for 20, and what is left of [x]. *)
Definition printint_step (base : Z) (a : list Z * Z) : P ((list Z * Z) + list Z) :=
  let '(buf, x) := a in
  d ← opt (znth digits (x mod base));
  if 20 <=? zlen buf then fault else
  let buf := buf ++ [d] in
  let x := x / base in
  mret (if negb (x =? 0) then inl (buf, x) else inr buf).
Definition printint (xx base : Z) (sgn : bool) : P unit :=
  let neg := sgn && (i64 xx <? 0) in
  let x := if neg then u64 (- i64 xx) else u64 xx in
  buf ← loop 64 (printint_step base) ([], x);
  buf ← (if negb neg then mret buf else if 20 <=? zlen buf then fault else mret (buf ++ [MINUS]));
  for_each putc (reverse buf).

Definition printptr_step (x : Z) : P Z :=
  d ← opt (znth digits (Z.shiftr x (64 - 4))); putc d ;; mret (u64 (Z.shiftl x 4)).
Fixpoint printptr_from (n : nat) (x : Z) : P unit :=
  match n with O => mret tt | Datatypes.S n => x ← printptr_step x; printptr_from n x end.
Definition printptr (x : Z) : P unit := putc CH0 ;; putc CH_X ;; printptr_from 16 (u64 x).

(** [for(; *s; s++) putc( *s);] *)
Fixpoint puts (s : list Z) : P unit :=
  match s with [] => fault | c :: s => if c =? 0 then mret tt else putc c ;; puts s end.

(** [va_arg] of a number and of a string. *)
Definition va_num (ap : list arg) : P (Z * list arg) :=
  match ap with Num x :: ap => mret (x, ap) | _ => fault end.
Definition va_str (ap : list arg) : P (option (list Z) * list arg) :=
  match ap with Str s :: ap => mret (s, ap) | _ => fault end.
Definition null_string : list Z := [40; 110; 117; 108; 108; 41; 0].

(** The chain of tests behind a [%]: how many more characters of the format it
    uses, and the arguments left. *)
Definition directive (c0 c1 c2 : Z) (ap : list arg) : P (Z * list arg) :=
  let int k f base sgn := (v ← va_num ap; printint (f v.1) base sgn ;; mret (k, v.2)) in
  if c0 =? CH_d then int 0 i32 10 true
  else if (c0 =? CH_l) && (c1 =? CH_d) then int 1 u64 10 true
  else if (c0 =? CH_l) && (c1 =? CH_l) && (c2 =? CH_d) then int 2 u64 10 true
  else if c0 =? CH_u then int 0 u32 10 false
  else if (c0 =? CH_l) && (c1 =? CH_u) then int 1 u64 10 false
  else if (c0 =? CH_l) && (c1 =? CH_l) && (c2 =? CH_u) then int 2 u64 10 false
  else if c0 =? CH_X then int 0 u32 16 false
  else if (c0 =? CH_l) && (c1 =? CH_X) then int 1 u64 16 false
  else if (c0 =? CH_l) && (c1 =? CH_l) && (c2 =? CH_X) then int 2 u64 16 false
  else if c0 =? CH_p then v ← va_num ap; printptr (u64 v.1) ;; mret (0, v.2)
  else if c0 =? CH_c then v ← va_num ap; putc (u32 v.1) ;; mret (0, v.2)
  else if c0 =? CH_s then
    v ← va_str ap;
    puts (match v.1 with Some s => s | None => null_string end) ;; mret (0, v.2)
  else if c0 =? PCT then putc PCT ;; mret (0, ap)
  else putc PCT ;; putc c0 ;; mret (0, ap).

(** The character of the format at [i], its two successors as far as they are
    part of it. *)
Definition fmt_at (fmt : list Z) (i : Z) : P Z := c ← opt (znth fmt i); mret (u8 c).
Definition fmt_at_if (b : bool) (fmt : list Z) (i : Z) : P Z := if b then fmt_at fmt i else mret 0.

(** [vprintf]: a turn of the loop, with [i], [state] and [ap]. *)
Definition vprintf_step (fmt : list Z) (a : Z * Z * list arg) : P ((Z * Z * list arg) + unit) :=
  let '(i, state, ap) := a in
  c ← opt (znth fmt i);
  if c =? 0 then mret (inr tt) else
  let c0 := u8 c in
  if state =? 0 then
    if c0 =? PCT then mret (inl (i + 1, PCT, ap)) else putc c0 ;; mret (inl (i + 1, state, ap))
  else if state =? PCT then
    c1 ← fmt_at_if (negb (c0 =? 0)) fmt (i + 1);
    c2 ← fmt_at_if (negb (c1 =? 0)) fmt (i + 2);
    r ← directive c0 c1 c2 ap;
    mret (inl (i + r.1 + 1, 0, r.2))
  else mret (inl (i + 1, state, ap)).
Definition vprintf (fmt : list Z) (ap : list arg) : P unit :=
  loop (Datatypes.S (length fmt)) (vprintf_step fmt) (0, 0, ap).
End printing.

(** The characters of a string literal. *)
Definition chars (s : string) : list Z := (λ c, Z.of_N (Ascii.N_of_ascii c)) <$> list_ascii_of_string s.

(** [putc] of [user/printf.c]: what has been written to the file descriptor. *)
Definition putc (c : Z) : M (list Z) unit := modify (λ out, out ++ [u8 c]).
(** [fprintf(fd, fmt, ...)], for one [fd]. *)
Definition fprintf (fmt : list Z) (ap : list arg) : M (list Z) unit := vprintf putc user_digits fmt ap.
