(* ===== verification/PrintProps.v ===== *)
(** * What printf prints

    The numerals [printint] prints, that reading one gives the number back, and
    that [vprintf] prints its format piece by piece. *)

From stdpp Require Import base numbers list strings.
From S2P Require Import Prelude Print.
Open Scope Z_scope.
Open Scope kernel_scope.

(** ** Numerals *)

Definition value (base : Z) (vs : list Z) : Z := foldl (λ a v, a * base + v) 0 vs.
Lemma value_snoc base vs v : value base (vs ++ [v]) = value base vs * base + v.
Proof. unfold value. by rewrite foldl_app. Qed.
Lemma value_nonneg base vs : 0 < base → Forall (λ v, 0 ≤ v < base) vs → 0 ≤ value base vs.
Proof.
  intros Hb. induction vs as [|v vs IH] using rev_ind; [done|]. intros [Hvs Hv]%Forall_app. apply Forall_inv in Hv. rewrite value_snoc.
  apply Z.add_nonneg_nonneg; [|lia]. apply Z.mul_nonneg_nonneg; [by apply IH|lia].
Qed.

Section numerals.
Context (digits : list Z) (base : Z).

(** [s] are the digits [vs]. *)
Definition written (vs s : list Z) : Prop := Forall (λ v, 0 ≤ v < base) vs ∧ Forall2 (λ v c, znth digits v = Some c) vs s.
(** [s] is the numeral of [x]: no digit too many. *)
Definition numeral (x : Z) (s : list Z) : Prop :=
  ∃ vs, written vs s ∧ value base vs = x ∧ vs ≠ [] ∧ (head vs = Some 0 → vs = [0]).
Definition signed (x : Z) (s : list Z) : Prop :=
  if x <? 0 then ∃ ds, s = MINUS :: ds ∧ numeral (- x) ds else numeral x s.

Lemma written_snoc vs s v c : written vs s → 0 ≤ v < base → znth digits v = Some c → written (vs ++ [v]) (s ++ [c]).
Proof.
  intros [H1 H2] Hv Hc. split; [apply Forall_app; split; [done|by apply Forall_singleton]|]. apply Forall2_app; [done|]. by constructor.
Qed.
Lemma numeral_digit v c : 0 ≤ v < base → znth digits v = Some c → numeral v [c].
Proof.
  intros Hv Hc. exists [v]. split_and!; [by apply (written_snoc [] [])|done|done|]. by intros [= ->].
Qed.
Lemma numeral_snoc x s v c : 0 < x → numeral x s → 0 ≤ v < base → znth digits v = Some c → numeral (x * base + v) (s ++ [c]).
Proof.
  intros Hx (vs & Hw & Hval & Hne & Hhd) Hv Hc. exists (vs ++ [v]). split_and!; [by apply written_snoc|by rewrite value_snoc, Hval| |].
  - by destruct vs.
  - destruct vs as [|v0 vs]; [done|]. intros H0. rewrite (Hhd H0) in Hval. cbn in Hval. lia.
Qed.

(** ** printint *)

Context {S : Type} (putc : Z → M S unit) (emit : list Z → S → S).
(** Putting out a character never fails. *)
Hypothesis putc_ok : ∀ c s, 0 ≤ c < 256 → putc c s = Ok (tt, emit [c] s).
Hypothesis emit_nil : ∀ s, emit [] s = s.
Hypothesis emit_app : ∀ l1 l2 s, emit l2 (emit l1 s) = emit (l1 ++ l2) s.
Hypothesis Hbase : 2 ≤ base ≤ zlen digits.
Hypothesis Hdigits : Forall (λ c, 0 ≤ c < 256) digits.

Lemma put_all l s : Forall (λ c, 0 ≤ c < 256) l → for_each putc l s = Ok (tt, emit l s).
Proof.
  intros Hl. revert s. induction Hl as [|c l Hc Hl IH]; intros s; simpl; [by rewrite emit_nil|].
  rewrite (bind_step _ _ _ _ _ (putc_ok c s Hc)), IH, emit_app. done.
Qed.
Lemma numeral_bytes x s : numeral x s → Forall (λ c, 0 ≤ c < 256) s.
Proof.
  intros (vs & [_ H] & _). induction H as [|v c vs s Hc H IH]; constructor; [|done]. rewrite Forall_forall in Hdigits. apply Hdigits.
  unfold znth in Hc. destruct (0 <=? v); [|done]. by eapply list_elem_of_lookup_2.
Qed.

Lemma printint_loop (k : nat) n x buf (s : S) : 0 ≤ x < base ^ Z.of_nat k → (1 ≤ k ≤ n)%nat → zlen buf + Z.of_nat k ≤ 20 →
  ∃ ds, loop n (printint_step digits base : _ → M S _) (buf, x) s = Ok (buf ++ ds, s) ∧ numeral x (reverse ds) ∧ zlen ds ≤ Z.of_nat k.
Proof.
  revert n x buf. induction k as [|k IH]; intros n x buf Hx Hk Hb; [lia|]. destruct n as [|n]; [lia|].
  pose proof (Z.mod_pos_bound x base ltac:(lia)) as Hm. destruct (znth_lt digits (x mod base)) as [d Hd]; [lia|]. pose proof (zlen_nonneg buf).
  assert ((printint_step digits base (buf, x) : M S _) s = Ok (if negb (x / base =? 0) then inl (buf ++ [d], x / base) else inr (buf ++ [d]), s)) as Es.
  { unfold printint_step. rewrite (bind_step _ _ _ _ _ (opt_ok _ _ _ Hd)), (proj2 (Z.leb_gt _ _)) by lia. done. }
  assert (x = x / base * base + x mod base) as Ex by (pose proof (Z.div_mod x base ltac:(lia)); lia).
  destruct (Z.eqb_spec (x / base) 0) as [E0|Hne].
  - exists [d]. split_and!; [by apply loop_inr| |change (zlen [d]) with 1; lia]. rewrite reverse_singleton. apply numeral_digit; [lia|]. by rewrite Ex, E0.
  - assert (0 < x / base) by (pose proof (Z.div_pos x base); lia).
    assert (k ≠ 0%nat) by (intros ->; rewrite Z.pow_1_r in Hx; pose proof (Z.div_small x base ltac:(lia)); lia).
    destruct (IH n (x / base) (buf ++ [d])) as (ds & E & Hn & Hl).
    + split; [lia|]. apply Z.div_lt_upper_bound; [lia|]. rewrite Nat2Z.inj_succ, Z.pow_succ_r in Hx by lia. lia.
    + lia.
    + rewrite zlen_app. change (zlen [d]) with 1. lia.
    + exists (d :: ds). split_and!; [| |unfold zlen in *; simpl; lia].
      * rewrite (loop_inl _ _ _ _ _ _ Es), E. by rewrite <-app_assoc.
      * rewrite reverse_cons, Ex. by apply numeral_snoc.
Qed.

(** No number is too long for [buf], whatever its sign. *)
Definition int_of (sgn : bool) (xx : Z) : Z := if sgn then i64 xx else u64 xx.
Lemma u64_of_i64 xx : 0 ≤ i64 xx → u64 xx = i64 xx.
Proof.
  unfold wrap, swrap. intros H. pose proof (Z.mod_pos_bound (xx + 2 ^ (64 - 1)) (2 ^ 64) ltac:(lia)).
  symmetry. apply Z.mod_unique_pos with ((xx + 2 ^ (64 - 1)) / 2 ^ 64); [lia|]. pose proof (Z.div_mod (xx + 2 ^ (64 - 1)) (2 ^ 64) ltac:(lia)). lia.
Qed.
Lemma printint_ok xx sgn s : 10 ≤ base → ∃ l, printint putc digits xx base sgn s = Ok (tt, emit l s) ∧ signed (int_of sgn xx) l.
Proof.
  intros Hb. pose proof (swrap_range 64 xx ltac:(lia)). assert (0 ≤ u64 xx < 2 ^ 64) by (apply Z.mod_pos_bound; lia).
  assert (sgn && (i64 xx <? 0) = (int_of sgn xx <? 0)) as Eneg.
  { destruct sgn; [done|]. symmetry. apply Z.ltb_ge. unfold int_of. lia. }
  unfold printint. rewrite Eneg. unfold signed. destruct (Z.ltb_spec (int_of sgn xx) 0) as [Hneg|Hpos].
  - destruct sgn; [|unfold int_of in Hneg; lia]. unfold int_of in *. rewrite wrap_id by lia.
    destruct (printint_loop 19 64 (- i64 xx) [] s) as (ds & E & Hn & Hl).
    { split; [lia|]. apply Z.lt_le_trans with (10 ^ 19); [lia|]. apply Z.pow_le_mono_l. lia. }
    { lia. }
    { done. }
    rewrite (bind_step _ _ _ _ _ E). cbn [negb app]. rewrite (proj2 (Z.leb_gt 20 (zlen ds))) by lia. erewrite bind_step by done. rewrite reverse_snoc.
    exists (MINUS :: reverse ds). split; [|by exists (reverse ds)]. apply put_all. constructor; [done|]. by eapply numeral_bytes.
  - assert (u64 xx = int_of sgn xx) as Ex by (destruct sgn; [by apply u64_of_i64|done]).
    destruct (printint_loop 20 64 (u64 xx) [] s) as (ds & E & Hn & Hl).
    { split; [lia|]. apply Z.lt_le_trans with (10 ^ 20); [lia|]. apply Z.pow_le_mono_l. lia. }
    { lia. }
    { done. }
    rewrite (bind_step _ _ _ _ _ E). cbn [negb app]. erewrite bind_step by done. exists (reverse ds). rewrite <-Ex. split; [|done]. apply put_all. by eapply numeral_bytes.
Qed.
End numerals.

Lemma value_cons base v vs : value base (v :: vs) = v * base ^ zlen vs + value base vs.
Proof.
  induction vs as [|w vs IH] using rev_ind; [change (v = v * base ^ 0 + 0); lia|]. rewrite app_comm_cons, !value_snoc, IH, zlen_app.
  change (zlen [w]) with 1. pose proof (zlen_nonneg vs). rewrite Z.pow_add_r by lia. nia.
Qed.

(** ** Formats *)

(** What a format is made of. The [nat] is the number of [l]s. *)
Inductive item := Lit (c : Z) | Dec (l : nat) | Uns (l : nat) | Hex (l : nat) | Pointer | Char | String | Percent | Other (c : Z).
Definition ells (l : nat) (c : Z) : list Z := PCT :: replicate l CH_l ++ [c].
Definition item_fmt (t : item) : list Z :=
  match t with
  | Lit c => [c] | Dec l => ells l CH_d | Uns l => ells l CH_u | Hex l => ells l CH_X
  | Pointer => [PCT; CH_p] | Char => [PCT; CH_c] | String => [PCT; CH_s] | Percent => [PCT; PCT] | Other c => [PCT; c]
  end.
Definition good_item (t : item) : Prop :=
  match t with
  | Lit c => 0 < c < 256 ∧ c ≠ PCT
  | Dec l | Uns l | Hex l => (l ≤ 2)%nat
  | Other c => 0 < c < 256 ∧ c ∉ [CH_d; CH_l; CH_u; CH_X; CH_p; CH_c; CH_s; PCT]
  | _ => True
  end.
(** [b] holds the string [w]. *)
Definition holds (b w : list Z) : Prop := Forall (λ c, 0 < c < 256) w ∧ ∃ rest, b = w ++ 0 :: rest.

Section items.
Context (digits : list Z).

(** [x] in exactly [n] hexadecimal digits. *)
Definition hex_digits (n x : Z) (s : list Z) : Prop := zlen s = n ∧ ∃ vs, written digits 16 vs s ∧ value 16 vs = x.

(** What an item prints, with the arguments before and after it. *)
Definition item_prints (t : item) (ap : list arg) (l : list Z) (ap' : list arg) : Prop :=
  match t with
  | Lit c => l = [c] ∧ ap' = ap
  | Dec n => ∃ x, ap = Num x :: ap' ∧ signed digits 10 (match n with O => i32 x | _ => i64 x end) l
  | Uns n => ∃ x, ap = Num x :: ap' ∧ numeral digits 10 (match n with O => u32 x | _ => u64 x end) l
  | Hex n => ∃ x, ap = Num x :: ap' ∧ numeral digits 16 (match n with O => u32 x | _ => u64 x end) l
  | Pointer => ∃ x ds, ap = Num x :: ap' ∧ l = CH0 :: CH_X :: ds ∧ hex_digits 16 (u64 x) ds
  | Char => ∃ x, ap = Num x :: ap' ∧ l = [x] ∧ 0 ≤ x < 256
  | String => (∃ b, ap = Str (Some b) :: ap' ∧ holds b l) ∨ (ap = Str None :: ap' ∧ l ++ [0] = null_string)
  | Percent => l = [PCT] ∧ ap' = ap
  | Other c => l = [PCT; c] ∧ ap' = ap
  end.
(** The arguments fit the item. *)
Definition item_takes (t : item) (ap ap' : list arg) : Prop :=
  match t with
  | Dec _ | Uns _ | Hex _ | Pointer => ∃ x, ap = Num x :: ap'
  | Char => ∃ x, ap = Num x :: ap' ∧ 0 ≤ x < 256
  | String => ∃ s, ap = Str s :: ap' ∧ match s with Some b => ∃ w, holds b w | None => True end
  | _ => ap' = ap
  end.
Inductive fmt_takes : list item → list arg → Prop :=
| takes_nil ap : fmt_takes [] ap
| takes_cons t ts ap ap' : item_takes t ap ap' → fmt_takes ts ap' → fmt_takes (t :: ts) ap.
Inductive fmt_prints : list item → list arg → list Z → Prop :=
| prints_nil ap : fmt_prints [] ap []
| prints_cons t ts ap ap' l ls : item_prints t ap l ap' → fmt_prints ts ap' ls → fmt_prints (t :: ts) ap (l ++ ls).

Context {S : Type} (putc : Z → M S unit) (emit : list Z → S → S).
Hypothesis putc_ok : ∀ c s, 0 ≤ c < 256 → putc c s = Ok (tt, emit [c] s).
Hypothesis emit_nil : ∀ s, emit [] s = s.
Hypothesis emit_app : ∀ l1 l2 s, emit l2 (emit l1 s) = emit (l1 ++ l2) s.
Hypothesis digits_16 : zlen digits = 16.
Hypothesis Hdigits : Forall (λ c, 0 ≤ c < 256) digits.

Lemma puts_string b w s : holds b w → puts putc b s = Ok (tt, emit w s).
Proof.
  intros [Hw [rest ->]]. revert s. induction Hw as [|c w Hc Hw IH]; intros s; simpl; [by rewrite emit_nil|].
  rewrite (proj2 (Z.eqb_neq c 0)) by lia. by rewrite (bind_step _ _ _ _ _ (putc_ok c s ltac:(lia))), IH, emit_app.
Qed.

Lemma printptr_from_ok n x s : (n ≤ 16)%nat → 0 ≤ x < 2 ^ 64 →
  ∃ ds, printptr_from putc digits n x s = Ok (tt, emit ds s) ∧ hex_digits (Z.of_nat n) (x / 16 ^ (16 - Z.of_nat n)) ds.
Proof.
  revert x s. induction n as [|n IH]; intros x s Hn Hx.
  - exists []. split; [by rewrite emit_nil|]. split; [done|]. exists []. split; [by split|]. symmetry. apply Z.div_small. lia.
  - assert (Z.shiftr x (64 - 4) = x / 2 ^ 60) as Ed by (apply Z.shiftr_div_pow2; lia).
    assert (0 ≤ x / 2 ^ 60 < 16) as Hd by (split; [apply Z.div_pos; lia|apply Z.div_lt_upper_bound; lia]).
    assert (u64 (Z.shiftl x 4) = 16 * (x mod 2 ^ 60)) as Ex.
    { unfold wrap. rewrite Z.shiftl_mul_pow2 by lia. change (2 ^ 64) with (2 ^ 60 * 2 ^ 4). rewrite Zmult_mod_distr_r. lia. }
    pose proof (Z.mod_pos_bound x (2 ^ 60) ltac:(lia)) as Hm. destruct (znth_lt digits (x / 2 ^ 60)) as [d Hdd]; [lia|].
    assert (0 ≤ d < 256) as Hdb.
    { rewrite Forall_forall in Hdigits. apply Hdigits. unfold znth in Hdd. destruct (0 <=? x / 2 ^ 60); [|done]. by eapply list_elem_of_lookup_2. }
    destruct (IH (16 * (x mod 2 ^ 60)) (emit [d] s)) as (ds & E & Hlen & vs & [Hr Hw] & Hv); [lia|lia|].
    exists (d :: ds). split.
    + simpl. unfold printptr_step. rewrite bind_assoc, Ed. rewrite (bind_step _ _ _ _ _ (opt_ok _ _ _ Hdd)), bind_assoc.
      rewrite (bind_step _ _ _ _ _ (putc_ok d s Hdb)). erewrite bind_step by done. by rewrite Ex, E, emit_app.
    + split; [unfold zlen in *; simpl; lia|]. exists (x / 2 ^ 60 :: vs). split; [by split; constructor|].
      assert (zlen vs = Z.of_nat n) as Hvl by (unfold zlen in *; apply Forall2_length in Hw; lia).
      rewrite value_cons, Hvl, Hv. rewrite Nat2Z.inj_succ.
      replace (16 - Z.of_nat n) with (1 + (16 - Z.succ (Z.of_nat n))) by lia. rewrite Z.pow_add_r by lia. rewrite Z.pow_1_r, Z.div_mul_cancel_l by (try apply Z.pow_nonzero; lia).
      pose proof (Z.div_mod x (2 ^ 60) ltac:(lia)) as Edm. rewrite Edm at 3.
      replace (2 ^ 60 * (x / 2 ^ 60)) with (x / 2 ^ 60 * 16 ^ Z.of_nat n * 16 ^ (16 - Z.succ (Z.of_nat n))).
      { rewrite Z.div_add_l; [done|]. apply Z.pow_nonzero; lia. }
      rewrite <-Z.mul_assoc, <-Z.pow_add_r by lia. replace (Z.of_nat n + (16 - Z.succ (Z.of_nat n))) with 15 by lia. lia.
Qed.

(** The directive that an item is, whatever follows it in the format. *)
Definition item_at (t : item) (c0 c1 c2 : Z) : Prop := ∃ cs, item_fmt t = PCT :: cs ∧ cs `prefix_of` [c0; c1; c2].
Lemma signed_unsigned base x l : 0 ≤ x → signed digits base x l → numeral digits base x l.
Proof. unfold signed. by destruct (Z.ltb_spec x 0); [lia|]. Qed.
Lemma i64_i32 x : i64 (i32 x) = i32 x.
Proof. apply swrap_id; [lia|]. pose proof (swrap_range 32 x). lia. Qed.
Lemma i64_u64 x : i64 (u64 x) = i64 x.
Proof. unfold swrap, wrap. by rewrite Zplus_mod_idemp_l. Qed.
Lemma u64_u32 x : u64 (u32 x) = u32 x.
Proof. apply wrap_id. pose proof (Z.mod_pos_bound x (2 ^ 32)). unfold wrap. lia. Qed.
Lemma u64_u64 x : u64 (u64 x) = u64 x.
Proof. apply wrap_id. apply Z.mod_pos_bound. lia. Qed.

Lemma number_ok (k : Z) (f : Z → Z) base sgn x (ap : list arg) (s : S) : 10 ≤ base ≤ 16 →
  ∃ l, (v ← va_num (Num x :: ap); printint putc digits (f v.1) base sgn ;; mret (k, v.2) : M S (Z * list arg)) s = Ok ((k, ap), emit l s) ∧
    signed digits base (int_of sgn (f x)) l.
Proof using All.
  intros Hb. destruct (printint_ok digits base putc emit putc_ok emit_nil emit_app ltac:(lia) Hdigits (f x) sgn s ltac:(lia)) as (l & E & Hl).
  exists l. split; [|done]. erewrite bind_step by done. by rewrite (bind_step _ _ _ _ _ E).
Qed.
Lemma signed_ok (k : Z) (f : Z → Z) v x ap s : i64 (f x) = v →
  ∃ l, (v ← va_num (Num x :: ap); printint putc digits (f v.1) 10 true ;; mret (k, v.2) : M S (Z * list arg)) s = Ok ((k, ap), emit l s) ∧
    signed digits 10 v l.
Proof using All.
  intros <-. destruct (number_ok k f 10 true x ap s ltac:(lia)) as (l & E & Hl). exists l. by split.
Qed.
Lemma unsigned_ok (k : Z) (f : Z → Z) base x ap s : 10 ≤ base ≤ 16 → u64 (f x) = f x →
  ∃ l, (v ← va_num (Num x :: ap); printint putc digits (f v.1) base false ;; mret (k, v.2) : M S (Z * list arg)) s = Ok ((k, ap), emit l s) ∧
    numeral digits base (f x) l.
Proof using All.
  intros Hb Hf. destruct (number_ok k f base false x ap s ltac:(lia)) as (l & E & Hl). exists l. split; [done|]. unfold int_of in Hl. rewrite Hf in Hl.
  apply signed_unsigned; [|done]. rewrite <-Hf. apply Z.mod_pos_bound. lia.
Qed.

(** Which directive it is; its number. *)
Ltac ells_case n Ht Ecs Epre :=
  destruct n as [|[|[|n]]]; [| | |simpl in Ht; lia]; injection Ecs as <-; [injection Epre as -> _|injection Epre as -> -> _|injection Epre as -> -> -> _].
Ltac signed_case f lem x ap s :=
  match goal with |- ∃ l, directive _ _ _ _ _ _ _ = Ok ((zlen ?fmt - 2, _), _) ∧ _ =>
    destruct (signed_ok (zlen fmt - 2) f _ x ap s (lem x)) as (l & E & Hl); exists l; split; [exact E|by exists x] end.
Ltac unsigned_case f base lem x ap s :=
  match goal with |- ∃ l, directive _ _ _ _ _ _ _ = Ok ((zlen ?fmt - 2, _), _) ∧ _ =>
    destruct (unsigned_ok (zlen fmt - 2) f base x ap s ltac:(lia) (lem x)) as (l & E & Hl); exists l; split; [exact E|by exists x] end.
Ltac directive_tests := unfold directive; cbn [Z.eqb Pos.eqb PCT CH_s CH_c CH_d CH_l CH_u CH_X CH_p andb].

Lemma directive_ok t c0 c1 c2 ap ap' s : good_item t → item_at t c0 c1 c2 → item_takes t ap ap' →
  ∃ l, directive putc digits c0 c1 c2 ap s = Ok ((zlen (item_fmt t) - 2, ap'), emit l s) ∧ item_prints t ap l ap'.
Proof using All.
  intros Ht (cs & Ecs & [rest Epre]) Hap. destruct t as [c|n|n|n| | | | |c]; cbn [item_fmt] in *.
  - injection Ecs as -> <-. by destruct Ht.
  - destruct Hap as [x ->]. ells_case n Ht Ecs Epre; [signed_case (swrap 32) i64_i32 x ap' s|signed_case (wrap 64) i64_u64 x ap' s|signed_case (wrap 64) i64_u64 x ap' s].
  - destruct Hap as [x ->]. ells_case n Ht Ecs Epre; [unsigned_case (wrap 32) 10 u64_u32 x ap' s|unsigned_case (wrap 64) 10 u64_u64 x ap' s|unsigned_case (wrap 64) 10 u64_u64 x ap' s].
  - destruct Hap as [x ->]. ells_case n Ht Ecs Epre; [unsigned_case (wrap 32) 16 u64_u32 x ap' s|unsigned_case (wrap 64) 16 u64_u64 x ap' s|unsigned_case (wrap 64) 16 u64_u64 x ap' s].
  - destruct Hap as [x ->]. injection Ecs as <-. injection Epre as -> _.
    destruct (printptr_from_ok 16 (u64 x) (emit [CH_X] (emit [CH0] s))) as (ds & E & Hds); [lia|apply Z.mod_pos_bound; lia|].
    exists (CH0 :: CH_X :: ds). split; [|exists x, ds; split_and!; [done|done|]; by rewrite Z.sub_diag, Z.pow_0_r, Z.div_1_r in Hds].
    assert (printptr putc digits (u64 x) s = Ok (tt, emit (CH0 :: CH_X :: ds) s)) as Ep.
    { unfold printptr. rewrite (bind_step _ _ _ _ _ (putc_ok CH0 s ltac:(done))), (bind_step _ _ _ _ _ (putc_ok CH_X _ ltac:(done))), u64_u64, E.
      by rewrite !emit_app. }
    directive_tests. erewrite bind_step by done. cbn [fst snd]. by rewrite (bind_step _ _ _ _ _ Ep).
  - destruct Hap as (x & -> & Hx). injection Ecs as <-. injection Epre as -> _. exists [x]. split; [|by exists x].
    directive_tests. erewrite bind_step by done. cbn [fst snd].
    rewrite (wrap_id 32 x) by lia. by rewrite (bind_step _ _ _ _ _ (putc_ok x s Hx)).
  - destruct Hap as (b & -> & Hb). injection Ecs as <-. injection Epre as -> _.
    assert (∃ w, holds (match b with Some b => b | None => null_string end) w ∧ item_prints String (Str b :: ap') w ap') as (w & Hw & Hp).
    { destruct b as [b|]; [destruct Hb as [w Hw]; exists w; split; [done|left; by exists b]|].
      exists [40; 110; 117; 108; 108; 41]. split; [|by right]. split; [|by exists []]. repeat constructor. }
    exists w. split; [|done]. directive_tests. erewrite bind_step by done. cbn [fst snd].
    by rewrite (bind_step _ _ _ _ _ (puts_string _ w s Hw)).
  - simpl in Hap. subst ap'. injection Ecs as <-. injection Epre as -> _. exists [PCT]. split; [|done].
    directive_tests. by rewrite (bind_step _ _ _ _ _ (putc_ok PCT s ltac:(done))).
  - simpl in Hap. subst ap'. injection Ecs as <-. injection Epre as -> _. destruct Ht as [Hc Hnot]. exists [PCT; c]. split; [|done].
    unfold directive. repeat (apply not_elem_of_cons in Hnot as [? Hnot]). rewrite !(proj2 (Z.eqb_neq c _)) by done. cbn [andb].
    rewrite (bind_step _ _ _ _ _ (putc_ok PCT s ltac:(done))), (bind_step _ _ _ _ _ (putc_ok c _ ltac:(lia))). by rewrite emit_app.
Qed.

(** ** vprintf *)

Lemma fmt_at_ok fmt pre c l (s : S) : fmt = pre ++ c :: l → 0 ≤ c < 256 → fmt_at fmt (zlen pre) s = Ok (c, s).
Proof using.
  intros -> Hc. unfold fmt_at. erewrite bind_step by (apply opt_ok; by rewrite znth_app, Z.ltb_irrefl, Z.sub_diag). by rewrite wrap_id by lia.
Qed.
Lemma look_ahead fmt pre c0 w junk (s : S) : fmt = pre ++ c0 :: w ++ 0 :: junk → c0 ≠ 0 → Forall (λ c, 0 < c < 256) w →
  ∃ c1 c2, fmt_at_if (negb (c0 =? 0)) fmt (zlen pre + 1) s = Ok (c1, s) ∧ fmt_at_if (negb (c1 =? 0)) fmt (zlen pre + 2) s = Ok (c2, s) ∧
    ∀ cs, cs `prefix_of` c0 :: w → (length cs ≤ 3)%nat → cs `prefix_of` [c0; c1; c2].
Proof using.
  intros Hf H0 Hw. rewrite (proj2 (Z.eqb_neq c0 0)) by done. cbn [negb fmt_at_if].
  assert (zlen pre + 1 = zlen (pre ++ [c0])) as -> by (by rewrite zlen_app).
  destruct w as [|c1 w].
  - exists 0, 0. split_and!; [by apply (fmt_at_ok _ _ 0 junk); [rewrite Hf, <-app_assoc|]|done|]. intros cs Hcs _. etrans; [exact Hcs|]. by exists [0; 0].
  - apply Forall_cons in Hw as [Hc1 Hw].
    assert (zlen pre + 2 = zlen (pre ++ [c0; c1])) as -> by (by rewrite zlen_app). destruct w as [|c2 w].
    + exists c1, 0. rewrite (proj2 (Z.eqb_neq c1 0)) by lia. split_and!.
      * apply (fmt_at_ok _ _ c1 (0 :: junk)); [by rewrite Hf, <-app_assoc|lia].
      * apply (fmt_at_ok _ _ 0 junk); [by rewrite Hf, <-app_assoc|lia].
      * intros cs Hcs _. etrans; [exact Hcs|]. by exists [0].
    + apply Forall_cons in Hw as [Hc2 Hw]. exists c1, c2. rewrite (proj2 (Z.eqb_neq c1 0)) by lia. split_and!.
      * apply (fmt_at_ok _ _ c1 (c2 :: w ++ 0 :: junk)); [by rewrite Hf, <-app_assoc|lia].
      * apply (fmt_at_ok _ _ c2 (w ++ 0 :: junk)); [by rewrite Hf, <-app_assoc|lia].
      * intros cs [k Hk] Hl. destruct cs as [|x [|y [|z [|]]]]; [apply prefix_nil|..|simpl in Hl; lia].
        -- injection Hk as <- _. by exists [c1; c2].
        -- injection Hk as <- <- _. by exists [c2].
        -- injection Hk as <- <- <- _. done.
Qed.

Definition fmt_of (ts : list item) : list Z := ts ≫= item_fmt.
Lemma item_bytes t : good_item t → Forall (λ c, 0 < c < 256) (item_fmt t).
Proof using.
  assert (∀ l c, 0 < c < 256 → Forall (λ c, 0 < c < 256) (ells l c)) as Hells.
  { intros l c Hc. constructor; [done|]. apply Forall_app. split; [by apply Forall_replicate|by apply Forall_singleton]. }
  destruct t; simpl; intros Ht; try (by apply Hells); repeat constructor; naive_solver.
Qed.
Lemma fmt_bytes ts : Forall good_item ts → Forall (λ c, 0 < c < 256) (fmt_of ts).
Proof using. induction 1 as [|t ts Ht Hts IH]; [constructor|]. apply Forall_app. split; [by apply item_bytes|done]. Qed.
Lemma item_shape t : good_item t → (∃ c, t = Lit c) ∨ ∃ c cs, item_fmt t = PCT :: c :: cs ∧ (length (c :: cs) ≤ 3)%nat.
Proof using.
  assert (∀ l x, (l ≤ 2)%nat → ∃ c cs, ells l x = PCT :: c :: cs ∧ (length (c :: cs) ≤ 3)%nat) as Hells.
  { intros l x Hl. destruct l as [|[|[|l]]]; [..|lia]; eexists _, _; (split; [done|simpl; lia]). }
  destruct t; simpl; intros Ht; try (by left; eexists); right; try (by apply Hells); eexists _, []; (split; [done|simpl; lia]).
Qed.
Lemma fmt_char pre c l (s : S) : (opt (znth (pre ++ c :: l) (zlen pre)) : M S Z) s = Ok (c, s).
Proof using. apply opt_ok. by rewrite znth_app, Z.ltb_irrefl, Z.sub_diag. Qed.

(** The turns of the loop for one item. *)
Lemma vprintf_item pre t w junk ap ap' s : let fmt := pre ++ item_fmt t ++ w ++ 0 :: junk in
  good_item t → Forall (λ c, 0 < c < 256) w → item_takes t ap ap' →
  ∃ l k, (k ≤ length (item_fmt t))%nat ∧ item_prints t ap l ap' ∧
    ∀ n, loop (k + n) (vprintf_step putc digits fmt) (zlen pre, 0, ap) s =
      loop n (vprintf_step putc digits fmt) (zlen (pre ++ item_fmt t), 0, ap') (emit l s).
Proof using All.
  intros fmt Ht Hw Hap. pose proof (item_bytes t Ht) as Hb. destruct (item_shape t Ht) as [[c ->]|(c & cs & Eit & Hlen)].
  - destruct Ht as [Hc Hne]. simpl in Hap. subst ap'. exists [c], 1%nat. split_and!; [done|done|]. intros n. apply loop_inl. unfold vprintf_step, fmt.
    erewrite bind_step by apply fmt_char. rewrite (proj2 (Z.eqb_neq c 0)), (wrap_id 8), (proj2 (Z.eqb_neq c PCT)) by lia. rewrite Z.eqb_refl.
    rewrite (bind_step _ _ _ _ _ (putc_ok c s ltac:(lia))). by rewrite zlen_app.
  - rewrite Eit in Hb. apply Forall_inv_tail in Hb. pose proof (Forall_inv Hb) as Hc. apply Forall_inv_tail in Hb. cbn beta in Hc.
    assert (fmt = (pre ++ [PCT]) ++ c :: (cs ++ w) ++ 0 :: junk) as Hf2 by (unfold fmt; rewrite Eit; by rewrite <-!app_assoc).
    destruct (look_ahead fmt (pre ++ [PCT]) c (cs ++ w) junk s Hf2) as (c1 & c2 & E1 & E2 & Hpre); [lia|by apply Forall_app|].
    destruct (directive_ok t c c1 c2 ap ap' s Ht) as (l & Ed & Hl); [exists (c :: cs); split; [done|]; apply Hpre; [by exists w|done]|done|].
    exists l, 2%nat. split_and!; [rewrite Eit; simpl; lia|done|]. intros n. erewrite (loop_inl _ (Datatypes.S n)).
    2: { unfold vprintf_step, fmt. rewrite Eit. erewrite bind_step by apply fmt_char. done. }
    apply loop_inl. assert (zlen pre + 1 = zlen (pre ++ [PCT])) as -> by (by rewrite zlen_app). unfold vprintf_step. rewrite Hf2 at 1.
    erewrite bind_step by apply fmt_char. rewrite (proj2 (Z.eqb_neq c 0)), wrap_id by lia. change (PCT =? 0) with false. rewrite Z.eqb_refl.
    rewrite (bind_step _ _ _ _ _ E1), (bind_step _ _ _ _ _ E2), (bind_step _ _ _ _ _ Ed). cbn [fst snd].
    replace (zlen (pre ++ [PCT]) + (zlen (item_fmt t) - 2) + 1) with (zlen (pre ++ item_fmt t)); [done|]. rewrite !zlen_app. change (zlen [PCT]) with 1. lia.
Qed.

(** From an item of the format on. *)
Lemma vprintf_from pre ts junk ap n s : let fmt := pre ++ fmt_of ts ++ 0 :: junk in Forall good_item ts → fmt_takes ts ap →
  (length (fmt_of ts) < n)%nat → ∃ l, loop n (vprintf_step putc digits fmt) (zlen pre, 0, ap) s = Ok (tt, emit l s) ∧ fmt_prints ts ap l.
Proof using All.
  intros fmt Hts. subst fmt. revert pre n s ap. induction Hts as [|t ts Ht Hts IH]; intros pre n s ap Hap Hn.
  - destruct n as [|n]; [lia|]. exists []. split; [|constructor]. rewrite emit_nil. apply loop_inr. unfold vprintf_step. by erewrite bind_step by apply fmt_char.
  - inversion Hap as [|? ? ? ap' Ht' Hap']; subst. simpl fmt_of in *. change (mbind item_fmt ts) with (fmt_of ts) in *. rewrite length_app in Hn.
    destruct (vprintf_item pre t (fmt_of ts) junk ap ap' s Ht (fmt_bytes ts Hts) Ht') as (l & k & Hk & Hl & E).
    destruct (IH (pre ++ item_fmt t) (n - k)%nat (emit l s) ap' Hap') as (l' & E' & Hl'); [lia|]. exists (l ++ l'). split; [|by econstructor].
    rewrite <-app_assoc. replace n with (k + (n - k))%nat by lia. rewrite E. rewrite <-!app_assoc in E'. by rewrite E', emit_app.
Qed.
End items.

Lemma vprintf_user ts ap junk out : Forall good_item ts → fmt_takes ts ap →
  ∃ l, fprintf (fmt_of ts ++ 0 :: junk) ap out = Ok (tt, out ++ l) ∧ fmt_prints user_digits ts ap l.
Proof.
  intros Hts Hap. assert (Forall (λ c, 0 ≤ c < 256) user_digits) as Hd by (by apply (bool_decide_unpack _)).
  destruct (vprintf_from user_digits putc (λ l out, out ++ l)) with (pre := @nil Z) (ts := ts) (junk := junk) (ap := ap) (s := out)
    (n := Datatypes.S (length (fmt_of ts ++ 0 :: junk))) as (l & E & Hl); try done.
  - intros c s Hc. unfold putc, modify. by rewrite wrap_id by lia.
  - apply app_nil_r.
  - intros l1 l2 s. by rewrite app_assoc.
  - rewrite length_app. lia.
  - by exists l.
Qed.

(** [printf] prints its format piece by piece. For any format made of
    characters, the directives [%d], [%u], [%x] with up to two [l]s, [%p], [%c],
    [%s], [%%], and a [%] before another character, and arguments that fit, it
    returns; what it writes is, for each piece, the character, or the shortest
    numeral of the argument in its base and with its sign, or sixteen digits, or
    the string. It uses the arguments in order and [printint] never leaves its
    buffer. *)
Theorem fprintf_prints ts ap junk out : Forall good_item ts → fmt_takes ts ap →
  ∃ l, fprintf (fmt_of ts ++ 0 :: junk) ap out = Ok (tt, out ++ l) ∧ fmt_prints user_digits ts ap l.
Proof. apply vprintf_user. Qed.
