(* ===== verification/Ulib.v ===== *)
(** * The user library

    Models [user/ulib.c]: its string and memory functions, and [gets], with what
    they compute. [strchr] and [strlen] are in [Sh]. Functions the kernel has too
    ([Str]) are named [user_memset], [user_memmove] and so on. Positions of
    [strcpy] and [user_memmove] are in one array, so that areas can overlap. *)

From stdpp Require Import base numbers list strings.
From S2P Require Import Prelude Str Print PrintProps.
Open Scope Z_scope.
Open Scope kernel_scope.

(** ** Strings *)

Definition is_digit (c : Z) : bool := (CH0 <=? c) && (c <=? 57).
(** The loop of [atoi], with [n] so far; the sum wraps around before ['0'] is taken
    off. *)
Fixpoint atoi_from (n : Z) (s : list Z) : option Z :=
  match s with [] => None | c :: s => if is_digit c then atoi_from (i32 (i32 (n * 10 + c) - CH0)) s else Some n end.
Definition atoi (s : list Z) : option Z := atoi_from 0 s.

Fixpoint strcmp (p q : list Z) : option Z :=
  match p, q with
  | a :: p', b :: q' => if negb (a =? 0) && (a =? b) then strcmp p' q' else Some (u8 a - u8 b)
  | _, _ => None
  end.

(** [while(( *s++ = *t++) != 0);] *)
Definition strcpy_step (x : Z * Z) : Arr ((Z * Z) + unit) :=
  let '(s, t) := x in
  c ← getc t; Str.putc s c ;; mret (if negb (c =? 0) then inl (s + 1, t + 1) else inr tt).
Definition strcpy (s t : Z) : Arr unit := a ← gets id; loop (Datatypes.S (length a)) strcpy_step (s, t).

(** ** Memory *)

Definition user_memset (dst c n : Z) : Arr unit := for_each (λ i, Str.putc (dst + i) (u8 c)) (upto n).

(** [if (src > dst)] forwards, else backwards from the ends. *)
Definition user_memmove (dst src n : Z) : Arr unit :=
  if dst <? src then for_each (λ i, v ← getc (src + i); Str.putc (dst + i) v) (upto n)
  else for_each (λ i, v ← getc (src + n - (i + 1)); Str.putc (dst + n - (i + 1)) v) (upto n).
Definition user_memcpy (dst src n : Z) : Arr unit := user_memmove dst src n.

Fixpoint user_memcmp (p1 p2 : Z) (n : nat) : Arr Z :=
  match n with
  | O => mret 0
  | Datatypes.S n => a ← getc p1; b ← getc p2; if negb (a =? b) then mret (a - b) else user_memcmp (p1 + 1) (p2 + 1) n
  end.

(** ** gets *)

(** What is left to read from file descriptor 0, and the buffer. *)
Definition Tty := M (list Z * list Z).
(** [read(0, &c, 1)]: nothing at the end of the file. *)
Definition read1 : Tty (option Z) :=
  λ s, match s.1 with c :: l => Ok (Some c, (l, s.2)) | [] => Ok (None, s) end.
Definition set_buf (i v : Z) : Tty unit :=
  λ s, if (0 <=? i) && (i <? zlen s.2) then Ok (tt, (s.1, zset s.2 i v)) else Fault.
Definition gets_step (max i : Z) : Tty (Z + Z) :=
  if negb (i + 1 <? max) then mret (inr i) else
  cc ← read1;
  match cc with
  | None => mret (inr i)
  | Some c => set_buf i c ;; mret (if (c =? 10) || (c =? 13) then inr (i + 1) else inl (i + 1))
  end.
(** [gets(buf, max)] *)
Definition gets_line (max : Z) : Tty unit := i ← loop (Z.to_nat max + 1) (gets_step max) 0; set_buf i 0.

(** ** What they compute *)

Lemma i32_sub_l a b : i32 (i32 a - b) = i32 (a - b).
Proof.
  unfold swrap. f_equal. replace ((a + 2 ^ (32 - 1)) mod 2 ^ 32 - 2 ^ (32 - 1) - b + 2 ^ (32 - 1)) with ((a + 2 ^ (32 - 1)) mod 2 ^ 32 - b) by lia.
  rewrite Zminus_mod_idemp_l. f_equal. lia.
Qed.
Lemma user_digit v x : 0 ≤ v < 10 → znth user_digits v = Some x → x = CH0 + v.
Proof.
  intros Hv. assert (v = 0 ∨ v = 1 ∨ v = 2 ∨ v = 3 ∨ v = 4 ∨ v = 5 ∨ v = 6 ∨ v = 7 ∨ v = 8 ∨ v = 9) as H by lia.
  repeat destruct H as [->|H]; try (by intros [= <-]). subst v. by intros [= <-].
Qed.
Lemma value_from_le n vs : 0 ≤ n → Forall (λ v, 0 ≤ v < 10) vs → n ≤ foldl (λ a v, a * 10 + v) n vs.
Proof.
  intros Hn Hvs. revert n Hn. induction Hvs as [|v vs Hv Hvs IH]; intros n Hn; simpl; [done|]. specialize (IH (n * 10 + v)). lia.
Qed.
Lemma atoi_from_ok vs s c rest n : Forall2 (λ v x, znth user_digits v = Some x) vs s → Forall (λ v, 0 ≤ v < 10) vs → is_digit c = false →
  0 ≤ n → foldl (λ a v, a * 10 + v) n vs < 2 ^ 31 → atoi_from n (s ++ c :: rest) = Some (foldl (λ a v, a * 10 + v) n vs).
Proof.
  intros Hs. revert n. induction Hs as [|v x vs s Hx Hs IH]; intros n Hvs Hc Hn Hlt; simpl; [by rewrite Hc|]. apply Forall_cons in Hvs as [Hv Hvs].
  pose proof (user_digit v x Hv Hx) as ->. simpl in Hlt. pose proof (value_from_le (n * 10 + v) vs ltac:(lia) Hvs).
  assert (is_digit (CH0 + v) = true) as -> by (unfold is_digit, CH0; rewrite andb_true_iff, !Z.leb_le; lia).
  rewrite i32_sub_l, i32_id by lia. replace (n * 10 + (CH0 + v) - CH0) with (n * 10 + v) by lia. apply IH; [done|done|lia|done].
Qed.

(** C27. [atoi] reads back what [printf] prints: for every [int] that is not
    negative, the text of a ["%d"] in front of anything but a digit is read as
    that number. (From 2147483600 on, [n*10 + *s] is more than an [int] holds
    before ['0'] is taken off; C leaves that undefined, and the model wraps
    around, as the machine does.) *)
Theorem atoi_reads_back x out : 0 ≤ x < 2 ^ 31 →
  ∃ l, fprintf [PCT; CH_d; 0] [Num x] out = Ok (tt, out ++ l) ∧
    ∀ c rest, is_digit c = false → atoi (l ++ c :: rest) = Some x.
Proof.
  intros Hx. destruct (vprintf_user [Dec 0] [Num x] [] out) as (l & E & Hl); [repeat constructor|by econstructor; [by eexists|constructor]|].
  exists l. split; [exact E|]. intros c rest Hc.
  inversion Hl as [|t ts ap ap' l1 ls H1 H2]; subst. inversion H2; subst. rewrite app_nil_r. destruct H1 as (y & [= <- <-] & Hs). cbn match in Hs.
  rewrite i32_id in Hs by lia. unfold signed in Hs. rewrite (proj2 (Z.ltb_ge x 0)) in Hs by lia. destruct Hs as (vs & [Hvs Hd] & <- & _).
  apply (atoi_from_ok vs l1 c rest 0); [done|done|done|lia|]. by destruct Hx.
Qed.

(** [strcmp] is 0 for equal strings only. *)
Lemma strcmp_zero v w r1 r2 : Forall (λ c, 0 < c < 256) v → Forall (λ c, 0 < c < 256) w →
  ∃ d, strcmp (v ++ 0 :: r1) (w ++ 0 :: r2) = Some d ∧ (d = 0 ↔ v = w).
Proof.
  intros Hv. revert w. induction Hv as [|a v Ha Hv IH]; intros w Hw; destruct Hw as [|b w Hb Hw]; simpl.
  - by exists 0.
  - exists (u8 0 - u8 b). split; [done|]. rewrite (wrap_id 8 b), wrap_id by lia. split; [lia|done].
  - rewrite (proj2 (Z.eqb_neq a 0)) by lia. exists (u8 a - u8 0). destruct (Z.eqb_spec a 0); [lia|]. split; [done|]. rewrite (wrap_id 8 a), wrap_id by lia. split; [lia|done].
  - rewrite (proj2 (Z.eqb_neq a 0)) by lia. cbn [negb andb]. destruct (Z.eqb_spec a b) as [->|Hne].
    + destruct (IH w Hw) as (d & E & Hd). exists d. split; [done|]. rewrite Hd. split; [by intros ->|by intros [= ->]].
    + exists (u8 a - u8 b). split; [done|]. rewrite !wrap_id by lia. split; [lia|by intros [= -> _]].
Qed.

(** [user_memmove] copies right whatever the overlap. *)
Lemma umemmove_overlap dst src n a : 0 ≤ n → 0 ≤ src → 0 ≤ dst → src + n ≤ zlen a → dst + n ≤ zlen a →
  user_memmove dst src n a = Ok (tt, splice dst (sub src n a) a).
Proof.
  intros. unfold user_memmove. destruct (Z.ltb_spec dst src); [apply copy_forwards; lia|apply copy_backwards; lia].
Qed.

(** [strcpy] of a string to a place beside it. *)
Lemma strcpy_loop w s t a n : (∀ i, 0 ≤ i < zlen w → znth a (t + i) = znth w i) → znth a (t + zlen w) = Some 0 → 0 ∉ w → 0 ≤ s → 0 ≤ t →
  s + zlen w < zlen a → s + zlen w < t ∨ t + zlen w < s → (length w < n)%nat →
  loop n strcpy_step (s, t) a = Ok (tt, splice s (w ++ [0]) a).
Proof.
  revert s t a n. induction w as [|c w IH]; intros s t a n Ha H0 Hw Hs Ht Hlen Hdis Hn; (destruct n as [|n]; [lia|]).
  - change (zlen []) with 0 in *. rewrite Z.add_0_r in *. rewrite app_nil_l, <-splice_cons, splice_nil by (change (zlen (@nil Z)) with 0; lia).
    apply loop_inr. unfold strcpy_step. rewrite (bind_step _ _ _ _ _ (getc_ok t a 0 H0)). by rewrite (bind_step _ _ _ _ _ (putc_ok s 0 a ltac:(lia))).
  - apply not_elem_of_cons in Hw as [Hc Hw]. pose proof (zlen_nonneg w). assert (zlen (c :: w) = 1 + zlen w) as Hz by (unfold zlen; simpl; lia). rewrite Hz in *.
    assert (znth a t = Some c) as Hac by (rewrite <-(Z.add_0_r t), Ha by lia; done).
    erewrite loop_inl.
    2: { unfold strcpy_step. rewrite (bind_step _ _ _ _ _ (getc_ok t a c Hac)), (bind_step _ _ _ _ _ (putc_ok s c a ltac:(lia))), (proj2 (Z.eqb_neq c 0)) by congruence. done. }
    rewrite (IH (s + 1) (t + 1) (zset a s c)); [|..]; [| | |done|lia|lia|by rewrite zlen_zset; lia|lia|simpl in Hn; lia].
    + rewrite <-app_comm_cons, splice_cons; [done|lia|]. rewrite zlen_app. change (zlen [0]) with 1. lia.
    + intros i Hi. rewrite znth_zset_ne by lia. replace (t + 1 + i) with (t + (i + 1)) by lia. rewrite Ha by lia. unfold znth.
      destruct (Z.leb_spec 0 (i + 1)), (Z.leb_spec 0 i); try lia. replace (Z.to_nat (i + 1)) with (Datatypes.S (Z.to_nat i)) by lia. done.
    + rewrite znth_zset_ne by lia. replace (t + 1 + zlen w) with (t + (1 + zlen w)) by lia. done.
Qed.

(** ** gets *)

(** The first line of the input, with its end, and at most [n] characters. *)
Fixpoint take_line (n : nat) (l : list Z) : list Z :=
  match n, l with
  | Datatypes.S n, c :: l => if (c =? 10) || (c =? 13) then [c] else c :: take_line n l
  | _, _ => []
  end.
Lemma gets_loop k n max i l buf : 0 ≤ i → max = i + 1 + Z.of_nat n → max ≤ zlen buf → (n < k)%nat →
  let w := take_line n l in loop k (gets_step max) i (l, buf) = Ok (i + zlen w, (drop (length w) l, splice i w buf)).
Proof.
  revert k i l buf. induction n as [|n IH]; intros k i l buf Hi Hmax Hlen Hk; (destruct k as [|k]; [lia|]).
  - cbn. rewrite splice_nil. change (zlen []) with 0. rewrite Z.add_0_r. apply loop_inr. unfold gets_step.
    by rewrite (proj2 (Z.ltb_ge (i + 1) max)) by lia.
  - destruct l as [|c l].
    + cbn. rewrite splice_nil. change (zlen []) with 0. rewrite Z.add_0_r. apply loop_inr. unfold gets_step. by rewrite (proj2 (Z.ltb_lt (i + 1) max)) by lia.
    + assert (gets_step max i (c :: l, buf) = Ok (if (c =? 10) || (c =? 13) then inr (i + 1) else inl (i + 1), (l, zset buf i c))) as Es.
      { unfold gets_step. rewrite (proj2 (Z.ltb_lt (i + 1) max)) by lia. cbn [negb]. unfold mbind, M_bind, read1, set_buf. cbn [fst snd].
        rewrite (proj2 (Z.leb_le 0 i)), (proj2 (Z.ltb_lt i (zlen buf))) by lia. done. }
      cbn [take_line]. destruct ((c =? 10) || (c =? 13)).
      * rewrite (loop_inr _ _ _ _ _ _ Es). cbn. rewrite <-splice_cons, splice_nil by (change (zlen (@nil Z)) with 0; lia). done.
      * rewrite (loop_inl _ _ _ _ _ _ Es), IH by (try rewrite zlen_zset; lia). cbn [length drop].
        assert (length (take_line n l) ≤ n)%nat by (clear; revert l; induction n as [|n IH]; intros [|c l]; simpl; try lia; case_match; simpl; [lia|specialize (IH l); lia]).
        rewrite splice_cons by (unfold zlen in *; lia). do 2 f_equal. unfold zlen. simpl. lia.
Qed.
Lemma gets_takes_line max l buf : 0 < max ≤ zlen buf → let w := take_line (Z.to_nat (max - 1)) l in
  gets_line max (l, buf) = Ok (tt, (drop (length w) l, splice 0 (w ++ [0]) buf)).
Proof.
  intros Hmax w. unfold gets_line. rewrite (bind_step _ _ _ _ _ (gets_loop (Z.to_nat max + 1) (Z.to_nat (max - 1)) max 0 l buf ltac:(lia) ltac:(lia) ltac:(lia) ltac:(lia))). fold w.
  assert (length w ≤ Z.to_nat (max - 1))%nat as Hw.
  { unfold w. clear. generalize (Z.to_nat (max - 1)) as n. intros n. revert l. induction n as [|n IH]; intros [|c l]; simpl; try lia. case_match; simpl; [lia|specialize (IH l); lia]. }
  assert (zlen w + 1 ≤ zlen buf) by (unfold zlen in *; lia). pose proof (zlen_nonneg w).
  unfold set_buf. cbn [fst snd]. rewrite Z.add_0_l, zlen_splice by lia. rewrite (proj2 (Z.leb_le 0 (zlen w))), (proj2 (Z.ltb_lt (zlen w) _)) by lia. cbn [andb].
  do 3 f_equal. rewrite <-splice_app by (change (zlen [0]) with 1; lia). rewrite Z.add_0_l. rewrite <-splice_cons, splice_nil; [done|lia|].
  change (zlen (@nil Z)) with 0. rewrite zlen_splice; lia.
Qed.
Lemma atoi_reads_back_witness : (0 ≤ 2147483647 < 2 ^ 31) ∧
  ∃ l, fprintf [PCT; CH_d; 0] [Num 2147483647] [] = Ok (tt, [] ++ l) ∧ ∀ c rest, is_digit c = false → atoi (l ++ c :: rest) = Some 2147483647.
Proof. split; [done|]. apply (atoi_reads_back 2147483647 []). done. Defined.
