(* ===== verification/Sh.v ===== *)
(** * The parser of the shell

    Models the parsing half of [user/sh.c]. The command line is a buffer of
    bytes, pointers into it are offsets; the parser's state is the pointer it
    advances ([*ps]). *)

From stdpp Require Import base numbers list strings.
From S2P Require Import Prelude.
Open Scope Z_scope.
Open Scope kernel_scope.

(** ** Commands *)

(** [struct cmd] and its kinds. A counted string is an [S]: in what the parser
    builds, the pointers to its first byte and to the byte after its last one
    ([argv] and [eargv], [file] and [efile]). *)
Inductive cmd (S : Type) : Type :=
| EXEC (argv : list S)
| REDIR (c : cmd S) (file : S) (mode fd : Z)
| PIPE (left right : cmd S)
| LIST (left right : cmd S)
| BACK (c : cmd S).
Arguments EXEC {S} _.
Arguments REDIR {S} _ _ _ _.
Arguments PIPE {S} _ _.
Arguments LIST {S} _ _.
Arguments BACK {S} _.
Abbreviation span := (Z * Z)%type.

Definition MAXARGS : Z := 10.
Definition O_RDONLY : Z := 0.
Definition O_WRONLY : Z := 1.
Definition O_CREATE : Z := 512.
Definition O_TRUNC : Z := 1024.

(** A redirection: [file], [mode], [fd]. [redircmd] puts them around a command
    one after the other. *)
Definition redirection (S : Type) : Type := S * Z * Z.
Definition redirs_on {S} (c : cmd S) (rs : list (redirection S)) : cmd S :=
  fold_left (λ c r, REDIR c r.1.1 r.1.2 r.2) rs c.

(** ** Characters *)

Definition TAB : Z := 9.
Definition LF : Z := 10.
Definition VT : Z := 11.
Definition CR : Z := 13.
Definition SPACE : Z := 32.
Definition AMP : Z := 38.
Definition LPAR : Z := 40.
Definition RPAR : Z := 41.
Definition PLUS : Z := 43.
Definition SEMI : Z := 59.
Definition LT : Z := 60.
Definition GT : Z := 62.
Definition CH_a : Z := 97.
Definition BAR : Z := 124.

Definition whitespace : list Z := [SPACE; TAB; CR; LF; VT].
Definition symbols : list Z := [LT; BAR; GT; AMP; SEMI; LPAR; RPAR].
(** [strchr(l, c) != 0], for a string [l]: the NUL is not looked for. *)
Definition inb (l : list Z) (c : Z) : bool := existsb (Z.eqb c) l.

Section parser.
Context (buf : list Z) (es : Z).
Abbreviation P := (M Z).

Definition byte_at (s : Z) : P Z := opt (znth buf s).
(** [while(s < es && f( *s)) s++;] *)
Definition skip_while (f : Z → bool) (s : Z) : P Z :=
  loop (Datatypes.S (length buf)) (λ s,
    if s <? es then c ← byte_at s; mret (if f c then inl (s + 1) else inr s) else mret (inr s)) s.
Definition is_word (c : Z) : bool := negb (inb whitespace c) && negb (inb symbols c).

(** The token, its first byte and the byte after its last. *)
Definition gettoken : P (Z * Z * Z) :=
  s ← gets id;
  q ← skip_while (inb whitespace) s;
  c ← byte_at q;
  r ← (if c =? 0 then mret (c, q) else
       if inb [BAR; LPAR; RPAR; SEMI; AMP; LT] c then mret (c, q + 1) else
       if c =? GT then
         c2 ← byte_at (q + 1); mret (if c2 =? GT then (PLUS, q + 2) else (c, q + 1))
       else e ← skip_while is_word q; mret (CH_a, e));
  s ← skip_while (inb whitespace) r.2;
  modify (λ _, s) ;;
  mret (r.1, q, r.2).

Definition peek (toks : list Z) : P bool :=
  s ← gets id;
  s ← skip_while (inb whitespace) s;
  modify (λ _, s) ;;
  c ← byte_at s;
  mret (negb (c =? 0) && inb toks c).

(** The redirections that [parseredirs] puts around its command. *)
Definition parseredirs_step (rs : list (redirection span)) : P (list (redirection span) + list (redirection span)) :=
  b ← peek [LT; GT];
  if negb b then mret (inr rs) else
  t ← gettoken;
  w ← gettoken;
  let '(tok, _, _) := t in let '(tok2, q, eq) := w in
  if negb (tok2 =? CH_a) then panic "missing file for redirection" else
  mret (inl (if tok =? LT then rs ++ [((q, eq), O_RDONLY, 0)] else
             if tok =? GT then rs ++ [((q, eq), Z.lor O_WRONLY (Z.lor O_CREATE O_TRUNC), 1)] else
             if tok =? PLUS then rs ++ [((q, eq), Z.lor O_WRONLY O_CREATE, 1)] else rs)).
Definition parseredirs : P (list (redirection span)) := loop (Datatypes.S (length buf)) parseredirs_step [].

(** A turn of the loop of [parseexec]: the arguments and the redirections so far.
    [ret] is [redirs_on (EXEC argv) rs]: the [execcmd] inside it is the one that
    gets the arguments. *)
Definition parseexec_step (x : list span * list (redirection span)) :
    P ((list span * list (redirection span)) + (list span * list (redirection span))) :=
  let '(argv, rs) := x in
  b ← peek [BAR; RPAR; AMP; SEMI];
  if (b : bool) then mret (inr x) else
  w ← gettoken;
  let '(tok, q, eq) := w in
  if tok =? 0 then mret (inr x) else
  if negb (tok =? CH_a) then panic "syntax" else
  if MAXARGS <=? zlen argv then fault else
  let argv := argv ++ [(q, eq)] in
  if MAXARGS <=? zlen argv then panic "too many args" else
  rs2 ← parseredirs;
  mret (inl (argv, rs ++ rs2)).

(** The parser calls itself at most once per token and level, so four times the
    length of the line and a bit are enough [fuel]. *)
Fixpoint parseline (fuel : nat) : P (cmd span) :=
  match fuel with O => λ _, Diverge | Datatypes.S n =>
    c ← parsepipe n;
    c ← loop (Datatypes.S (length buf)) (λ c,
          b ← peek [AMP];
          if (b : bool) then _ ← gettoken; mret (inl (BACK c)) else mret (inr c)) c;
    b ← peek [SEMI];
    if (b : bool) then _ ← gettoken; r ← parseline n; mret (LIST c r) else mret c
  end
with parsepipe (fuel : nat) : P (cmd span) :=
  match fuel with O => λ _, Diverge | Datatypes.S n =>
    c ← parseexec n;
    b ← peek [BAR];
    if (b : bool) then _ ← gettoken; r ← parsepipe n; mret (PIPE c r) else mret c
  end
with parseexec (fuel : nat) : P (cmd span) :=
  match fuel with O => λ _, Diverge | Datatypes.S n =>
    b ← peek [LPAR];
    if (b : bool) then parseblock n else
    rs ← parseredirs;
    x ← loop (Datatypes.S (length buf)) parseexec_step ([], rs);
    if MAXARGS <=? zlen x.1 then fault else
    mret (redirs_on (EXEC x.1) x.2)
  end
with parseblock (fuel : nat) : P (cmd span) :=
  match fuel with O => λ _, Diverge | Datatypes.S n =>
    b ← peek [LPAR];
    if negb b then panic "parseblock" else
    _ ← gettoken;
    c ← parseline n;
    b ← peek [RPAR];
    if negb b then panic "syntax - missing )" else
    _ ← gettoken;
    rs ← parseredirs;
    mret (redirs_on c rs)
  end.
End parser.

(** ** The whole command *)

(** NUL after every string of the command. *)
Definition put_nul (e : Z) : M (list Z) unit :=
  b ← gets id;
  if (0 <=? e) && (e <? zlen b) then modify (λ b, zset b e 0) else fault.
Fixpoint nulterminate (c : cmd span) : M (list Z) unit :=
  match c with
  | EXEC argv => for_each (λ a : span, put_nul a.2) argv
  | REDIR c f _ _ => nulterminate c ;; put_nul f.2
  | PIPE l r => nulterminate l ;; nulterminate r
  | LIST l r => nulterminate l ;; nulterminate r
  | BACK c => nulterminate c
  end.

(** [strlen] of [ulib.c], on the buffer. *)
Fixpoint user_strlen (l : list Z) : option Z :=
  match l with [] => None | c :: l => if c =? 0 then Some 0 else n ← user_strlen l; Some (n + 1) end.

(** The string that a pointer into the buffer leads to. *)
Fixpoint c_str (l : list Z) : option (list Z) :=
  match l with [] => None | c :: l => if c =? 0 then Some [] else w ← c_str l; Some (c :: w) end.
Definition string_at (b : list Z) (p : span) : option (list Z) := c_str (drop (Z.to_nat p.1) b).

(** Run the parser on the buffer from its start. *)
Definition in_buf {A} (m : list Z → M Z A) : M (list Z) (A * Z) :=
  λ b, match m b 0 with Ok (a, s) => Ok ((a, s), b) | Panic e => Panic e | Fault => Fault | Diverge => Diverge end.

Definition parsecmd : M (list Z) (cmd span) :=
  b ← gets id;
  es ← opt (user_strlen b);
  x ← in_buf (λ b, c ← parseline b es (4 * Z.to_nat es + 4); _ ← peek b es []; mret c);
  let '(c, s) := x in
  if negb (s =? es) then panic "syntax" else
  nulterminate c ;;
  mret c.
