(* ===== verification/ShProps.v ===== *)
(** * The shell's parser, against its grammar

    The tokens of a line, the line that a command is written as, and what the
    parser makes of lines. *)

From stdpp Require Import base numbers list sets strings.
From S2P Require Import Prelude Sh.
Open Scope Z_scope.
Open Scope kernel_scope.

(** ** Tokens *)

Inductive token := Sym (c : Z) | App | Word (w : list Z).
#[global] Instance token_eq_dec : EqDecision token.
Proof. solve_decision. Defined.

Definition word_char (c : Z) : Prop := is_word c = true ∧ 0 < c < 256.
Definition ends_word (b : list Z) : Prop := match b with c :: _ => is_word c = false | [] => True end.

(** The tokens of a line: symbols, [>>], and words as long as they can be, with
    white space anywhere between them. *)
Inductive lexes : list Z → list token → Prop :=
| lexes_nil : lexes [] []
| lexes_space c b ts : inb whitespace c = true → lexes b ts → lexes (c :: b) ts
| lexes_sym c b ts : inb symbols c = true → c ≠ GT → lexes b ts → lexes (c :: b) (Sym c :: ts)
| lexes_gt b ts : head b ≠ Some GT → lexes b ts → lexes (GT :: b) (Sym GT :: ts)
| lexes_app b ts : lexes b ts → lexes (GT :: GT :: b) (App :: ts)
| lexes_word w b ts : w ≠ [] → Forall word_char w → ends_word b → lexes b ts → lexes (w ++ b) (Word w :: ts).

(** What [gettoken] returns for it. *)
Definition tcode (t : token) : Z := match t with Sym c => c | App => PLUS | Word _ => CH_a end.
(** Whether [peek] for [toks] sees it. *)
Definition tok_in (toks : list Z) (t : token) : bool :=
  match t with Sym c => inb toks c | App => inb toks GT | Word _ => false end.
Definition peeks (toks : list Z) (ts : list token) : bool := match ts with t :: _ => tok_in toks t | [] => false end.

Lemma inb_spec l c : inb l c = true ↔ c ∈ l.
Proof.
  unfold inb. rewrite existsb_exists. split; [intros (x & Hx & E)|intros Hc; exists c; split; [by apply list_elem_of_In|by apply Z.eqb_refl]].
  apply Z.eqb_eq in E as ->. by apply list_elem_of_In.
Qed.
Lemma inb_cons l x c : inb (x :: l) c = (c =? x) || inb l c.
Proof. done. Qed.
(** Every character is one of three kinds. *)
Lemma space_not_word c : inb whitespace c = true → is_word c = false.
Proof. unfold is_word. by intros ->. Qed.
Lemma sym_not_word c : inb symbols c = true → is_word c = false.
Proof. unfold is_word. intros ->. apply andb_false_r. Qed.
Lemma sym_not_space c : inb symbols c = true → inb whitespace c = false.
Proof. rewrite inb_spec. intros Hc. repeat (apply elem_of_cons in Hc as [->|Hc]; [done|]). by apply not_elem_of_nil in Hc. Qed.
Lemma word_not c : is_word c = true → inb whitespace c = false ∧ inb symbols c = false.
Proof. unfold is_word. intros [?%negb_true_iff ?%negb_true_iff]%andb_true_iff. done. Qed.

Lemma lexes_skip ws b ts : Forall (λ c, inb whitespace c = true) ws → lexes (ws ++ b) ts → lexes b ts.
Proof.
  induction ws as [|c ws IH]; [done|]. intros [Hc Hws]%Forall_cons. simpl. remember (c :: ws ++ b) as l eqn:El. intros Hl. apply IH; [done|].
  destruct Hl as [|c' b' ts Hc' Hl|c' b' ts Hs Hgt Hl|b' ts Hh Hl|b' ts Hl|w b' ts Hw Hf He Hl].
  - done.
  - by injection El as -> ->.
  - injection El as -> ->. apply sym_not_space in Hs. congruence.
  - injection El as <- ->. done.
  - injection El as <- _. done.
  - destruct w as [|x w]; [done|]. injection El as -> _. apply Forall_cons in Hf as [[Hx _] _]. apply space_not_word in Hc. congruence.
Qed.
Lemma split_while (f : Z → bool) b : ∃ w b', b = w ++ b' ∧ Forall (λ c, f c = true) w ∧
  match b' with c :: _ => f c = false | [] => True end.
Proof.
  induction b as [|c b (w & b' & -> & Hw & Hb)]; [by exists [], []|]. destruct (f c) eqn:E.
  - exists (c :: w), b'. split_and!; [done|by constructor|done].
  - exists [], (c :: w ++ b'). by split_and!.
Qed.

(** Every line has tokens: a line is bytes, and the NUL ends it. *)
Definition line_bytes (line : list Z) : Prop := Forall (λ c, 0 < c < 256) line.
Lemma line_no_nul line : line_bytes line → 0 ∉ line.
Proof. unfold line_bytes. rewrite Forall_forall. intros H H0. by destruct (H 0 H0). Qed.
Lemma lexes_total n b : (length b ≤ n)%nat → Forall (λ c, 0 < c < 256) b → ∃ ts, lexes b ts ∧ (length ts ≤ length b)%nat.
Proof.
  revert b. induction n as [|n IH]; intros b Hn H0; [destruct b; [|simpl in Hn; lia]; exists []; split; [constructor|done]|].
  destruct b as [|c b]; [exists []; split; [constructor|done]|]. simpl in Hn. apply Forall_cons in H0 as [Hc0 H0].
  destruct (inb whitespace c) eqn:Ews; [destruct (IH b ltac:(lia) H0) as (ts & Hl & Hlen); exists ts; split; [by constructor|simpl; lia]|].
  destruct (inb symbols c) eqn:Esy.
  - destruct (decide (c = GT)) as [->|Hgt].
    + destruct (decide (head b = Some GT)) as [Eh|Hh].
      * destruct b as [|c' b]; [done|]. injection Eh as ->. apply Forall_cons in H0 as [_ H0]. simpl in Hn.
        destruct (IH b ltac:(lia) H0) as (ts & Hl & Hlen). exists (App :: ts). split; [by constructor|simpl; lia].
      * destruct (IH b ltac:(lia) H0) as (ts & Hl & Hlen). exists (Sym GT :: ts). split; [by constructor|simpl; lia].
    + destruct (IH b ltac:(lia) H0) as (ts & Hl & Hlen). exists (Sym c :: ts). split; [by constructor|simpl; lia].
  - destruct (split_while is_word b) as (w & b' & -> & Hw & Hb'). rewrite length_app in Hn. apply Forall_app in H0 as [Hw0 Hb0].
    destruct (IH b' ltac:(lia) Hb0) as (ts & Hl & Hlen). exists (Word (c :: w) :: ts).
    split; [|simpl; rewrite length_app; lia]. apply (lexes_word (c :: w) b' ts); [done| | |done].
    + constructor; [split; [|done]; unfold is_word; by rewrite Ews, Esy|]. apply Forall_forall. intros x Hx. rewrite Forall_forall in Hw, Hw0.
      split; [by apply Hw|by apply Hw0].
    + by destruct b'.
Qed.

Lemma lexes_nil_inv ts : lexes [] ts → ts = [].
Proof.
  remember [] as l eqn:El. destruct 1 as [| | | | |w b ts Hw]; try done. by apply app_eq_nil in El as [-> _].
Qed.
Lemma lexes_inv c b ts : lexes (c :: b) ts → inb whitespace c = false →
  (∃ ts', ts = Sym c :: ts' ∧ inb symbols c = true ∧ c ≠ GT ∧ lexes b ts') ∨
  (∃ ts', ts = Sym GT :: ts' ∧ c = GT ∧ head b ≠ Some GT ∧ lexes b ts') ∨
  (∃ ts' b', ts = App :: ts' ∧ c = GT ∧ b = GT :: b' ∧ lexes b' ts') ∨
  ∃ w b' ts', ts = Word w :: ts' ∧ c :: b = w ++ b' ∧ w ≠ [] ∧ Forall word_char w ∧ ends_word b' ∧ lexes b' ts'.
Proof.
  remember (c :: b) as l eqn:El. intros Hl Hc. destruct Hl as [|c' b' ts Hc' Hl|c' b' ts Hs Hgt Hl|b' ts Hh Hl|b' ts Hl|w b' ts Hw Hf He Hl].
  - done.
  - injection El as -> ->. congruence.
  - injection El as -> ->. left. by exists ts.
  - injection El as <- ->. right. left. by exists ts.
  - injection El as <- <-. right. right. left. by exists ts, b'.
  - right. right. right. exists w, b', ts. by split_and!.
Qed.

(** ** The buffer *)

Section buffer.
Context (buf : list Z) (es : Z).

(** At offset [s] the tokens [ts] are what is left of the line. *)
Definition at_tokens (ts : list token) (s : Z) : Prop :=
  ∃ pre b rest, buf = pre ++ b ++ 0 :: rest ∧ es = zlen (pre ++ b) ∧ s = zlen pre ∧ 0 ∉ b ∧ lexes b ts.

Lemma byte_at_ok pre c l (s : Z) : buf = pre ++ c :: l → byte_at buf (zlen pre) s = Ok (c, s).
Proof.
  intros ->. unfold byte_at. apply opt_ok. rewrite znth_app. destruct (Z.ltb_spec (zlen pre) (zlen pre)); [lia|]. by rewrite Z.sub_diag.
Qed.

Lemma skip_while_ok (f : Z → bool) pre w rest s : buf = pre ++ w ++ rest → Forall (λ c, f c = true) w → zlen (pre ++ w) ≤ es →
  (zlen (pre ++ w) = es ∨ ∃ c l, rest = c :: l ∧ f c = false) → skip_while buf es f (zlen pre) s = Ok (zlen (pre ++ w), s).
Proof.
  intros Hb Hw Hle Hend. unfold skip_while.
  assert (∀ n pre w, buf = pre ++ w ++ rest → Forall (λ c, f c = true) w → zlen (pre ++ w) ≤ es →
    (zlen (pre ++ w) = es ∨ ∃ c l, rest = c :: l ∧ f c = false) → (length w < n)%nat →
    loop n (λ s, if s <? es then c ← byte_at buf s; mret (if f c then inl (s + 1) else inr s) else mret (inr s)) (zlen pre) s = Ok (zlen (pre ++ w), s)) as Hloop.
  2: { apply Hloop; [done..|]. apply (f_equal length) in Hb. rewrite !length_app in Hb. lia. }
  clear. intros n. induction n as [|n IH]; intros pre w Hb Hw Hle Hend Hn; [lia|]. destruct w as [|c w].
  - rewrite app_nil_r in *. apply loop_inr. destruct (Z.ltb_spec (zlen pre) es) as [Hlt|]; [|done].
    destruct Hend as [?|(c & l & -> & Hc)]; [lia|]. erewrite bind_step by (by eapply byte_at_ok). by rewrite Hc.
  - apply Forall_cons in Hw as [Hc Hw]. pose proof (zlen_nonneg w) as Hzw. assert (zlen (pre ++ c :: w) = zlen pre + 1 + zlen w) as Hlen by (rewrite zlen_app; unfold zlen; simpl; lia).
    assert (pre ++ c :: w = (pre ++ [c]) ++ w) as Eassoc by (by rewrite <-app_assoc).
    erewrite loop_inl.
    2: { rewrite (proj2 (Z.ltb_lt _ _)) by lia. erewrite bind_step by (by eapply byte_at_ok). by rewrite Hc. }
    rewrite Eassoc in *. replace (zlen pre + 1) with (zlen (pre ++ [c])) by (rewrite zlen_app; done). apply IH; [|done|done|done|simpl in Hn; lia].
    rewrite Hb. by rewrite <-!app_assoc.
Qed.

(** The same, with no white space before the next token. *)
Definition at_start (ts : list token) (s : Z) : Prop :=
  ∃ pre b rest, buf = pre ++ b ++ 0 :: rest ∧ es = zlen (pre ++ b) ∧ s = zlen pre ∧ 0 ∉ b ∧ lexes b ts ∧
    match b with c :: _ => inb whitespace c = false | [] => True end.
Lemma at_start_tokens ts s : at_start ts s → at_tokens ts s.
Proof. intros (pre & b & rest & ? & ? & ? & ? & ? & _). by exists pre, b, rest. Qed.

Lemma skip_space_ok ts s st : at_tokens ts s → ∃ s1, skip_while buf es (inb whitespace) s st = Ok (s1, st) ∧ at_start ts s1.
Proof.
  intros (pre & b & rest & Hb & Hes & -> & H0 & Hl). destruct (split_while (inb whitespace) b) as (ws & b' & -> & Hws & Hb').
  exists (zlen (pre ++ ws)). split.
  - apply (skip_while_ok _ pre ws (b' ++ 0 :: rest)); [by rewrite Hb, <-app_assoc|done| |].
    + rewrite Hes, app_assoc, (zlen_app (pre ++ ws)). pose proof (zlen_nonneg b'). lia.
    + right. destruct b' as [|c b']; [by exists 0, rest|]. by exists c, (b' ++ 0 :: rest).
  - exists (pre ++ ws), b', rest. split_and!; [by rewrite Hb, <-!app_assoc|by rewrite Hes, app_assoc|done| |by eapply lexes_skip|done].
    by apply not_elem_of_app in H0 as [_ ?].
Qed.

Lemma mret_eq (x y : bool) (s : Z) : x = y → (mret x : M Z bool) s = Ok (y, s).
Proof. by intros ->. Qed.
Lemma peek_ok toks ts s : forallb (inb symbols) toks = true → at_tokens ts s →
  ∃ s1, peek buf es toks s = Ok (peeks toks ts, s1) ∧ at_tokens ts s1.
Proof.
  intros Htoks Hat. destruct (skip_space_ok ts s s Hat) as (s1 & E1 & Hs1). exists s1. split; [|by apply at_start_tokens].
  destruct Hs1 as (pre & b & rest & Hb & _ & -> & H0 & Hl & Hc). unfold peek. erewrite bind_step by done. rewrite (bind_step _ _ _ _ _ E1).
  erewrite bind_step by done. destruct b as [|c b].
  - apply lexes_nil_inv in Hl as ->. erewrite bind_step by (by eapply byte_at_ok). done.
  - erewrite bind_step by (by eapply byte_at_ok). apply not_elem_of_cons in H0 as [Hc0 _]. rewrite (proj2 (Z.eqb_neq c 0)) by congruence. cbn [negb andb].
    apply mret_eq. destruct (lexes_inv c b ts Hl Hc) as [(ts' & -> & _)|[(ts' & -> & -> & _)|[(ts' & b' & -> & -> & _)|(w & b' & ts' & -> & E & Hw & Hf & _)]]]; [done|done|done|].
    simpl. apply not_true_is_false. intros Hin%inb_spec. rewrite forallb_forall in Htoks. specialize (Htoks c). rewrite <-list_elem_of_In in Htoks.
    destruct w as [|x w]; [done|]. injection E as -> _. apply Forall_cons in Hf as [[Hx _] _]. apply word_not in Hx as [_ Hx]. rewrite Htoks in Hx; done.
Qed.

(** Where a word is: behind its end is something that is not part of a word. *)
Definition spans (t : token) (p : span) : Prop :=
  match t with
  | Word w => w ≠ [] ∧ Forall word_char w ∧ p.2 ≤ es ∧
      ∃ pre c rest, buf = pre ++ w ++ c :: rest ∧ p = (zlen pre, zlen (pre ++ w)) ∧ ¬ word_char c
  | _ => True
  end.

Lemma at_after pre w b rest ts s : buf = pre ++ (w ++ b) ++ 0 :: rest → es = zlen (pre ++ w ++ b) → 0 ∉ b → lexes b ts →
  s = zlen pre + zlen w → at_tokens ts s.
Proof.
  intros Hb Hes H0 Hl ->. exists (pre ++ w), b, rest. split_and!; [by rewrite Hb, <-!app_assoc|by rewrite <-app_assoc|by rewrite zlen_app|done|done].
Qed.
Lemma sym_other c : inb symbols c = true → c ≠ GT → inb [BAR; LPAR; RPAR; SEMI; AMP; LT] c = true.
Proof. rewrite !inb_spec. intros Hc Hgt. set_unfold. tauto. Qed.
Lemma word_other c : inb symbols c = false → inb [BAR; LPAR; RPAR; SEMI; AMP; LT] c = false.
Proof. intros Hc. apply not_true_is_false. intros H. apply not_true_iff_false in Hc. apply Hc. rewrite inb_spec in *. set_unfold. tauto. Qed.
Lemma gettoken_ok t ts s : at_tokens (t :: ts) s →
  ∃ p s', gettoken buf es s = Ok ((tcode t, p.1, p.2), s') ∧ at_tokens ts s' ∧ spans t p.
Proof.
  intros Hat. destruct (skip_space_ok _ s s Hat) as (s1 & E1 & pre & b & rest & Hb & Hes & -> & H0 & Hl & Hc).
  destruct b as [|c b]; [by apply lexes_nil_inv in Hl|]. apply not_elem_of_cons in H0 as [Hc0 H0].
  assert (∃ r, (if c =? 0 then mret (c, zlen pre) else
       if inb [BAR; LPAR; RPAR; SEMI; AMP; LT] c then mret (c, zlen pre + 1) else
       if c =? GT then
         c2 ← byte_at buf (zlen pre + 1); mret (if c2 =? GT then (PLUS, zlen pre + 2) else (c, zlen pre + 1))
       else e ← skip_while buf es is_word (zlen pre); mret (CH_a, e)) s = Ok ((tcode t, r), s) ∧
    at_tokens ts r ∧ spans t (zlen pre, r)) as (r & Er & Hr & Hsp).
  { exists (match t with Sym _ => zlen pre + 1 | App => zlen pre + 2 | Word w => zlen (pre ++ w) end).
    rewrite (proj2 (Z.eqb_neq c 0)) by congruence.
    destruct (lexes_inv c b _ Hl Hc) as [(ts' & [= -> ->] & Hs & Hgt & Hl')|[(ts' & [= -> ->] & -> & Hh & Hl')|[(ts' & b' & [= -> ->] & -> & -> & Hl')|(w & b' & ts' & [= -> ->] & E & Hw & Hf & He & Hl')]]].
    - split_and!; [|by apply (at_after pre [c] b rest)|done]. rewrite sym_other; done.
    - split_and!; [|by apply (at_after pre [GT] b rest)|done]. change (inb [BAR; LPAR; RPAR; SEMI; AMP; LT] GT) with false. cbn match. rewrite Z.eqb_refl.
      assert (∃ c2 l2, buf = (pre ++ [GT]) ++ c2 :: l2 ∧ c2 ≠ GT) as (c2 & l2 & Hb2 & Hc2).
      { destruct b as [|c2 b]; [exists 0, rest|exists c2, (b ++ 0 :: rest)]; (split; [by rewrite Hb, <-app_assoc|]); [done|]. intros ->. by apply Hh. }
      replace (zlen pre + 1) with (zlen (pre ++ [GT])) by (rewrite zlen_app; done). erewrite bind_step by (by eapply byte_at_ok).
      by rewrite (proj2 (Z.eqb_neq c2 GT)).
    - apply not_elem_of_cons in H0 as [_ H0].
      split_and!; [|apply (at_after pre [GT; GT] b' rest); done|done]. change (inb [BAR; LPAR; RPAR; SEMI; AMP; LT] GT) with false. cbn match. rewrite Z.eqb_refl.
      replace (zlen pre + 1) with (zlen (pre ++ [GT])) by (rewrite zlen_app; done).
      erewrite bind_step by (apply (byte_at_ok (pre ++ [GT]) GT (b' ++ 0 :: rest)); by rewrite Hb, <-app_assoc). done.
    - destruct w as [|x w]; [done|]. injection E as -> Eb. pose proof Hf as Hf2. apply Forall_cons in Hf2 as [[Hx _] _]. apply word_not in Hx as [_ Hx].
      rewrite word_other by done. rewrite (proj2 (Z.eqb_neq x GT)) by (by intros ->).
      assert (buf = pre ++ (x :: w) ++ b' ++ 0 :: rest) as Hb2 by (rewrite Hb, Eb; simpl; by rewrite <-app_assoc). assert (0 ∉ b') as H0' by (rewrite Eb in H0; set_solver).
      assert (es = zlen (pre ++ (x :: w) ++ b')) as Hes2 by (by rewrite Hes, Eb). pose proof (zlen_nonneg b').
      assert (zlen (pre ++ x :: w) ≤ es) as Hle by (rewrite Hes2, app_assoc, (zlen_app (pre ++ x :: w)); lia).
      split_and!.
      + erewrite bind_step by (apply (skip_while_ok is_word pre (x :: w) (b' ++ 0 :: rest)); [done|eapply Forall_impl; [exact Hf|by intros ? []]|done|];
          destruct b' as [|y b']; [left; by rewrite Hes2, app_nil_r|right; by exists y, (b' ++ 0 :: rest)]). done.
      + apply (at_after pre (x :: w) b' rest); [by rewrite Hb2, (app_assoc (x :: w))|done|done|done|by rewrite zlen_app].
      + split_and!; [done|done|done|]. destruct b' as [|y b']; [exists pre, 0, rest|exists pre, y, (b' ++ 0 :: rest)]; (split_and!; [done|done|]); [intros [_ ?]; lia|].
        intros [Hy _]. simpl in He. congruence. }
  destruct (skip_space_ok ts r s Hr) as (s2 & E2 & Hs2). exists (zlen pre, r), s2. split_and!; [|by apply at_start_tokens|done].
  unfold gettoken. erewrite bind_step by done. rewrite (bind_step _ _ _ _ _ E1). erewrite bind_step by (by eapply byte_at_ok).
  rewrite (bind_step _ _ _ _ _ Er). cbn [fst snd]. rewrite (bind_step _ _ _ _ _ E2). done.
Qed.
Lemma gettoken_end s : at_tokens [] s → ∃ s', gettoken buf es s = Ok ((0, es, es), s') ∧ at_tokens [] s'.
Proof.
  intros Hat. destruct (skip_space_ok _ s s Hat) as (s1 & E1 & pre & b & rest & Hb & Hes & -> & H0 & Hl & Hc).
  assert (b = []) as ->.
  { destruct b as [|c b]; [done|]. by destruct (lexes_inv c b _ Hl Hc) as [(? & ? & _)|[(? & ? & _)|[(? & ? & ? & _)|(? & ? & ? & ? & _)]]]. }
  rewrite app_nil_r in Hes. assert (at_tokens [] (zlen pre)) as Hat1 by (exists pre, [], rest; by rewrite app_nil_r).
  destruct (skip_space_ok _ (zlen pre) s Hat1) as (s2 & E2 & Hs2). exists s2. split; [|by apply at_start_tokens].
  unfold gettoken. erewrite bind_step by done. rewrite (bind_step _ _ _ _ _ E1). erewrite bind_step by (by eapply byte_at_ok).
  cbn [Z.eqb]. mget (0, zlen pre). cbn [fst snd]. rewrite (bind_step _ _ _ _ _ E2). by rewrite Hes.
Qed.

Lemma lexes_length b ts : lexes b ts → (length ts ≤ length b)%nat.
Proof. induction 1 as [| | | | |w b ts Hw _ _ _ IH]; simpl; try lia. rewrite length_app. destruct w; [done|]. simpl. lia. Qed.
Lemma at_tokens_length ts s : at_tokens ts s → (length ts ≤ length buf)%nat ∧ (length ts ≤ Z.to_nat es)%nat.
Proof.
  intros (pre & b & rest & -> & -> & _ & _ & Hl%lexes_length). rewrite !length_app. unfold zlen. rewrite length_app. simpl. lia.
Qed.

(** ** The parser always answers *)

Definition syntax_errors : list string :=
  ["missing file for redirection"; "syntax"; "too many args"; "syntax - missing )"]%string.
(** [r] is an answer with [Q], with at most [n] tokens left, or an error of the
    user's. *)
Definition answers {A} (Q : A → Prop) (n : nat) (r : res (A * Z)) : Prop :=
  match r with
  | Ok (a, s) => Q a ∧ ∃ ts, at_tokens ts s ∧ (length ts ≤ n)%nat
  | Panic e => e ∈ syntax_errors
  | _ => False
  end.

Lemma answers_bind {A B} (m : M Z A) (f : A → M Z B) Q R n k s : answers Q n (m s) →
  (∀ a ts s', Q a → at_tokens ts s' → (length ts ≤ n)%nat → answers R k (f a s')) → answers R k ((m ≫= f) s).
Proof. unfold mbind, M_bind. destruct (m s) as [[a s']|e| |]; try done. intros (Ha & ts & Hts & Hn) Hf. by eapply Hf. Qed.
Lemma answers_le {A} (Q : A → Prop) n k r : answers Q n r → (n ≤ k)%nat → answers Q k r.
Proof. destruct r as [[a s]|e| |]; try done. intros (Ha & ts & Hts & Hn) Hk. split; [done|]. exists ts. split; [done|lia]. Qed.

(** A loop that takes a token in every turn. *)
Lemma loop_answers {X A} (body : X → M Z (X + A)) (I : X → Prop) (Q : A → Prop) :
  (∀ x ts s, I x → at_tokens ts s →
    match body x s with
    | Ok (inl x', s') => I x' ∧ ∃ ts', at_tokens ts' s' ∧ (length ts' < length ts)%nat
    | Ok (inr a, s') => Q a ∧ ∃ ts', at_tokens ts' s' ∧ (length ts' ≤ length ts)%nat
    | Panic e => e ∈ syntax_errors
    | _ => False
    end) →
  ∀ x ts s, I x → at_tokens ts s → answers Q (length ts) (loop (Datatypes.S (length buf)) body x s).
Proof.
  intros Hbody x ts s HI Hat. pose proof (at_tokens_length _ _ Hat) as [Hlen _]. revert x ts s HI Hat Hlen. generalize (length buf).
  induction n as [|n IH]; intros x ts s HI Hat Hlen; pose proof (Hbody x ts s HI Hat) as Hb;
    (destruct (body x s) as [[[x'|a] s']|e| |] eqn:E; [|by erewrite loop_inr by done|simpl; by rewrite (bind_panic _ _ _ _ E)|done|done]).
  - destruct Hb as (_ & ts' & _ & ?). lia.
  - destruct Hb as (HI' & ts' & Hat' & Hlt). erewrite loop_inl by done. eapply answers_le; [apply IH; [done|done|lia]|lia].
Qed.

Lemma peeks_cons toks ts : peeks toks ts = true → ∃ t ts', ts = t :: ts'.
Proof. destruct ts as [|t ts]; [done|]. by exists t, ts. Qed.

Definition in_line (p : span) : Prop := 0 ≤ p.2 ≤ es.
Lemma spans_in_line w p : spans (Word w) p → in_line p.
Proof. intros (_ & _ & He & pre & c & rest & _ & -> & _). split; [apply zlen_nonneg|done]. Qed.

Lemma lexes_syms b ts c : lexes b ts → Sym c ∈ ts → inb symbols c = true.
Proof.
  induction 1 as [|x b ts Hx Hl IH|x b ts Hx Hgt Hl IH|b ts Hh Hl IH|b ts Hl IH|w b ts Hw Hf He Hl IH].
  - by intros ?%not_elem_of_nil.
  - done.
  - by intros [[= ->]|?]%elem_of_cons; [|apply IH].
  - by intros [[= ->]|?]%elem_of_cons; [|apply IH].
  - by intros [[=]|?]%elem_of_cons; apply IH.
  - by intros [[=]|?]%elem_of_cons; apply IH.
Qed.

(** [gettoken] of something that must be a word. *)
Lemma gettoken_any ts s : at_tokens ts s →
  (∃ w ts' p s', ts = Word w :: ts' ∧ gettoken buf es s = Ok ((CH_a, p.1, p.2), s') ∧ at_tokens ts' s' ∧ spans (Word w) p) ∨
  (∃ tok q eq s', gettoken buf es s = Ok ((tok, q, eq), s') ∧ tok ≠ CH_a ∧ (tok = 0 → ts = [] ∧ at_tokens [] s')).
Proof.
  intros Hat. destruct ts as [|t ts].
  - right. destruct (gettoken_end s Hat) as (s' & E & H'). by exists 0, es, es, s'.
  - destruct (gettoken_ok t ts s Hat) as ([q eq] & s' & E & Hat' & Hsp). destruct t as [c| |w].
    + right. exists c, q, eq, s'. assert (inb symbols c = true) as Hc by (destruct Hat as (pre & b & rest & _ & _ & _ & _ & Hl); by eapply lexes_syms; [|left]).
      split_and!; [done| |]; by intros ->.
    + right. exists PLUS, q, eq, s'. split_and!; [done..|]. done.
    + left. by exists w, ts, (q, eq), s'.
Qed.

Definition redir_in (r : redirection span) : Prop := in_line r.1.1.
Lemma parseredirs_answers ts s : at_tokens ts s → answers (Forall redir_in) (length ts) (parseredirs buf es s).
Proof.
  apply (loop_answers _ (Forall redir_in)); [|done]. clear ts s. intros rs ts s Hrs Hat. unfold parseredirs_step.
  destruct (peek_ok [LT; GT] ts s eq_refl Hat) as (s1 & E1 & Hat1). rewrite (bind_step _ _ _ _ _ E1).
  destruct (peeks [LT; GT] ts) eqn:Ep; cbn [negb]; [|split; [done|by exists ts]].
  destruct (peeks_cons _ _ Ep) as (t & ts' & ->). destruct (gettoken_ok _ _ _ Hat1) as ([q eq] & s2 & E2 & Hat2 & _).
  rewrite (bind_step _ _ _ _ _ E2). destruct (gettoken_any _ _ Hat2) as [(w & ts2 & p & s3 & -> & E3 & Hat3 & Hsp)|(tok & q2 & eq2 & s3 & E3 & Hne & _)];
    rewrite (bind_step _ _ _ _ _ E3); cbn [fst snd].
  - rewrite Z.eqb_refl. cbn [negb]. assert (redir_in (p.1, p.2, O_RDONLY, 0)) as Hp by (apply (spans_in_line w); by destruct p).
    split; [|exists ts2; split; [done|simpl; lia]]. repeat case_match; try done; apply Forall_app; (split; [done|]); apply Forall_singleton; exact Hp.
  - rewrite (proj2 (Z.eqb_neq tok CH_a)) by done. cbn [negb]. by left.
Qed.

Fixpoint ends_in (c : cmd span) : Prop :=
  match c with
  | EXEC argv => Forall in_line argv
  | REDIR c f _ _ => ends_in c ∧ in_line f
  | PIPE l r | LIST l r => ends_in l ∧ ends_in r
  | BACK c => ends_in c
  end.
Lemma redirs_on_in c rs : ends_in c → Forall redir_in rs → ends_in (redirs_on c rs).
Proof. revert c. induction rs as [|r rs IH]; intros c Hc Hrs; [done|]. apply Forall_cons in Hrs as [Hr Hrs]. by apply IH. Qed.

Lemma parseexec_loop_answers rs ts s : Forall redir_in rs → at_tokens ts s →
  answers (λ x, Forall in_line x.1 ∧ Forall redir_in x.2 ∧ zlen x.1 < MAXARGS) (length ts) (loop (Datatypes.S (length buf)) (parseexec_step buf es) ([], rs) s).
Proof.
  intros Hrs. apply (loop_answers _ (λ x, Forall in_line x.1 ∧ Forall redir_in x.2 ∧ zlen x.1 < MAXARGS)); [|by split_and!]. clear ts s rs Hrs.
  intros [argv rs] ts s (Ha & Hrs & Hlen) Hat. cbn [fst snd] in *. unfold parseexec_step.
  destruct (peek_ok [BAR; RPAR; AMP; SEMI] ts s eq_refl Hat) as (s1 & E1 & Hat1). rewrite (bind_step _ _ _ _ _ E1).
  destruct (peeks _ ts) eqn:Ep; [split; [by split_and!|by exists ts]|].
  destruct (gettoken_any _ _ Hat1) as [(w & ts2 & p & s3 & -> & E3 & Hat3 & Hsp)|(tok & q2 & eq2 & s3 & E3 & Hne & H0)];
    rewrite (bind_step _ _ _ _ _ E3); cbn [fst snd].
  - change (CH_a =? 0) with false. rewrite Z.eqb_refl. cbn [negb]. rewrite (proj2 (Z.leb_gt _ _)) by lia.
    destruct (Z.leb_spec MAXARGS (zlen (argv ++ [(p.1, p.2)]))); [simpl; unfold syntax_errors; set_solver|].
    pose proof (parseredirs_answers _ _ Hat3) as Hr. destruct (parseredirs buf es s3) as [[rs2 s4]|e| |] eqn:E4; [|simpl; by rewrite (bind_panic _ _ _ _ E4)|done|done].
    rewrite (bind_step _ _ _ _ _ E4). destruct Hr as (Hr & ts4 & Hat4 & Hl4). cbn [fst snd]. split; [|exists ts4; split; [done|simpl; lia]].
    split_and!; [apply Forall_app; split; [done|]; constructor; [|done]; apply (spans_in_line w); by destruct p|by apply Forall_app|done].
  - destruct (Z.eqb_spec tok 0) as [->|]; [split; [by split_and!|]; exists []; destruct (H0 eq_refl) as [-> ?]; done|].
    rewrite (proj2 (Z.eqb_neq tok CH_a)) by done. cbn [negb]. simpl. unfold syntax_errors. set_solver.
Qed.

(** After a token that [peek] has seen, [gettoken] takes it. *)
Lemma peek_bind {A} toks ts s (f : bool → M Z A) Q n : forallb (inb symbols) toks = true → at_tokens ts s →
  (∀ s', at_tokens ts s' → answers Q n (f (peeks toks ts) s')) → answers Q n ((b ← peek buf es toks; f b) s).
Proof. intros Ht Hat Hf. destruct (peek_ok toks ts s Ht Hat) as (s1 & E & Hat1). rewrite (bind_step _ _ _ _ _ E). by apply Hf. Qed.
Lemma token_bind {A} t ts s (f : Z * Z * Z → M Z A) Q n : at_tokens (t :: ts) s →
  (∀ w s', at_tokens ts s' → answers Q n (f w s')) → answers Q n ((w ← gettoken buf es; f w) s).
Proof. intros Hat Hf. destruct (gettoken_ok t ts s Hat) as (p & s1 & E & Hat1 & _). rewrite (bind_step _ _ _ _ _ E). by apply Hf. Qed.
Lemma answers_ret {A} (a : A) (Q : A → Prop) ts n s : Q a → at_tokens ts s → (length ts ≤ n)%nat → answers Q n ((mret a : M Z A) s).
Proof. intros Ha Hat Hn. split; [done|]. by exists ts. Qed.

Lemma back_loop_answers c ts s : ends_in c → at_tokens ts s →
  answers ends_in (length ts) (loop (Datatypes.S (length buf)) (λ c,
    b ← peek buf es [AMP]; if (b : bool) then _ ← gettoken buf es; mret (inl (BACK c)) else mret (inr c)) c s).
Proof.
  apply loop_answers. clear c ts s. intros c ts s Hc Hat. destruct (peek_ok [AMP] ts s eq_refl Hat) as (s1 & E1 & Hat1). rewrite (bind_step _ _ _ _ _ E1).
  destruct (peeks [AMP] ts) eqn:Ep; [|split; [done|by exists ts]]. destruct (peeks_cons _ _ Ep) as (t & ts' & ->).
  destruct (gettoken_ok _ _ _ Hat1) as (p & s2 & E2 & Hat2 & _). rewrite (bind_step _ _ _ _ _ E2). split; [done|]. exists ts'. split; [done|simpl; lia].
Qed.

Lemma parse_answers n ts s : at_tokens ts s →
  ((4 * length ts + 4 ≤ n)%nat → answers ends_in (length ts) (parseline buf es n s)) ∧
  ((4 * length ts + 3 ≤ n)%nat → answers ends_in (length ts) (parsepipe buf es n s)) ∧
  ((4 * length ts + 2 ≤ n)%nat → answers ends_in (length ts) (parseexec buf es n s)) ∧
  ((4 * length ts + 1 ≤ n)%nat → peeks [LPAR] ts = true → answers ends_in (length ts) (parseblock buf es n s)).
Proof.
  revert ts s. induction n as [|n IH]; intros ts s Hat; [split_and!; intros; lia|]. split_and!; intros Hn; cbn [parseline parsepipe parseexec parseblock].
  - eapply answers_bind; [apply (IH ts s Hat); lia|]. intros c ts1 s1 Hc Hat1 Hl1. eapply answers_bind; [by apply back_loop_answers|].
    intros c2 ts2 s2 Hc2 Hat2 Hl2. apply (peek_bind [SEMI] ts2); [done..|]. intros s3 Hat3. destruct (peeks [SEMI] ts2) eqn:Ep.
    + destruct (peeks_cons _ _ Ep) as (t & ts4 & ->). simpl in Hl2. eapply (token_bind t ts4); [done|]. intros _ s4 Hat4.
      eapply answers_bind; [apply (IH ts4 s4 Hat4); lia|]. intros r ts5 s5 Hr Hat5 Hl5. by eapply answers_ret; [|exact Hat5|lia].
    + eapply answers_ret; [done|exact Hat3|lia].
  - eapply answers_bind; [apply (IH ts s Hat); lia|]. intros c ts1 s1 Hc Hat1 Hl1. apply (peek_bind [BAR] ts1); [done..|]. intros s3 Hat3.
    destruct (peeks [BAR] ts1) eqn:Ep.
    + destruct (peeks_cons _ _ Ep) as (t & ts4 & ->). simpl in Hl1. eapply (token_bind t ts4); [done|]. intros _ s4 Hat4.
      eapply answers_bind; [apply (IH ts4 s4 Hat4); lia|]. intros r ts5 s5 Hr Hat5 Hl5. by eapply answers_ret; [|exact Hat5|lia].
    + eapply answers_ret; [done|exact Hat3|lia].
  - apply (peek_bind [LPAR] ts); [done..|]. intros s1 Hat1. destruct (peeks [LPAR] ts) eqn:Ep; [apply (IH ts s1 Hat1); [lia|done]|].
    eapply answers_bind; [by apply parseredirs_answers|]. intros rs ts2 s2 Hrs Hat2 Hl2.
    eapply answers_bind; [by apply parseexec_loop_answers|]. intros x ts3 s3 (Hx1 & Hx2 & Hx3) Hat3 Hl3.
    rewrite (proj2 (Z.leb_gt _ _)) by lia. eapply answers_ret; [by apply redirs_on_in|exact Hat3|lia].
  - intros Hp. apply (peek_bind [LPAR] ts); [done..|]. intros s1 Hat1. rewrite Hp. cbn [negb]. destruct (peeks_cons _ _ Hp) as (t & ts1 & ->). simpl in Hn |- *.
    eapply (token_bind t ts1); [done|]. intros _ s2 Hat2. eapply answers_bind; [apply (IH ts1 s2 Hat2); lia|]. intros c ts3 s3 Hc Hat3 Hl3.
    apply (peek_bind [RPAR] ts3); [done..|]. intros s4 Hat4. destruct (peeks [RPAR] ts3) eqn:Ep; cbn [negb]; [|simpl; unfold syntax_errors; set_solver].
    destruct (peeks_cons _ _ Ep) as (t5 & ts5 & ->). simpl in Hl3. eapply (token_bind t5 ts5); [done|]. intros _ s5 Hat5.
    eapply answers_bind; [by apply parseredirs_answers|]. intros rs ts6 s6 Hrs Hat6 Hl6. eapply answers_ret; [by apply redirs_on_in|exact Hat6|lia].
Qed.
End buffer.

(** ** nulterminate *)

(** The ends of the strings of a command. *)
Fixpoint ends (c : cmd span) : list Z :=
  match c with
  | EXEC argv => snd <$> argv
  | REDIR c f _ _ => ends c ++ [f.2]
  | PIPE l r | LIST l r => ends l ++ ends r
  | BACK c => ends c
  end.
Lemma ends_in_ends es c : ends_in es c → ∀ e, e ∈ ends c → 0 ≤ e ≤ es.
Proof.
  induction c as [argv|c IH f mode fd|l IHl r IHr|l IHl r IHr|c IH]; simpl.
  - intros Ha e (p & -> & Hp)%list_elem_of_fmap. rewrite Forall_forall in Ha. by apply Ha.
  - intros [Hc Hf] e [He|He%list_elem_of_singleton]%elem_of_app; [by apply IH|by subst e].
  - intros [Hl Hr] e [He|He]%elem_of_app; auto.
  - intros [Hl Hr] e [He|He]%elem_of_app; auto.
  - done.
Qed.

(** [b'] is [b] with NULs at [E]. *)
Definition nuls (E : list Z) (b b' : list Z) : Prop :=
  zlen b' = zlen b ∧ ∀ i, znth b' i = if decide (i ∈ E) then Some 0 else znth b i.
Lemma nuls_nil b : nuls [] b b.
Proof. split; [done|]. intros i. by rewrite decide_False by apply not_elem_of_nil. Qed.
Lemma nuls_app E1 E2 b b1 b2 : nuls E1 b b1 → nuls E2 b1 b2 → nuls (E1 ++ E2) b b2.
Proof.
  intros [L1 N1] [L2 N2]. split; [by rewrite L2|]. intros i. rewrite N2, N1. repeat case_decide; set_solver.
Qed.
Lemma put_nul_ok e b : 0 ≤ e < zlen b → put_nul e b = Ok (tt, zset b e 0) ∧ nuls [e] b (zset b e 0).
Proof.
  intros He. split.
  - unfold put_nul. erewrite bind_step by done. by rewrite (proj2 (Z.leb_le _ _)), (proj2 (Z.ltb_lt _ _)) by (unfold id; lia).
  - split; [apply zlen_zset|]. intros i. destruct (decide (i ∈ [e])) as [->%list_elem_of_singleton|Hne]; [by apply znth_zset_eq|].
    apply znth_zset_ne; [lia|]. intros ->. apply Hne. by left.
Qed.

Lemma nulterminate_ok c b : (∀ e, e ∈ ends c → 0 ≤ e < zlen b) → ∃ b', nulterminate c b = Ok (tt, b') ∧ nuls (ends c) b b'.
Proof.
  assert (∀ (m : M (list Z) unit) k E1 E2 b, (∃ b1, m b = Ok (tt, b1) ∧ nuls E1 b b1) → (∀ b1, nuls E1 b b1 → ∃ b2, k b1 = Ok (tt, b2) ∧ nuls E2 b1 b2) →
    ∃ b2, (m ;; k) b = Ok (tt, b2) ∧ nuls (E1 ++ E2) b b2) as Hseq.
  { intros m k E1 E2 b0 (b1 & E & Hn) Hk. destruct (Hk b1 Hn) as (b2 & E' & Hn2). exists b2. split; [by rewrite (bind_step _ _ _ _ _ E)|by eapply nuls_app]. }
  revert b. induction c as [argv|c IH f mode fd|l IHl r IHr|l IHl r IHr|c IH]; simpl; intros b Hin.
  - revert b Hin. induction argv as [|a argv IHa]; simpl; intros b Hin; [exists b; split; [done|apply nuls_nil]|].
    apply (Hseq (put_nul a.2) (for_each (λ a : span, put_nul a.2) argv) [a.2] (snd <$> argv)).
    + destruct (put_nul_ok a.2 b) as [E Hn]; [apply Hin; by left|by eexists].
    + intros b1 [Hl _]. apply IHa. intros e He. rewrite Hl. apply Hin. by right.
  - apply Hseq; [apply IH; intros e He; apply Hin, elem_of_app; by left|]. intros b1 [Hl _].
    destruct (put_nul_ok f.2 b1) as [E Hn]; [rewrite Hl; apply Hin, elem_of_app; right; by left|by eexists].
  - apply Hseq; [apply IHl; intros e He; apply Hin, elem_of_app; by left|]. intros b1 [Hl _]. apply IHr. intros e He. rewrite Hl. apply Hin, elem_of_app. by right.
  - apply Hseq; [apply IHl; intros e He; apply Hin, elem_of_app; by left|]. intros b1 [Hl _]. apply IHr. intros e He. rewrite Hl. apply Hin, elem_of_app. by right.
  - by apply IH.
Qed.

Lemma strlen_ok line rest : 0 ∉ line → user_strlen (line ++ 0 :: rest) = Some (zlen line).
Proof.
  induction line as [|c line IH]; [done|]. intros [Hc Hl]%not_elem_of_cons. simpl. rewrite (proj2 (Z.eqb_neq c 0)) by congruence.
  rewrite IH by done. simpl. f_equal. unfold zlen. simpl. lia.
Qed.
Lemma at_tokens_start line rest ts : 0 ∉ line → lexes line ts → at_tokens (line ++ 0 :: rest) (zlen line) ts 0.
Proof. intros H0 Hl. by exists [], line, rest. Qed.

(** [parsecmd] behind the parser. *)
Lemma parsecmd_after line rest r : 0 ∉ line →
  (let b := line ++ 0 :: rest in let es := zlen line in c ← parseline b es (4 * Z.to_nat es + 4); _ ← peek b es []; mret c) 0 = r →
  parsecmd (line ++ 0 :: rest) =
    match r with
    | Ok (c, s) => (if negb (s =? zlen line) then panic "syntax" else nulterminate c ;; mret c) (line ++ 0 :: rest)
    | Panic e => Panic e | Fault => Fault | Diverge => Diverge
    end.
Proof.
  intros H0 E. unfold parsecmd. erewrite bind_step by done. erewrite bind_step by (apply opt_ok; by apply strlen_ok).
  assert (∀ {A B} (m : M (list Z) A) (f : A → M (list Z) B) s, (m ≫= f) s = match m s with Ok (a, s') => f a s' | Panic e => Panic e | Fault => Fault | Diverge => Diverge end) as Hbind by done.
  rewrite Hbind. unfold in_buf, id. cbv zeta in E. rewrite E. by destruct r as [[c s]| | |].
Qed.

(** C24. The shell answers every line. Whatever is typed, up to the NUL, the parser
    returns: it never reads or writes outside of the buffer or of [argv], whatever
    nests in what, and never loops. Either the line is in error, with one of four
    messages, or there is a command, and the buffer has changed only in that the
    ends of the command's strings are NULs. *)
Theorem parsecmd_total line rest : line_bytes line →
  (∃ c b, parsecmd (line ++ 0 :: rest) = Ok (c, b) ∧ ends_in (zlen line) c ∧ nuls (ends c) (line ++ 0 :: rest) b) ∨
  ∃ e, e ∈ syntax_errors ∧ parsecmd (line ++ 0 :: rest) = Panic e.
Proof.
  intros Hb. destruct (lexes_total _ line (Nat.le_refl _) Hb) as (ts & Hl & Hlen). pose proof (line_no_nul line Hb) as H0. set (buf := line ++ 0 :: rest). set (es := zlen line).
  pose proof (at_tokens_start line rest ts H0 Hl) as Hat. fold buf es in Hat.
  pose proof (proj1 (parse_answers buf es (4 * Z.to_nat es + 4) ts 0 Hat) ltac:(unfold es, zlen; lia)) as Hp.
  pose proof (parsecmd_after line rest _ H0 eq_refl) as Ep. cbv zeta in Ep. fold buf es in Ep. rewrite Ep.
  destruct (parseline buf es _ 0) as [[c s]|e| |] eqn:E; [|right; exists e; split; [done|by rewrite (bind_panic _ _ _ _ E)]|done|done].
  destruct Hp as (Hc & ts1 & Hat1 & _). rewrite (bind_step _ _ _ _ _ E). destruct (peek_ok buf es [] ts1 s eq_refl Hat1) as (s1 & E1 & _).
  rewrite (bind_step _ _ _ _ _ E1). unfold mret, M_ret. destruct (Z.eqb_spec s1 es); cbn [negb]; [left|right; exists "syntax"%string; split; [unfold syntax_errors; set_solver|done]].
  destruct (nulterminate_ok c buf) as (b & En & Hn).
  { intros x Hx. pose proof (ends_in_ends _ _ Hc x Hx). unfold buf, es in *. rewrite zlen_app. pose proof (zlen_nonneg rest). unfold zlen in *. simpl. lia. }
  exists c, b. split_and!; [by rewrite (bind_step _ _ _ _ _ En)|done|done].
Qed.

(** ** Commands as lines *)

(** The token of a redirection, from its mode. *)
Definition rtok (mode : Z) : token :=
  if mode =? O_RDONLY then Sym LT else if mode =? Z.lor O_WRONLY O_CREATE then App else Sym GT.
Definition redir_mode (mode fd : Z) : Prop :=
  (mode, fd) ∈ [(O_RDONLY, 0); (Z.lor O_WRONLY (Z.lor O_CREATE O_TRUNC), 1); (Z.lor O_WRONLY O_CREATE, 1)].

Definition paren (b : bool) (ts : list token) : list token := if b then Sym LPAR :: ts ++ [Sym RPAR] else ts.
(** The tokens of a command, with parentheses where the grammar needs them: in
    the place of a line (0), of a list of [&]s (1), of a pipeline (2), of a
    command with its redirections (3). *)
Fixpoint unparse (lv : nat) (c : cmd (list Z)) : list token :=
  match c with
  | EXEC argv => Word <$> argv
  | REDIR c f mode fd => unparse 3 c ++ [rtok mode; Word f]
  | PIPE l r => paren (bool_decide (2 < lv)%nat) (unparse 3 l ++ Sym BAR :: unparse 2 r)
  | LIST l r => paren (bool_decide (0 < lv)%nat) (unparse 1 l ++ Sym SEMI :: unparse 0 r)
  | BACK c => paren (bool_decide (1 < lv)%nat) (unparse 1 c ++ [Sym AMP])
  end.

(** A command that can be typed: words of word characters, fewer than [MAXARGS]
    arguments, the redirections there are. *)
Definition good_word (w : list Z) : Prop := w ≠ [] ∧ Forall word_char w.
Fixpoint typable (c : cmd (list Z)) : Prop :=
  match c with
  | EXEC argv => Forall good_word argv ∧ zlen argv < MAXARGS
  | REDIR c f mode fd => typable c ∧ good_word f ∧ redir_mode mode fd
  | PIPE l r | LIST l r => typable l ∧ typable r
  | BACK c => typable c
  end.

(** The same command, with strings that are related. *)
Fixpoint cmd_rel {S T} (R : S → T → Prop) (c : cmd S) (d : cmd T) : Prop :=
  match c, d with
  | EXEC a, EXEC b => Forall2 R a b
  | REDIR c f m n, REDIR d g m' n' => cmd_rel R c d ∧ R f g ∧ m = m' ∧ n = n'
  | PIPE c1 c2, PIPE d1 d2 | LIST c1 c2, LIST d1 d2 => cmd_rel R c1 d1 ∧ cmd_rel R c2 d2
  | BACK c, BACK d => cmd_rel R c d
  | _, _ => False
  end.
Lemma cmd_rel_impl {S T} (R R' : S → T → Prop) c d : cmd_rel R c d → (∀ x y, R x y → R' x y) → cmd_rel R' c d.
Proof.
  intros Hc HR. revert d Hc. induction c; intros []; simpl; try done; try naive_solver. intros Hf. by eapply Forall2_impl.
Qed.

Section roundtrip.
Context (buf : list Z) (es : Z).
Abbreviation At := (at_tokens buf es).
Definition word_at (p : span) (w : list Z) : Prop := spans buf es (Word w) p.

Definition rtoks (rs : list (redirection (list Z))) : list token := rs ≫= λ r, [rtok r.1.2; Word r.1.1].
Definition redir_rel (p : redirection span) (r : redirection (list Z)) : Prop := word_at p.1.1 r.1.1 ∧ p.1.2 = r.1.2 ∧ p.2 = r.2.
Lemma redirs_on_rel c d ps rs : cmd_rel word_at c d → Forall2 redir_rel ps rs → cmd_rel word_at (redirs_on c ps) (redirs_on d rs).
Proof. intros Hc Hr. revert c d Hc. induction Hr as [|p r ps rs (H1 & H2 & H3) Hr IH]; intros c d Hc; [done|]. by apply IH. Qed.

Lemma tok_in_rtok mode fd : redir_mode mode fd → tok_in [LT; GT] (rtok mode) = true.
Proof. unfold redir_mode. rewrite !elem_of_cons. by intros [[= -> ->]|[[= -> ->]|[[= -> ->]|?%not_elem_of_nil]]]. Qed.

Lemma parseredirs_ok rs rest s : Forall (λ r, redir_mode r.1.2 r.2) rs → peeks [LT; GT] rest = false → At (rtoks rs ++ rest) s →
  ∃ ps s', parseredirs buf es s = Ok (ps, s') ∧ At rest s' ∧ Forall2 redir_rel ps rs.
Proof.
  intros Hrs Hrest Hat. unfold parseredirs.
  assert (∀ n acc s, At (rtoks rs ++ rest) s → (length rs < n)%nat →
    ∃ ps s', loop n (parseredirs_step buf es) acc s = Ok (acc ++ ps, s') ∧ At rest s' ∧ Forall2 redir_rel ps rs) as Hloop.
  2: { apply (Hloop _ []); [done|]. pose proof (at_tokens_length buf es _ _ Hat) as [Hl _]. rewrite length_app in Hl.
       assert (length rs ≤ length (rtoks rs))%nat; [|lia]. clear. induction rs as [|r rs IH]; [done|]. simpl in *. lia. }
  clear s Hat. induction Hrs as [|[[f mode] fd] rs Hr Hrs IH]; intros n acc s Hat Hn; (destruct n as [|n]; [simpl in Hn; lia|]).
  - destruct (peek_ok buf es [LT; GT] rest s eq_refl Hat) as (s1 & E1 & Hat1). exists [], s1. rewrite app_nil_r. split_and!; [|done|constructor].
    apply loop_inr. unfold parseredirs_step. rewrite (bind_step _ _ _ _ _ E1). by rewrite Hrest.
  - cbn [fst snd] in Hr. change (rtoks ((f, mode, fd) :: rs) ++ rest) with (rtok mode :: Word f :: (rtoks rs ++ rest)) in Hat.
    destruct (peek_ok buf es [LT; GT] _ s eq_refl Hat) as (s1 & E1 & Hat1). cbn [peeks] in E1. rewrite (tok_in_rtok mode fd Hr) in E1.
    destruct (gettoken_ok _ _ _ _ _ Hat1) as (p1 & s2 & E2 & Hat2 & _). destruct (gettoken_ok _ _ _ _ _ Hat2) as (p & s3 & E3 & Hat3 & Hsp).
    destruct (IH n (acc ++ [(p, mode, fd)]) s3 Hat3) as (ps & s4 & E4 & Hat4 & Hps); [simpl in Hn; lia|].
    exists ((p, mode, fd) :: ps), s4. split_and!; [|done|by constructor]. erewrite loop_inl; [rewrite E4; by rewrite <-app_assoc|].
    unfold parseredirs_step. rewrite (bind_step _ _ _ _ _ E1). cbn [negb]. rewrite (bind_step _ _ _ _ _ E2), (bind_step _ _ _ _ _ E3). cbn [tcode].
    rewrite Z.eqb_refl. cbn [negb]. unfold redir_mode in Hr. rewrite !elem_of_cons in Hr. destruct p as [q eq].
    by destruct Hr as [[= -> ->]|[[= -> ->]|[[= -> ->]|?%not_elem_of_nil]]].
Qed.

(** What may come behind a command in each place. *)
Definition follow (lv : nat) : list Z :=
  match lv with 0 => [RPAR] | 1 => [SEMI; RPAR] | 2 => [AMP; SEMI; RPAR] | _ => [BAR; AMP; SEMI; RPAR] end%nat.
Definition follows (toks : list Z) (rest : list token) : Prop := rest = [] ∨ peeks toks rest = true.
Lemma follows_not toks toks' rest : follows toks rest → forallb (λ c, negb (inb toks' c)) toks = true → peeks toks' rest = false.
Proof.
  intros [->|Hp] Hd; [done|]. rewrite forallb_forall in Hd. destruct rest as [|t rest]; [done|].
  assert (∀ c, inb toks c = true → inb toks' c = false) as Hc.
  { intros c Hin%inb_spec. apply negb_true_iff, Hd. by apply list_elem_of_In. }
  destruct t; simpl in *; auto.
Qed.
Lemma follows_sub toks toks' rest : follows toks rest → forallb (inb toks') toks = true → follows toks' rest.
Proof.
  intros [->|Hp] Hd; [by left|right]. rewrite forallb_forall in Hd. destruct rest as [|t rest]; [done|].
  assert (∀ c, inb toks c = true → inb toks' c = true) as Hc.
  { intros c Hin%inb_spec. apply Hd. by apply list_elem_of_In. }
  destruct t; simpl in *; auto.
Qed.

Lemma exec_loop_end argv rs rest n s : follows (follow 3) rest → At rest s →
  ∃ s', loop (Datatypes.S n) (parseexec_step buf es) (argv, rs) s = Ok ((argv, rs), s') ∧ At rest s'.
Proof.
  intros Hf Hat. destruct (peek_ok buf es [BAR; RPAR; AMP; SEMI] rest s eq_refl Hat) as (s1 & E1 & Hat1).
  destruct Hf as [->|Hp].
  - destruct (gettoken_end buf es s1 Hat1) as (s2 & E2 & Hat2). exists s2. split; [|done]. apply loop_inr. unfold parseexec_step.
    rewrite (bind_step _ _ _ _ _ E1). cbn [peeks]. by rewrite (bind_step _ _ _ _ _ E2).
  - exists s1. split; [|done]. apply loop_inr. unfold parseexec_step. rewrite (bind_step _ _ _ _ _ E1).
    destruct (follows_sub (follow 3) [BAR; RPAR; AMP; SEMI] rest) as [->|Hp']; [by right|done|done|]. by rewrite Hp'.
Qed.

Lemma exec_step w rs rest argv rs0 s : Forall (λ r, redir_mode r.1.2 r.2) rs → peeks [LT; GT] rest = false → At (Word w :: rtoks rs ++ rest) s →
  zlen argv + 1 < MAXARGS →
  ∃ p ps s', parseexec_step buf es (argv, rs0) s = Ok (inl (argv ++ [p], rs0 ++ ps), s') ∧ At rest s' ∧ word_at p w ∧ Forall2 redir_rel ps rs.
Proof.
  intros Hrs Hrest Hat Hlen. destruct (peek_ok buf es [BAR; RPAR; AMP; SEMI] _ s eq_refl Hat) as (s1 & E1 & Hat1).
  destruct (gettoken_ok _ _ _ _ _ Hat1) as ([q eq] & s2 & E2 & Hat2 & Hsp). destruct (parseredirs_ok rs rest s2 Hrs Hrest Hat2) as (ps & s3 & E3 & Hat3 & Hps).
  exists (q, eq), ps, s3. split_and!; [|done..]. unfold parseexec_step.
  rewrite (bind_step _ _ _ _ _ E1). cbn [peeks tok_in]. rewrite (bind_step _ _ _ _ _ E2). cbn [tcode fst snd]. change (CH_a =? 0) with false.
  rewrite Z.eqb_refl. cbn [negb]. rewrite (proj2 (Z.leb_gt MAXARGS (zlen argv))) by lia.
  rewrite (proj2 (Z.leb_gt MAXARGS (zlen (argv ++ [(q, eq)])))) by (rewrite zlen_app; change (zlen [(q, eq)]) with 1; lia).
  by rewrite (bind_step _ _ _ _ _ E3).
Qed.

Lemma exec_loop w ws rs rest n argv s : Forall (λ r, redir_mode r.1.2 r.2) rs → follows (follow 3) rest →
  At ((Word <$> w :: ws) ++ rtoks rs ++ rest) s → zlen argv + zlen (w :: ws) < MAXARGS → (length (w :: ws) < n)%nat →
  ∃ argv' ps s', loop n (parseexec_step buf es) (argv, []) s = Ok ((argv ++ argv', ps), s') ∧ At rest s' ∧
    Forall2 word_at argv' (w :: ws) ∧ Forall2 redir_rel ps rs.
Proof.
  intros Hrs Hf. revert w n argv s. induction ws as [|w2 ws IH]; intros w n argv s Hat Hlen Hn; (destruct n as [|n]; [simpl in Hn; lia|]); simpl in Hn.
  - change (zlen [w]) with 1 in Hlen. destruct (exec_step w rs rest argv [] s Hrs) as (p & ps & s3 & E3 & Hat3 & Hp & Hps); [by eapply follows_not|done|lia|].
    destruct n as [|n]; [lia|]. destruct (exec_loop_end (argv ++ [p]) ps rest n s3 Hf Hat3) as (s4 & E4 & Hat4).
    exists [p], ps, s4. split_and!; [|done|by constructor; [|constructor]|done]. erewrite loop_inl; [exact E4|exact E3].
  - assert (zlen (w :: w2 :: ws) = 1 + zlen (w2 :: ws)) as Hz by (unfold zlen; simpl; lia). pose proof (zlen_nonneg (w2 :: ws)).
    destruct (exec_step w [] ((Word <$> w2 :: ws) ++ rtoks rs ++ rest) argv [] s) as (p & ps & s3 & E3 & Hat3 & Hp & Hps); [constructor|done|done|lia|].
    apply Forall2_nil_inv_r in Hps as ->. assert (zlen (argv ++ [p]) = zlen argv + 1) as Hz2 by (rewrite zlen_app; done).
    destruct (IH w2 n (argv ++ [p]) s3 Hat3) as (argv' & ps & s4 & E4 & Hat4 & Ha & Hps); [lia|simpl in *; lia|].
    exists (p :: argv'), ps, s4. split_and!; [|done|by constructor|done]. erewrite loop_inl; [rewrite E4; by rewrite <-app_assoc|exact E3].
Qed.

(** [k] times in the background. *)
Definition backs {S} (k : nat) (c : cmd S) : cmd S := Nat.iter k BACK c.
Lemma backs_S {S} k (c : cmd S) : backs (Datatypes.S k) c = backs k (BACK c).
Proof. apply Nat.iter_succ_r. Qed.

(** ** Reading a command back *)

(** What it means that each function of the parser reads what [unparse] writes:
    [parseexec] with redirections behind, the list of [&]s with more of them. *)
Definition reads3 (c : cmd (list Z)) : Prop := ∀ rs rest n s, Forall (λ r, redir_mode r.1.2 r.2) rs → follows (follow 3) rest →
  At (unparse 3 c ++ rtoks rs ++ rest) s → (4 * length (unparse 3 c ++ rtoks rs ++ rest) + 2 ≤ n)%nat →
  ∃ c' s', parseexec buf es n s = Ok (c', s') ∧ At rest s' ∧ cmd_rel word_at c' (redirs_on c rs).
Definition reads2 (c : cmd (list Z)) : Prop := ∀ rest n s, follows (follow 2) rest →
  At (unparse 2 c ++ rest) s → (4 * length (unparse 2 c ++ rest) + 3 ≤ n)%nat →
  ∃ c' s', parsepipe buf es n s = Ok (c', s') ∧ At rest s' ∧ cmd_rel word_at c' c.
Definition back_loop : cmd span → M Z (cmd span) := loop (Datatypes.S (length buf)) (λ c,
  b ← peek buf es [AMP]; if (b : bool) then _ ← gettoken buf es; mret (inl (BACK c)) else mret (inr c)).
Definition reads1 (c : cmd (list Z)) : Prop := ∀ k rest n s, follows (follow 1) rest →
  At (unparse 1 c ++ replicate k (Sym AMP) ++ rest) s → (4 * length (unparse 1 c ++ replicate k (Sym AMP) ++ rest) + 3 ≤ n)%nat →
  ∃ c' s', (c ← parsepipe buf es n; back_loop c) s = Ok (c', s') ∧ At rest s' ∧ cmd_rel word_at c' (backs k c).
Definition reads0 (c : cmd (list Z)) : Prop := ∀ rest n s, follows (follow 0) rest →
  At (unparse 0 c ++ rest) s → (4 * length (unparse 0 c ++ rest) + 4 ≤ n)%nat →
  ∃ c' s', parseline buf es n s = Ok (c', s') ∧ At rest s' ∧ cmd_rel word_at c' c.

Lemma back_loop_ok k rest c s : follows (follow 1) rest → At (replicate k (Sym AMP) ++ rest) s →
  ∃ s', back_loop c s = Ok (backs k c, s') ∧ At rest s'.
Proof.
  intros Hf Hat. unfold back_loop.
  assert (∀ n c s, At (replicate k (Sym AMP) ++ rest) s → (k < n)%nat → ∃ s', loop n (λ c : cmd span,
    b ← peek buf es [AMP]; if (b : bool) then _ ← gettoken buf es; mret (inl (BACK c)) else mret (inr c)) c s = Ok (backs k c, s') ∧ At rest s') as Hloop.
  2: { apply Hloop; [done|]. pose proof (at_tokens_length buf es _ _ Hat) as [Hl _]. rewrite length_app, length_replicate in Hl. lia. }
  clear c s Hat. induction k as [|k IH]; intros n c s Hat Hn; (destruct n as [|n]; [lia|]); destruct (peek_ok buf es [AMP] _ s eq_refl Hat) as (s1 & E1 & Hat1).
  - change (replicate 0 (Sym AMP) ++ rest) with rest in *. exists s1. split; [|done]. apply loop_inr. rewrite (bind_step _ _ _ _ _ E1). by rewrite (follows_not (follow 1) [AMP] rest).
  - destruct (gettoken_ok _ _ _ _ _ Hat1) as (p & s2 & E2 & Hat2 & _). destruct (IH n (BACK c) s2 Hat2) as (s3 & E3 & Hat3); [lia|].
    exists s3. split; [|done]. erewrite loop_inl; [rewrite E3; by rewrite backs_S|].
    change (peeks [AMP] (replicate (Datatypes.S k) (Sym AMP) ++ rest)) with true in E1.
    rewrite (bind_step _ _ _ _ _ E1). by rewrite (bind_step _ _ _ _ _ E2).
Qed.

Lemma reads_3_2 c : unparse 2 c = unparse 3 c → reads3 c → reads2 c.
Proof.
  intros Eu H3 rest n s Hf Hat Hn. rewrite Eu in *. destruct n as [|n]; [lia|]. cbn [parsepipe].
  destruct (H3 [] rest n s) as (c' & s1 & E1 & Hat1 & Hrel); [constructor|by eapply follows_sub|done|simpl; lia|].
  destruct (peek_ok buf es [BAR] rest s1 eq_refl Hat1) as (s2 & E2 & Hat2). exists c', s2. split_and!; [|done|done].
  rewrite (bind_step _ _ _ _ _ E1), (bind_step _ _ _ _ _ E2). by rewrite (follows_not (follow 2) [BAR] rest).
Qed.
Lemma reads_2_1 c : unparse 1 c = unparse 2 c → reads2 c → reads1 c.
Proof.
  intros Eu H2 k rest n s Hf Hat Hn. rewrite Eu in *.
  destruct (H2 (replicate k (Sym AMP) ++ rest) n s) as (c' & s1 & E1 & Hat1 & Hrel); [|done|done|].
  { destruct k; [by eapply follows_sub|by right]. }
  destruct (back_loop_ok k rest c' s1 Hf Hat1) as (s2 & E2 & Hat2). exists (backs k c'), s2.
  split_and!; [by rewrite (bind_step _ _ _ _ _ E1)|done|]. clear -Hrel. induction k; [done|]. done.
Qed.
Lemma reads_1_0 c : unparse 0 c = unparse 1 c → reads1 c → reads0 c.
Proof.
  intros Eu H1 rest n s Hf Hat Hn. rewrite Eu in *. destruct n as [|n]; [lia|]. cbn [parseline].
  destruct (H1 0%nat rest n s) as (c' & s1 & E1 & Hat1 & Hrel); [by eapply follows_sub|done|simpl; lia|].
  destruct (peek_ok buf es [SEMI] rest s1 eq_refl Hat1) as (s2 & E2 & Hat2). exists c', s2. split_and!; [|done|done].
  rewrite <-bind_assoc. rewrite (bind_step _ _ _ _ _ E1), (bind_step _ _ _ _ _ E2). by rewrite (follows_not (follow 0) [SEMI] rest).
Qed.

(** A command in parentheses. *)
Lemma reads_0_3 c : unparse 3 c = paren true (unparse 0 c) → reads0 c → reads3 c.
Proof.
  intros Eu H0 rs rest n s Hrs Hf Hat Hn. rewrite Eu in *. cbn [paren] in *. simpl app in Hat, Hn. rewrite <-!app_assoc in Hat, Hn. simpl app in Hat, Hn. simpl length in Hn.
  set (tl := Sym RPAR :: rtoks rs ++ rest) in *. destruct n as [|[|n]]; [lia|lia|]. cbn [parseexec parseblock].
  destruct (peek_ok buf es [LPAR] _ s eq_refl Hat) as (s1 & E1 & Hat1). destruct (peek_ok buf es [LPAR] _ s1 eq_refl Hat1) as (s2 & E2 & Hat2).
  destruct (gettoken_ok _ _ _ _ _ Hat2) as (p & s3 & E3 & Hat3 & _).
  destruct (H0 tl n s3) as (c' & s4 & E4 & Hat4 & Hrel); [by right|done|simpl in *; lia|].
  destruct (peek_ok buf es [RPAR] _ s4 eq_refl Hat4) as (s5 & E5 & Hat5). destruct (gettoken_ok _ _ _ _ _ Hat5) as (p6 & s6 & E6 & Hat6 & _).
  destruct (parseredirs_ok rs rest s6 Hrs) as (ps & s7 & E7 & Hat7 & Hps); [by eapply follows_not|done|].
  exists (redirs_on c' ps), s7. split_and!; [|done|by apply redirs_on_rel].
  rewrite (bind_step _ _ _ _ _ E1). cbn [peeks tok_in]. change (inb [LPAR] LPAR) with true. cbn match. rewrite (bind_step _ _ _ _ _ E2). cbn [peeks tok_in]. change (inb [LPAR] LPAR) with true. cbn [negb].
  rewrite (bind_step _ _ _ _ _ E3), (bind_step _ _ _ _ _ E4), (bind_step _ _ _ _ _ E5). change (peeks [RPAR] tl) with true. cbn [negb].
  by rewrite (bind_step _ _ _ _ _ E6), (bind_step _ _ _ _ _ E7).
Qed.

Lemma peeks_rtoks toks rs rest : Forall (λ r, redir_mode r.1.2 r.2) rs → inb toks LT = false → inb toks GT = false → peeks toks rest = false →
  peeks toks (rtoks rs ++ rest) = false.
Proof.
  intros Hrs Hlt Hgt Hrest. destruct Hrs as [|[[f mode] fd] rs Hr Hrs]; [done|]. simpl. unfold rtok. repeat case_match; done.
Qed.

Lemma reads_exec argv : typable (EXEC argv) → reads3 (EXEC argv).
Proof.
  intros [Hw Hlen] rs rest n s Hrs Hf Hat Hn. destruct n as [|n]; [lia|]. cbn [parseexec]. cbn [unparse] in Hat.
  destruct (peek_ok buf es [LPAR] _ s eq_refl Hat) as (s1 & E1 & Hat1). rewrite (bind_step _ _ _ _ _ E1).
  assert (peeks [LPAR] ((Word <$> argv) ++ rtoks rs ++ rest) = false) as ->.
  { destruct argv; [|done]. simpl app. apply peeks_rtoks; [done..|]. by eapply follows_not. }
  destruct argv as [|w ws].
  - simpl app in Hat1. destruct (parseredirs_ok rs rest s1 Hrs) as (ps & s2 & E2 & Hat2 & Hps); [by eapply follows_not|done|].
    destruct (exec_loop_end [] ps rest (length buf) s2 Hf Hat2) as (s3 & E3 & Hat3). exists (redirs_on (EXEC []) ps), s3.
    rewrite (bind_step _ _ _ _ _ E2), (bind_step _ _ _ _ _ E3). split_and!; [done|done|]. apply redirs_on_rel; [by constructor|done].
  - destruct (parseredirs_ok [] ((Word <$> w :: ws) ++ rtoks rs ++ rest) s1 ltac:(constructor) eq_refl Hat1) as (ps0 & s2 & E2 & Hat2 & Hps0). apply Forall2_nil_inv_r in Hps0 as ->.
    pose proof (at_tokens_length buf es _ _ Hat2) as [Hl _]. rewrite length_app, length_fmap in Hl.
    destruct (exec_loop w ws rs rest (Datatypes.S (length buf)) [] s2 Hrs Hf Hat2) as (argv' & ps & s3 & E3 & Hat3 & Ha & Hps); [done|lia|].
    exists (redirs_on (EXEC argv') ps), s3. rewrite (bind_step _ _ _ _ _ E2), (bind_step _ _ _ _ _ E3). cbn [fst snd app].
    assert (zlen argv' = zlen (w :: ws)) as Hz by (unfold zlen; by rewrite (Forall2_length _ _ _ Ha)).
    rewrite (proj2 (Z.leb_gt _ _)) by lia. split_and!; [done|done|]. by apply redirs_on_rel.
Qed.

Lemma reads_redir c f mode fd : redir_mode mode fd → reads3 c → reads3 (REDIR c f mode fd).
Proof.
  intros Hr H3 rs rest n s Hrs Hf Hat Hn. cbn [unparse] in Hat, Hn. rewrite <-app_assoc in Hat, Hn.
  apply (H3 ((f, mode, fd) :: rs) rest n s); [by constructor|done|done|done].
Qed.

Lemma reads_pipe l r : reads3 l → reads2 r → reads2 (PIPE l r).
Proof.
  intros Hl Hr rest n s Hf Hat Hn. cbn [unparse] in Hat, Hn. rewrite bool_decide_eq_false_2 in Hat, Hn by lia. cbn [paren] in Hat, Hn.
  rewrite <-app_assoc in Hat, Hn. simpl app in Hat, Hn. rewrite length_app in Hn. simpl length in Hn. destruct n as [|n]; [lia|]. cbn [parsepipe].
  destruct (Hl [] (Sym BAR :: unparse 2 r ++ rest) n s) as (c1 & s1 & E1 & Hat1 & Hrel1); [constructor|by right|done|simpl; rewrite length_app; simpl; lia|].
  destruct (peek_ok buf es [BAR] _ s1 eq_refl Hat1) as (s2 & E2 & Hat2). destruct (gettoken_ok _ _ _ _ _ Hat2) as (p & s3 & E3 & Hat3 & _).
  destruct (Hr rest n s3) as (c2 & s4 & E4 & Hat4 & Hrel2); [done|done|lia|]. exists (PIPE c1 c2), s4. split_and!; [|done|done].
  change (peeks [BAR] (Sym BAR :: unparse 2 r ++ rest)) with true in E2.
  by rewrite (bind_step _ _ _ _ _ E1), (bind_step _ _ _ _ _ E2), (bind_step _ _ _ _ _ E3), (bind_step _ _ _ _ _ E4).
Qed.

Lemma reads_back c : reads1 c → reads1 (BACK c).
Proof.
  intros H1 k rest n s Hf Hat Hn. cbn [unparse] in Hat, Hn. rewrite bool_decide_eq_false_2 in Hat, Hn by lia. cbn [paren] in Hat, Hn.
  rewrite <-app_assoc in Hat, Hn. rewrite <-backs_S. by apply (H1 (Datatypes.S k) rest n s).
Qed.

Lemma reads_list l r : reads1 l → reads0 r → reads0 (LIST l r).
Proof.
  intros Hl Hr rest n s Hf Hat Hn. cbn [unparse] in Hat, Hn. rewrite bool_decide_eq_false_2 in Hat, Hn by lia. cbn [paren] in Hat, Hn.
  rewrite <-app_assoc in Hat, Hn. simpl app in Hat, Hn. rewrite length_app in Hn. simpl length in Hn. destruct n as [|n]; [lia|]. cbn [parseline].
  destruct (Hl 0%nat (Sym SEMI :: unparse 0 r ++ rest) n s) as (c1 & s1 & E1 & Hat1 & Hrel1); [by right|done|simpl; rewrite length_app; simpl; lia|].
  destruct (peek_ok buf es [SEMI] _ s1 eq_refl Hat1) as (s2 & E2 & Hat2). destruct (gettoken_ok _ _ _ _ _ Hat2) as (p & s3 & E3 & Hat3 & _).
  destruct (Hr rest n s3) as (c2 & s4 & E4 & Hat4 & Hrel2); [done|done|lia|]. exists (LIST c1 c2), s4. split_and!; [|done|done].
  change (peeks [SEMI] (Sym SEMI :: unparse 0 r ++ rest)) with true in E2. rewrite <-bind_assoc.
  by rewrite (bind_step _ _ _ _ _ E1), (bind_step _ _ _ _ _ E2), (bind_step _ _ _ _ _ E3), (bind_step _ _ _ _ _ E4).
Qed.

Lemma reads_all c : typable c → reads3 c ∧ reads2 c ∧ reads1 c ∧ reads0 c.
Proof.
  assert (∀ c, unparse 2 c = unparse 3 c → unparse 1 c = unparse 2 c → unparse 0 c = unparse 1 c → reads3 c → reads3 c ∧ reads2 c ∧ reads1 c ∧ reads0 c) as Hflat.
  { intros d E1 E2 E3 H3. pose proof (reads_3_2 d E1 H3) as H2. pose proof (reads_2_1 d E2 H2) as H1. split_and!; [done..|by apply reads_1_0]. }
  induction c as [argv|c IH f mode fd|l IHl r IHr|l IHl r IHr|c IH]; intros Hc.
  - apply Hflat; [done..|by apply reads_exec].
  - destruct Hc as (Hc & _ & Hr). apply Hflat; [done..|]. apply reads_redir; [done|]. by apply IH.
  - destruct Hc as [Hl Hr]. pose proof (reads_pipe l r (proj1 (IHl Hl)) (proj1 (proj2 (IHr Hr)))) as H2.
    pose proof (reads_2_1 (PIPE l r) eq_refl H2) as H1. pose proof (reads_1_0 (PIPE l r) eq_refl H1) as H0. split_and!; [by apply reads_0_3|done..].
  - destruct Hc as [Hl Hr]. pose proof (reads_list l r (proj1 (proj2 (proj2 (IHl Hl)))) (proj2 (proj2 (proj2 (IHr Hr))))) as H0.
    pose proof (reads_0_3 (LIST l r) eq_refl H0) as H3. pose proof (reads_3_2 (LIST l r) eq_refl H3) as H2. split_and!; [done..|by apply reads_2_1|done].
  - pose proof (reads_back c (proj1 (proj2 (proj2 (IH Hc))))) as H1. pose proof (reads_1_0 (BACK c) eq_refl H1) as H0.
    pose proof (reads_0_3 (BACK c) eq_refl H0) as H3. split_and!; [done|by apply reads_3_2|done|done].
Qed.
End roundtrip.

(** ** The whole command *)

Lemma c_str_ok w l : 0 ∉ w → c_str (w ++ 0 :: l) = Some w.
Proof.
  induction w as [|c w IH]; [done|]. intros [Hc Hw]%not_elem_of_cons. simpl. rewrite (proj2 (Z.eqb_neq c 0)) by congruence. by rewrite IH.
Qed.
Lemma good_word_nul w : Forall word_char w → 0 ∉ w.
Proof. rewrite Forall_forall. intros Hw H0. destruct (Hw 0 H0) as [_ ?]. lia. Qed.

(** At the end of the line [peek] stops at its end. *)
Lemma peek_end buf es toks s : forallb (inb symbols) toks = true → at_tokens buf es [] s → peek buf es toks s = Ok (false, es).
Proof.
  intros Htoks Hat. destruct (skip_space_ok buf es [] s s Hat) as (s1 & E1 & pre & b & rest & Hb & Hes & -> & H0 & Hl & Hc).
  assert (b = []) as ->.
  { destruct b as [|c b]; [done|]. by destruct (lexes_inv c b [] Hl Hc) as [(? & ? & _)|[(? & ? & _)|[(? & ? & ? & _)|(? & ? & ? & ? & _)]]]. }
  rewrite app_nil_r in Hes. subst es. unfold peek. erewrite bind_step by done. rewrite (bind_step _ _ _ _ _ E1). erewrite bind_step by done.
  by erewrite bind_step by (by eapply byte_at_ok).
Qed.

(** No string of a command that was read ends inside a word. *)
Lemma word_at_end buf es p w c : word_at buf es p w → znth buf p.2 = Some c → ¬ word_char c.
Proof.
  intros (_ & _ & _ & pre & c' & rest & -> & -> & Hc'). cbn [snd]. rewrite app_assoc, znth_app, Z.ltb_irrefl, Z.sub_diag. by intros [= <-].
Qed.
Lemma cmd_rel_ends buf es c d : cmd_rel (word_at buf es) c d → ∀ e, e ∈ ends c → ∃ p w, e = p.2 ∧ word_at buf es p w.
Proof.
  revert d. induction c as [argv|c IH f mode fd|l IHl r IHr|l IHl r IHr|c IH]; intros [argv'|d f' mode' fd'|l' r'|l' r'|d]; try done; simpl.
  - intros Ha e (p & -> & Hp)%list_elem_of_fmap. apply list_elem_of_lookup in Hp as [i Hi].
    destruct (Forall2_lookup_l _ _ _ _ _ Ha Hi) as (w & _ & Hw). by exists p, w.
  - intros (Hc & Hf & _) e [He|He%list_elem_of_singleton]%elem_of_app; [by eapply IH|]. by exists f, f'.
  - intros [Hl Hr] e [He|He]%elem_of_app; eauto.
  - intros [Hl Hr] e [He|He]%elem_of_app; eauto.
  - eauto.
Qed.
Lemma cmd_rel_ends_impl {T} (R R' : span → T → Prop) c d : cmd_rel R c d → (∀ p w, p.2 ∈ ends c → R p w → R' p w) → cmd_rel R' c d.
Proof.
  revert d. induction c as [argv|c IH f mode fd|l IHl r IHr|l IHl r IHr|c IH]; intros [argv'|d f' mode' fd'|l' r'|l' r'|d]; try done; simpl.
  - intros Ha HR. induction Ha as [|p w argv argv' Hp Ha IH]; constructor; [apply HR; [by left|done]|]. apply IH. intros q v Hq. apply HR. by right.
  - intros (Hc & Hf & -> & ->) HR. split_and!; [|apply HR; [set_solver|done]|done..]. apply IH; [done|]. intros p w Hp. apply HR. set_solver.
  - intros [Hl Hr] HR. split; [apply IHl|apply IHr]; try done; intros p w Hp; apply HR; set_solver.
  - intros [Hl Hr] HR. split; [apply IHl|apply IHr]; try done; intros p w Hp; apply HR; set_solver.
  - apply IH.
Qed.
Lemma c_str_lookup w l : 0 ∉ w → (∀ i x, w !! i = Some x → l !! i = Some x) → l !! length w = Some 0 → c_str l = Some w.
Proof.
  revert l. induction w as [|c w IH]; intros [|x l] H0 Hw He; try done.
  - by injection He as ->.
  - pose proof (Hw 0%nat c eq_refl) as [= ->]. apply not_elem_of_cons in H0 as [Hc H0]. simpl. rewrite (proj2 (Z.eqb_neq c 0)) by congruence.
    by rewrite (IH l H0 (λ i, Hw (Datatypes.S i)) He).
Qed.
Lemma string_of_word buf es b E p w : word_at buf es p w → nuls E buf b → p.2 ∈ E →
  (∀ e c, e ∈ E → znth buf e = Some c → ¬ word_char c) → string_at b p = Some w.
Proof.
  intros (_ & Hw & _ & pre & c & rest & -> & -> & Hc) [Hlen Hb] Hp HE. unfold string_at. cbn [fst snd] in *. pose proof (zlen_nonneg pre).
  apply c_str_lookup; [by apply good_word_nul| |].
  - intros i x Hi. pose proof (lookup_lt_Some _ _ _ Hi) as Hil. rewrite <-znth_nat, znth_drop, Hb by lia.
    assert (znth (pre ++ w ++ c :: rest) (zlen pre + Z.of_nat i) = Some x) as Hx.
    { rewrite znth_app, (proj2 (Z.ltb_ge _ _)) by lia. rewrite Z.add_simpl_l, znth_nat. by apply lookup_app_l_Some. }
    rewrite decide_False; [done|]. intros Hin. apply (HE _ x Hin Hx). by eapply Forall_lookup_1.
  - rewrite <-znth_nat, znth_drop, Hb by lia. rewrite decide_True; [done|]. by rewrite zlen_app in Hp.
Qed.

Lemma parsecmd_run c line rest : typable c → 0 ∉ line → lexes line (unparse 0 c) →
  ∃ c' b, parsecmd (line ++ 0 :: rest) = Ok (c', b) ∧ cmd_rel (λ p w, string_at b p = Some w) c' c.
Proof.
  intros Hc H0 Hl. set (buf := line ++ 0 :: rest). set (es := zlen line).
  pose proof (at_tokens_start line rest _ H0 Hl) as Hat. fold buf es in Hat. rewrite <-(app_nil_r (unparse 0 c)) in Hat.
  destruct (reads_all buf es c Hc) as (_ & _ & _ & Hread).
  destruct (Hread [] (4 * Z.to_nat es + 4)%nat 0) as (c' & s & E & Hat1 & Hrel); [by left|done| |].
  { rewrite app_nil_r. apply lexes_length in Hl. unfold es, zlen. lia. }
  destruct (nulterminate_ok c' buf) as (b & En & Hn).
  { intros e He. destruct (cmd_rel_ends _ _ _ _ Hrel e He) as (p & w & -> & Hp). apply spans_in_line in Hp. unfold in_line, buf, es in *.
    rewrite zlen_app. pose proof (zlen_nonneg rest). unfold zlen in *. simpl. lia. }
  exists c', b. split.
  - pose proof (parsecmd_after line rest _ H0 eq_refl) as Ep. cbv zeta in Ep. fold buf es in Ep. rewrite Ep.
    rewrite (bind_step _ _ _ _ _ E), (bind_step _ _ _ _ _ (peek_end buf es [] s eq_refl Hat1)). unfold mret at 1, M_ret at 1. rewrite Z.eqb_refl. cbn [negb].
    by rewrite (bind_step _ _ _ _ _ En).
  - eapply cmd_rel_ends_impl; [exact Hrel|]. intros p w Hp Hpw. eapply string_of_word; [done|done|done|].
    intros e x He Hx. destruct (cmd_rel_ends _ _ _ _ Hrel e He) as (p2 & w2 & -> & Hp2). by eapply word_at_end.
Qed.

(** C23. The parser reads back what is written. Take any command, of any shape, whose words
    are made of word characters and that has fewer than [MAXARGS] arguments in
    each program, write it with parentheses where the grammar needs them and with
    white space wherever one likes: the parser returns that command again, with
    the same redirections in the same order, and after [nulterminate] each of its
    string pointers leads to its string, ended by a NUL. *)
Theorem parsecmd_unparse c line rest : typable c → 0 ∉ line → lexes line (unparse 0 c) →
  ∃ c' b, parsecmd (line ++ 0 :: rest) = Ok (c', b) ∧ cmd_rel (λ p w, string_at b p = Some w) c' c.
Proof. apply parsecmd_run. Qed.

(** Every list of tokens that can be typed has a line, so every typable command
    has one. *)
Definition good_token (t : token) : Prop :=
  match t with Sym c => inb symbols c = true | App => True | Word w => good_word w end.
Definition render (ts : list token) : list Z :=
  ts ≫= λ t, match t with Sym c => [c; SPACE] | App => [GT; GT; SPACE] | Word w => w ++ [SPACE] end.
Lemma render_lexes ts : Forall good_token ts → lexes (render ts) ts.
Proof.
  induction 1 as [|t ts Ht Hts IH]; [constructor|]. destruct t as [c| |w]; simpl in *.
  - destruct (decide (c = GT)) as [->|Hgt].
    + apply lexes_gt; [done|]. by apply lexes_space.
    + apply lexes_sym; [done..|]. by apply lexes_space.
  - apply lexes_app. by apply lexes_space.
  - destruct Ht as [Hw Hf]. change (mbind _ ts) with (render ts). rewrite <-app_assoc. apply lexes_word; [done..|]. by apply lexes_space.
Qed.
Lemma unparse_good lv c : typable c → Forall good_token (unparse lv c).
Proof.
  assert (∀ b ts, Forall good_token ts → Forall good_token (paren b ts)) as Hp.
  { intros [] ts H; [|done]. constructor; [done|]. apply Forall_app. split; [done|]. by apply Forall_singleton. }
  assert (∀ w, good_word w → good_token (Word w)) as Hword by done.
  revert lv. induction c as [argv|c IH f mode fd|l IHl r IHr|l IHl r IHr|c IH]; intros lv Hc; cbn [unparse].
  - destruct Hc as [Hw _]. apply Forall_fmap. by eapply Forall_impl.
  - destruct Hc as (Hc & Hf & _). apply Forall_app. split; [by apply IH|]. constructor; [|by apply Forall_singleton]. unfold rtok. by repeat case_match.
  - destruct Hc. apply Hp, Forall_app. split; [by apply IHl|]. constructor; [done|by apply IHr].
  - destruct Hc. apply Hp, Forall_app. split; [by apply IHl|]. constructor; [done|by apply IHr].
  - apply Hp, Forall_app. split; [by apply IH|by apply Forall_singleton].
Qed.

Lemma typable_line c : typable c → lexes (render (unparse 0 c)) (unparse 0 c).
Proof. intros Hc. by apply render_lexes, unparse_good. Qed.

(** ** A line *)

(** [(a<b|c x)>>d& ;e]. *)
Definition line_ex : list Z := [40; 97; 60; 98; 124; 99; 32; 120; 41; 62; 62; 100; 38; 32; 59; 101].
Definition cmd_ex : cmd (list Z) :=
  LIST (BACK (REDIR (PIPE (REDIR (EXEC [[97]]) [98] O_RDONLY 0) (EXEC [[99]; [120]])) [100] (Z.lor O_WRONLY O_CREATE) 1)) (EXEC [[101]]).
Example parsecmd_ex : parsecmd (line_ex ++ [0; 7]) =
  Ok (LIST (BACK (REDIR (PIPE (REDIR (EXEC [(1, 2)]) (3, 4) O_RDONLY 0) (EXEC [(5, 6); (7, 8)])) (11, 12) (Z.lor O_WRONLY O_CREATE) 1)) (EXEC [(15, 16)]),
      [40; 97; 0; 98; 0; 99; 0; 120; 0; 62; 62; 100; 0; 32; 59; 101; 0; 7]).
Proof. reflexivity. Qed.
(** A tenth argument is an error, and so is a missing parenthesis. *)
Example parsecmd_errors_ex :
  parsecmd ([97; 32; 97; 32; 97; 32; 97; 32; 97; 32; 97; 32; 97; 32; 97; 32; 97; 32; 97] ++ [0]) = Panic "too many args" ∧
  parsecmd ([40; 97] ++ [0]) = Panic "syntax - missing )" ∧ parsecmd ([97; 60; 0]) = Panic "missing file for redirection".
Proof. done. Qed.

Lemma line_ex_lexes : lexes line_ex (unparse 0 cmd_ex).
Proof.
  assert (∀ c b ts, word_char c → ends_word b → lexes b ts → lexes (c :: b) (Word [c] :: ts)) as Hword.
  { intros c b ts Hc Hb Hl. apply (lexes_word [c] b ts); [done|by apply Forall_singleton|done|done]. }
  unfold line_ex. cbn -[line_ex]. repeat first
    [ apply lexes_nil | apply lexes_space; [reflexivity|] | apply lexes_app | apply lexes_sym; [reflexivity|done|]
    | apply Hword; [by split|reflexivity || exact I|] ].
Qed.
Lemma cmd_ex_typable : typable cmd_ex.
Proof.
  assert (∀ c, word_char c → good_word [c]) as Hgood by (intros c Hc; split; [done|by apply Forall_singleton]).
  repeat split; try done; repeat first [apply Forall_cons; split | apply Forall_nil]; try done; try (apply Hgood; by split); unfold redir_mode; set_solver.
Qed.
Lemma parsecmd_unparse_witness : 0 ∉ line_ex ∧ lexes line_ex (unparse 0 cmd_ex) ∧
  ∃ c' b, parsecmd (line_ex ++ 0 :: [7]) = Ok (c', b) ∧ cmd_rel (λ p w, string_at b p = Some w) c' cmd_ex.
Proof.
  assert (0 ∉ line_ex) as H0 by (by apply (bool_decide_unpack _)). split_and!; [done|apply line_ex_lexes|].
  apply parsecmd_unparse; [apply cmd_ex_typable|done|apply line_ex_lexes].
Defined.
Lemma parsecmd_total_witness : line_bytes line_ex ∧
  ((∃ c b, parsecmd (line_ex ++ 0 :: []) = Ok (c, b) ∧ ends_in (zlen line_ex) c ∧ nuls (ends c) (line_ex ++ 0 :: []) b) ∨
   ∃ e, e ∈ syntax_errors ∧ parsecmd (line_ex ++ 0 :: []) = Panic e).
Proof.
  assert (line_bytes line_ex) as H0 by (by apply (bool_decide_unpack _)). split; [done|]. by apply parsecmd_total.
Defined.
