(* ===== verification/ShRun.v ===== *)
(** * The shell at work

    Models the other half of [user/sh.c]: [runcmd], [main] and what they call. A
    process is a tree of the system calls it makes, with what it does for each
    answer; [fork] has two answers. What the kernel makes of such a tree is the
    relation [exec]: file descriptors are given out lowest first, any call can
    fail. *)

From stdpp Require Import base numbers list gmap strings.
From S2P Require Import Prelude Print PrintProps Ulib Sh ShProps.
Open Scope Z_scope.
Open Scope kernel_scope.

(** ** Processes *)

Inductive prog : Type :=
| Exit (status : Z)
| Exec (argv : list (list Z)) (failed : prog)
| Close (fd : Z) (k : prog)
| Open (path : list Z) (mode : Z) (k : Z → prog)
| Dup (fd : Z) (k : prog)
| Pipe (k : option (Z * Z) → prog)
| Fork (k : Z → prog)
| Wait (k : Z → prog)
| Mknod (path : list Z) (major minor : Z) (k : prog)
| Chdir (path : list Z) (k : Z → prog)
| Read (fd : Z) (k : option Z → prog)
| Write (fd : Z) (bytes : list Z) (k : prog)
| Stuck.

Definition O_RDWR : Z := 2.

(** [fprintf(fd, fmt, ...);] and to standard error. *)
Definition fdprintf (fd : Z) (fmt : list Z) (ap : list arg) (k : prog) : prog :=
  match fprintf (fmt ++ [0]) ap [] with Ok (_, l) => foldr (λ c, Write fd [c]) k l | _ => Stuck end.
Definition eprintf : list Z → list arg → prog → prog := fdprintf 2.
Definition sh_panic (s : list Z) : prog := eprintf (chars "%s" ++ [10]) [Str (Some (s ++ [0]))] (Exit 1).
Definition fork1 (k : Z → prog) : prog := Fork (λ pid, if pid =? -1 then sh_panic (chars "fork") else k pid).

(** [runcmd(cmd)], the strings of [cmd] in [b]. *)
Fixpoint runcmd (b : list Z) (c : cmd span) : prog :=
  match c with
  | EXEC argv =>
      match argv with
      | [] => Exit 1
      | a :: _ =>
          match mapM (string_at b) argv with
          | Some l => Exec l (eprintf (chars "exec %s failed" ++ [10]) [Str (Some (drop (Z.to_nat a.1) b))] (Exit 0))
          | None => Stuck
          end
      end
  | REDIR c f mode fd =>
      match string_at b f with
      | Some path =>
          Close fd (Open path mode (λ r,
            if r <? 0 then eprintf (chars "open %s failed" ++ [10]) [Str (Some (drop (Z.to_nat f.1) b))] (Exit 1) else runcmd b c))
      | None => Stuck
      end
  | LIST l r => fork1 (λ pid, if pid =? 0 then runcmd b l else Wait (λ _, runcmd b r))
  | PIPE l r =>
      Pipe (λ p, match p with
        | None => sh_panic (chars "pipe")
        | Some (p0, p1) =>
            fork1 (λ pid, if pid =? 0 then Close 1 (Dup p1 (Close p0 (Close p1 (runcmd b l)))) else
            fork1 (λ pid, if pid =? 0 then Close 0 (Dup p0 (Close p0 (Close p1 (runcmd b r)))) else
            Close p0 (Close p1 (Wait (λ _, Wait (λ _, Exit 0))))))
        end)
  | BACK c => fork1 (λ pid, if pid =? 0 then runcmd b c else Exit 0)
  end.

(** [gets(buf, nbuf)] as reads of one character, at most [n] more of them; [w] is
    what has been read. *)
Fixpoint sh_gets (n : nat) (w : list Z) (k : list Z → prog) : prog :=
  match n with
  | O => k w
  | Datatypes.S n =>
      Read 0 (λ cc, match cc with
        | None => k w
        | Some c => if (c =? 10) || (c =? 13) then k (w ++ [c]) else sh_gets n (w ++ [c]) k
        end)
  end.
Definition NBUF : Z := 100.
(** [getcmd(buf, nbuf)]: [None] for the end of the input. *)
Definition getcmd (k : option (list Z) → prog) : prog :=
  Write 2 (chars "$ ") (sh_gets (Z.to_nat (NBUF - 1)) [] (λ w,
    let buf := splice 0 w (zrepl NBUF 0) in
    k (if decide (znth buf 0 = Some 0) then None else Some buf))).

(** [while( *cmd == ' ' || *cmd == '\t') cmd++;] *)
Fixpoint skip_blanks (l : list Z) : list Z :=
  match l with c :: l' => if (c =? SPACE) || (c =? TAB) then skip_blanks l' else l | [] => [] end.

(** The child that runs a line: [runcmd(parsecmd(cmd))]. Of the messages of
    [parsecmd] the one about what is left over is not part of [Panic]. *)
Definition run_line (cmd : list Z) : prog :=
  match parsecmd cmd with
  | Ok (c, b) => runcmd b c
  | Panic e => sh_panic (chars e)
  | _ => Stuck
  end.

(** What [main] does with a line, and then goes on as [next]. *)
Definition sh_turn (buf : list Z) (next : prog) : prog :=
  let cmd := skip_blanks buf in
  match cmd with
  | c0 :: c1 :: c2 :: rest =>
      if c0 =? LF then next else
      if (c0 =? 99) && (c1 =? 100) && (c2 =? SPACE) then
        match user_strlen cmd with
        | None => Stuck
        | Some n =>
            let cmd := zset cmd (n - 1) 0 in
            match c_str (drop 3 cmd) with
            | None => Stuck
            | Some dir => Chdir dir (λ r, if r <? 0 then eprintf (chars "cannot cd %s" ++ [10]) [Str (Some (drop 3 cmd))] next else next)
            end
        end
      else fork1 (λ pid, if pid =? 0 then run_line cmd else Wait (λ _, next))
  | c0 :: _ => if c0 =? LF then next else fork1 (λ pid, if pid =? 0 then run_line cmd else Wait (λ _, next))
  | [] => Stuck
  end.

(** The loop of [main], [n] lines of it at most. *)
Fixpoint sh_loop (n : nat) : prog :=
  match n with
  | O => Stuck
  | Datatypes.S n => getcmd (λ r, match r with None => Exit 0 | Some buf => sh_turn buf (sh_loop n) end)
  end.

(** The first loop of [main]: [n] is enough when fewer than [n] descriptors below
    3 are free. *)
Fixpoint open_console (n : nat) (k : prog) : prog :=
  match n with
  | O => Stuck
  | Datatypes.S n =>
      Open (chars "console") O_RDWR (λ fd,
        if 0 <=? fd then if 3 <=? fd then Close fd k else open_console n k else k)
  end.
Definition sh_main (lines : nat) : prog := open_console 4 (sh_loop lines).

(** ** The kernel's side *)

(** What a descriptor can stand for: what the process came with, a file, an end
    of a pipe. *)
Inductive open_file := Inherited (n : Z) | File (path : list Z) (mode : Z) | PipeR (id : Z) | PipeW (id : Z).
#[global] Instance file_eq_dec : EqDecision open_file.
Proof. solve_decision. Defined.
Abbreviation fds := (gmap Z open_file).

Definition NOFILE : Z := 16.
(** [fdalloc] of [sysfile.c] takes the lowest free descriptor. *)
Definition lowest_fd (t : fds) : option Z := first_some (λ i, match t !! i with None => Some i | Some _ => None end) (upto NOFILE).

(** What becomes of a process: it exits, or goes wrong (or its loop has used up
    the fuel), or runs a program with descriptors; of its child and of itself after
    a fork; of itself after a wait. *)
Inductive obs := OExit (status : Z) | OStuck | ORun (argv : list (list Z)) (t : fds) | OFork (child parent : obs) | OWait (o : obs).

Definition pipe_id (f : open_file) : option Z := match f with PipeR i | PipeW i => Some i | _ => None end.
Definition uses (t : fds) (id : Z) : Prop := ∃ fd f, t !! fd = Some f ∧ pipe_id f = Some id.

(** [exec t p o I]: with the descriptors [t], [p] can become [o], and [I] are the
    pipes it creates, no two of them the same. *)
Inductive exec : fds → prog → obs → gset Z → Prop :=
| ex_exit t n : exec t (Exit n) (OExit n) ∅
| ex_stuck t : exec t Stuck OStuck ∅
| ex_exec t argv k : exec t (Exec argv k) (ORun argv t) ∅
| ex_exec_fail t argv k o I : exec t k o I → exec t (Exec argv k) o I
| ex_close t fd k o I : exec (delete fd t) k o I → exec t (Close fd k) o I
| ex_open t path mode fd k o I : lowest_fd t = Some fd → exec (<[fd := File path mode]> t) (k fd) o I → exec t (Open path mode k) o I
| ex_open_fail t path mode k o I : exec t (k (-1)) o I → exec t (Open path mode k) o I
| ex_dup t fd f n k o I : t !! fd = Some f → lowest_fd t = Some n → exec (<[n := f]> t) k o I → exec t (Dup fd k) o I
| ex_dup_fail t fd k o I : t !! fd = None ∨ lowest_fd t = None → exec t k o I → exec t (Dup fd k) o I
| ex_pipe t p0 p1 id k o I : lowest_fd t = Some p0 → lowest_fd (<[p0 := PipeR id]> t) = Some p1 → ¬ uses t id → id ∉ I →
    exec (<[p1 := PipeW id]> (<[p0 := PipeR id]> t)) (k (Some (p0, p1))) o I → exec t (Pipe k) o ({[id]} ∪ I)
| ex_pipe_fail t k o I : exec t (k None) o I → exec t (Pipe k) o I
| ex_fork t pid k oc op Ic Ip : 0 < pid → Ic ## Ip → exec t (k 0) oc Ic → exec t (k pid) op Ip → exec t (Fork k) (OFork oc op) (Ic ∪ Ip)
| ex_fork_fail t k o I : exec t (k (-1)) o I → exec t (Fork k) o I
| ex_wait t r k o I : exec t (k r) o I → exec t (Wait k) (OWait o) I
| ex_mknod t path major minor k o I : exec t k o I → exec t (Mknod path major minor k) o I
| ex_chdir t path r k o I : r = 0 ∨ r = -1 → exec t (k r) o I → exec t (Chdir path k) o I
| ex_read t fd c k o I : exec t (k c) o I → exec t (Read fd k) o I
| ex_write t fd bytes k o I : exec t k o I → exec t (Write fd bytes k) o I.

(** ** What a command means *)

(** The descriptors of a shell: 0, 1 and 2. *)
Definition std (t : fds) : Prop := dom t = {[0; 1; 2]}.
(** A process that gave up. *)
Definition gives_up (o : obs) (I : gset Z) : Prop := o = OExit 1 ∧ I = ∅.

(** A command run with the descriptors [t] may become [o]: a program runs with
    these very descriptors; a redirection replaces one; the sides of a pipeline
    have the ends of a new pipe in place of 1 and of 0, and no other of its ends
    is left open; the second command of a list comes after a wait for the first.
    Each process may give up when a call fails. *)
Fixpoint means (c : cmd (list Z)) (t : fds) (o : obs) (I : gset Z) : Prop :=
  match c with
  | EXEC [] => gives_up o I
  | EXEC argv => (o = ORun argv t ∨ o = OExit 0) ∧ I = ∅
  | REDIR c f mode fd => gives_up o I ∨ means c (<[fd := File f mode]> t) o I
  | PIPE l r =>
      gives_up o I ∨ ∃ id Ip, ¬ uses t id ∧ id ∉ Ip ∧ I = {[id]} ∪ Ip ∧
        (gives_up o Ip ∨ ∃ ol o1 Il I1, means l (<[1 := PipeW id]> t) ol Il ∧ o = OFork ol o1 ∧ Ip = Il ∪ I1 ∧ Il ## I1 ∧
          (gives_up o1 I1 ∨ ∃ or, means r (<[0 := PipeR id]> t) or I1 ∧ o1 = OFork or (OWait (OWait (OExit 0)))))
  | LIST l r => gives_up o I ∨ ∃ ol or Il Ir, means l t ol Il ∧ means r t or Ir ∧ o = OFork ol (OWait or) ∧ I = Il ∪ Ir ∧ Il ## Ir
  | BACK c => gives_up o I ∨ ∃ oc, means c t oc I ∧ o = OFork oc (OExit 0)
  end.
