(* ===== verification/ShRunProps.v ===== *)
(** * What the shell runs

    [runcmd] against the meaning of commands, with the parser: from the line that
    is typed to the programs, their descriptors and who waits for whom. *)

From stdpp Require Import base numbers list gmap strings.
From S2P Require Import Prelude Print PrintProps Ulib Sh ShProps ShRun.
Open Scope Z_scope.
Open Scope kernel_scope.

(** ** Rules *)

Lemma exec_exit t n o I : exec t (Exit n) o I ↔ o = OExit n ∧ I = ∅.
Proof. split; [by inversion 1|intros [-> ->]; constructor]. Qed.
Lemma exec_Exec t argv k o I : exec t (Exec argv k) o I ↔ (o = ORun argv t ∧ I = ∅) ∨ exec t k o I.
Proof. split; [inversion 1; subst; [by left|by right]|intros [[-> ->]|?]; [constructor|by constructor]]. Qed.
Lemma exec_close t fd k o I : exec t (Close fd k) o I ↔ exec (delete fd t) k o I.
Proof. split; [by inversion 1|by constructor]. Qed.
Lemma exec_open t path mode fd k o I : lowest_fd t = Some fd →
  exec t (Open path mode k) o I ↔ exec (<[fd := File path mode]> t) (k fd) o I ∨ exec t (k (-1)) o I.
Proof.
  intros Hfd. split; [inversion 1; subst; [left; congruence|by right]|intros [?|?]; [by eapply ex_open|by apply ex_open_fail]].
Qed.
Lemma exec_dup t fd f n k o I : t !! fd = Some f → lowest_fd t = Some n → exec t (Dup fd k) o I ↔ exec (<[n := f]> t) k o I.
Proof.
  intros Hf Hn. split; [|by apply ex_dup]. inversion 1; subst; [congruence|]. naive_solver.
Qed.
Lemma exec_wait t k o I : exec t (Wait (λ _, k)) o I ↔ ∃ o', o = OWait o' ∧ exec t k o' I.
Proof. split; [inversion 1; subst; by eexists|intros (? & -> & ?); by apply (ex_wait t 0)]. Qed.
Lemma exec_mknod t path major minor k o I : exec t (Mknod path major minor k) o I ↔ exec t k o I.
Proof. split; [by inversion 1|by constructor]. Qed.
Lemma exec_write t fd bytes k o I : exec t (Write fd bytes k) o I ↔ exec t k o I.
Proof. split; [by inversion 1|by constructor]. Qed.
Lemma exec_pipe t p0 p1 k o I : (∀ f, lowest_fd t = Some p0 ∧ lowest_fd (<[p0 := f]> t) = Some p1) →
  exec t (Pipe k) o I ↔ exec t (k None) o I ∨ ∃ id Ip, ¬ uses t id ∧ id ∉ Ip ∧ I = {[id]} ∪ Ip ∧
    exec (<[p1 := PipeW id]> (<[p0 := PipeR id]> t)) (k (Some (p0, p1))) o Ip.
Proof.
  intros Hp. split.
  - inversion 1 as [| | | | | | | | |? q0 q1 id ? ? Ip H0 H1 Hu Hid He| | | | | | | |]; subst; [right|by left]. exists id, Ip.
    destruct (Hp (PipeR id)) as [E0 E1]. rewrite E0 in H0. injection H0 as <-. rewrite E1 in H1. injection H1 as <-. by split_and!.
  - intros [?|(id & Ip & Hu & Hid & -> & He)]; [by apply ex_pipe_fail|]. destruct (Hp (PipeR id)). by eapply ex_pipe.
Qed.

Lemma fdprintf_exec fd fmt ap k t o I : (∃ l, fprintf (fmt ++ [0]) ap [] = Ok (tt, l)) → exec t (fdprintf fd fmt ap k) o I ↔ exec t k o I.
Proof.
  intros [l E]. unfold fdprintf. rewrite E. clear E. induction l as [|c l IH]; [done|]. simpl. by rewrite exec_write.
Qed.
Lemma eprintf_exec fmt ap k t o I : (∃ l, fprintf (fmt ++ [0]) ap [] = Ok (tt, l)) → exec t (eprintf fmt ap k) o I ↔ exec t k o I.
Proof. apply fdprintf_exec. Qed.
Lemma panic_exec s t o I : Forall (λ c, 0 < c < 256) s → exec t (sh_panic s) o I ↔ gives_up o I.
Proof.
  intros Hs. unfold sh_panic. rewrite eprintf_exec; [apply exec_exit|].
  destruct (vprintf_user [String; Lit 10] [Str (Some (s ++ [0]))] [] []) as (l & E & _); [by repeat constructor| |by exists l].
  eapply takes_cons; [exists (Some (s ++ [0])); split; [done|]; exists s; split; [done|]; by exists []|]. by econstructor; [|constructor].
Qed.
Lemma lits_good s : Forall (λ c, (0 < c < 256) ∧ c ≠ PCT) s → Forall good_item (Lit <$> s).
Proof. intros Hs. by apply Forall_fmap. Qed.
Lemma fmt_of_lits s : fmt_of (Lit <$> s) = s.
Proof. induction s as [|c s IH]; [done|]. simpl. f_equal. exact IH. Qed.
Lemma takes_lits s ts ap : fmt_takes ts ap → fmt_takes ((Lit <$> s) ++ ts) ap.
Proof. intros H. induction s as [|c s IH]; [done|]. simpl. by econstructor; [|exact IH]. Qed.
(** A message with a string in it. *)
Lemma message_exec s1 s2 b p w k t o I : Forall good_item (Lit <$> s1) → Forall good_item (Lit <$> s2) → string_at b p = Some w →
  Forall (λ c, 0 < c < 256) w →
  exec t (eprintf (s1 ++ [PCT; CH_s] ++ s2) [Str (Some (drop (Z.to_nat p.1) b))] k) o I ↔ exec t k o I.
Proof.
  intros H1 H2 Hs Hw. apply eprintf_exec.
  destruct (vprintf_user ((Lit <$> s1) ++ String :: (Lit <$> s2)) [Str (Some (drop (Z.to_nat p.1) b))] [] []) as (l & E & _).
  - apply Forall_app. split; [done|]. by constructor.
  - apply takes_lits. eapply takes_cons; [|rewrite <-(app_nil_r (Lit <$> s2)); apply takes_lits; constructor]. exists (Some (drop (Z.to_nat p.1) b)). split; [done|].
    exists w. split; [done|]. unfold string_at in Hs. revert Hs. generalize (drop (Z.to_nat p.1) b). clear. intros l. revert w.
    induction l as [|c l IH]; intros w; [done|]. simpl. destruct (Z.eqb_spec c 0) as [->|]; [intros [= <-]; by exists l|].
    destruct (c_str l) as [w'|] eqn:E; [|done]. intros [= <-]. destruct (IH w' eq_refl) as [rest ->]. by exists rest.
  - exists l. unfold fmt_of in E. rewrite bind_app in E. simpl in E. fold (fmt_of (Lit <$> s1)) in E. fold (fmt_of (Lit <$> s2)) in E. rewrite !fmt_of_lits in E.
    simpl. rewrite <-!app_assoc in *. exact E.
Qed.

Lemma exec_fork1 t A B o I : exec t (fork1 (λ pid, if pid =? 0 then A else B)) o I ↔
  gives_up o I ∨ ∃ oc op Ic Ip, exec t A oc Ic ∧ exec t B op Ip ∧ o = OFork oc op ∧ I = Ic ∪ Ip ∧ Ic ## Ip.
Proof.
  assert (exec t (sh_panic (chars "fork")) o I ↔ gives_up o I) as Hp by (apply panic_exec; by apply (bool_decide_unpack _)).
  unfold fork1. split.
  - inversion 1 as [| | | | | | | | | | |? pid ? oc op Ic Ip Hpid Hdis Hc Hpar| | | | | |]; subst; [right|left; by apply Hp].
    exists oc, op, Ic, Ip. rewrite (proj2 (Z.eqb_neq pid (-1))), (proj2 (Z.eqb_neq pid 0)) in Hpar by lia. by split_and!.
  - intros [Hg|(oc & op & Ic & Ip & Hc & Hpar & -> & -> & Hdis)]; [by apply ex_fork_fail, Hp|]. by apply (ex_fork t 1).
Qed.

(** ** Descriptors *)

Lemma lowest_fd_ok t n : 0 ≤ n < NOFILE → (∀ i, 0 ≤ i < n → is_Some (t !! i)) → t !! n = None → lowest_fd t = Some n.
Proof.
  intros Hn Hlt Hfree. unfold lowest_fd. rewrite (upto_split NOFILE n) by done. rewrite first_some_skip; [simpl; by rewrite Hfree|].
  intros i Hi%elem_of_upto. by destruct (Hlt i Hi) as [f ->].
Qed.
Lemma std_lookup t i : std t → is_Some (t !! i) ↔ 0 ≤ i < 3.
Proof. intros Ht. rewrite <-elem_of_dom, Ht, !elem_of_union, !elem_of_singleton. lia. Qed.
Lemma std_none t i : std t → ¬ 0 ≤ i < 3 → t !! i = None.
Proof. intros Ht Hi. apply eq_None_not_Some. intros H. apply Hi. by apply (std_lookup t). Qed.
Lemma std_insert t fd f : std t → 0 ≤ fd < 3 → std (<[fd := f]> t).
Proof.
  intros Ht Hfd. unfold std. rewrite dom_insert_L, Ht. apply set_eq. intros i. rewrite !elem_of_union, !elem_of_singleton. lia.
Qed.

(** [close(fd)] and then the lowest descriptor: it is [fd] again. *)
Lemma std_reuse t fd : std t → 0 ≤ fd < 3 → lowest_fd (delete fd t) = Some fd.
Proof.
  intros Ht Hfd. apply lowest_fd_ok; [unfold NOFILE; lia| |apply lookup_delete_eq].
  intros i Hi. rewrite lookup_delete_ne by lia. apply std_lookup; [done|lia].
Qed.
Lemma std_pipe t f : std t → lowest_fd t = Some 3 ∧ lowest_fd (<[3 := f]> t) = Some 4.
Proof.
  intros Ht. split; apply lowest_fd_ok; try (unfold NOFILE; lia).
  - intros i Hi. apply std_lookup; [done|lia].
  - apply std_none; [done|lia].
  - intros i Hi. destruct (decide (i = 3)) as [->|]; [by rewrite lookup_insert_eq|]. rewrite lookup_insert_ne by lia. apply std_lookup; [done|lia].
  - rewrite lookup_insert_ne by lia. apply std_none; [done|lia].
Qed.

Section side.
Context (t : fds) (r w : open_file) (Ht : std t).
(** A process with both ends of a pipe as 3 and 4. *)
Let tp := <[4 := w]> (<[3 := r]> t).
Lemma piped_close : delete 4 (delete 3 tp) = t.
Proof using Ht.
  unfold tp. apply map_eq. intros i. destruct (decide (i = 4)) as [->|]; [rewrite lookup_delete_eq; symmetry; apply std_none; [done|lia]|].
  rewrite lookup_delete_ne by done. destruct (decide (i = 3)) as [->|]; [rewrite lookup_delete_eq; symmetry; apply std_none; [done|lia]|]. by simplify_map_eq.
Qed.
Lemma piped_reuse fd : 0 ≤ fd < 3 → lowest_fd (delete fd tp) = Some fd.
Proof using Ht.
  intros Hfd. unfold tp. apply lowest_fd_ok; [unfold NOFILE; lia| |by simplify_map_eq].
  intros i Hi. rewrite lookup_delete_ne, !lookup_insert_ne by lia. apply std_lookup; [done|lia].
Qed.
(** [close(fd); dup(p[x]); close(p[0]); close(p[1]);] *)
Lemma exec_side fd p f k o I : 0 ≤ fd < 3 → (p, f) ∈ [(3, r); (4, w)] →
  exec tp (Close fd (Dup p (Close 3 (Close 4 k)))) o I ↔ exec (<[fd := f]> t) k o I.
Proof using Ht.
  intros Hfd Hp. rewrite exec_close, (exec_dup _ p f fd), !exec_close; [|unfold tp|by apply piped_reuse].
  - assert (delete 4 (delete 3 (<[fd := f]> (delete fd tp))) = <[fd := f]> t) as ->; [|done].
    rewrite insert_delete_eq, !delete_insert_ne by lia. by rewrite piped_close.
  - rewrite !elem_of_cons in Hp. destruct Hp as [[= -> ->]|[[= -> ->]|?%not_elem_of_nil]]; [| |done]; by rewrite lookup_delete_ne by lia; simplify_map_eq.
Qed.
End side.

(** ** runcmd *)

Lemma typable_bytes w : good_word w → Forall (λ c, 0 < c < 256) w.
Proof. intros [_ Hw]. eapply Forall_impl; [exact Hw|]. by intros c [_ ?]. Qed.

Section runcmd.
Context (b : list Z).
Definition read_as (p : span) (w : list Z) : Prop := string_at b p = Some w.

Lemma strings_read argv' argv : Forall2 read_as argv' argv → mapM (string_at b) argv' = Some argv.
Proof. induction 1 as [|q v l l' Hq Hl IH]; [done|]. simpl. rewrite Hq. simpl. by rewrite IH. Qed.
Lemma runcmd_exec argv' argv t o I : Forall2 read_as argv' argv → Forall good_word argv →
  exec t (runcmd b (EXEC argv')) o I ↔ means (EXEC argv) t o I.
Proof.
  intros Ha Hw. cbn [runcmd means]. destruct Ha as [|p w argv' argv Hp Ha]; [apply exec_exit|].
  rewrite (strings_read (p :: argv') (w :: argv)) by by constructor. apply Forall_cons in Hw as [Hw _].
  rewrite exec_Exec, (message_exec (chars "exec ") (chars " failed" ++ [10]) b p w), exec_exit;
    [tauto|apply lits_good; by apply (bool_decide_unpack _)..|done|by apply typable_bytes].
Qed.
Lemma runcmd_redir c' c f' f mode fd t o I : std t → read_as f' f → good_word f → redir_mode mode fd →
  (∀ t, std t → exec t (runcmd b c') o I ↔ means c t o I) →
  exec t (runcmd b (REDIR c' f' mode fd)) o I ↔ means (REDIR c f mode fd) t o I.
Proof.
  intros Ht Hf Hw Hr IH. assert (0 ≤ fd < 3) as Hfd.
  { unfold redir_mode in Hr. rewrite !elem_of_cons in Hr. destruct Hr as [[= _ ->]|[[= _ ->]|[[= _ ->]|?%not_elem_of_nil]]]; lia. }
  cbn [runcmd means]. rewrite Hf. rewrite exec_close, (exec_open _ _ _ fd) by by apply std_reuse. rewrite (proj2 (Z.ltb_ge fd 0)) by lia. change (-1 <? 0) with true. cbn match.
  rewrite insert_delete_eq, IH by by apply std_insert. rewrite (message_exec (chars "open ") (chars " failed" ++ [10]) b f' f), exec_exit;
    [unfold gives_up; tauto|apply lits_good; by apply (bool_decide_unpack _)..|done|by apply typable_bytes].
Qed.
(** The parent of a pipeline after its first fork. *)
Lemma pipe_parent r' r t id o I : std t → (∀ t o I, std t → exec t (runcmd b r') o I ↔ means r t o I) →
  exec (<[4 := PipeW id]> (<[3 := PipeR id]> t)) (fork1 (λ pid, if pid =? 0
      then Close 0 (Dup 3 (Close 3 (Close 4 (runcmd b r')))) else Close 3 (Close 4 (Wait (λ _, Wait (λ _, Exit 0)))))) o I ↔
    gives_up o I ∨ ∃ or, means r (<[0 := PipeR id]> t) or I ∧ o = OFork or (OWait (OWait (OExit 0))).
Proof.
  intros Ht IHr. rewrite exec_fork1. f_equiv.
  assert (∀ t o I, exec t (Close 3 (Close 4 (Wait (λ _, Wait (λ _, Exit 0))))) o I ↔ o = OWait (OWait (OExit 0)) ∧ I = ∅) as Hparent.
  { intros t0 o0 I0. rewrite !exec_close, exec_wait. setoid_rewrite exec_wait. setoid_rewrite exec_exit. split; [naive_solver|]. intros [-> ->]. eauto 10. }
  setoid_rewrite Hparent. setoid_rewrite (exec_side t _ _ Ht 0 3 (PipeR id)); [|lia|by left]. setoid_rewrite (IHr (<[0 := PipeR id]> t)); [|apply std_insert; [done|lia]].
  split.
  - intros (oc & op & Ic & Ip & Hc & [-> ->] & -> & -> & _). exists oc. by rewrite union_empty_r_L.
  - intros (or & Hr & ->). exists or, (OWait (OWait (OExit 0))), I, ∅. split_and!; [done|done|done|done|by rewrite union_empty_r_L|set_solver].
Qed.
Lemma runcmd_pipe l' r' l r t o I : std t →
  (∀ t o I, std t → exec t (runcmd b l') o I ↔ means l t o I) → (∀ t o I, std t → exec t (runcmd b r') o I ↔ means r t o I) →
  exec t (runcmd b (PIPE l' r')) o I ↔ means (PIPE l r) t o I.
Proof.
  intros Ht IHl IHr. cbn [runcmd means]. rewrite (exec_pipe t 3 4) by (intros f; by apply std_pipe).
  rewrite panic_exec by (by apply (bool_decide_unpack _)). f_equiv. f_equiv; intros id. f_equiv; intros Ip.
  do 3 f_equiv. rewrite exec_fork1. f_equiv. do 4 (f_equiv; intros ?).
  rewrite (exec_side t _ _ Ht 1 4 (PipeW id)), IHl, (pipe_parent r' r) by (first [done|lia|by right; left|apply std_insert; [done|lia]]). tauto.
Qed.

(** The shell does what a command means: the process that runs a command with
    its descriptors 0, 1 and 2 open does exactly what [means] says, whatever
    fails. Each program gets the descriptors of the shell, with the redirections
    around it and the ends of the pipes it is between, and none else: no process
    keeps an end of a pipe that is not its own. A list waits for its first part,
    a pipeline for both its sides. *)
Theorem runcmd_means c' c t o I : typable c → cmd_rel read_as c' c → std t → exec t (runcmd b c') o I ↔ means c t o I.
Proof.
  revert c t o I. induction c' as [argv'|c' IH f' mode' fd'|l' IHl r' IHr|l' IHl r' IHr|c' IH];
    intros [argv|c f mode fd|l r|l r|c] t o I Hc Hrel Ht; try done.
  - destruct Hc as [Hw _]. by apply runcmd_exec.
  - destruct Hc as (Hc & Hw & Hr), Hrel as (Hrel & Hf & <- & <-). apply runcmd_redir; try done. intros t' Ht'. by apply IH.
  - destruct Hc as [Hl Hr], Hrel as [Hrl Hrr]. apply runcmd_pipe; [done|intros; by apply IHl|intros; by apply IHr].
  - destruct Hc as [Hl Hr], Hrel as [Hrl Hrr]. cbn [runcmd means]. rewrite exec_fork1. f_equiv.
    setoid_rewrite exec_wait. split.
    + intros (oc & op & Ic & Ip & H1 & (o' & -> & H2) & -> & -> & Hd). exists oc, o', Ic, Ip. split_and!; [by apply (IHl l)|by apply (IHr r)|done..].
    + intros (ol & or & Il & Ir & H1 & H2 & -> & -> & Hd). exists ol, (OWait or), Il, Ir. split_and!; [by apply (IHl l)|exists or; split; [done|by apply (IHr r)]|done..].
  - cbn [runcmd means]. rewrite exec_fork1. f_equiv. setoid_rewrite exec_exit. split.
    + intros (oc & op & Ic & Ip & H1 & [-> ->] & -> & -> & _). exists oc. rewrite union_empty_r_L. split; [by apply (IH c)|done].
    + intros (oc & H1 & ->). exists oc, (OExit 0), I, ∅. rewrite union_empty_r_L. split_and!; [by apply (IH c)|done..|set_solver].
Qed.
End runcmd.

(** ** main *)

Lemma skip_blanks_app line rest c : c ≠ SPACE → c ≠ TAB → skip_blanks (line ++ c :: rest) = skip_blanks line ++ c :: rest.
Proof.
  intros H1 H2. induction line as [|x line IH]; simpl.
  - by rewrite (proj2 (Z.eqb_neq c SPACE)), (proj2 (Z.eqb_neq c TAB)) by done.
  - by destruct ((x =? SPACE) || (x =? TAB)).
Qed.
Lemma skip_blanks_split line : ∃ ws, line = ws ++ skip_blanks line ∧ Forall (λ c, inb whitespace c = true) ws.
Proof.
  induction line as [|c line (ws & E & Hws)]; [by exists []|]. simpl. destruct ((c =? SPACE) || (c =? TAB)) eqn:Ec; [|by exists []].
  exists (c :: ws). split; [by rewrite E at 1|]. constructor; [|done]. apply orb_true_iff in Ec as [->%Z.eqb_eq| ->%Z.eqb_eq]; done.
Qed.

(** A line that is for [main] itself: nothing on it, or [cd]. *)
Definition own_line (line : list Z) : bool :=
  match skip_blanks line with
  | c0 :: l => (c0 =? LF) || match l with c1 :: c2 :: _ => (c0 =? 99) && (c1 =? 100) && (c2 =? SPACE) | _ => false end
  | [] => false
  end.
Lemma sh_turn_runs line rest next : own_line line = false → (2 ≤ length rest)%nat →
  sh_turn (line ++ 0 :: rest) next = fork1 (λ pid, if pid =? 0 then run_line (skip_blanks line ++ 0 :: rest) else Wait (λ _, next)).
Proof.
  intros Hown Hrest. unfold sh_turn. rewrite skip_blanks_app by done. unfold own_line in Hown. destruct rest as [|r1 [|r2 rest]]; [simpl in Hrest; lia..|].
  destruct (skip_blanks line) as [|c0 [|c1 [|c2 l]]]; simpl; [done|..];
    apply orb_false_iff in Hown as [-> Hcd]; rewrite ?Hcd; [by rewrite andb_false_r|by rewrite andb_false_r|done].
Qed.

(** C22. What is typed is what runs. A line with a command on it, however it is
    spaced, is given to a child: the shell waits for the child and goes on with
    the next line, and the child does what the command means, with the shell's
    descriptors. When it cannot fork, the shell ends. *)
Theorem typed_line_runs c line rest next t o I : typable c → line_bytes line → lexes line (unparse 0 c) → own_line line = false →
  (2 ≤ length rest)%nat → std t →
  exec t (sh_turn (line ++ 0 :: rest) next) o I ↔
    gives_up o I ∨ ∃ oc on Ic In, means c t oc Ic ∧ exec t next on In ∧ o = OFork oc (OWait on) ∧ I = Ic ∪ In ∧ Ic ## In.
Proof.
  intros Hc Hb Hl Hown Hrest Ht. rewrite sh_turn_runs, exec_fork1 by done. f_equiv.
  destruct (skip_blanks_split line) as (ws & E & Hws). pose proof (line_no_nul line Hb) as H0. rewrite E in H0, Hl. apply not_elem_of_app in H0 as [_ H0].
  apply lexes_skip in Hl; [|done]. destruct (parsecmd_run c (skip_blanks line) rest Hc H0 Hl) as (c' & b & Ep & Hrel).
  assert (∀ o I, exec t (run_line (skip_blanks line ++ 0 :: rest)) o I ↔ means c t o I) as Hrun.
  { intros o' I'. unfold run_line. rewrite Ep. by apply runcmd_means. }
  setoid_rewrite Hrun. setoid_rewrite exec_wait. split.
  - intros (oc & op & Ic & Ip & H1 & (on & -> & H2) & -> & -> & Hd). by exists oc, on, Ic, Ip.
  - intros (oc & on & Ic & Ip & H1 & H2 & -> & -> & Hd). exists oc, (OWait on), Ic, Ip. split_and!; [done|by exists on|done..].
Qed.

(** With its three descriptors open [main] goes on with just these. *)
Lemma open_console_std t n k o I : std t → exec t (open_console (Datatypes.S n) k) o I ↔ exec t k o I.
Proof.
  intros Ht. cbn [open_console]. rewrite (exec_open _ _ _ 3) by (by apply (std_pipe t (Inherited 0))).
  change (0 <=? 3) with true. change (3 <=? 3) with true. change (0 <=? -1) with false. cbn match. rewrite exec_close, delete_insert_id; [tauto|].
  apply std_none; [done|lia].
Qed.

(** ** What is left open *)

(** The programs of a run, with their descriptors. *)
Fixpoint launches (o : obs) : list (list (list Z) * fds) :=
  match o with OExit _ | OStuck => [] | ORun argv t => [(argv, t)] | OFork c p => launches c ++ launches p | OWait o => launches o end.
Lemma gives_up_launches o I : gives_up o I → launches o = [].
Proof. by intros [-> _]. Qed.
(** Every program starts with 0, 1 and 2 open and nothing else. *)
Lemma launched_std c t o I : typable c → std t → means c t o I → Forall (λ x, std x.2) (launches o).
Proof.
  assert (∀ o I, gives_up o I → Forall (λ x, std x.2) (launches o)) as Hg by (intros ? ? ->%gives_up_launches; constructor).
  revert t o I. induction c as [argv|c IH f mode fd|l IHl r IHr|l IHl r IHr|c IH]; intros t o I Hc Ht; cbn [means].
  - destruct argv as [|a argv]; [by apply Hg|]. intros [[->| ->] _]; [|constructor]. by apply Forall_singleton.
  - destruct Hc as (Hc & _ & Hr). intros [H|H]; [by eapply Hg|]. eapply IH; [done| |done]. apply std_insert; [done|].
    unfold redir_mode in Hr. rewrite !elem_of_cons in Hr. destruct Hr as [[= _ ->]|[[= _ ->]|[[= _ ->]|?%not_elem_of_nil]]]; lia.
  - destruct Hc as [Hl Hr]. intros [H|(id & Ip & _ & _ & _ & [H|(ol & o1 & Il & I1 & H1 & -> & _ & _ & H2)])]; [by eapply Hg..|]. simpl. apply Forall_app. split.
    + eapply IHl; [done| |done]. apply std_insert; [done|lia].
    + destruct H2 as [H2|(or & H2 & ->)]; [by eapply Hg|]. simpl. rewrite app_nil_r. eapply IHr; [done| |done]. apply std_insert; [done|lia].
  - destruct Hc as [Hl Hr]. intros [H|(ol & or & Il & Ir & H1 & H2 & -> & _ & _)]; [by eapply Hg|]. simpl. apply Forall_app. split; [by eapply IHl|by eapply IHr].
  - intros [H|(oc & H & ->)]; [by eapply Hg|]. simpl. rewrite app_nil_r. by eapply IH.
Qed.

(** ** A line *)

Definition std_ex : fds := <[0 := Inherited 0]> (<[1 := Inherited 1]> {[2 := Inherited 2]}).
(** [a] reads [b] and writes to the pipe that [c] reads; [c] writes to [d], all in
    the background; [e] is run after the wait. *)
Definition obs_ex : obs :=
  let td := <[1 := File [100] (Z.lor O_WRONLY O_CREATE)]> std_ex in
  OFork (OFork (OFork (OFork (ORun [[97]] (<[0 := File [98] O_RDONLY]> (<[1 := PipeW 7]> td)))
                             (OFork (ORun [[99]; [120]] (<[0 := PipeR 7]> td)) (OWait (OWait (OExit 0)))))
                      (OExit 0))
               (OWait (ORun [[101]] std_ex)))
        (OWait (OExit 0)).
Lemma std_ex_std : std std_ex.
Proof. done. Qed.
Lemma uses_no_pipes t id : map_fold (λ _ f b, b && bool_decide (pipe_id f = None)) true t = true → ¬ uses t id.
Proof.
  intros H (fd & f & Hf & Hid). revert fd f Hf Hid H. induction t as [|k x t Hk Hfirst IH] using map_first_key_ind; [done|].
  intros fd f Hf Hid. rewrite map_fold_insert_first_key by done. intros [H1 H2%bool_decide_eq_true]%andb_true_iff.
  apply lookup_insert_Some in Hf as [[_ ->]|[_ Hf]]; [congruence|]. by eapply IH.
Qed.
Lemma obs_ex_means : ∃ oc, obs_ex = OFork oc (OWait (OExit 0)) ∧ means cmd_ex std_ex oc {[7]}.
Proof.
  eexists. split; [done|]. unfold cmd_ex. cbn [means]. right. eexists _, _, {[7]}, ∅. split; [|split; [split; [by left|done]|split_and!; [done|set_solver|set_solver]]].
  right. eexists. split; [|done]. right. right. exists 7, ∅. split; [by apply uses_no_pipes|]. split; [set_solver|]. split; [set_solver|].
  right. eexists _, _, ∅, ∅. split; [right; split; [by left|done]|]. split; [done|]. split; [set_solver|]. split; [set_solver|].
  right. eexists. split; [split; [by left|done]|done].
Qed.
Lemma typed_line_runs_witness : own_line line_ex = false ∧ std std_ex ∧ exec std_ex (sh_turn (line_ex ++ 0 :: [0; 0]) (Exit 0)) obs_ex {[7]}.
Proof.
  assert (line_bytes line_ex) as Hb by (by apply (bool_decide_unpack _)).
  split_and!; [done|apply std_ex_std|]. destruct obs_ex_means as (oc & -> & Hm).
  apply (typed_line_runs cmd_ex line_ex [0; 0] (Exit 0) std_ex (OFork oc (OWait (OExit 0))) {[7]} cmd_ex_typable
    Hb line_ex_lexes eq_refl (Nat.le_refl 2) std_ex_std).
  right. exists oc, (OExit 0), {[7]}, ∅. split_and!; [done|constructor|done|set_solver|set_solver].
Defined.
