(* ===== verification/KPrint.v ===== *)
(** * The kernel's printf

    Models [kernel/printf.c], whose output goes to the console a character at a
    time ([consputc]); [printint], [printptr] and the directives are those of
    [Print], with its own digits. *)

From stdpp Require Import base numbers list gmap strings.
From S2P Require Import Prelude Machine KState Bio Log Disk Raid Kalloc Evict VM Str Fs Proc File FileProps Print PrintProps.
Open Scope Z_scope.
Open Scope kernel_scope.

(** [0123456789abcdef]. *)
Definition kernel_digits : list Z := [48; 49; 50; 51; 52; 53; 54; 55; 56; 57; 97; 98; 99; 100; 101; 102].

Section kprintf.
Context {L : Layout}.
Abbreviation K := (M (kst fsst)).

(** A turn of the loop: [i] and the arguments left. *)
Definition kprintf_step (fmt : list Z) (a : Z * list arg) : K ((Z * list arg) + unit) :=
  let '(i, ap) := a in
  cx ← fmt_at fmt i;
  if cx =? 0 then mret (inr tt) else
  if negb (cx =? PCT) then consputc cx ;; mret (inl (i + 1, ap)) else
  c0 ← fmt_at fmt (i + 1);
  c1 ← fmt_at_if (negb (c0 =? 0)) fmt (i + 2);
  c2 ← fmt_at_if (negb (c1 =? 0)) fmt (i + 3);
  if c0 =? 0 then mret (inr tt) else
  r ← directive consputc kernel_digits c0 c1 c2 ap;
  mret (inl (i + 1 + r.1 + 1, r.2)).
(** [printf(fmt, ...)]; [panicking] is the flag of that name. *)
Definition kprintf (panicking : bool) (fmt : list Z) (ap : list arg) : K Z :=
  when (negb panicking) (acquire LPr) ;;
  loop (Datatypes.S (length fmt)) (kprintf_step fmt) (0, ap) ;;
  when (negb panicking) (release LPr) ;;
  mret 0.

(** ** What it prints *)

Definition console_out (s : kst fsst) : list Z := c_out (fs_cons (bdev s)).
(** The state with more on the console. *)
Definition con_put (l : list Z) (s : kst fsst) : kst fsst :=
  s <| bdev ::= λ d, d <| fs_cons ::= λ c, c <| c_out ::= λ o, o ++ l |> |> |>.

Lemma con_put_nil s : con_put [] s = s.
Proof.
  assert (∀ c : console, c <| c_out ::= λ o, o ++ [] |> = c) as Hc by (intros []; unfold upd; simpl; unfold upd_c_out; simpl; by rewrite app_nil_r).
  assert (∀ d : fsst, d <| fs_cons ::= λ c, c <| c_out ::= λ o, o ++ [] |> |> = d) as Hd.
  { intros d. transitivity (d <| fs_cons := fs_cons d |>); [unfold upd, upd_fs_cons; simpl; by rewrite Hc|by destruct d]. }
  transitivity (s <| bdev := bdev s |>); [|by destruct s]. unfold con_put. transitivity (s <| bdev := (bdev s) <| fs_cons ::= λ c, c <| c_out ::= λ o, o ++ [] |> |> |>); [done|by rewrite Hd].
Qed.
Lemma con_put_app l1 l2 s : con_put l2 (con_put l1 s) = con_put (l1 ++ l2) s.
Proof. unfold con_put, upd, upd_bdev, upd_fs_cons, upd_c_out. simpl. by rewrite app_assoc. Qed.
Lemma consputc_put c s : 0 ≤ c < 256 → consputc c s = Ok (tt, con_put [c] s).
Proof. intros Hc. unfold consputc. rewrite (proj2 (Z.eqb_neq c 256)) by lia. unfold uartputc, updc, lift_bdev, modify. by rewrite wrap_id by lia. Qed.
Lemma kernel_digits_ok : zlen kernel_digits = 16 ∧ Forall (λ c, 0 ≤ c < 256) kernel_digits.
Proof. split; [done|]. by apply (bool_decide_unpack _). Qed.

Lemma kprintf_item pre t w junk ap ap' s : let fmt := pre ++ item_fmt t ++ w ++ 0 :: junk in
  good_item t → Forall (λ c, 0 < c < 256) w → item_takes t ap ap' →
  ∃ l, item_prints kernel_digits t ap l ap' ∧ kprintf_step fmt (zlen pre, ap) s = Ok (inl (zlen (pre ++ item_fmt t), ap'), con_put l s).
Proof.
  intros fmt Ht Hw Hap. destruct kernel_digits_ok as [Hd1 Hd2]. pose proof (item_bytes t Ht) as Hb. destruct (item_shape t Ht) as [[c ->]|(c & cs & Eit & Hlen)].
  - destruct Ht as [Hc Hne]. simpl in Hap. subst ap'. exists [c]. split; [done|]. unfold kprintf_step.
    rewrite (bind_step _ _ _ _ _ (fmt_at_ok fmt pre c (w ++ 0 :: junk) s eq_refl ltac:(lia))), (proj2 (Z.eqb_neq c 0)), (proj2 (Z.eqb_neq c PCT)) by lia. cbn [negb].
    rewrite (bind_step _ _ _ _ _ (consputc_put c s ltac:(lia))). by rewrite zlen_app.
  - rewrite Eit in Hb. apply Forall_inv_tail in Hb. pose proof (Forall_inv Hb) as Hc. apply Forall_inv_tail in Hb. cbn beta in Hc.
    assert (fmt = (pre ++ [PCT]) ++ c :: (cs ++ w) ++ 0 :: junk) as Hf2 by (unfold fmt; rewrite Eit; by rewrite <-!app_assoc).
    destruct (look_ahead fmt (pre ++ [PCT]) c (cs ++ w) junk s Hf2) as (c1 & c2 & E1 & E2 & Hpre); [lia|by apply Forall_app|].
    destruct (directive_ok kernel_digits consputc con_put consputc_put con_put_nil con_put_app Hd1 Hd2 t c c1 c2 ap ap' s Ht) as (l & Ed & Hl);
      [exists (c :: cs); split; [done|]; apply Hpre; [by exists w|done]|done|].
    exists l. split; [done|]. unfold kprintf_step.
    assert (zlen (pre ++ [PCT]) = zlen pre + 1) as Hz by (by rewrite zlen_app). rewrite Hz in E1, E2. rewrite <-Z.add_assoc in E1, E2.
    rewrite (bind_step _ _ _ _ _ (fmt_at_ok fmt pre PCT (c :: (cs ++ w) ++ 0 :: junk) s ltac:(by rewrite Hf2, <-app_assoc) ltac:(done))).
    change (PCT =? 0) with false. rewrite Z.eqb_refl. cbn [negb]. rewrite <-Hz, (bind_step _ _ _ _ _ (fmt_at_ok fmt _ c ((cs ++ w) ++ 0 :: junk) s Hf2 ltac:(lia))), Hz.
    rewrite (bind_step _ _ _ _ _ E1), (bind_step _ _ _ _ _ E2), (proj2 (Z.eqb_neq c 0)) by lia. rewrite (bind_step _ _ _ _ _ Ed). cbn [fst snd].
    replace (zlen pre + 1 + (zlen (item_fmt t) - 2) + 1) with (zlen (pre ++ item_fmt t)) by (rewrite zlen_app; lia). done.
Qed.
Lemma kprintf_from pre ts junk ap n s : let fmt := pre ++ fmt_of ts ++ 0 :: junk in Forall good_item ts → fmt_takes ts ap →
  (length ts < n)%nat → ∃ l, loop n (kprintf_step fmt) (zlen pre, ap) s = Ok (tt, con_put l s) ∧ fmt_prints kernel_digits ts ap l.
Proof.
  intros fmt Hts. subst fmt. revert pre n s ap. induction Hts as [|t ts Ht Hts IH]; intros pre n s ap Hap Hn; (destruct n as [|n]; [simpl in Hn; lia|]).
  - exists []. split; [|constructor]. rewrite con_put_nil. apply loop_inr. unfold kprintf_step. by rewrite (bind_step _ _ _ _ _ (fmt_at_ok _ pre 0 junk s eq_refl ltac:(lia))).
  - inversion Hap as [|? ? ? ap' Ht' Hap']; subst. simpl fmt_of in *. change (mbind item_fmt ts) with (fmt_of ts) in *.
    destruct (kprintf_item pre t (fmt_of ts) junk ap ap' s Ht (fmt_bytes ts Hts) Ht') as (l & Hl & E).
    destruct (IH (pre ++ item_fmt t) n (con_put l s) ap' Hap') as (l' & E' & Hl'); [simpl in Hn; lia|]. exists (l ++ l'). split; [|by econstructor].
    rewrite <-app_assoc, (loop_inl _ _ _ _ _ _ E). rewrite <-!app_assoc in E'. by rewrite E', con_put_app.
Qed.
Lemma fmt_of_length ts : (length ts ≤ length (fmt_of ts))%nat.
Proof. induction ts as [|t ts IH]; [done|]. simpl. rewrite length_app. change (mbind item_fmt ts) with (fmt_of ts). destruct t; simpl; lia. Qed.

(** C26. The kernel's [printf] prints its format piece by piece too, on the console, as
    one: under [pr.lock], which is free again afterwards; nothing else changes. *)
Theorem kprintf_prints ts ap junk s : Forall good_item ts → fmt_takes ts ap → LPr ∉ held s →
  ∃ l, kprintf false (fmt_of ts ++ 0 :: junk) ap s = Ok (0, con_put l s) ∧ fmt_prints kernel_digits ts ap l.
Proof.
  intros Hts Hap Hl. unfold kprintf. cbn [when negb]. set (s1 := s <| held := {[LPr]} ∪ held s |>).
  destruct (kprintf_from [] ts junk ap (Datatypes.S (length (fmt_of ts ++ 0 :: junk))) s1 Hts Hap) as (l & E & Hp).
  { rewrite length_app. pose proof (fmt_of_length ts). lia. }
  exists l. split; [|done]. assert (acquire LPr s = Ok (tt, s1)) as Ea.
  { unfold acquire. erewrite bind_step by done. by rewrite decide_False. }
  rewrite (bind_step _ _ _ _ _ Ea). rewrite (bind_step _ _ _ _ _ E).
  assert (release LPr (con_put l s1) = Ok (tt, con_put l s)) as Er; [|by rewrite (bind_step _ _ _ _ _ Er)].
  unfold release. erewrite bind_step by done. rewrite decide_True by (unfold con_put, s1, upd; simpl; set_solver).
  unfold modify. apply Ok_pair. unfold con_put, s1, upd, upd_held, upd_bdev. simpl. f_equal.
  apply set_eq. intros x. set_unfold. destruct (decide (x = LPr)) as [->|]; tauto.
Qed.
Lemma kprintf_held fmt ap s : LPr ∈ held s → kprintf false fmt ap s = Panic "acquire".
Proof. intros Hl. unfold kprintf. cbn [when negb]. apply bind_panic. unfold acquire. erewrite bind_step by done. by rewrite decide_True. Qed.
End kprintf.

(** [printf("pid %d: %s\n", -3, "hi")]. *)
Definition fmt_ex : list item := (Lit <$> chars "pid ") ++ [Dec 0] ++ (Lit <$> chars ": ") ++ [String; Lit 10].
Lemma fmt_ex_ok : Forall good_item fmt_ex ∧ fmt_takes fmt_ex [Num (-3); Str (Some [104; 105; 0])].
Proof.
  split; [by repeat first [apply Forall_nil_2|apply Forall_cons_2; [by (done || (simpl; lia))|]]|]. unfold fmt_ex. simpl.
  do 4 (eapply takes_cons; [done|]). eapply takes_cons; [by eexists|]. do 2 (eapply takes_cons; [done|]).
  eapply takes_cons; [exists (Some [104; 105; 0]); split; [done|]; exists [104; 105]; split; [by repeat first [apply Forall_nil_2|apply Forall_cons_2; [done|]]|by exists []]|].
  eapply takes_cons; [done|]. constructor.
Qed.
Lemma kprintf_prints_witness : LPr ∉ held pipe_demo ∧
  ∃ l, kprintf false (fmt_of fmt_ex ++ 0 :: []) [Num (-3); Str (Some [104; 105; 0])] pipe_demo = Ok (0, con_put l pipe_demo) ∧
    fmt_prints kernel_digits fmt_ex [Num (-3); Str (Some [104; 105; 0])] l.
Proof.
  assert (LPr ∉ held pipe_demo) as Hl by (apply (bool_decide_unpack _); by vm_compute). split; [done|].
  apply kprintf_prints; [apply fmt_ex_ok|apply fmt_ex_ok|done].
Defined.
