(* ===== verification/Uart.v ===== *)
(** * The UART driver

    Models the sending half of [kernel/uart.c]: [uartwrite], which sleeps while
    the UART is busy, [uartputc_sync] and [uartintr]; any number of writers, the
    device and its interrupts interleave. Between two of its sleeps [uartwrite]
    holds [tx_lock], so such a piece is one step. [uartputc_sync] runs over the
    interrupt flags of [Spin], and is not among the writers. The device is what the driver
    relies on: it sends the byte in its holding register, then raises an
    interrupt. *)

From stdpp Require Import base numbers list gmap.
From S2P Require Import Prelude.
From S2P Require Import Spin.
Open Scope Z_scope.
Open Scope kernel_scope.

(** ** State *)

(** [tx_busy]; the holding register, the bytes sent and those lost by writing the
    register while it was full. *)
Record uart := MkUart { tx_busy : Z; thr : option Z; sent : list Z; lost : list Z }.
#[global] Instance uart_eta : Eta uart := λ u, MkUart (tx_busy u) (thr u) (sent u) (lost u).
#[global] Instance upd_tx_busy : Upd tx_busy := ltac:(mk_upd).
#[global] Instance upd_thr : Upd thr := ltac:(mk_upd).
#[global] Instance upd_sent : Upd sent := ltac:(mk_upd).
#[global] Instance upd_lost : Upd lost := ltac:(mk_upd).
Abbreviation U := (M uart).

(** [ReadReg(LSR) & LSR_TX_IDLE], [WriteReg(THR, c)]. *)
Definition tx_idle : U bool := gets (λ u, bool_decide (thr u = None)).
Definition write_thr (c : Z) : U unit :=
  t ← gets thr;
  match t with Some old => updf lost (λ l, l ++ [old]) | None => mret tt end ;;
  setf thr (Some (u8 c)).

(** ** The driver *)

(** [uartwrite(buf, n)] from [i] on, with the lock: where it goes to sleep, or the
    end. *)
Definition uartwrite_step (buf : list Z) (i : Z) : U (Z + option Z) :=
  if negb (i <? zlen buf) then mret (inr None) else
  b ← gets tx_busy;
  if negb (b =? 0) then mret (inr (Some i)) else
  c ← opt (znth buf i);
  write_thr c ;;
  setf tx_busy 1 ;;
  mret (inl (i + 1)).
Definition uartwrite_from (buf : list Z) (i : Z) : U (option Z) :=
  loop (Datatypes.S (length buf)) (uartwrite_step buf) i.

(** The UART and the CPUs, for [push_off] and [pop_off]. *)
Record uart_cpus := MkUc { uc_uart : uart; uc_spin : spin }.
Abbreviation UC := (M uart_cpus).
Definition on_uart {A} (m : U A) : UC A := λ s,
  match m (uc_uart s) with
  | Ok (a, u) => Ok (a, MkUc u (uc_spin s)) | Panic e => Panic e | Fault => Fault | Diverge => Diverge
  end.
Definition on_cpus {A} (m : SP A) : UC A := λ s,
  match m (uc_spin s) with
  | Ok (a, c) => Ok (a, MkUc (uc_uart s) c) | Panic e => Panic e | Fault => Fault | Diverge => Diverge
  end.

(** [uartputc_sync(c)] on CPU [me], [panicking] and [panicked] being the flags of
    [printf.c]. It spins for ever after a panic; and while the register is full,
    which the device has to empty: on its own it does not come back. *)
Definition uartputc_sync (me : nat) (panicking panicked c : Z) : UC unit :=
  when (panicking =? 0) (on_cpus (push_off me)) ;;
  if panicked =? 0 then
    idle ← on_uart tx_idle;
    if (idle : bool) then on_uart (write_thr c) ;; when (panicking =? 0) (on_cpus (pop_off me))
    else λ _, Diverge
  else λ _, Diverge.

(** The part of [uartintr] that is about sending: whether it wakes the writers up. *)
Definition uartintr_tx : U bool :=
  b ← tx_idle; if (b : bool) then setf tx_busy 0 ;; mret true else mret false.

(** [uartgetc()] of what has come in, and the rest of [uartintr], the characters
    of which [consoleintr] gets. *)
Definition uartgetc (rx : list Z) : Z * list Z := match rx with c :: rx => (u8 c, rx) | [] => (-1, []) end.
Fixpoint uart_drain {S} (consoleintr : Z → M S unit) (n : nat) (rx : list Z) : M S unit :=
  match n with
  | O => λ _, Diverge
  | Datatypes.S n => let '(c, rx) := uartgetc rx in if c =? -1 then mret tt else consoleintr c ;; uart_drain consoleintr n rx
  end.

(** ** Writers, device and interrupts *)

(** A call of [uartwrite]: its bytes, how far it is, and whether it can run, sleeps
    on [&tx_chan], or has returned. *)
Inductive wstate := Ready | Asleep | Done.
#[global] Instance wstate_eq_dec : EqDecision wstate.
Proof. solve_decision. Defined.
Record writer := MkWriter { w_buf : list Z; w_i : Z; w_st : wstate }.
(** [irq]: an interrupt is pending; [log] is who wrote what into the register. *)
Record sys := MkSys { s_uart : uart; s_irq : bool; s_w : gmap nat writer; s_log : list (nat * Z) }.

Definition wake (w : writer) : writer := match w_st w with Asleep => MkWriter (w_buf w) (w_i w) Ready | _ => w end.
Definition after (w : writer) (r : option Z) : writer :=
  match r with Some i => MkWriter (w_buf w) i Asleep | None => MkWriter (w_buf w) (zlen (w_buf w)) Done end.

Inductive step : sys → sys → Prop :=
| st_call s t buf : s_w s !! t = None → Forall (λ c, 0 ≤ c < 256) buf →
    step s (MkSys (s_uart s) (s_irq s) (<[t := MkWriter buf 0 Ready]> (s_w s)) (s_log s))
| st_run s t w r u' : s_w s !! t = Some w → w_st w = Ready → uartwrite_from (w_buf w) (w_i w) (s_uart s) = Ok (r, u') →
    step s (MkSys u' (s_irq s) (<[t := after w r]> (s_w s))
              (s_log s ++ (pair t <$> drop (Z.to_nat (w_i w)) (take (Z.to_nat (w_i (after w r))) (w_buf w)))))
| st_send s c : thr (s_uart s) = Some c →
    step s (MkSys ((s_uart s) <| thr := None |> <| sent ::= λ l, l ++ [c] |>) true (s_w s) (s_log s))
| st_intr s woken u' : uartintr_tx (s_uart s) = Ok (woken, u') →
    step s (MkSys u' false (if (woken : bool) then wake <$> s_w s else s_w s) (s_log s)).

Definition start : sys := MkSys (MkUart 0 None [] []) false ∅ [].

(** ** What the driver keeps *)

Definition sent_by (t : nat) (l : list (nat * Z)) : list Z := snd <$> filter (λ x, x.1 = t) l.
Record uart_ok (u : uart) : Prop := {
  uo_busy : tx_busy u = 0 ∨ tx_busy u = 1;
  uo_full : thr u ≠ None → tx_busy u = 1;
  uo_lost : lost u = [];
}.
Record writer_ok (l : list (nat * Z)) (u : uart) (t : nat) (w : writer) : Prop := {
  wo_bytes : Forall (λ c, 0 ≤ c < 256) (w_buf w);
  wo_i : 0 ≤ w_i w ≤ zlen (w_buf w);
  wo_sent : sent_by t l = take (Z.to_nat (w_i w)) (w_buf w);
  wo_done : w_st w = Done → w_i w = zlen (w_buf w);
  wo_asleep : w_st w = Asleep → tx_busy u = 1;
}.
Record sys_ok (s : sys) : Prop := {
  so_uart : uart_ok (s_uart s);
  so_irq : tx_busy (s_uart s) = 1 → thr (s_uart s) ≠ None ∨ s_irq s = true;
  so_log : sent (s_uart s) ++ option_list (thr (s_uart s)) = snd <$> s_log s;
  so_w : map_Forall (writer_ok (s_log s) (s_uart s)) (s_w s);
  so_new : ∀ t, s_w s !! t = None → sent_by t (s_log s) = [];
}.

Lemma sent_by_app t l1 l2 : sent_by t (l1 ++ l2) = sent_by t l1 ++ sent_by t l2.
Proof. unfold sent_by. by rewrite filter_app, fmap_app. Qed.
Lemma sent_by_self t l : sent_by t (pair t <$> l) = l.
Proof. unfold sent_by. induction l as [|c l IH]; [done|]. rewrite fmap_cons, filter_cons_True by done. by rewrite fmap_cons, IH. Qed.
Lemma sent_by_other t t' l : t ≠ t' → sent_by t' (pair t <$> l) = [].
Proof. intros Ht. unfold sent_by. induction l as [|c l IH]; [done|]. rewrite fmap_cons, filter_cons_False; done. Qed.

(** A piece of [uartwrite] gives the UART one byte or none. *)
Lemma uartwrite_from_ok u buf i : uart_ok u → Forall (λ c, 0 ≤ c < 256) buf → 0 ≤ i ≤ zlen buf →
  (i = zlen buf ∧ uartwrite_from buf i u = Ok (None, u)) ∨
  (tx_busy u = 1 ∧ uartwrite_from buf i u = Ok (Some i, u)) ∨
  ∃ c, znth buf i = Some c ∧ tx_busy u = 0 ∧ thr u = None ∧
    uartwrite_from buf i u = Ok (if i + 1 =? zlen buf then None else Some (i + 1), MkUart 1 (Some c) (sent u) (lost u)).
Proof.
  intros [Hb Hf Hl] Hbytes Hi. unfold uartwrite_from. destruct (decide (i = zlen buf)) as [->|Hne].
  { left. split; [done|]. apply loop_inr. unfold uartwrite_step. by rewrite (proj2 (Z.ltb_ge _ _)) by lia. }
  right. destruct Hb as [Hb|Hb].
  - right. destruct (znth_lt buf i) as [c Hc]; [lia|]. exists c.
    assert (thr u = None) as Ht by (destruct (thr u) eqn:E; [|done]; rewrite Hf in Hb by done; done). split_and!; [done..|].
    assert (0 ≤ c < 256) as Hcb by (rewrite Forall_forall in Hbytes; apply Hbytes; unfold znth in Hc; destruct (0 <=? i); [by eapply list_elem_of_lookup_2|done]).
    destruct u as [b0 t0 s0 l0]. cbn [tx_busy thr lost sent] in *. subst b0 t0 l0.
    erewrite loop_inl.
    2: { unfold uartwrite_step. rewrite (proj2 (Z.ltb_lt i _)) by lia. cbn [negb]. erewrite bind_step by done. cbn [tx_busy Z.eqb negb].
      rewrite (bind_step _ _ _ _ _ (opt_ok _ _ _ Hc)). done. }
    destruct buf as [|c0 buf]; [by rewrite znth_ge in Hc by (change (zlen (@nil Z)) with 0; lia)|]. apply loop_inr. unfold uartwrite_step. rewrite (wrap_id 8 c) by lia.
    destruct (Z.ltb_spec (i + 1) (zlen (c0 :: buf))); cbn [negb].
    + rewrite (proj2 (Z.eqb_neq (i + 1) _)) by lia. done.
    + rewrite (proj2 (Z.eqb_eq (i + 1) _)) by lia. done.
  - left. split; [done|]. apply loop_inr. unfold uartwrite_step. rewrite (proj2 (Z.ltb_lt i _)) by lia. cbn [negb]. erewrite bind_step by done. by rewrite Hb.
Qed.
Lemma uartintr_tx_ok u : uart_ok u →
  (thr u = None ∧ uartintr_tx u = Ok (true, u <| tx_busy := 0 |>)) ∨ (thr u ≠ None ∧ uartintr_tx u = Ok (false, u)).
Proof.
  intros Hu. unfold uartintr_tx, tx_idle. destruct (thr u) as [c|] eqn:E; [right|left]; (split; [done|]);
    erewrite bind_step by done; rewrite E; done.
Qed.
Lemma wake_ok l u u' t w : writer_ok l u t w → writer_ok l u' t (wake w).
Proof. intros [Hb Hi Hs Hd Ha]. unfold wake. destruct (w_st w) eqn:E; constructor; simpl; try done; rewrite ?E; try done; naive_solver. Qed.
Lemma writer_ok_uart l u u' t w : writer_ok l u t w → (tx_busy u = 1 → tx_busy u' = 1) → writer_ok l u' t w.
Proof. intros [Hb Hi Hs Hd Ha] Hu. constructor; try done. intros Hw. by apply Hu, Ha. Qed.
Lemma writer_ok_log l l2 u t w : writer_ok l u t w → sent_by t l2 = [] → writer_ok (l ++ l2) u t w.
Proof. intros [Hb Hi Hs Hd Ha] Hl. constructor; try done. by rewrite sent_by_app, Hl, app_nil_r. Qed.

Lemma start_ok : sys_ok start.
Proof. constructor; [by constructor; [left| |]|done|done|by apply map_Forall_empty|done]. Qed.

Lemma run_ok s t w r u' : sys_ok s → s_w s !! t = Some w → w_st w = Ready → uartwrite_from (w_buf w) (w_i w) (s_uart s) = Ok (r, u') →
  sys_ok (MkSys u' (s_irq s) (<[t := after w r]> (s_w s))
    (s_log s ++ (pair t <$> drop (Z.to_nat (w_i w)) (take (Z.to_nat (w_i (after w r))) (w_buf w))))).
Proof.
  intros Hs Hw Hst E. pose proof (so_uart _ Hs) as Hu. pose proof (so_w _ Hs t w Hw) as Hwo. pose proof (wo_i _ _ _ _ Hwo) as Hi.
  assert (∀ i j, 0 ≤ j ≤ i → drop (Z.to_nat i) (take (Z.to_nat j) (w_buf w)) = []) as Hnil by (intros i j ?; apply drop_ge; rewrite length_take; lia).
  assert (∀ t' l, t' ≠ t → sent_by t' l = [] → sent_by t' (l ++ (pair t <$> drop (Z.to_nat (w_i w)) (take (Z.to_nat (w_i (after w r))) (w_buf w)))) = []) as Hother.
  { intros t' l Ht' Hl. by rewrite sent_by_app, Hl, sent_by_other. }
  destruct (uartwrite_from_ok _ _ _ Hu (wo_bytes _ _ _ _ Hwo) Hi) as [[Hend E']|[[Hb E']|(c & Hc & Hb & Ht & E')]]; rewrite E' in E; injection E as <- <-.
  - simpl. rewrite <-Hend, Hnil, app_nil_r by lia. destruct Hs as [H1 H2 H3 H4 H5]. constructor; try done.
    + apply map_Forall_insert_2; [|done]. destruct Hwo as [B I S D A]. constructor; simpl; [done|lia|rewrite S; f_equal; lia|by intros _|done].
    + intros t' Ht'. cbn [s_w] in Ht'. apply lookup_insert_None in Ht' as [? ?]. by apply H5.
  - simpl. rewrite Hnil, app_nil_r by lia. destruct Hs as [H1 H2 H3 H4 H5]. constructor; try done.
    + apply map_Forall_insert_2; [|done]. destruct Hwo as [B I S D A]. by constructor.
    + intros t' Ht'. cbn [s_w] in Ht'. apply lookup_insert_None in Ht' as [? ?]. by apply H5.
  - set (i := w_i w) in *. pose proof (znth_Some _ _ _ Hc) as Hi2. destruct Hs as [H1 H2 H3 H4 H5].
    assert (w_i (after w (if i + 1 =? zlen (w_buf w) then None else Some (i + 1))) = i + 1) as Ei.
    { destruct (Z.eqb_spec (i + 1) (zlen (w_buf w))) as [->|]; done. }
    rewrite Ei in *. assert (take (Z.to_nat (i + 1)) (w_buf w) = take (Z.to_nat i) (w_buf w) ++ [c]) as Etake.
    { replace (Z.to_nat (i + 1)) with (S (Z.to_nat i)) by lia. apply take_S_r. unfold znth in Hc. by destruct (Z.leb_spec 0 i); [|lia]. }
    assert (drop (Z.to_nat i) (take (Z.to_nat (i + 1)) (w_buf w)) = [c]) as Edrop.
    { rewrite Etake, drop_app_length'; [done|]. rewrite length_take. unfold zlen in Hi2. lia. }
    rewrite Edrop in *. constructor; simpl.
    + destruct H1 as [_ _ L]. constructor; simpl; [by right|done|done].
    + by left.
    + rewrite fmap_app, <-H3, Ht. simpl. by rewrite app_nil_r.
    + intros t' w' Hw'. cbn [s_w] in Hw'. apply lookup_insert_Some in Hw' as [[<- <-]|[Hne Hw']].
      * destruct Hwo as [B I S D A]. constructor; simpl.
        -- by destruct (i + 1 =? zlen (w_buf w)).
        -- destruct (Z.eqb_spec (i + 1) (zlen (w_buf w))); simpl; lia.
        -- rewrite Ei, sent_by_app, S. change [(t, c)] with (pair t <$> [c]). rewrite sent_by_self. fold i. rewrite <-Etake. by destruct (i + 1 =? zlen (w_buf w)).
        -- by destruct (Z.eqb_spec (i + 1) (zlen (w_buf w))).
        -- done.
      * apply writer_ok_log; [|by apply (sent_by_other t t' [c])]. by apply (writer_ok_uart _ (s_uart s)); [apply H4|].
    + intros t' Ht'. cbn [s_w] in Ht'. apply lookup_insert_None in Ht' as [? Hne]. apply Hother; [done|by apply H5].
Qed.

Lemma step_ok s s' : sys_ok s → step s s' → sys_ok s'.
Proof.
  intros Hs Hstep. destruct Hstep as [s t buf Ht Hbuf|s t w r u' Hw Hst E|s c Hc|s woken u' E].
  - destruct Hs as [H1 H2 H3 H4 H5]. constructor; try done.
    + intros t' w' Hw'. cbn [s_w] in Hw'. apply lookup_insert_Some in Hw' as [[<- <-]|[Hne Hw']]; [|by apply H4]. pose proof (zlen_nonneg buf). constructor; simpl; try done. by apply H5.
    + intros t' Ht'. cbn [s_w] in Ht'. apply lookup_insert_None in Ht' as [? ?]. by apply H5.
  - by apply run_ok.
  - destruct Hs as [H1 H2 H3 H4 H5]. constructor; simpl; try done.
    + destruct H1 as [B F L]. by constructor.
    + by right.
    + rewrite <-H3, Hc. simpl. by rewrite app_nil_r.
    + intros t w Hw. apply (writer_ok_uart _ (s_uart s)); [by apply H4|done].
  - destruct Hs as [H1 H2 H3 H4 H5]. destruct (uartintr_tx_ok _ H1) as [[Ht E']|[Ht E']]; rewrite E' in E; injection E as <- <-.
    + constructor; simpl; try done.
      * destruct H1 as [B F L]. constructor; simpl; [by left|done|done].
      * intros t w Hw. rewrite lookup_fmap_Some in Hw. destruct Hw as (w0 & <- & Hw0). eapply wake_ok. by apply H4.
      * intros t Ht'. rewrite lookup_fmap in Ht'. apply H5. by destruct (s_w s !! t).
    + constructor; simpl; try done. by left.
Qed.

(** ** The theorem *)

Lemma rtc_ok s s' : rtc step s s' → sys_ok s → sys_ok s'.
Proof. induction 1 as [|x y z Hxy _ IH]; [done|]. intros Hx. by eapply IH, step_ok. Qed.
Lemma reachable_ok s : rtc step start s → sys_ok s.
Proof. intros H. eapply rtc_ok; [exact H|apply start_ok]. Qed.

(** One more byte of a call, or its end, can always be reached. *)
Lemma run_progress s t w : sys_ok s → s_w s !! t = Some w → w_st w ≠ Done →
  ∃ s' w', rtc step s s' ∧ s_w s' !! t = Some w' ∧ w_buf w' = w_buf w ∧ (w_st w' = Done ∨ w_i w < w_i w').
Proof.
  assert (∀ s w, sys_ok s → s_w s !! t = Some w → w_st w = Ready → tx_busy (s_uart s) = 0 →
    ∃ s' w', rtc step s s' ∧ s_w s' !! t = Some w' ∧ w_buf w' = w_buf w ∧ (w_st w' = Done ∨ w_i w < w_i w')) as Hready.
  { clear s w. intros s w Hs Hw Hst Hb. pose proof (so_w _ Hs t w Hw) as Hwo.
    destruct (uartwrite_from_ok _ _ _ (so_uart _ Hs) (wo_bytes _ _ _ _ Hwo) (wo_i _ _ _ _ Hwo)) as [[Hend E]|[[Hb' E]|(c & Hc & _ & Ht & E)]]; [|congruence|];
      (eexists _, (after w _); split; [apply rtc_once; by eapply st_run|]; cbn [s_w]; rewrite lookup_insert_eq; split; [done|]).
    - split; [done|by left].
    - destruct (Z.eqb_spec (w_i w + 1) (zlen (w_buf w))); (split; [done|]); [by left|right; simpl; lia]. }
  assert (∀ s w, sys_ok s → s_w s !! t = Some w → w_st w ≠ Done → thr (s_uart s) = None →
    ∃ s' w', rtc step s s' ∧ s_w s' !! t = Some w' ∧ w_buf w' = w_buf w ∧ (w_st w' = Done ∨ w_i w < w_i w')) as Hempty.
  { clear s w. intros s w Hs Hw Hst Ht. destruct (uartintr_tx_ok _ (so_uart _ Hs)) as [[_ E]|[? _]]; [|done].
    assert (step s (MkSys ((s_uart s) <| tx_busy := 0 |>) false (wake <$> s_w s) (s_log s))) as Hstep by exact (st_intr s true _ E).
    destruct (Hready _ (wake w) (step_ok _ _ Hs Hstep)) as (s' & w' & Hrtc & Hw' & Hbuf & Hp); [simpl; by rewrite lookup_fmap, Hw| |done|].
    - unfold wake. by destruct (w_st w) eqn:E'.
    - exists s', w'. split_and!; [by eapply rtc_l|done|rewrite Hbuf; unfold wake; by destruct (w_st w)|].
      destruct Hp as [?|Hp]; [by left|right]. unfold wake in Hp. by destruct (w_st w). }
  intros Hs Hw Hst. destruct (thr (s_uart s)) as [c|] eqn:Ht; [|by apply Hempty].
  pose proof (st_send s c Ht) as Hstep. destruct (Hempty _ w (step_ok _ _ Hs Hstep)) as (s' & w' & Hrtc & Hrest); [done|done|done|].
  exists s', w'. split; [by eapply rtc_l|done].
Qed.

(** C25. The driver sends what it is given. Whatever calls of [uartwrite], sends of
    the device and interrupts interleave: no byte is written over another that has
    not been sent; the line shows, in the order of the writes, the bytes written;
    of each call these are the first [i] of its buffer, in order, all of them once
    it has returned. No wakeup is lost: from every state each call can still
    return. *)
Theorem uartwrite_sends s : rtc step start s →
  lost (s_uart s) = [] ∧ sent (s_uart s) ++ option_list (thr (s_uart s)) = snd <$> s_log s ∧
  ∀ t w, s_w s !! t = Some w →
    sent_by t (s_log s) = take (Z.to_nat (w_i w)) (w_buf w) ∧ (w_st w = Done → sent_by t (s_log s) = w_buf w) ∧
    ∃ s' w', rtc step s s' ∧ s_w s' !! t = Some w' ∧ w_buf w' = w_buf w ∧ w_st w' = Done.
Proof.
  intros Hr%reachable_ok. split_and!; [apply uo_lost, Hr|apply Hr|]. intros t w Hw. pose proof (so_w _ Hr t w Hw) as Hwo.
  split_and!; [apply Hwo|intros Hd; rewrite (wo_sent _ _ _ _ Hwo), (wo_done _ _ _ _ Hwo Hd); apply take_ge; unfold zlen; lia|].
  assert (∀ n s w, sys_ok s → s_w s !! t = Some w → (Z.to_nat (zlen (w_buf w) - w_i w) < n)%nat →
    ∃ s' w', rtc step s s' ∧ s_w s' !! t = Some w' ∧ w_buf w' = w_buf w ∧ w_st w' = Done) as Hfin; [|by eapply (Hfin (S _)); [| |apply Nat.lt_succ_diag_r]].
  clear s w Hr Hw Hwo. intros n. induction n as [|n IH]; intros s w Hs Hw Hn; [lia|]. destruct (decide (w_st w = Done)) as [Hd|Hd].
  { exists s, w. by split_and!; [apply rtc_refl|..]. }
  destruct (run_progress s t w Hs Hw Hd) as (s1 & w1 & Hr1 & Hw1 & Hb1 & Hp).
  destruct Hp as [Hp|Hp]; [by exists s1, w1|].
  pose proof (rtc_ok _ _ Hr1 Hs) as Hs1.
  pose proof (wo_i _ _ _ _ (so_w _ Hs1 t w1 Hw1)). rewrite Hb1 in *.
  destruct (IH s1 w1 Hs1 Hw1) as (s2 & w2 & Hr2 & Hw2 & Hb2 & Hd2); [rewrite Hb1; lia|].
  exists s2, w2. split_and!; [by etrans|done|by rewrite Hb2|done].
Qed.

(** The same without interrupts: with the register empty, [uartputc_sync] puts the
    character in it, loses nothing, and leaves the CPU's nesting of [push_off] and
    its interrupts as they were. *)
Lemma uartputc_sync_ok me panicking c u sp : let x := sp_cpus sp me in
  thr u = None → 0 ≤ c_noff x < 2147483647 → (c_noff x ≠ 0 → c_sie x = false) →
  ∃ sp', uartputc_sync me panicking 0 c (MkUc u sp) = Ok (tt, MkUc (u <| thr := Some (u8 c) |>) sp') ∧
    c_noff (sp_cpus sp' me) = c_noff x ∧ c_sie (sp_cpus sp' me) = c_sie x ∧ sp_locks sp' = sp_locks sp ∧
    ∀ d, d ≠ me → sp_cpus sp' d = sp_cpus sp d.
Proof.
  intros x Ht Hn Hs. subst x.
  assert (∀ sp, on_uart tx_idle (MkUc u sp) = Ok (true, MkUc u sp)) as Hi.
  { intros sp'. unfold on_uart, tx_idle. mred. by rewrite Ht. }
  assert (∀ sp, on_uart (write_thr c) (MkUc u sp) = Ok (tt, MkUc (u <| thr := Some (u8 c) |>) sp)) as Hw.
  { intros sp'. unfold on_uart, write_thr. mred. rewrite Ht. reflexivity. }
  unfold uartputc_sync. change (0 =? 0) with true. cbv iota. destruct (panicking =? 0); cbn [when].
  - destruct (push_off_ok me sp Hn) as (sp1 & E1 & L1 & [C1 O1]).
    erewrite bind_step by (unfold on_cpus; simpl; rewrite E1; reflexivity).
    rewrite (bind_step _ _ _ _ _ (Hi sp1)). cbv iota. rewrite (bind_step _ _ _ _ _ (Hw sp1)).
    destruct (pop_off_ok me sp1) as (sp2 & E2 & L2 & [C2 O2]); [rewrite C1; simpl; lia|by rewrite C1|].
    exists sp2. split; [unfold on_cpus; simpl; by rewrite E2|]. rewrite C2, C1. simpl. split; [lia|].
    split; [|split; [congruence|intros d Hd; by rewrite O2, O1]]. rewrite Z.add_simpl_r.
    destruct (Z.eqb_spec (c_noff (sp_cpus sp me)) 0) as [|E]; [done|]. by rewrite Hs.
  - exists sp. erewrite bind_step by reflexivity. rewrite (bind_step _ _ _ _ _ (Hi sp)). cbv iota.
    rewrite (bind_step _ _ _ _ _ (Hw sp)). done.
Qed.
(** [uartintr] gives [consoleintr] every character that came in, in order. *)
Lemma uart_drain_all {S} (consoleintr : Z → M S unit) n rx s : (length rx < n)%nat →
  uart_drain consoleintr n rx s = for_each consoleintr (wrap 8 <$> rx) s.
Proof.
  revert rx s. induction n as [|n IH]; intros rx s Hn; [lia|]. destruct rx as [|c rx]; [done|]. cbn [uart_drain uartgetc fmap list_fmap for_each].
  rewrite (proj2 (Z.eqb_neq (u8 c) (-1))) by (pose proof (Z.mod_pos_bound c (2 ^ 8)); unfold wrap; lia).
  apply M_bind_ext_r. intros [] s'. apply IH. simpl in Hn. lia.
Qed.

(** A call of two bytes: the first is on its way, and the call sleeps. *)
Definition sys_ex : sys := MkSys (MkUart 1 (Some 72) [] []) false {[0%nat := MkWriter [72; 105] 1 Asleep]} [(0%nat, 72)].
Lemma sys_ex_reachable : rtc step start sys_ex.
Proof.
  set (s1 := MkSys (MkUart 0 None [] []) false {[0%nat := MkWriter [72; 105] 0 Ready]} []).
  eapply (rtc_l _ _ s1); [|apply rtc_once].
  - apply (st_call start 0%nat [72; 105]); [done|by apply (bool_decide_unpack _)].
  - apply (st_run s1 0%nat (MkWriter [72; 105] 0 Ready) (Some 1) (MkUart 1 (Some 72) [] [])); done.
Qed.
Lemma uartwrite_sends_witness : lost (s_uart sys_ex) = [] ∧ sent_by 0%nat (s_log sys_ex) = [72] ∧
  ∃ s' w', rtc step sys_ex s' ∧ s_w s' !! 0%nat = Some w' ∧ w_buf w' = [72; 105] ∧ w_st w' = Done.
Proof.
  destruct (uartwrite_sends sys_ex sys_ex_reachable) as (H1 & _ & H2). destruct (H2 0%nat (MkWriter [72; 105] 1 Asleep) eq_refl) as (H3 & _ & H4).
  split_and!; [exact H1|exact H3|exact H4].
Defined.
