(* ===== verification/Init.v ===== *)
(** * The first program

    Models [user/init.c]: the process that opens the console and keeps a shell
    running, as a tree of system calls like the shell itself. *)

From stdpp Require Import base numbers list gmap strings.
From S2P Require Import Prelude Print PrintProps Sh ShProps ShRun ShRunProps.
Open Scope Z_scope.
Open Scope kernel_scope.

Definition CONSOLE : Z := 1.
Definition console_path : list Z := chars "console".
(** [printf(...)], to standard output. *)
Definition oprintf (fmt : list Z) (k : prog) : prog := fdprintf 1 fmt [] k.

(** The inner loop: wait until the shell, [pid], exits; [m] waits at most. *)
Fixpoint init_wait (m : nat) (pid : Z) (again : prog) : prog :=
  match m with
  | O => Stuck
  | S m => Wait (λ wpid,
      if wpid =? pid then again
      else if wpid <? 0 then oprintf (chars "init: wait returned an error" ++ [10]) (Exit 1)
      else init_wait m pid again)
  end.
(** The outer loop, [n] shells at most. *)
Fixpoint init_loop (m n : nat) : prog :=
  match n with
  | O => Stuck
  | S n =>
      oprintf (chars "init: starting sh" ++ [10]) (Fork (λ pid,
        if pid <? 0 then oprintf (chars "init: fork failed" ++ [10]) (Exit 1)
        else if pid =? 0 then Exec [chars "sh"] (oprintf (chars "init: exec sh failed" ++ [10]) (Exit 1))
        else init_wait m pid (init_loop m n)))
  end.
Definition init_main (m n : nat) : prog :=
  let go := Dup 0 (Dup 0 (init_loop m n)) in
  Open console_path O_RDWR (λ fd, if fd <? 0 then Mknod console_path CONSOLE 0 (Open console_path O_RDWR (λ _, go)) else go).

(** ** What it runs *)

Definition console_fds : fds := let f := File console_path O_RDWR in <[2 := f]> (<[1 := f]> {[0 := f]}).
Lemma console_std : std console_fds.
Proof. done. Qed.

Lemma oprintf_exec s k t o I : Forall (λ c, (0 < c < 256) ∧ c ≠ PCT) s → exec t (oprintf s k) o I ↔ exec t k o I.
Proof.
  intros Hs. apply fdprintf_exec. destruct (vprintf_user (Lit <$> s) [] [] []) as (l & E & _).
  - by apply lits_good.
  - rewrite <-(app_nil_r (Lit <$> s)). apply takes_lits. constructor.
  - rewrite fmt_of_lits in E. by exists l.
Qed.
Definition only_sh (t : fds) (o : obs) : Prop := Forall (λ x, x = ([chars "sh"], t)) (launches o).

Lemma init_wait_sh m pid again t o I : (∀ o I, exec t again o I → only_sh t o) → exec t (init_wait m pid again) o I → only_sh t o.
Proof.
  intros Hagain. revert o I. induction m as [|m IH]; intros o I; cbn [init_wait]; [by inversion 1; constructor|].
  inversion 1 as [| | | | | | | | | | | | |? r ? o' ? He| | | |]; subst. revert He. unfold only_sh. cbn [launches]. destruct (r =? pid); [apply Hagain|].
  destruct (r <? 0); [|apply IH]. rewrite oprintf_exec by (by apply (bool_decide_unpack _)). intros [-> _]%exec_exit. constructor.
Qed.
Lemma init_loop_sh m n t o I : exec t (init_loop m n) o I → only_sh t o.
Proof.
  revert o I. induction n as [|n IH]; intros o I; cbn [init_loop]; [by inversion 1; constructor|].
  rewrite oprintf_exec by (by apply (bool_decide_unpack _)). inversion 1 as [| | | | | | | | | | |? pid ? oc op Ic Ip Hpid Hdis Hc Hpar|? ? ? ? He| | | | |]; subst.
  - cbn beta in *. change (0 <? 0) with false in Hc. change (0 =? 0) with true in Hc. cbn match in Hc. rewrite (proj2 (Z.ltb_ge pid 0)), (proj2 (Z.eqb_neq pid 0)) in Hpar by lia.
    unfold only_sh. cbn [launches]. apply Forall_app. split; [|by eapply init_wait_sh; [|exact Hpar]].
    rewrite exec_Exec, oprintf_exec, exec_exit in Hc by (by apply (bool_decide_unpack _)). destruct Hc as [[-> _]|[-> _]]; [by apply Forall_singleton|constructor].
  - cbn beta in He. change (-1 <? 0) with true in He. cbn match in He. rewrite oprintf_exec in He by (by apply (bool_decide_unpack _)). apply exec_exit in He as [-> _]. constructor.
Qed.
Lemma dup_console t o I k : t = {[0 := File console_path O_RDWR]} ∨ t = ∅ → exec t (Dup 0 (Dup 0 k)) o I → ∃ t', (t' = console_fds ∨ t' = ∅) ∧ exec t' k o I.
Proof.
  intros [->| ->] H; [|].
  - rewrite (exec_dup _ 0 (File console_path O_RDWR) 1), (exec_dup _ 0 (File console_path O_RDWR) 2) in H; [|done..]. exists console_fds. split; [by left|].
    assert (console_fds = <[2:=File console_path O_RDWR]> (<[1:=File console_path O_RDWR]> {[0 := File console_path O_RDWR]})) as -> by done. exact H.
  - exists ∅. split; [by right|]. inversion H as [| | | | | | |? ? ? ? ? ? ? Hl|? ? ? ? ? ? He| | | | | | | | |]; subst; [done|].
    inversion He as [| | | | | | |? ? ? ? ? ? ? Hl|? ? ? ? ? ? He2| | | | | | | | |]; subst; [done|]. done.
Qed.

(** [init] starts shells and nothing else, and each of them with the console as
    its three descriptors, as the shell expects, if the console could be opened at
    all. *)
Theorem init_starts_sh m n o I : exec ∅ (init_main m n) o I →
  Forall (λ x, x.1 = [chars "sh"] ∧ (x.2 = console_fds ∨ x.2 = ∅)) (launches o).
Proof.
  assert (∀ t o I, t = {[0 := File console_path O_RDWR]} ∨ t = ∅ → exec t (Dup 0 (Dup 0 (init_loop m n))) o I →
    Forall (λ x, x.1 = [chars "sh"] ∧ (x.2 = console_fds ∨ x.2 = ∅)) (launches o)) as Hgo.
  { intros t o' I' Ht H. destruct (dup_console _ _ _ _ Ht H) as (t' & Ht' & H'). eapply Forall_impl; [by eapply init_loop_sh|]. by intros x ->. }
  assert (lowest_fd ∅ = Some 0) as H0 by done. unfold init_main. rewrite (exec_open _ _ _ 0) by done. intros [H|H]; cbn beta in H.
  - change (0 <? 0) with false in H. cbn match in H. eapply Hgo; [|exact H]. by left.
  - change (-1 <? 0) with true in H. cbn match in H. rewrite exec_mknod, (exec_open _ _ _ 0) in H by done. destruct H as [H|H]; (eapply Hgo; [|exact H]); [by left|by right].
Qed.

(** A run: the shell is started, exits, and [init] goes to start the next. *)
Definition init_ex : obs := OFork (ORun [chars "sh"] console_fds) (OWait OStuck).
Lemma init_ex_runs : exec ∅ (init_main 1 1) init_ex ∅.
Proof.
  unfold init_main. rewrite (exec_open _ _ _ 0) by done. left. cbn beta. change (0 <? 0) with false. cbn match.
  rewrite (exec_dup _ 0 (File console_path O_RDWR) 1), (exec_dup _ 0 (File console_path O_RDWR) 2) by done. cbn [init_loop].
  rewrite oprintf_exec by (by apply (bool_decide_unpack _)). unfold init_ex. rewrite <-(union_empty_l_L (∅ : gset Z)).
  apply (ex_fork _ 2); [done|set_solver|apply ex_exec|]. cbn beta. change (2 <? 0) with false. change (2 =? 0) with false. cbn match. cbn [init_wait].
  apply (ex_wait _ 2). apply ex_stuck.
Qed.
Lemma init_starts_sh_witness : launches init_ex = [([chars "sh"], console_fds)] ∧
  Forall (λ x, x.1 = [chars "sh"] ∧ (x.2 = console_fds ∨ x.2 = ∅)) (launches init_ex).
Proof. split; [done|]. apply (init_starts_sh 1 1 init_ex ∅), init_ex_runs. Defined.
