(* ===== verification/Wc.v ===== *)
(** * wc

    Models [user/wc.c]: the counts, over the pieces that [read] cuts a file into,
    and what is printed. *)

From stdpp Require Import base numbers list strings.
From S2P Require Import Prelude Print PrintProps Sh.
Open Scope Z_scope.
Open Scope kernel_scope.

(** [ \r\t\n\v], and [strchr] of it. *)
Definition blanks : list Z := [SPACE; CR; TAB; LF; VT].
Record counts := MkCounts { n_l : Z; n_w : Z; n_c : Z; inword : bool }.

(** The body of the inner loop. *)
Definition wc_char (x : counts) (ch : Z) : counts :=
  let l := if ch =? LF then i32 (n_l x + 1) else n_l x in
  let c := i32 (n_c x + 1) in
  if inb blanks ch then MkCounts l (n_w x) c false
  else if negb (inword x) then MkCounts l (i32 (n_w x + 1)) c true
  else MkCounts l (n_w x) c true.
(** What [read] returns: some bytes, none of them ([Eof], or no bytes) at the end of
    the file, or an error. *)
Inductive read_result := Bytes (l : list Z) | Eof | Error.
(** The outer loop, which ends when [read] returns 0: [None] is a read error. *)
Fixpoint wc_loop (x : counts) (rs : list read_result) : option counts :=
  match rs with
  | Bytes [] :: _ | Eof :: _ => Some x
  | Bytes l :: rs => wc_loop (fold_left wc_char l x) rs
  | Error :: _ => None
  | [] => Some x
  end.
(** [wc(fd, name)]; the answer is whether it returns, or exits with 1. *)
Definition wc (rs : list read_result) (name : list Z) : M (list Z) bool :=
  match wc_loop (MkCounts 0 0 0 false) rs with
  | None => fprintf (chars "wc: read error" ++ [10; 0]) [] ;; mret false
  | Some x => fprintf (chars "%d %d %d %s" ++ [10; 0]) [Num (n_l x); Num (n_w x); Num (n_c x); Str (Some name)] ;; mret true
  end.

(** ** Words *)

(** The parts between blanks, some of them empty. *)
Fixpoint parts (s : list Z) : list (list Z) :=
  match s with
  | [] => [[]]
  | c :: s => if inb blanks c then [] :: parts s else match parts s with w :: ws => (c :: w) :: ws | [] => [[c]] end
  end.
Definition words (s : list Z) : list (list Z) := filter (λ w, w ≠ []) (parts s).
Definition lines (s : list Z) : Z := zlen (filter (λ c, c = LF) s).

(** How many words start in [s], behind a word or not. *)
Definition starts (inw : bool) (s : list Z) : Z :=
  zlen (words s) - (if inw then match parts s with [] :: _ => 0 | _ => 1 end else 0).
Lemma parts_cons s : ∃ w ws, parts s = w :: ws.
Proof. destruct s as [|c s]; cbn [parts]; [by eexists _, _|]. destruct (inb blanks c); [by eexists _, _|]. destruct (parts s) as [|w ws]; by eexists _, _. Qed.
Lemma starts_nil inw : starts inw [] = 0.
Proof. by destruct inw. Qed.
Lemma starts_cons inw c s : starts inw (c :: s) =
  if inb blanks c then starts false s else if negb inw then 1 + starts true s else starts true s.
Proof.
  unfold starts, words. cbn [parts]. destruct (parts_cons s) as (w & ws & ->). destruct (inb blanks c).
  - rewrite filter_cons_False by (by intros []). destruct inw; lia.
  - assert (∀ w' ws', zlen (filter (λ w, w ≠ []) (w' :: ws')) = (if decide (w' = []) then 0 else 1) + zlen (filter (λ w : list Z, w ≠ []) ws')) as Hz.
    { intros w' ws'. rewrite filter_cons. unfold zlen. destruct (decide (w' ≠ [])), (decide (w' = [])); simpl; try lia; tauto. }
    rewrite !Hz. destruct (decide (c :: w = [])); [done|]. destruct inw, w; simpl; lia.
Qed.
Lemma starts_bounds inw s : 0 ≤ starts inw s ≤ zlen s.
Proof.
  revert inw. induction s as [|c s IH]; intros inw; [rewrite starts_nil; done|]. rewrite starts_cons. assert (zlen (c :: s) = 1 + zlen s) as -> by (unfold zlen; simpl; lia).
  pose proof (IH true). pose proof (IH false). destruct (inb blanks c), inw; simpl; lia.
Qed.
Lemma lines_cons c s : lines (c :: s) = (if c =? LF then 1 else 0) + lines s.
Proof.
  unfold lines. rewrite filter_cons. destruct (Z.eqb_spec c LF), (decide (c = LF)); try done. unfold zlen. simpl. lia.
Qed.
Lemma lines_bounds s : 0 ≤ lines s ≤ zlen s.
Proof. induction s as [|c s IH]; [done|]. rewrite lines_cons. assert (zlen (c :: s) = 1 + zlen s) as -> by (unfold zlen; simpl; lia). destruct (c =? LF); lia. Qed.

Lemma wc_chars s x : 0 ≤ n_l x ≤ n_c x → 0 ≤ n_w x ≤ n_c x → n_c x + zlen s < 2 ^ 31 → ∃ inw,
  fold_left wc_char s x = MkCounts (n_l x + lines s) (n_w x + starts (inword x) s) (n_c x + zlen s) inw.
Proof.
  revert x. induction s as [|c s IH]; intros x Hl Hw Hc.
  - exists (inword x). rewrite starts_nil. change (lines []) with 0. change (zlen (@nil Z)) with 0. rewrite !Z.add_0_r. by destruct x.
  - assert (zlen (c :: s) = 1 + zlen s) as Hz by (unfold zlen; simpl; lia). rewrite Hz in *. pose proof (zlen_nonneg s). simpl. rewrite lines_cons, starts_cons.
    destruct (IH (wc_char x c)) as (inw & E); unfold wc_char in *; rewrite ?(i32_id (n_c x + 1)), ?(i32_id (n_l x + 1)), ?(i32_id (n_w x + 1)) in * by lia.
    all: try (destruct (inb blanks c), (inword x), (c =? LF); simpl; lia).
    exists inw. rewrite E. destruct (inb blanks c), (inword x), (c =? LF); cbn [n_l n_w n_c inword negb]; f_equal; lia.
Qed.

(** The file behind the answers of [read], up to its end. *)
Fixpoint contents (rs : list read_result) : option (list Z) :=
  match rs with
  | Bytes [] :: _ | Eof :: _ => Some []
  | Bytes l :: rs => s ← contents rs; Some (l ++ s)
  | _ => None
  end.

(** C28. [wc] counts: however [read] cuts the file into pieces, what is printed are
    the numbers of line ends, of words and of bytes of the whole, and the name. *)
Theorem wc_counts rs s name out : contents rs = Some s → zlen s < 2 ^ 31 →
  wc rs name out = (fprintf (chars "%d %d %d %s" ++ [10; 0]) [Num (lines s); Num (zlen (words s)); Num (zlen s); Str (Some name)] ;; mret true) out.
Proof.
  intros Hrs Hlen. unfold wc.
  assert (∀ x, 0 ≤ n_l x ≤ n_c x → 0 ≤ n_w x ≤ n_c x → n_c x + zlen s < 2 ^ 31 → wc_loop x rs = Some (fold_left wc_char s x)) as Hloop.
  { clear Hlen. revert s Hrs. induction rs as [|[[|c l]| |] rs IH]; cbn [contents wc_loop]; intros s Hrs x Hl Hw Hc; [done|by injection Hrs as <-| |by injection Hrs as <-|done].
    revert Hrs. generalize (c :: l). clear l c. intros l Hrs.
    destruct (contents rs) as [s'|]; [|done]. injection Hrs as <-. rewrite zlen_app in Hc. pose proof (zlen_nonneg s'). rewrite fold_left_app.
    destruct (wc_chars l x Hl Hw ltac:(lia)) as (inw & E). pose proof (lines_bounds l). pose proof (starts_bounds (inword x) l). apply IH; [done|rewrite E; simpl; lia..]. }
  rewrite Hloop by (simpl; lia). destruct (wc_chars s (MkCounts 0 0 0 false)) as (inw & ->); [simpl; lia..|]. cbn [n_l n_w n_c inword].
  unfold starts. by rewrite !Z.add_0_l, Z.sub_0_r.
Qed.
Lemma wc_counts_witness : contents [Bytes [97; 32; 98]; Bytes [99; 10; 10; 100]; Eof] = Some [97; 32; 98; 99; 10; 10; 100] ∧
  wc [Bytes [97; 32; 98]; Bytes [99; 10; 10; 100]; Eof] [120; 0] [] = Ok (true, chars "2 3 7 x" ++ [10]).
Proof.
  split; [done|]. rewrite (wc_counts [Bytes [97; 32; 98]; Bytes [99; 10; 10; 100]; Eof] [97; 32; 98; 99; 10; 10; 100] [120; 0] [] eq_refl eq_refl). by vm_compute.
Defined.
